(* ===== verification/_CoqProject ===== *)
-Q . S2P
Prelude.v
Mem.v
Dll.v
Alloc.v
AllocFacts.v
AllocInv.v
AllocBins.v
AllocLink.v
AllocSafe.v
AllocSearch.v
AllocOs.v
AllocTop.v
AllocRelease.v
AllocMain.v
AllocCreate.v
AllocFuel.v
AllocRoom.v
Heap.v
AllocSpec.v
Queue.v
QueueSpec.v
RingSpec.v
QueueThms.v
Gc.v
GcSpec.v
GcSweep.v
GcCollect.v
GcThms.v
Reserve.v
Tasks.v
TaskSpec.v
ThreadSpec.v
TaskThms.v
Threads.v
Tokens.v
World.v
WorldThms.v
Sync.v
MutexThms.v
RwMutexThms.v
WaitGroupThms.v
Bytes.v
Strings.v
Decimal.v
StrHeap.v
StrSpec.v
StrFormat.v
StringThms.v
Atomics.v
AtomicsThms.v
Arrays.v
ArraySpec.v
ArrayTree.v
ArrayThms.v
Crypto.v
Pool.v
PoolInv.v
PoolThms.v
Diskio.v
Uring.v
Netio.v
NetioInv.v
NetioThms.v
Sockets.v
Os.v
Startup.v
StartupSpec.v
StartupThms.v
Dispatch.v
DispatchSpec.v
DispatchThms.v
Faults.v
Asyncio.v
LinuxCtx.v
DarwinCtx.v
DarwinCtxThms.v
Kqueue.v
DarwinOs.v
DarwinFaults.v
Runs.v
