(* ===== verification/Prelude.v ===== *)
(** * Verification of the picasso-lang C runtime

    picasso-lang compiles to LLVM and links the result with a C runtime,
    src/runtime.  This development models that runtime on Linux and its
    platform layer on macOS: the memory allocator, the collector, the scheduler and its queues, the primitives
    for synchronisation, and the strings, arrays, atomics and hash that
    compiled programs call.  The compiler (src/irgen) and the command-line
    tool (src/cli) are written in Go and are not part of it.

    ** How the runtime works

    A fixed pool of scheduler threads (initutils.c, scheduler.c) runs tasks.
    [thread] builds a task, counts it in [task_count] and pushes it on the
    ready queue (queue.c) of a thread; a thread takes tasks from its own
    queue and runs each until it returns, yields because a timer set its
    preemption flag, or waits for a lock (sync.c) or for I/O.  Every thread
    allocates from its own arena (alloc.c), the runtime itself from a global
    one.  A collector thread (gc.c) stops the scheduler threads at their
    yield points, marks what the stacks and registers of the tasks point to,
    sweeps the arenas, and resumes the threads.

    ** Conventions

    - Integers are [Z]; [uwrap w] and [swrap w] are C's conversions to [w]
      bits and stand where the code converts or lets arithmetic wrap.  Signed
      overflow, a failed assertion, a failed lookup of an argument and a
      system call that ends the program are [None].
    - Memory is word addressed ([Mem.mem]: the word at an address) for
      structures and pointers, and byte addressed ([Bytes.bytes]) for the
      contents of strings and array elements.
    - Sequential code is a function to [option]; concurrent code is a step
      function on a state that keeps one program point per task or thread,
      with one atomic operation, lock operation or wait per step, and the
      theorems quantify over all schedules.
    - The operating system is a parameter: [mmap] is an argument of the
      allocator (class [AllocOs.OSLaws] says it returns fresh aligned pages),
      and [AllocSpec.bump_mmap] is an instance used by the witnesses.

    ** The files, by part of the program

    Shared: Prelude (machine integers, monad, lists), Mem (words), Bytes
    (bytes, [memcpy], [memset], formatting buffers), Dll (circular doubly
    linked lists), Threads (families of program points, locks), Tokens
    (counting the places a task is in).

    Allocator, src/runtime/src/alloc.c and headers/alloc.h.  [Alloc] has one
    definition per function, with the functions' names.  AllocFacts: size
    classes and header words.  AllocInv, AllocBins, AllocLink: the invariant
    (heaps are tiled by chunks; the bins hold exactly the free ones).
    AllocSafe, AllocSearch, AllocOs, AllocTop, AllocRelease, AllocMain,
    AllocCreate: every operation preserves it.  AllocFuel, AllocRoom: loop
    budgets, and memory for several requests.  [Heap] is the interface the
    other parts use ([Heap], [HeapSpec]: allocate and release as a finite
    map of live blocks) with its instance on [Alloc].  AllocSpec: the
    theorems: allocate returns a fresh aligned block of the requested size
    and leaves the live blocks alone, release takes exactly one block away,
    any sequence of requests of a client sees independent blocks that hold
    what it wrote ([AllocSpec.serve] against [AllocSpec.expected]), a new
    arena is well formed, the growth of a heap follows its schedule of sizes
    while a slot of the heap table is left; and two runs that show defects.  Reserve: an arena beside mappings that are not its own, such as
    the stacks of the tasks, still meets the contract of [Heap].

    Queues, queue.c.  [Queue]: the FIFO of ready tasks with its lock and
    condition variable, the ring of waiting tasks, the ring of collector
    roots.  QueueSpec, RingSpec: their representation predicates.
    QueueThms: the FIFO refines a list, no wake-up is lost, rings insert and
    remove the right node, and where the root ring mishandles its lock.

    Collector, gc.c.  [Gc]: marking and sweeping over the heaps of Alloc.
    GcSpec: marking terminates and marks exactly the chunks that contain
    the address of a root word.  GcSweep: the walk of the sweep, which
    stands on old headers of chunks that [release] has merged away, as a
    relation to the state at its start.  GcCollect: several arenas in one
    store, and a whole collection.  GcThms: a collection keeps exactly the
    rooted blocks of every arena, with their contents; nothing is marked
    through a marked object; and what sweeping a released top chunk does.

    Stopping the world, gc.c and scheduler.c.  [World]: [gc_start], which
    [main] calls when scheduler threads already run, and the handshake, as
    interleaved steps.  WorldThms: the invariant of counters and locks, with
    the tasks that [gc_start] forgets, and the schedules on which the
    handshake fails.

    Scheduler pool, scheduler.c and initutils.c.  [Pool]: the run loop of
    every scheduler thread, [thread], and the life of a task from its
    creation to its removal from the count; a ready queue is the list that
    QueueThms shows it to be.  PoolInv: the invariant; a task is in exactly
    one place.  PoolThms: no thread leaves its loop while a task is alive,
    the pool comes to rest only when all is done or a task waits, and a
    task runs on one thread only.

    Tasks as objects, scheduler.c and initutils.c.  [Tasks]: the payload that
    [thread] packs for libffi (class [Tasks.FFI]) and the trampoline unpacks,
    the record, stack mapping and root of a task, and [thread] as a whole.
    TaskSpec, ThreadSpec: the invariant of the tasks, the ring of roots and
    the ready queues on one arena.  TaskThms: the callee gets what the caller
    passed and the payload is given back exactly; [thread] keeps the invariant
    and queues the new task; [task_destroy] takes one task away, stack
    included.

    Start-up, main.c and initutils.c.  [Startup]: [init_io], [init_scheduler],
    the array of the command line and [main] up to the start of the
    collector (class [Startup.IOLib] for liburing and pthreads).
    StartupSpec: tables of new blocks, the argument array.  StartupThms:
    [main] establishes the invariant of the runtime and hands the command
    line to the first task.

    Turns of a scheduler thread, scheduler.c.  [Dispatch]: the loop body of
    [scheduler_run] before and after a task runs, the preemption flags and
    [self_yield], on the memory; when the world is stopped [self_yield] goes
    over into the steps of [World].  DispatchSpec: both halves keep the
    invariant of the runtime.  DispatchThms: the first half hands the task
    over, the second destroys it when it has finished, and a timer makes
    the tasks of its thread yield, or stop when the collector wants it.

    All of it together.  [Runs]: a machine whose steps are the operations of
    [Tasks] and [Dispatch], each taken as a whole, in any order on the twelve
    threads.  It has an invariant over the memory and the places of the threads,
    [Runs.RunInv], which [main] establishes; every step that the code allows
    succeeds, each task is in exactly one place, is called with what it was
    started with, and its thread never sleeps while it waits.  [Pool] and
    [World] split these operations at their atomic accesses instead, without
    the memory.

    Error messages, platform/linux/sigerr.c and utils.c.  [Faults]: what the
    handlers write; their buffers hold every line, and what [_printf] makes
    of a text that is too long for its own.

    System calls, platform/linux/os.c.  [Os]: the number and arguments of the
    call each wrapper makes, over an abstract kernel, and the environment
    functions over the array of variables, which refine a finite map from names
    to values where they have defined behaviour.

    Synchronisation, sync.c.  [Sync]: mutex, read-write mutex and wait
    group.  MutexThms, RwMutexThms, WaitGroupThms: exclusion, absence of lost
    wake-ups, and the schedules on which these fail in the code.

    Strings, strings.c and headers/str.h.  [Strings]: every function.
    Decimal: numbers and their digits.  StrHeap, StrSpec: strings as blocks of
    the heap.  StrFormat, StringThms: [strings_format] writes what a
    reference renderer gives; join, append, substring and comparison do what
    they do on lists of bytes, the comparison up to the conversion of a
    difference of lengths to [int]; numbers print to their digits.

    Atomics, atomics.c.  [Atomics]: the 105 wrappers.  AtomicsThms: values
    stay in their type, additions commute over all interleavings, a compare
    and swap has one winner.

    Arrays and entry points, array.c and ggc.c.  [Arrays]: jagged arrays.
    ArraySpec: clearing and copying.  ArrayTree: the shape of a jagged array
    and its construction.  ArrayThms: allocation and access, extension of
    arrays of elements, and the rows that extension of an array of rows
    keeps and loses.

    Hash, crypto.c.  [Crypto].

    Disk I/O, diskio.c.  [Diskio]: the blocking functions, over a kernel that
    splits and interrupts calls as it likes (class [Diskio.Kernel]).
    They transfer every byte in order and return when the kernel makes
    progress.  [Uring]: the asynchronous operations, the worker and the
    resumption of tasks as interleaved steps; a request
    wakes its task exactly once with its result, unless a submission of the
    task has failed: its entry stays in the ring and is taken along later.
    A task whose submission failed in [async_file_read] returns only in that
    way.  [Asyncio]: the
    asynchronous functions from their arguments to their results.

    Network I/O, netio.c and platform/linux/epoll.c.  [Netio]: the operations
    of tasks and the I/O thread over an epoll interface ([Netio.Epoll], laws in
    [NetioInv.EpollLaws], an instance on finite maps in NetioThms).  NetioInv:
    the invariant while descriptors are not shared.  NetioThms: a waiting task
    is in exactly one place, a write sends its whole buffer; and with a shared
    descriptor the first task is lost.  [Sockets]: [net_listen] and [net_dial]
    as sequences of calls that leak no descriptor.

    Contexts, platform/*/context.c and platform/darwin/context_switcher.S.
    [LinuxCtx]: the functions over libc's contexts (class
    [LinuxCtx.UcontextLaws]).  [DarwinCtx]: the assembly file, instruction by
    instruction, and context.c.  DarwinCtxThms: blocks of
    instructions; switching away and back restores a task; a new context
    calls its function and ends by switching to its scheduler; the saved
    registers are roots of the collector.

    The rest of the macOS layer, platform/darwin.  [Kqueue]: the poller,
    what it registers and reports (class [Kqueue.KernelLaws]).  [DarwinOs]:
    the calls of libc, the vectors of [execve] in the blocks asked for, the
    buffer of [getdents64], conversions.  [DarwinFaults]: threads that install
    their handlers, each with a pipe and a helper thread, crashing threads and
    the helpers that report for them, interleaved.

    ** Bounds and budgets

    The loops of the allocator that follow links take a budget ([fuel]);
    AllocSearch shows that one step per chunk suffices, AllocFuel that a
    larger budget changes nothing, and [Heap] instantiates it with a bound
    computed from the state.  The recursion of the mark phase takes its depth,
    and GcSpec shows that depth 1 is enough since the code does not
    recurse.  [__alloc_array_recursive] takes the rank as its depth.
    [newcap_loop] runs at most 64 times because it doubles a 64-bit value,
    the number formatters at most 20 or 16.  The loops around system calls
    take a budget of calls; [d] calls per byte suffice when one of any [d]
    successive calls makes progress.  Theorems about operations that
    take memory assume that the system grants it ([h_room]), the code has no
    other behaviour than an assertion failure when it does not.

    ** Not modelled

    The functions of libc and of the kernel, which are parameters with laws;
    on Linux that includes making and switching contexts.  The signal handler
    [more_stack], which the code no longer installs.  The runs of [Runs] have
    no task that waits for I/O or for a lock, no collection and no exit of
    the pool, which have machines of their own.  Pointers to code are
    numbers, and a call of the program's own code is a parameter. *)

From Stdlib Require Import ZArith Lia.
From stdpp Require Export prelude gmap.

(** ** Scopes and notation *)

Declare Scope picasso_scope.
Delimit Scope picasso_scope with pic.
#[export] Set Default Goal Selector "!".
Global Open Scope Z_scope.

(** A C pointer is the address it holds; [NULL] is address 0. *)
Abbreviation NULL := 0%Z (only parsing).

(** C's truth value of an integer expression. *)
Definition truthy (z : Z) : bool := negb (z =? 0).

(** ** Machine integers

    A [w]-bit unsigned value is kept in [0, 2^w); a signed one in
    [-2^(w-1), 2^(w-1)).  [uwrap] and [swrap] are C's conversions. *)

Definition uwrap (w z : Z) : Z := z mod 2 ^ w.
Definition swrap (w z : Z) : Z := (z + 2 ^ (w - 1)) mod 2 ^ w - 2 ^ (w - 1).

Abbreviation size_t := (uwrap 64) (only parsing).
Abbreviation ssize_t := (swrap 64) (only parsing).

Definition in_uint (w z : Z) : Prop := 0 <= z < 2 ^ w.
Definition in_sint (w z : Z) : Prop := - 2 ^ (w - 1) <= z < 2 ^ (w - 1).

Lemma uwrap_range (w z : Z) : 0 <= w -> in_uint w (uwrap w z).
Proof. intros. unfold in_uint, uwrap. apply Z.mod_pos_bound. lia. Qed.

Lemma uwrap_small (w z : Z) : in_uint w z -> uwrap w z = z.
Proof. intros H. apply Z.mod_small, H. Qed.

Lemma swrap_range (w z : Z) : 0 < w -> in_sint w (swrap w z).
Proof.
  intros Hw. unfold in_sint, swrap.
  assert (2 ^ w = 2 * 2 ^ (w - 1)) as E.
  { rewrite <- Z.pow_succ_r by lia. f_equal. lia. }
  pose proof (Z.mod_pos_bound (z + 2 ^ (w - 1)) (2 ^ w)). lia.
Qed.

Lemma swrap_small (w z : Z) : 0 < w -> in_sint w z -> swrap w z = z.
Proof.
  intros Hw H. unfold in_sint in H. unfold swrap.
  assert (2 ^ w = 2 * 2 ^ (w - 1)) as E.
  { rewrite <- Z.pow_succ_r by lia. f_equal. lia. }
  rewrite Z.mod_small; lia.
Qed.

Lemma uwrap_uwrap_add (w a b : Z) : uwrap w (uwrap w a + b) = uwrap w (a + b).
Proof. unfold uwrap. apply Zplus_mod_idemp_l. Qed.

Lemma uwrap_uwrap_sub (w a b : Z) : uwrap w (uwrap w a - b) = uwrap w (a - b).
Proof. unfold uwrap. apply Zminus_mod_idemp_l. Qed.

(** A signed wrap only depends on the value modulo 2^w. *)
Lemma swrap_congr (w a b : Z) : uwrap w a = uwrap w b -> swrap w a = swrap w b.
Proof.
  unfold uwrap, swrap. intros H. f_equal.
  rewrite <- Zplus_mod_idemp_l, H, Zplus_mod_idemp_l. reflexivity.
Qed.

Lemma uwrap_swrap (w a : Z) : uwrap w (swrap w a) = uwrap w a.
Proof.
  unfold uwrap, swrap. rewrite Zminus_mod_idemp_l. f_equal. lia.
Qed.

Lemma swrap_swrap_add (w a b : Z) : swrap w (swrap w a + b) = swrap w (a + b).
Proof.
  apply swrap_congr. unfold uwrap.
  rewrite <- Zplus_mod_idemp_l. fold (uwrap w (swrap w a)).
  rewrite uwrap_swrap. unfold uwrap. apply Zplus_mod_idemp_l.
Qed.

Lemma swrap_swrap_sub (w a b : Z) : swrap w (swrap w a - b) = swrap w (a - b).
Proof. apply (swrap_swrap_add w a (- b)). Qed.

(** Converting through a wider unsigned type first makes no difference. *)
Lemma swrap_uwrap (w v z : Z) : 0 <= w <= v -> swrap w (uwrap v z) = swrap w z.
Proof.
  intros Hw. apply swrap_congr. unfold uwrap. replace (2 ^ v) with (2 ^ w * 2 ^ (v - w)) by (rewrite <- Z.pow_add_r by lia; f_equal; lia).
  rewrite Z.rem_mul_r by lia. rewrite Z.mul_comm, Z.mod_add by lia. by rewrite Z.mod_mod by lia.
Qed.

(** ** Aligning up to a power of two

    [(n + (2^k - 1)) & ~(2^k - 1)] of the C code. *)

Lemma land_lnot_ones (n k : Z) :
  0 <= k -> Z.land n (Z.lnot (Z.ones k)) = n - n mod 2 ^ k.
Proof.
  intros Hk. rewrite <- Z.ldiff_land, Z.ldiff_ones_r by done.
  rewrite Z.shiftl_mul_pow2, Z.shiftr_div_pow2 by done.
  pose proof (Z.div_mod n (2 ^ k)). lia.
Qed.

(** Rounding [n] down to a multiple of [m]. *)
Lemma sub_mod_mod (n m : Z) : 0 < m -> (n - n mod m) mod m = 0.
Proof. intros Hm. rewrite Zminus_mod_idemp_r, Z.sub_diag. apply Z.mod_0_l. lia. Qed.

(** A sum of two multiples of [m] is one. *)
Lemma mod_add_0 (a b m : Z) : 0 < m -> a mod m = 0 -> b mod m = 0 -> (a + b) mod m = 0.
Proof. intros Hm Ha Hb. rewrite Z.add_mod, Ha, Hb by lia. apply Z.mod_0_l. lia. Qed.

Lemma mod_sub_0 (a b m : Z) : 0 < m -> a mod m = 0 -> b mod m = 0 -> (a - b) mod m = 0.
Proof. intros Hm Ha Hb. rewrite Zminus_mod, Ha, Hb. apply Z.mod_0_l. lia. Qed.

(** ** Options as C's partial operations

    [None] is a failed [assert], an out-of-bounds array access or an
    exhausted loop budget; a total-correctness theorem shows [Some]. *)

Definition c_assert (b : bool) : option unit := if b then Some tt else None.

Lemma c_assert_true (b : bool) : b = true -> c_assert b = Some tt.
Proof. by intros ->. Qed.

(** [arr[i]] and [arr[i] = v] on a C array; out of range is undefined. *)
Definition arr_get {A} (l : list A) (i : Z) : option A :=
  if 0 <=? i then l !! Z.to_nat i else None.

Definition arr_set {A} (l : list A) (i : Z) (v : A) : option (list A) :=
  if (0 <=? i) && (i <? Z.of_nat (length l)) then Some (<[Z.to_nat i := v]> l) else None.

(** ** Tactics *)

(** Case analysis on the boolean comparisons of the C conditions. *)
Ltac zcases :=
  repeat match goal with
    | |- context [?a <? ?b] => destruct (Z.ltb_spec a b)
    | |- context [?a <=? ?b] => destruct (Z.leb_spec a b)
    | |- context [?a =? ?b] => destruct (Z.eqb_spec a b)
    end.

Ltac zcases_in H :=
  repeat match type of H with
    | context [?a <? ?b] => destruct (Z.ltb_spec a b)
    | context [?a <=? ?b] => destruct (Z.leb_spec a b)
    | context [?a =? ?b] => destruct (Z.eqb_spec a b)
    end.

(** Break hypotheses that are conjunctions or existentials. *)
Ltac break :=
  repeat match goal with
    | H : _ /\ _ |- _ => destruct H
    | H : exists _, _ |- _ => destruct H
    | H : Some _ = Some _ |- _ => injection H as H; try subst
    | H : Some _ = None |- _ => discriminate H
    | H : None = Some _ |- _ => discriminate H
    end.

Create HintDb pic.

#[export] Hint Resolve uwrap_range swrap_range : pic.

(** ** Generic list lemmas *)

Lemma NoDup_app_cons_middle {A} (l1 l2 : list A) (x : A) :
  NoDup (l1 ++ x :: l2) <-> NoDup (l1 ++ l2) /\ (x ∉ l1) /\ (x ∉ l2).
Proof.
  rewrite !NoDup_app, NoDup_cons. set_solver.
Qed.
