(* ===== verification/Mem.v ===== *)
(** * Mem: the word-addressed store the runtime's C structs live in

    Struct fields of the runtime are 8-byte words at 8-byte aligned
    addresses, so a store maps a field's byte address to its word.  Pages
    handed out by [mmap] read as zero, which is the default of [ld]. *)

From S2P Require Import Prelude.

Abbreviation mem := (gmap Z Z).

(** Reading the word at address [a], and assigning to it. *)
Definition ld (m : mem) (a : Z) : Z := default 0 (m !! a).
Definition st (m : mem) (a v : Z) : mem := <[a := v]> m.

(** Fresh anonymous pages: every word of [[a, a+n)] reads zero. *)
Definition zero_region (m : mem) (a n : Z) : mem :=
  filter (fun kv => kv.1 < a \/ a + n <= kv.1) m.

Lemma ld_st_eq (m : mem) (a v : Z) : ld (st m a v) a = v.
Proof. unfold ld, st. by rewrite lookup_insert_eq. Qed.

Lemma ld_st_ne (m : mem) (a b v : Z) : a <> b -> ld (st m a v) b = ld m b.
Proof. intros. unfold ld, st. by rewrite lookup_insert_ne. Qed.

Lemma ld_st (m : mem) (a b v : Z) : ld (st m a v) b = if decide (a = b) then v else ld m b.
Proof. case_decide; subst; [apply ld_st_eq | by apply ld_st_ne]. Qed.

Lemma ld_zero_out (m : mem) (a n b : Z) : b < a \/ a + n <= b -> ld (zero_region m a n) b = ld m b.
Proof.
  intros H. unfold ld, zero_region.
  destruct (m !! b) as [v|] eqn:E.
  - rewrite (map_lookup_filter_Some_2 _ _ _ v); done.
  - by rewrite map_lookup_filter_None_2 by auto.
Qed.

Lemma ld_zero_in (m : mem) (a n b : Z) : a <= b < a + n -> ld (zero_region m a n) b = 0.
Proof.
  intros H. unfold ld, zero_region.
  rewrite map_lookup_filter_None_2; [done|].
  right. intros v _ [?|?]; simpl in *; lia.
Qed.

(** [m'] is [m] except possibly at the addresses satisfying [P]. *)
Definition only_differ (P : Z -> Prop) (m m' : mem) : Prop :=
  forall a, ~ P a -> ld m' a = ld m a.

Lemma only_differ_refl (P : Z -> Prop) (m : mem) : only_differ P m m.
Proof. by intros a _. Qed.

Lemma only_differ_st (P : Z -> Prop) (m : mem) (a v : Z) : P a -> only_differ P m (st m a v).
Proof. intros Ha b Hb. apply ld_st_ne. by intros ->. Qed.

Lemma only_differ_trans (P : Z -> Prop) (m1 m2 m3 : mem) :
  only_differ P m1 m2 -> only_differ P m2 m3 -> only_differ P m1 m3.
Proof. intros H1 H2 a Ha. by rewrite H2, H1. Qed.

Lemma only_differ_weaken (P Q : Z -> Prop) (m m' : mem) :
  (forall a, P a -> Q a) -> only_differ P m m' -> only_differ Q m m'.
Proof. intros HPQ H a Ha. apply H. auto. Qed.

#[export] Hint Resolve only_differ_refl only_differ_st only_differ_trans : pic.

(** Read through the stores of a straight-line sequence of assignments,
    deciding by [lia] which of them an address hits. *)
Ltac ld_step :=
  match goal with
  | |- context [ld (st ?m ?a ?v) ?b] =>
      first [ rewrite (ld_st_ne m a b v) by lia
            | replace b with a by lia; rewrite (ld_st_eq m a v) ]
  end.
Ltac ld_steps := repeat ld_step.
