(* ===== verification/Dll.v ===== *)
(** * Dll: circular doubly linked lists with a sentinel, in the store

    The allocator's bins ([fd]/[bk]), the size-ordered lists of its large
    bins ([next_sizeptr]/[prev_sizeptr]) and the runtime's wait queues are
    all circular doubly linked lists; they differ in the offsets of the two
    link fields and in the node size.  This file relates such a ring to the
    list of its nodes and proves the two primitive splices once. *)

From S2P Require Import Prelude Mem.

(** Nodes of width [w] never overlap. *)
Definition spaced (w : Z) (N : Z -> Prop) : Prop :=
  forall x y, N x -> N y -> x = y \/ x + w <= y \/ y + w <= x.

Lemma default_last_cons {A} (x z : A) (l : list A) :
  default x (last (z :: l)) = default z (last l).
Proof. rewrite last_cons. by destruct (last l). Qed.

Lemma default_last_elem {A} (z : A) (l : list A) : default z (last l) ∈ z :: l.
Proof.
  destruct (last l) as [u|] eqn:E; simpl; [|apply elem_of_cons; auto].
  apply last_Some_elem_of in E. apply elem_of_cons; auto.
Qed.

Lemma default_head_elem {A} (y : A) (l : list A) :
  default y (head l) = y \/ default y (head l) ∈ l.
Proof. destruct l; simpl; [auto|]. right. apply elem_of_cons; auto. Qed.

Section dll.
Context (fo bo w : Z).
Hypothesis Hfo : 0 <= fo < w.
Hypothesis Hbo : 0 <= bo < w.
Hypothesis Hne : fo <> bo.

(** The links run from [x] through the nodes [l] to [y]. *)
Fixpoint chain (m : mem) (x : Z) (l : list Z) (y : Z) : Prop :=
  match l with
  | [] => ld m (x + fo) = y /\ ld m (y + bo) = x
  | z :: l' => ld m (x + fo) = z /\ ld m (z + bo) = x /\ chain m z l' y
  end.

(** The ring with sentinel [h] holds exactly the nodes [l], in order. *)
Definition dll (m : mem) (h : Z) (l : list Z) : Prop :=
  chain m h l h /\ NoDup (h :: l).

(** The effect of splicing [p] in between [a] and [b]. *)
Record linked (m m' : mem) (a p b : Z) : Prop := Linked {
  linked_pf : ld m' (p + fo) = b;
  linked_pb : ld m' (p + bo) = a;
  linked_af : ld m' (a + fo) = p;
  linked_bb : ld m' (b + bo) = p;
  linked_rest : only_differ
    (fun x => x = p + fo \/ x = p + bo \/ x = a + fo \/ x = b + bo) m m'
}.

(** The effect of removing [p] from between [a] and [b]. *)
Record unlinked (m m' : mem) (a p b : Z) : Prop := Unlinked {
  unlinked_af : ld m' (a + fo) = b;
  unlinked_bb : ld m' (b + bo) = a;
  unlinked_rest : only_differ
    (fun x => x = p + fo \/ x = p + bo \/ x = a + fo \/ x = b + bo) m m'
}.

Lemma chain_frame (m m' : mem) (l : list Z) : forall x y,
  (forall n, n = x \/ n ∈ l -> ld m' (n + fo) = ld m (n + fo)) ->
  (forall n, n = y \/ n ∈ l -> ld m' (n + bo) = ld m (n + bo)) ->
  chain m x l y -> chain m' x l y.
Proof using Type.
  clear Hfo Hbo Hne.
  induction l as [|z l IH]; simpl; intros x y Hf Hb Hc.
  - rewrite Hf, Hb by auto. done.
  - destruct Hc as (H1 & H2 & H3).
    rewrite Hf, Hb by (rewrite ?elem_of_cons; auto).
    split_and!; try done.
    apply IH; [intros n Hn; apply Hf | intros n Hn; apply Hb | done];
      rewrite elem_of_cons; tauto.
Qed.

Lemma chain_app (m : mem) (l1 l2 : list Z) (z : Z) : forall x y,
  chain m x (l1 ++ z :: l2) y <-> chain m x l1 z /\ chain m z l2 y.
Proof using Type.
  clear Hfo Hbo Hne.
  induction l1 as [|u l1 IH]; simpl; intros x y.
  - tauto.
  - rewrite IH. tauto.
Qed.

(** A splice leaves a segment alone when none of the words it writes is a
    link of the segment. *)
Lemma chain_splice_frame (m m' : mem) (N : Z -> Prop) (a p b x y : Z) (l : list Z) :
  spaced w N -> N a -> N p -> N b -> (forall n, n ∈ x :: y :: l -> N n) ->
  p ∉ x :: y :: l -> a ∉ x :: l -> b ∉ y :: l ->
  only_differ (fun z => z = p + fo \/ z = p + bo \/ z = a + fo \/ z = b + bo) m m' ->
  chain m x l y -> chain m' x l y.
Proof.
  intros Hs Na Np Nb Nl Hp Ha Hb Hd. apply chain_frame; intros n Hn; apply Hd.
  - assert (N n) as Nn by (apply Nl; rewrite !elem_of_cons; tauto).
    assert (n <> p) by (intros ->; apply Hp; rewrite !elem_of_cons; tauto).
    assert (n <> a) by (intros ->; apply Ha; rewrite !elem_of_cons; tauto).
    pose proof (Hs n p Nn Np). pose proof (Hs n a Nn Na). pose proof (Hs n b Nn Nb). lia.
  - assert (N n) as Nn by (apply Nl; rewrite !elem_of_cons; tauto).
    assert (n <> p) by (intros ->; apply Hp; rewrite !elem_of_cons; tauto).
    assert (n <> b) by (intros ->; apply Hb; rewrite !elem_of_cons; tauto).
    pose proof (Hs n p Nn Np). pose proof (Hs n a Nn Na). pose proof (Hs n b Nn Nb). lia.
Qed.

(** A ring split at the place between [a] (the last of [l1], or the
    sentinel) and [b] (the first of [l2], or the sentinel). *)
Inductive ring_split (h : Z) : list Z -> list Z -> Z -> Z -> Prop :=
| split_nil_nil : ring_split h [] [] h h
| split_nil_cons b l2 : ring_split h [] (b :: l2) h b
| split_snoc_nil l1 a : ring_split h (l1 ++ [a]) [] a h
| split_snoc_cons l1 a b l2 : ring_split h (l1 ++ [a]) (b :: l2) a b.

Lemma ring_split_ends (h : Z) (l1 l2 : list Z) :
  ring_split h l1 l2 (default h (last l1)) (default h (head l2)).
Proof.
  destruct l1 as [|a l1 _] using rev_ind; destruct l2 as [|b l2];
    rewrite ?last_snoc; simpl; constructor.
Qed.

(** Membership bookkeeping: turn [∈] on [::] and [++] into disjunctions,
    [NoDup] into non-memberships, and reason propositionally. *)
Ltac elems :=
  rewrite <- ?app_assoc in *; simpl app in *;
  repeat match goal with
    | H : NoDup (_ :: _) |- _ => apply NoDup_cons in H as [? H]
    | H : NoDup (_ ++ _ :: _) |- _ => apply NoDup_app_cons_middle in H as (H & ? & ?)
    end;
  rewrite ?elem_of_cons, ?elem_of_app, ?elem_of_cons, ?elem_of_app, ?elem_of_nil in *.
Ltac elem_auto :=
  rewrite ?elem_of_cons, ?elem_of_app, ?elem_of_cons, ?elem_of_app, ?elem_of_nil;
  try (intros n Hn; rewrite ?elem_of_cons, ?elem_of_app, ?elem_of_cons, ?elem_of_app, ?elem_of_nil in Hn);
  intuition congruence.
(** [chain_splice_frame] with its membership side conditions. *)
Ltac splice N a p b HN :=
  eapply (chain_splice_frame _ _ N a p b); try eassumption; elems;
  try (intros ? Hnn; apply HN; rewrite ?elem_of_cons, ?elem_of_app, ?elem_of_cons, ?elem_of_app in *; intuition);
  try (apply HN; rewrite ?elem_of_cons, ?elem_of_app, ?elem_of_cons, ?elem_of_app; intuition); intuition congruence.

Lemma dll_link (m m' : mem) (N : Z -> Prop) (h p a b : Z) (l1 l2 : list Z) :
  spaced w N -> (forall n, n ∈ h :: p :: l1 ++ l2 -> N n) ->
  p ∉ h :: l1 ++ l2 -> ring_split h l1 l2 a b -> linked m m' a p b ->
  dll m h (l1 ++ l2) -> dll m' h (l1 ++ p :: l2).
Proof.
  intros Hs HN Hp Hsp [Lpf Lpb Laf Lbb Lr] [Hc Hnd]. split.
  2:{ apply NoDup_cons in Hnd as [? Hnd]. apply NoDup_cons.
      rewrite NoDup_app_cons_middle. elems. intuition congruence. }
  destruct Hsp as [|b l2|l1 a|l1 a b l2]; rewrite ?app_nil_l, ?app_nil_r in *.
  - done.
  - destruct Hc as (_ & _ & Hc). simpl. split_and!; try done. splice N h p b HN.
  - rewrite <- app_assoc. apply chain_app in Hc as [Hc _]. apply chain_app.
    split; [|done]. splice N a p h HN.
  - rewrite <- app_assoc in *. apply chain_app in Hc as [Hc1 (_ & _ & Hc2)].
    apply chain_app. simpl. split_and!; try done.
    + clear Hc2. splice N a p b HN.
    + clear Hc1. splice N a p b HN.
Qed.

Lemma dll_unlink (m m' : mem) (N : Z -> Prop) (h p a b : Z) (l1 l2 : list Z) :
  spaced w N -> (forall n, n ∈ h :: p :: l1 ++ l2 -> N n) ->
  ring_split h l1 l2 a b -> unlinked m m' a p b ->
  dll m h (l1 ++ p :: l2) -> dll m' h (l1 ++ l2).
Proof.
  intros Hs HN Hsp [Laf Lbb Lr] [Hc Hnd].
  apply NoDup_cons in Hnd as [Hh Hnd].
  apply NoDup_app_cons_middle in Hnd as (Hnd & Hp1 & Hp2).
  split; [|apply NoDup_cons; elems; intuition congruence].
  destruct Hsp as [|b l2|l1 a|l1 a b l2]; rewrite ?app_nil_l, ?app_nil_r in *.
  - done.
  - destruct Hc as (_ & _ & _ & _ & Hc). simpl. split_and!; try done. splice N h p b HN.
  - rewrite <- app_assoc in *. apply chain_app in Hc as [Hc _]. apply chain_app.
    split; [|done]. splice N a p h HN.
  - rewrite <- !app_assoc in *. apply chain_app in Hc as [Hc1 (_ & _ & _ & _ & Hc2)].
    apply chain_app. simpl. split_and!; try done.
    + clear Hc2. splice N a p b HN.
    + clear Hc1. splice N a p b HN.
Qed.

(** The neighbours of a member are read off its own link fields. *)
Lemma dll_neighbours (m : mem) (h p : Z) (l1 l2 : list Z) :
  dll m h (l1 ++ p :: l2) -> ring_split h l1 l2 (ld m (p + bo)) (ld m (p + fo)).
Proof using Type.
  clear Hfo Hbo Hne.
  intros [Hc _]. apply chain_app in Hc as [Hc1 Hc2].
  assert (ld m (p + bo) = default h (last l1)) as ->.
  { destruct l1 as [|a l1 _] using rev_ind; [apply Hc1|].
    apply chain_app in Hc1 as [_ Hc1]. rewrite last_snoc. apply Hc1. }
  assert (ld m (p + fo) = default h (head l2)) as -> by (destruct l2; apply Hc2).
  apply ring_split_ends.
Qed.

Lemma dll_first (m : mem) (h : Z) (l : list Z) :
  dll m h l -> ld m (h + fo) = default h (head l).
Proof. intros [Hc _]. destruct l; apply Hc. Qed.

Lemma dll_next (m : mem) (h p : Z) (l1 l2 : list Z) :
  dll m h (l1 ++ p :: l2) -> ld m (p + fo) = default h (head l2).
Proof using Type.
  clear Hfo Hbo Hne. intros [Hc _]. apply chain_app in Hc as [_ Hc]. destruct l2; apply Hc.
Qed.

(** The node before the place where a ring is split. *)
Lemma dll_before (m : mem) (h : Z) (l1 l2 : list Z) :
  dll m h (l1 ++ l2) -> ld m (default h (head l2) + bo) = default h (last l1).
Proof using Type.
  clear Hfo Hbo Hne. intros [Hc _]. destruct l2 as [|b l2]; simpl.
  - rewrite app_nil_r in Hc. destruct l1 as [|a l1 _] using rev_ind; [apply Hc|].
    apply chain_app in Hc as [_ Hc]. rewrite last_snoc. apply Hc.
  - apply chain_app in Hc as [Hc _]. destruct l1 as [|a l1 _] using rev_ind; [apply Hc|].
    apply chain_app in Hc as [_ Hc]. rewrite last_snoc. apply Hc.
Qed.

(** Any node of a ring may serve as its first one. *)
Lemma dll_rotate (m : mem) (x y : Z) (l1 l2 : list Z) :
  dll m x (l1 ++ y :: l2) -> dll m y (l2 ++ x :: l1).
Proof using Type.
  clear Hfo Hbo Hne. intros [Hc Hnd]. apply chain_app in Hc as [Hc1 Hc2]. split.
  - apply chain_app. done.
  - assert ((y :: l2 ++ x :: l1) ≡ₚ (x :: l1 ++ y :: l2)) as -> by apply (Permutation_app_comm (y :: l2) (x :: l1)).
    done.
Qed.

Lemma dll_frame (m m' : mem) (h : Z) (l : list Z) :
  (forall n, n ∈ h :: l -> ld m' (n + fo) = ld m (n + fo) /\ ld m' (n + bo) = ld m (n + bo)) ->
  dll m h l -> dll m' h l.
Proof using Type.
  clear Hfo Hbo Hne.
  intros Hf [Hc Hnd]. split; [|done].
  revert Hc. apply chain_frame; intros n Hn; apply Hf; rewrite elem_of_cons; tauto.
Qed.

Lemma dll_nil (m : mem) (h : Z) : ld m (h + fo) = h -> ld m (h + bo) = h -> dll m h [].
Proof. intros. split; [done|]. apply NoDup_singleton. Qed.
End dll.

(** Updating a family at one index. *)
Definition fupd {I A} `{EqDecision I} (f : I -> A) (i : I) (v : A) : I -> A :=
  fun j => if decide (j = i) then v else f j.

Lemma fupd_eq {I A} `{EqDecision I} (f : I -> A) (i : I) (v : A) : fupd f i v i = v.
Proof. unfold fupd. by rewrite decide_True. Qed.

Lemma fupd_ne {I A} `{EqDecision I} (f : I -> A) (i j : I) (v : A) : j <> i -> fupd f i v j = f j.
Proof. intros. unfold fupd. by rewrite decide_False. Qed.

(** ** A family of disjoint rings, such as the bins of an arena *)
Section rings.
Context (fo bo w : Z).
Hypothesis Hfo : 0 <= fo < w.
Hypothesis Hbo : 0 <= bo < w.
Hypothesis Hne : fo <> bo.
Context {I : Type} `{EqDecision I} (V : I -> Prop) (H : I -> Z).

Definition rings (m : mem) (L : I -> list Z) : Prop :=
  forall i, V i -> dll fo bo m (H i) (L i).

Definition rdisj (L : I -> list Z) : Prop :=
  forall i j x, V i -> V j -> x ∈ H i :: L i -> x ∈ H j :: L j -> i = j.

Lemma rings_frame (m m' : mem) (L : I -> list Z) :
  (forall i n, V i -> n ∈ H i :: L i ->
     ld m' (n + fo) = ld m (n + fo) /\ ld m' (n + bo) = ld m (n + bo)) ->
  rings m L -> rings m' L.
Proof. intros Hf HR i Hi. eapply dll_frame; [|by apply HR]. eauto. Qed.

Lemma ring_split_elem (h a b : Z) (l1 l2 : list Z) :
  ring_split h l1 l2 a b -> a ∈ h :: l1 ++ l2 /\ b ∈ h :: l1 ++ l2.
Proof using Type.
  clear - b.
  intros [|b' l2'|l1' a'|l1' a' b' l2']; rewrite ?elem_of_cons, ?elem_of_app, ?elem_of_cons; tauto.
Qed.

(** Splices in one ring leave the others alone. *)
Lemma rings_splice_other (m m' : mem) (N : Z -> Prop) (L : I -> list Z) (i j : I) (p a b : Z) :
  spaced w N -> (forall k n, V k -> n ∈ H k :: L k -> N n) -> N p ->
  V i -> V j -> j <> i -> rings m L -> rdisj L -> p ∉ H j :: L j ->
  a ∈ H i :: L i -> b ∈ H i :: L i ->
  only_differ (fun z => z = p + fo \/ z = p + bo \/ z = a + fo \/ z = b + bo) m m' ->
  dll fo bo m' (H j) (L j).
Proof.
  intros Hs HN Np Vi Vj Hji HR HD Hp Ha Hb Hd. eapply dll_frame; [|by apply HR].
  intros n Hn. assert (N n) as Nn by eauto.
  assert (n <> p) by (intros ->; done).
  assert (n <> a) by (intros ->; apply Hji; eauto).
  assert (n <> b) by (intros ->; apply Hji; eauto).
  assert (N a) as Na by eauto. assert (N b) as Nb by eauto.
  pose proof (Hs n p Nn Np). pose proof (Hs n a Nn Na). pose proof (Hs n b Nn Nb).
  split; apply Hd; lia.
Qed.

Lemma rings_link (m m' : mem) (N : Z -> Prop) (L : I -> list Z) (i : I) (p a b : Z) (l1 l2 : list Z) :
  spaced w N -> (forall k n, V k -> n ∈ H k :: L k -> N n) -> N p ->
  V i -> rings m L -> rdisj L -> (forall k, V k -> p ∉ H k :: L k) ->
  L i = l1 ++ l2 -> ring_split (H i) l1 l2 a b -> linked fo bo m m' a p b ->
  rings m' (fupd L i (l1 ++ p :: l2)).
Proof.
  intros Hs HN Np Vi HR HD Hp HL Hsp Hl j Vj.
  destruct (decide (j = i)) as [->|Hji].
  - rewrite fupd_eq. pose proof (Hp i Vi) as Hpi. pose proof (HR i Vi) as HRi.
    rewrite HL in *. eapply dll_link; try eassumption.
    intros n Hn. rewrite !elem_of_cons, elem_of_app in Hn.
    destruct Hn as [->|[->|Hn]]; [|done|]; apply (HN i); try done; rewrite HL;
      rewrite elem_of_cons, elem_of_app; tauto.
  - rewrite fupd_ne by done. apply ring_split_elem in Hsp as [Ha Hb]. rewrite <- HL in *.
    eapply (rings_splice_other m m' N L i j p a b); eauto. apply Hl.
Qed.

Lemma rings_unlink (m m' : mem) (N : Z -> Prop) (L : I -> list Z) (i : I) (p a b : Z) (l1 l2 : list Z) :
  spaced w N -> (forall k n, V k -> n ∈ H k :: L k -> N n) ->
  V i -> rings m L -> rdisj L ->
  L i = l1 ++ p :: l2 -> ring_split (H i) l1 l2 a b -> unlinked fo bo m m' a p b ->
  rings m' (fupd L i (l1 ++ l2)).
Proof.
  intros Hs HN Vi HR HD HL Hsp Hl j Vj.
  assert (forall n, n ∈ H i :: p :: l1 ++ l2 -> n ∈ H i :: L i) as Hin.
  { intros n. rewrite HL, !elem_of_cons, !elem_of_app, !elem_of_cons. tauto. }
  destruct (decide (j = i)) as [->|Hji].
  - rewrite fupd_eq. pose proof (HR i Vi) as HRi. rewrite HL in HRi.
    eapply dll_unlink; try eassumption. eauto.
  - rewrite fupd_ne by done. apply ring_split_elem in Hsp as [Ha Hb].
    assert (p ∈ H i :: L i) as Hpi by (apply Hin; rewrite !elem_of_cons; tauto).
    assert (forall n, n ∈ H i :: l1 ++ l2 -> n ∈ H i :: L i) as Hin'.
    { intros n Hn. apply Hin. rewrite !elem_of_cons in *. tauto. }
    eapply (rings_splice_other m m' N L i j p a b); eauto. apply Hl.
Qed.
End rings.
