(* ===== verification/Alloc.v ===== *)
(** * Alloc: the arena allocator (src/runtime/src/alloc.c)

    A chunk is a header of two words, [prev_size] and [size], followed by
    its payload; the low three bits of both words are flags.  A free chunk
    keeps the links of its bin in the first four payload words.  An arena
    owns a set of heaps (each one [mmap]ed block cut into chunks and closed
    by a boundary header), seven singly linked fast bins, and circular
    doubly linked unsorted, small and large bins.

    This file translates the whole of alloc.c.  [None] is a failed
    [assert], a write past [alloced_heaps] or an exhausted loop budget;
    AllocInv.v shows none of them happens to a well-formed arena. *)

From S2P Require Import Prelude Mem.

(** ** The operating system interface the allocator relies on *)

(** [mmap] picks an address given the present mappings ([None] is
    [MAP_FAILED]); the page size and the size of [pthread_mutex_t] are the
    platform's. *)
Class OS := {
  sys_mmap : list (Z * Z) -> Z -> option Z;
  page_size : Z;
  sizeof_mutex : Z
}.

(** ** Constants of alloc.h *)

Definition HEAP_BASE_SIZE : Z := 1024 * 1024.
Definition HEAP_MAX_SIZE : Z := 10737418240.
Definition HEAP_EXPONENTIAL_GROWTH_LIMIT : Z := 64 * 1024 * 1024.
Definition HEAP_CONSTANT_GROWTH : Z := 64 * 1024 * 1024.
Definition MAX_HEAP_GROWTH_ITERATIONS : Z := 159.
Definition MMAP_THRESHOLD : Z := 131072.
Definition HEADER_SIZE : Z := 16.
Definition MIN_PAYLOAD_SIZE : Z := 32.
Definition FASTBINS_COUNT : Z := 7.
Definition SMALLBINS_COUNT : Z := 32.
Definition LARGEBINS_COUNT : Z := 64.
Definition HEAP_BOUNDARY_SIZE : Z := 32.
Definition PREV_IN_USE_FLAG_MASK : Z := 1.
Definition GC_MARK_FLAG_MASK : Z := 2.
Definition CURR_IN_USE_FLAG_MASK : Z := 4.
Definition MMAP_ALLOCATED_FLAG_MASK : Z := 2.
Definition SIZE_BITS : Z := 7.
Definition CHUNK_SIZE_MASK : Z := Z.lnot SIZE_BITS.

(** ** Data *)

(** Field offsets of [free_chunk_t]; its size is 48. *)
Definition o_prev_size : Z := 0.
Definition o_size : Z := 8.
Definition o_fd : Z := 16.
Definition o_bk : Z := 24.
Definition o_next_sizeptr : Z := 32.
Definition o_prev_sizeptr : Z := 40.
Definition sizeof_free_chunk : Z := 48.

(** [alloced_heap_t] *)
Record alloced_heap := AllocedHeap { heap_start : Z; heap_end : Z }.

(** [arena_t].  [alloced_heaps] lists the first [alloced_heap_count]
    entries of the C array; [mu] tells whether the mutex is held. *)
Record arena := Arena {
  fastbins : list Z;
  top_chunk : Z;
  unsortedbin : Z;
  smallbins : list Z;
  largebins : list Z;
  mu : bool;
  heap_expo_growth_iters : Z;
  heap_constant_growth_iters : Z;
  alloced_heaps : list alloced_heap
}.

(** The store, the process's mappings and the arena at hand. *)
Record astate := AState { mm : mem; maps : list (Z * Z); ar : arena }.

Definition with_mm (s : astate) (m : mem) : astate := AState m (maps s) (ar s).
Definition with_ar (s : astate) (a : arena) : astate := AState (mm s) (maps s) a.
Definition with_maps (s : astate) (ms : list (Z * Z)) : astate := AState (mm s) ms (ar s).

Definition set_fastbins (a : arena) (v : list Z) : arena :=
  Arena v (top_chunk a) (unsortedbin a) (smallbins a) (largebins a) (mu a)
    (heap_expo_growth_iters a) (heap_constant_growth_iters a) (alloced_heaps a).
Definition set_top_chunk (a : arena) (v : Z) : arena :=
  Arena (fastbins a) v (unsortedbin a) (smallbins a) (largebins a) (mu a)
    (heap_expo_growth_iters a) (heap_constant_growth_iters a) (alloced_heaps a).
Definition set_mu (a : arena) (v : bool) : arena :=
  Arena (fastbins a) (top_chunk a) (unsortedbin a) (smallbins a) (largebins a) v
    (heap_expo_growth_iters a) (heap_constant_growth_iters a) (alloced_heaps a).
Definition set_expo_iters (a : arena) (v : Z) : arena :=
  Arena (fastbins a) (top_chunk a) (unsortedbin a) (smallbins a) (largebins a) (mu a)
    v (heap_constant_growth_iters a) (alloced_heaps a).
Definition set_constant_iters (a : arena) (v : Z) : arena :=
  Arena (fastbins a) (top_chunk a) (unsortedbin a) (smallbins a) (largebins a) (mu a)
    (heap_expo_growth_iters a) v (alloced_heaps a).
Definition set_alloced_heaps (a : arena) (v : list alloced_heap) : arena :=
  Arena (fastbins a) (top_chunk a) (unsortedbin a) (smallbins a) (largebins a) (mu a)
    (heap_expo_growth_iters a) (heap_constant_growth_iters a) v.

(** ** Size classes *)

Definition align16 (size : Z) : Z := Z.land (size_t (size + 15)) (Z.lnot 15).

Definition get_smallbin_index (size : Z) : Z := swrap 32 (size_t (Z.shiftr size 4 - 1)).

(** [__builtin_clzl], undefined at 0. *)
Definition clzl (x : Z) : Z := 63 - Z.log2 x.

Definition floor_log2 (x : Z) : Z := 8 * 8 - 1 - clzl x.

Definition get_largebin_index (size : Z) : Z :=
  if size <? 512 then -1
  else if size <=? 64 * 1024 then
    let idx := swrap 32 (Z.shiftr (size - 512) 6) in
    if 31 <? idx then 31 else idx
  else
    let lg := floor_log2 size in
    let idx := 32 + (lg - 16) in
    let idx := if idx <? 32 then 32 else idx in
    if 63 <? idx then 63 else idx.

(** ** Header accessors *)

Definition is_prev_inuse (m : mem) (fc : Z) : bool :=
  truthy (Z.land (ld m (fc + o_size)) PREV_IN_USE_FLAG_MASK).
Definition set_prev_inuse (m : mem) (fc : Z) : mem :=
  st m (fc + o_size) (Z.lor (ld m (fc + o_size)) PREV_IN_USE_FLAG_MASK).
Definition unset_prev_inuse (m : mem) (fc : Z) : mem :=
  st m (fc + o_size) (Z.land (ld m (fc + o_size)) (Z.lnot PREV_IN_USE_FLAG_MASK)).
Definition is_curr_inuse (m : mem) (fc : Z) : bool :=
  truthy (Z.land (ld m (fc + o_size)) CURR_IN_USE_FLAG_MASK).
Definition set_curr_inuse (m : mem) (fc : Z) : mem :=
  st m (fc + o_size) (Z.lor (ld m (fc + o_size)) CURR_IN_USE_FLAG_MASK).
Definition unset_curr_inuse (m : mem) (fc : Z) : mem :=
  st m (fc + o_size) (Z.land (ld m (fc + o_size)) (Z.lnot CURR_IN_USE_FLAG_MASK)).
Definition is_mmap_alloced (m : mem) (fc : Z) : bool :=
  truthy (Z.land (ld m (fc + o_size)) MMAP_ALLOCATED_FLAG_MASK).
Definition set_mmap_flag (m : mem) (fc : Z) : mem :=
  st m (fc + o_size) (Z.lor (ld m (fc + o_size)) MMAP_ALLOCATED_FLAG_MASK).
Definition unset_mmap_flag (m : mem) (fc : Z) : mem :=
  st m (fc + o_size) (Z.land (ld m (fc + o_size)) (Z.lnot MMAP_ALLOCATED_FLAG_MASK)).
Definition get_size (m : mem) (fc : Z) : Z :=
  ssize_t (Z.land (ld m (fc + o_size)) CHUNK_SIZE_MASK).
Definition get_prev_size (m : mem) (fc : Z) : Z :=
  ssize_t (Z.land (ld m (fc + o_prev_size)) CHUNK_SIZE_MASK).
Definition get_size_flags (m : mem) (fc : Z) : Z := Z.land (ld m (fc + o_size)) SIZE_BITS.
Definition get_prev_size_flags (m : mem) (fc : Z) : Z := Z.land (ld m (fc + o_prev_size)) SIZE_BITS.
Definition set_size (m : mem) (fc size flags : Z) : mem :=
  st m (fc + o_size) (Z.lor (size_t size) (size_t flags)).
Definition set_prev_size (m : mem) (fc size flags : Z) : option mem :=
  c_assert (negb (size =? 0)) ;;
  Some (st m (fc + o_prev_size) (Z.lor (size_t size) (size_t flags))).
Definition next_chunk (m : mem) (fc : Z) : Z := fc + HEADER_SIZE + get_size m fc.
Definition prev_chunk (m : mem) (fc : Z) : Z := fc - HEADER_SIZE - get_prev_size m fc.

(** ** Bin links *)

Definition set_fdbk_to (m : mem) (fc v : Z) : mem := st (st m (fc + o_bk) v) (fc + o_fd) v.
Definition set_nextprev_sizeptr_to (m : mem) (fc v : Z) : mem :=
  st (st m (fc + o_prev_sizeptr) v) (fc + o_next_sizeptr) v.

Definition unlink_chunk_from_fdlist (m : mem) (p : Z) : mem :=
  if (ld m (p + o_bk) =? NULL) || (ld m (p + o_fd) =? NULL) then m
  else
    let m := st m (ld m (p + o_fd) + o_bk) (ld m (p + o_bk)) in
    let m := st m (ld m (p + o_bk) + o_fd) (ld m (p + o_fd)) in
    st (st m (p + o_bk) NULL) (p + o_fd) NULL.

Definition unlink_chunk_from_sortedlist (m : mem) (p : Z) : mem :=
  if (ld m (p + o_prev_sizeptr) =? NULL) || (ld m (p + o_next_sizeptr) =? NULL) then m
  else
    let m := st m (ld m (p + o_prev_sizeptr) + o_next_sizeptr) (ld m (p + o_next_sizeptr)) in
    let m := st m (ld m (p + o_next_sizeptr) + o_prev_sizeptr) (ld m (p + o_prev_sizeptr)) in
    st (st m (p + o_prev_sizeptr) NULL) (p + o_next_sizeptr) NULL.

Definition insert_into_fdlist (m : mem) (head p : Z) : mem :=
  let m := st m (p + o_fd) (ld m (head + o_fd)) in
  let m := st m (p + o_bk) head in
  let m := st m (ld m (head + o_fd) + o_bk) p in
  st m (head + o_fd) p.

Section os.
Context `{OS}.

(** ** Memory from the operating system *)

Definition align_page (size : Z) : Z :=
  Z.land (size_t (size + page_size - 1)) (Z.lnot (page_size - 1)).

(** [mmap] of anonymous private pages: they read zero. *)
Definition alloc_memory (m : mem) (ms : list (Z * Z)) (size : Z) : option (Z * mem * list (Z * Z)) :=
  match sys_mmap ms size with
  | None => None
  | Some p => Some (p, zero_region m p (align_page size), (p, p + align_page size) :: ms)
  end.

(** [munmap]: an unaligned address or an empty length is an error and
    changes nothing; otherwise the pages of the range are taken out of
    every mapping. *)
Definition unmap_piece (a b : Z) (r : Z * Z) : list (Z * Z) :=
  let '(s, e) := r in
  if (e <=? a) || (b <=? s) then [(s, e)]
  else (if s <? a then [(s, a)] else []) ++ (if b <? e then [(b, e)] else []).
Definition sys_munmap (ms : list (Z * Z)) (a len : Z) : list (Z * Z) :=
  if (a mod page_size =? 0) && negb (len =? 0)
  then mjoin (unmap_piece a (a + align_page len) <$> ms)
  else ms.

(** [alloc_chunk]: [assert(fc != NULL)] is the [None] of [alloc_memory]. *)
Definition alloc_chunk (s : astate) (size : Z) : option (Z * astate) :=
  let total_size := align16 (size_t (size + HEADER_SIZE)) in
  '(fc, m, ms) ← alloc_memory (mm s) (maps s) total_size;
  c_assert (negb (fc =? NULL)) ;;
  let m := set_size m fc (ssize_t size) MMAP_ALLOCATED_FLAG_MASK in
  let m := set_fdbk_to m fc NULL in
  Some (fc, AState m ms (ar s)).

(** [grow_heap]: exponential doubling up to the limit, then linear.  The
    [perror] on a size above [HEAP_MAX_SIZE] only prints.  The code does not
    test [alloced_heap_count]: with the table full the last assignment stores
    behind the array of [MAX_HEAP_GROWTH_ITERATIONS] entries, which C leaves
    undefined; [None] stands for that, not for a check. *)
Definition grow_heap (s : astate) : option astate :=
  let a := ar s in
  let '(next_heap_size, a) :=
    if Z.shiftl HEAP_BASE_SIZE (heap_expo_growth_iters a) <=? HEAP_EXPONENTIAL_GROWTH_LIMIT
    then (size_t (Z.shiftl HEAP_BASE_SIZE (heap_expo_growth_iters a)),
          set_expo_iters a (heap_expo_growth_iters a + 1))
    else (size_t (HEAP_EXPONENTIAL_GROWTH_LIMIT
                  + HEAP_CONSTANT_GROWTH * heap_constant_growth_iters a),
          set_constant_iters a (heap_constant_growth_iters a + 1)) in
  '(new_block, s) ← alloc_chunk (with_ar s a) (size_t (next_heap_size + HEAP_BOUNDARY_SIZE));
  let m := unset_mmap_flag (mm s) new_block in
  let m := set_size m new_block (ssize_t next_heap_size) PREV_IN_USE_FLAG_MASK in
  let a := set_top_chunk (ar s) new_block in
  let boundary := new_block + HEADER_SIZE + next_heap_size in
  let m := set_size m boundary 0 (Z.lor CURR_IN_USE_FLAG_MASK PREV_IN_USE_FLAG_MASK) in
  let m := set_fdbk_to m boundary NULL in
  c_assert (Z.of_nat (length (alloced_heaps a)) <? MAX_HEAP_GROWTH_ITERATIONS) ;;
  let a := set_alloced_heaps a
    (alloced_heaps a ++ [AllocedHeap new_block (new_block + next_heap_size + HEADER_SIZE)]) in
  Some (AState m (maps s) a).

(** ** Putting a chunk into a bin *)

Definition insert_into_fastbin (s : astate) (fc : Z) : option astate :=
  let size := size_t (get_size (mm s) fc) in
  let idx := swrap 32 (size_t (Z.shiftr size 4 - 1)) in
  if (0 <=? idx) && (idx <? FASTBINS_COUNT) then
    head ← arr_get (fastbins (ar s)) idx;
    let m := st (mm s) (fc + o_fd) head in
    fb ← arr_set (fastbins (ar s)) idx fc;
    Some (AState (unset_curr_inuse m fc) (maps s) (set_fastbins (ar s) fb))
  else Some s.

Definition insert_into_smallbin (s : astate) (fc : Z) : option astate :=
  let sz := size_t (get_size (mm s) fc) in
  let idx := get_smallbin_index sz in
  c_assert ((0 <=? idx) && (idx <? SMALLBINS_COUNT)) ;;
  head ← arr_get (smallbins (ar s)) idx;
  Some (with_mm s (insert_into_fdlist (mm s) head fc)).

(** [while (ceil_chunk != head && get_size(ceil_chunk) < size)] *)
Fixpoint find_ceil (fuel : nat) (m : mem) (head size ceil_chunk : Z) : option Z :=
  if negb (ceil_chunk =? head) && (size_t (get_size m ceil_chunk) <? size) then
    match fuel with
    | O => None
    | S fuel => find_ceil fuel m head size (ld m (ceil_chunk + o_next_sizeptr))
    end
  else Some ceil_chunk.

Definition insert_into_largebin (fuel : nat) (s : astate) (fc : Z) : option astate :=
  let size := size_t (get_size (mm s) fc) in
  let idx := get_largebin_index size in
  c_assert ((0 <=? idx) && (idx <? LARGEBINS_COUNT)) ;;
  head ← arr_get (largebins (ar s)) idx;
  c_assert (negb (head =? NULL)) ;;
  ceil_chunk ← find_ceil fuel (mm s) head size (ld (mm s) (head + o_next_sizeptr));
  let m := mm s in
  let floor_chunk := ld m (ceil_chunk + o_prev_sizeptr) in
  let m := st m (fc + o_next_sizeptr) ceil_chunk in
  let m := st m (fc + o_prev_sizeptr) floor_chunk in
  let m := st m (ceil_chunk + o_prev_sizeptr) fc in
  let m := st m (floor_chunk + o_next_sizeptr) fc in
  Some (with_mm s (insert_into_fdlist m head fc)).

Definition insert_into_unsortedbin (s : astate) (fc : Z) : option astate :=
  c_assert (negb (unsortedbin (ar s) =? NULL)) ;;
  let head := unsortedbin (ar s) in
  let m := unset_curr_inuse (mm s) fc in
  let m := unset_prev_inuse m (next_chunk m fc) in
  let next_fc := next_chunk m fc in
  m ← set_prev_size m next_fc (get_size m fc) (get_prev_size_flags m next_fc);
  let m := if 16 <? get_size m fc then set_nextprev_sizeptr_to m fc NULL else m in
  Some (with_mm s (insert_into_fdlist m head fc)).

(** ** Searching the bins *)

Definition fastbin_search (s : astate) (requested_size : Z) : option (Z * astate) :=
  let idx := swrap 32 (size_t (Z.shiftr requested_size 4 - 1)) in
  if (0 <=? idx) && (idx <? FASTBINS_COUNT) then
    victim ← arr_get (fastbins (ar s)) idx;
    if victim =? NULL then Some (NULL, s)
    else
      fb ← arr_set (fastbins (ar s)) idx (ld (mm s) (victim + o_fd));
      let m := st (mm s) (victim + o_fd) NULL in
      Some (victim, AState (set_curr_inuse m victim) (maps s) (set_fastbins (ar s) fb))
  else Some (NULL, s).

Definition smallbin_search (s : astate) (requested_size : Z) : option (Z * astate) :=
  let idx := get_smallbin_index (size_t requested_size) in
  if (0 <=? idx) && (idx <? SMALLBINS_COUNT) then
    head ← arr_get (smallbins (ar s)) idx;
    if ld (mm s) (head + o_fd) =? head then Some (NULL, s)
    else
      let victim := ld (mm s) (head + o_fd) in
      let m := unlink_chunk_from_fdlist (mm s) victim in
      let m := set_curr_inuse m victim in
      let m := set_prev_inuse m (next_chunk m victim) in
      Some (victim, with_mm s m)
  else Some (NULL, s).

(** The split of a free chunk that is at least as large as the request,
    as [largebin_search] and [unsortedbin_search] do it. *)
Definition split_or_take (s : astate) (curr curr_size requested_size : Z) : option (Z * astate) :=
  let remainder_chunk_size := size_t (curr_size - requested_size) in
  if MIN_PAYLOAD_SIZE + HEADER_SIZE <=? remainder_chunk_size then
    let remainder_payload_size := size_t (remainder_chunk_size - HEADER_SIZE) in
    let remainder := curr + HEADER_SIZE + requested_size in
    let m := set_size (mm s) remainder (ssize_t remainder_payload_size) PREV_IN_USE_FLAG_MASK in
    m ← set_prev_size m (next_chunk m remainder) (ssize_t remainder_payload_size) 0;
    s ← insert_into_unsortedbin (with_mm s m) remainder;
    let m := set_size (mm s) curr (ssize_t requested_size) (get_size_flags (mm s) curr) in
    Some (curr, with_mm s (set_curr_inuse m curr))
  else
    let m := set_curr_inuse (mm s) curr in
    Some (curr, with_mm s (set_prev_inuse m (next_chunk m curr))).

(** The inner loop of [largebin_search] over one size-ordered list. *)
Fixpoint largebin_scan (fuel : nat) (s : astate) (head curr requested_size : Z)
  : option (Z * astate) :=
  if curr =? head then Some (NULL, s)
  else
    let next := ld (mm s) (curr + o_next_sizeptr) in
    let curr_size := size_t (get_size (mm s) curr) in
    if requested_size <=? curr_size then
      let m := unlink_chunk_from_fdlist (mm s) curr in
      let m := unlink_chunk_from_sortedlist m curr in
      split_or_take (with_mm s m) curr curr_size requested_size
    else
      match fuel with
      | O => None
      | S fuel => largebin_scan fuel s head next requested_size
      end.

(** [for (i = idx; i < LARGEBINS_COUNT; i++)] over the heads left. *)
Fixpoint largebin_loop (fuel : nat) (s : astate) (heads : list Z) (requested_size : Z)
  : option (Z * astate) :=
  match heads with
  | [] => Some (NULL, s)
  | head :: heads =>
      c_assert (negb (head =? NULL)) ;;
      if head =? ld (mm s) (head + o_next_sizeptr)
      then largebin_loop fuel s heads requested_size
      else
        '(v, s) ← largebin_scan fuel s head (ld (mm s) (head + o_next_sizeptr)) requested_size;
        if v =? NULL then largebin_loop fuel s heads requested_size else Some (v, s)
  end.

Definition largebin_search (fuel : nat) (s : astate) (requested_size : Z) : option (Z * astate) :=
  let idx := get_largebin_index requested_size in
  if (idx <? 0) || (LARGEBINS_COUNT <=? idx) then Some (NULL, s)
  else largebin_loop fuel s (drop (Z.to_nat idx) (largebins (ar s))) requested_size.

(** [fuel] bounds the walk of the unsorted bin; the insertions into large
    bins on the way use [fuel_large]. *)
Fixpoint unsortedbin_loop (fuel fuel_large : nat) (s : astate) (curr requested_size : Z)
  : option (Z * astate) :=
  if curr =? unsortedbin (ar s) then Some (NULL, s)
  else
    let next := ld (mm s) (curr + o_fd) in
    let s := with_mm s (unlink_chunk_from_fdlist (mm s) curr) in
    let curr_size := size_t (get_size (mm s) curr) in
    if requested_size <=? curr_size then split_or_take s curr curr_size requested_size
    else
      s ← (if curr_size <? 16 * SMALLBINS_COUNT
           then insert_into_smallbin s curr
           else insert_into_largebin fuel_large s curr);
      match fuel with
      | O => None
      | S fuel => unsortedbin_loop fuel fuel_large s next requested_size
      end.

Definition unsortedbin_search (fuel : nat) (s : astate) (requested_size : Z) : option (Z * astate) :=
  unsortedbin_loop fuel fuel s (ld (mm s) (unsortedbin (ar s) + o_fd)) requested_size.

Definition carve_from_top_chunk (s : astate) (requested_size : Z) : option (Z * astate) :=
  s ← (if top_chunk (ar s) =? NULL then grow_heap s else Some s);
  let curr := top_chunk (ar s) in
  let curr_size := size_t (get_size (mm s) curr) in
  if requested_size <=? curr_size then
    let remainder_chunk_size := size_t (curr_size - requested_size) in
    if MIN_PAYLOAD_SIZE + HEADER_SIZE <=? remainder_chunk_size then
      let remainder_payload_size := size_t (remainder_chunk_size - HEADER_SIZE) in
      let remainder := curr + HEADER_SIZE + requested_size in
      let m := set_size (mm s) remainder (ssize_t remainder_payload_size) PREV_IN_USE_FLAG_MASK in
      m ← set_prev_size m (next_chunk m remainder) (ssize_t remainder_payload_size) 0;
      let m := set_size m curr (ssize_t requested_size) (get_size_flags m curr) in
      let m := set_curr_inuse m curr in
      Some (curr, AState m (maps s) (set_top_chunk (ar s) remainder))
    else
      let m := set_curr_inuse (mm s) curr in
      let m := set_prev_inuse m (next_chunk m curr) in
      Some (curr, AState m (maps s) (set_top_chunk (ar s) NULL))
  else Some (NULL, s).

(** ** Allocation *)

(** The payload size a request is rounded to. *)
Definition payload_size_of (requested_size : Z) : Z :=
  let payload_size := align16 requested_size in
  if payload_size <? MIN_PAYLOAD_SIZE then MIN_PAYLOAD_SIZE else payload_size.

(** [if(!victim && cond) victim = search(...)] *)
Definition try_next (cond : bool) (search : astate -> option (Z * astate))
    (r : Z * astate) : option (Z * astate) :=
  if (r.1 =? NULL) && cond then search r.2 else Some r.

Definition _allocate (fuel : nat) (s : astate) (requested_size : Z) : option (Z * astate) :=
  if requested_size =? 0 then Some (NULL, s)
  else
    let payload_size := payload_size_of requested_size in
    r ← try_next (MMAP_THRESHOLD <=? payload_size) (fun s => alloc_chunk s payload_size) (NULL, s);
    r ← try_next (payload_size <=? 16 * FASTBINS_COUNT) (fun s => fastbin_search s payload_size) r;
    r ← try_next (payload_size <? 16 * SMALLBINS_COUNT)
          (fun s => smallbin_search s (ssize_t payload_size)) r;
    r ← try_next true (fun s => unsortedbin_search fuel s payload_size) r;
    r ← try_next true (fun s => largebin_search fuel s payload_size) r;
    r ← try_next true (fun s => carve_from_top_chunk s payload_size) r;
    r ← try_next true (fun s =>
          s ← insert_into_unsortedbin s (top_chunk (ar s));
          carve_from_top_chunk (with_ar s (set_top_chunk (ar s) NULL)) payload_size) r;
    Some (r.1 + HEADER_SIZE, r.2).

(** [allocate]: [_allocate] under the arena's mutex; locking a held mutex
    does not return. *)
Definition allocate (fuel : nat) (s : astate) (requested_size : Z) : option (Z * astate) :=
  c_assert (negb (mu (ar s))) ;;
  '(p, s) ← _allocate fuel (with_ar s (set_mu (ar s) true)) requested_size;
  Some (p, with_ar s (set_mu (ar s) false)).

(** ** Release *)

Definition forward_coalesce (s : astate) (fc : Z) : option (Z * astate) :=
  let m := mm s in
  let next_fc := next_chunk m fc in
  if is_curr_inuse m next_fc || (get_size m next_fc <=? 16 * FASTBINS_COUNT) then Some (fc, s)
  else if next_fc =? top_chunk (ar s) then
    let updated_size := size_t (size_t (get_size m fc) + HEADER_SIZE + size_t (get_size m next_fc)) in
    let m := set_size m fc (ssize_t updated_size) (get_size_flags m fc) in
    m ← set_prev_size m (next_chunk m fc) (ssize_t updated_size) 0;
    Some (NULL, AState m (maps s) (set_top_chunk (ar s) fc))
  else
    let m := unlink_chunk_from_fdlist m next_fc in
    let m := unlink_chunk_from_sortedlist m next_fc in
    let updated_size := size_t (size_t (get_size m fc) + HEADER_SIZE + size_t (get_size m next_fc)) in
    let m := set_size m fc (ssize_t updated_size) (get_size_flags m fc) in
    let next_fc := next_chunk m fc in
    m ← set_prev_size m next_fc (ssize_t updated_size) (get_prev_size_flags m next_fc);
    Some (fc, with_mm s m).

Definition backward_coalesce (s : astate) (fc : Z) : option (Z * astate) :=
  let m := mm s in
  if is_prev_inuse m fc then Some (fc, s)
  else
    let prev_fc := prev_chunk m fc in
    if get_size m prev_fc <=? 16 then Some (fc, s)
    else
      let m := unlink_chunk_from_fdlist m prev_fc in
      let m := unlink_chunk_from_sortedlist m prev_fc in
      let updated_size := size_t (size_t (get_size m prev_fc) + HEADER_SIZE + size_t (get_size m fc)) in
      let m := set_size m prev_fc (ssize_t updated_size) (get_size_flags m prev_fc) in
      let fc := next_chunk m prev_fc in
      m ← set_prev_size m fc (ssize_t updated_size) (get_prev_size_flags m fc);
      Some (prev_fc, with_mm s m).

Definition coalesce (s : astate) (fc : Z) : option (Z * astate) :=
  '(fc, s) ← backward_coalesce s fc;
  forward_coalesce s fc.

Definition _release (s : astate) (ptr : Z) : option astate :=
  if ptr =? NULL then Some s
  else
    let fc := ptr - HEADER_SIZE in
    let size := size_t (get_size (mm s) fc) in
    c_assert (negb (size =? 0)) ;;
    if MMAP_THRESHOLD <=? size then
      Some (with_maps s (sys_munmap (maps s) fc (size_t (size + HEADER_SIZE))))
    else if size <=? 16 * FASTBINS_COUNT then insert_into_fastbin s fc
    else
      '(merged_chunk, s) ← coalesce s fc;
      if merged_chunk =? NULL then Some s else insert_into_unsortedbin s merged_chunk.

Definition release (s : astate) (ptr : Z) : option astate :=
  c_assert (negb (mu (ar s))) ;;
  s ← _release (with_ar s (set_mu (ar s) true)) ptr;
  Some (with_ar s (set_mu (ar s) false)).

(** ** Creating an arena *)

(** [sizeof(arena_t)]: 105 pointers, the two bin maps, the mutex, two
    counters, 159 heap records and the heap count padded to 8. *)
Definition sizeof_arena : Z := 8 * (7 + 1 + 1 + 32 + 64) + 8 + sizeof_mutex + 8 + 16 * 159 + 8.

(** Sentinels [curr], [curr + 48], ... each linked to itself. *)
Fixpoint init_bins (init : mem -> Z -> mem) (n : nat) (m : mem) (curr : Z) : mem * list Z :=
  match n with
  | O => (m, [])
  | S n =>
      let m := st (init m curr) (curr + o_size) 0 in
      let '(m, heads) := init_bins init n m (curr + sizeof_free_chunk) in
      (m, curr :: heads)
  end.

Definition arena_create (m : mem) (ms : list (Z * Z)) : option astate :=
  let needed := sizeof_arena + SMALLBINS_COUNT * sizeof_free_chunk
                + LARGEBINS_COUNT * sizeof_free_chunk + sizeof_free_chunk in
  '(block, m, ms) ← alloc_memory m ms (align_page needed);
  c_assert (negb (block =? NULL)) ;;
  let curr := block + sizeof_arena in
  let '(m, small) :=
    init_bins (fun m fc => set_fdbk_to m fc fc) (Z.to_nat SMALLBINS_COUNT) m curr in
  let curr := curr + SMALLBINS_COUNT * sizeof_free_chunk in
  let '(m, large) :=
    init_bins (fun m fc => set_nextprev_sizeptr_to (set_fdbk_to m fc fc) fc fc)
      (Z.to_nat LARGEBINS_COUNT) m curr in
  let ufc := curr + LARGEBINS_COUNT * sizeof_free_chunk in
  let m := st (set_fdbk_to m ufc ufc) (ufc + o_size) 0 in
  grow_heap (AState m ms
    (Arena (replicate (Z.to_nat FASTBINS_COUNT) NULL) NULL ufc small large false 0 0 [])).
End os.
