(* ===== verification/AllocFacts.v ===== *)
(** * AllocFacts: size classes and header words of the allocator

    Arithmetic of [align16] and of the bin indices, and the algebra of the
    [size]/[prev_size] words: every accessor of alloc.c reads one of four
    components of a header, and every mutator changes exactly one. *)

From S2P Require Import Prelude Mem Alloc.

(** ** Rounding *)

Lemma align16_spec (n : Z) :
  0 <= n <= 2 ^ 64 - 16 -> align16 n = (n + 15) / 16 * 16.
Proof.
  intros Hn. unfold align16. rewrite uwrap_small by (unfold in_uint; lia).
  change 15 with (Z.ones 4) at 2. rewrite land_lnot_ones by lia. change (2 ^ 4) with 16.
  pose proof (Z.div_mod (n + 15) 16). lia.
Qed.

Lemma payload_size_of_spec (n : Z) :
  0 < n <= 2 ^ 64 - 16 ->
  n <= payload_size_of n /\ 32 <= payload_size_of n /\ payload_size_of n mod 16 = 0
  /\ payload_size_of n < n + 32.
Proof.
  intros Hn. unfold payload_size_of, MIN_PAYLOAD_SIZE. rewrite align16_spec by lia.
  assert (((n + 15) / 16 * 16) mod 16 = 0) by (apply Z.mod_mul; lia).
  pose proof (Z.div_mod (n + 15) 16). pose proof (Z.mod_pos_bound (n + 15) 16).
  zcases; split_and!; try lia; reflexivity.
Qed.

(** ** Bin indices *)

Lemma shiftr4_index (s : Z) :
  0 <= s < 2 ^ 34 -> swrap 32 (size_t (Z.shiftr s 4 - 1)) = s / 16 - 1.
Proof.
  intros Hs. rewrite Z.shiftr_div_pow2 by lia. change (2 ^ 4) with 16.
  assert (0 <= s / 16 < 2 ^ 30) by (split; [apply Z.div_pos | apply Z.div_lt_upper_bound]; lia).
  destruct (decide (s / 16 = 0)) as [E|E].
  - rewrite E. reflexivity.
  - rewrite uwrap_small, swrap_small; unfold in_uint, in_sint; lia.
Qed.

Lemma get_smallbin_index_spec (s : Z) :
  0 <= s < 2 ^ 34 -> get_smallbin_index s = s / 16 - 1.
Proof. apply shiftr4_index. Qed.

Lemma get_largebin_index_range (s : Z) :
  512 <= s < 2 ^ 64 -> 0 <= get_largebin_index s < LARGEBINS_COUNT.
Proof.
  intros Hs. unfold get_largebin_index, floor_log2, clzl, LARGEBINS_COUNT.
  rewrite Z.shiftr_div_pow2 by lia. change (2 ^ 6) with 64.
  assert (0 <= (s - 512) / 64) by (apply Z.div_pos; lia).
  destruct (Z.ltb_spec s 512); [lia|].
  destruct (Z.leb_spec s (64 * 1024)).
  - assert ((s - 512) / 64 < 2 ^ 20) by (apply Z.div_lt_upper_bound; lia).
    rewrite swrap_small by (unfold in_sint; lia). zcases; lia.
  - destruct (Z.ltb_spec (32 + (8 * 8 - 1 - (63 - Z.log2 s) - 16)) 32); zcases; lia.
Qed.

Lemma get_largebin_index_small (s : Z) : s < 512 -> get_largebin_index s = -1.
Proof. intros. unfold get_largebin_index. by destruct (Z.ltb_spec s 512); [|lia]. Qed.

Lemma get_largebin_index_low (s : Z) :
  512 <= s <= 65536 -> get_largebin_index s = Z.min 31 ((s - 512) / 64).
Proof.
  intros Hs. unfold get_largebin_index.
  rewrite Z.shiftr_div_pow2 by lia. change (2 ^ 6) with 64.
  assert (0 <= (s - 512) / 64 < 2 ^ 20)
    by (split; [apply Z.div_pos | apply Z.div_lt_upper_bound]; lia).
  destruct (Z.ltb_spec s 512); [lia|]. destruct (Z.leb_spec s (64 * 1024)); [|lia].
  rewrite swrap_small by (unfold in_sint; lia). zcases; lia.
Qed.

Lemma get_largebin_index_high (s : Z) :
  65536 < s < 2 ^ 64 -> get_largebin_index s = Z.min 63 (16 + Z.log2 s).
Proof.
  intros Hs. unfold get_largebin_index, floor_log2, clzl.
  assert (16 <= Z.log2 s) by (apply Z.log2_le_pow2; lia).
  destruct (Z.ltb_spec s 512); [lia|]. destruct (Z.leb_spec s (64 * 1024)); [lia|].
  destruct (Z.ltb_spec (32 + (8 * 8 - 1 - (63 - Z.log2 s) - 16)) 32); [lia|]. zcases; lia.
Qed.

(** A larger chunk never lands in a lower large bin, so a search that goes
    up from the request's own bin misses no chunk that is large enough. *)
Lemma get_largebin_index_mono (s s' : Z) :
  s <= s' < 2 ^ 64 -> get_largebin_index s <= get_largebin_index s'.
Proof.
  intros Hs. destruct (Z.lt_ge_cases s 512).
  { rewrite get_largebin_index_small by lia.
    destruct (Z.lt_ge_cases s' 512); [rewrite get_largebin_index_small; lia|].
    pose proof (get_largebin_index_range s'). lia. }
  destruct (Z.le_gt_cases s' 65536).
  { rewrite !get_largebin_index_low by lia.
    pose proof (Z.div_le_mono (s - 512) (s' - 512) 64). lia. }
  rewrite (get_largebin_index_high s') by lia.
  assert (16 <= Z.log2 s') by (apply Z.log2_le_pow2; lia).
  destruct (Z.le_gt_cases s 65536).
  - rewrite get_largebin_index_low by lia. lia.
  - rewrite get_largebin_index_high by lia. pose proof (Z.log2_le_mono s s'). lia.
Qed.

(** ** Header words *)

(** What a header says: payload size, the two flags, and the size recorded
    for the chunk before it. *)
Record hdr := Hdr { hsz : Z; hprev : bool; hcurr : bool; hpsz : Z }.

Definition word_size (w : Z) : Z := Z.land w CHUNK_SIZE_MASK.

Definition hdr_of (m : mem) (a : Z) : hdr :=
  Hdr (word_size (ld m (a + o_size))) (Z.testbit (ld m (a + o_size)) 0)
    (Z.testbit (ld m (a + o_size)) 2) (word_size (ld m (a + o_prev_size))).

(** Bit [i] of the masks of alloc.h. *)
Lemma testbit_small (c i : Z) : 0 <= c < 8 -> 3 <= i -> Z.testbit c i = false.
Proof.
  intros Hc Hi. destruct (decide (c = 0)) as [->|]; [apply Z.bits_0|].
  apply Z.bits_above_log2; [lia|].
  assert (Z.log2 c < 3) by (apply Z.log2_lt_pow2; lia). lia.
Qed.

Lemma testbit_aligned (s i : Z) : s mod 8 = 0 -> i < 3 -> Z.testbit s i = false.
Proof.
  intros Hs Hi. destruct (Z.lt_ge_cases i 0); [by apply Z.testbit_neg_r|].
  rewrite <- (Z.mod_pow2_bits_low s 3) by lia. change (2 ^ 3) with 8. rewrite Hs. apply Z.bits_0.
Qed.

(** Bitwise equality of words built from the flag masks. *)
Ltac word_bits :=
  unfold word_size, CHUNK_SIZE_MASK, SIZE_BITS, PREV_IN_USE_FLAG_MASK, CURR_IN_USE_FLAG_MASK,
    MMAP_ALLOCATED_FLAG_MASK, GC_MARK_FLAG_MASK in *;
  apply Z.bits_inj'; intros i Hi; rewrite ?Z.land_spec, ?Z.lor_spec, ?Z.lnot_spec, ?Z.land_spec by lia;
  destruct (Z.lt_ge_cases i 3);
  [ assert (i = 0 \/ i = 1 \/ i = 2) as [-> | [-> | ->]] by lia; simpl;
    rewrite ?andb_false_r; try reflexivity
  | rewrite ?(testbit_small 7), ?(testbit_small 4), ?(testbit_small 2), ?(testbit_small 1) by lia;
    simpl; rewrite ?andb_true_r, ?orb_false_r, ?andb_false_r; try reflexivity ].

Lemma word_size_lor1 (w : Z) : word_size (Z.lor w 1) = word_size w.
Proof. word_bits. Qed.
Lemma word_size_lor4 (w : Z) : word_size (Z.lor w 4) = word_size w.
Proof. word_bits. Qed.
Lemma word_size_clear1 (w : Z) : word_size (Z.land w (Z.lnot 1)) = word_size w.
Proof. word_bits. Qed.
Lemma word_size_clear4 (w : Z) : word_size (Z.land w (Z.lnot 4)) = word_size w.
Proof. word_bits. Qed.
Lemma word_size_lor2 (w : Z) : word_size (Z.lor w 2) = word_size w.
Proof. word_bits. Qed.
Lemma word_size_clear2 (w : Z) : word_size (Z.land w (Z.lnot 2)) = word_size w.
Proof. word_bits. Qed.

Lemma word_size_mk (s f : Z) : s mod 8 = 0 -> 0 <= f < 8 -> word_size (Z.lor s f) = s.
Proof.
  intros Hs Hf. unfold word_size, CHUNK_SIZE_MASK, SIZE_BITS. change 7 with (Z.ones 3).
  apply Z.bits_inj'. intros i Hi. rewrite Z.land_spec, Z.lor_spec, Z.lnot_spec by lia.
  destruct (Z.lt_ge_cases i 3).
  - rewrite Z.ones_spec_low, testbit_aligned by (done || lia). apply andb_false_r.
  - rewrite Z.ones_spec_high, (testbit_small f) by lia. by rewrite orb_false_r, andb_true_r.
Qed.

Lemma word_size_mod (w : Z) : word_size w mod 8 = 0.
Proof.
  unfold word_size, CHUNK_SIZE_MASK, SIZE_BITS. change 7 with (Z.ones 3).
  rewrite land_lnot_ones by lia. apply sub_mod_mod. lia.
Qed.

Lemma flags_range (w : Z) : 0 <= Z.land w SIZE_BITS < 8.
Proof.
  unfold SIZE_BITS. change 7 with (Z.ones 3). rewrite Z.land_ones by lia.
  apply Z.mod_pos_bound. lia.
Qed.

Lemma testbit_flags (w i : Z) : 0 <= i < 3 -> Z.testbit (Z.land w SIZE_BITS) i = Z.testbit w i.
Proof.
  intros Hi. rewrite Z.land_spec. unfold SIZE_BITS. change 7 with (Z.ones 3).
  rewrite Z.ones_spec_low by lia. apply andb_true_r.
Qed.

Lemma testbit_mk (s f i : Z) : s mod 8 = 0 -> i < 3 -> Z.testbit (Z.lor s f) i = Z.testbit f i.
Proof. intros. rewrite Z.lor_spec, testbit_aligned by done. reflexivity. Qed.

Lemma truthy_land1 (w : Z) : truthy (Z.land w 1) = Z.testbit w 0.
Proof.
  change 1 with (Z.ones 1). rewrite Z.land_ones by lia. change (2 ^ 1) with 2.
  rewrite Zmod_odd, Z.bit0_odd. by destruct (Z.odd w).
Qed.

(** A one-bit mask tests that bit. *)
Lemma truthy_land_bit (w k : Z) : 0 <= k -> truthy (Z.land w (2 ^ k)) = Z.testbit w k.
Proof.
  intros Hk. unfold truthy.
  assert (Z.land w (2 ^ k) = if Z.testbit w k then 2 ^ k else 0) as ->.
  { apply Z.bits_inj'. intros i Hi. rewrite Z.land_spec, Z.pow2_bits_eqb by lia.
    destruct (Z.eqb_spec k i) as [->|Hne].
    - destruct (Z.testbit w i); rewrite ?Z.bits_0, ?Z.pow2_bits_true by lia; reflexivity.
    - destruct (Z.testbit w k); rewrite ?Z.bits_0, ?Z.pow2_bits_false by lia;
        by rewrite andb_false_r. }
  destruct (Z.testbit w k); [|reflexivity].
  pose proof (Z.pow_pos_nonneg 2 k). destruct (Z.eqb_spec (2 ^ k) 0); [lia|reflexivity].
Qed.

(** ** Accessors and mutators on [hdr_of] *)

Lemma hdr_frame (m m' : mem) (b : Z) :
  ld m' (b + o_size) = ld m (b + o_size) -> ld m' (b + o_prev_size) = ld m (b + o_prev_size) ->
  hdr_of m' b = hdr_of m b.
Proof. intros H1 H2. unfold hdr_of. by rewrite H1, H2. Qed.

Lemma hdr_st_ne (m : mem) (x v b : Z) : x <> b -> x <> b + 8 -> hdr_of (st m x v) b = hdr_of m b.
Proof. intros. apply hdr_frame; apply ld_st_ne; unfold o_size, o_prev_size; lia. Qed.

Lemma hdr_st_size (m : mem) (a v : Z) :
  hdr_of (st m (a + o_size) v) a
  = Hdr (word_size v) (Z.testbit v 0) (Z.testbit v 2) (hpsz (hdr_of m a)).
Proof.
  unfold hdr_of. rewrite !ld_st_eq, ld_st_ne by (unfold o_size, o_prev_size; lia). reflexivity.
Qed.

Lemma hdr_st_prev_size (m : mem) (a v : Z) :
  hdr_of (st m (a + o_prev_size) v) a
  = Hdr (hsz (hdr_of m a)) (hprev (hdr_of m a)) (hcurr (hdr_of m a)) (word_size v).
Proof.
  unfold hdr_of. rewrite !ld_st_eq, ld_st_ne by (unfold o_size, o_prev_size; lia). reflexivity.
Qed.

Lemma is_prev_inuse_hdr (m : mem) (a : Z) : is_prev_inuse m a = hprev (hdr_of m a).
Proof. apply (truthy_land_bit _ 0). lia. Qed.

Lemma is_curr_inuse_hdr (m : mem) (a : Z) : is_curr_inuse m a = hcurr (hdr_of m a).
Proof. apply (truthy_land_bit _ 2). lia. Qed.

Lemma get_size_hdr (m : mem) (a : Z) :
  0 <= hsz (hdr_of m a) < 2 ^ 63 -> get_size m a = hsz (hdr_of m a).
Proof. intros H. apply swrap_small; [lia|]. unfold in_sint. simpl in *. lia. Qed.

Lemma get_prev_size_hdr (m : mem) (a : Z) :
  0 <= hpsz (hdr_of m a) < 2 ^ 63 -> get_prev_size m a = hpsz (hdr_of m a).
Proof. intros H. apply swrap_small; [lia|]. unfold in_sint. simpl in *. lia. Qed.

Lemma hdr_set_curr (m : mem) (a : Z) :
  hdr_of (set_curr_inuse m a) a
  = Hdr (hsz (hdr_of m a)) (hprev (hdr_of m a)) true (hpsz (hdr_of m a)).
Proof.
  unfold set_curr_inuse. rewrite hdr_st_size. unfold CURR_IN_USE_FLAG_MASK.
  rewrite word_size_lor4, !Z.lor_spec, orb_true_r, orb_false_r. reflexivity.
Qed.

Lemma hdr_unset_curr (m : mem) (a : Z) :
  hdr_of (unset_curr_inuse m a) a
  = Hdr (hsz (hdr_of m a)) (hprev (hdr_of m a)) false (hpsz (hdr_of m a)).
Proof.
  unfold unset_curr_inuse. rewrite hdr_st_size. unfold CURR_IN_USE_FLAG_MASK.
  rewrite word_size_clear4, !Z.land_spec, !Z.lnot_spec, andb_false_r, andb_true_r by lia.
  reflexivity.
Qed.

Lemma hdr_set_prev (m : mem) (a : Z) :
  hdr_of (set_prev_inuse m a) a
  = Hdr (hsz (hdr_of m a)) true (hcurr (hdr_of m a)) (hpsz (hdr_of m a)).
Proof.
  unfold set_prev_inuse. rewrite hdr_st_size. unfold PREV_IN_USE_FLAG_MASK.
  rewrite word_size_lor1, !Z.lor_spec, orb_true_r, orb_false_r. reflexivity.
Qed.

Lemma hdr_unset_prev (m : mem) (a : Z) :
  hdr_of (unset_prev_inuse m a) a
  = Hdr (hsz (hdr_of m a)) false (hcurr (hdr_of m a)) (hpsz (hdr_of m a)).
Proof.
  unfold unset_prev_inuse. rewrite hdr_st_size. unfold PREV_IN_USE_FLAG_MASK.
  rewrite word_size_clear1, !Z.land_spec, !Z.lnot_spec, andb_false_r, andb_true_r by lia.
  reflexivity.
Qed.

Lemma mod16_mod8 (s : Z) : s mod 16 = 0 -> s mod 8 = 0.
Proof. intros Hs. pose proof (Z.div_mod s 16). rewrite (Z.div_mod s 16), Hs by lia.
  rewrite Z.add_0_r. change 16 with (8 * 2). rewrite <- Z.mul_assoc, Z.mul_comm.
  apply Z.mod_mul. lia. Qed.

Lemma hdr_set_size (m : mem) (a s f : Z) :
  0 <= s < 2 ^ 64 -> s mod 16 = 0 -> 0 <= f < 8 ->
  hdr_of (set_size m a s f) a = Hdr s (Z.testbit f 0) (Z.testbit f 2) (hpsz (hdr_of m a)).
Proof.
  intros Hs Hs16 Hf. apply mod16_mod8 in Hs16.
  unfold set_size. rewrite !uwrap_small by (unfold in_uint; lia).
  rewrite hdr_st_size, word_size_mk, !testbit_mk by (done || lia). reflexivity.
Qed.

(** [set_size(fc, n, get_size_flags(fc))] changes the size alone. *)
Lemma hdr_resize (m : mem) (a s : Z) :
  0 <= s < 2 ^ 64 -> s mod 16 = 0 ->
  hdr_of (set_size m a s (get_size_flags m a)) a
  = Hdr s (hprev (hdr_of m a)) (hcurr (hdr_of m a)) (hpsz (hdr_of m a)).
Proof.
  intros Hs Hs16. rewrite hdr_set_size by (done || apply flags_range).
  unfold get_size_flags. rewrite !testbit_flags by lia. reflexivity.
Qed.

Lemma set_prev_size_ok (m : mem) (a s f : Z) :
  s <> 0 -> set_prev_size m a s f = Some (st m (a + o_prev_size) (Z.lor (size_t s) (size_t f))).
Proof. intros Hs. unfold set_prev_size. destruct (Z.eqb_spec s 0); [done|reflexivity]. Qed.

(** Bit 1 of a [prev_size] word is the collector's mark. *)
Lemma set_prev_size_mark (s f : Z) :
  0 <= s < 2 ^ 64 -> s mod 16 = 0 -> 0 <= f < 8 ->
  Z.testbit (Z.lor (size_t s) (size_t f)) 1 = Z.testbit f 1.
Proof.
  intros Hs Hs16 Hf. apply mod16_mod8 in Hs16. rewrite !uwrap_small by (unfold in_uint; lia).
  apply testbit_mk; [done|lia].
Qed.

Lemma prev_flags_mark (m : mem) (a : Z) : Z.testbit (get_prev_size_flags m a) 1 = Z.testbit (ld m a) 1.
Proof. unfold get_prev_size_flags, o_prev_size. rewrite Z.add_0_r. apply testbit_flags. lia. Qed.

(** What a scan of the heap by the collector reads of the header at [b]:
    the size, the in-use flag and the mark. *)
Definition scan_view (m : mem) (b : Z) : Z * bool * bool :=
  (hsz (hdr_of m b), hcurr (hdr_of m b), Z.testbit (ld m b) 1).

Lemma scan_view_frame (m m' : mem) (b : Z) :
  ld m' (b + o_size) = ld m (b + o_size) -> ld m' b = ld m b -> scan_view m' b = scan_view m b.
Proof. intros E1 E2. unfold scan_view, hdr_of. cbn [hsz hcurr]. by rewrite E1, E2. Qed.

Lemma scan_view_hdr (m m' : mem) (b : Z) :
  hsz (hdr_of m' b) = hsz (hdr_of m b) -> hcurr (hdr_of m' b) = hcurr (hdr_of m b) ->
  Z.testbit (ld m' b) 1 = Z.testbit (ld m b) 1 -> scan_view m' b = scan_view m b.
Proof. intros E1 E2 E3. unfold scan_view. by rewrite E1, E2, E3. Qed.

Lemma hdr_set_prev_size (m : mem) (a s f : Z) :
  0 <= s < 2 ^ 64 -> s mod 16 = 0 -> 0 <= f < 8 ->
  hdr_of (st m (a + o_prev_size) (Z.lor (size_t s) (size_t f))) a
  = Hdr (hsz (hdr_of m a)) (hprev (hdr_of m a)) (hcurr (hdr_of m a)) s.
Proof.
  intros Hs Hs16 Hf. apply mod16_mod8 in Hs16. rewrite !uwrap_small by (unfold in_uint; lia).
  rewrite hdr_st_prev_size, word_size_mk by done. reflexivity.
Qed.

(** Reduce the fields of an explicit header. *)
Ltac hsimp := cbn [hsz hprev hcurr hpsz].
