(* ===== verification/AllocInv.v ===== *)
(** * AllocInv: the well-formedness invariant of an arena

    The heaps of an arena are tiled by chunks.  [HInv] relates the header
    words to an abstract map from chunk address to payload size and status;
    [KInv] relates the link words to the abstract contents of the bins.
    The lemmas of the first part are the header transitions the allocator
    performs (change of status, split, merge, new heap). *)

From S2P Require Import Prelude Mem Dll Alloc AllocFacts.

(** The status of a tile.  [Used]: handed out.  [Fast]: in a fast bin.
    [Free]: in the unsorted, a small or a large bin.  [Top]: the top chunk.
    [Loose] and [Limbo] only exist inside an operation: a chunk taken off
    its bin, and a chunk being released. *)
Inductive status := Used | Fast | Free | Top | Loose | Limbo.

#[export] Instance status_eq_dec : EqDecision status.
Proof. solve_decision. Defined.

(** Does the next chunk's header say that this one is free? *)
Definition coal (st : status) : bool :=
  match st with Free | Loose => true | _ => false end.

(** What the chunk's own in-use flag may be. *)
Definition curr_ok (st : status) (c : bool) : Prop :=
  match st with Used => c = true | Fast | Free => c = false | _ => True end.

Abbreviation tiles := (gmap Z (Z * status)).

(** ** The header invariant *)

(** Addresses that carry a header: tiles, and the boundary closing a heap. *)
Definition hnode (hs : list alloced_heap) (G : tiles) (b : Z) : Prop :=
  is_Some (G !! b) \/ exists h, h ∈ hs /\ b = heap_end h.

Record HInv (hd : Z -> hdr) (hs : list alloced_heap) (t : Z) (G : tiles) : Prop := {
  H_tile : forall a s st, G !! a = Some (s, st) ->
    32 <= s /\ s mod 16 = 0 /\ a mod 16 = 0 /\ 0 < a /\ hsz (hd a) = s;
  H_sep : forall a s st a' s' st', G !! a = Some (s, st) -> G !! a' = Some (s', st') ->
    a = a' \/ a + 16 + s <= a' \/ a' + 16 + s' <= a;
  H_next : forall a s st, G !! a = Some (s, st) -> exists h, h ∈ hs /\
    heap_start h <= a /\ a + 16 + s <= heap_end h /\
    (a + 16 + s = heap_end h \/ is_Some (G !! (a + 16 + s)));
  H_pred : forall b, is_Some (G !! b) ->
    (exists h, h ∈ hs /\ b = heap_start h) \/
    (exists a s st, G !! a = Some (s, st) /\ a + 16 + s = b);
  H_heap : forall h, h ∈ hs ->
    is_Some (G !! heap_start h) /\ hprev (hd (heap_start h)) = true /\
    hcurr (hd (heap_end h)) = true /\ heap_start h + 48 <= heap_end h <= 2 ^ 62;
  H_heaps : forall h h', h ∈ hs -> h' ∈ hs ->
    h = h' \/ heap_end h + 32 <= heap_start h' \/ heap_end h' + 32 <= heap_start h;
  H_curr : forall a s st, G !! a = Some (s, st) -> curr_ok st (hcurr (hd a));
  H_prev : forall a s st, G !! a = Some (s, st) ->
    hprev (hd (a + 16 + s)) = negb (coal st) /\
    (coal st = true -> hpsz (hd (a + 16 + s)) = s);
  H_top : forall a s, G !! a = Some (s, Top) -> a = t;
  H_top_end : t <> 0 -> exists s h, G !! t = Some (s, Top) /\ h ∈ hs /\ t + 16 + s = heap_end h
}.

(** Looking a tile up after the map was updated. *)
Ltac tile_cases :=
  repeat match goal with
    | H : <[?i := _]> _ !! ?j = _ |- _ =>
        rewrite lookup_insert in H; destruct (decide (i = j)); simplify_eq
    | H : delete ?i _ !! ?j = _ |- _ =>
        rewrite lookup_delete in H; destruct (decide (i = j)); simplify_eq
    end.

Section header.
Context (hd : Z -> hdr) (hs : list alloced_heap) (t : Z) (G : tiles).
Context (HI : HInv hd hs t G).

Lemma H_next_hnode (a s : Z) (st : status) :
  G !! a = Some (s, st) -> hnode hs G (a + 16 + s).
Proof.
  intros Ha. destruct (H_next _ _ _ _ HI _ _ _ Ha) as (h & Hh & _ & _ & [E|E]).
  - right. eauto.
  - by left.
Qed.

Lemma H_end_not_tile (h : alloced_heap) : h ∈ hs -> G !! heap_end h = None.
Proof.
  intros Hh. destruct (G !! heap_end h) as [[s st]|] eqn:E; [|done]. exfalso.
  destruct (H_next _ _ _ _ HI _ _ _ E) as (h' & Hh' & ? & ? & _).
  destruct (H_tile _ _ _ _ HI _ _ _ E) as (? & _).
  destruct (H_heap _ _ _ _ HI _ Hh) as (_ & _ & _ & ?).
  destruct (H_heaps _ _ _ _ HI _ _ Hh Hh') as [->|?]; lia.
Qed.

(** Any header-carrying address is the tile itself, at or after its end,
    or at least one header before it. *)
Lemma H_hnode_sep (a s b : Z) (st : status) :
  G !! a = Some (s, st) -> hnode hs G b -> b = a \/ a + 16 + s <= b \/ b + 32 <= a.
Proof.
  intros Ha [[[s' st'] Hb]|(h & Hh & ->)].
  - destruct (H_tile _ _ _ _ HI _ _ _ Hb) as (? & _).
    destruct (H_sep _ _ _ _ HI _ _ _ _ _ _ Ha Hb); lia.
  - destruct (H_next _ _ _ _ HI _ _ _ Ha) as (h' & Hh' & ? & ? & _).
    destruct (H_tile _ _ _ _ HI _ _ _ Ha) as (? & _).
    destruct (H_heap _ _ _ _ HI _ Hh) as (_ & _ & _ & ?).
    destruct (H_heaps _ _ _ _ HI _ _ Hh Hh') as [->|?]; lia.
Qed.

Lemma H_hnode_apart (b c : Z) :
  hnode hs G b -> hnode hs G c -> b = c \/ b + 16 <= c \/ c + 16 <= b.
Proof.
  intros Hb Hc. destruct Hb as [[[s st] Hb]|(h & Hh & ->)].
  { destruct (H_tile _ _ _ _ HI _ _ _ Hb). destruct (H_hnode_sep _ _ _ _ Hb Hc); lia. }
  destruct Hc as [[[s st] Hc]|(h' & Hh' & ->)].
  - destruct (H_tile _ _ _ _ HI _ _ _ Hc).
    destruct (H_hnode_sep c s (heap_end h) st Hc); [right; eauto|lia..].
  - destruct (H_heap _ _ _ _ HI _ Hh) as (_ & _ & _ & ?).
    destruct (H_heap _ _ _ _ HI _ Hh') as (_ & _ & _ & ?).
    destruct (H_heaps _ _ _ _ HI _ _ Hh Hh') as [->|?]; [by left|lia].
Qed.

Lemma H_start_not_end (h : alloced_heap) (a s : Z) (st : status) :
  h ∈ hs -> G !! a = Some (s, st) -> heap_start h <> a + 16 + s.
Proof.
  intros Hh Ha E. destruct (H_next _ _ _ _ HI _ _ _ Ha) as (h' & Hh' & ? & ? & _).
  destruct (H_tile _ _ _ _ HI _ _ _ Ha) as (? & _).
  destruct (H_heap _ _ _ _ HI _ Hh) as (_ & _ & _ & ?).
  destruct (H_heaps _ _ _ _ HI _ _ Hh Hh') as [->|?]; lia.
Qed.

(** Two tiles with the same end are the same tile. *)
Lemma H_same_end (a s a' s' : Z) (st st' : status) :
  G !! a = Some (s, st) -> G !! a' = Some (s', st') -> a + 16 + s = a' + 16 + s' ->
  a = a' /\ s = s' /\ st = st'.
Proof.
  intros Ha Ha' E.
  destruct (H_tile _ _ _ _ HI _ _ _ Ha) as (? & _).
  destruct (H_tile _ _ _ _ HI _ _ _ Ha') as (? & _).
  assert (a = a') as <- by (destruct (H_sep _ _ _ _ HI _ _ _ _ _ _ Ha Ha'); lia).
  by simplify_eq.
Qed.

Lemma H_size_bound (a s : Z) (st : status) : G !! a = Some (s, st) -> a + 16 + s <= 2 ^ 62.
Proof.
  intros Ha. destruct (H_next _ _ _ _ HI _ _ _ Ha) as (h & Hh & ? & ? & _).
  destruct (H_heap _ _ _ _ HI _ Hh) as (_ & _ & _ & ?). lia.
Qed.

(** *** Change of status in place *)
Lemma H_restatus (hd' : Z -> hdr) (a s : Z) (st0 st : status) (t' : Z) :
  G !! a = Some (s, st0) -> st <> Top ->
  (forall b, hnode hs G b -> b <> a -> b <> a + 16 + s -> hd' b = hd b) ->
  hsz (hd' a) = s -> hprev (hd' a) = hprev (hd a) -> hpsz (hd' a) = hpsz (hd a) ->
  curr_ok st (hcurr (hd' a)) ->
  hsz (hd' (a + 16 + s)) = hsz (hd (a + 16 + s)) ->
  hcurr (hd' (a + 16 + s)) = hcurr (hd (a + 16 + s)) ->
  hprev (hd' (a + 16 + s)) = negb (coal st) ->
  (coal st = true -> hpsz (hd' (a + 16 + s)) = s) ->
  t' = (if decide (st0 = Top) then 0 else t) ->
  HInv hd' hs t' (<[a := (s, st)]> G).
Proof.
  intros Ha Hst Heq Hsz Hpv Hps Hcu Nsz Ncu Npv Nps Ht'.
  destruct (H_tile _ _ _ _ HI _ _ _ Ha) as (Hs32 & Hs16 & Ha16 & Ha0 & Hasz).
  set (n := a + 16 + s) in *.
  (** every header of a tile other than [a] keeps its size and in-use flag *)
  assert (forall b, hnode hs G b -> b <> a ->
    hsz (hd' b) = hsz (hd b) /\ hcurr (hd' b) = hcurr (hd b)) as Hsame.
  { intros b Hb Hne. destruct (decide (b = n)) as [->|]; [done|]. by rewrite Heq. }
  assert (forall b, is_Some (<[a := (s, st)]> G !! b) <-> is_Some (G !! b)) as Hdom.
  { intros b. rewrite lookup_insert. destruct (decide (a = b)); [|reflexivity]. subst. rewrite Ha. split; eauto. }
  split.
  - intros b s' st' Hb. tile_cases; [tauto|].
    destruct (H_tile _ _ _ _ HI _ _ _ Hb) as (? & ? & ? & ? & ?).
    destruct (Hsame b) as [-> _]; [left; eauto|done|]. tauto.
  - intros b s1 st1 b' s2 st2 Hb Hb'. tile_cases; eauto using H_sep.
  - intros b s' st' Hb. setoid_rewrite Hdom. tile_cases; eauto using H_next.
  - intros b Hb. apply Hdom in Hb. destruct (H_pred _ _ _ _ HI _ Hb) as [?|(a' & s' & st' & H1 & H2)].
    + by left.
    + right. destruct (decide (a' = a)) as [->|].
      * exists a, s, st. rewrite lookup_insert_eq. simplify_eq. done.
      * exists a', s', st'. by rewrite lookup_insert_ne.
  - intros h Hh. destruct (H_heap _ _ _ _ HI _ Hh) as (H1 & H2 & H3 & H4).
    split_and!; [by apply Hdom| |..]; try done; try lia.
    + destruct (decide (heap_start h = a)) as [E|]; [by rewrite E, Hpv, <- E|].
      destruct (decide (heap_start h = n)) as [E|]; [|rewrite Heq; try done; by left].
      exfalso. eapply H_start_not_end; eauto.
    + destruct (Hsame (heap_end h)) as [_ ->]; [right; eauto| |done].
      intros E. pose proof (H_end_not_tile _ Hh). congruence.
  - apply H_heaps with (1 := HI).
  - intros b s' st' Hb. tile_cases; [done|].
    destruct (Hsame b) as [_ ->]; [left; eauto|done|]. eauto using H_curr.
  - intros b s' st' Hb. tile_cases; [done|].
    destruct (H_prev _ _ _ _ HI _ _ _ Hb) as [H1 H2].
    assert (b + 16 + s' <> n) as Hne.
    { intros E. destruct (H_same_end _ _ _ _ _ _ Hb Ha E). done. }
    destruct (decide (b + 16 + s' = a)) as [E|]; [rewrite E in *; by rewrite Hpv, Hps|].
    rewrite Heq; try done. eauto using H_next_hnode.
  - intros b s' Hb. tile_cases. pose proof (H_top _ _ _ _ HI _ _ Hb) as ->.
    case_decide; [|done]. subst. pose proof (H_top _ _ _ _ HI _ _ Ha). done.
  - intros Ht. case_decide; [lia|]. subst t'.
    destruct (H_top_end _ _ _ _ HI Ht) as (s' & h & H1 & H2 & H3). exists s', h.
    rewrite lookup_insert_ne; [done|]. intros ->. simplify_eq.
Qed.

Lemma H_ext (hd' : Z -> hdr) :
  (forall b, hnode hs G b -> hd' b = hd b) -> HInv hd' hs t G.
Proof.
  intros Heq. split.
  - intros b s st Hb. rewrite Heq by (left; eauto). eauto using H_tile.
  - eauto using H_sep.
  - eauto using H_next.
  - eauto using H_pred.
  - intros h Hh. pose proof (H_heap _ _ _ _ HI _ Hh) as Hp.
    rewrite !Heq; [done|right; eauto|left; tauto].
  - eauto using H_heaps.
  - intros b s st Hb. rewrite Heq by (left; eauto). eauto using H_curr.
  - intros b s st Hb. rewrite Heq by eauto using H_next_hnode. eauto using H_prev.
  - eauto using H_top.
  - eauto using H_top_end.
Qed.

(** *** Cutting a tile in two: the front is handed out *)
Lemma H_split (hd' : Z -> hdr) (a s r : Z) (st0 st2 : status) (t' : Z) :
  G !! a = Some (s, st0) -> 32 <= r -> r mod 16 = 0 -> 48 <= s - r ->
  (forall b, hnode hs G b -> b <> a -> b <> a + 16 + s -> hd' b = hd b) ->
  hsz (hd' a) = r -> hprev (hd' a) = hprev (hd a) -> hpsz (hd' a) = hpsz (hd a) ->
  hcurr (hd' a) = true ->
  hsz (hd' (a + 16 + r)) = s - r - 16 -> hprev (hd' (a + 16 + r)) = true ->
  curr_ok st2 (hcurr (hd' (a + 16 + r))) ->
  hsz (hd' (a + 16 + s)) = hsz (hd (a + 16 + s)) ->
  hcurr (hd' (a + 16 + s)) = hcurr (hd (a + 16 + s)) ->
  hprev (hd' (a + 16 + s)) = negb (coal st2) ->
  (coal st2 = true -> hpsz (hd' (a + 16 + s)) = s - r - 16) ->
  (st0 = Top <-> st2 = Top) -> t' = (if decide (st0 = Top) then a + 16 + r else t) ->
  HInv hd' hs t' (<[a + 16 + r := (s - r - 16, st2)]> (<[a := (r, Used)]> G)).
Proof.
  intros Ha Hr32 Hr16 Hsr Heq Hsz Hpv Hps Hcu Rsz Rpv Rcu Nsz Ncu Npv Nps Htt Ht'.
  destruct (H_tile _ _ _ _ HI _ _ _ Ha) as (Hs32 & Hs16 & Ha16 & Ha0 & Hasz).
  remember (a + 16 + s) as n eqn:En. remember (a + 16 + r) as rem eqn:Erem.
  set (G' := <[rem := _]> _).
  assert (G !! rem = None) as Hrem.
  { destruct (G !! rem) as [[s1 st1]|] eqn:E; [|done].
    destruct (H_tile _ _ _ _ HI _ _ _ E).
    destruct (H_sep _ _ _ _ HI _ _ _ _ _ _ Ha E); lia. }
  assert (G' !! a = Some (r, Used)) as G'a.
  { unfold G'. rewrite lookup_insert_ne, lookup_insert_eq by lia. done. }
  assert (G' !! rem = Some (s - r - 16, st2)) as G'r by apply lookup_insert_eq.
  assert (forall b, b <> a -> b <> rem -> G' !! b = G !! b) as G'o.
  { intros b ? ?. unfold G'. by rewrite !lookup_insert_ne by done. }
  assert (forall b, is_Some (G !! b) -> is_Some (G' !! b)) as Hdom.
  { intros b Hb. destruct (decide (b = a)) as [->|]; [eauto|].
    destruct (decide (b = rem)) as [->|]; [eauto|]. by rewrite G'o. }
  assert (forall b s' st', G' !! b = Some (s', st') ->
    (b = a /\ s' = r /\ st' = Used) \/ (b = rem /\ s' = s - r - 16 /\ st' = st2) \/
    (b <> a /\ b <> rem /\ G !! b = Some (s', st'))) as Hinv.
  { intros b s' st' Hb. destruct (decide (b = a)) as [->|]; [left; split_and!; congruence|].
    destruct (decide (b = rem)) as [->|]; [right; left; split_and!; congruence|].
    right; right. rewrite G'o in Hb by done. done. }
  assert (forall b, hnode hs G b -> b <> a ->
    hsz (hd' b) = hsz (hd b) /\ hcurr (hd' b) = hcurr (hd b)) as Hsame.
  { intros b Hb Hne. destruct (decide (b = n)) as [->|]; [done|]. by rewrite Heq. }
  assert (rem mod 16 = 0) by (rewrite Erem; repeat apply mod_add_0; done || lia).
  assert ((s - r - 16) mod 16 = 0) by (repeat apply mod_sub_0; done || lia).
  split.
  - intros b s' st' Hb. apply Hinv in Hb as [(-> & -> & ->)|[(-> & -> & ->)|(? & ? & Hb)]].
    + tauto.
    + split_and!; (done || lia).
    + destruct (H_tile _ _ _ _ HI _ _ _ Hb) as (? & ? & ? & ? & ?).
      destruct (Hsame b) as [-> _]; [left; eauto|done|]. tauto.
  - intros b s1 st1 b' s2 st2' Hb Hb'.
    apply Hinv in Hb as [(-> & -> & ->)|[(-> & -> & ->)|(? & ? & Hb)]];
      apply Hinv in Hb' as [(-> & -> & ->)|[(-> & -> & ->)|(? & ? & Hb')]]; try lia.
    + destruct (H_sep _ _ _ _ HI _ _ _ _ _ _ Ha Hb'); lia.
    + destruct (H_sep _ _ _ _ HI _ _ _ _ _ _ Ha Hb'); lia.
    + destruct (H_sep _ _ _ _ HI _ _ _ _ _ _ Ha Hb); lia.
    + destruct (H_sep _ _ _ _ HI _ _ _ _ _ _ Ha Hb); lia.
    + eauto using H_sep.
  - intros b s' st' Hb. apply Hinv in Hb as [(-> & -> & ->)|[(-> & -> & ->)|(? & ? & Hb)]].
    + destruct (H_next _ _ _ _ HI _ _ _ Ha) as (h & ? & ? & ? & _).
      exists h. split_and!; try lia; [done|]. right. rewrite <- Erem. eauto.
    + destruct (H_next _ _ _ _ HI _ _ _ Ha) as (h & ? & ? & ? & He).
      exists h. replace (rem + 16 + (s - r - 16)) with n by lia. rewrite <- En in He.
      split_and!; try lia; [done|]. destruct He; [by left|right; auto].
    + destruct (H_next _ _ _ _ HI _ _ _ Hb) as (h & ? & ? & ? & He).
      exists h. split_and!; try lia; [done|]. destruct He; [by left|right; auto].
  - intros b [[s' st'] Hb]. apply Hinv in Hb as [(-> & -> & ->)|[(-> & -> & ->)|(? & ? & Hb)]].
    + destruct (H_pred _ _ _ _ HI a) as [?|(a1 & s1 & st1 & Q1 & Q2)]; [eauto|by left|].
      right. exists a1, s1, st1. split; [|done]. rewrite G'o; [done| |].
      * intros ->. simplify_eq. lia.
      * intros ->. congruence.
    + right. exists a, r, Used. done.
    + destruct (H_pred _ _ _ _ HI b) as [?|(a1 & s1 & st1 & Q1 & Q2)]; [eauto|by left|].
      right. destruct (decide (a1 = a)) as [->|].
      * exists rem, (s - r - 16), st2. simplify_eq. split; [done|lia].
      * exists a1, s1, st1. split; [|done]. rewrite G'o; [done..|]. intros ->. congruence.
  - intros h Hh. destruct (H_heap _ _ _ _ HI _ Hh) as (Q1 & Q2 & Q3 & Q4).
    split_and!; try lia; [by apply Hdom| |].
    + destruct (decide (heap_start h = a)) as [E|]; [by rewrite E, Hpv, <- E|].
      destruct (decide (heap_start h = n)) as [E|];
        [|rewrite (Heq (heap_start h)); [done|by left|done|done]].
      destruct (H_start_not_end _ _ _ _ Hh Ha). congruence.
    + destruct (Hsame (heap_end h)) as [_ ->]; [right; eauto| |done].
      intros E. pose proof (H_end_not_tile _ Hh). congruence.
  - apply H_heaps with (1 := HI).
  - intros b s' st' Hb. apply Hinv in Hb as [(-> & -> & ->)|[(-> & -> & ->)|(? & ? & Hb)]]; try done.
    destruct (Hsame b) as [_ ->]; [left; eauto|done|]. eauto using H_curr.
  - intros b s' st' Hb. apply Hinv in Hb as [(-> & -> & ->)|[(-> & -> & ->)|(? & ? & Hb)]].
    + rewrite <- Erem. done.
    + replace (rem + 16 + (s - r - 16)) with n by lia. done.
    + destruct (H_prev _ _ _ _ HI _ _ _ Hb) as [Q1 Q2].
      assert (b + 16 + s' <> n) as Hne.
      { rewrite En. intros E. destruct (H_same_end _ _ _ _ _ _ Hb Ha E). done. }
      destruct (decide (b + 16 + s' = a)) as [E|]; [rewrite E in *; by rewrite Hpv, Hps|].
      rewrite Heq; try done. eauto using H_next_hnode.
  - intros b s' Hb. apply Hinv in Hb as [(_ & _ & ?)|[(-> & -> & <-)|(? & ? & Hb)]]; [done| |].
    + rewrite Ht'. rewrite decide_True by (apply Htt; done). done.
    + pose proof (H_top _ _ _ _ HI _ _ Hb) as Et. rewrite Ht'.
      destruct (decide (st0 = Top)) as [->|]; [|done].
      pose proof (H_top _ _ _ _ HI _ _ Ha). congruence.
  - intros Ht. destruct (decide (st0 = Top)) as [->|].
    + assert (st2 = Top) as -> by by apply Htt. subst t'.
      pose proof (H_top _ _ _ _ HI _ _ Ha) as Eat.
      destruct (H_top_end _ _ _ _ HI) as (s' & h & Q1 & Q2 & Q3); [lia|].
      exists (s - r - 16), h. simplify_eq. split_and!; try done. lia.
    + subst t'. destruct (H_top_end _ _ _ _ HI Ht) as (s' & h & Q1 & Q2 & Q3).
      exists s', h. rewrite G'o; [done| |]; intros ->; simplify_eq.
Qed.

(** *** Joining two adjacent tiles *)
Lemma H_merge (hd' : Z -> hdr) (a s1 s2 : Z) (st1 st2 st : status) (t' : Z) :
  G !! a = Some (s1, st1) -> G !! (a + 16 + s1) = Some (s2, st2) ->
  st1 <> Top ->
  (forall b, hnode hs G b -> b <> a -> b <> a + 16 + s1 + 16 + s2 -> hd' b = hd b) ->
  hsz (hd' a) = s1 + 16 + s2 -> hprev (hd' a) = hprev (hd a) -> hpsz (hd' a) = hpsz (hd a) ->
  curr_ok st (hcurr (hd' a)) ->
  hsz (hd' (a + 16 + s1 + 16 + s2)) = hsz (hd (a + 16 + s1 + 16 + s2)) ->
  hcurr (hd' (a + 16 + s1 + 16 + s2)) = hcurr (hd (a + 16 + s1 + 16 + s2)) ->
  hprev (hd' (a + 16 + s1 + 16 + s2)) = hprev (hd (a + 16 + s1 + 16 + s2)) ->
  (coal st = true -> hpsz (hd' (a + 16 + s1 + 16 + s2)) = s1 + 16 + s2) ->
  coal st = coal st2 ->
  (st2 = Top <-> st = Top) -> t' = (if decide (st2 = Top) then a else t) ->
  HInv hd' hs t' (<[a := (s1 + 16 + s2, st)]> (delete (a + 16 + s1) G)).
Proof.
  intros Ha Hb Hst1 Heq Hsz Hpv Hps Hcu Nsz Ncu Npv Nps Hco Htt Ht'.
  destruct (H_tile _ _ _ _ HI _ _ _ Ha) as (Hs1 & Hs16 & Ha16 & Ha0 & Hasz).
  destruct (H_tile _ _ _ _ HI _ _ _ Hb) as (Hs2 & Hs216 & _ & _ & Hbsz).
  remember (a + 16 + s1) as b eqn:Eb. remember (b + 16 + s2) as n eqn:En.
  set (G' := <[a := _]> _).
  assert (G' !! a = Some (s1 + 16 + s2, st)) as G'a by apply lookup_insert_eq.
  assert (G' !! b = None) as G'b.
  { unfold G'. rewrite lookup_insert_ne, lookup_delete_eq by lia. done. }
  assert (forall x, x <> a -> x <> b -> G' !! x = G !! x) as G'o.
  { intros x ? ?. unfold G'. by rewrite lookup_insert_ne, lookup_delete_ne by done. }
  assert (forall x, is_Some (G !! x) -> x <> b -> is_Some (G' !! x)) as Hdom.
  { intros x Hx ?. destruct (decide (x = a)) as [->|]; [eauto|]. by rewrite G'o. }
  assert (forall x s' st', G' !! x = Some (s', st') ->
    (x = a /\ s' = s1 + 16 + s2 /\ st' = st) \/
    (x <> a /\ x <> b /\ G !! x = Some (s', st'))) as Hinv.
  { intros x s' st' Hx. destruct (decide (x = a)) as [->|]; [left; split_and!; congruence|].
    destruct (decide (x = b)) as [->|]; [congruence|]. rewrite G'o in Hx by done. auto. }
  assert (forall x, hnode hs G x -> x <> a ->
    hsz (hd' x) = hsz (hd x) /\ hcurr (hd' x) = hcurr (hd x)) as Hsame.
  { intros x Hx Hne. destruct (decide (x = n)) as [->|]; [done|]. by rewrite Heq. }
  split.
  - intros x s' st' Hx. apply Hinv in Hx as [(-> & -> & ->)|(? & ? & Hx)].
    + split_and!; try done; [lia|]. repeat apply mod_add_0; done || lia.
    + destruct (H_tile _ _ _ _ HI _ _ _ Hx) as (? & ? & ? & ? & ?).
      destruct (Hsame x) as [-> _]; [left; eauto|done|]. tauto.
  - intros x sx stx y sy sty Hx Hy.
    apply Hinv in Hx as [(-> & -> & ->)|(? & ? & Hx)];
      apply Hinv in Hy as [(-> & -> & ->)|(? & ? & Hy)]; try lia.
    + destruct (H_sep _ _ _ _ HI _ _ _ _ _ _ Ha Hy);
        destruct (H_sep _ _ _ _ HI _ _ _ _ _ _ Hb Hy);
        destruct (H_tile _ _ _ _ HI _ _ _ Hy); lia.
    + destruct (H_sep _ _ _ _ HI _ _ _ _ _ _ Ha Hx);
        destruct (H_sep _ _ _ _ HI _ _ _ _ _ _ Hb Hx);
        destruct (H_tile _ _ _ _ HI _ _ _ Hx); lia.
    + eauto using H_sep.
  - intros x s' st' Hx. apply Hinv in Hx as [(-> & -> & ->)|(? & ? & Hx)].
    + destruct (H_next _ _ _ _ HI _ _ _ Ha) as (h & Hh & ? & ? & _).
      destruct (H_next _ _ _ _ HI _ _ _ Hb) as (h' & Hh' & ? & ? & He).
      replace (a + 16 + (s1 + 16 + s2)) with n by lia. rewrite <- En in *.
      exists h'. split_and!; try done; [|].
      * destruct (H_heaps _ _ _ _ HI _ _ Hh Hh') as [<-|?]; lia.
      * destruct He; [by left|right; apply Hdom; [done|lia]].
    + destruct (H_next _ _ _ _ HI _ _ _ Hx) as (h & Hh & ? & ? & He).
      exists h. split_and!; try done. destruct He as [?|He]; [by left|]. right.
      apply Hdom; [done|]. intros E. rewrite Eb in E.
      destruct (H_same_end _ _ _ _ _ _ Hx Ha E). done.
  - intros x [[s' st'] Hx]. apply Hinv in Hx as [(-> & -> & ->)|(? & ? & Hx)].
    + destruct (H_pred _ _ _ _ HI a) as [?|(c & sc & stc & Q1 & Q2)]; [eauto|by left|].
      right. destruct (H_tile _ _ _ _ HI _ _ _ Q1).
      exists c, sc, stc. rewrite G'o; [done|lia|lia].
    + destruct (H_pred _ _ _ _ HI x) as [?|(c & sc & stc & Q1 & Q2)]; [eauto|by left|].
      right. destruct (decide (c = b)) as [->|].
      * exists a, (s1 + 16 + s2), st. simplify_eq. split; [done|lia].
      * exists c, sc, stc. split; [|done]. rewrite G'o; [done| |done].
        intros ->. simplify_eq.
  - intros h Hh. destruct (H_heap _ _ _ _ HI _ Hh) as (Q1 & Q2 & Q3 & Q4).
    assert (heap_start h <> b) by (rewrite Eb; by eapply H_start_not_end).
    split_and!; try lia; [by apply Hdom| |].
    + destruct (decide (heap_start h = a)) as [E|]; [by rewrite E, Hpv, <- E|].
      destruct (decide (heap_start h = n)) as [E|];
        [|rewrite (Heq (heap_start h)); [done|by left|done|done]].
      destruct (H_start_not_end _ _ _ _ Hh Hb). congruence.
    + destruct (Hsame (heap_end h)) as [_ ->]; [right; eauto| |done].
      intros E. pose proof (H_end_not_tile _ Hh). congruence.
  - apply H_heaps with (1 := HI).
  - intros x s' st' Hx. apply Hinv in Hx as [(-> & -> & ->)|(? & ? & Hx)]; [done|].
    destruct (Hsame x) as [_ ->]; [left; eauto|done|]. eauto using H_curr.
  - intros x s' st' Hx. apply Hinv in Hx as [(-> & -> & ->)|(? & ? & Hx)].
    + replace (a + 16 + (s1 + 16 + s2)) with n by lia.
      destruct (H_prev _ _ _ _ HI _ _ _ Hb) as [Q1 Q2].
      rewrite Npv, En, Q1, Hco. rewrite <- Hco, <- En. done.
    + destruct (H_prev _ _ _ _ HI _ _ _ Hx) as [Q1 Q2].
      assert (x + 16 + s' <> n) as Hne.
      { rewrite En. intros E. destruct (H_same_end _ _ _ _ _ _ Hx Hb E). done. }
      destruct (decide (x + 16 + s' = a)) as [E|]; [rewrite E in *; by rewrite Hpv, Hps|].
      rewrite Heq; try done. eauto using H_next_hnode.
  - intros x s' Hx. apply Hinv in Hx as [(-> & -> & <-)|(? & ? & Hx)]; rewrite Ht'.
    + rewrite decide_True by (apply Htt; done). done.
    + pose proof (H_top _ _ _ _ HI _ _ Hx) as Et.
      destruct (decide (st2 = Top)) as [->|]; [|done].
      pose proof (H_top _ _ _ _ HI _ _ Hb). congruence.
  - intros Ht. destruct (decide (st2 = Top)) as [->|].
    + assert (st = Top) as -> by by apply Htt. subst t'.
      pose proof (H_top _ _ _ _ HI _ _ Hb) as Ebt.
      destruct (H_top_end _ _ _ _ HI) as (s' & h & Q1 & Q2 & Q3); [lia|].
      exists (s1 + 16 + s2), h. rewrite <- Ebt in *. simplify_eq. split_and!; try done. lia.
    + rewrite Ht' in *. destruct (H_top_end _ _ _ _ HI Ht) as (s' & h & Q1 & Q2 & Q3).
      exists s', h. rewrite G'o; [done| |]; intros ->; simplify_eq.
Qed.

(** *** A new heap, whose only tile is the new top *)
Lemma H_grow (hd' : Z -> hdr) (p sz : Z) (h := AllocedHeap p (p + sz + 16)) :
  t = 0 -> 0 < p -> p mod 16 = 0 -> 32 <= sz -> sz mod 16 = 0 -> p + sz + 16 <= 2 ^ 62 ->
  (forall h', h' ∈ hs -> heap_end h' + 32 <= p \/ p + sz + 48 <= heap_start h') ->
  (forall b, hnode hs G b -> hd' b = hd b) ->
  hsz (hd' p) = sz -> hprev (hd' p) = true ->
  hcurr (hd' (p + 16 + sz)) = true -> hprev (hd' (p + 16 + sz)) = true ->
  HInv hd' (hs ++ [h]) p (<[p := (sz, Top)]> G).
Proof.
  pose proof H_next_hnode as Hnn. intros Ht0 Hp0 Hp16 Hsz32 Hsz16 Hbnd Hdisj Heq Psz Ppv Ecu Epv.
  assert (heap_end h = p + sz + 16) as Eend by reflexivity.
  assert (heap_start h = p) as Est by reflexivity.
  clearbody h. replace (p + 16 + sz) with (heap_end h) in * by lia.
  assert (forall x s st, G !! x = Some (s, st) ->
    x + 16 + s + 32 <= p \/ p + sz + 48 <= x) as Hfar.
  { intros x s st Hx. destruct (H_next _ _ _ _ HI _ _ _ Hx) as (h' & Hh' & ? & ? & _).
    destruct (Hdisj _ Hh'); lia. }
  assert (G !! p = None) as Hp.
  { destruct (G !! p) as [[s st]|] eqn:E; [|done].
    destruct (H_tile _ _ _ _ HI _ _ _ E). apply Hfar in E. lia. }
  assert (forall x, is_Some (G !! x) -> is_Some (<[p := (sz, Top)]> G !! x)) as Hdom.
  { intros x Hx. rewrite lookup_insert. destruct (decide _); eauto. }
  assert (forall h', h' ∈ hs ++ [h] <-> h' ∈ hs \/ h' = h) as Hel.
  { intros h'. rewrite elem_of_app, list_elem_of_singleton. done. }
  split.
  - intros x s st Hx. tile_cases; [done|]. rewrite Heq by (left; eauto). eauto using H_tile.
  - intros x s st x' s' st' Hx Hx'. tile_cases; try (by left); eauto using H_sep;
      first [apply Hfar in Hx' | apply Hfar in Hx]; lia.
  - intros x s st Hx. setoid_rewrite Hel. tile_cases.
    + exists h. split_and!; [by right|lia..].
    + destruct (H_next _ _ _ _ HI _ _ _ Hx) as (h' & ? & ? & ? & He).
      exists h'. split_and!; try done; [by left|]. destruct He; auto.
  - intros x [[s st] Hx]. setoid_rewrite Hel. tile_cases; [left; exists h; auto|].
    destruct (H_pred _ _ _ _ HI x) as [(h' & ? & ?)|(c & sc & stc & Q1 & Q2)]; [eauto|left; eauto|].
    right. exists c, sc, stc. rewrite lookup_insert_ne; [done|]. congruence.
  - intros h' Hh'. apply Hel in Hh' as [Hh'| ->].
    + destruct (H_heap _ _ _ _ HI _ Hh') as (Q1 & Q2 & Q3 & Q4).
      rewrite !Heq; [|right; eauto|by left]. auto.
    + rewrite Est, lookup_insert_eq. split_and!; try done; lia.
  - intros h1 h2 H1 H2. apply Hel in H1 as [H1| ->]; apply Hel in H2 as [H2| ->]; try (by left).
    + eauto using H_heaps.
    + right. destruct (Hdisj _ H1); lia.
    + right. destruct (Hdisj _ H2); lia.
  - intros x s st Hx. tile_cases; [done|]. rewrite Heq by (left; eauto). eauto using H_curr.
  - intros x s st Hx. tile_cases.
    + match goal with |- hprev (hd' ?e) = _ /\ _ => replace e with (heap_end h) by lia end. done.
    + rewrite Heq by eauto. eauto using H_prev.
  - intros x s Hx. tile_cases; [done|]. pose proof (H_top _ _ _ _ HI _ _ Hx).
    destruct (H_tile _ _ _ _ HI _ _ _ Hx) as (? & _ & _ & ? & _). lia.
  - intros _. exists sz, h. rewrite lookup_insert_eq, Hel. split_and!; auto; lia.
Qed.
End header.
