(* ===== verification/AllocBins.v ===== *)
(** * AllocBins: the bins of an arena and the splices that change them

    [KInv] relates the link words of the store to abstract bins: one list
    of chunk addresses per unsorted, small and large bin, the size-ordered
    list of each large bin, and one list per fast bin.  The lemmas show what
    the list surgery of alloc.c does to them. *)

From Stdlib Require Import Sorted.
From S2P Require Import Prelude Mem Dll Alloc AllocFacts AllocInv.

Inductive bin := BUnsorted | BSmall (i : nat) | BLarge (i : nat).

#[export] Instance bin_eq_dec : EqDecision bin.
Proof. solve_decision. Defined.

Definition valid_bin (b : bin) : Prop :=
  match b with BUnsorted => True | BSmall i => (i < 32)%nat | BLarge i => (i < 64)%nat end.

Definition is_large (b : bin) : bool := match b with BLarge _ => true | _ => false end.

(** The sentinel of a bin. *)
Definition head_of (a : arena) (b : bin) : Z :=
  match b with
  | BUnsorted => unsortedbin a
  | BSmall i => nth i (smallbins a) 0
  | BLarge i => nth i (largebins a) 0
  end.

(** The payload sizes a bin may hold. *)
Definition bin_fits (b : bin) (s : Z) : Prop :=
  match b with
  | BUnsorted => True
  | BSmall i => s = 16 * (Z.of_nat i + 1)
  | BLarge i => get_largebin_index s = Z.of_nat i
  end.

(** Abstract contents of the bins. *)
Record bins := Bins { bl : bin -> list Z; sl : nat -> list Z; fl : nat -> list Z }.

(** A null-terminated singly linked list through [fd]. *)
Fixpoint sll (m : mem) (x : Z) (l : list Z) : Prop :=
  match l with
  | [] => x = NULL
  | y :: l' => x = y /\ x <> NULL /\ sll m (ld m (y + o_fd)) l'
  end.

Definition tile_size (G : tiles) (x : Z) : Z := from_option fst 0 (G !! x).

Record KInv (m : mem) (a : arena) (G : tiles) (B : bins) : Prop := {
  K_lens : length (fastbins a) = 7%nat /\ length (smallbins a) = 32%nat
           /\ length (largebins a) = 64%nat;
  K_rings : rings o_fd o_bk valid_bin (head_of a) m (bl B);
  K_mem : forall b x, x ∈ bl B b -> valid_bin b /\ exists s, G !! x = Some (s, Free) /\ bin_fits b s;
  K_uniq : forall b b' x, x ∈ bl B b -> x ∈ bl B b' -> b = b';
  K_all : forall x s, G !! x = Some (s, Free) -> exists b, x ∈ bl B b;
  K_srings : rings o_next_sizeptr o_prev_sizeptr (fun i => (i < 64)%nat)
               (fun i => head_of a (BLarge i)) m (sl B);
  K_smem : forall i x, x ∈ sl B i <-> x ∈ bl B (BLarge i);
  K_sort : forall i, StronglySorted Z.le (tile_size G <$> sl B i);
  K_null : forall b x, is_large b = false -> x ∈ bl B b ->
    ld m (x + o_next_sizeptr) = NULL /\ ld m (x + o_prev_sizeptr) = NULL;
  K_fast : forall i, (i < 7)%nat -> sll m (nth i (fastbins a) 0) (fl B i);
  K_fmem : forall i x, x ∈ fl B i -> (i < 7)%nat /\ G !! x = Some (16 * (Z.of_nat i + 1), Fast);
  K_fnd : forall i, NoDup (fl B i);
  K_fall : forall x s, G !! x = Some (s, Fast) -> exists i, x ∈ fl B i
}.

(** The sentinels are apart from each other and from the heaps. *)
Record HeadsOK (a : arena) (hs : list alloced_heap) : Prop := {
  heads_pos : forall b, valid_bin b -> 0 < head_of a b;
  heads_heap : forall b h, valid_bin b -> h ∈ hs ->
    head_of a b + 48 <= heap_start h \/ heap_end h + 32 <= head_of a b;
  heads_sep : forall b b', valid_bin b -> valid_bin b' ->
    b = b' \/ head_of a b + 48 <= head_of a b' \/ head_of a b' + 48 <= head_of a b
}.

(** Nodes of the bins. *)
Definition lnode (a : arena) (G : tiles) (n : Z) : Prop :=
  is_Some (G !! n) \/ exists b, valid_bin b /\ n = head_of a b.

(** The nodes whose link words matter: sentinels and binned chunks. *)
Definition knode (a : arena) (G : tiles) (n : Z) : Prop :=
  (exists b, valid_bin b /\ n = head_of a b) \/
  (exists s, G !! n = Some (s, Free)) \/ (exists s, G !! n = Some (s, Fast)).

Lemma knode_lnode (a : arena) (G : tiles) (n : Z) : knode a G n -> lnode a G n.
Proof. intros [?|[[s ?]|[s ?]]]; [by right|left; eauto..]. Qed.

(** Link words the allocator may write: of sentinels and of chunks that are
    not handed out. *)
Definition lwr (a : arena) (G : tiles) (x : Z) : Prop :=
  exists n o, x = n + o /\ 16 <= o < 48 /\
    ((exists b, valid_bin b /\ n = head_of a b) \/ (exists s st, G !! n = Some (s, st) /\ st <> Used)).

(** The narrower set of words that list surgery on bins touches. *)
Definition lwb (a : arena) (G : tiles) (x : Z) : Prop :=
  exists n o, x = n + o /\ 16 <= o < 48 /\
    ((exists b, valid_bin b /\ n = head_of a b) \/ (exists s, G !! n = Some (s, Free))).

Lemma lwb_lwr (a : arena) (G : tiles) (x : Z) : lwb a G x -> lwr a G x.
Proof.
  intros (n & o & ? & ? & [?|(s & ?)]); exists n, o; (split; [done|]; split; [done|]).
  - by left.
  - right. by exists s, Free.
Qed.

Section geometry.
Context (hd : Z -> hdr) (hs : list alloced_heap) (t : Z) (G : tiles) (a : arena).
Context (HI : HInv hd hs t G) (HO : HeadsOK a hs).

Lemma head_tile_sep (b : bin) (x s : Z) (st : status) :
  valid_bin b -> G !! x = Some (s, st) ->
  head_of a b + 48 <= x \/ x + 16 + s + 32 <= head_of a b.
Proof.
  intros Hb Hx. destruct (H_next _ _ _ _ HI _ _ _ Hx) as (h & Hh & ? & ? & _).
  destruct (heads_heap _ _ HO b h Hb Hh); lia.
Qed.

Lemma lnode_spaced : spaced 48 (lnode a G).
Proof.
  intros x y [[[s st] Hx]|(b & Hb & ->)] [[[s' st'] Hy]|(b' & Hb' & ->)].
  - destruct (H_sep _ _ _ _ HI _ _ _ _ _ _ Hx Hy);
      destruct (H_tile _ _ _ _ HI _ _ _ Hx); destruct (H_tile _ _ _ _ HI _ _ _ Hy); lia.
  - destruct (H_tile _ _ _ _ HI _ _ _ Hx). pose proof (head_tile_sep b' x s st Hb' Hx). lia.
  - destruct (H_tile _ _ _ _ HI _ _ _ Hy). pose proof (head_tile_sep b y s' st' Hb Hy). lia.
  - destruct (heads_sep _ _ HO b b' Hb Hb') as [->|]; lia.
Qed.

Lemma lnode_pos (n : Z) : lnode a G n -> 0 < n.
Proof.
  intros [[[s st] Hx]|(b & Hb & ->)]; [|by apply HO].
  destruct (H_tile _ _ _ _ HI _ _ _ Hx). tauto.
Qed.

(** Link words are not header words. *)
Lemma lnode_hnode (n b : Z) :
  lnode a G n -> hnode hs G b -> n = b \/ n + 48 <= b \/ b + 16 <= n.
Proof.
  intros [[[s st] Hx]|(c & Hc & ->)] Hb.
  - destruct (H_tile _ _ _ _ HI _ _ _ Hx).
    destruct (H_hnode_sep _ _ _ _ HI _ _ _ _ Hx Hb); lia.
  - destruct Hb as [[[s st] Hb]|(h & Hh & ->)].
    + destruct (H_tile _ _ _ _ HI _ _ _ Hb). pose proof (head_tile_sep c b s st Hc Hb). lia.
    + pose proof (heads_heap _ _ HO c h Hc Hh). destruct (H_heap _ _ _ _ HI _ Hh). lia.
Qed.

Lemma lwr_lnode (x : Z) : lwr a G x -> exists n o, x = n + o /\ 16 <= o < 48 /\ lnode a G n.
Proof.
  intros (n & o & -> & Ho & Hn). exists n, o. split_and!; try lia.
  destruct Hn as [?|(s & st & ? & _)]; [by right|left; eauto].
Qed.

Lemma lwr_hdr (m m' : mem) :
  only_differ (lwr a G) m m' -> forall b, hnode hs G b -> hdr_of m' b = hdr_of m b.
Proof.
  intros Hd b Hb. apply hdr_frame; apply Hd; intros (n & o & E & Ho & Hn)%lwr_lnode;
    unfold o_size, o_prev_size in E; pose proof (lnode_hnode n b Hn Hb); lia.
Qed.

(** Writing link words leaves the payload of handed-out chunks alone. *)
Lemma lwr_payload (m m' : mem) :
  only_differ (lwr a G) m m' ->
  forall c s, G !! c = Some (s, Used) -> forall x, c + 16 <= x < c + 16 + s -> ld m' x = ld m x.
Proof.
  intros Hd c s Hc x Hx. apply Hd. intros (n & o & E & Ho & [(b & Hb & ->)|(s' & st' & Hn & Hst)]).
  - pose proof (head_tile_sep b c s _ Hb Hc). lia.
  - destruct (H_tile _ _ _ _ HI _ _ _ Hn).
    destruct (H_sep _ _ _ _ HI _ _ _ _ _ _ Hc Hn) as [->|]; [congruence|lia].
Qed.
End geometry.

Section bins.
Context (m : mem) (a : arena) (G : tiles) (B : bins).
Context (KI : KInv m a G B).

Lemma K_knode (b : bin) (x : Z) : valid_bin b -> x ∈ head_of a b :: bl B b -> knode a G x.
Proof.
  intros Hb. rewrite elem_of_cons. intros [->|Hx]; [left; eauto|].
  destruct (K_mem _ _ _ _ KI _ _ Hx) as (_ & s & Hs & _). right. left. eauto.
Qed.

Lemma K_node (b : bin) (x : Z) : valid_bin b -> x ∈ head_of a b :: bl B b -> lnode a G x.
Proof. intros. by eapply knode_lnode, K_knode. Qed.

Lemma K_sknode (i : nat) (x : Z) :
  (i < 64)%nat -> x ∈ head_of a (BLarge i) :: sl B i -> knode a G x.
Proof.
  intros Hi Hx. apply (K_knode (BLarge i)); [done|].
  rewrite elem_of_cons in *. rewrite <- (K_smem _ _ _ _ KI). done.
Qed.

Lemma K_snode (i : nat) (x : Z) :
  (i < 64)%nat -> x ∈ head_of a (BLarge i) :: sl B i -> lnode a G x.
Proof.
  intros Hi Hx. apply (K_node (BLarge i)); [done|].
  rewrite elem_of_cons in *. rewrite <- (K_smem _ _ _ _ KI). done.
Qed.

Lemma sll_frame (m1 m2 : mem) (l : list Z) : forall x,
  (forall y, y ∈ l -> ld m2 (y + o_fd) = ld m1 (y + o_fd)) -> sll m1 x l -> sll m2 x l.
Proof.
  induction l as [|y l IH]; simpl; intros x Hf Hx; [done|].
  destruct Hx as (-> & ? & Hx). split_and!; try done.
  rewrite Hf by (rewrite elem_of_cons; auto). apply IH; [|done].
  intros z Hz. apply Hf. rewrite elem_of_cons. auto.
Qed.

(** The invariant only reads link words, the [Free] and [Fast] tiles and
    the bin fields of the arena. *)
Lemma K_transfer (m' : mem) (a' : arena) (G' : tiles) :
  (forall n o, knode a G n -> 16 <= o < 48 -> ld m' (n + o) = ld m (n + o)) ->
  (forall x s, G' !! x = Some (s, Free) <-> G !! x = Some (s, Free)) ->
  (forall x s, G' !! x = Some (s, Fast) <-> G !! x = Some (s, Fast)) ->
  fastbins a' = fastbins a -> unsortedbin a' = unsortedbin a ->
  smallbins a' = smallbins a -> largebins a' = largebins a ->
  KInv m' a' G' B.
Proof.
  intros Hm Hfree Hfast Ef Eu Es El.
  assert (forall b, head_of a' b = head_of a b) as Eh.
  { intros []; simpl; congruence. }
  assert (forall x s, G' !! x = Some (s, Free) -> tile_size G' x = tile_size G x) as Et.
  { intros x s Hx. unfold tile_size. rewrite Hx. apply Hfree in Hx. by rewrite Hx. }
  split.
  - rewrite Ef, Es, El. apply KI.
  - intros b Hb. rewrite Eh. eapply dll_frame; [|by apply (K_rings _ _ _ _ KI)].
    intros n Hn. apply K_knode in Hn; [|done]. unfold o_fd, o_bk. split; apply Hm; done || lia.
  - intros b x Hx. destruct (K_mem _ _ _ _ KI _ _ Hx) as (Hb & s & Hs & ?).
    split; [done|]. exists s. by rewrite Hfree.
  - eauto using K_uniq.
  - intros x s. rewrite Hfree. eauto using K_all.
  - intros i Hi. rewrite Eh. eapply dll_frame; [|by apply (K_srings _ _ _ _ KI)].
    intros n Hn. apply K_sknode in Hn; [|done]. unfold o_next_sizeptr, o_prev_sizeptr.
    split; apply Hm; done || lia.
  - apply KI.
  - intros i. erewrite Forall_fmap_ext_1; [apply KI|].
    apply Forall_forall. intros x Hx. apply (K_smem _ _ _ _ KI) in Hx.
    destruct (K_mem _ _ _ _ KI _ _ Hx) as (_ & s & Hs & _). apply Hfree in Hs. eauto.
  - intros b x Hb Hx. destruct (K_mem _ _ _ _ KI _ _ Hx) as (Hv & s & Hs & _).
    unfold o_next_sizeptr, o_prev_sizeptr.
    rewrite !Hm by (lia || (right; left; eauto)). eapply (K_null _ _ _ _ KI); done.
  - intros i Hi. rewrite Ef. eapply sll_frame; [|by apply KI].
    intros y Hy. destruct (K_fmem _ _ _ _ KI _ _ Hy). apply Hm; [right; right; eauto|unfold o_fd; lia].
  - intros i x Hx. rewrite Hfast. eauto using K_fmem.
  - apply KI.
  - intros x s. rewrite Hfast. eauto using K_fall.
Qed.

Lemma K_rdisj (hs : list alloced_heap) (hd : Z -> hdr) (t : Z) :
  HInv hd hs t G -> HeadsOK a hs -> rdisj valid_bin (head_of a) (bl B).
Proof.
  intros HI HO i j x Vi Vj. rewrite !elem_of_cons.
  assert (forall b b' y, valid_bin b -> y ∈ bl B b' -> y <> head_of a b) as Hno.
  { intros b b' y Hb Hy ->. destruct (K_mem _ _ _ _ KI _ _ Hy) as (_ & s & Hs & _).
    destruct (H_tile _ _ _ _ HI _ _ _ Hs).
    pose proof (head_tile_sep _ _ _ _ _ HI HO _ _ _ _ Hb Hs). lia. }
  intros [->|Hx] [E|Hx'].
  - destruct (heads_sep _ _ HO i j Vi Vj); [done|lia].
  - destruct (Hno i j _ Vi Hx'); done.
  - subst x. destruct (Hno j i _ Vj Hx); done.
  - eauto using K_uniq.
Qed.

Lemma K_srdisj (hs : list alloced_heap) (hd : Z -> hdr) (t : Z) :
  HInv hd hs t G -> HeadsOK a hs ->
  rdisj (fun i => (i < 64)%nat) (fun i => head_of a (BLarge i)) (sl B).
Proof.
  intros HI HO i j x Vi Vj Hi Hj.
  assert (BLarge i = BLarge j) as [=]; [|done].
  eapply (K_rdisj hs hd t HI HO _ _ x); try done;
    rewrite elem_of_cons in *; rewrite <- (K_smem _ _ _ _ KI); done.
Qed.
End bins.

(** ** The list surgery of alloc.c as ring splices *)

(** [x] and [y] are the same node or do not overlap. *)
Definition apart (x y : Z) : Prop := x = y \/ x + 48 <= y \/ y + 48 <= x.

Ltac offs := unfold apart, o_fd, o_bk, o_next_sizeptr, o_prev_sizeptr, o_size, o_prev_size in *.

Lemma unlink_fd_spec (m : mem) (x p n : Z) :
  ld m (x + o_bk) = p -> ld m (x + o_fd) = n -> p <> 0 -> n <> 0 -> p <> x -> n <> x ->
  apart p x -> apart n x -> apart p n ->
  unlinked o_fd o_bk m (unlink_chunk_from_fdlist m x) p x n.
Proof.
  intros Ep En Hp Hn Hpx Hnx Apx Anx Apn. offs.
  unfold unlink_chunk_from_fdlist. offs. rewrite Ep, En.
  destruct (Z.eqb_spec p 0); [done|]. destruct (Z.eqb_spec n 0); [done|]. simpl.
  assert (ld (st m (n + 24) p) (x + 24) = p) as -> by (rewrite ld_st_ne; lia).
  assert (ld (st m (n + 24) p) (x + 16) = n) as -> by (rewrite ld_st_ne; lia).
  split; offs; ld_steps; try done.
  intros z Hz. rewrite !ld_st_ne by (intros <-; tauto). done.
Qed.

Lemma unlink_sorted_spec (m : mem) (x p n : Z) :
  ld m (x + o_prev_sizeptr) = p -> ld m (x + o_next_sizeptr) = n ->
  p <> 0 -> n <> 0 -> p <> x -> n <> x -> apart p x -> apart n x -> apart p n ->
  unlinked o_next_sizeptr o_prev_sizeptr m (unlink_chunk_from_sortedlist m x) p x n.
Proof.
  intros Ep En Hp Hn Hpx Hnx Apx Anx Apn. offs.
  unfold unlink_chunk_from_sortedlist. offs. rewrite Ep, En.
  destruct (Z.eqb_spec p 0); [done|]. destruct (Z.eqb_spec n 0); [done|]. simpl.
  assert (ld (st m (p + 32) n) (x + 32) = n) as -> by (rewrite ld_st_ne; lia).
  assert (ld (st m (p + 32) n) (x + 40) = p) as -> by (rewrite ld_st_ne; lia).
  split; offs; ld_steps; try done.
  intros z Hz. rewrite !ld_st_ne by (intros <-; tauto). done.
Qed.

Lemma unlink_sorted_noop (m : mem) (x : Z) :
  ld m (x + o_prev_sizeptr) = 0 -> unlink_chunk_from_sortedlist m x = m.
Proof. intros E. unfold unlink_chunk_from_sortedlist. by rewrite E. Qed.

Lemma insert_fd_spec (m : mem) (h x n : Z) :
  ld m (h + o_fd) = n -> x <> h -> x <> n -> apart h x -> apart n x -> apart h n ->
  linked o_fd o_bk m (insert_into_fdlist m h x) h x n.
Proof.
  intros En Hxh Hxn Ahx Anx Ahn. offs. unfold insert_into_fdlist. offs. rewrite En.
  assert (ld (st (st m (x + 16) n) (x + 24) h) (h + 16) = n) as -> by (rewrite !ld_st_ne; lia).
  split; offs; ld_steps; try done.
  intros z Hz. rewrite !ld_st_ne by (intros <-; tauto). done.
Qed.

(** The two assignments and two back-pointer updates of
    [insert_into_largebin]. *)
Lemma insert_sorted_spec (m : mem) (x c f : Z) :
  ld m (c + o_prev_sizeptr) = f -> x <> c -> x <> f -> apart c x -> apart f x -> apart c f ->
  linked o_next_sizeptr o_prev_sizeptr m
    (st (st (st (st m (x + o_next_sizeptr) c) (x + o_prev_sizeptr) f) (c + o_prev_sizeptr) x)
       (f + o_next_sizeptr) x) f x c.
Proof.
  intros Ef Hxc Hxf Acx Afx Acf. offs. split; offs; ld_steps; try done.
  intros z Hz. rewrite !ld_st_ne by (intros <-; tauto). done.
Qed.

(** Taking [x] out of whatever bin holds it. *)
Definition brem (B : bins) (x : Z) : bins :=
  Bins (fun b => filter (.≠ x) (bl B b)) (fun i => filter (.≠ x) (sl B i)) (fl B).

Lemma filter_ne_notin (l : list Z) (x : Z) : x ∉ l -> filter (.≠ x) l = l.
Proof.
  induction l as [|y l IH]; [done|]. rewrite elem_of_cons. intros Hx.
  rewrite filter_cons_True by naive_solver. f_equal. tauto.
Qed.

Lemma filter_ne_split (l1 l2 : list Z) (x : Z) :
  NoDup (l1 ++ x :: l2) -> filter (.≠ x) (l1 ++ x :: l2) = l1 ++ l2.
Proof.
  rewrite NoDup_app_cons_middle. intros (_ & H1 & H2).
  rewrite filter_app, filter_cons_False by tauto. by rewrite !filter_ne_notin.
Qed.

Lemma StronglySorted_fmap_filter (f : Z -> Z) (x : Z) (l : list Z) :
  StronglySorted Z.le (f <$> l) -> StronglySorted Z.le (f <$> filter (.≠ x) l).
Proof.
  induction l as [|y l IH]; [done|]. rewrite filter_cons, fmap_cons.
  intros [Hl Hy]%StronglySorted_inv.
  case_decide; [|auto]. rewrite fmap_cons. constructor; [auto|].
  rewrite List.Forall_forall in *. intros z Hz. apply Hy.
  rewrite <- list_elem_of_In, list_elem_of_fmap in *. destruct Hz as (u & -> & Hu).
  apply list_elem_of_filter in Hu as [_ Hu]. exists u. done.
Qed.

Section splices.
Context (m : mem) (a : arena) (G : tiles) (B : bins).
Context (hd : Z -> hdr) (hs : list alloced_heap) (t : Z).
Context (KI : KInv m a G B) (HI : HInv hd hs t G) (HO : HeadsOK a hs).

Lemma lnode_apart (x y : Z) : lnode a G x -> lnode a G y -> apart x y.
Proof. apply (lnode_spaced hd hs t G a HI HO). Qed.

(** Words of sentinels and of free chunks may be written. *)
Lemma lwb_node (n o : Z) :
  16 <= o < 48 -> (exists b, valid_bin b /\ n ∈ head_of a b :: bl B b) -> lwb a G (n + o).
Proof.
  intros Ho (b & Hb & Hn). exists n, o. split_and!; try lia. rewrite elem_of_cons in Hn.
  destruct Hn as [->|Hn]; [left; eauto|right].
  destruct (K_mem _ _ _ _ KI _ _ Hn) as (_ & s & Hs & _). eauto.
Qed.

Lemma lwb_splice (m1 m' : mem) (fo bo x p n : Z) (b : bin) :
  16 <= fo < 48 -> 16 <= bo < 48 -> valid_bin b ->
  x ∈ head_of a b :: bl B b -> p ∈ head_of a b :: bl B b -> n ∈ head_of a b :: bl B b ->
  only_differ (fun z => z = x + fo \/ z = x + bo \/ z = p + fo \/ z = n + bo) m1 m' ->
  only_differ (lwb a G) m1 m'.
Proof.
  intros Hfo Hbo Hb Hx Hp Hn. apply only_differ_weaken.
  intros z [->|[->|[->| ->]]]; apply lwb_node; eauto.
Qed.

(** The neighbours of a binned chunk, as nodes. *)
Lemma bin_neighbours (b : bin) (x : Z) (l1 l2 : list Z) :
  valid_bin b -> bl B b = l1 ++ x :: l2 ->
  let p := ld m (x + o_bk) in let n := ld m (x + o_fd) in
  ring_split (head_of a b) l1 l2 p n /\
  unlinked o_fd o_bk m (unlink_chunk_from_fdlist m x) p x n /\
  p ∈ head_of a b :: bl B b /\ n ∈ head_of a b :: bl B b.
Proof.
  intros Hb El p n. pose proof (K_rings _ _ _ _ KI b Hb) as HR. rewrite El in HR.
  pose proof (dll_neighbours _ _ _ _ _ _ _ HR) as Hsp. fold p n in Hsp.
  destruct HR as [_ Hnd]. apply NoDup_cons in Hnd as [Hh Hnd].
  apply NoDup_app_cons_middle in Hnd as (_ & Hx1 & Hx2).
  destruct (ring_split_elem _ _ _ _ _ Hsp) as [Hp Hn].
  assert (forall y, y ∈ head_of a b :: l1 ++ l2 -> y <> x /\ y ∈ head_of a b :: bl B b) as Hy.
  { intros y Hy. rewrite El. rewrite !elem_of_cons, !elem_of_app, ?elem_of_cons in *.
    split; [intros ->; intuition congruence|tauto]. }
  destruct (Hy _ Hp) as [Hpx Hp']. destruct (Hy _ Hn) as [Hnx Hn'].
  assert (x ∈ head_of a b :: bl B b) as Hx.
  { rewrite El, elem_of_cons, elem_of_app, elem_of_cons. tauto. }
  pose proof (K_node _ _ _ _ KI _ _ Hb Hp') as Lp.
  pose proof (K_node _ _ _ _ KI _ _ Hb Hn') as Ln.
  pose proof (K_node _ _ _ _ KI _ _ Hb Hx) as Lx.
  split_and!; try done. apply unlink_fd_spec; try done.
  - pose proof (lnode_pos _ _ _ _ _ HI HO _ Lp). lia.
  - pose proof (lnode_pos _ _ _ _ _ HI HO _ Ln). lia.
  - by apply lnode_apart.
  - by apply lnode_apart.
  - by apply lnode_apart.
Qed.

Lemma sorted_neighbours (m' : mem) (i : nat) (x : Z) (l1 l2 : list Z) :
  (i < 64)%nat -> sl B i = l1 ++ x :: l2 ->
  rings o_next_sizeptr o_prev_sizeptr (fun i => (i < 64)%nat)
    (fun i => head_of a (BLarge i)) m' (sl B) ->
  let p := ld m' (x + o_prev_sizeptr) in let n := ld m' (x + o_next_sizeptr) in
  ring_split (head_of a (BLarge i)) l1 l2 p n /\
  unlinked o_next_sizeptr o_prev_sizeptr m' (unlink_chunk_from_sortedlist m' x) p x n /\
  p ∈ head_of a (BLarge i) :: sl B i /\ n ∈ head_of a (BLarge i) :: sl B i.
Proof.
  intros Hi El HRs p n. pose proof (HRs i Hi) as HR. cbv beta in HR. rewrite El in HR.
  pose proof (dll_neighbours _ _ _ _ _ _ _ HR) as Hsp. fold p n in Hsp.
  destruct HR as [_ Hnd]. apply NoDup_cons in Hnd as [Hh Hnd].
  apply NoDup_app_cons_middle in Hnd as (_ & Hx1 & Hx2).
  destruct (ring_split_elem _ _ _ _ _ Hsp) as [Hp Hn].
  assert (forall y, y ∈ head_of a (BLarge i) :: l1 ++ l2 ->
    y <> x /\ y ∈ head_of a (BLarge i) :: sl B i) as Hy.
  { intros y Hy. rewrite El. rewrite !elem_of_cons, !elem_of_app, ?elem_of_cons in *.
    split; [intros ->; intuition congruence|tauto]. }
  destruct (Hy _ Hp) as [Hpx Hp']. destruct (Hy _ Hn) as [Hnx Hn'].
  assert (x ∈ head_of a (BLarge i) :: sl B i) as Hx.
  { rewrite El, elem_of_cons, elem_of_app, elem_of_cons. tauto. }
  pose proof (K_snode _ _ _ _ KI _ _ Hi Hp') as Lp.
  pose proof (K_snode _ _ _ _ KI _ _ Hi Hn') as Ln.
  pose proof (K_snode _ _ _ _ KI _ _ Hi Hx) as Lx.
  split_and!; try done. apply unlink_sorted_spec; try done.
  - pose proof (lnode_pos _ _ _ _ _ HI HO _ Lp). lia.
  - pose proof (lnode_pos _ _ _ _ _ HI HO _ Ln). lia.
  - by apply lnode_apart.
  - by apply lnode_apart.
  - by apply lnode_apart.
Qed.

(** Surgery on one pair of link fields leaves the words at other offsets
    of every node alone. *)
Lemma splice_other_field (m1 m2 : mem) (fo bo x p n y o : Z) :
  16 <= fo < 48 -> 16 <= bo < 48 -> 16 <= o < 48 -> o <> fo -> o <> bo ->
  lnode a G x -> lnode a G p -> lnode a G n -> lnode a G y ->
  only_differ (fun z => z = x + fo \/ z = x + bo \/ z = p + fo \/ z = n + bo) m1 m2 ->
  ld m2 (y + o) = ld m1 (y + o).
Proof.
  intros ? ? ? ? ? Lx Lp Ln Ly Hd. apply Hd.
  pose proof (lnode_apart _ _ Lx Ly). pose proof (lnode_apart _ _ Lp Ly).
  pose proof (lnode_apart _ _ Ln Ly). unfold apart in *. lia.
Qed.

(** Fast-bin chunks are not touched by surgery on the other bins. *)
Lemma lwb_fast (m1 m2 : mem) (y s o : Z) :
  only_differ (lwb a G) m1 m2 -> G !! y = Some (s, Fast) -> 16 <= o < 48 ->
  ld m2 (y + o) = ld m1 (y + o).
Proof.
  intros Hd Hy Ho. apply Hd. intros (n & o' & E & Ho' & Hn).
  assert (lnode a G y) as Ly by (left; eauto).
  assert (lnode a G n) as Ln.
  { destruct Hn as [?|[s' ?]]; [by right|left; eauto]. }
  pose proof (lnode_apart _ _ Ly Ln) as [->|?]; [|lia].
  destruct Hn as [(b & Hb & ->)|[s' ?]]; [|congruence].
  pose proof (head_tile_sep _ _ _ _ _ HI HO _ _ _ _ Hb Hy).
  destruct (H_tile _ _ _ _ HI _ _ _ Hy). lia.
Qed.

(** *** Taking a chunk out of its bin *)

(** What both ways of unlinking leave: the rings without [x], and no word
    of a fast chunk changed. *)
Lemma K_unlinked (m2 : mem) (x s : Z) :
  G !! x = Some (s, Free) ->
  rings o_fd o_bk valid_bin (head_of a) m2 (bl (brem B x)) ->
  rings o_next_sizeptr o_prev_sizeptr (fun i => (i < 64)%nat)
    (fun i => head_of a (BLarge i)) m2 (sl (brem B x)) ->
  (forall b y, is_large b = false -> y ∈ bl B b ->
     ld m2 (y + o_next_sizeptr) = ld m (y + o_next_sizeptr) /\
     ld m2 (y + o_prev_sizeptr) = ld m (y + o_prev_sizeptr)) ->
  only_differ (lwb a G) m m2 ->
  KInv m2 a (<[x := (s, Loose)]> G) (brem B x).
Proof.
  intros Hx R1 R2 Hnull Hd.
  assert (forall y, y <> x -> <[x := (s, Loose)]> G !! y = G !! y) as Hne.
  { intros y ?. by rewrite lookup_insert_ne by congruence. }
  split; try done.
  - apply KI.
  - intros b y [Hyx Hy]%list_elem_of_filter.
    destruct (K_mem _ _ _ _ KI _ _ Hy) as (Hb & s' & Hs' & ?).
    split; [done|]. exists s'. by rewrite Hne.
  - intros b b' y [_ Hy]%list_elem_of_filter [_ Hy']%list_elem_of_filter. eauto using K_uniq.
  - intros y s' Hy. tile_cases. destruct (K_all _ _ _ _ KI _ _ Hy) as [b Hb].
    exists b. apply list_elem_of_filter. split; [congruence|done].
  - intros i y. simpl. rewrite !list_elem_of_filter, (K_smem _ _ _ _ KI). done.
  - intros i. simpl. erewrite Forall_fmap_ext_1;
      [apply StronglySorted_fmap_filter, KI|].
    apply Forall_forall. intros y [Hy _]%list_elem_of_filter.
    unfold tile_size. by rewrite Hne.
  - intros b y Hb [_ Hy]%list_elem_of_filter.
    destruct (Hnull b y Hb Hy) as [-> ->]. eapply (K_null _ _ _ _ KI); done.
  - intros i Hi. eapply sll_frame; [|by apply (K_fast _ _ _ _ KI)].
    intros y Hy. destruct (K_fmem _ _ _ _ KI _ _ Hy) as [_ Hf].
    eapply lwb_fast; [done..|unfold o_fd; lia].
  - intros i y Hy. destruct (K_fmem _ _ _ _ KI _ _ Hy) as [? Hf].
    split; [done|]. rewrite Hne; [done|]. intros ->. congruence.
  - apply KI.
  - intros y s' Hy. tile_cases. simpl. eauto using K_fall.
Qed.

Lemma brem_bl (b b' : bin) (x : Z) (l1 l2 : list Z) :
  valid_bin b -> bl B b = l1 ++ x :: l2 -> bl (brem B x) b' = fupd (bl B) b (l1 ++ l2) b'.
Proof.
  intros Hb El. simpl. destruct (decide (b' = b)) as [->|Hne].
  - rewrite fupd_eq, El. apply filter_ne_split.
    destruct (K_rings _ _ _ _ KI b Hb) as [_ Hnd]. rewrite El in Hnd. by apply NoDup_cons in Hnd as [_ ?].
  - rewrite fupd_ne by done. apply filter_ne_notin. intros Hx. apply Hne.
    eapply (K_uniq _ _ _ _ KI); [done|]. rewrite El, elem_of_app, elem_of_cons. auto.
Qed.

Lemma K_unlink (x s : Z) :
  G !! x = Some (s, Free) ->
  KInv (unlink_chunk_from_sortedlist (unlink_chunk_from_fdlist m x) x) a
    (<[x := (s, Loose)]> G) (brem B x) /\
  only_differ (lwb a G) m (unlink_chunk_from_sortedlist (unlink_chunk_from_fdlist m x) x).
Proof.
  intros Hx. destruct (K_all _ _ _ _ KI _ _ Hx) as [b Hb].
  destruct (K_mem _ _ _ _ KI _ _ Hb) as (Vb & _).
  destruct (list_elem_of_split _ _ Hb) as (l1 & l2 & El).
  destruct (bin_neighbours b x l1 l2 Vb El) as (Hsp & Hu & Hp & Hn).
  set (p := ld m (x + o_bk)) in *. set (n := ld m (x + o_fd)) in *.
  set (m1 := unlink_chunk_from_fdlist m x) in *.
  assert (x ∈ head_of a b :: bl B b) as Hx' by (rewrite elem_of_cons; auto).
  pose proof (K_node _ _ _ _ KI _ _ Vb Hx') as Lx.
  pose proof (K_node _ _ _ _ KI _ _ Vb Hp) as Lp.
  pose proof (K_node _ _ _ _ KI _ _ Vb Hn) as Ln.
  assert (only_differ (lwb a G) m m1) as D1.
  { eapply (lwb_splice m m1 o_fd o_bk x p n b); try done; apply Hu. }
  assert (rings o_fd o_bk valid_bin (head_of a) m1 (bl (brem B x))) as R1.
  { intros b' Vb'. rewrite (brem_bl b b' x l1 l2 Vb El).
    eapply (rings_unlink o_fd o_bk 48); try done.
    - apply (lnode_spaced hd hs t G a HI HO).
    - eauto using K_node.
    - apply KI.
    - eapply K_rdisj; eauto. }
  assert (forall y o, lnode a G y -> o = o_next_sizeptr \/ o = o_prev_sizeptr ->
    ld m1 (y + o) = ld m (y + o)) as Fs.
  { intros y o Ly Ho. eapply (splice_other_field m m1 o_fd o_bk x p n); try done;
      [destruct Ho; subst o; offs; lia..|apply Hu]. }
  assert (rings o_next_sizeptr o_prev_sizeptr (fun i => (i < 64)%nat)
    (fun i => head_of a (BLarge i)) m1 (sl B)) as R2.
  { eapply rings_frame; [|apply KI]. intros i y Hi Hy. apply K_snode with (1 := KI) in Hy; [|done].
    split; apply Fs; auto. }
  destruct (is_large b) eqn:Elb.
  - destruct b as [| |i]; try done.
    assert (x ∈ sl B i) as Hs by by apply (K_smem _ _ _ _ KI).
    destruct (list_elem_of_split _ _ Hs) as (k1 & k2 & Es).
    destruct (sorted_neighbours m1 i x k1 k2 Vb Es R2) as (Hsp2 & Hu2 & Hp2 & Hn2).
    set (p2 := ld m1 (x + o_prev_sizeptr)) in *. set (n2 := ld m1 (x + o_next_sizeptr)) in *.
    set (m2 := unlink_chunk_from_sortedlist m1 x) in *.
    pose proof (K_snode _ _ _ _ KI _ _ Vb Hp2) as Lp2.
    pose proof (K_snode _ _ _ _ KI _ _ Vb Hn2) as Ln2.
    assert (forall y, y ∈ head_of a (BLarge i) :: sl B i -> y ∈ head_of a (BLarge i) :: bl B (BLarge i)) as Hsub.
    { intros y. rewrite !elem_of_cons, (K_smem _ _ _ _ KI). done. }
    assert (only_differ (lwb a G) m1 m2) as D2.
    { eapply (lwb_splice m1 m2 o_next_sizeptr o_prev_sizeptr x p2 n2 (BLarge i)); try done; auto.
      apply Hu2. }
    split; [|by eapply only_differ_trans].
    apply K_unlinked; try done.
    + eapply rings_frame; [|exact R1]. intros b' y Vb' Hy.
      assert (lnode a G y) as Ly.
      { apply (K_node _ _ _ _ KI b' y Vb'). rewrite elem_of_cons in *.
        destruct Hy as [?|[_ ?]%list_elem_of_filter]; auto. }
      split; eapply (splice_other_field m1 m2 o_next_sizeptr o_prev_sizeptr x p2 n2); try done; apply Hu2.
    + intros j Vj.
      assert (sl (brem B x) j = fupd (sl B) i (k1 ++ k2) j) as ->.
      { simpl. destruct (decide (j = i)) as [->|Hne].
        - rewrite fupd_eq, Es. apply filter_ne_split. destruct (R2 i Vb) as [_ Hnd].
          cbv beta in Hnd. rewrite Es in Hnd. by apply NoDup_cons in Hnd as [_ ?].
        - rewrite fupd_ne by done. apply filter_ne_notin. intros Hj.
          apply (K_smem _ _ _ _ KI) in Hj. pose proof (K_uniq _ _ _ _ KI _ _ _ Hj Hb). congruence. }
      eapply (rings_unlink o_next_sizeptr o_prev_sizeptr 48 ltac:(offs; lia) ltac:(offs; lia) ltac:(offs; lia)
                (fun i => (i < 64)%nat) (fun i => head_of a (BLarge i))); try done.
      * apply (lnode_spaced hd hs t G a HI HO).
      * eauto using K_snode.
      * eapply K_srdisj; eauto.
    + intros b' y Hb' Hy. destruct (K_mem _ _ _ _ KI _ _ Hy) as (Vb' & s' & Hs' & _).
      assert (lnode a G y) as Ly by (left; eauto).
      assert (forall z, z ∈ head_of a (BLarge i) :: bl B (BLarge i) -> z <> y) as Hne.
      { intros z Hz ->. assert (b' = BLarge i) as ->; [|done].
        eapply (K_rdisj _ _ _ _ KI hs hd t HI HO b' (BLarge i) y); try done.
        rewrite elem_of_cons; auto. }
      pose proof (lnode_apart _ _ Lx Ly). pose proof (lnode_apart _ _ Lp2 Ly).
      pose proof (lnode_apart _ _ Ln2 Ly).
      pose proof (Hne x Hx'). pose proof (Hne p2 (Hsub _ Hp2)). pose proof (Hne n2 (Hsub _ Hn2)).
      destruct (K_null _ _ _ _ KI _ _ Hb' Hy) as [_ _].
      rewrite <- !(Fs y) by auto. unfold apart in *.
      split; apply (unlinked_rest _ _ _ _ _ _ _ Hu2); offs; lia.
    + by eapply only_differ_trans.
  - destruct (K_null _ _ _ _ KI b x Elb Hb) as [_ E0].
    rewrite unlink_sorted_noop by (rewrite Fs; auto).
    split; [|done]. apply K_unlinked; try done.
    + intros j Vj. simpl. rewrite filter_ne_notin; [by apply R2|].
      intros Hj. apply (K_smem _ _ _ _ KI) in Hj.
      pose proof (K_uniq _ _ _ _ KI _ _ _ Hj Hb). subst b. done.
    + intros b' y Hb' Hy. destruct (K_mem _ _ _ _ KI _ _ Hy) as (Vb' & s' & Hs' & _).
      split; apply Fs; auto; left; eauto.
Qed.
End splices.
