(* ===== verification/AllocLink.v ===== *)
(** * AllocLink: putting a chunk into a bin

    The counterpart of [K_unlink] of AllocBins.v: linking a chunk at the
    front of the unsorted, a small or a large bin (the latter also into the
    size-ordered list), and pushing to and popping from a fast bin. *)

From Stdlib Require Import Sorted.
From S2P Require Import Prelude Mem Dll Alloc AllocFacts AllocInv AllocBins.

(** [x] put at the front of bin [b]; [SL] are the new size-ordered lists. *)
Definition badd (B : bins) (b : bin) (x : Z) (SL : nat -> list Z) : bins :=
  Bins (fupd (bl B) b (x :: bl B b)) SL (fl B).

Lemma badd_elem (B : bins) (b b' : bin) (x y : Z) (SL : nat -> list Z) :
  y ∈ bl (badd B b x SL) b' <-> (b' = b /\ y = x) \/ y ∈ bl B b'.
Proof.
  simpl. unfold fupd. case_decide as E; [subst b'; rewrite elem_of_cons|]; intuition congruence.
Qed.

Section link.
Context (m : mem) (a : arena) (G : tiles) (B : bins).
Context (hd : Z -> hdr) (hs : list alloced_heap) (t : Z) (x s : Z) (st0 : status).
Context (KI : KInv m a G B) (HI : HInv hd hs t (<[x := (s, Free)]> G)) (HO : HeadsOK a hs).
Context (Hx : G !! x = Some (s, st0)) (Hst1 : st0 <> Free) (Hst2 : st0 <> Fast).

Local Abbreviation G' := (<[x := (s, Free)]> G).

Lemma link_lnode (n : Z) : lnode a G n <-> lnode a G' n.
Proof using Hx.
  clear HI. unfold lnode. rewrite lookup_insert. destruct (decide (x = n)) as [<-|]; [|done].
  rewrite Hx. split; intros [?|?]; eauto.
Qed.

Lemma link_apart (n n' : Z) : lnode a G n -> lnode a G n' -> apart n n'.
Proof using HI HO Hx. intros ? ?. eapply lnode_apart; eauto; by apply link_lnode. Qed.

Lemma link_fresh (b : bin) : x ∉ bl B b.
Proof using Hx Hst1 KI.
  intros Hb. destruct (K_mem _ _ _ _ KI _ _ Hb) as (_ & s' & ? & _). congruence.
Qed.

Lemma link_not_head (b : bin) : valid_bin b -> x <> head_of a b.
Proof using HI HO.
  intros Vb E. pose proof (head_tile_sep _ _ _ _ _ HI HO b x s Free Vb (lookup_insert_eq _ _ _)).
  destruct (H_tile _ _ _ _ HI x s Free (lookup_insert_eq _ _ _)). lia.
Qed.

Lemma link_x : lnode a G x.
Proof using Hx. left. eauto. Qed.

Lemma link_rdisj : rdisj valid_bin (head_of a) (bl B).
Proof using HI HO Hst1 Hx KI.
  intros i j y Vi Vj. rewrite !elem_of_cons.
  assert (forall b b' z, valid_bin b -> z ∈ bl B b' -> z <> head_of a b) as Hno.
  { intros b b' z Vb Hz ->. destruct (K_mem _ _ _ _ KI _ _ Hz) as (_ & s' & Hs & _).
    assert (head_of a b <> x) as Hne by (intros E; pose proof (link_not_head b Vb); congruence).
    assert (G' !! head_of a b = Some (s', Free)) as Hs' by (rewrite lookup_insert_ne; done).
    pose proof (head_tile_sep _ _ _ _ _ HI HO b _ _ _ Vb Hs').
    destruct (H_tile _ _ _ _ HI _ _ _ Hs'). lia. }
  intros [->|Hy] [E|Hy'].
  - destruct (heads_sep _ _ HO i j Vi Vj); [done|lia].
  - destruct (Hno i j _ Vi Hy'); done.
  - subst y. destruct (Hno j i _ Vj Hy); done.
  - eauto using K_uniq.
Qed.

(** Words of sentinels, of free chunks and of [x] are the ones written. *)
Lemma link_lwb (n o : Z) :
  16 <= o < 48 -> n = x \/ (exists b, valid_bin b /\ n ∈ head_of a b :: bl B b) -> lwb a G' (n + o).
Proof using KI.
  intros Ho Hn. exists n, o. split; [done|]. split; [done|].
  destruct Hn as [->|(b & Vb & Hn)]; [right; exists s; apply lookup_insert_eq|].
  rewrite elem_of_cons in Hn. destruct Hn as [->|Hn]; [left; eauto|right].
  destruct (K_mem _ _ _ _ KI _ _ Hn) as (_ & s' & Hs & _).
  rewrite lookup_insert. case_decide; eauto.
Qed.

Lemma link_fast (m1 m2 : mem) (y s' o : Z) :
  only_differ (lwb a G') m1 m2 -> G !! y = Some (s', Fast) -> 16 <= o < 48 ->
  ld m2 (y + o) = ld m1 (y + o).
Proof using HI HO Hst2 Hx.
  intros Hd Hy Ho.
  eapply (lwb_fast a G' hd hs t HI HO m1 m2 y s' o); try done.
  rewrite lookup_insert_ne; [done|]. intros <-. congruence.
Qed.

(** What every way of linking leaves. *)
Lemma K_linked (m2 : mem) (b : bin) (SL : nat -> list Z) :
  valid_bin b -> bin_fits b s ->
  rings o_fd o_bk valid_bin (head_of a) m2 (bl (badd B b x SL)) ->
  rings o_next_sizeptr o_prev_sizeptr (fun i => (i < 64)%nat)
    (fun i => head_of a (BLarge i)) m2 SL ->
  (forall i y, y ∈ SL i <-> y ∈ bl (badd B b x SL) (BLarge i)) ->
  (forall i, StronglySorted Z.le (tile_size G <$> SL i)) ->
  (forall b' y, is_large b' = false -> y ∈ bl (badd B b x SL) b' ->
     ld m2 (y + o_next_sizeptr) = NULL /\ ld m2 (y + o_prev_sizeptr) = NULL) ->
  only_differ (lwb a G') m m2 ->
  KInv m2 a G' (badd B b x SL).
Proof using KI HI HO Hx Hst1 Hst2.
  intros Vb Hfit R1 R2 Hsl Hsort Hnull Hd.
  assert (forall y, y <> x -> G' !! y = G !! y) as Hne.
  { intros y ?. by rewrite lookup_insert_ne by congruence. }
  split; try done.
  - apply KI.
  - intros b' y [[-> ->]|Hy]%badd_elem.
    + split; [done|]. exists s. by rewrite lookup_insert_eq.
    + destruct (K_mem _ _ _ _ KI _ _ Hy) as (Hb' & s' & Hs' & ?).
      split; [done|]. exists s'. rewrite Hne; [done|]. intros ->. congruence.
  - intros b1 b2 y [[-> ->]|H1]%badd_elem [[-> E]|H2]%badd_elem; try done.
    + by apply link_fresh in H2.
    + subst y. by apply link_fresh in H1.
    + eauto using K_uniq.
  - intros y s' Hy. tile_cases.
    + exists b. apply badd_elem. auto.
    + destruct (K_all _ _ _ _ KI _ _ Hy) as [b' ?]. exists b'. apply badd_elem. auto.
  - intros i. erewrite Forall_fmap_ext_1; [apply Hsort|].
    apply Forall_forall. intros y _. unfold tile_size.
    destruct (decide (y = x)) as [->|]; [by rewrite lookup_insert_eq, Hx|by rewrite Hne].
  - intros i Hi. eapply sll_frame; [|by apply (K_fast _ _ _ _ KI)].
    intros y Hy. destruct (K_fmem _ _ _ _ KI _ _ Hy) as [_ Hf].
    eapply link_fast; [done..|unfold o_fd; lia].
  - intros i y Hy. destruct (K_fmem _ _ _ _ KI _ _ Hy) as [? Hf].
    split; [done|]. rewrite Hne; [done|]. intros ->. congruence.
  - apply KI.
  - intros y s' Hy. tile_cases. simpl. eauto using K_fall.
Qed.

(** The [fd]/[bk] half of an insertion, in any bin. *)
Lemma link_fd (m1 : mem) (b : bin) (SL : nat -> list Z) (h := head_of a b) (n := ld m1 (head_of a b + o_fd)) :
  valid_bin b -> rings o_fd o_bk valid_bin (head_of a) m1 (bl B) ->
  linked o_fd o_bk m1 (insert_into_fdlist m1 h x) h x n /\
  rings o_fd o_bk valid_bin (head_of a) (insert_into_fdlist m1 h x) (bl (badd B b x SL)) /\
  n ∈ h :: bl B b /\
  only_differ (lwb a G') m1 (insert_into_fdlist m1 h x) /\
  (forall y o, lnode a G y -> o = o_next_sizeptr \/ o = o_prev_sizeptr ->
     ld (insert_into_fdlist m1 h x) (y + o) = ld m1 (y + o)).
Proof using KI HI HO Hx Hst1 Hst2.
  intros Vb R1. pose proof (R1 b Vb) as Rb.
  assert (n = default h (head (bl B b))) as En by apply (dll_first o_fd o_bk _ _ _ Rb).
  assert (n ∈ h :: bl B b) as Hn.
  { rewrite En, elem_of_cons. destruct (default_head_elem h (bl B b)); auto. }
  assert (forall y, y ∈ h :: bl B b -> lnode a G y) as Ln by (intros; eapply K_node; eauto).
  assert (forall b' y, valid_bin b' -> y ∈ head_of a b' :: bl B b' -> y <> x) as Nx.
  { intros b' y Vb'. rewrite elem_of_cons. intros [->|Hy] E;
      [by destruct (link_not_head b' Vb')|]. subst y. by apply link_fresh in Hy. }
  assert (h ∈ h :: bl B b) as Hh by (rewrite elem_of_cons; auto).
  assert (linked o_fd o_bk m1 (insert_into_fdlist m1 h x) h x n) as L.
  { apply insert_fd_spec; try done;
      try (apply link_apart; auto using link_x); intros E; symmetry in E; revert E; by apply (Nx b). }
  split_and!; try done.
  - eapply (rings_link o_fd o_bk 48 ltac:(offs; lia) ltac:(offs; lia) ltac:(offs; lia)
              valid_bin (head_of a) m1 _ (lnode a G) (bl B) b x h n [] (bl B b)); try done.
    + intros ? ? ? ?. by apply link_apart.
    + eauto using K_node.
    + apply link_x.
    + apply link_rdisj.
    + intros k Vk Hk. by eapply Nx.
    + rewrite En. destruct (bl B b); constructor.
  - eapply only_differ_weaken; [|apply L].
    intros z [->|[->|[->| ->]]]; apply link_lwb; offs; try lia; eauto.
  - intros y o Ly Ho. apply (linked_rest _ _ _ _ _ _ _ L).
    pose proof (link_apart _ _ link_x Ly). pose proof (link_apart _ _ (Ln _ Hh) Ly).
    pose proof (link_apart _ _ (Ln _ Hn) Ly). offs. lia.
Qed.

(** *** The unsorted and the small bins *)
Lemma K_link_plain (b : bin) (m' := insert_into_fdlist m (head_of a b) x) :
  valid_bin b -> is_large b = false -> bin_fits b s ->
  ld m (x + o_next_sizeptr) = NULL -> ld m (x + o_prev_sizeptr) = NULL ->
  KInv m' a G' (badd B b x (sl B)) /\ only_differ (lwb a G') m m'.
Proof using KI HI HO Hx Hst1 Hst2.
  intros Vb Eb Hfit N1 N2.
  destruct (link_fd m b (sl B) Vb (K_rings _ _ _ _ KI)) as (L & R & Hn & D & Fs). fold m' in L, R, D, Fs.
  split; [|done]. apply K_linked; try done.
  - eapply rings_frame; [|apply KI]. intros i y Hi Hy. eapply K_snode in Hy; [|done..].
    split; apply Fs; auto.
  - intros i y. rewrite badd_elem, (K_smem _ _ _ _ KI). split; [auto|].
    intros [[<- _]|?]; [done|auto].
  - apply KI.
  - intros b' y Hb' [[-> ->]|Hy]%badd_elem.
    + rewrite !Fs by auto using link_x. done.
    + rewrite !Fs by (auto; destruct (K_mem _ _ _ _ KI _ _ Hy) as (_ & ? & ? & _); left; eauto).
      eapply (K_null _ _ _ _ KI); done.
Qed.

(** *** The large bins *)

(** The loop of [insert_into_largebin] stops at the first chunk that is at
    least as large, within as many rounds as the list is long. *)
Lemma find_ceil_spec (m1 : mem) (h size : Z) (f : Z -> Z) (l2 : list Z) : forall fuel l1,
  dll o_next_sizeptr o_prev_sizeptr m1 h (l1 ++ l2) ->
  (forall y, y ∈ l2 -> size_t (get_size m1 y) = f y) ->
  Forall (fun y => f y < size) l1 -> (length l2 <= fuel)%nat ->
  exists k1 k2, l1 ++ l2 = k1 ++ k2 /\ Forall (fun y => f y < size) k1 /\
    (forall y, head k2 = Some y -> size <= f y) /\
    find_ceil fuel m1 h size (default h (head l2)) = Some (default h (head k2)).
Proof using Type.
  clear. induction l2 as [|y l2 IH]; intros fuel l1 HD Hsz Hl1 Hf.
  - exists l1, []. split_and!; try done. simpl. destruct fuel; simpl; by rewrite Z.eqb_refl.
  - assert (y <> h) as Hyh.
    { destruct HD as [_ Hnd]. apply NoDup_cons in Hnd as [Hh _]. intros ->. apply Hh.
      rewrite elem_of_app, elem_of_cons. auto. }
    assert (size_t (get_size m1 y) = f y) as Ey by (apply Hsz; rewrite elem_of_cons; auto).
    destruct (Z.lt_ge_cases (f y) size) as [Hlt|Hge].
    + destruct fuel as [|fuel]; [simpl in Hf; lia|].
      destruct (IH fuel (l1 ++ [y])) as (k1 & k2 & E & Q1 & Q2 & Q3).
      * by rewrite <- app_assoc.
      * intros z Hz. apply Hsz. rewrite elem_of_cons. auto.
      * apply Forall_app. auto.
      * simpl in Hf. lia.
      * exists k1, k2. rewrite <- app_assoc in E. split_and!; try done. simpl.
        destruct (Z.eqb_spec y h); [done|]. rewrite Ey. destruct (Z.ltb_spec (f y) size); [|lia].
        simpl. rewrite (dll_next _ _ _ _ _ _ _ HD). done.
    + exists l1, (y :: l2). split_and!; try done.
      * intros z [= <-]. lia.
      * simpl. destruct fuel; simpl; rewrite Ey;
          (destruct (Z.ltb_spec (f y) size); [lia|]); by rewrite andb_false_r.
Qed.

Lemma StronglySorted_insert (f : Z -> Z) (k1 k2 : list Z) (y : Z) :
  StronglySorted Z.le (f <$> (k1 ++ k2)) -> Forall (fun z => f z < f y) k1 ->
  (forall z, head k2 = Some z -> f y <= f z) ->
  StronglySorted Z.le (f <$> (k1 ++ y :: k2)).
Proof using Type.
  clear. induction k1 as [|z k1 IH]; simpl; intros HS H1 H2.
  - constructor; [done|]. destruct k2 as [|z k2]; [constructor|]. simpl in *.
    apply StronglySorted_inv in HS as [_ HF]. specialize (H2 z eq_refl).
    constructor; [done|]. eapply List.Forall_impl; [|exact HF]. simpl. lia.
  - apply StronglySorted_inv in HS as [HS HF]. apply Forall_cons in H1 as [Hz H1].
    constructor; [auto|]. rewrite fmap_app, List.Forall_app in *. destruct HF as [? ?].
    split; [done|]. simpl. constructor; [lia|done].
Qed.

(** [insert_into_largebin] after it found the chunk [c] before which the
    new one goes. *)
Lemma K_link_large (i : nat) (k1 k2 : list Z) (h := head_of a (BLarge i))
    (c := default h (head k2)) (f := ld m (c + o_prev_sizeptr))
    (m1 := st (st (st (st m (x + o_next_sizeptr) c) (x + o_prev_sizeptr) f)
             (c + o_prev_sizeptr) x) (f + o_next_sizeptr) x)
    (m' := insert_into_fdlist m1 h x) :
  (i < 64)%nat -> get_largebin_index s = Z.of_nat i -> sl B i = k1 ++ k2 ->
  Forall (fun y => tile_size G y < s) k1 -> (forall y, head k2 = Some y -> s <= tile_size G y) ->
  KInv m' a G' (badd B (BLarge i) x (fupd (sl B) i (k1 ++ x :: k2))) /\
  only_differ (lwb a G') m m'.
Proof using KI HI HO Hx Hst1 Hst2.
  intros Hi Hfit Esl Hk1 Hk2. pose proof (K_srings _ _ _ _ KI i Hi) as HD. cbv beta in HD.
  rewrite Esl in HD.
  assert (f = default h (last k1)) as Ef by apply (dll_before _ _ _ _ _ _ HD).
  assert (ring_split h k1 k2 f c) as Hsp by (rewrite Ef; apply ring_split_ends).
  destruct (ring_split_elem _ _ _ _ _ Hsp) as [Hf Hc]. rewrite <- Esl in Hf, Hc.
  assert (forall y, y ∈ h :: sl B i -> y ∈ h :: bl B (BLarge i)) as Hsub.
  { intros y. rewrite !elem_of_cons, (K_smem _ _ _ _ KI). done. }
  assert (forall j y, (j < 64)%nat -> y ∈ head_of a (BLarge j) :: sl B j -> y <> x) as Nx.
  { intros j y Vj. rewrite elem_of_cons, (K_smem _ _ _ _ KI). intros [->|Hy] E;
      [by destruct (link_not_head (BLarge j) Vj)|]. subst y. by apply link_fresh in Hy. }
  assert (lnode a G f) as Lf by (eapply K_snode; eauto).
  assert (lnode a G c) as Lc by (eapply K_snode; eauto).
  pose proof link_x as Lx.
  assert (linked o_next_sizeptr o_prev_sizeptr m m1 f x c) as L.
  { apply insert_sorted_spec; try done; try (apply link_apart; auto);
      intros E; symmetry in E; revert E; by apply (Nx i). }
  assert (rings o_next_sizeptr o_prev_sizeptr (fun i => (i < 64)%nat)
    (fun i => head_of a (BLarge i)) m1 (fupd (sl B) i (k1 ++ x :: k2))) as R2.
  { eapply (rings_link o_next_sizeptr o_prev_sizeptr 48 ltac:(offs; lia) ltac:(offs; lia) ltac:(offs; lia)
              (fun i => (i < 64)%nat) (fun i => head_of a (BLarge i)) m _ (lnode a G)); try done.
    - intros ? ? ? ?. by apply link_apart.
    - eauto using K_snode.
    - apply KI.
    - intros j k y Vj Vk Hj Hk. assert (BLarge j = BLarge k) as [=]; [|done].
      eapply (link_rdisj _ _ y); try done; rewrite elem_of_cons in *; rewrite <- (K_smem _ _ _ _ KI); done.
    - intros k Vk Hk. by eapply Nx. }
  assert (forall y o, lnode a G y -> o = o_fd \/ o = o_bk -> ld m1 (y + o) = ld m (y + o)) as F1.
  { intros y o Ly Ho. apply (linked_rest _ _ _ _ _ _ _ L).
    pose proof (link_apart _ _ Lx Ly). pose proof (link_apart _ _ Lf Ly).
    pose proof (link_apart _ _ Lc Ly). offs. lia. }
  assert (rings o_fd o_bk valid_bin (head_of a) m1 (bl B)) as R1.
  { eapply rings_frame; [|apply KI]. intros b y Vb Hy. eapply K_node in Hy; [|done..]. split; apply F1; auto. }
  assert (only_differ (lwb a G') m m1) as D1.
  { eapply only_differ_weaken; [|apply L].
    assert (valid_bin (BLarge i)) by done.
    intros z [->|[->|[->| ->]]]; apply link_lwb; offs; try lia; eauto 6. }
  destruct (link_fd m1 (BLarge i) (fupd (sl B) i (k1 ++ x :: k2)) Hi R1) as (L' & R & Hn & D & Fs).
  fold h m' in L', R, D, Fs.
  assert (only_differ (lwb a G') m m') as DD by eauto using only_differ_trans.
  split; [|done]. apply K_linked; try done.
  - eapply rings_frame; [|apply R2]. intros j y Vj Hy.
    assert (lnode a G y) as Ly.
    { unfold fupd in Hy. rewrite elem_of_cons in Hy. destruct Hy as [->|Hy]; [right; exists (BLarge j); done|].
      revert Hy. case_decide; [subst j|intros Hy; eapply (K_snode _ _ _ _ KI j); eauto; rewrite elem_of_cons; auto].
      rewrite elem_of_app, elem_of_cons. intros Hy.
      destruct (decide (y = x)) as [->|]; [done|]. eapply (K_snode _ _ _ _ KI i); eauto.
      rewrite Esl, elem_of_cons, elem_of_app. tauto. }
    split; apply Fs; auto.
  - intros j y. rewrite badd_elem, <- (K_smem _ _ _ _ KI). unfold fupd. case_decide.
    + subst j. rewrite Esl, !elem_of_app, elem_of_cons. intuition congruence.
    + intuition congruence.
  - intros j. unfold fupd. case_decide; [|apply KI]. subst j.
    pose proof (K_sort _ _ _ _ KI i) as HS. rewrite Esl in HS.
    assert (tile_size G x = s) as Es by (unfold tile_size; by rewrite Hx).
    apply StronglySorted_insert; rewrite ?Es; done.
  - intros b' y Hb' [[-> ->]|Hy]%badd_elem; [done|].
    destruct (K_mem _ _ _ _ KI _ _ Hy) as (Vb' & s' & Hs' & _).
    assert (lnode a G y) as Ly by (left; eauto).
    assert (forall z, z ∈ h :: sl B i -> z <> y) as Hne.
    { intros z Hz ->. assert (b' = BLarge i) as ->; [|done].
      eapply (link_rdisj b' (BLarge i) y); try done; [rewrite elem_of_cons; auto|auto]. }
    assert (x <> y) by (intros E; rewrite <- E in Hy; by apply link_fresh in Hy).
    pose proof (Hne f Hf). pose proof (Hne c Hc).
    pose proof (link_apart _ _ Lx Ly). pose proof (link_apart _ _ Lf Ly).
    pose proof (link_apart _ _ Lc Ly).
    rewrite !Fs by auto. destruct (K_null _ _ _ _ KI _ _ Hb' Hy) as [E1 E2].
    split; [etrans; [|exact E1]|etrans; [|exact E2]]; apply (linked_rest _ _ _ _ _ _ _ L); offs; lia.
Qed.
End link.

(** ** Fast bins *)

Lemma nth_insert_eq (l : list Z) (i : nat) (v : Z) : (i < length l)%nat -> nth i (<[i := v]> l) 0 = v.
Proof. intros. by rewrite nth_lookup, list_lookup_insert_eq. Qed.

Lemma nth_insert_ne (l : list Z) (i j : nat) (v : Z) : i <> j -> nth j (<[i := v]> l) 0 = nth j l 0.
Proof. intros. by rewrite !nth_lookup, list_lookup_insert_ne. Qed.

Section fast.
Context (m : mem) (a : arena) (G : tiles) (B : bins).
Context (hd : Z -> hdr) (hs : list alloced_heap) (t : Z).
Context (KI : KInv m a G B) (HI : HInv hd hs t G) (HO : HeadsOK a hs).

Lemma head_of_set_fastbins (v : list Z) (b : bin) : head_of (set_fastbins a v) b = head_of a b.
Proof using Type. clear. by destruct b. Qed.

(** A change that concerns one chunk outside the doubly linked bins and
    the fast bins only. *)
Lemma K_fast_change (m' : mem) (fb : list Z) (x s : Z) (st0 st1 : status) (FL : nat -> list Z) :
  G !! x = Some (s, st0) -> st0 <> Free -> st1 <> Free -> length fb = 7%nat ->
  (forall n o, lnode a G n -> n <> x -> 16 <= o < 48 -> ld m' (n + o) = ld m (n + o)) ->
  (forall i, (i < 7)%nat -> sll m' (nth i fb 0) (FL i)) ->
  (forall i y, y ∈ FL i -> (i < 7)%nat /\ <[x := (s, st1)]> G !! y = Some (16 * (Z.of_nat i + 1), Fast)) ->
  (forall i, NoDup (FL i)) ->
  (forall y s', <[x := (s, st1)]> G !! y = Some (s', Fast) -> exists i, y ∈ FL i) ->
  KInv m' (set_fastbins a fb) (<[x := (s, st1)]> G) (Bins (bl B) (sl B) FL).
Proof.
  intros Hx H0 H1 Hlen Hm Q1 Q2 Q3 Q4.
  assert (forall b y, y ∈ bl B b -> y <> x) as Nb.
  { intros b y Hy ->. destruct (K_mem _ _ _ _ KI _ _ Hy) as (_ & ? & ? & _). congruence. }
  assert (forall b, valid_bin b -> head_of a b <> x) as Nh.
  { intros b Vb E. pose proof (head_tile_sep _ _ _ _ _ HI HO b x s _ Vb Hx).
    destruct (H_tile _ _ _ _ HI _ _ _ Hx). lia. }
  split; simpl; try done.
  - pose proof (K_lens _ _ _ _ KI). tauto.
  - intros b Vb. rewrite head_of_set_fastbins. eapply dll_frame; [|by apply (K_rings _ _ _ _ KI)].
    intros n Hn. pose proof (K_node _ _ _ _ KI _ _ Vb Hn) as Ln. rewrite elem_of_cons in Hn.
    assert (n <> x) by (destruct Hn as [->|]; eauto). offs. split; apply Hm; done || lia.
  - intros b y Hy. destruct (K_mem _ _ _ _ KI _ _ Hy) as (Vb & s' & Hs' & ?).
    split; [done|]. exists s'. rewrite lookup_insert_ne; [done|]. apply Nb in Hy. done.
  - apply KI.
  - intros y s' Hy. tile_cases. eauto using K_all.
  - intros i Hi. eapply dll_frame; [|by apply (K_srings _ _ _ _ KI)].
    intros n Hn. pose proof (K_snode _ _ _ _ KI _ _ Hi Hn) as Ln. rewrite elem_of_cons in Hn.
    assert (n <> x).
    { destruct Hn as [->|Hn]; [by apply (Nh (BLarge i))|]. apply (K_smem _ _ _ _ KI) in Hn. eauto. }
    offs. split; apply Hm; done || lia.
  - apply KI.
  - intros i. erewrite Forall_fmap_ext_1; [apply KI|]. apply Forall_forall.
    intros y _. unfold tile_size. rewrite lookup_insert. case_decide; [|done]. subst. by rewrite Hx.
  - intros b y Hb Hy. destruct (K_mem _ _ _ _ KI _ _ Hy) as (Vb & s' & Hs' & _).
    rewrite !Hm; [eapply (K_null _ _ _ _ KI); done|..]; try (left; eauto); eauto; offs; lia.
Qed.

Lemma fast_size_bin (i j : nat) : 16 * (Z.of_nat i + 1) = 16 * (Z.of_nat j + 1) -> i = j.
Proof using Type. lia. Qed.

Lemma K_push (x s : Z) (st0 : status) (i : nat) :
  G !! x = Some (s, st0) -> st0 <> Free -> st0 <> Fast -> (i < 7)%nat -> s = 16 * (Z.of_nat i + 1) ->
  KInv (st m (x + o_fd) (nth i (fastbins a) 0)) (set_fastbins a (<[i := x]> (fastbins a)))
    (<[x := (s, Fast)]> G) (Bins (bl B) (sl B) (fupd (fl B) i (x :: fl B i))).
Proof.
  intros Hx H0 H0' Hi ->. destruct (K_lens _ _ _ _ KI) as (Hlen & _).
  assert (forall j, x ∉ fl B j) as Nf.
  { intros j Hj. destruct (K_fmem _ _ _ _ KI _ _ Hj). congruence. }
  assert (forall n o, lnode a G n -> n <> x -> 16 <= o < 48 ->
    ld (st m (x + o_fd) (nth i (fastbins a) 0)) (n + o) = ld m (n + o)) as Hfr.
  { intros n o Ln Hne Ho. apply ld_st_ne. assert (lnode a G x) as Lx by (left; eauto).
    pose proof (lnode_apart _ _ _ _ _ HI HO _ _ Ln Lx). offs. lia. }
  eapply K_fast_change; try done.
  - by rewrite length_insert.
  - intros j Hj. unfold fupd. case_decide as E.
    + subst j. rewrite nth_insert_eq by lia. simpl.
      destruct (H_tile _ _ _ _ HI _ _ _ Hx) as (_ & _ & _ & ? & _).
      split_and!; [done|lia|]. rewrite ld_st_eq.
      eapply sll_frame; [|by apply (K_fast _ _ _ _ KI)].
      intros y Hy. destruct (K_fmem _ _ _ _ KI _ _ Hy). apply Hfr; [left; eauto| |offs; lia].
      intros ->. by apply Nf in Hy.
    + rewrite nth_insert_ne by done.
      eapply sll_frame; [|by apply (K_fast _ _ _ _ KI)].
      intros y Hy. destruct (K_fmem _ _ _ _ KI _ _ Hy). apply Hfr; [left; eauto| |offs; lia].
      intros ->. by apply Nf in Hy.
  - intros j y Hy. destruct (decide (y = x)) as [->|Hne].
    + rewrite lookup_insert_eq. revert Hy. unfold fupd. case_decide; [subst j; done|].
      intros Hy. by apply Nf in Hy.
    + rewrite lookup_insert_ne by done. apply (K_fmem _ _ _ _ KI). revert Hy. unfold fupd.
      case_decide; [|done]. subst j. rewrite elem_of_cons. intros [?|?]; done.
  - intros j. unfold fupd. case_decide; [|apply KI]. apply NoDup_cons. split; [done|apply KI].
  - intros y s' Hy. tile_cases.
    + exists i. rewrite fupd_eq, elem_of_cons. auto.
    + destruct (K_fall _ _ _ _ KI _ _ Hy) as [j Hj]. exists j. unfold fupd.
      case_decide; [subst j; rewrite elem_of_cons|]; auto.
Qed.

Lemma K_pop (x : Z) (l : list Z) (i : nat) (st1 : status) (s := 16 * (Z.of_nat i + 1)) :
  fl B i = x :: l -> st1 <> Free -> st1 <> Fast ->
  G !! x = Some (s, Fast) /\ (i < 7)%nat /\ nth i (fastbins a) 0 = x /\ x <> NULL /\
  KInv (st m (x + o_fd) NULL) (set_fastbins a (<[i := ld m (x + o_fd)]> (fastbins a)))
    (<[x := (s, st1)]> G) (Bins (bl B) (sl B) (fupd (fl B) i l)).
Proof.
  intros El H1 H1'. destruct (K_lens _ _ _ _ KI) as (Hlen & _).
  destruct (K_fmem _ _ _ _ KI i x) as [Hi Hx]; [rewrite El, elem_of_cons; auto|]. fold s in Hx.
  pose proof (K_fast _ _ _ _ KI i Hi) as Hs. rewrite El in Hs. destruct Hs as (Eh & Hnz & Hs).
  pose proof (K_fnd _ _ _ _ KI i) as Hnd. rewrite El in Hnd. apply NoDup_cons in Hnd as [Hnx Hnd].
  rewrite Eh in *. split_and!; try done.
  assert (forall n o, lnode a G n -> n <> x -> 16 <= o < 48 ->
    ld (st m (x + o_fd) 0) (n + o) = ld m (n + o)) as Hfr.
  { intros n o Ln Hne Ho. apply ld_st_ne. assert (lnode a G x) as Lx by (left; eauto).
    pose proof (lnode_apart _ _ _ _ _ HI HO _ _ Ln Lx). offs. lia. }
  assert (forall j, x ∈ fl B j -> j = i) as Nf.
  { intros j Hj. destruct (K_fmem _ _ _ _ KI _ _ Hj) as [_ Hj']. apply fast_size_bin.
    rewrite Hx in Hj'. by injection Hj'. }
  eapply K_fast_change; try done.
  - by rewrite length_insert.
  - intros j Hj. unfold fupd. case_decide as E.
    + subst j. rewrite nth_insert_eq by lia. simpl.
      eapply sll_frame; [|exact Hs]. intros y Hy.
      destruct (K_fmem _ _ _ _ KI i y) as [_ Hy']; [rewrite El, elem_of_cons; auto|].
      apply Hfr; [left; eauto| |offs; lia]. congruence.
    + rewrite nth_insert_ne by done.
      eapply sll_frame; [|by apply (K_fast _ _ _ _ KI)].
      intros y Hy. destruct (K_fmem _ _ _ _ KI _ _ Hy). apply Hfr; [left; eauto| |offs; lia].
      intros ->. by apply Nf in Hy.
  - intros j y Hy. assert (y ∈ fl B j /\ y <> x) as [Hy' Hne].
    { revert Hy. unfold fupd. case_decide.
      - subst j. rewrite El, elem_of_cons. intros Hy. split; [auto|congruence].
      - intros Hy. split; [done|]. intros ->. by apply Nf in Hy. }
    rewrite lookup_insert_ne by done. by apply (K_fmem _ _ _ _ KI).
  - intros j. unfold fupd. case_decide; [done|apply KI].
  - intros y s' Hy. tile_cases. destruct (K_fall _ _ _ _ KI _ _ Hy) as [j Hj].
    exists j. unfold fupd. case_decide; [|done]. subst j. rewrite El, elem_of_cons in Hj.
    destruct Hj; congruence.
Qed.
End fast.
