(* ===== verification/AllocSafe.v ===== *)
(** * AllocSafe: the operations of the allocator keep the invariant

    [AInv] puts the header and the bin invariants together.  Every lemma
    about an operation also says which words it may write: [aw] excludes the
    payload of every chunk that is handed out and everything outside the
    arena's heaps and sentinels. *)

From Stdlib Require Import Sorted.
From S2P Require Import Prelude Mem Dll Alloc AllocFacts AllocInv AllocBins AllocLink.

Record AInv (m : mem) (a : arena) (t : Z) (G : tiles) (B : bins) : Prop := {
  A_H : HInv (hdr_of m) (alloced_heaps a) t G;
  A_K : KInv m a G B;
  A_O : HeadsOK a (alloced_heaps a)
}.

(** The word at [x] belongs to a chunk that is handed out. *)
Definition in_payload (G : tiles) (x : Z) : Prop :=
  exists c s, G !! c = Some (s, Used) /\ c + 16 <= x < c + 16 + s.

(** The arena's own memory. *)
Definition in_arena (a : arena) (x : Z) : Prop :=
  (exists h, h ∈ alloced_heaps a /\ heap_start h <= x < heap_end h + 32) \/
  (exists b, valid_bin b /\ head_of a b <= x < head_of a b + 48).

Definition aw (a : arena) (G : tiles) (x : Z) : Prop := in_arena a x /\ ~ in_payload G x.

(** Header words. *)
Definition hw (a : arena) (G : tiles) (x : Z) : Prop :=
  exists b, hnode (alloced_heaps a) G b /\ (x = b \/ x = b + 8).

(** Two arenas with the same bins and heaps. *)
Definition same_bins (a a' : arena) : Prop :=
  fastbins a' = fastbins a /\ unsortedbin a' = unsortedbin a /\ smallbins a' = smallbins a /\
  largebins a' = largebins a /\ alloced_heaps a' = alloced_heaps a.

Lemma same_bins_head (a a' : arena) (b : bin) : same_bins a a' -> head_of a' b = head_of a b.
Proof. intros (_ & ? & ? & ? & _). destruct b; simpl; congruence. Qed.

Lemma aw_mono (a : arena) (G G' : tiles) (x : Z) :
  (forall c s, G' !! c = Some (s, Used) -> G !! c = Some (s, Used)) -> aw a G x -> aw a G' x.
Proof. intros Hm [? Hn]. split; [done|]. intros (c & s & Hc & ?). apply Hn. exists c, s. auto. Qed.

Lemma aw_arena (a a' : arena) (G : tiles) (x : Z) : same_bins a a' -> aw a G x -> aw a' G x.
Proof.
  intros Hs [Ha Hn]. split; [|done]. unfold in_arena.
  setoid_rewrite (fun b => same_bins_head a a' b Hs). destruct Hs as (_ & _ & _ & _ & ->). done.
Qed.

Section ainv.
Context {m : mem} {a : arena} {t : Z} {G : tiles} {B : bins}.
Context (AI : AInv m a t G B).

Lemma A_tile (x s : Z) (st : status) : G !! x = Some (s, st) ->
  32 <= s /\ s mod 16 = 0 /\ x mod 16 = 0 /\ 0 < x /\ hsz (hdr_of m x) = s /\ x + 16 + s <= 2 ^ 62.
Proof.
  intros Hx. destruct (H_tile _ _ _ _ (A_H _ _ _ _ _ AI) _ _ _ Hx) as (? & ? & ? & ? & ?).
  pose proof (H_size_bound _ _ _ _ (A_H _ _ _ _ _ AI) _ _ _ Hx). tauto.
Qed.

Lemma A_size (x s : Z) (st : status) : G !! x = Some (s, st) -> get_size m x = s.
Proof.
  intros Hx. destruct (A_tile _ _ _ Hx) as (? & _ & _ & ? & E & ?).
  rewrite get_size_hdr; rewrite E; lia.
Qed.

Lemma A_usize (x s : Z) (st : status) : G !! x = Some (s, st) -> size_t (get_size m x) = s.
Proof.
  intros Hx. destruct (A_tile _ _ _ Hx) as (? & _ & _ & ? & E & ?).
  rewrite (A_size _ _ _ Hx). apply uwrap_small. unfold in_uint. lia.
Qed.

Lemma A_next (x s : Z) (st : status) : G !! x = Some (s, st) -> next_chunk m x = x + 16 + s.
Proof. intros Hx. unfold next_chunk, HEADER_SIZE. by rewrite (A_size _ _ _ Hx). Qed.

Lemma hw_aw (x : Z) : hw a G x -> aw a G x.
Proof.
  pose proof (A_H _ _ _ _ _ AI) as HI. intros (b & Hb & Hxb). split.
  - left. destruct Hb as [[[s st] Hb]|(h & Hh & ->)].
    + destruct (H_next _ _ _ _ HI _ _ _ Hb) as (h & Hh & ? & ? & _).
      destruct (A_tile _ _ _ Hb). exists h. split; [done|lia].
    + destruct (H_heap _ _ _ _ HI _ Hh) as (_ & _ & _ & ?). exists h. split; [done|lia].
  - intros (c & s & Hc & Hx). destruct (A_tile _ _ _ Hc).
    destruct (H_hnode_sep _ _ _ _ HI _ _ _ _ Hc Hb); lia.
Qed.

Lemma lwr_aw (x : Z) : lwr a G x -> aw a G x.
Proof.
  pose proof (A_H _ _ _ _ _ AI) as HI. pose proof (A_O _ _ _ _ _ AI) as HO.
  intros (n & o & -> & Ho & Hn). split.
  - destruct Hn as [(b & Hb & ->)|(s & st & Hn & _)].
    + right. exists b. split; [done|lia].
    + left. destruct (H_next _ _ _ _ HI _ _ _ Hn) as (h & Hh & ? & ? & _).
      destruct (A_tile _ _ _ Hn). exists h. split; [done|lia].
  - intros (c & s & Hc & Hx). destruct Hn as [(b & Hb & ->)|(s' & st & Hn & Hst)].
    + pose proof (head_tile_sep _ _ _ _ _ HI HO b c s _ Hb Hc). lia.
    + destruct (A_tile _ _ _ Hn). destruct (A_tile _ _ _ Hc).
      destruct (H_sep _ _ _ _ HI _ _ _ _ _ _ Hc Hn) as [->|]; [congruence|lia].
Qed.

Lemma hw_link (m' : mem) : only_differ (hw a G) m m' ->
  forall n o, lnode a G n -> 16 <= o < 48 -> ld m' (n + o) = ld m (n + o).
Proof.
  intros Hd n o Ln Ho. apply Hd. intros (b & Hb & Hx).
  pose proof (lnode_hnode _ _ _ _ _ (A_H _ _ _ _ _ AI) (A_O _ _ _ _ _ AI) n b Ln Hb). lia.
Qed.

(** Writing headers only, with the free and the fast chunks kept. *)
Lemma A_header (m' : mem) (a' : arena) (t' : Z) (G' : tiles) :
  same_bins a a' -> only_differ (hw a G) m m' ->
  HInv (hdr_of m') (alloced_heaps a) t' G' ->
  (forall x s, G' !! x = Some (s, Free) <-> G !! x = Some (s, Free)) ->
  (forall x s, G' !! x = Some (s, Fast) <-> G !! x = Some (s, Fast)) ->
  AInv m' a' t' G' B.
Proof.
  intros Hs Hd HI' Hf Hf'. pose proof Hs as (E1 & E2 & E3 & E4 & E5).
  pose proof (A_O _ _ _ _ _ AI) as HO. split.
  - by rewrite E5.
  - eapply (K_transfer m a G B (A_K _ _ _ _ _ AI) m' a' G'); try done.
    intros. apply hw_link; eauto using knode_lnode.
  - rewrite E5. split; intros *; rewrite ?(same_bins_head a a') by done; apply HO.
Qed.

Lemma A_same_bins (a' : arena) : same_bins a a' -> AInv m a' t G B.
Proof.
  intros Hs. eapply A_header; try done. apply AI.
Qed.

Lemma hw_next (x s : Z) (st : status) (o : Z) :
  G !! x = Some (s, st) -> o = 0 \/ o = 8 -> hw a G (x + 16 + s + o).
Proof.
  intros Hx Ho. exists (x + 16 + s). split; [|lia].
  eapply H_next_hnode; [apply AI|done].
Qed.

Lemma hw_tile (x s : Z) (st : status) (o : Z) : G !! x = Some (s, st) -> o = 0 \/ o = 8 -> hw a G (x + o).
Proof. intros Hx Ho. exists x. split; [left; eauto|lia]. Qed.

(** Headers of other nodes do not see a write to [b]'s header. *)
Lemma hdr_other (m1 : mem) (b c o v : Z) :
  hnode (alloced_heaps a) G b -> hnode (alloced_heaps a) G c -> b <> c -> o = 0 \/ o = 8 ->
  hdr_of (st m1 (c + o) v) b = hdr_of m1 b.
Proof.
  pose proof (A_H _ _ _ _ _ AI) as HI. intros Hb Hc Hne Ho.
  destruct (H_hnode_apart _ _ _ _ HI _ _ Hb Hc); [done|]. apply hdr_st_ne; lia.
Qed.
End ainv.

(** ** Handing a chunk out without splitting it *)
Lemma A_take (m : mem) (a a' : arena) (t : Z) (G : tiles) (B : bins) (x s : Z) (st0 : status)
    (m1 := set_curr_inuse m x) (m2 := set_prev_inuse m1 (next_chunk m1 x)) :
  AInv m a t G B -> same_bins a a' -> G !! x = Some (s, st0) -> st0 <> Free -> st0 <> Fast ->
  AInv m2 a' (if decide (st0 = Top) then 0 else t) (<[x := (s, Used)]> G) B /\
  only_differ (aw a G) m m2.
Proof.
  intros AI Hs Hx H1 H2. pose proof (A_H _ _ _ _ _ AI) as HI.
  destruct (A_tile AI _ _ _ Hx) as (? & ? & ? & ? & Esz & ?).
  assert (hnode (alloced_heaps a) G x) as Nx by (left; eauto).
  assert (hnode (alloced_heaps a) G (x + 16 + s)) as Nn by (eapply H_next_hnode; eauto).
  assert (next_chunk m1 x = x + 16 + s) as En.
  { unfold next_chunk, HEADER_SIZE. unfold m1. rewrite get_size_hdr; rewrite hdr_set_curr; hsimp; rewrite Esz; lia. }
  unfold m2. rewrite En. clear m2 En.
  assert (only_differ (hw a G) m (set_prev_inuse m1 (x + 16 + s))) as D.
  { eapply only_differ_trans; apply only_differ_st; [eapply hw_tile|eapply hw_next]; eauto; by right. }
  split; [|eapply only_differ_weaken; [apply (hw_aw AI)|done]].
  eapply A_header; try done.
  - assert (hdr_of (set_prev_inuse m1 (x + 16 + s)) x = hdr_of m1 x) as E1.
    { unfold set_prev_inuse. eapply (hdr_other AI); try done; [lia|by right]. }
    assert (hdr_of m1 (x + 16 + s) = hdr_of m (x + 16 + s)) as E2.
    { unfold m1, set_curr_inuse. eapply (hdr_other AI); try done; [lia|by right]. }
    eapply (H_restatus _ _ _ _ HI _ x s st0 Used); try done; rewrite ?E1, ?hdr_set_prev, ?E2; unfold m1;
      rewrite ?hdr_set_curr; try done.
    intros b Hb Hbx Hbn. unfold set_prev_inuse, set_curr_inuse.
    rewrite !(hdr_other AI); try done; by right.
  - intros y s'. rewrite lookup_insert. case_decide; [subst y; rewrite Hx; split; congruence|done].
  - intros y s'. rewrite lookup_insert. case_decide; [subst y; rewrite Hx; split; congruence|done].
Qed.

(** ** Into the unsorted bin *)

(** What the header part of [insert_into_unsortedbin] leaves, before the
    chunk is linked. *)
Lemma insert_unsorted_run (s : astate) (fc sz : Z) (n := fc + 16 + sz) :
  hsz (hdr_of (mm s) fc) = sz -> 32 <= sz -> sz mod 16 = 0 -> 0 < fc -> fc + 16 + sz <= 2 ^ 62 ->
  unsortedbin (ar s) <> 0 ->
  exists m2, insert_into_unsortedbin s fc
      = Some (with_mm s (insert_into_fdlist m2 (unsortedbin (ar s)) fc)) /\
    hdr_of m2 fc = Hdr sz (hprev (hdr_of (mm s) fc)) false (hpsz (hdr_of (mm s) fc)) /\
    hdr_of m2 n = Hdr (hsz (hdr_of (mm s) n)) false (hcurr (hdr_of (mm s) n)) sz /\
    ld m2 (fc + o_next_sizeptr) = NULL /\ ld m2 (fc + o_prev_sizeptr) = NULL /\
    only_differ (fun z => z = fc + 8 \/ z = n \/ z = n + 8 \/ z = fc + 32 \/ z = fc + 40) (mm s) m2 /\
    Z.testbit (ld m2 n) 1 = Z.testbit (ld (mm s) n) 1.
Proof.
  intros Esz Hsz Hsz16 Hfc Hb Hu. set (m := mm s) in *.
  set (m1 := unset_curr_inuse m fc).
  assert (hdr_of m1 fc = Hdr sz (hprev (hdr_of m fc)) false (hpsz (hdr_of m fc))) as E1.
  { unfold m1. by rewrite hdr_unset_curr, Esz. }
  assert (forall m', hdr_of m' fc = hdr_of m1 fc -> get_size m' fc = sz /\ next_chunk m' fc = n) as Hg.
  { intros m' E. assert (get_size m' fc = sz) as Eg by (rewrite get_size_hdr; rewrite E, E1; hsimp; lia).
    split; [done|]. unfold next_chunk, HEADER_SIZE. rewrite Eg. done. }
  assert (hdr_of m1 n = hdr_of m n) as E1n by (apply hdr_st_ne; unfold n, o_size; lia).
  set (m2 := unset_prev_inuse m1 n).
  assert (hdr_of m2 fc = hdr_of m1 fc) as E2 by (apply hdr_st_ne; unfold n, o_size; lia).
  assert (hdr_of m2 n = Hdr (hsz (hdr_of m n)) false (hcurr (hdr_of m n)) (hpsz (hdr_of m n))) as E2n
    by (unfold m2; by rewrite hdr_unset_prev, E1n).
  set (m3 := st m2 (n + o_prev_size) (Z.lor (size_t sz) (size_t (get_prev_size_flags m2 n)))).
  assert (hdr_of m3 fc = hdr_of m1 fc) as E3.
  { rewrite <- E2. apply hdr_st_ne; unfold n, o_prev_size; lia. }
  exists (set_nextprev_sizeptr_to m3 fc NULL). split_and!.
  - unfold insert_into_unsortedbin. destruct (Z.eqb_spec (unsortedbin (ar s)) 0); [done|].
    unfold c_assert, negb. unfold mbind, option_bind. fold m m1. destruct (Hg m1 eq_refl) as [_ ->]. fold m2.
    destruct (Hg m2 E2) as [-> ->]. rewrite set_prev_size_ok by lia. fold m3.
    destruct (Hg m3 E3) as [-> _]. destruct (Z.ltb_spec 16 sz); [done|lia].
  - unfold set_nextprev_sizeptr_to. rewrite !hdr_st_ne, E3, E1 by (offs; lia). done.
  - unfold set_nextprev_sizeptr_to. rewrite !hdr_st_ne by (offs; unfold n; lia).
    unfold m3. rewrite hdr_set_prev_size by (lia || done || apply flags_range). by rewrite E2n.
  - unfold set_nextprev_sizeptr_to. apply ld_st_eq.
  - unfold set_nextprev_sizeptr_to. rewrite ld_st_ne by (offs; lia). apply ld_st_eq.
  - intros z Hz. unfold set_nextprev_sizeptr_to, m3, m2, m1, unset_prev_inuse, unset_curr_inuse. offs.
    rewrite !ld_st_ne by lia. done.
  - unfold set_nextprev_sizeptr_to, m3. replace (n + o_prev_size) with n by (unfold o_prev_size; lia).
    rewrite !ld_st_ne, ld_st_eq by (offs; unfold n; lia). rewrite set_prev_size_mark by (lia || done || apply flags_range).
    rewrite prev_flags_mark. unfold m2, m1, unset_prev_inuse, unset_curr_inuse. rewrite !ld_st_ne by (offs; unfold n; lia). done.
Qed.

Lemma hnode_restatus (hs : list alloced_heap) (G : tiles) (x s : Z) (st0 st1 : status) (b : Z) :
  G !! x = Some (s, st0) -> hnode hs (<[x := (s, st1)]> G) b <-> hnode hs G b.
Proof.
  intros Hx. unfold hnode. rewrite lookup_insert. case_decide; [subst; rewrite Hx|done].
  split; (intros [?|?]; [left; eauto|by right]).
Qed.

Lemma restatus_other (G : tiles) (x s : Z) (st0 st1 st' : status) :
  G !! x = Some (s, st0) -> st0 <> st' -> st1 <> st' ->
  forall y s', <[x := (s, st1)]> G !! y = Some (s', st') <-> G !! y = Some (s', st').
Proof.
  intros Hx H0 H1 y s'. rewrite lookup_insert. case_decide; [|done]. subst y. rewrite Hx. split; congruence.
Qed.

(** Linking a chunk whose header is already that of a free one. *)
Lemma A_link_plain (m : mem) (a : arena) (t : Z) (G : tiles) (B : bins) (b : bin) (x s : Z) (st0 : status)
    (G' := <[x := (s, Free)]> G) (m' := insert_into_fdlist m (head_of a b) x) :
  HInv (hdr_of m) (alloced_heaps a) t G' -> KInv m a G B -> HeadsOK a (alloced_heaps a) ->
  G !! x = Some (s, st0) -> st0 <> Free -> st0 <> Fast ->
  valid_bin b -> is_large b = false -> bin_fits b s ->
  ld m (x + o_next_sizeptr) = NULL -> ld m (x + o_prev_sizeptr) = NULL ->
  AInv m' a t G' (badd B b x (sl B)) /\ only_differ (lwr a G') m m'.
Proof.
  intros HI KI HO Hx H1 H2 Vb Lb Fb N1 N2.
  destruct (K_link_plain m a G B _ _ t x s st0 KI HI HO Hx H1 H2 b Vb Lb Fb N1 N2) as [KI' D].
  assert (only_differ (lwr a G') m m') as D' by (eapply only_differ_weaken; [apply lwb_lwr|done]).
  split; [|done]. split; [|done..].
  eapply H_ext; [exact HI|]. by apply (lwr_hdr _ _ _ _ _ HI HO).
Qed.

(** Where a scan of the heaps may stand: at a header, or at the old header of
    a chunk that has been merged into the free chunk before it. *)
Definition scan_slot (hs : list alloced_heap) (G : tiles) (b : Z) : Prop :=
  hnode hs G b \/ exists y u st, G !! y = Some (u, st) /\ st <> Used /\ y + 48 <= b /\ b + 16 <= y + 16 + u.

Section slots.
Context {hd : Z -> hdr} {hs : list alloced_heap} {t : Z} {a : arena} {G : tiles}.
Context (HI : HInv hd hs t G) (HO : HeadsOK a hs).

Lemma slot_hnode (b c : Z) : scan_slot hs G b -> hnode hs G c -> b = c \/ b + 16 <= c \/ c + 16 <= b.
Proof using HI.
  intros [Hb|(y & u & st & Hy & _ & ? & ?)] Hc; [by eapply H_hnode_apart|].
  destruct (H_hnode_sep _ _ _ _ HI _ _ _ _ Hy Hc) as [->|[?|?]]; lia.
Qed.

Lemma slot_link (b n : Z) : scan_slot hs G b -> lnode a G n -> n = b \/ n + 48 <= b \/ b + 16 <= n.
Proof using HI HO.
  intros [Hb|(y & u & st & Hy & _ & ? & ?)] Hn; [by eapply lnode_hnode|].
  destruct Hn as [[[s' st'] Hn]|(c & Vc & ->)].
  - destruct (H_tile _ _ _ _ HI _ _ _ Hn) as (? & _). destruct (H_sep _ _ _ _ HI _ _ _ _ _ _ Hy Hn); lia.
  - pose proof (head_tile_sep _ _ _ _ _ HI HO c y u st Vc Hy). lia.
Qed.

Lemma view_links (m m' : mem) (b : Z) : only_differ (lwr a G) m m' -> scan_slot hs G b -> scan_view m' b = scan_view m b.
Proof using HI HO.
  intros D Hb. apply scan_view_frame; apply D; intros (n & o & E & Ho & Hn)%lwr_lnode;
    pose proof (slot_link b n Hb Hn); unfold o_size in *; lia.
Qed.

Lemma slot_restatus (x s : Z) (st0 st1 : status) (b : Z) :
  G !! x = Some (s, st0) -> st1 <> Used -> scan_slot hs G b -> scan_slot hs (<[x := (s, st1)]> G) b.
Proof using Type.
  intros Hx H1 [Hb|(y & u & st & Hy & ? & ? & ?)]; [left; by apply (hnode_restatus _ _ _ _ st0)|].
  right. destruct (decide (y = x)) as [->|].
  - exists x, s, st1. rewrite lookup_insert_eq. split_and!; [done|done|done|]. by simplify_eq.
  - exists y, u, st. by rewrite lookup_insert_ne.
Qed.
End slots.

Lemma A_unsorted (s : astate) (t : Z) (G : tiles) (B : bins) (x sz : Z) (st0 : status)
    (G' := <[x := (sz, Free)]> G) :
  AInv (mm s) (ar s) t G B -> G !! x = Some (sz, st0) -> st0 <> Free -> st0 <> Fast ->
  exists m', insert_into_unsortedbin s x = Some (with_mm s m') /\
    AInv m' (ar s) (if decide (st0 = Top) then 0 else t) G' (badd B BUnsorted x (sl B)) /\
    only_differ (aw (ar s) G') (mm s) m' /\
    forall b, scan_slot (alloced_heaps (ar s)) G b -> b <> x -> scan_view m' b = scan_view (mm s) b.
Proof.
  intros AI Hx H1 H2. destruct (A_tile AI _ _ _ Hx) as (? & ? & ? & ? & Esz & ?).
  pose proof (A_H _ _ _ _ _ AI) as HI. pose proof (A_O _ _ _ _ _ AI) as HO.
  destruct (insert_unsorted_run s x sz) as (m2 & E & E1 & E2 & N1 & N2 & D & Ek); try done.
  { pose proof (heads_pos _ _ HO BUnsorted I). simpl in *. lia. }
  set (n := x + 16 + sz) in *. set (hs := alloced_heaps (ar s)) in *.
  assert (hnode hs G x) as Nx by (left; eauto).
  assert (hnode hs G n) as Nn by (eapply H_next_hnode; eauto).
  assert (lnode (ar s) G x) as Lx by (left; eauto).
  assert (HInv (hdr_of m2) hs (if decide (st0 = Top) then 0 else t) G') as HI2.
  { eapply (H_restatus _ _ _ _ HI _ x sz st0 Free); try done; fold n; rewrite ?E1, ?E2; try done.
    intros b Hb Hbx Hbn. pose proof (H_hnode_apart _ _ _ _ HI _ _ Hb Nn).
    destruct (H_hnode_sep _ _ _ _ HI _ _ _ _ Hx Hb) as [?|[?|?]]; [done|..];
      apply hdr_frame; apply D; offs; lia. }
  assert (KInv m2 (ar s) G B) as KI2.
  { eapply (K_transfer (mm s) (ar s) G B (A_K _ _ _ _ _ AI)); try done.
    intros y o Ky Ho. pose proof (knode_lnode _ _ _ Ky) as Ly. apply D.
    pose proof (lnode_hnode _ _ _ _ _ HI HO y n Ly Nn).
    pose proof (lnode_apart _ _ _ _ _ HI HO _ _ Ly Lx). offs.
    assert (y <> x); [|lia]. intros ->. destruct Ky as [(b & Vb & Eb)|[[s' ?]|[s' ?]]]; [|congruence..].
    pose proof (head_tile_sep _ _ _ _ _ HI HO b x sz st0 Vb Hx). lia. }
  destruct (A_link_plain m2 (ar s) _ G B BUnsorted x sz st0 HI2 KI2 HO Hx H1 H2 I eq_refl I N1 N2) as [AI' D'].
  exists (insert_into_fdlist m2 (unsortedbin (ar s)) x). split_and!; try done.
  2:{ intros b Hb Hbx. rewrite (view_links HI2 HO _ _ _ D') by (by eapply slot_restatus).
    destruct (slot_hnode HI _ _ Hb Nx) as [?|Hbx']; [done|]. pose proof (slot_link HI HO _ _ Hb Lx).
    destruct (slot_hnode HI _ _ Hb Nn) as [->|?]; [apply scan_view_hdr; rewrite ?E2; done|].
    apply scan_view_frame; apply D; offs; lia. }
  eapply only_differ_trans; [|eapply only_differ_weaken; [apply (lwr_aw AI')|exact D']].
  eapply only_differ_weaken; [|exact D]. intros z Hz.
  assert (G' !! x = Some (sz, Free)) as Hx' by apply lookup_insert_eq.
  destruct Hz as [->|[->|[->|[->| ->]]]].
  - eapply (hw_aw AI'), hw_tile; eauto.
  - apply (hw_aw AI'). replace n with (n + 0) by lia. eapply hw_next; eauto.
  - eapply (hw_aw AI'), hw_next; eauto.
  - apply (lwr_aw AI'). exists x, 32. split; [done|]. split; [lia|]. right. by exists sz, Free.
  - apply (lwr_aw AI'). exists x, 40. split; [done|]. split; [lia|]. right. by exists sz, Free.
Qed.

(** ** Splitting *)

(** From [G] to [G'] the chunk [x], of size [sz] afterwards, was handed out;
    no other chunk was, none was taken back, and no chunk was left in the
    middle of an operation. *)
Record Handed (G G' : tiles) (x sz : Z) : Prop := {
  handed_fresh : forall s, G !! x <> Some (s, Used);
  handed_used : forall c s, G' !! c = Some (s, Used) <->
    (c = x /\ s = sz) \/ (c <> x /\ G !! c = Some (s, Used));
  handed_loose : forall c s st, G' !! c = Some (s, st) -> st = Loose \/ st = Limbo ->
    c <> x /\ G !! c = Some (s, st)
}.

(** Handing out the front [r] bytes, the rest becoming a tile of its own. *)
Lemma handed_split (G : tiles) (x r rem rs : Z) (st2 : status) :
  (forall s, G !! x <> Some (s, Used)) ->
  G !! rem = None -> rem <> x -> st2 <> Used -> st2 <> Loose -> st2 <> Limbo ->
  Handed G (<[rem := (rs, st2)]> (<[x := (r, Used)]> G)) x r.
Proof.
  intros Hfr Hrem Hne Hs1 Hs2 Hs3. split; [done|..].
  - intros c s. destruct (decide (c = rem)) as [->|].
    + rewrite lookup_insert_eq, Hrem. split; [congruence|]. intros [[? _]|[_ ?]]; congruence.
    + rewrite lookup_insert_ne by done. destruct (decide (c = x)) as [->|].
      * rewrite lookup_insert_eq. split; [intros [= <-]; auto|]. intros [[_ ->]|[? _]]; done.
      * rewrite lookup_insert_ne by done. intuition.
  - intros c s st Hc Hst. tile_cases; destruct Hst; try congruence; split; congruence.
Qed.

Lemma handed_take (G : tiles) (x s s0 : Z) (st0 : status) :
  G !! x = Some (s0, st0) -> st0 <> Used -> Handed G (<[x := (s, Used)]> G) x s.
Proof.
  intros Hx Hne. split; [congruence|..].
  - intros c s'. rewrite lookup_insert. case_decide; [subst|].
    + split; [intros [= <-]; auto|]. intros [[_ ->]|[? _]]; done.
    + split; [auto|]. intros [[? _]|[_ ?]]; congruence.
  - intros c s' st Hc Hst. tile_cases; destruct Hst; try congruence; split; congruence.
Qed.

Section split.
Context (s : astate) (t : Z) (G : tiles) (B : bins) (x sz r : Z) (st0 : status).
Context (AI : AInv (mm s) (ar s) t G B).
Context (Hx : G !! x = Some (sz, st0)) (Hr : 32 <= r) (Hr16 : r mod 16 = 0) (Hsplit : 48 <= sz - r).

Lemma split_rem : G !! (x + 16 + r) = None.
Proof using AI Hx Hr Hsplit.
  destruct (G !! (x + 16 + r)) as [[s1 st1]|] eqn:E; [|done].
  destruct (A_tile AI _ _ _ E). destruct (A_tile AI _ _ _ Hx).
  destruct (H_sep _ _ _ _ (A_H _ _ _ _ _ AI) _ _ _ _ _ _ Hx E); lia.
Qed.

(** Nodes other than [x] and its end keep clear of [x]'s extent. *)
Lemma split_clear (b : Z) : hnode (alloced_heaps (ar s)) G b -> b <> x ->
  b + 16 <= x \/ x + 16 + sz <= b.
Proof using AI Hx Hr Hsplit.
  intros Hb Hne. destruct (A_tile AI _ _ _ Hx).
  destruct (H_hnode_sep _ _ _ _ (A_H _ _ _ _ _ AI) _ _ _ _ Hx Hb); lia.
Qed.

(** The header words a split writes are the arena's. *)
Lemma split_aw (z : Z) :
  st0 <> Used ->
  z = x + 8 \/ z = x + 16 + sz \/ z = x + 16 + sz + 8 \/ (x + 16 <= z < x + 16 + sz) -> aw (ar s) G z.
Proof using AI Hx.
  intros Hst Hz. destruct (A_tile AI _ _ _ Hx) as (? & _). destruct Hz as [->|[->|[->|Hz]]].
  - eapply (hw_aw AI), hw_tile; eauto.
  - apply (hw_aw AI). replace (x + 16 + sz) with (x + 16 + sz + 0) by lia. eapply hw_next; eauto.
  - eapply (hw_aw AI), hw_next; eauto.
  - split.
    + left. destruct (H_next _ _ _ _ (A_H _ _ _ _ _ AI) _ _ _ Hx) as (h & Hh & ? & ? & _).
      exists h. split; [done|lia].
    + intros (c & sc & Hc & Hzc).
      destruct (H_sep _ _ _ _ (A_H _ _ _ _ _ AI) _ _ _ _ _ _ Hx Hc) as [->|]; [congruence|lia].
Qed.
End split.

(** The words of a split: header of the remainder [rem] and [prev_size] of
    the chunk after it. *)
Lemma split_headers (m : mem) (x sz r : Z) (rem := x + 16 + r) (rs := sz - r - 16) (n := x + 16 + sz) :
  0 < x -> 32 <= r -> r mod 16 = 0 -> sz mod 16 = 0 -> 48 <= sz - r -> n <= 2 ^ 62 ->
  exists m2, set_prev_size (set_size m rem (ssize_t rs) PREV_IN_USE_FLAG_MASK)
      (next_chunk (set_size m rem (ssize_t rs) PREV_IN_USE_FLAG_MASK) rem) (ssize_t rs) 0 = Some m2 /\
    hdr_of m2 rem = Hdr rs true false (hpsz (hdr_of m rem)) /\
    hdr_of m2 n = Hdr (hsz (hdr_of m n)) (hprev (hdr_of m n)) (hcurr (hdr_of m n)) rs /\
    only_differ (fun z => z = rem + 8 \/ z = n) m m2.
Proof.
  intros Hx Hr Hr16 Hs16 Hs Hn.
  assert (rs mod 16 = 0) by (repeat apply mod_sub_0; done || lia).
  rewrite !(swrap_small 64 rs) by (unfold in_sint; lia).
  set (m1 := set_size m rem rs PREV_IN_USE_FLAG_MASK).
  assert (hdr_of m1 rem = Hdr rs true false (hpsz (hdr_of m rem))) as E1.
  { unfold m1. rewrite hdr_set_size by (done || lia || (unfold PREV_IN_USE_FLAG_MASK; lia)). done. }
  assert (next_chunk m1 rem = n) as En.
  { unfold next_chunk, HEADER_SIZE. rewrite get_size_hdr; rewrite E1; hsimp; lia. }
  assert (hdr_of m1 n = hdr_of m n) as E1n by (apply hdr_st_ne; offs; lia).
  rewrite En, set_prev_size_ok by lia. eexists. split; [done|]. split_and!.
  - rewrite <- E1. apply hdr_st_ne; offs; lia.
  - rewrite hdr_set_prev_size by (lia || done). by rewrite E1n.
  - intros z Hz. unfold m1, set_size. offs. rewrite !ld_st_ne by lia. done.
Qed.

(** [curr] resized and marked in use. *)
Lemma hdr_shrink (m : mem) (x r : Z) :
  0 <= r < 2 ^ 62 -> r mod 16 = 0 ->
  hdr_of (set_curr_inuse (set_size m x (ssize_t r) (get_size_flags m x)) x) x
  = Hdr r (hprev (hdr_of m x)) true (hpsz (hdr_of m x)).
Proof.
  intros Hr Hr16. rewrite (swrap_small 64 r) by (unfold in_sint; lia).
  rewrite hdr_set_curr, hdr_resize by (done || lia). done.
Qed.

Lemma hdr_shrink_ne (m : mem) (x r b : Z) : b + 16 <= x \/ x + 16 <= b ->
  hdr_of (set_curr_inuse (set_size m x (ssize_t r) (get_size_flags m x)) x) b = hdr_of m b.
Proof.
  intros Hb. unfold set_curr_inuse, set_size. rewrite !hdr_st_ne by (offs; lia). done.
Qed.

Lemma A_split_loose (s : astate) (t : Z) (G : tiles) (B : bins) (x sz r : Z)
    (rem := x + 16 + r) (rs := sz - r - 16) (G' := <[rem := (rs, Free)]> (<[x := (r, Used)]> G)) :
  AInv (mm s) (ar s) t G B -> G !! x = Some (sz, Loose) -> 32 <= r -> r mod 16 = 0 -> 48 <= sz - r ->
  exists m', split_or_take s x sz r = Some (x, with_mm s m') /\
    AInv m' (ar s) t G' (badd B BUnsorted rem (sl B)) /\
    Handed G G' x r /\ only_differ (aw (ar s) G) (mm s) m'.
Proof.
  intros AI Hx Hr Hr16 Hsr. pose proof (A_H _ _ _ _ _ AI) as HI. pose proof (A_O _ _ _ _ _ AI) as HO.
  destruct (A_tile AI _ _ _ Hx) as (? & Hs16 & ? & ? & Esz & Hbnd).
  set (n := x + 16 + sz) in *. set (hs := alloced_heaps (ar s)) in *.
  assert (rs mod 16 = 0) as Hrs16 by (repeat apply mod_sub_0; done || lia).
  pose proof (split_rem s t G B x sz r _ AI Hx Hr Hsr) as Hrem. fold rem in Hrem.
  destruct (split_headers (mm s) x sz r) as (m2 & P1 & E2r & E2n & D2); try done.
  fold rem rs n in P1, E2r, E2n, D2.
  destruct (insert_unsorted_run (with_mm s m2) rem rs) as (m3 & P2 & E3r & E3n & N1 & N2 & D3 & _); cbn [mm ar with_mm]; try done; try lia.
  { by rewrite E2r. }
  { pose proof (heads_pos _ _ HO BUnsorted I). simpl in *. lia. }
  cbn [mm ar with_mm] in *. replace (rem + 16 + rs) with n in * by lia.
  set (m4 := insert_into_fdlist m3 (unsortedbin (ar s)) rem).
  set (shrink := fun m => set_curr_inuse (set_size m x (ssize_t r) (get_size_flags m x)) x).
  assert (only_differ (fun z => z = n \/ z = n + 8 \/ (rem <= z < n)) (mm s) m3) as D.
  { intros z Hz. rewrite D3, D2 by lia. done. }
  assert (forall b, hnode hs G b -> b <> n -> hdr_of m3 b = hdr_of (mm s) b) as F3.
  { intros b Hb Hbn. assert (hnode hs G n) as Nn by (eapply H_next_hnode; eauto).
    pose proof (H_hnode_apart _ _ _ _ HI _ _ Hb Nn).
    destruct (decide (b = x)) as [->|]; [apply hdr_frame; apply D; offs; lia|].
    pose proof (split_clear s t G B x sz r _ AI Hx Hr Hsr b Hb). apply hdr_frame; apply D; offs; lia. }
  assert (hnode hs G x) as Nx by (left; eauto).
  assert (HInv (hdr_of (shrink m3)) hs t G') as HI3.
  { assert (hdr_of (shrink m3) rem = hdr_of m3 rem) as Er by (apply hdr_shrink_ne; lia).
    assert (hdr_of (shrink m3) n = hdr_of m3 n) as En by (apply hdr_shrink_ne; lia).
    assert (hdr_of (shrink m3) x = Hdr r (hprev (hdr_of (mm s) x)) true (hpsz (hdr_of (mm s) x))) as Ex.
    { unfold shrink. rewrite hdr_shrink, F3 by (done || lia). done. }
    eapply (H_split _ _ _ _ HI _ x sz r Loose Free); try done; fold rem n;
      rewrite ?Er, ?En, ?Ex, ?E3r, ?E3n, ?E2r, ?E2n; try done.
    intros b Hb Hbx Hbn. fold n in Hbn.
    pose proof (split_clear s t G B x sz r _ AI Hx Hr Hsr b Hb Hbx).
    unfold shrink. rewrite hdr_shrink_ne, F3 by (done || lia). done. }
  set (G1 := <[rem := (rs, Loose)]> (<[x := (r, Used)]> G)).
  assert (forall y s' st', st' <> Loose -> st' <> Used -> G1 !! y = Some (s', st') <-> G !! y = Some (s', st')) as HG1.
  { intros y s' st' ? ?. unfold G1. rewrite !lookup_insert.
    repeat case_decide; subst; rewrite ?Hrem, ?Hx; try done; split; congruence. }
  assert (KInv m3 (ar s) G1 B) as KI3.
  { eapply (K_transfer _ _ _ _ (A_K _ _ _ _ _ AI)); try done; [|by intros; apply HG1..].
    intros y o Ky Ho. pose proof (knode_lnode _ _ _ Ky) as Ly. apply D.
    assert (hnode hs G n) as Nn by (eapply H_next_hnode; eauto).
    pose proof (lnode_hnode _ _ _ _ _ HI HO y n Ly Nn).
    destruct Ky as [(b & Vb & ->)|Ky].
    - pose proof (head_tile_sep _ _ _ _ _ HI HO b x sz _ Vb Hx). lia.
    - assert (exists s' st', G !! y = Some (s', st') /\ st' <> Loose) as (s' & st' & Hy & Hst)
        by (destruct Ky as [[s' ?]|[s' ?]]; eauto).
      destruct (A_tile AI _ _ _ Hy). destruct (H_sep _ _ _ _ HI _ _ _ _ _ _ Hx Hy) as [->|]; [congruence|lia]. }
  assert (<[rem := (rs, Free)]> G1 = G') as EG by apply insert_insert_eq.
  assert (G1 !! rem = Some (rs, Loose)) as Hr1 by apply lookup_insert_eq.
  rewrite <- EG in HI3.
  destruct (K_link_plain m3 (ar s) G1 B _ _ t rem rs Loose KI3 HI3 HO Hr1 ltac:(done) ltac:(done)
    BUnsorted I eq_refl I N1 N2) as [KI4 D4]. rewrite EG in *.
  change (head_of (ar s) BUnsorted) with (unsortedbin (ar s)) in KI4, D4. fold m4 in KI4, D4.
  pose proof (lwr_hdr _ _ _ _ _ HI3 HO m3 m4 (only_differ_weaken _ _ _ _ (lwb_lwr _ _) D4)) as F4.
  assert (hnode hs G' x) as Nx' by (left; unfold G'; rewrite lookup_insert_ne, lookup_insert_eq by lia; eauto).
  assert (AInv (shrink m4) (ar s) t G' (badd B BUnsorted rem (sl B))) as AI'.
  { split; [|eapply (K_transfer _ _ _ _ KI4); try done|done].
    - eapply H_ext; [exact HI3|]. intros b Hb. unfold shrink. destruct (decide (b = x)) as [->|Hbx].
      + rewrite !hdr_shrink, F4 by (done || lia). done.
      + pose proof (H_hnode_apart _ _ _ _ HI3 _ _ Hb Nx'). rewrite !hdr_shrink_ne, F4 by (done || lia). done.
    - intros y o Ky Ho. apply knode_lnode in Ky. pose proof (lnode_hnode _ _ _ _ _ HI3 HO y x Ky Nx').
      unfold shrink, set_curr_inuse, set_size. offs. rewrite !ld_st_ne by lia. done. }
  exists (shrink m4). split_and!; try done.
  - unfold split_or_take, MIN_PAYLOAD_SIZE, HEADER_SIZE.
    rewrite (uwrap_small 64 (sz - r)) by (unfold in_uint; lia).
    destruct (Z.leb_spec (32 + 16) (sz - r)); [|lia].
    rewrite (uwrap_small 64 (sz - r - 16)) by (unfold in_uint; lia). fold rem rs.
    rewrite P1. simpl. rewrite P2. simpl. done.
  - apply handed_split; try done; [congruence|lia].
  - intros z Hz. unfold shrink, set_curr_inuse, set_size. offs.
    assert (forall z', z' = x + 8 \/ z' = n \/ z' = n + 8 \/ x + 16 <= z' < n -> z <> z') as Haw.
    { intros z' Hz' ->. apply Hz. by eapply (split_aw s t G B x sz Loose). }
    pose proof (Haw (x + 8)). pose proof (Haw z). rewrite !ld_st_ne by lia. rewrite D4, D; [done|lia|].
    intros Hl. apply Hz. apply lwb_lwr in Hl. pose proof (lwr_aw AI' _ Hl) as Ha.
    destruct Ha as [Ha Hp]. split; [done|]. intros (c & sc & Hc & Hzc). apply Hp. exists c, sc.
    split; [|done]. unfold G'. rewrite !lookup_insert_ne; [done|congruence|congruence].
Qed.

Lemma A_split_or_take (s : astate) (t : Z) (G : tiles) (B : bins) (x sz r : Z) :
  AInv (mm s) (ar s) t G B -> G !! x = Some (sz, Loose) -> 32 <= r -> r mod 16 = 0 -> r <= sz ->
  exists m' G' B' sz', split_or_take s x sz r = Some (x, with_mm s m') /\
    AInv m' (ar s) t G' B' /\ Handed G G' x sz' /\ r <= sz' < r + 48 /\
    only_differ (aw (ar s) G) (mm s) m'.
Proof.
  intros AI Hx Hr Hr16 Hle. destruct (A_tile AI _ _ _ Hx) as (? & _ & _ & ? & _ & ?).
  destruct (Z.le_gt_cases 48 (sz - r)) as [Hs|Hs].
  - destruct (A_split_loose s t G B x sz r AI Hx Hr Hr16 Hs) as (m' & E & AI' & HH & D).
    do 4 eexists. split_and!; try done; lia.
  - destruct (A_take (mm s) (ar s) (ar s) t G B x sz Loose AI) as [AI' D]; try done.
    do 4 eexists. split_and!; [|exact AI'|by eapply handed_take|lia..|exact D].
    unfold split_or_take, MIN_PAYLOAD_SIZE, HEADER_SIZE.
    rewrite (uwrap_small 64 (sz - r)) by (unfold in_uint; lia).
    destruct (Z.leb_spec (32 + 16) (sz - r)); [lia|done].
Qed.

(** ** Out of a bin *)
Lemma A_unlink_links (m : mem) (a : arena) (t : Z) (G : tiles) (B : bins) (x sz : Z)
    (m' := unlink_chunk_from_sortedlist (unlink_chunk_from_fdlist m x) x) :
  AInv m a t G B -> G !! x = Some (sz, Free) ->
  AInv m' a t (<[x := (sz, Loose)]> G) (brem B x) /\ only_differ (lwr a G) m m'.
Proof.
  intros AI Hx. pose proof (A_H _ _ _ _ _ AI) as HI. pose proof (A_O _ _ _ _ _ AI) as HO.
  destruct (K_unlink _ _ _ _ _ _ _ (A_K _ _ _ _ _ AI) HI HO _ _ Hx) as [KI' D]. fold m' in KI', D.
  apply (only_differ_weaken _ (lwr a G)) in D; [|apply lwb_lwr].
  pose proof (lwr_hdr _ _ _ _ _ HI HO _ _ D) as F.
  split; [|done]. split; [|done..].
  assert (HInv (hdr_of m') (alloced_heaps a) t G) as HI' by (eapply H_ext; eauto).
  destruct (H_tile _ _ _ _ HI' _ _ _ Hx) as (? & ? & ? & ? & ?).
  destruct (H_prev _ _ _ _ HI' _ _ _ Hx) as [? ?].
  by eapply (H_restatus _ _ _ _ HI' _ x sz Free Loose).
Qed.

Lemma A_unlink (m : mem) (a : arena) (t : Z) (G : tiles) (B : bins) (x sz : Z)
    (m' := unlink_chunk_from_sortedlist (unlink_chunk_from_fdlist m x) x) :
  AInv m a t G B -> G !! x = Some (sz, Free) ->
  AInv m' a t (<[x := (sz, Loose)]> G) (brem B x) /\ only_differ (aw a G) m m'.
Proof.
  intros AI Hx. destruct (A_unlink_links _ _ _ _ _ _ _ AI Hx) as [AI' D]. split; [exact AI'|].
  eapply only_differ_weaken; [apply (lwr_aw AI)|done].
Qed.

(** Unlinking from the [fd] list leaves the size links alone. *)
Lemma unlink_fd_sizeptr (m : mem) (a : arena) (t : Z) (G : tiles) (B : bins) (b : bin) (x o : Z) :
  AInv m a t G B -> x ∈ bl B b -> o = o_next_sizeptr \/ o = o_prev_sizeptr ->
  ld (unlink_chunk_from_fdlist m x) (x + o) = ld m (x + o).
Proof.
  intros AI Hx Ho. pose proof (A_K _ _ _ _ _ AI) as KI.
  destruct (K_mem _ _ _ _ KI _ _ Hx) as (Vb & s & Hs & _).
  destruct (list_elem_of_split _ _ Hx) as (l1 & l2 & El).
  destruct (bin_neighbours _ _ _ _ _ _ _ KI (A_H _ _ _ _ _ AI) (A_O _ _ _ _ _ AI) b x l1 l2 Vb El)
    as (_ & Hu & Hp & Hn).
  apply (unlinked_rest _ _ _ _ _ _ _ Hu). assert (lnode a G x) as Lx by (left; eauto).
  pose proof (lnode_apart _ _ _ _ _ (A_H _ _ _ _ _ AI) (A_O _ _ _ _ _ AI) _ _ (K_node _ _ _ _ KI _ _ Vb Hp) Lx).
  pose proof (lnode_apart _ _ _ _ _ (A_H _ _ _ _ _ AI) (A_O _ _ _ _ _ AI) _ _ (K_node _ _ _ _ KI _ _ Vb Hn) Lx).
  offs. lia.
Qed.

(** In the unsorted and the small bins only [fd] and [bk] are used. *)
Lemma unlink_fd_only (m : mem) (a : arena) (t : Z) (G : tiles) (B : bins) (b : bin) (x : Z) :
  AInv m a t G B -> is_large b = false -> x ∈ bl B b ->
  unlink_chunk_from_sortedlist (unlink_chunk_from_fdlist m x) x = unlink_chunk_from_fdlist m x.
Proof.
  intros AI Hb Hx. apply unlink_sorted_noop. rewrite (unlink_fd_sizeptr _ _ _ _ _ b) by eauto.
  eapply (K_null _ _ _ _ (A_K _ _ _ _ _ AI)); done.
Qed.

(** ** The searches *)

(** No chunk is in the middle of an operation. *)
Definition settled (G : tiles) : Prop :=
  forall x s st, G !! x = Some (s, st) -> st <> Loose /\ st <> Limbo.

(** The same chunks are handed out. *)
Definition same_used (G G' : tiles) : Prop :=
  forall c s, G' !! c = Some (s, Used) <-> G !! c = Some (s, Used).

(** Two arenas that differ in their fast bins and top chunk only. *)
Definition same_geo (a a' : arena) : Prop :=
  unsortedbin a' = unsortedbin a /\ smallbins a' = smallbins a /\ largebins a' = largebins a /\
  mu a' = mu a /\ heap_expo_growth_iters a' = heap_expo_growth_iters a /\
  heap_constant_growth_iters a' = heap_constant_growth_iters a /\ alloced_heaps a' = alloced_heaps a.

Lemma same_geo_refl (a : arena) : same_geo a a.
Proof. done. Qed.

Lemma same_geo_trans (a b c : arena) : same_geo a b -> same_geo b c -> same_geo a c.
Proof. unfold same_geo. intuition congruence. Qed.

Lemma same_geo_head (a a' : arena) (b : bin) : same_geo a a' -> head_of a' b = head_of a b.
Proof. intros (? & ? & ? & _). destruct b; simpl; congruence. Qed.

Lemma aw_geo (a a' : arena) (G : tiles) (x : Z) : same_geo a a' -> aw a' G x -> aw a G x.
Proof.
  intros Hs [Ha Hn]. split; [|done]. unfold in_arena in *.
  setoid_rewrite (fun b => same_geo_head a a' b Hs) in Ha. destruct Hs as (_ & _ & _ & _ & _ & _ & E).
  by rewrite E in Ha.
Qed.

(** The arena at rest, between operations. *)
Definition SInv (s : astate) (G : tiles) (B : bins) : Prop :=
  AInv (mm s) (ar s) (top_chunk (ar s)) G B /\ settled G.

(** What a search of the bins returns: nothing, and the same chunks are
    handed out; or one more chunk, large enough and not so large that it
    should have been split. *)
Definition search_post (s s' : astate) (G : tiles) (r v : Z) : Prop :=
  exists G' B', SInv s' G' B' /\ maps s' = maps s /\ same_geo (ar s) (ar s') /\
    only_differ (aw (ar s) G) (mm s) (mm s') /\
    ((v = NULL /\ same_used G G' /\ dom G' = dom G) \/
     (v <> NULL /\ exists sz, r <= sz < r + 48 /\ Handed G G' v sz)).

Lemma same_used_refl (G : tiles) : same_used G G.
Proof. done. Qed.

Lemma search_none (s : astate) (G : tiles) (B : bins) (r : Z) :
  SInv s G B -> search_post s s G r NULL.
Proof. intros HS. exists G, B. split_and!; try done. left. done. Qed.

Lemma settled_restatus (G : tiles) (x s : Z) (st : status) :
  settled G -> st <> Loose -> st <> Limbo -> settled (<[x := (s, st)]> G).
Proof. intros HS H1 H2 y s' st' Hy. tile_cases; [done|]. eauto. Qed.

Lemma settled_handed (G G' : tiles) (x s : Z) : settled G -> Handed G G' x s -> settled G'.
Proof.
  intros HS HH y s' st Hy.
  destruct (decide (st = Loose \/ st = Limbo)) as [E|E].
  - destruct (handed_loose _ _ _ _ HH _ _ _ Hy E) as [_ Hy']. destruct (HS _ _ _ Hy'). tauto.
  - tauto.
Qed.

(** Handing out after a chunk was taken off its bin. *)
Lemma settled_handed_loose (G G' : tiles) (x s s0 : Z) :
  settled G -> Handed (<[x := (s0, Loose)]> G) G' x s -> settled G'.
Proof.
  intros HS HH y s' st Hy.
  destruct (decide (st = Loose \/ st = Limbo)) as [E|E]; [|tauto].
  destruct (handed_loose _ _ _ _ HH _ _ _ Hy E) as [Hne Hy']. rewrite lookup_insert_ne in Hy' by done.
  destruct (HS _ _ _ Hy'). tauto.
Qed.

Lemma handed_loose_used (G G' : tiles) (x s s0 : Z) (st0 : status) :
  settled G -> G !! x = Some (s0, st0) -> st0 <> Used ->
  Handed (<[x := (s0, Loose)]> G) G' x s -> Handed G G' x s.
Proof.
  intros HS Hx Hne HH. split; [congruence|..].
  - intros c sc. rewrite (handed_used _ _ _ _ HH). destruct (decide (c = x)) as [->|].
    + split; (intros [?|[? _]]; [by left|done]).
    + by rewrite lookup_insert_ne.
  - intros c sc st Hc Hst. destruct (handed_loose _ _ _ _ HH _ _ _ Hc Hst) as [? Hc'].
    by rewrite lookup_insert_ne in Hc'.
Qed.

Lemma fast_index (r : Z) : 32 <= r -> r mod 16 = 0 -> r <= 112 ->
  exists i : nat, (i < 7)%nat /\ r = 16 * (Z.of_nat i + 1) /\
    swrap 32 (size_t (Z.shiftr r 4 - 1)) = Z.of_nat i.
Proof.
  intros H1 H2 H3. exists (Z.to_nat (r / 16 - 1)). rewrite shiftr4_index by lia.
  pose proof (Z.div_mod r 16). assert (2 <= r / 16 <= 7) by lia. split_and!; lia.
Qed.

Lemma fastbin_search_ok (s : astate) (G : tiles) (B : bins) (r : Z) :
  SInv s G B -> 32 <= r -> r mod 16 = 0 -> r <= 112 ->
  exists v s', fastbin_search s r = Some (v, s') /\ search_post s s' G r v.
Proof.
  intros [AI HS] H1 H2 H3. destruct (fast_index r H1 H2 H3) as (i & Hi & Er & Ei).
  pose proof (A_K _ _ _ _ _ AI) as KI. pose proof (A_H _ _ _ _ _ AI) as HI.
  destruct (K_lens _ _ _ _ KI) as (Hlen & _). pose proof (K_fast _ _ _ _ KI i Hi) as Hsl.
  unfold fastbin_search. rewrite Ei. unfold FASTBINS_COUNT, arr_get, arr_set.
  destruct (Z.leb_spec 0 (Z.of_nat i)); [|lia]. destruct (Z.ltb_spec (Z.of_nat i) 7); [|lia].
  destruct (Z.ltb_spec (Z.of_nat i) (Z.of_nat (length (fastbins (ar s))))); [|lia].
  simpl andb. cbv iota. rewrite Nat2Z.id.
  destruct (lookup_lt_is_Some_2 (fastbins (ar s)) i) as [v Ev]; [lia|].
  assert (nth i (fastbins (ar s)) 0 = v) as En by (by rewrite nth_lookup, Ev). rewrite En in Hsl.
  rewrite Ev. cbn [mbind option_bind]. destruct (fl B i) as [|x l] eqn:El.
  { simpl in Hsl. subst v. rewrite Z.eqb_refl. do 2 eexists. split; [done|]. by eapply search_none. }
  destruct Hsl as (Evx & Hnz & _). subst v. destruct (Z.eqb_spec x 0); [done|].
  do 2 eexists. split; [done|].
  destruct (K_pop _ _ _ _ _ _ _ KI HI (A_O _ _ _ _ _ AI) x l i Used El ltac:(done) ltac:(done))
    as (Hx & _ & _ & _ & KI1). rewrite <- Er in *.
  set (m1 := st (mm s) (x + o_fd) 0) in *. set (a1 := set_fastbins _ _) in *.
  destruct (A_tile AI _ _ _ Hx) as (? & ? & ? & ? & Esz & ?).
  assert (hnode (alloced_heaps (ar s)) G x) as Nx by (left; eauto).
  assert (lwr (ar s) G (x + o_fd)) as Lx.
  { exists x, o_fd. split; [done|]. split; [offs; lia|]. right. by exists r, Fast. }
  assert (forall b, hnode (alloced_heaps (ar s)) G b -> hdr_of m1 b = hdr_of (mm s) b) as F1.
  { apply (lwr_hdr _ _ _ _ _ HI (A_O _ _ _ _ _ AI)). by apply only_differ_st. }
  assert (HInv (hdr_of m1) (alloced_heaps (ar s)) (top_chunk (ar s)) G) as HI1 by (by eapply H_ext).
  destruct (H_prev _ _ _ _ HI1 _ _ _ Hx) as [Pv _].
  assert (forall b, hnode (alloced_heaps (ar s)) G b -> b <> x -> hdr_of (set_curr_inuse m1 x) b = hdr_of m1 b) as F2.
  { intros b Hb Hne. unfold set_curr_inuse. apply (hdr_other AI); try done. by right. }
  assert (hnode (alloced_heaps (ar s)) G (x + 16 + r)) as Nn by (eapply H_next_hnode; eauto).
  exists (<[x := (r, Used)]> G), (Bins (bl B) (sl B) (fupd (fl B) i l)).
  assert (AInv (set_curr_inuse m1 x) a1 (top_chunk (ar s)) (<[x := (r, Used)]> G)
    (Bins (bl B) (sl B) (fupd (fl B) i l))) as AI'.
  { assert (HeadsOK a1 (alloced_heaps a1)) as HO1.
    { pose proof (A_O _ _ _ _ _ AI) as HO. split; intros *; rewrite ?head_of_set_fastbins; apply HO. }
    split; [|eapply (K_transfer _ _ _ _ KI1); try done|done].
    - eapply (H_restatus _ _ _ _ HI1 _ x r Fast Used); try done; rewrite ?F2 by (done || lia);
        rewrite ?hdr_set_curr; hsimp; try done; [intros; by apply F2|].
      rewrite F1 by done. done.
    - intros y o Ky Ho. apply knode_lnode in Ky.
      assert (lnode (ar s) G y) as Ly.
      { destruct Ky as [[z Hy]|(b & Vb & ->)]; [|right; exists b; split; [done|]; by destruct b].
        left. rewrite lookup_insert in Hy. case_decide; [subst; eauto|eauto]. }
      unfold set_curr_inuse. apply ld_st_ne. offs.
      pose proof (lnode_hnode _ _ _ _ _ HI (A_O _ _ _ _ _ AI) y x Ly Nx). lia. }
  split_and!; try done.
  - split; [exact AI'|]. by apply settled_restatus.
  - eapply only_differ_trans; apply only_differ_st.
    + by apply (lwr_aw AI).
    + eapply (hw_aw AI), hw_tile; eauto.
  - right. split; [done|]. exists r. split; [lia|]. by eapply handed_take.
Qed.

(** The first chunk of a bin, read off its sentinel. *)
Lemma A_bin_first (m : mem) (a : arena) (t : Z) (G : tiles) (B : bins) (b : bin) :
  AInv m a t G B -> valid_bin b -> ld m (head_of a b + o_fd) = default (head_of a b) (head (bl B b)).
Proof. intros AI Vb. apply (dll_first o_fd o_bk). by apply (K_rings _ _ _ _ (A_K _ _ _ _ _ AI)). Qed.

Lemma A_not_head (m : mem) (a : arena) (t : Z) (G : tiles) (B : bins) (b : bin) (x s : Z) (st : status) :
  AInv m a t G B -> valid_bin b -> G !! x = Some (s, st) -> x <> head_of a b.
Proof.
  intros AI Vb Hx ->. destruct (A_tile AI _ _ _ Hx).
  pose proof (head_tile_sep _ _ _ _ _ (A_H _ _ _ _ _ AI) (A_O _ _ _ _ _ AI) b _ _ _ Vb Hx). lia.
Qed.

Lemma aw_loose (a : arena) (G : tiles) (x sz s0 : Z) (st0 : status) (z : Z) :
  G !! x = Some (s0, st0) -> st0 <> Used -> aw a (<[x := (sz, Loose)]> G) z -> aw a G z.
Proof.
  intros Hx Hst. apply aw_mono. intros c s Hc. rewrite lookup_insert_ne; [done|]. congruence.
Qed.

Lemma smallbin_search_ok (s : astate) (G : tiles) (B : bins) (r : Z) :
  SInv s G B -> 32 <= r -> r mod 16 = 0 -> r < 512 ->
  exists v s', smallbin_search s r = Some (v, s') /\ search_post s s' G r v.
Proof.
  intros [AI HS] H1 H2 H3. pose proof (A_K _ _ _ _ _ AI) as KI.
  destruct (K_lens _ _ _ _ KI) as (_ & Hlen & _).
  assert (exists i : nat, (i < 32)%nat /\ r = 16 * (Z.of_nat i + 1) /\ get_smallbin_index (size_t r) = Z.of_nat i)
    as (i & Hi & Er & Ei).
  { exists (Z.to_nat (r / 16 - 1)). rewrite uwrap_small by (unfold in_uint; lia).
    rewrite get_smallbin_index_spec by lia. pose proof (Z.div_mod r 16).
    assert (2 <= r / 16 <= 31) by lia. split_and!; lia. }
  unfold smallbin_search. rewrite Ei. unfold SMALLBINS_COUNT, arr_get.
  destruct (Z.leb_spec 0 (Z.of_nat i)); [|lia]. destruct (Z.ltb_spec (Z.of_nat i) 32); [|lia].
  simpl andb. cbv iota. rewrite Nat2Z.id.
  destruct (lookup_lt_is_Some_2 (smallbins (ar s)) i) as [h Eh]; [lia|].
  assert (head_of (ar s) (BSmall i) = h) as En by (simpl; by rewrite nth_lookup, Eh).
  rewrite Eh. cbn [mbind option_bind]. rewrite <- En.
  rewrite (A_bin_first _ _ _ _ _ (BSmall i) AI Hi).
  destruct (bl B (BSmall i)) as [|x l] eqn:El; cbn [head default from_option id].
  { rewrite Z.eqb_refl. do 2 eexists. split; [done|]. by eapply search_none. }
  assert (x ∈ bl B (BSmall i)) as Hxb by (rewrite El, elem_of_cons; auto).
  destruct (K_mem _ _ _ _ KI _ _ Hxb) as (_ & sz & Hx & Hfit). simpl in Hfit. subst sz.
  destruct (Z.eqb_spec x (head_of (ar s) (BSmall i))) as [E|_].
  { destruct (A_not_head _ _ _ _ _ (BSmall i) x _ _ AI Hi Hx E). }
  rewrite <- Er in *. do 2 eexists. split; [done|].
  destruct (A_unlink _ _ _ _ _ x r AI Hx) as [AI1 D1].
  rewrite (unlink_fd_only _ _ _ _ _ (BSmall i) x AI eq_refl Hxb) in *.
  set (m1 := unlink_chunk_from_fdlist (mm s) x) in *. set (G1 := <[x := (r, Loose)]> G) in *.
  destruct (A_take m1 (ar s) (ar s) (top_chunk (ar s)) G1 (brem B x) x r Loose AI1) as [AI2 D2]; try done.
  { apply lookup_insert_eq. }
  pose proof (handed_take G1 x r r Loose (lookup_insert_eq _ _ _) ltac:(done)) as HH.
  assert (x <> 0) by (destruct (A_tile AI _ _ _ Hx) as (_ & _ & _ & ? & _); lia).
  exists (<[x := (r, Used)]> G1), (brem B x). split_and!; try done.
  - split; [done|]. by eapply settled_handed_loose.
  - eapply only_differ_trans; [done|]. eapply only_differ_weaken; [|exact D2].
    intros z. by eapply aw_loose.
  - right. split; [done|]. exists r. split; [lia|]. by eapply handed_loose_used.
Qed.
