(* ===== verification/AllocSearch.v ===== *)
(** * AllocSearch: the unsorted and the large bins

    The two loops of the allocator: [unsortedbin_search] empties the
    unsorted bin into the small and large bins until a chunk fits, and
    [largebin_search] walks the size-ordered lists.  Both terminate within
    as many rounds as there are chunks. *)

From Stdlib Require Import Sorted.
From S2P Require Import Prelude Mem Dll Alloc AllocFacts AllocInv AllocBins AllocLink AllocSafe.

(** A duplicate-free list of chunks is no longer than the chunk map. *)
Lemma chunks_length (G : tiles) (l : list Z) :
  NoDup l -> (forall x, x ∈ l -> is_Some (G !! x)) -> (length l <= size G)%nat.
Proof.
  intros Hnd Hl. rewrite <- (size_list_to_set (C := gset Z) l) by done.
  rewrite <- size_dom. apply subseteq_size. intros x. rewrite elem_of_list_to_set, elem_of_dom. auto.
Qed.

Lemma bin_length (m : mem) (a : arena) (G : tiles) (B : bins) (b : bin) :
  KInv m a G B -> valid_bin b -> (length (bl B b) <= size G)%nat.
Proof.
  intros KI Vb. apply chunks_length.
  - destruct (K_rings _ _ _ _ KI b Vb) as [_ Hnd]. by apply NoDup_cons in Hnd as [_ ?].
  - intros x Hx. destruct (K_mem _ _ _ _ KI _ _ Hx) as (_ & s & Hs & _). eauto.
Qed.

Lemma sorted_length (m : mem) (a : arena) (G : tiles) (B : bins) (i : nat) :
  KInv m a G B -> (i < 64)%nat -> (length (sl B i) <= size G)%nat.
Proof.
  intros KI Vb. apply chunks_length.
  - destruct (K_srings _ _ _ _ KI i Vb) as [_ Hnd]. by apply NoDup_cons in Hnd as [_ ?].
  - intros x Hx. apply (K_smem _ _ _ _ KI) in Hx.
    destruct (K_mem _ _ _ _ KI _ _ Hx) as (_ & s & Hs & _). eauto.
Qed.

(** Taking a chunk off the unsorted or a small bin, with what is needed to
    put it into another one. *)
Lemma A_unlink_plain (m : mem) (a : arena) (t : Z) (G : tiles) (B : bins) (b : bin) (x sz : Z)
    (m' := unlink_chunk_from_fdlist m x) :
  AInv m a t G B -> is_large b = false -> x ∈ bl B b -> G !! x = Some (sz, Free) ->
  AInv m' a t (<[x := (sz, Loose)]> G) (brem B x) /\ only_differ (aw a G) m m' /\
  HInv (hdr_of m') (alloced_heaps a) t G /\
  ld m' (x + o_next_sizeptr) = NULL /\ ld m' (x + o_prev_sizeptr) = NULL.
Proof.
  intros AI Hb Hxb Hx. pose proof (A_K _ _ _ _ _ AI) as KI.
  pose proof (A_H _ _ _ _ _ AI) as HI. pose proof (A_O _ _ _ _ _ AI) as HO.
  destruct (A_unlink _ _ _ _ _ _ _ AI Hx) as [AI' D].
  destruct (K_unlink _ _ _ _ _ _ _ KI HI HO _ _ Hx) as [_ Dl].
  rewrite (unlink_fd_only _ _ _ _ _ b x AI Hb Hxb) in *. fold m' in AI', D, Dl.
  apply (only_differ_weaken _ (lwr a G)) in Dl; [|apply lwb_lwr].
  split_and!; try done.
  - eapply H_ext; [exact HI|]. by apply (lwr_hdr _ _ _ _ _ HI HO).
  - unfold m'. rewrite (unlink_fd_sizeptr _ _ _ _ _ b) by eauto. eapply (K_null _ _ _ _ KI); done.
  - unfold m'. rewrite (unlink_fd_sizeptr _ _ _ _ _ b) by eauto. eapply (K_null _ _ _ _ KI); done.
Qed.

(** *** Sorting a chunk into its small or large bin *)
Section resort.
Context (s : astate) (t : Z) (G : tiles) (B : bins) (x sz : Z).
Context (HI : HInv (hdr_of (mm s)) (alloced_heaps (ar s)) t G) (HO : HeadsOK (ar s) (alloced_heaps (ar s))).
Context (KI : KInv (mm s) (ar s) (<[x := (sz, Loose)]> G) B) (Hx : G !! x = Some (sz, Free)).

Lemma resort_id : <[x := (sz, Free)]> (<[x := (sz, Loose)]> G) = G.
Proof using Hx. rewrite insert_insert_eq. by apply insert_id. Qed.

Lemma resort_usize (y sy : Z) (st : status) : G !! y = Some (sy, st) -> size_t (get_size (mm s) y) = sy.
Proof using HI.
  intros Hy. destruct (H_tile _ _ _ _ HI _ _ _ Hy) as (? & _ & _ & ? & E).
  pose proof (H_size_bound _ _ _ _ HI _ _ _ Hy).
  rewrite get_size_hdr; rewrite E; [|lia]. apply uwrap_small. unfold in_uint. lia.
Qed.

Lemma resort_small :
  sz < 512 -> ld (mm s) (x + o_next_sizeptr) = NULL -> ld (mm s) (x + o_prev_sizeptr) = NULL ->
  exists m' B', insert_into_smallbin s x = Some (with_mm s m') /\ AInv m' (ar s) t G B' /\
    bl B' BUnsorted = bl B BUnsorted /\ only_differ (lwr (ar s) G) (mm s) m'.
Proof.
  intros Hsz N1 N2. destruct (H_tile _ _ _ _ HI _ _ _ Hx) as (? & Hs16 & _ & _ & _).
  destruct (K_lens _ _ _ _ KI) as (_ & Hlen & _).
  assert (exists i : nat, (i < 32)%nat /\ sz = 16 * (Z.of_nat i + 1) /\ get_smallbin_index sz = Z.of_nat i)
    as (i & Hi & Er & Ei).
  { exists (Z.to_nat (sz / 16 - 1)). rewrite get_smallbin_index_spec by lia.
    pose proof (Z.div_mod sz 16). assert (2 <= sz / 16 <= 31) by lia. split_and!; lia. }
  pose proof resort_id as Eid. pose proof HI as HI0. rewrite <- Eid in HI0.
  destruct (A_link_plain (mm s) (ar s) t _ B (BSmall i) x sz Loose HI0 KI HO) as [AI' D]; try done.
  { apply lookup_insert_eq. }
  rewrite Eid in *. do 2 eexists. split_and!; [|exact AI'|done|exact D].
  unfold insert_into_smallbin. rewrite (resort_usize _ _ _ Hx), Ei. unfold SMALLBINS_COUNT, arr_get.
  destruct (Z.leb_spec 0 (Z.of_nat i)); [|lia]. destruct (Z.ltb_spec (Z.of_nat i) 32); [|lia].
  simpl c_assert. cbv iota. rewrite Nat2Z.id. simpl head_of.
  destruct (lookup_lt_is_Some_2 (smallbins (ar s)) i) as [h Eh]; [lia|].
  rewrite nth_lookup, Eh. done.
Qed.

Lemma resort_large (fuel : nat) :
  512 <= sz -> (size G <= fuel)%nat ->
  exists m' B', insert_into_largebin fuel s x = Some (with_mm s m') /\ AInv m' (ar s) t G B' /\
    bl B' BUnsorted = bl B BUnsorted /\ only_differ (lwr (ar s) G) (mm s) m'.
Proof.
  intros Hsz Hf. pose proof (H_size_bound _ _ _ _ HI _ _ _ Hx) as Hbnd.
  destruct (H_tile _ _ _ _ HI _ _ _ Hx) as (_ & _ & _ & ? & _).
  destruct (K_lens _ _ _ _ KI) as (_ & _ & Hlen).
  assert (exists i : nat, (i < 64)%nat /\ get_largebin_index sz = Z.of_nat i) as (i & Hi & Ei).
  { pose proof (get_largebin_index_range sz) as Hr. unfold LARGEBINS_COUNT in Hr.
    exists (Z.to_nat (get_largebin_index sz)). lia. }
  set (G1 := <[x := (sz, Loose)]> G) in *.
  assert (size G1 = size G) as ESz by (unfold G1; rewrite map_size_insert_Some; eauto).
  pose proof (K_srings _ _ _ _ KI i Hi) as HD. cbv beta in HD.
  pose proof (sorted_length _ _ _ _ i KI Hi) as Hlen'.
  destruct (find_ceil_spec (mm s) (head_of (ar s) (BLarge i)) sz (tile_size G1) (sl B i) fuel [])
    as (k1 & k2 & Ek & Q1 & Q2 & Q3); try done; [|lia|].
  { intros y Hy. apply (K_smem _ _ _ _ KI) in Hy. destruct (K_mem _ _ _ _ KI _ _ Hy) as (_ & sy & Hy' & _).
    unfold tile_size. rewrite Hy'. simpl. eapply resort_usize.
    unfold G1 in Hy'. rewrite lookup_insert in Hy'. case_decide; [congruence|exact Hy']. }
  pose proof resort_id as Eid. pose proof HI as HI0. rewrite <- Eid in HI0. fold G1 in Eid, HI0.
  destruct (K_link_large (mm s) (ar s) G1 B _ _ t x sz Loose KI HI0 HO (lookup_insert_eq _ _ _)
    ltac:(done) ltac:(done) i k1 k2 Hi Ei Ek Q1 Q2) as [KI' D]. rewrite Eid in *.
  apply (only_differ_weaken _ (lwr (ar s) G)) in D; [|apply lwb_lwr].
  do 2 eexists. split_and!; [|split; [|exact KI'|done]|done|exact D].
  - unfold insert_into_largebin. rewrite (resort_usize _ _ _ Hx), Ei. unfold LARGEBINS_COUNT, arr_get.
    destruct (Z.leb_spec 0 (Z.of_nat i)); [|lia]. destruct (Z.ltb_spec (Z.of_nat i) 64); [|lia].
    simpl c_assert. cbv iota. rewrite Nat2Z.id.
    destruct (lookup_lt_is_Some_2 (largebins (ar s)) i) as [h Eh]; [lia|].
    assert (head_of (ar s) (BLarge i) = h) as En by (simpl; by rewrite nth_lookup, Eh).
    rewrite Eh. cbn [mbind option_bind]. rewrite <- En.
    pose proof (heads_pos _ _ HO (BLarge i) Hi). destruct (Z.eqb_spec (head_of (ar s) (BLarge i)) 0); [lia|].
    cbn [c_assert negb mbind option_bind].
    rewrite (dll_first _ _ _ _ _ HD), Q3. done.
  - eapply H_ext; [exact HI|]. by apply (lwr_hdr _ _ _ _ _ HI HO).
Qed.
End resort.

(** A search that found its chunk in a bin: off the bin, then split or taken. *)
Lemma found_post (s : astate) (m1 : mem) (G : tiles) (B : bins) (x sz r : Z) :
  SInv s G B -> G !! x = Some (sz, Free) ->
  AInv m1 (ar s) (top_chunk (ar s)) (<[x := (sz, Loose)]> G) (brem B x) ->
  only_differ (aw (ar s) G) (mm s) m1 -> 32 <= r -> r mod 16 = 0 -> r <= sz ->
  exists v s', split_or_take (with_mm s m1) x sz r = Some (v, s') /\ v <> NULL /\ search_post s s' G r v.
Proof.
  intros [AI HS] Hx AI1 D1 Hr Hr16 Hle.
  destruct (A_split_or_take (with_mm s m1) _ _ _ x sz r AI1 (lookup_insert_eq _ _ _) Hr Hr16 Hle)
    as (m' & G' & B' & sz' & E & AI' & HH & Hsz & D').
  destruct (A_tile AI _ _ _ Hx) as (_ & _ & _ & ? & _).
  do 2 eexists. split; [exact E|]. split; [lia|]. exists G', B'. split_and!; try done.
  - split; [done|]. by eapply settled_handed_loose.
  - eapply only_differ_trans; [exact D1|]. eapply only_differ_weaken; [|exact D'].
    intros z. by eapply aw_loose.
  - right. split; [lia|]. exists sz'. split; [lia|]. by eapply handed_loose_used.
Qed.

Lemma unsortedbin_loop_ok (fuel_large : nat) (r : Z) (Hr : 32 <= r) (Hr16 : r mod 16 = 0) (l : list Z) :
  forall fuel s G B,
  SInv s G B -> bl B BUnsorted = l -> (length l <= fuel)%nat -> (size G <= fuel_large)%nat ->
  exists v s', unsortedbin_loop fuel fuel_large s (default (unsortedbin (ar s)) (head l)) r = Some (v, s') /\
    search_post s s' G r v.
Proof.
  induction l as [|x l IH]; intros fuel s G B HS El Hf Hfl.
  { exists NULL, s. split; [|by eapply search_none]. destruct fuel; simpl; by rewrite Z.eqb_refl. }
  pose proof HS as [AI HSt]. pose proof (A_K _ _ _ _ _ AI) as KI.
  assert (x ∈ bl B BUnsorted) as Hxb by (rewrite El, elem_of_cons; auto).
  destruct (K_mem _ _ _ _ KI _ _ Hxb) as (_ & sz & Hx & _).
  destruct (A_unlink_plain _ _ _ _ _ BUnsorted x sz AI eq_refl Hxb Hx) as (AI1 & D1 & HI1 & N1 & N2).
  destruct fuel as [|fuel]; [simpl in Hf; lia|].
  cbn [head default from_option id unsortedbin_loop]. cbn [mm ar with_mm].
  destruct (Z.eqb_spec x (unsortedbin (ar s))) as [E|_].
  { destruct (A_not_head _ _ _ _ _ BUnsorted x _ _ AI I Hx E). }
  pose proof (K_rings _ _ _ _ KI BUnsorted I) as HD. rewrite El in HD.
  rewrite (dll_next o_fd o_bk _ _ x [] l HD).
  rewrite (A_usize AI1 x sz Loose (lookup_insert_eq _ _ _)).
  set (s1 := with_mm s (unlink_chunk_from_fdlist (mm s) x)) in *.
  destruct (Z.leb_spec r sz) as [Hle|Hgt].
  { destruct (found_post s _ G B x sz r HS Hx AI1 D1 Hr Hr16 Hle) as (v & s' & E & _ & Hp). eauto. }
  assert (bl (brem B x) BUnsorted = l) as El1.
  { simpl. rewrite El. destruct HD as [_ Hnd]. apply NoDup_cons in Hnd as [_ Hnd].
    apply (filter_ne_split [] l x). done. }
  assert (exists m2 B2,
    (if sz <? 16 * SMALLBINS_COUNT then insert_into_smallbin s1 x else insert_into_largebin fuel_large s1 x)
      = Some (with_mm s1 m2) /\ AInv m2 (ar s) (top_chunk (ar s)) G B2 /\
    bl B2 BUnsorted = l /\ only_differ (lwr (ar s) G) (mm s1) m2) as (m2 & B2 & E2 & AI2 & El2 & D2).
  { unfold SMALLBINS_COUNT. rewrite <- El1. destruct (Z.ltb_spec sz (16 * 32)).
    - by eapply (resort_small s1 _ G _ x sz HI1 (A_O _ _ _ _ _ AI) (A_K _ _ _ _ _ AI1)).
    - by eapply (resort_large s1 _ G _ x sz HI1 (A_O _ _ _ _ _ AI) (A_K _ _ _ _ _ AI1)). }
  rewrite E2. cbn [mbind option_bind].
  destruct (IH fuel (with_mm s m2) G B2) as (v & s' & E & Hp); try done; [simpl in Hf; lia|].
  exists v, s'. split; [exact E|]. destruct Hp as (G' & B' & HS' & ? & ? & D' & Hv).
  exists G', B'. split_and!; try done.
  eapply only_differ_trans; [exact D1|]. eapply only_differ_trans; [|exact D'].
  eapply only_differ_weaken; [|exact D2]. apply (lwr_aw AI).
Qed.

Lemma unsortedbin_search_ok (fuel : nat) (s : astate) (G : tiles) (B : bins) (r : Z) :
  SInv s G B -> 32 <= r -> r mod 16 = 0 -> (size G <= fuel)%nat ->
  exists v s', unsortedbin_search fuel s r = Some (v, s') /\ search_post s s' G r v.
Proof.
  intros HS Hr Hr16 Hf. pose proof HS as [AI _]. unfold unsortedbin_search.
  change (unsortedbin (ar s)) with (head_of (ar s) BUnsorted) at 1.
  rewrite (A_bin_first _ _ _ _ _ BUnsorted AI I).
  eapply unsortedbin_loop_ok; try done.
  pose proof (bin_length _ _ _ _ BUnsorted (A_K _ _ _ _ _ AI) I). lia.
Qed.

(** *** The large bins *)
Lemma largebin_scan_ok (r : Z) (Hr : 32 <= r) (Hr16 : r mod 16 = 0) (i : nat) (Hi : (i < 64)%nat)
    (s : astate) (G : tiles) (B : bins) (h := head_of (ar s) (BLarge i)) (l2 : list Z) :
  SInv s G B -> forall fuel l1, sl B i = l1 ++ l2 -> (length l2 <= fuel)%nat ->
  exists v s', largebin_scan fuel s h (default h (head l2)) r = Some (v, s') /\
    search_post s s' G r v /\ (v = NULL -> s' = s).
Proof.
  intros HS. pose proof HS as [AI HSt]. pose proof (A_K _ _ _ _ _ AI) as KI.
  induction l2 as [|x l2 IH]; intros fuel l1 El Hf.
  { exists NULL, s. split_and!; [|by eapply search_none|done]. destruct fuel; simpl; by rewrite Z.eqb_refl. }
  assert (x ∈ sl B i) as Hxs by (rewrite El, elem_of_app, elem_of_cons; auto).
  pose proof Hxs as Hxb. apply (K_smem _ _ _ _ KI) in Hxb.
  destruct (K_mem _ _ _ _ KI _ _ Hxb) as (_ & sz & Hx & _).
  destruct fuel as [|fuel]; [simpl in Hf; lia|].
  cbn [head default from_option id largebin_scan].
  destruct (Z.eqb_spec x h) as [E|_].
  { destruct (A_not_head _ _ _ _ _ (BLarge i) x _ _ AI Hi Hx E). }
  rewrite (A_usize AI _ _ _ Hx).
  destruct (Z.leb_spec r sz) as [Hle|Hgt].
  - destruct (A_unlink _ _ _ _ _ x sz AI Hx) as [AI1 D1].
    destruct (found_post s _ G B x sz r HS Hx AI1 D1 Hr Hr16 Hle) as (v & s' & E & Hv & Hp).
    exists v, s'. split_and!; done.
  - pose proof (K_srings _ _ _ _ KI i Hi) as HD. cbv beta in HD. rewrite El in HD.
    rewrite (dll_next o_next_sizeptr o_prev_sizeptr _ _ x l1 l2 HD).
    apply (IH fuel (l1 ++ [x])); [by rewrite <- app_assoc|simpl in Hf; lia].
Qed.

Lemma largebin_loop_ok (fuel : nat) (r : Z) (Hr : 32 <= r) (Hr16 : r mod 16 = 0)
    (s : astate) (G : tiles) (B : bins) :
  SInv s G B -> (size G <= fuel)%nat ->
  forall i heads, heads = drop i (largebins (ar s)) ->
  exists v s', largebin_loop fuel s heads r = Some (v, s') /\ search_post s s' G r v.
Proof.
  intros HS Hf i heads. pose proof HS as [AI _]. pose proof (A_K _ _ _ _ _ AI) as KI.
  destruct (K_lens _ _ _ _ KI) as (_ & _ & Hlen).
  revert i. induction heads as [|h heads IH]; intros i Eh.
  { exists NULL, s. split; [done|]. by eapply search_none. }
  assert (largebins (ar s) !! i = Some h) as Ei.
  { rewrite <- (Nat.add_0_r i), <- lookup_drop, <- Eh. done. }
  assert (i < 64)%nat as Hi by (apply lookup_lt_Some in Ei; lia).
  assert (head_of (ar s) (BLarge i) = h) as En by (simpl; by rewrite nth_lookup, Ei).
  assert (heads = drop (S i) (largebins (ar s))) as Eh'.
  { erewrite drop_S in Eh by done. by injection Eh. }
  pose proof (heads_pos _ _ (A_O _ _ _ _ _ AI) (BLarge i) Hi) as Hpos.
  cbn [largebin_loop]. rewrite <- En. destruct (Z.eqb_spec (head_of (ar s) (BLarge i)) 0); [lia|].
  cbn [c_assert negb mbind option_bind].
  pose proof (K_srings _ _ _ _ KI i Hi) as HD. cbv beta in HD. rewrite (dll_first _ _ _ _ _ HD).
  destruct (Z.eqb_spec (head_of (ar s) (BLarge i)) (default (head_of (ar s) (BLarge i)) (head (sl B i)))).
  { eapply IH; eauto. }
  destruct (largebin_scan_ok r Hr Hr16 i Hi s G B (sl B i) HS fuel []) as (v & s' & E & Hp & Hn); [done| |].
  { pose proof (sorted_length _ _ _ _ i KI Hi). lia. }
  rewrite E. cbn [mbind option_bind]. destruct (Z.eqb_spec v 0) as [->|].
  - rewrite Hn by done. eapply IH; eauto.
  - eauto.
Qed.

Lemma largebin_search_ok (fuel : nat) (s : astate) (G : tiles) (B : bins) (r : Z) :
  SInv s G B -> 32 <= r -> r mod 16 = 0 -> (size G <= fuel)%nat ->
  exists v s', largebin_search fuel s r = Some (v, s') /\ search_post s s' G r v.
Proof.
  intros HS Hr Hr16 Hf. unfold largebin_search. destruct (_ || _).
  - exists NULL, s. split; [done|]. by eapply search_none.
  - by eapply largebin_loop_ok.
Qed.
