(* ===== verification/AllocOs.v ===== *)
(** * AllocOs: memory from the operating system and the top chunk

    What the allocator relies on from [mmap] and [munmap] ([OSLaws]), the
    part of the invariant that speaks about mappings ([MInv]), and the
    operations that obtain memory: [alloc_chunk], [grow_heap] and
    [carve_from_top_chunk]. *)

From S2P Require Import Prelude Mem Dll Alloc AllocFacts AllocInv AllocBins AllocLink AllocSafe.

(** Documented behaviour of the system calls: an anonymous mapping is page
    aligned, not at address 0, inside the user address space and overlaps
    no mapping of the process; pages are a power of two. *)
Class OSLaws `{OS} : Prop := {
  page_pow : exists k, 12 <= k <= 30 /\ page_size = 2 ^ k;
  mutex_size : 0 <= sizeof_mutex <= 1024 /\ sizeof_mutex mod 8 = 0;
  mmap_page : forall ms n p, sys_mmap ms n = Some p -> p mod page_size = 0;
  mmap_pos : forall ms n p, sys_mmap ms n = Some p -> 0 < p;
  mmap_top : forall ms n p, sys_mmap ms n = Some p -> p + align_page n <= 2 ^ 47;
  mmap_fresh : forall ms n p lo hi, sys_mmap ms n = Some p -> (lo, hi) ∈ ms ->
    p + align_page n <= lo \/ hi <= p
}.

(** [[lo, hi)] lies in one mapping; the word at [x] is mapped. *)
Definition covered (ms : list (Z * Z)) (lo hi : Z) : Prop :=
  exists s e, (s, e) ∈ ms /\ s <= lo /\ hi <= e.
Definition mapped (ms : list (Z * Z)) (x : Z) : Prop := exists s e, (s, e) ∈ ms /\ s <= x < e.

Lemma covered_mapped (ms : list (Z * Z)) (lo hi x : Z) : covered ms lo hi -> lo <= x < hi -> mapped ms x.
Proof. intros (s & e & ? & ? & ?) ?. exists s, e. split; [done|lia]. Qed.

Lemma covered_cons (ms : list (Z * Z)) (r : Z * Z) (lo hi : Z) : covered ms lo hi -> covered (r :: ms) lo hi.
Proof. intros (s & e & ? & ?). exists s, e. rewrite elem_of_cons. auto. Qed.

(** Two ranges do not meet. *)
Definition apart2 (lo hi lo' hi' : Z) : Prop := hi <= lo' \/ hi' <= lo.

Section laws.
Context `{OSLaws}.

Lemma page_facts : 4096 <= page_size <= 2 ^ 30 /\ page_size mod 16 = 0.
Proof.
  destruct page_pow as (k & Hk & ->). split.
  - split; [change 4096 with (2 ^ 12)|]; apply Z.pow_le_mono_r; lia.
  - replace k with ((k - 4) + 4) by lia. rewrite Z.pow_add_r by lia. apply Z.mod_mul. lia.
Qed.

Lemma align_page_spec (n : Z) : 0 <= n <= 2 ^ 62 ->
  n <= align_page n < n + page_size /\ align_page n mod page_size = 0.
Proof.
  intros Hn. destruct page_facts as [Hp _]. unfold align_page.
  rewrite uwrap_small by (unfold in_uint; lia).
  destruct page_pow as (k & Hk & Ek).
  assert (page_size - 1 = Z.ones k) as -> by (rewrite Z.ones_equiv; lia).
  rewrite land_lnot_ones by lia. rewrite <- Ek.
  pose proof (Z.mod_pos_bound (n + page_size - 1) page_size). split; [lia|]. apply sub_mod_mod. lia.
Qed.

Lemma mmap_covered (ms : list (Z * Z)) (n p lo hi : Z) :
  sys_mmap ms n = Some p -> covered ms lo hi -> lo < hi -> apart2 lo hi p (p + align_page n).
Proof.
  intros Hm (s & e & Hin & ? & ?) Hlt. unfold apart2. destruct (mmap_fresh _ _ _ _ _ Hm Hin); lia.
Qed.

(** Removing [[x, y)] keeps what was covered and does not meet it. *)
Lemma munmap_covered (ms : list (Z * Z)) (x len lo hi : Z) :
  0 <= len <= 2 ^ 62 -> covered ms lo hi -> lo < hi -> apart2 lo hi x (x + align_page len) ->
  covered (sys_munmap ms x len) lo hi.
Proof.
  intros Hlen (s & e & Hin & Hs & He) Hlt Hap. unfold sys_munmap.
  destruct (_ && _); [|by exists s, e]. set (y := x + align_page len) in *. unfold covered.
  assert (forall s' e', (s', e') ∈ unmap_piece x y (s, e) -> (s', e') ∈ mjoin (unmap_piece x y <$> ms)) as Hj.
  { intros s' e' Hp. apply list_elem_of_join. exists (unmap_piece x y (s, e)). split; [done|].
    apply list_elem_of_fmap. exists (s, e). done. }
  unfold unmap_piece in Hj. unfold apart2 in Hap.
  destruct (Z.leb_spec e x); simpl in Hj; [exists s, e; split; [apply Hj; by left|lia]|].
  destruct (Z.leb_spec y s); simpl in Hj; [exists s, e; split; [apply Hj; by left|lia]|].
  destruct Hap as [Hap|Hap].
  - destruct (Z.ltb_spec s x); [|lia]. exists s, x. split; [|lia]. apply Hj. simpl. by left.
  - destruct (Z.ltb_spec y e); [|lia]. exists y, e. split; [|lia]. apply Hj.
    rewrite elem_of_app. right. by left.
Qed.
End laws.

(** Chunks that are mappings of their own: address to payload size. *)
Abbreviation bigs := (gmap Z Z).

Section os.
Context `{OSLaws}.

Definition big_end (c z : Z) : Z := c + align_page (z + 16).

Record MInv (s : astate) (Bg : bigs) : Prop := {
  M_heap : forall h, h ∈ alloced_heaps (ar s) -> covered (maps s) (heap_start h) (heap_end h + 32);
  M_head : forall b, valid_bin b -> covered (maps s) (head_of (ar s) b) (head_of (ar s) b + 48);
  M_big : forall c z, Bg !! c = Some z ->
    MMAP_THRESHOLD <= z /\ z mod 16 = 0 /\ c mod page_size = 0 /\ 0 < c /\ big_end c z <= 2 ^ 62 /\
    z <= 2 ^ 61 /\ covered (maps s) c (big_end c z) /\ hsz (hdr_of (mm s) c) = z;
  M_big_heap : forall c z h, Bg !! c = Some z -> h ∈ alloced_heaps (ar s) ->
    apart2 c (big_end c z) (heap_start h) (heap_end h + 32);
  M_big_head : forall c z b, Bg !! c = Some z -> valid_bin b ->
    apart2 c (big_end c z) (head_of (ar s) b) (head_of (ar s) b + 48);
  M_big_big : forall c z c' z', Bg !! c = Some z -> Bg !! c' = Some z' -> c <> c' ->
    apart2 c (big_end c z) c' (big_end c' z');
  M_iters : 0 <= heap_expo_growth_iters (ar s) <= 7 /\ 0 <= heap_constant_growth_iters (ar s) /\
    Z.of_nat (length (alloced_heaps (ar s)))
    = heap_expo_growth_iters (ar s) + heap_constant_growth_iters (ar s);
  M_nodup : NoDup (alloced_heaps (ar s))
}.

(** The whole invariant of an arena at rest. *)
Definition FInv (s : astate) (G : tiles) (B : bins) (Bg : bigs) : Prop := SInv s G B /\ MInv s Bg.

(** The words an allocation may write. *)
Definition fr (s : astate) (G : tiles) (x : Z) : Prop := aw (ar s) G x \/ ~ mapped (maps s) x.

Lemma big_extent (z : Z) : 0 <= z <= 2 ^ 61 -> z + 16 <= align_page (z + 16).
Proof. intros. apply align_page_spec. lia. Qed.

(** An arena's memory keeps clear of the chunks that are mappings. *)
Lemma in_arena_big (s : astate) (Bg : bigs) (c z x : Z) :
  MInv s Bg -> Bg !! c = Some z -> in_arena (ar s) x -> x < c \/ big_end c z <= x.
Proof.
  intros MI Hc [(h & Hh & ?)|(b & Vb & ?)].
  - destruct (M_big_heap _ _ MI c z h Hc Hh); lia.
  - destruct (M_big_head _ _ MI c z b Hc Vb); lia.
Qed.

(** Operations inside the arena keep [MInv]. *)
Lemma M_inside (s s' : astate) (G : tiles) (Bg : bigs) :
  MInv s Bg -> maps s' = maps s -> same_geo (ar s) (ar s') ->
  only_differ (aw (ar s) G) (mm s) (mm s') -> MInv s' Bg.
Proof.
  intros MI Em Hg D. pose proof Hg as (_ & _ & _ & _ & E1 & E2 & E3). split; rewrite ?Em, ?E1, ?E2, ?E3.
  - apply MI.
  - intros b Vb. rewrite (same_geo_head _ _ b Hg). by apply MI.
  - intros c z Hc. pose proof (M_big _ _ MI c z Hc) as Hb. destruct Hb as (Hz & ? & ? & ? & ? & ? & ? & <-).
    unfold MMAP_THRESHOLD in Hz. pose proof (big_extent (hsz (hdr_of (mm s) c))).
    assert (hdr_of (mm s') c = hdr_of (mm s) c) as ->; [|done].
    apply hdr_frame; apply D; intros [Ha _];
      destruct (in_arena_big _ _ c _ _ MI Hc Ha); unfold big_end, o_size, o_prev_size in *; lia.
  - apply MI.
  - intros c z b Hc Vb. rewrite (same_geo_head _ _ b Hg). by apply MI.
  - apply MI.
  - apply MI.
  - apply MI.
Qed.

(** Writes outside the arena keep [AInv]. *)
Lemma A_outside (m m' : mem) (a : arena) (t : Z) (G : tiles) (B : bins) :
  AInv m a t G B -> only_differ (fun x => ~ in_arena a x) m m' -> AInv m' a t G B.
Proof.
  intros AI D. assert (forall x, in_arena a x -> ld m' x = ld m x) as Heq.
  { intros x Hx. apply D. tauto. }
  split; [|eapply (K_transfer _ _ _ _ (A_K _ _ _ _ _ AI)); try done|apply AI].
  - eapply H_ext; [apply AI|]. intros b Hb.
    apply hdr_frame; apply Heq; apply (hw_aw AI); exists b; split; try done; unfold o_size, o_prev_size; lia.
  - intros n o Kn Ho. apply Heq, (lwr_aw AI). exists n, o. split; [done|]. split; [done|].
    destruct Kn as [?|[[s ?]|[s ?]]]; [by left|right; by exists s, Free|right; by exists s, Fast].
Qed.

Lemma align16_id (n : Z) : 0 <= n <= 2 ^ 62 -> n mod 16 = 0 -> align16 n = n.
Proof.
  intros Hn Hm. rewrite align16_spec by lia. pose proof (Z.div_mod n 16).
  replace (n + 15) with (15 + n / 16 * 16) by lia. rewrite Z.div_add by lia. change (15 / 16) with 0. lia.
Qed.

Lemma alloc_chunk_run (s : astate) (size p : Z) :
  32 <= size <= 2 ^ 61 -> size mod 16 = 0 -> sys_mmap (maps s) (size + 16) = Some p ->
  exists m', alloc_chunk s size = Some (p, AState m' ((p, p + align_page (size + 16)) :: maps s) (ar s)) /\
    hsz (hdr_of m' p) = size /\
    only_differ (fun x => p <= x < p + align_page (size + 16)) (mm s) m'.
Proof.
  intros Hs Hs16 Hm. unfold alloc_chunk, HEADER_SIZE.
  assert ((size + 16) mod 16 = 0) by (apply mod_add_0; done || lia).
  pose proof (big_extent size) as Hb. pose proof (mmap_pos _ _ _ Hm).
  rewrite (uwrap_small 64) by (unfold in_uint; lia). rewrite align16_id by (done || lia).
  unfold alloc_memory. rewrite Hm. cbn [mbind option_bind]. destruct (Z.eqb_spec p 0); [lia|].
  cbn [c_assert negb mbind option_bind]. rewrite (swrap_small 64) by (unfold in_sint; lia).
  eexists. split; [done|]. split.
  - unfold set_fdbk_to. rewrite !hdr_st_ne by (offs; lia).
    rewrite hdr_set_size by (done || lia || (unfold MMAP_ALLOCATED_FLAG_MASK; lia)). done.
  - intros x Hx. unfold set_fdbk_to, set_size. offs. rewrite !ld_st_ne by lia.
    apply ld_zero_out. lia.
Qed.

(** A range the kernel just mapped meets nothing of the arena. *)
Lemma fresh_arena (s : astate) (Bg : bigs) (n p x : Z) :
  MInv s Bg -> sys_mmap (maps s) n = Some p -> p <= x < p + align_page n -> ~ mapped (maps s) x /\ ~ in_arena (ar s) x.
Proof.
  intros MI Hm Hx. assert (~ mapped (maps s) x) as Hn.
  { intros (lo & hi & Hin & ?). destruct (mmap_fresh _ _ _ _ _ Hm Hin); lia. }
  split; [done|]. intros [(h & Hh & ?)|(b & Vb & ?)]; apply Hn.
  - eapply covered_mapped; [by apply (M_heap _ _ MI)|lia].
  - eapply covered_mapped; [by apply (M_head _ _ MI)|lia].
Qed.

(** A fresh range is apart from what was covered. *)
Lemma fresh_apart (s : astate) (n p lo hi : Z) :
  sys_mmap (maps s) n = Some p -> covered (maps s) lo hi -> lo < hi -> forall lo' hi',
  p <= lo' -> hi' <= p + align_page n -> apart2 lo hi lo' hi' /\ apart2 lo' hi' lo hi.
Proof.
  intros Hm Hc Hlt lo' hi' ? ?. pose proof (mmap_covered _ _ _ _ _ Hm Hc Hlt) as Ha.
  unfold apart2 in *. lia.
Qed.

(** A request of [MMAP_THRESHOLD] bytes or more gets a mapping of its own. *)
Lemma alloc_chunk_ok (s : astate) (G : tiles) (B : bins) (Bg : bigs) (size p : Z) :
  FInv s G B Bg -> MMAP_THRESHOLD <= size <= 2 ^ 61 -> size mod 16 = 0 ->
  sys_mmap (maps s) (size + 16) = Some p ->
  exists s', alloc_chunk s size = Some (p, s') /\ ar s' = ar s /\
    FInv s' G B (<[p := size]> Bg) /\ Bg !! p = None /\ only_differ (fr s G) (mm s) (mm s').
Proof.
  intros [[AI HS] MI] Hs Hs16 Hm. unfold MMAP_THRESHOLD in Hs.
  destruct (alloc_chunk_run s size p) as (m' & E & Eh & D); [lia|done|done|].
  pose proof (big_extent size) as Hbe. pose proof (mmap_top _ _ _ Hm) as Htop.
  pose proof (mmap_pos _ _ _ Hm) as Hpos.
  assert (forall c z, Bg !! c = Some z -> apart2 c (big_end c z) p (big_end p size) /\
            apart2 p (big_end p size) c (big_end c z) /\ 0 < c /\ c + 16 <= big_end c z) as Hap.
  { intros c z Hc. destruct (M_big _ _ MI c z Hc) as (Hz & _ & _ & ? & ? & ? & Hcov & _).
    unfold MMAP_THRESHOLD in Hz. pose proof (big_extent z).
    destruct (fresh_apart s _ p c (big_end c z) Hm Hcov) with (lo' := p) (hi' := big_end p size); unfold big_end in *;
      try lia. split_and!; try done; lia. }
  exists (AState m' ((p, p + align_page (size + 16)) :: maps s) (ar s)).
  split_and!; try done.
  - split; [split; [|done]|].
    + simpl. eapply A_outside; [exact AI|]. eapply only_differ_weaken; [|exact D].
      intros x Hx. by eapply fresh_arena.
    + split; cbn [mm ar maps].
      * intros h Hh. by apply covered_cons, (M_heap _ _ MI).
      * intros b Vb. by apply covered_cons, (M_head _ _ MI).
      * intros c z Hc. rewrite lookup_insert in Hc. case_decide as Ec.
        -- subst c. injection Hc as <-. unfold MMAP_THRESHOLD, big_end. split_and!; try done; try lia.
           ++ by eapply mmap_page.
           ++ exists p, (p + align_page (size + 16)). split; [by left|lia].
        -- destruct (M_big _ _ MI c z Hc) as (? & ? & ? & ? & ? & ? & Hcov & Eh'). split_and!; try done; [by apply covered_cons|].
           destruct (Hap c z Hc) as (Ha & _ & _ & ?). unfold apart2, big_end in *.
           etrans; [|exact Eh']. f_equal. apply hdr_frame; apply D; offs; lia.
      * intros c z h Hc Hh. rewrite lookup_insert in Hc. case_decide; [subst c; injection Hc as <-|by eapply (M_big_heap _ _ MI)].
        destruct (H_heap _ _ _ _ (A_H _ _ _ _ _ AI) h Hh) as (_ & _ & _ & ?).
        eapply (fresh_apart s _ p _ _ Hm (M_heap _ _ MI h Hh)); unfold big_end; lia.
      * intros c z b Hc Vb. rewrite lookup_insert in Hc. case_decide; [subst c; injection Hc as <-|by eapply (M_big_head _ _ MI)].
        eapply (fresh_apart s _ p _ _ Hm (M_head _ _ MI b Vb)); unfold big_end; lia.
      * intros c z c' z' Hc Hc' Hne. rewrite lookup_insert in Hc, Hc'.
        repeat case_decide; simplify_eq; [by apply Hap..|by eapply (M_big_big _ _ MI)].
      * apply MI.
      * apply MI.
  - destruct (Bg !! p) as [z|] eqn:Ez; [|done]. destruct (Hap p z Ez) as (Ha & _ & _ & ?).
    unfold apart2, big_end in *. lia.
  - eapply only_differ_weaken; [|exact D]. intros x Hx. right. by eapply fresh_arena.
Qed.
End os.
