(* ===== verification/AllocTop.v ===== *)
(** * AllocTop: growing the heap and carving from the top chunk *)

From S2P Require Import Prelude Mem Dll Alloc AllocFacts AllocInv AllocBins AllocLink AllocSafe.
From S2P Require Import AllocOs.

Section top.
Context `{OSLaws}.

(** The arena [grow_heap] hands to [alloc_chunk], and the size it asks for. *)
Lemma grow_size (a : arena) :
  0 <= heap_expo_growth_iters a <= 7 -> 0 <= heap_constant_growth_iters a <= 159 ->
  exists sz e c,
    (if Z.shiftl HEAP_BASE_SIZE (heap_expo_growth_iters a) <=? HEAP_EXPONENTIAL_GROWTH_LIMIT
     then (size_t (Z.shiftl HEAP_BASE_SIZE (heap_expo_growth_iters a)),
           set_expo_iters a (heap_expo_growth_iters a + 1))
     else (size_t (HEAP_EXPONENTIAL_GROWTH_LIMIT
                   + HEAP_CONSTANT_GROWTH * heap_constant_growth_iters a),
           set_constant_iters a (heap_constant_growth_iters a + 1)))
    = (sz, set_constant_iters (set_expo_iters a e) c) /\
    1048576 <= sz <= 2 ^ 34 /\ sz mod 16 = 0 /\ 0 <= e <= 7 /\ 0 <= c /\
    e + c = heap_expo_growth_iters a + heap_constant_growth_iters a + 1.
Proof.
  intros He Hc. unfold HEAP_BASE_SIZE, HEAP_EXPONENTIAL_GROWTH_LIMIT, HEAP_CONSTANT_GROWTH.
  rewrite Z.shiftl_mul_pow2 by lia. set (e := heap_expo_growth_iters a) in *.
  set (c := heap_constant_growth_iters a) in *.
  destruct (Z.leb_spec (1024 * 1024 * 2 ^ e) (64 * 1024 * 1024)) as [Hle|Hgt].
  - assert (e <= 6) by (destruct (Z.le_gt_cases e 6); [done|]; assert (e = 7) as E by lia; rewrite E in Hle; lia).
    assert (1 <= 2 ^ e) by (apply Z.lt_pred_le, Z.pow_pos_nonneg; lia).
    exists (1024 * 1024 * 2 ^ e), (e + 1), c. rewrite uwrap_small by (unfold in_uint; lia).
    split_and!; try lia; [destruct a; done|].
    rewrite <- Z.mul_assoc, Z.mul_comm. change 1024 with (64 * 16) at 2. rewrite !Z.mul_assoc. apply Z.mod_mul. lia.
  - exists (64 * 1024 * 1024 + 64 * 1024 * 1024 * c), e, (c + 1).
    rewrite uwrap_small by (unfold in_uint; lia).
    split_and!; try lia; [destruct a; done|].
    replace (64 * 1024 * 1024 + 64 * 1024 * 1024 * c) with ((4194304 + 4194304 * c) * 16) by lia.
    apply Z.mod_mul. lia.
Qed.

(** The headers of a new heap: its only chunk and the boundary. *)
Definition new_heap_mem (m : mem) (p sz : Z) : mem :=
  let m := unset_mmap_flag m p in
  let m := set_size m p (ssize_t sz) PREV_IN_USE_FLAG_MASK in
  let m := set_size m (p + HEADER_SIZE + sz) 0 (Z.lor CURR_IN_USE_FLAG_MASK PREV_IN_USE_FLAG_MASK) in
  set_fdbk_to m (p + HEADER_SIZE + sz) NULL.

Lemma new_heap_mem_spec (m : mem) (p sz : Z) :
  32 <= sz <= 2 ^ 34 -> sz mod 16 = 0 ->
  hdr_of (new_heap_mem m p sz) p = Hdr sz true false (hpsz (hdr_of m p)) /\
  hdr_of (new_heap_mem m p sz) (p + 16 + sz) = Hdr 0 true true (hpsz (hdr_of m (p + 16 + sz))) /\
  only_differ (fun x => p <= x < p + sz + 48) m (new_heap_mem m p sz).
Proof.
  intros Hs Hs16. unfold new_heap_mem, HEADER_SIZE. rewrite (swrap_small 64 sz) by (unfold in_sint; lia).
  split_and!.
  - unfold set_fdbk_to. rewrite !hdr_st_ne by (offs; lia). unfold set_size at 1. rewrite hdr_st_ne by (offs; lia).
    rewrite hdr_set_size by (done || lia || (unfold PREV_IN_USE_FLAG_MASK; lia)).
    unfold unset_mmap_flag. rewrite hdr_st_size. done.
  - unfold set_fdbk_to. rewrite !hdr_st_ne by (offs; lia).
    rewrite hdr_set_size by (done || lia || (unfold CURR_IN_USE_FLAG_MASK, PREV_IN_USE_FLAG_MASK; simpl; lia)).
    unfold set_size, unset_mmap_flag. rewrite !hdr_st_ne by (offs; lia). done.
  - intros x Hx. unfold set_fdbk_to, set_size, unset_mmap_flag. offs. rewrite !ld_st_ne by lia. done.
Qed.

Lemma grow_heap_ok (s : astate) (G : tiles) (B : bins) (Bg : bigs) :
  FInv s G B Bg -> top_chunk (ar s) = 0 -> (length (alloced_heaps (ar s)) < 159)%nat ->
  (forall n, 0 < n <= 2 ^ 40 -> is_Some (sys_mmap (maps s) n)) ->
  exists s' p sz, grow_heap s = Some s' /\ FInv s' (<[p := (sz, Top)]> G) B Bg /\
    top_chunk (ar s') = p /\ 1048576 <= sz /\ G !! p = None /\ mu (ar s') = mu (ar s) /\
    only_differ (fun x => ~ mapped (maps s) x) (mm s) (mm s') /\
    (forall x, in_arena (ar s') x -> in_arena (ar s) x \/ ~ mapped (maps s) x) /\
    (exists h, alloced_heaps (ar s') = alloced_heaps (ar s) ++ [h]) /\ (exists r, maps s' = r :: maps s).
Proof.
  intros [[AI HS] MI] Htop Hcnt Hmm. destruct (M_iters _ _ MI) as (He & Hc & Hlen).
  destruct (grow_size (ar s)) as (sz & e & c & Eg & Hsz & Hsz16 & He' & Hc' & Hec); [lia..|].
  set (a1 := set_constant_iters (set_expo_iters (ar s) e) c) in *.
  assert ((sz + 32) mod 16 = 0) by (apply mod_add_0; done || lia).
  destruct (Hmm (sz + 32 + 16)) as [p Hp]; [lia|].
  destruct (alloc_chunk_run (with_ar s a1) (sz + 32) p) as (m1 & E1 & _ & D1); [lia|done|done|].
  simpl in E1, D1. pose proof (big_extent (sz + 32)) as Hbe.
  pose proof (mmap_top _ _ _ Hp) as Hptop. pose proof (mmap_pos _ _ _ Hp) as Hppos.
  assert (p mod 16 = 0) as Hp16.
  { pose proof (mmap_page _ _ _ Hp) as Hpp. destruct page_facts as [? Hpf].
    pose proof (Z.div_mod p page_size). pose proof (Z.div_mod page_size 16).
    replace p with (page_size / 16 * (p / page_size) * 16) by lia. apply Z.mod_mul. lia. }
  destruct (new_heap_mem_spec m1 p sz) as (Ep & Ee & D2); [lia|done|].
  set (m' := new_heap_mem m1 p sz) in *. set (h := AllocedHeap p (p + sz + 16)).
  set (a' := set_alloced_heaps (set_top_chunk a1 p) (alloced_heaps (ar s) ++ [h])).
  set (ms' := (p, p + align_page (sz + 32 + 16)) :: maps s).
  assert (only_differ (fun x => p <= x < p + align_page (sz + 32 + 16)) (mm s) m') as D.
  { eapply only_differ_trans; [exact D1|]. eapply only_differ_weaken; [|exact D2]. simpl. lia. }
  assert (forall x, p <= x < p + align_page (sz + 32 + 16) -> ~ mapped (maps s) x /\ ~ in_arena (ar s) x) as Hfr.
  { intros x Hx. eapply (fresh_arena s Bg); eauto. }
  assert (AInv m' (ar s) 0 G B) as AI'.
  { eapply A_outside; [by rewrite <- Htop|]. eapply only_differ_weaken; [|exact D]. intros x Hx. by apply Hfr. }
  assert (forall h', h' ∈ alloced_heaps (ar s) -> heap_end h' + 32 <= p \/ p + sz + 48 <= heap_start h') as Hhs.
  { intros h' Hh'. destruct (H_heap _ _ _ _ (A_H _ _ _ _ _ AI) h' Hh') as (_ & _ & _ & ?).
    destruct (fresh_apart s _ p _ _ Hp (M_heap _ _ MI h' Hh')) with (lo' := p) (hi' := p + sz + 48);
      unfold apart2 in *; lia. }
  assert (forall b, head_of a' b = head_of (ar s) b) as Ehd by (by intros []).
  assert (forall b, valid_bin b -> head_of (ar s) b + 48 <= p \/ p + sz + 48 <= head_of (ar s) b) as Hhd.
  { intros b Vb.
    destruct (fresh_apart s _ p _ _ Hp (M_head _ _ MI b Vb)) with (lo' := p) (hi' := p + sz + 48);
      unfold apart2 in *; lia. }
  assert (G !! p = None) as HGp.
  { destruct (G !! p) as [[s0 st0]|] eqn:E; [|done].
    destruct (H_next _ _ _ _ (A_H _ _ _ _ _ AI) _ _ _ E) as (h' & Hh' & ? & ? & _).
    destruct (A_tile AI _ _ _ E). destruct (Hhs _ Hh'); lia. }
  exists (AState m' ms' a'), p, sz.
  assert (AInv m' a' p (<[p := (sz, Top)]> G) B) as AI2.
  { split.
    - eapply (H_grow _ _ _ _ (A_H _ _ _ _ _ AI')); try done; try lia; rewrite ?Ep, ?Ee; done.
    - eapply (K_transfer _ _ _ _ (A_K _ _ _ _ _ AI')); try done;
        intros y sy; rewrite lookup_insert; case_decide; [subst y; rewrite HGp|done|subst y; rewrite HGp|done];
        split; congruence.
    - pose proof (A_O _ _ _ _ _ AI) as HO. split; intros *; rewrite ?Ehd; [apply HO| |apply HO].
      intros Vb. simpl. rewrite elem_of_app, list_elem_of_singleton. intros [?| ->]; [by apply HO|].
      simpl. destruct (Hhd b Vb); lia. }
  assert (forall h', h' ∈ alloced_heaps a' -> h' ∈ alloced_heaps (ar s) \/ h' = h) as Hel.
  { intros h'. simpl. rewrite elem_of_app, list_elem_of_singleton. done. }
  split_and!; try done.
  - unfold grow_heap. rewrite Eg. cbn [ar]. unfold HEAP_BOUNDARY_SIZE.
    rewrite (uwrap_small 64 (sz + 32)) by (unfold in_uint; lia). rewrite E1. cbn [mbind option_bind mm ar maps].
    change (alloced_heaps (set_top_chunk a1 p)) with (alloced_heaps (ar s)). unfold MAX_HEAP_GROWTH_ITERATIONS.
    destruct (Z.ltb_spec (Z.of_nat (length (alloced_heaps (ar s)))) 159); [|lia].
    cbn [c_assert mbind option_bind]. done.
  - split; [split; [done|]|].
    + by apply settled_restatus.
    + assert (forall lo hi, covered (maps s) lo hi -> covered ms' lo hi) as Hcov by (intros; by apply covered_cons).
      split; cbn [mm ar maps].
      * intros h' [Hh'| ->]%Hel; [by apply Hcov, MI|].
        exists p, (p + align_page (sz + 32 + 16)). split; [by left|]. simpl. lia.
      * intros b Vb. rewrite Ehd. by apply Hcov, MI.
      * intros c' z Hc'z. destruct (M_big _ _ MI c' z Hc'z) as (Hz & ? & ? & ? & ? & ? & Hcv & Eh).
        split_and!; try done; [by apply Hcov|]. unfold MMAP_THRESHOLD in Hz. pose proof (big_extent z).
        etrans; [|exact Eh]. f_equal.
        destruct (fresh_apart s _ p _ _ Hp Hcv) with (lo' := p) (hi' := p + align_page (sz + 32 + 16));
          unfold apart2, big_end in *; try lia. apply hdr_frame; apply D; offs; lia.
      * intros c' z h' Hc'z [Hh'| ->]%Hel; [by eapply (M_big_heap _ _ MI)|].
        destruct (M_big _ _ MI c' z Hc'z) as (Hz & _ & _ & _ & _ & _ & Hcv & _).
        unfold MMAP_THRESHOLD in Hz. pose proof (big_extent z).
        destruct (M_big _ _ MI c' z Hc'z) as (_ & _ & _ & _ & _ & ? & _ & _).
        eapply (fresh_apart s _ p _ _ Hp Hcv); simpl; unfold big_end; lia.
      * intros c' z b Hc'z Vb. rewrite Ehd. by eapply (M_big_head _ _ MI).
      * apply MI.
      * simpl. rewrite length_app. simpl. lia.
      * apply NoDup_app. split; [apply MI|]. split; [|apply NoDup_singleton].
        intros h' Hh' ->%list_elem_of_singleton. destruct (Hhs _ Hh'); cbn [heap_start heap_end h] in *; lia.
  - lia.
  - eapply only_differ_weaken; [|exact D]. intros x Hx. by apply Hfr.
  - intros x [(h' & [Hh'| ->]%Hel & Hx)|(b & Vb & Hx)]; [left; left; eauto|right|left; right; exists b; by rewrite Ehd in Hx].
    apply Hfr. simpl in Hx. lia.
  - by exists h.
  - eexists. done.
Qed.

(** Carving [r] bytes off the top chunk: its remainder is the new top. *)
Lemma carve_split (s : astate) (G : tiles) (B : bins) (x sz r : Z)
    (rem := x + 16 + r) (rs := sz - r - 16) (G' := <[rem := (rs, Top)]> (<[x := (r, Used)]> G)) :
  AInv (mm s) (ar s) (top_chunk (ar s)) G B -> G !! x = Some (sz, Top) ->
  32 <= r -> r mod 16 = 0 -> 48 <= sz - r ->
  exists m2 m', set_prev_size (set_size (mm s) rem (ssize_t rs) PREV_IN_USE_FLAG_MASK)
      (next_chunk (set_size (mm s) rem (ssize_t rs) PREV_IN_USE_FLAG_MASK) rem) (ssize_t rs) 0 = Some m2 /\
    m' = set_curr_inuse (set_size m2 x (ssize_t r) (get_size_flags m2 x)) x /\
    AInv m' (set_top_chunk (ar s) rem) rem G' B /\ Handed G G' x r /\
    only_differ (aw (ar s) G) (mm s) m'.
Proof.
  intros AI Hx Hr Hr16 Hsr. pose proof (A_H _ _ _ _ _ AI) as HI. pose proof (A_O _ _ _ _ _ AI) as HO.
  destruct (A_tile AI _ _ _ Hx) as (? & Hs16 & ? & ? & Esz & Hbnd).
  set (n := x + 16 + sz) in *. set (hs := alloced_heaps (ar s)) in *.
  pose proof (split_rem s _ G B x sz r _ AI Hx Hr Hsr) as Hrem. fold rem in Hrem.
  destruct (split_headers (mm s) x sz r) as (m2 & P1 & E2r & E2n & D2); try done.
  fold rem rs n in P1, E2r, E2n, D2. exists m2. eexists. split; [exact P1|]. split; [done|].
  set (shrink := fun m => set_curr_inuse (set_size m x (ssize_t r) (get_size_flags m x)) x).
  change (set_curr_inuse _ x) with (shrink m2).
  assert (only_differ (fun z => z = x + 8 \/ z = rem + 8 \/ z = n) (mm s) (shrink m2)) as D.
  { intros z Hz. unfold shrink, set_curr_inuse, set_size. offs. rewrite !ld_st_ne by lia. apply D2. lia. }
  assert (hnode hs G n) as Nn by (eapply H_next_hnode; eauto).
  assert (hnode hs G x) as Nx by (left; eauto).
  assert (hdr_of m2 x = hdr_of (mm s) x) as F2 by (apply hdr_frame; apply D2; offs; lia).
  assert (hdr_of (shrink m2) rem = hdr_of m2 rem) as Er by (apply hdr_shrink_ne; lia).
  assert (hdr_of (shrink m2) n = hdr_of m2 n) as En by (apply hdr_shrink_ne; lia).
  assert (hdr_of (shrink m2) x = Hdr r (hprev (hdr_of (mm s) x)) true (hpsz (hdr_of (mm s) x))) as Ex.
  { unfold shrink. rewrite hdr_shrink, F2 by (done || lia). done. }
  destruct (H_prev _ _ _ _ HI _ _ _ Hx) as [Pv _]. fold n in Pv.
  split_and!.
  - split.
    + eapply (H_split _ _ _ _ HI _ x sz r Top Top); try done; fold rem n;
        rewrite ?Er, ?En, ?Ex, ?E2r, ?E2n; try done.
      intros b Hb Hbx Hbn. fold n in Hbn. pose proof (H_hnode_apart _ _ _ _ HI _ _ Hb Nn).
      pose proof (split_clear s _ G B x sz r _ AI Hx Hr Hsr b Hb Hbx).
      apply hdr_frame; apply D; offs; lia.
    + assert (forall y s' st', st' <> Top -> st' <> Used -> G' !! y = Some (s', st') <-> G !! y = Some (s', st')) as HG.
      { intros y s' st' ? ?. unfold G'. rewrite !lookup_insert.
        repeat case_decide; subst; rewrite ?Hrem, ?Hx; try done; split; congruence. }
      eapply (K_transfer _ _ _ _ (A_K _ _ _ _ _ AI)); try done; [|by intros; apply HG..].
      intros y o Ky Ho. pose proof (knode_lnode _ _ _ Ky) as Ly. apply D.
      pose proof (lnode_hnode _ _ _ _ _ HI HO y n Ly Nn). pose proof (lnode_hnode _ _ _ _ _ HI HO y x Ly Nx).
      destruct Ky as [(b & Vb & ->)|Ky].
      * pose proof (head_tile_sep _ _ _ _ _ HI HO b x sz _ Vb Hx). lia.
      * assert (exists s' st', G !! y = Some (s', st') /\ st' <> Top) as (s' & st' & Hy & Hst)
          by (destruct Ky as [[s' ?]|[s' ?]]; eauto).
        destruct (A_tile AI _ _ _ Hy). destruct (H_sep _ _ _ _ HI _ _ _ _ _ _ Hx Hy) as [->|]; [congruence|lia].
    + split; intros *; apply HO.
  - apply handed_split; try done; [congruence|lia].
  - eapply only_differ_weaken; [|exact D]. intros z Hz. eapply (split_aw s _ G B x sz Top); try done.
    unfold n, rem in *. lia.
Qed.

(** [carve_from_top_chunk] when the top chunk is large enough. *)
Lemma carve_fits (s : astate) (G : tiles) (B : bins) (sz r : Z) :
  SInv s G B -> G !! top_chunk (ar s) = Some (sz, Top) -> 32 <= r -> r mod 16 = 0 -> r <= sz ->
  exists v s', carve_from_top_chunk s r = Some (v, s') /\ v <> NULL /\ search_post s s' G r v.
Proof.
  intros [AI HS] Hx Hr Hr16 Hle. set (x := top_chunk (ar s)) in *.
  destruct (A_tile AI _ _ _ Hx) as (? & _ & _ & ? & _ & ?).
  unfold carve_from_top_chunk. fold x. destruct (Z.eqb_spec x 0); [lia|]. cbn [mbind option_bind].
  fold x. rewrite (A_usize AI _ _ _ Hx). destruct (Z.leb_spec r sz); [|lia].
  rewrite (uwrap_small 64 (sz - r)) by (unfold in_uint; lia). unfold MIN_PAYLOAD_SIZE, HEADER_SIZE.
  destruct (Z.leb_spec (32 + 16) (sz - r)) as [Hs|Hs].
  - rewrite (uwrap_small 64 (sz - r - 16)) by (unfold in_uint; lia).
    destruct (carve_split s G B x sz r AI Hx Hr Hr16) as (m2 & m' & E & -> & AI' & HH & D); [lia|].
    rewrite E. cbn [mbind option_bind]. do 2 eexists. split; [done|]. split; [lia|].
    do 2 eexists. split_and!; try done.
    + split; [exact AI'|]. by eapply settled_handed.
    + right. split; [lia|]. exists r. split; [lia|done].
  - destruct (A_take (mm s) (ar s) (set_top_chunk (ar s) NULL) x G B x sz Top AI) as [AI' D]; try done.
    do 2 eexists. split; [done|]. split; [lia|].
    do 2 eexists. split_and!; try done.
    + split; [exact AI'|]. by eapply settled_handed, (handed_take G x sz sz Top).
    + right. split; [lia|]. exists sz. split; [lia|]. by eapply handed_take.
Qed.

(** The outcome of a successful small allocation, seen from [s]. *)
Definition carve_post (s s' : astate) (G : tiles) (Bg : bigs) (r v : Z) : Prop :=
  v <> NULL /\ exists G' B' sz, FInv s' G' B' Bg /\ mu (ar s') = mu (ar s) /\
    only_differ (fr s G) (mm s) (mm s') /\ r <= sz < r + 48 /\ Handed G G' v sz.

Lemma search_carve (s s' : astate) (G : tiles) (B : bins) (Bg : bigs) (r v : Z) :
  FInv s G B Bg -> v <> NULL -> search_post s s' G r v -> carve_post s s' G Bg r v.
Proof.
  intros [_ MI] Hv (G' & B' & HS' & Em & Hg & D & [[? _]|(_ & sz & Hsz & HH)]); [done|].
  split; [done|]. exists G', B', sz. split_and!; try done; try lia; [|apply Hg|].
  - split; [done|]. by eapply M_inside.
  - eapply only_differ_weaken; [|exact D]. intros x Hx. by left.
Qed.

Lemma top_absent (s : astate) (G : tiles) (B : bins) (x sz : Z) :
  SInv s G B -> top_chunk (ar s) = 0 -> G !! x <> Some (sz, Top).
Proof.
  intros [AI _] Ht Hx. destruct (A_tile AI _ _ _ Hx) as (_ & _ & _ & ? & _).
  pose proof (H_top _ _ _ _ (A_H _ _ _ _ _ AI) _ _ Hx). lia.
Qed.

(** [carve_from_top_chunk] without a top chunk: a new heap is always large
    enough for what is not served by [mmap]. *)
Lemma carve_grow (s : astate) (G : tiles) (B : bins) (Bg : bigs) (r : Z) :
  FInv s G B Bg -> top_chunk (ar s) = 0 -> (length (alloced_heaps (ar s)) < 159)%nat ->
  (forall n, 0 < n <= 2 ^ 40 -> is_Some (sys_mmap (maps s) n)) ->
  32 <= r < MMAP_THRESHOLD -> r mod 16 = 0 ->
  exists v s', carve_from_top_chunk s r = Some (v, s') /\ carve_post s s' G Bg r v.
Proof.
  intros HF Ht Hcnt Hmm Hr Hr16. unfold MMAP_THRESHOLD in Hr.
  destruct (grow_heap_ok s G B Bg HF Ht Hcnt Hmm) as (s1 & p & sz & E1 & HF1 & Et & Hsz & Hp & Emu & D1 & Ha & _ & rm & Er).
  pose proof HF1 as [HS1 MI1]. pose proof HS1 as [AI1 _].
  assert (<[p := (sz, Top)]> G !! p = Some (sz, Top)) as Hp1 by apply lookup_insert_eq.
  destruct (A_tile AI1 _ _ _ Hp1) as (_ & _ & _ & ? & _).
  destruct (carve_fits s1 _ B sz r HS1) as (v & s' & E & Hv & Hpost); [by rewrite Et|lia|done|lia|].
  exists v, s'. split.
  { unfold carve_from_top_chunk in *. rewrite Ht, Z.eqb_refl, E1. rewrite Et in E.
    destruct (Z.eqb_spec p 0); [lia|]. exact E. }
  destruct (search_carve s1 s' _ B Bg r v HF1 Hv Hpost) as (_ & G' & B' & sz' & HF' & Emu' & D' & Hsz' & HH).
  split; [done|]. exists G', B', sz'. split_and!; try done; [congruence| |lia..|].
  - eapply only_differ_trans; [eapply only_differ_weaken; [|exact D1]; intros x Hx; by right|].
    eapply only_differ_weaken; [|exact D']. intros x [[Hx Hnp]|Hx].
    + destruct (Ha x Hx) as [Hx'|Hx']; [left|by right]. split; [done|].
      intros (c & sc & Hc & ?). apply Hnp. exists c, sc. split; [|lia].
      rewrite lookup_insert_ne; [done|]. congruence.
    + right. intros (lo & hi & Hin & ?). apply Hx. exists lo, hi. split; [|lia].
      rewrite Er, elem_of_cons. by right.
  - split.
    + intros sc Hc. destruct (handed_fresh _ _ _ _ HH sc). rewrite lookup_insert_ne; [done|]. congruence.
    + intros c sc. rewrite (handed_used _ _ _ _ HH). destruct (decide (c = p)) as [->|].
      * rewrite lookup_insert_eq, Hp. split; (intros [?|[_ ?]]; [by left|congruence]).
      * by rewrite lookup_insert_ne.
    + intros c sc st Hc Hst. destruct (handed_loose _ _ _ _ HH _ _ _ Hc Hst) as [? Hc'].
      split; [done|]. rewrite lookup_insert in Hc'. case_decide; [|done]. destruct Hst; congruence.
Qed.
End top.
