(* ===== verification/AllocRelease.v ===== *)
(** * AllocRelease: giving a chunk back

    A released chunk goes back to the kernel (large ones), to a fast bin
    (small ones), or is merged with its free neighbours and put into the
    unsorted bin or the top chunk. *)

From S2P Require Import Prelude Mem Dll Alloc AllocFacts AllocInv AllocBins AllocLink AllocSafe.
From S2P Require Import AllocOs.

(** ** Joining two adjacent chunks *)

Lemma slot_merge (hd : Z -> hdr) (hs : list alloced_heap) (t : Z) (G : tiles) (x s1 s2 b : Z) (st1 st2 st' : status)
    (u := s1 + 16 + s2) (y := x + 16 + s1) :
  HInv hd hs t G -> G !! x = Some (s1, st1) -> G !! y = Some (s2, st2) -> st' <> Used ->
  scan_slot hs G b -> b <> x -> scan_slot hs (<[x := (u, st')]> (delete y G)) b.
Proof.
  intros HI Hx Hy Hst Hb Hbx. destruct (H_tile _ _ _ _ HI _ _ _ Hx) as (? & _).
  destruct (H_tile _ _ _ _ HI _ _ _ Hy) as (? & _).
  assert (forall c, x + 48 <= c -> c + 16 <= x + 16 + u -> scan_slot hs (<[x := (u, st')]> (delete y G)) c) as Hin.
  { intros c ? ?. right. exists x, u, st'. by rewrite lookup_insert_eq. }
  destruct Hb as [[Hb|Hb]|(z & uz & st & Hz & ? & ? & ?)]; [| |].
  - destruct (decide (b = y)) as [->|]; [apply Hin; lia|].
    left. left. by rewrite lookup_insert_ne, lookup_delete_ne by done.
  - left. by right.
  - destruct (decide (z = x)) as [->|]; [simplify_eq; apply Hin; lia|].
    destruct (decide (z = y)) as [->|]; [simplify_eq; apply Hin; lia|].
    right. exists z, uz, st. by rewrite lookup_insert_ne, lookup_delete_ne by done.
Qed.

Lemma A_merge (m : mem) (a a' : arena) (t : Z) (G : tiles) (B : bins) (x s1 s2 f : Z) (st1 st2 st' : status)
    (u := s1 + 16 + s2) (m1 := set_size m x (ssize_t u) (get_size_flags m x)) (y := x + 16 + s1) :
  AInv m a t G B -> same_bins a a' -> G !! x = Some (s1, st1) -> G !! y = Some (s2, st2) ->
  st1 <> Top -> st1 <> Free -> st1 <> Fast -> st2 <> Free -> st2 <> Fast ->
  st' = Limbo \/ st' = Loose \/ st' = Top -> coal st' = coal st2 -> (st2 = Top <-> st' = Top) -> 0 <= f < 8 ->
  exists m', next_chunk m1 x = x + 16 + u /\
    set_prev_size m1 (x + 16 + u) (ssize_t u) f = Some m' /\
    AInv m' a' (if decide (st2 = Top) then x else t) (<[x := (u, st')]> (delete y G)) B /\
    only_differ (hw a G) m m' /\
    (forall b, scan_slot (alloced_heaps a) G b -> b <> x ->
      scan_slot (alloced_heaps a) (<[x := (u, st')]> (delete y G)) b /\
      ((b = x + 16 + u -> Z.testbit f 1 = Z.testbit (ld m b) 1) -> scan_view m' b = scan_view m b)).
Proof.
  intros AI Hs Hx Hy H1 H2 H3 H4 H5 Hst Hco Htop Hf. pose proof (A_H _ _ _ _ _ AI) as HI.
  destruct (A_tile AI _ _ _ Hx) as (? & ? & ? & ? & Ex & ?).
  destruct (A_tile AI _ _ _ Hy) as (? & ? & ? & ? & Ey & ?).
  assert (u mod 16 = 0) as Hu by (repeat apply mod_add_0; done || lia).
  assert (x + 16 + u = y + 16 + s2) as En by lia.
  assert (hnode (alloced_heaps a) G x) as Nx by (left; eauto).
  assert (hnode (alloced_heaps a) G (x + 16 + u)) as Nn by (rewrite En; eapply H_next_hnode; eauto).
  rewrite !(swrap_small 64 u) in * by (unfold in_sint; lia).
  assert (hdr_of m1 x = Hdr u (hprev (hdr_of m x)) (hcurr (hdr_of m x)) (hpsz (hdr_of m x))) as E1.
  { unfold m1. rewrite (swrap_small 64 u) by (unfold in_sint; lia). apply hdr_resize; [lia|done]. }
  assert (hdr_of m1 (x + 16 + u) = hdr_of m (x + 16 + u)) as E1n by (apply hdr_st_ne; offs; lia).
  rewrite set_prev_size_ok by lia. set (m' := st m1 _ _). exists m'.
  assert (hdr_of m' x = hdr_of m1 x) as E2 by (apply hdr_st_ne; offs; lia).
  assert (hdr_of m' (x + 16 + u) = Hdr (hsz (hdr_of m (x + 16 + u))) (hprev (hdr_of m (x + 16 + u)))
    (hcurr (hdr_of m (x + 16 + u))) u) as E2n.
  { unfold m'. rewrite hdr_set_prev_size by (lia || done). by rewrite E1n. }
  assert (only_differ (hw a G) m m') as D.
  { eapply only_differ_trans; apply only_differ_st.
    - eapply hw_tile; [done|by right].
    - exists (x + 16 + u). split; [done|]. unfold o_prev_size. lia. }
  split_and!; try done.
  3:{ intros b Hb Hbx. assert (st' <> Used) as Hu' by (by destruct Hst as [->|[->| ->]]).
    split; [by eapply slot_merge|]. intros Hfb.
    assert (b + 16 <= x \/ x + 16 <= b) by (destruct (slot_hnode HI _ _ Hb Nx); lia).
    destruct (slot_hnode HI _ _ Hb Nn) as [->|?].
    - rewrite (scan_view_hdr m m'); rewrite ?E2n; try done. unfold m'.
      replace (x + 16 + u + o_prev_size) with (x + 16 + u) by (unfold o_prev_size; lia).
      rewrite ld_st_eq, set_prev_size_mark by (lia || done). by apply Hfb.
    - unfold m', m1, set_size. apply scan_view_frame; rewrite !ld_st_ne by (offs; lia); done. }
  - unfold next_chunk, HEADER_SIZE. rewrite get_size_hdr; rewrite E1; hsimp; lia.
  - eapply (A_header AI); try done.
    + eapply (H_merge _ _ _ _ HI _ x s1 s2 st1 st2 st'); try done; fold y u;
        replace (y + 16 + s2) with (x + 16 + u) by lia; rewrite ?E2, ?E2n, ?E1; try done;
        [|by destruct Hst as [->|[->| ->]]].
      intros b Hb Hbx Hbn. unfold m', m1, set_size.
      rewrite !(hdr_other AI); try done; first [by left|by right].
    + intros z sz. destruct (decide (z = x)) as [->|]; [rewrite lookup_insert_eq, Hx; split; [|congruence]|].
      { intros [= _ ->]. destruct Hst as [?|[?|?]]; done. }
      rewrite lookup_insert_ne by done. destruct (decide (z = y)) as [->|]; [|by rewrite lookup_delete_ne].
      rewrite lookup_delete_eq, Hy. split; congruence.
    + intros z sz. destruct (decide (z = x)) as [->|]; [rewrite lookup_insert_eq, Hx; split; [|congruence]|].
      { intros [= _ ->]. destruct Hst as [?|[?|?]]; done. }
      rewrite lookup_insert_ne by done. destruct (decide (z = y)) as [->|]; [|by rewrite lookup_delete_ne].
      rewrite lookup_delete_eq, Hy. split; congruence.
Qed.

(** Everything but [x] is at rest, and [x] is the chunk being released. *)
Definition releasing (G : tiles) (x s : Z) (st : status) : Prop :=
  G !! x = Some (s, st) /\ (st = Used \/ st = Limbo \/ st = Loose) /\
  forall y s' st', y <> x -> G !! y = Some (s', st') -> st' <> Loose /\ st' <> Limbo.

(** [G'] hands out what [G] does, except the chunk at [x]. *)
Definition freed (G G' : tiles) (x : Z) : Prop :=
  forall c s, c <> x -> (G' !! c = Some (s, Used) <-> G !! c = Some (s, Used)).

(** From [G] to [G'] the scan of the heaps sees the same at the places [P]. *)
Definition unaffected (hs : list alloced_heap) (G G' : tiles) (m m' : mem) (P : Z -> Prop) : Prop :=
  forall b, scan_slot hs G b -> P b -> scan_slot hs G' b /\ scan_view m' b = scan_view m b.

(** Not the header that closes a heap. *)
Definition inner (hs : list alloced_heap) (b : Z) : Prop := forall h, h ∈ hs -> b <> heap_end h.

Lemma unaffected_refl (hs : list alloced_heap) (G : tiles) (m : mem) (P : Z -> Prop) : unaffected hs G G m m P.
Proof. by intros b Hb _. Qed.

Lemma unaffected_trans (hs : list alloced_heap) (G1 G2 G3 : tiles) (m1 m2 m3 : mem) (P : Z -> Prop) :
  unaffected hs G1 G2 m1 m2 P -> unaffected hs G2 G3 m2 m3 P -> unaffected hs G1 G3 m1 m3 P.
Proof. intros H1 H2 b Hb HP. destruct (H1 b Hb HP) as [Hb2 <-]. auto. Qed.

Lemma unaffected_weaken (hs : list alloced_heap) (G G' : tiles) (m m' : mem) (P Q : Z -> Prop) :
  (forall b, Q b -> P b) -> unaffected hs G G' m m' P -> unaffected hs G G' m m' Q.
Proof. intros HQ H1 b Hb ?. auto. Qed.

(** Unlinking a free chunk affects none of them. *)
Lemma unlink_unaffected (m : mem) (a : arena) (t : Z) (G : tiles) (B : bins) (x sz : Z) :
  AInv m a t G B -> G !! x = Some (sz, Free) ->
  unaffected (alloced_heaps a) G (<[x := (sz, Loose)]> G) m
    (unlink_chunk_from_sortedlist (unlink_chunk_from_fdlist m x) x) (fun _ => True).
Proof.
  intros AI Hx b Hb _. destruct (A_unlink_links _ _ _ _ _ _ _ AI Hx) as [_ D].
  split; [by eapply slot_restatus|]. by apply (view_links (A_H _ _ _ _ _ AI) (A_O _ _ _ _ _ AI) _ _ _ D).
Qed.

(** The flags a merge writes back are those it read. *)
Lemma flags_after_size (m : mem) (x v f n : Z) : n <> x + 8 ->
  Z.testbit (get_prev_size_flags (set_size m x v f) n) 1 = Z.testbit (ld m n) 1.
Proof. intros Hn. rewrite prev_flags_mark. unfold set_size. rewrite ld_st_ne by (offs; lia). done. Qed.

Lemma backward_coalesce_ok (s : astate) (G : tiles) (B : bins) (x sz : Z) :
  SInv s G B -> G !! x = Some (sz, Used) ->
  exists y m' G' B' u st', backward_coalesce s x = Some (y, with_mm s m') /\
    AInv m' (ar s) (top_chunk (ar s)) G' B' /\ releasing G' y u st' /\ st' <> Loose /\ y <= x /\
    (forall c sc, c <> x -> c <> y -> (G' !! c = Some (sc, Used) <-> G !! c = Some (sc, Used))) /\
    (y <> x -> G' !! x = None /\ forall sc, G !! y <> Some (sc, Used)) /\
    only_differ (aw (ar s) G) (mm s) m' /\
    (unaffected (alloced_heaps (ar s)) G G' (mm s) m' (fun b => b <> y) /\ y + u = x + sz /\
     (forall b, b <> x -> b <> y -> G' !! b = G !! b) /\
     (y = x \/ exists sy, G !! y = Some (sy, Free) /\ y + 16 + sy = x)).
Proof.
  intros [AI HS] Hx. pose proof (A_H _ _ _ _ _ AI) as HI.
  unfold backward_coalesce. rewrite is_prev_inuse_hdr.
  destruct (hprev (hdr_of (mm s) x)) eqn:Ep.
  { exists x, (mm s), G, B, sz, Used. split_and!; try done; [by destruct s| |by left].
    split_and!; try done; [auto|]. intros y s' st' _ Hy. eapply HS; eauto. }
  destruct (H_pred _ _ _ _ HI x) as [(h & Hh & E0)|(y & sy & sty & Hy & Eyx)]; [eauto| |].
  { destruct (H_heap _ _ _ _ HI _ Hh) as (_ & Hp & _). rewrite E0 in Ep. congruence. }
  destruct (H_prev _ _ _ _ HI _ _ _ Hy) as [Pv Ps]. rewrite Eyx, Ep in Pv. symmetry in Pv.
  apply negb_false_iff in Pv. pose proof (Ps Pv) as Eps. rewrite Eyx in Eps.
  assert (sty = Free) as -> by (destruct (HS _ _ _ Hy); by destruct sty).
  destruct (A_tile AI _ _ _ Hy) as (? & _ & _ & ? & _ & ?).
  assert (prev_chunk (mm s) x = y) as ->.
  { unfold prev_chunk, HEADER_SIZE. rewrite get_prev_size_hdr; rewrite Eps; lia. }
  rewrite (A_size AI _ _ _ Hy). destruct (Z.leb_spec sy 16); [lia|].
  destruct (A_unlink _ _ _ _ _ _ _ AI Hy) as [AI1 D1].
  pose proof (unlink_unaffected _ _ _ _ _ _ _ AI Hy) as U1.
  set (m1 := unlink_chunk_from_sortedlist _ _) in *. set (G1 := <[y := (sy, Loose)]> G) in *.
  assert (y <> x) as Hyx by lia.
  assert (G1 !! x = Some (sz, Used)) as Hx1 by (unfold G1; by rewrite lookup_insert_ne).
  assert (G1 !! y = Some (sy, Loose)) as Hy1 by apply lookup_insert_eq.
  rewrite (A_usize AI1 _ _ _ Hy1), (A_usize AI1 _ _ _ Hx1). unfold HEADER_SIZE.
  destruct (A_tile AI1 _ _ _ Hx1) as (? & _ & _ & ? & _ & ?).
  rewrite (uwrap_small 64 (sy + 16 + sz)) by (unfold in_uint; lia).
  set (u := sy + 16 + sz).
  set (m2 := set_size m1 y (ssize_t u) (get_size_flags m1 y)) in *.
  destruct (A_merge m1 (ar s) (ar s) _ G1 _ y sy sz (get_prev_size_flags m2 (y + 16 + u)) Loose Used Limbo AI1)
    as (m' & E1 & E2 & AI2 & D2 & U2); try done; [by rewrite Eyx|auto|apply flags_range|].
  fold u in E1, E2, AI2, U2. rewrite Eyx in *. fold m2 in E1, E2. rewrite E1, E2. cbn [mbind option_bind].
  do 6 eexists. split; [done|]. split; [exact AI2|]. split; [|split_and!; try done; try lia].
  - split_and!; [apply lookup_insert_eq|auto|]. intros c sc st' Hc Hc'.
    rewrite lookup_insert_ne in Hc' by done. destruct (decide (c = x)) as [->|]; [by rewrite lookup_delete_eq in Hc'|].
    rewrite lookup_delete_ne in Hc' by done. unfold G1 in Hc'. rewrite lookup_insert_ne in Hc' by done. eauto.
  - done.
  - intros c sc Hcx Hcy. rewrite lookup_insert_ne, lookup_delete_ne by done. unfold G1. by rewrite lookup_insert_ne.
  - intros _. rewrite lookup_insert_ne, lookup_delete_eq by done. split; [done|]. congruence.
  - eapply only_differ_trans; [exact D1|]. eapply only_differ_weaken; [|exact D2].
    intros z Hz. apply (hw_aw AI1) in Hz. by eapply aw_loose.
  - intros b Hb Hby. destruct (U1 b Hb I) as [Hb1 <-]. destruct (U2 b Hb1 Hby) as [? Hv]. split; [done|]. apply Hv.
    intros ->. apply flags_after_size. lia.
  - unfold u. lia.
  - intros c Hcx Hcy. rewrite lookup_insert_ne, lookup_delete_ne by done. unfold G1. by rewrite lookup_insert_ne.
  - right. eauto.
Qed.

Lemma forward_coalesce_ok (s : astate) (G : tiles) (B : bins) (x u : Z) (st0 : status) :
  AInv (mm s) (ar s) (top_chunk (ar s)) G B -> releasing G x u st0 -> st0 <> Loose ->
  exists r s' G' B', forward_coalesce s x = Some (r, s') /\ maps s' = maps s /\ same_geo (ar s) (ar s') /\
    AInv (mm s') (ar s') (top_chunk (ar s')) G' B' /\
    ((r = x /\ exists u' st', releasing G' x u' st') \/ (r = NULL /\ settled G' /\ exists u', G' !! x = Some (u', Top))) /\
    freed G G' x /\ only_differ (aw (ar s) G) (mm s) (mm s') /\
    (unaffected (alloced_heaps (ar s)) G G' (mm s) (mm s') (fun b => b <> x /\ inner (alloced_heaps (ar s)) b) /\
     (forall b, b <> x -> b <> x + 16 + u -> G' !! b = G !! b)).
Proof.
  intros AI (Hx & Hst & Hrest) Hnl. pose proof (A_H _ _ _ _ _ AI) as HI.
  destruct (A_tile AI _ _ _ Hx) as (? & _ & _ & ? & _ & ?).
  assert (st0 = Used \/ st0 = Limbo) as Hst0 by tauto.
  unfold forward_coalesce. rewrite (A_next AI _ _ _ Hx). set (n := x + 16 + u) in *.
  rewrite is_curr_inuse_hdr.
  destruct (hcurr (hdr_of (mm s) n) || (get_size (mm s) n <=? 16 * FASTBINS_COUNT)) eqn:Ec.
  { exists x, s, G, B. split_and!; try done. left. split; [done|]. exists u, st0. split_and!; try done. }
  apply orb_false_iff in Ec as [Ec Esz].
  destruct (H_next_hnode _ _ _ _ HI _ _ _ Hx) as [[[s2 st2] Hn]|(h & Hh & E)]; [fold n in Hn|fold n in E].
  2:{ destruct (H_heap _ _ _ _ HI _ Hh) as (_ & _ & Hcu & _). rewrite <- E in Hcu. congruence. }
  rewrite (A_size AI _ _ _ Hn) in *. apply Z.leb_gt in Esz. unfold FASTBINS_COUNT in Esz.
  destruct (A_tile AI _ _ _ Hn) as (? & _ & _ & ? & _ & ?).
  assert (n <> x) as Hnx by lia.
  assert (st2 = Free \/ st2 = Top) as Hst2.
  { pose proof (H_curr _ _ _ _ HI _ _ _ Hn) as Hc. destruct (Hrest n s2 st2 Hnx Hn) as [? ?].
    destruct st2; auto; try done; [unfold curr_ok in Hc; congruence|]. exfalso.
    destruct (K_fall _ _ _ _ (A_K _ _ _ _ _ AI) _ _ Hn) as [i Hi].
    destruct (K_fmem _ _ _ _ (A_K _ _ _ _ _ AI) _ _ Hi) as [? Hn']. rewrite Hn in Hn'. injection Hn' as ?. lia. }
  destruct Hst2 as [-> | ->].
  - destruct (Z.eqb_spec n (top_chunk (ar s))) as [E|Hnt].
    { destruct (H_top_end _ _ _ _ HI) as (s' & h & Ht & _); [lia|]. rewrite <- E in Ht. congruence. }
    destruct (A_unlink _ _ _ _ _ _ _ AI Hn) as [AI1 D1].
    pose proof (unlink_unaffected _ _ _ _ _ _ _ AI Hn) as U1.
    set (m1 := unlink_chunk_from_sortedlist _ _) in *. set (G1 := <[n := (s2, Loose)]> G) in *.
    assert (G1 !! x = Some (u, st0)) as Hx1 by (unfold G1; by rewrite lookup_insert_ne).
    assert (G1 !! n = Some (s2, Loose)) as Hn1 by apply lookup_insert_eq.
    rewrite (A_usize AI1 _ _ _ Hx1), (A_usize AI1 _ _ _ Hn1). unfold HEADER_SIZE.
    rewrite (uwrap_small 64 (u + 16 + s2)) by (unfold in_uint; lia).
    set (v := u + 16 + s2). set (m2 := set_size m1 x (ssize_t v) (get_size_flags m1 x)) in *.
    destruct (A_merge m1 (ar s) (ar s) _ G1 _ x u s2 (get_prev_size_flags m2 (x + 16 + v)) st0 Loose Loose AI1)
      as (m' & E1 & E2 & AI2 & D2 & U2); try done; [by destruct Hst0; subst..|auto|apply flags_range|].
    fold v in E1, E2, AI2, U2. fold n in AI2, U2. fold m2 in E1, E2. rewrite E1, E2. cbn [mbind option_bind].
    do 4 eexists. split; [done|]. split; [done|]. split; [done|]. split; [exact AI2|]. split_and!.
    + left. split; [done|]. exists v, Loose. split_and!; [apply lookup_insert_eq|auto|].
      intros c sc st' Hc Hc'. rewrite lookup_insert_ne in Hc' by done.
      destruct (decide (c = n)) as [->|]; [by rewrite lookup_delete_eq in Hc'|].
      rewrite lookup_delete_ne in Hc' by done. unfold G1 in Hc'. rewrite lookup_insert_ne in Hc' by done. eauto.
    + intros c sc Hc. rewrite lookup_insert_ne by done. destruct (decide (c = n)) as [->|].
      * rewrite lookup_delete_eq, Hn. split; congruence.
      * rewrite lookup_delete_ne by done. unfold G1. by rewrite lookup_insert_ne.
    + eapply only_differ_trans; [exact D1|]. eapply only_differ_weaken; [|exact D2].
      intros z Hz. apply (hw_aw AI1) in Hz. by eapply aw_loose.
    + intros b Hb [Hbx _]. destruct (U1 b Hb I) as [Hb1 <-]. destruct (U2 b Hb1 Hbx) as [? Hv]. split; [done|].
      apply Hv. intros ->. apply flags_after_size. lia.
    + intros c Hcx Hcn. rewrite lookup_insert_ne, lookup_delete_ne by done. unfold G1. by rewrite lookup_insert_ne.
  - pose proof (H_top _ _ _ _ HI _ _ Hn) as Et. destruct (Z.eqb_spec n (top_chunk (ar s))); [|done].
    rewrite (A_usize AI _ _ _ Hx). unfold HEADER_SIZE.
    rewrite (uwrap_small 64 s2) by (unfold in_uint; lia).
    rewrite (uwrap_small 64 (u + 16 + s2)) by (unfold in_uint; lia).
    set (v := u + 16 + s2). set (m2 := set_size (mm s) x (ssize_t v) (get_size_flags (mm s) x)) in *.
    destruct (A_merge (mm s) (ar s) (set_top_chunk (ar s) x) _ G B x u s2 0 st0 Top Top AI)
      as (m' & E1 & E2 & AI2 & D2 & U2); try done; [by destruct Hst0; subst..|auto|].
    fold v in E1, E2, AI2, U2. fold n in AI2, U2. fold m2 in E1, E2. rewrite E1, E2. cbn [mbind option_bind].
    do 4 eexists. split; [done|]. split; [done|]. split; [done|]. split; [exact AI2|]. split_and!.
    + right. split; [done|]. split; [|exists v; apply lookup_insert_eq].
      intros c sc st' Hc. destruct (decide (c = x)) as [->|]; [rewrite lookup_insert_eq in Hc; by injection Hc as <- <-|].
      rewrite lookup_insert_ne in Hc by done.
      destruct (decide (c = n)) as [->|]; [by rewrite lookup_delete_eq in Hc|].
      rewrite lookup_delete_ne in Hc by done. eauto.
    + intros c sc Hc. rewrite lookup_insert_ne by done. destruct (decide (c = n)) as [->|].
      * rewrite lookup_delete_eq, Hn. split; congruence.
      * by rewrite lookup_delete_ne.
    + eapply only_differ_weaken; [|exact D2]. intros z. apply (hw_aw AI).
    + intros b Hb [Hbx Hbi]. destruct (U2 b Hb Hbx) as [? Hv]. split; [done|]. apply Hv. intros ->. exfalso.
      destruct (H_top_end _ _ _ _ HI) as (s' & h & Ht & Hh & Eh); [lia|]. rewrite <- Et in Ht, Eh. simplify_eq.
      apply (Hbi h Hh). lia.
    + intros c Hcx Hcn. by rewrite lookup_insert_ne, lookup_delete_ne.
Qed.

(** ** The three ways to give a heap chunk back *)

(** A scan of the heaps sees all headers but those of [x] and of a free chunk
    before it as they were, and the chunks apart from [x] are the same. *)
Definition rest_kept (hs : list alloced_heap) (G G' : tiles) (m m' : mem) (x : Z) : Prop :=
  unaffected hs G G' m m' (fun b => b <> x /\ inner hs b /\ forall sb, G !! b = Some (sb, Free) -> b + 16 + sb <> x) /\
  forall b s, G !! x = Some (s, Used) -> b <> x -> b <> x + 16 + s ->
    (forall sb, G !! b = Some (sb, Free) -> b + 16 + sb <> x) -> G' !! b = G !! b.

(** After the release of [x]: at rest again, [x] no longer handed out, all
    other handed-out chunks as before, and their payloads untouched. *)
Definition release_post (s s' : astate) (G : tiles) (x : Z) : Prop :=
  exists G' B', SInv s' G' B' /\ maps s' = maps s /\ same_geo (ar s) (ar s') /\
    (forall c sc, G' !! c = Some (sc, Used) <-> c <> x /\ G !! c = Some (sc, Used)) /\
    only_differ (aw (ar s) G') (mm s) (mm s') /\ rest_kept (alloced_heaps (ar s)) G G' (mm s) (mm s') x.

Lemma release_fast (s : astate) (G : tiles) (B : bins) (x sz : Z) :
  SInv s G B -> G !! x = Some (sz, Used) -> sz <= 112 ->
  exists s', insert_into_fastbin s x = Some s' /\ release_post s s' G x.
Proof.
  intros [AI HS] Hx Hsz. pose proof (A_K _ _ _ _ _ AI) as KI. pose proof (A_H _ _ _ _ _ AI) as HI.
  destruct (A_tile AI _ _ _ Hx) as (? & Hs16 & _ & ? & Esz & ?).
  destruct (fast_index sz) as (i & Hi & Er & Ei); [done..|].
  destruct (K_lens _ _ _ _ KI) as (Hlen & _).
  unfold insert_into_fastbin. rewrite (A_usize AI _ _ _ Hx), Ei. unfold FASTBINS_COUNT, arr_get, arr_set.
  destruct (Z.leb_spec 0 (Z.of_nat i)); [|lia]. destruct (Z.ltb_spec (Z.of_nat i) 7); [|lia].
  destruct (Z.ltb_spec (Z.of_nat i) (Z.of_nat (length (fastbins (ar s))))); [|lia].
  simpl andb. cbv iota. rewrite Nat2Z.id.
  destruct (lookup_lt_is_Some_2 (fastbins (ar s)) i) as [h Eh]; [lia|].
  assert (nth i (fastbins (ar s)) 0 = h) as En by (by rewrite nth_lookup, Eh).
  rewrite Eh. cbn [mbind option_bind]. eexists. split; [done|].
  pose proof (K_push _ _ _ _ _ _ _ KI HI (A_O _ _ _ _ _ AI) x sz Used i Hx ltac:(done) ltac:(done) Hi Er) as KI1.
  rewrite En in KI1. set (m1 := st (mm s) (x + o_fd) h) in *. set (a1 := set_fastbins _ _) in *.
  set (G' := <[x := (sz, Fast)]> G) in *.
  assert (hnode (alloced_heaps (ar s)) G x) as Nx by (left; eauto).
  assert (hnode (alloced_heaps (ar s)) G (x + 16 + sz)) as Nn by (eapply H_next_hnode; eauto).
  assert (forall b, hnode (alloced_heaps (ar s)) G b -> hdr_of m1 b = hdr_of (mm s) b) as F1.
  { intros b Hb. apply hdr_st_ne; offs; destruct (H_hnode_sep _ _ _ _ HI _ _ _ _ Hx Hb); lia. }
  assert (HInv (hdr_of m1) (alloced_heaps (ar s)) (top_chunk (ar s)) G) as HI1 by (by eapply H_ext).
  destruct (H_prev _ _ _ _ HI1 _ _ _ Hx) as [Pv _].
  assert (forall b, hnode (alloced_heaps (ar s)) G b -> b <> x -> hdr_of (unset_curr_inuse m1 x) b = hdr_of m1 b) as F2.
  { intros b Hb Hne. unfold unset_curr_inuse. apply (hdr_other AI); try done. by right. }
  assert (HeadsOK a1 (alloced_heaps a1)) as HO1.
  { pose proof (A_O _ _ _ _ _ AI) as HO. split; intros *; rewrite ?head_of_set_fastbins; apply HO. }
  assert (AInv (unset_curr_inuse m1 x) a1 (top_chunk (ar s)) G' (Bins (bl B) (sl B) (fupd (fl B) i (x :: fl B i)))) as AI'.
  { split; [|eapply (K_transfer _ _ _ _ KI1); try done|done].
    - eapply (H_restatus _ _ _ _ HI1 _ x sz Used Fast); try done; rewrite ?F2 by (done || lia);
        rewrite ?hdr_unset_curr; hsimp; try done; [intros; by apply F2|]. rewrite F1 by done. done.
    - intros y o Ky Ho. apply knode_lnode in Ky.
      assert (lnode (ar s) G y) as Ly.
      { destruct Ky as [[z Hy]|(b & Vb & ->)]; [|right; exists b; split; [done|]; by destruct b].
        left. unfold G' in Hy. rewrite lookup_insert in Hy. case_decide; [subst; eauto|eauto]. }
      unfold unset_curr_inuse. apply ld_st_ne. offs.
      pose proof (lnode_hnode _ _ _ _ _ HI (A_O _ _ _ _ _ AI) y x Ly Nx). lia. }
  do 2 eexists. split_and!; [split; [exact AI'|]|..]; try done.
  - by apply settled_restatus.
  - intros c sc. unfold G'. rewrite lookup_insert. case_decide; [subst|]; intuition congruence.
  - assert (G' !! x = Some (sz, Fast)) as Hx' by apply lookup_insert_eq.
    assert (same_geo (ar s) a1) as Hg by done.
    eapply only_differ_trans; apply only_differ_st; apply (aw_geo (ar s) a1 _ _ Hg).
    + apply (lwr_aw AI'). exists x, o_fd. split; [done|]. split; [offs; lia|]. right. by exists sz, Fast.
    + eapply (hw_aw AI'), hw_tile; [done|by right].
  - split; [|by intros b s' _ Hbx _ _; unfold G'; rewrite lookup_insert_ne].
    intros b Hb (Hbx & _). split; [by eapply slot_restatus|].
    assert (lnode (ar s) G x) as Lx by (left; eauto).
    pose proof (slot_hnode HI _ _ Hb Nx). pose proof (slot_link HI (A_O _ _ _ _ _ AI) _ _ Hb Lx).
    unfold unset_curr_inuse, m1. cbn [with_mm with_ar mm]. apply scan_view_frame; rewrite !ld_st_ne by (offs; lia); done.
Qed.

Lemma release_coalesce (s : astate) (G : tiles) (B : bins) (x sz : Z) :
  SInv s G B -> G !! x = Some (sz, Used) ->
  exists s', ('(merged_chunk, s) ← coalesce s x;
              if merged_chunk =? NULL then Some s else insert_into_unsortedbin s merged_chunk) = Some s' /\
    release_post s s' G x.
Proof.
  intros HS Hx. pose proof HS as [AI _].
  destruct (backward_coalesce_ok s G B x sz HS Hx)
    as (y & m1 & G1 & B1 & u & st1 & E1 & AI1 & HR1 & Hst1 & Hyx & Hu1 & Hy1 & D1 & U1 & Eu & HG1 & Hprev).
  destruct (forward_coalesce_ok (with_mm s m1) G1 B1 y u st1 AI1 HR1 Hst1)
    as (r & s2 & G2 & B2 & E2 & Em2 & Hg2 & AI2 & Hr & Hf2 & D2 & U2 & HG2).
  unfold coalesce. rewrite E1. cbn [mbind option_bind]. rewrite E2. cbn [mbind option_bind].
  cbn [with_mm mm ar maps] in *.
  (** the chunks handed out once [y] itself is no longer *)
  assert (forall G3 : tiles, (forall c sc, c <> y -> G3 !! c = Some (sc, Used) <-> G2 !! c = Some (sc, Used)) ->
    (forall sc, G3 !! y <> Some (sc, Used)) ->
    (forall c sc, G3 !! c = Some (sc, Used) <-> c <> x /\ G !! c = Some (sc, Used)) /\
    (forall c sc, G3 !! c = Some (sc, Used) -> G1 !! c = Some (sc, Used))) as Huse.
  { intros G3 H3 Hy3. split; intros c sc.
    - destruct (decide (c = y)) as [->|Hcy].
      + split; [intros Hc; by apply Hy3 in Hc|]. intros [Hne Hc]. destruct (Hy1 Hne) as [_ HH]. by destruct (HH sc).
      + rewrite H3, (Hf2 c sc Hcy) by done. destruct (decide (c = x)) as [->|Hcx].
        * destruct (Hy1 ltac:(congruence)) as [-> _]. split; [done|]. by intros [? _].
        * rewrite Hu1 by done. tauto.
    - intros Hc. destruct (decide (c = y)) as [->|Hcy]; [by apply Hy3 in Hc|].
      apply (Hf2 c sc Hcy), H3; done. }
  (** the chunks in which nothing happened *)
  assert (forall b, b <> x -> (forall sb, G !! b = Some (sb, Free) -> b + 16 + sb <> x) -> b <> y) as Hby.
  { intros b Hbx Hb ->. destruct Hprev as [?|(sy & Hy & ?)]; [done|]. by apply (Hb sy). }
  assert (rest_kept (alloced_heaps (ar s)) G G2 (mm s) (mm s2) x) as HK2.
  { split; [eapply unaffected_trans; (eapply unaffected_weaken; [|done]); cbv beta; intuition eauto|].
    intros b sx Hsx Hbx Hbn Hb. simplify_eq. rewrite HG2, HG1; eauto. intros ->. apply Hbn. lia. }
  destruct Hr as [(-> & u2 & st2 & HR2)|(-> & HS2 & u2 & Ht2)].
  - pose proof HR2 as (Hy2 & Hst2 & Hrest). destruct (A_tile AI2 _ _ _ Hy2) as (_ & _ & _ & ? & _).
    destruct (Z.eqb_spec y 0); [lia|].
    destruct (A_unsorted s2 _ G2 B2 y u2 st2 AI2 Hy2) as (m3 & E3 & AI3 & D3 & U3);
      [by destruct Hst2 as [->|[->| ->]]..|].
    rewrite decide_False in AI3 by (by destruct Hst2 as [->|[->| ->]]).
    exists (with_mm s2 m3). split; [done|].
    destruct (Huse (<[y := (u2, Free)]> G2)) as [HA HB].
    { intros c sc Hc. by rewrite lookup_insert_ne. }
    { intros sc. rewrite lookup_insert_eq. congruence. }
    do 2 eexists. split_and!; [split; [exact AI3|]|done|done|exact HA| |].
    + intros c sc st' Hc. destruct (decide (c = y)) as [->|];
        [rewrite lookup_insert_eq in Hc; by injection Hc as <- <-|].
      rewrite lookup_insert_ne in Hc by done. eauto.
    + eapply only_differ_trans; [eapply only_differ_weaken; [|exact D1]; intros z; apply aw_mono; intros; by apply HA|].
      eapply only_differ_trans; [eapply only_differ_weaken; [|exact D2]; intros z; by apply aw_mono|].
      eapply only_differ_weaken; [|exact D3]. intros z. by apply aw_geo.
    + destruct HK2 as [HU HT]. assert (alloced_heaps (ar s2) = alloced_heaps (ar s)) as Eh by apply Hg2. rewrite Eh in U3.
      split.
      * intros b Hb HP. pose proof HP as (Hbx & _ & Hpb). destruct (HU b Hb HP) as [Hb2 <-].
        split; [eapply slot_restatus; [exact Hy2|done|done]|apply U3; eauto].
      * intros b sx Hsx Hbx Hbn Hb. rewrite lookup_insert_ne by (symmetry; eauto). eauto.
  - simpl. exists s2. split; [done|].
    destruct (Huse G2) as [HA HB]; [done|congruence|].
    do 2 eexists. split_and!; [split; [exact AI2|done]|done|done|exact HA| |exact HK2].
    eapply only_differ_trans; [eapply only_differ_weaken; [|exact D1]; intros z; apply aw_mono; intros; by apply HA|].
    eapply only_differ_weaken; [|exact D2]; intros z; by apply aw_mono.
Qed.
