(* ===== verification/AllocMain.v ===== *)
(** * AllocMain: [allocate], [release] and [arena_create]

    The contract of the allocator: [allocate] returns (no assertion fails
    and the loops end), hands out a block that is aligned, large enough and
    apart from every live block; [release] takes exactly one block back;
    neither touches the contents of a live block. *)

From S2P Require Import Prelude Mem Dll Alloc AllocFacts AllocInv AllocBins AllocLink AllocSafe.
From S2P Require Import AllocSearch AllocOs AllocTop AllocRelease.

Section main.
Context `{OSLaws}.

(** ** Searching one place after the other *)

(** Nothing found yet: the arena was at most rearranged. *)
Definition miss (s s' : astate) (G : tiles) (Bg : bigs) : Prop :=
  exists G' B', FInv s' G' B' Bg /\ maps s' = maps s /\ same_geo (ar s) (ar s') /\
    only_differ (aw (ar s) G) (mm s) (mm s') /\ same_used G G' /\ dom G' = dom G.

Definition progress (s : astate) (G : tiles) (Bg : bigs) (r : Z) (vs : Z * astate) : Prop :=
  carve_post s vs.2 G Bg r vs.1 \/ (vs.1 = NULL /\ miss s vs.2 G Bg).

Lemma aw_step (a a' : arena) (G G' : tiles) (x : Z) :
  same_geo a a' -> same_used G G' -> aw a' G' x -> aw a G x.
Proof. intros Hg Hu Hx. eapply aw_geo; [done|]. eapply aw_mono; [|done]. intros c s. apply Hu. Qed.

(** A chunk found after some rearranging was found. *)
Lemma miss_carve (s s1 s2 : astate) (G G1 : tiles) (B1 : bins) (Bg : bigs) (r v : Z) :
  FInv s1 G1 B1 Bg -> maps s1 = maps s -> same_geo (ar s) (ar s1) ->
  only_differ (aw (ar s) G) (mm s) (mm s1) -> same_used G G1 ->
  carve_post s1 s2 G1 Bg r v -> carve_post s s2 G Bg r v.
Proof.
  intros [[_ HS1] _] Em Hg D Hu (Hv & G2 & B2 & sz & HF2 & Emu & D2 & Hsz & HH).
  split; [done|]. exists G2, B2, sz. split_and!; try done; try lia.
  - destruct Hg as (_ & _ & _ & E & _). congruence.
  - eapply only_differ_trans; [eapply only_differ_weaken; [|exact D]; intros x Hx; by left|].
    eapply only_differ_weaken; [|exact D2]. intros x [Hx|Hx]; [left; by eapply aw_step|right; by rewrite <- Em].
  - split.
    + intros sc Hc. apply Hu in Hc. by eapply handed_fresh.
    + intros c sc. by rewrite (handed_used _ _ _ _ HH), (Hu c sc).
    + intros c sc st Hc Hst. destruct (handed_loose _ _ _ _ HH _ _ _ Hc Hst) as [_ Hc'].
      destruct (HS1 _ _ _ Hc'). tauto.
Qed.

Lemma progress_search (s : astate) (G : tiles) (Bg : bigs) (r : Z) (vs : Z * astate) (cond : bool)
    (search : astate -> option (Z * astate)) :
  progress s G Bg r vs ->
  (cond = true -> forall s1 G1 B1, SInv s1 G1 B1 -> dom G1 = dom G ->
     exists v s2, search s1 = Some (v, s2) /\ search_post s1 s2 G1 r v) ->
  exists vs', try_next cond search vs = Some vs' /\ progress s G Bg r vs'.
Proof.
  intros HP Hs. destruct vs as [v s1]. unfold try_next. cbn [fst snd].
  destruct HP as [HP|[Ev HM]]; cbn [fst snd] in *.
  { destruct HP as [Hv HP]. destruct (Z.eqb_spec v 0); [done|]. eexists. split; [done|]. left. done. }
  subst v. rewrite Z.eqb_refl. destruct cond; cbn [andb].
  2:{ eexists. split; [done|]. right. done. }
  destruct HM as (G1 & B1 & HF1 & Em & Hg & D & Hu & Hd). pose proof HF1 as [HS1 MI1].
  destruct (Hs eq_refl s1 G1 B1 HS1 Hd) as (v & s2 & E & Hp). exists (v, s2). split; [done|].
  destruct (decide (v = NULL)) as [->|Hv].
  - right. split; [done|]. destruct Hp as (G2 & B2 & HS2 & Em2 & Hg2 & D2 & [(_ & Hu2 & Hd2)|[? _]]); [|done].
    exists G2, B2. split_and!; [split; [done|]|..].
    + by eapply M_inside.
    + cbn [snd]. congruence.
    + by eapply same_geo_trans.
    + eapply only_differ_trans; [done|]. eapply only_differ_weaken; [|exact D2]. intros x. by apply aw_step.
    + intros c sc. by rewrite (Hu2 c sc), (Hu c sc).
    + congruence.
  - left. eapply miss_carve; try done. by eapply search_carve.
Qed.

Lemma size_dom_eq (G G' : tiles) : dom G' = dom G -> size G' = size G.
Proof. intros E. by rewrite <- !size_dom, E. Qed.

(** The top chunk, and the two ways it can fail to serve a request. *)
Lemma carve_any (s : astate) (G : tiles) (B : bins) (Bg : bigs) (r : Z) :
  FInv s G B Bg -> (length (alloced_heaps (ar s)) < 159)%nat ->
  (forall n, 0 < n <= 2 ^ 40 -> is_Some (sys_mmap (maps s) n)) ->
  32 <= r < MMAP_THRESHOLD -> r mod 16 = 0 ->
  exists v s', carve_from_top_chunk s r = Some (v, s') /\
    (carve_post s s' G Bg r v \/
     (v = NULL /\ s' = s /\ exists sz, G !! top_chunk (ar s) = Some (sz, Top))).
Proof.
  intros HF Hcnt Hmm Hr Hr16. destruct (decide (top_chunk (ar s) = 0)) as [Ht|Ht].
  { destruct (carve_grow s G B Bg r HF Ht Hcnt Hmm Hr Hr16) as (v & s' & ? & ?). eauto. }
  pose proof HF as [HS _]. pose proof HS as [AI _].
  destruct (H_top_end _ _ _ _ (A_H _ _ _ _ _ AI) Ht) as (sz & h & Hx & _).
  destruct (Z.le_gt_cases r sz) as [Hle|Hgt].
  - destruct (carve_fits s G B sz r HS Hx) as (v & s' & E & Hv & Hp); [lia|done|done|].
    exists v, s'. split; [done|]. left. by eapply search_carve.
  - exists NULL, s. split; [|right; eauto]. unfold carve_from_top_chunk.
    destruct (Z.eqb_spec (top_chunk (ar s)) 0); [done|]. cbn [mbind option_bind].
    rewrite (A_usize AI _ _ _ Hx). destruct (Z.leb_spec r sz); [lia|done].
Qed.

(** Retiring a top chunk that is too small, then growing. *)
Lemma retire_top (s : astate) (G : tiles) (B : bins) (Bg : bigs) (r sz : Z) :
  FInv s G B Bg -> (length (alloced_heaps (ar s)) < 159)%nat ->
  (forall n, 0 < n <= 2 ^ 40 -> is_Some (sys_mmap (maps s) n)) ->
  32 <= r < MMAP_THRESHOLD -> r mod 16 = 0 -> G !! top_chunk (ar s) = Some (sz, Top) ->
  exists v s', (s ← insert_into_unsortedbin s (top_chunk (ar s));
                carve_from_top_chunk (with_ar s (set_top_chunk (ar s) NULL)) r) = Some (v, s') /\
    carve_post s s' G Bg r v.
Proof.
  intros HF Hcnt Hmm Hr Hr16 Hx. pose proof HF as [[AI HS] MI].
  destruct (A_unsorted s _ G B _ sz Top AI Hx) as (m1 & E1 & AI1 & D1 & _); [done..|].
  rewrite decide_True in AI1 by done. rewrite E1. cbn [mbind option_bind ar with_mm with_ar].
  set (s1 := with_ar (with_mm s m1) (set_top_chunk (ar s) NULL)).
  set (G1 := <[top_chunk (ar s) := (sz, Free)]> G) in *.
  assert (same_used G G1) as Hu.
  { intros c sc. unfold G1. rewrite lookup_insert. case_decide as Ec; [rewrite <- Ec, Hx|]; intuition congruence. }
  assert (only_differ (aw (ar s) G) (mm s) m1) as D1'.
  { eapply only_differ_weaken; [|exact D1]. intros x. by apply aw_step. }
  assert (FInv s1 G1 (badd B BUnsorted (top_chunk (ar s)) (sl B)) Bg) as HF1.
  { split; [split|].
    - eapply A_same_bins; [exact AI1|done].
    - by apply settled_restatus.
    - by eapply (M_inside s s1 G). }
  destruct (carve_grow s1 G1 _ Bg r HF1 eq_refl Hcnt Hmm Hr Hr16) as (v & s' & E & Hp).
  exists v, s'. split; [exact E|]. by eapply (miss_carve s s1).
Qed.

(** ** [allocate] *)

(** What an allocation of [n] bytes leaves. *)
Definition alloc_post (s s' : astate) (G : tiles) (Bg : bigs) (n p : Z) : Prop :=
  exists G' B' Bg', FInv s' G' B' Bg' /\ mu (ar s') = mu (ar s) /\
    only_differ (fr s G) (mm s) (mm s') /\
    ((payload_size_of n < MMAP_THRESHOLD /\ Bg' = Bg /\
      exists sz, payload_size_of n <= sz < payload_size_of n + 48 /\ Handed G G' (p - 16) sz) \/
     (MMAP_THRESHOLD <= payload_size_of n /\ G' = G /\ Bg !! (p - 16) = None /\
      Bg' = <[p - 16 := payload_size_of n]> Bg)).

Definition mmap_available (s : astate) : Prop :=
  forall n, 0 < n <= 2 ^ 40 -> is_Some (sys_mmap (maps s) n).

Lemma allocate_small (fuel : nat) (s : astate) (G : tiles) (B : bins) (Bg : bigs) (r : Z) :
  FInv s G B Bg -> 32 <= r < MMAP_THRESHOLD -> r mod 16 = 0 -> (size G <= fuel)%nat ->
  (length (alloced_heaps (ar s)) < 159)%nat -> mmap_available s ->
  exists v s',
    (r1 ← try_next (r <=? 16 * FASTBINS_COUNT) (fun s => fastbin_search s r) (NULL, s);
     r1 ← try_next (r <? 16 * SMALLBINS_COUNT) (fun s => smallbin_search s (ssize_t r)) r1;
     r1 ← try_next true (fun s => unsortedbin_search fuel s r) r1;
     r1 ← try_next true (fun s => largebin_search fuel s r) r1;
     r1 ← try_next true (fun s => carve_from_top_chunk s r) r1;
     r1 ← try_next true (fun s =>
            s ← insert_into_unsortedbin s (top_chunk (ar s));
            carve_from_top_chunk (with_ar s (set_top_chunk (ar s) NULL)) r) r1;
     Some (r1.1 + HEADER_SIZE, r1.2)) = Some (v + HEADER_SIZE, s') /\ carve_post s s' G Bg r v.
Proof.
  intros HF Hr Hr16 Hf Hcnt Hmm. unfold MMAP_THRESHOLD, FASTBINS_COUNT, SMALLBINS_COUNT in *.
  assert (progress s G Bg r (NULL, s)) as P0.
  { right. split; [done|]. exists G, B. split_and!; try done; apply only_differ_refl. }
  destruct (progress_search _ _ _ _ _ (r <=? 16 * 7) (fun s => fastbin_search s r) P0) as (v1 & E1 & P1).
  { intros Hc s1 G1 B1 HS _. apply Z.leb_le in Hc. apply (fastbin_search_ok s1 G1 B1); done || lia. }
  rewrite E1. cbn [mbind option_bind]. rewrite (swrap_small 64 r) by (unfold in_sint; lia).
  destruct (progress_search _ _ _ _ _ (r <? 16 * 32) (fun s => smallbin_search s r) P1) as (v2 & E2 & P2).
  { intros Hc s1 G1 B1 HS _. apply Z.ltb_lt in Hc. apply (smallbin_search_ok s1 G1 B1); done || lia. }
  rewrite E2. cbn [mbind option_bind].
  destruct (progress_search _ _ _ _ _ true (fun s => unsortedbin_search fuel s r) P2) as (v3 & E3 & P3).
  { intros _ s1 G1 B1 HS Hd. apply size_dom_eq in Hd. apply (unsortedbin_search_ok fuel s1 G1 B1); done || lia. }
  rewrite E3. cbn [mbind option_bind].
  destruct (progress_search _ _ _ _ _ true (fun s => largebin_search fuel s r) P3) as (v4 & E4 & P4).
  { intros _ s1 G1 B1 HS Hd. apply size_dom_eq in Hd. apply (largebin_search_ok fuel s1 G1 B1); done || lia. }
  rewrite E4. cbn [mbind option_bind]. destruct v4 as [v s1]. clear E1 E2 E3 E4.
  unfold try_next. cbn [fst snd]. destruct P4 as [P4|[Ev (G1 & B1 & HF1 & Em & Hg & D & Hu & Hd)]]; cbn [fst snd] in *.
  { pose proof P4 as [Hv _]. destruct (Z.eqb_spec v 0); [done|]. cbn [andb mbind option_bind fst snd].
    destruct (Z.eqb_spec v 0); [done|]. cbn [andb mbind option_bind fst snd]. eauto. }
  subst v. rewrite Z.eqb_refl. cbn [andb].
  assert (alloced_heaps (ar s1) = alloced_heaps (ar s)) as Eh by apply Hg.
  destruct (carve_any s1 G1 B1 Bg r HF1) as (v5 & s5 & E5 & P5); [by rewrite Eh|by rewrite Em|done|done|].
  rewrite E5. cbn [mbind option_bind fst snd].
  destruct P5 as [P5|(-> & -> & sz & Hx)].
  { pose proof P5 as [Hv _]. destruct (Z.eqb_spec v5 0); [done|]. cbn [andb mbind option_bind fst snd].
    do 2 eexists. split; [done|]. by eapply miss_carve. }
  rewrite Z.eqb_refl. cbn [andb].
  destruct (retire_top s1 G1 B1 Bg r sz HF1) as (v6 & s6 & E6 & P6); [by rewrite Eh|by rewrite Em|done..|].
  rewrite E6. cbn [mbind option_bind fst snd]. do 2 eexists. split; [done|]. by eapply miss_carve.
Qed.

Lemma try_next_null (c : bool) (f : astate -> option (Z * astate)) (s : astate) :
  try_next c f (NULL, s) = if c then f s else Some (NULL, s).
Proof. by destruct c. Qed.

Lemma _allocate_ok (fuel : nat) (s : astate) (G : tiles) (B : bins) (Bg : bigs) (n : Z) :
  FInv s G B Bg -> 0 < n <= 2 ^ 39 -> (size G <= fuel)%nat ->
  (length (alloced_heaps (ar s)) < 159)%nat -> mmap_available s ->
  exists p s', _allocate fuel s n = Some (p, s') /\ alloc_post s s' G Bg n p.
Proof.
  intros HF Hn Hf Hcnt Hmm. destruct (payload_size_of_spec n) as (? & ? & Hp16 & ?); [lia|].
  unfold _allocate. destruct (Z.eqb_spec n 0); [lia|]. cbv zeta. set (r := payload_size_of n) in *.
  rewrite try_next_null.
  destruct (Z.leb_spec MMAP_THRESHOLD r) as [Hbig|Hsmall].
  - destruct (Hmm (r + 16)) as [p Hp]; [lia|].
    destruct (alloc_chunk_ok s G B Bg r p HF) as (s1 & E & Ea & HF1 & Hnew & D); [lia|done|done|].
    pose proof (mmap_pos _ _ _ Hp). rewrite E. cbn [mbind option_bind].
    assert (forall c f, try_next c f (p, s1) = Some (p, s1)) as Hskip.
    { intros c f. unfold try_next. cbn [fst snd]. destruct (Z.eqb_spec p 0); [lia|done]. }
    rewrite !Hskip. cbn [mbind option_bind]. rewrite !Hskip. cbn [mbind option_bind].
    rewrite !Hskip. cbn [mbind option_bind]. rewrite !Hskip. cbn [mbind option_bind].
    rewrite !Hskip. cbn [mbind option_bind]. rewrite !Hskip. cbn [mbind option_bind fst snd].
    do 2 eexists. split; [done|]. exists G, B, (<[p := r]> Bg).
    replace (p + HEADER_SIZE - 16) with p by (unfold HEADER_SIZE; lia). rewrite Ea.
    split_and!; try done. right. done.
  - cbn [mbind option_bind].
    destruct (allocate_small fuel s G B Bg r HF) as (v & s' & E & Hv & G' & B' & sz & HF' & Emu & D & Hsz & HH);
      [lia|done..|].
    do 2 eexists. split; [exact E|]. exists G', B', Bg. split_and!; try done. left.
    replace (v + HEADER_SIZE - 16) with v by (unfold HEADER_SIZE; lia). split_and!; try done.
    exists sz. split; [lia|done].
Qed.

(** ** The abstract view: the live blocks

    [L] are the blocks handed out from the heaps and [M] the blocks that
    are mappings of their own, each from payload address to size. *)
Definition repr (s : astate) (L M : gmap Z Z) : Prop :=
  exists G B Bg, FInv s G B Bg /\ mu (ar s) = false /\
    (forall p n, L !! p = Some n <-> G !! (p - 16) = Some (n, Used)) /\
    (forall p n, M !! p = Some n <-> Bg !! (p - 16) = Some n).

Definition live (L M : gmap Z Z) (p n : Z) : Prop := L !! p = Some n \/ M !! p = Some n.

(** The header of a live heap block holds its size. *)
Lemma repr_size (s : astate) (L M : gmap Z Z) (p n : Z) :
  repr s L M -> L !! p = Some n -> n < MMAP_THRESHOLD -> size_t (get_size (mm s) (p - HEADER_SIZE)) < MMAP_THRESHOLD.
Proof.
  intros (G & B & Bg & [[AI _] _] & _ & HL & _) Hp Hn. apply HL in Hp. unfold HEADER_SIZE.
  destruct (A_tile AI _ _ _ Hp) as (? & _). by rewrite (A_usize AI _ _ _ Hp).
Qed.

(** A live heap block lies in one of the arena's heaps. *)
Lemma repr_in_heap (s : astate) (L M : gmap Z Z) (p n : Z) :
  repr s L M -> L !! p = Some n -> exists h, h ∈ alloced_heaps (ar s) /\ heap_start h <= p /\ p + n <= heap_end h.
Proof.
  intros (G & B & Bg & [[AI _] _] & _ & HL & _) Hp. apply HL in Hp.
  destruct (H_next _ _ _ _ (A_H _ _ _ _ _ AI) _ _ _ Hp) as (h & ? & ? & ? & _). exists h. split; [done|lia].
Qed.

(** The contents of every live block are the same. *)
Definition kept (L M : gmap Z Z) (m m' : mem) : Prop :=
  forall p n x, live L M p n -> p <= x < p + n -> ld m' x = ld m x.

Section repr.
Context (s : astate) (G : tiles) (B : bins) (Bg : bigs) (HF : FInv s G B Bg).

Lemma tile_block (x n : Z) (st : status) : G !! x = Some (n, st) ->
  32 <= n /\ x mod 16 = 0 /\ 0 < x /\
  exists h, h ∈ alloced_heaps (ar s) /\ heap_start h <= x /\ x + 16 + n <= heap_end h.
Proof.
  intros Hx. destruct HF as [[AI _] _]. destruct (A_tile AI _ _ _ Hx) as (? & _ & ? & ? & _).
  destruct (H_next _ _ _ _ (A_H _ _ _ _ _ AI) _ _ _ Hx) as (h & ? & ? & ? & _). split_and!; eauto.
Qed.

Lemma big_block (x n : Z) : Bg !! x = Some n ->
  MMAP_THRESHOLD <= n /\ x mod 16 = 0 /\ 0 < x /\ x + 16 + n <= big_end x n.
Proof.
  intros Hx. destruct HF as [_ MI]. destruct (M_big _ _ MI x n Hx) as (Hn & _ & Hp & ? & ? & ? & _).
  unfold MMAP_THRESHOLD in *. pose proof (big_extent n). unfold big_end. split_and!; try lia.
  destruct page_facts as [_ Hpf]. destruct page_pow as (k & Hk & Ek).
  pose proof (Z.div_mod x page_size). pose proof (Z.div_mod page_size 16).
  replace x with (page_size / 16 * (x / page_size) * 16) by lia. apply Z.mod_mul. lia.
Qed.

Lemma tile_big_apart (x n y k : Z) (st : status) :
  G !! x = Some (n, st) -> Bg !! y = Some k -> apart2 x (x + 16 + n) y (big_end y k).
Proof.
  intros Hx Hy. destruct (tile_block _ _ _ Hx) as (? & _ & ? & h & Hh & ? & ?).
  destruct HF as [_ MI]. destruct (M_big_heap _ _ MI y k h Hy Hh); unfold apart2; lia.
Qed.

(** Writes of the allocator stay out of the live blocks. *)
Lemma fr_kept (L M : gmap Z Z) (m' : mem) :
  (forall p n, L !! p = Some n <-> G !! (p - 16) = Some (n, Used)) ->
  (forall p n, M !! p = Some n <-> Bg !! (p - 16) = Some n) ->
  only_differ (fr s G) (mm s) m' -> kept L M (mm s) m'.
Proof.
  intros HL HM D p n x [Hp|Hp] Hx; apply D; intros Hfr.
  - apply HL in Hp. destruct Hfr as [[_ Hn]|Hn].
    + apply Hn. exists (p - 16), n. split; [done|lia].
    + apply Hn. destruct (tile_block _ _ _ Hp) as (_ & _ & _ & h & Hh & ? & ?).
      destruct HF as [_ MI]. eapply covered_mapped; [by apply (M_heap _ _ MI)|lia].
  - apply HM in Hp. destruct (big_block _ _ Hp) as (_ & _ & _ & ?). destruct HF as [_ MI].
    destruct Hfr as [[Ha _]|Hn].
    + destruct (in_arena_big _ _ _ _ _ MI Hp Ha); lia.
    + apply Hn. destruct (M_big _ _ MI _ _ Hp) as (_ & _ & _ & _ & _ & _ & Hc & _).
      eapply covered_mapped; [exact Hc|lia].
Qed.
End repr.

(** Live blocks are aligned, not null and apart from each other. *)
Lemma repr_blocks (s : astate) (L M : gmap Z Z) (p n : Z) :
  repr s L M -> live L M p n -> 32 <= n /\ p mod 16 = 0 /\ 16 < p.
Proof.
  intros (G & B & Bg & HF & _ & HL & HM) [Hp|Hp].
  - apply HL in Hp. destruct (tile_block _ _ _ _ HF _ _ _ Hp) as (? & Hm & ? & _).
    split_and!; try lia. replace p with (p - 16 + 16) by lia. by apply mod_add_0.
  - apply HM in Hp. destruct (big_block _ _ _ _ HF _ _ Hp) as (Hn & Hm & ? & _).
    unfold MMAP_THRESHOLD in Hn. split_and!; try lia. replace p with (p - 16 + 16) by lia. by apply mod_add_0.
Qed.

Lemma repr_apart (s : astate) (L M : gmap Z Z) (p n q k : Z) :
  repr s L M -> live L M p n -> live L M q k -> p <> q -> apart2 p (p + n) q (q + k).
Proof.
  intros (G & B & Bg & HF & _ & HL & HM) Hp Hq Hne.
  destruct Hp as [Hp|Hp], Hq as [Hq|Hq]; try apply HL in Hp; try apply HM in Hp; try apply HL in Hq; try apply HM in Hq.
  - destruct HF as [[AI _] _]. destruct (A_tile AI _ _ _ Hp). destruct (A_tile AI _ _ _ Hq).
    destruct (H_sep _ _ _ _ (A_H _ _ _ _ _ AI) _ _ _ _ _ _ Hp Hq); unfold apart2; lia.
  - pose proof (tile_big_apart _ _ _ _ HF _ _ _ _ _ Hp Hq). destruct (big_block _ _ _ _ HF _ _ Hq) as (_ & _ & _ & ?).
    unfold apart2 in *. lia.
  - pose proof (tile_big_apart _ _ _ _ HF _ _ _ _ _ Hq Hp). destruct (big_block _ _ _ _ HF _ _ Hp) as (_ & _ & _ & ?).
    unfold apart2 in *. lia.
  - destruct (big_block _ _ _ _ HF _ _ Hp) as (_ & _ & _ & ?). destruct (big_block _ _ _ _ HF _ _ Hq) as (_ & _ & _ & ?).
    destruct HF as [_ MI]. pose proof (M_big_big _ _ MI _ _ _ _ Hp Hq). unfold apart2 in *. lia.
Qed.

(** Taking the mutex does not matter to the invariant. *)
Lemma F_set_mu (s : astate) (G : tiles) (B : bins) (Bg : bigs) (b : bool) :
  FInv s G B Bg -> FInv (with_ar s (set_mu (ar s) b)) G B Bg.
Proof.
  intros [[AI HS] MI]. split; [split; [|done]|].
  - by apply (A_same_bins AI).
  - split; apply MI.
Qed.

(** *** A loop budget that always suffices

    Chunks start at multiples of 16 inside the heaps, so there are at most
    this many, and no list of free chunks is longer. *)
Definition heap_slots (h : alloced_heap) : list Z :=
  (fun i => heap_start h + 16 * Z.of_nat i) <$> seq 0 (Z.to_nat ((heap_end h - heap_start h) / 16)).

Definition chunk_budget (hs : list alloced_heap) : nat :=
  sum_list ((fun h => Z.to_nat ((heap_end h - heap_start h) / 16)) <$> hs).

Lemma slots_length (hs : list alloced_heap) : length (mjoin (heap_slots <$> hs)) = chunk_budget hs.
Proof.
  rewrite length_join, <- list_fmap_compose. unfold chunk_budget. f_equal.
  apply list_fmap_ext. intros i h _. simpl. unfold heap_slots. by rewrite length_fmap, length_seq.
Qed.

Lemma budget_enough (s : astate) (G : tiles) (B : bins) (Bg : bigs) :
  FInv s G B Bg -> (size G <= chunk_budget (alloced_heaps (ar s)))%nat.
Proof.
  intros [[AI _] _]. rewrite <- slots_length, <- size_dom. unfold size, set_size. simpl.
  apply submseteq_length, NoDup_submseteq; [apply NoDup_elements|].
  { intros x Hx. apply elem_of_elements, elem_of_dom in Hx as [[sz st] Hx]. apply list_elem_of_join.
    destruct (A_tile AI _ _ _ Hx) as (? & _ & Hx16 & ? & _).
    destruct (H_next _ _ _ _ (A_H _ _ _ _ _ AI) _ _ _ Hx) as (h & Hh & ? & ? & _).
    destruct (H_heap _ _ _ _ (A_H _ _ _ _ _ AI) _ Hh) as ([[s0 st0] Hs0] & _).
    destruct (A_tile AI _ _ _ Hs0) as (_ & _ & H016 & _).
    exists (heap_slots h). split; [|apply list_elem_of_fmap; eauto].
    apply list_elem_of_fmap. exists (Z.to_nat ((x - heap_start h) / 16)).
    pose proof (mod_sub_0 x (heap_start h) 16 ltac:(lia) Hx16 H016) as Hd.
    pose proof (Z.div_mod (x - heap_start h) 16). split; [lia|]. apply elem_of_seq.
    assert ((x - heap_start h) / 16 < (heap_end h - heap_start h) / 16); [|lia].
    apply Z.lt_le_trans with ((x - heap_start h) / 16 + 1); [lia|].
    rewrite <- Z.div_add by lia. apply Z.div_le_mono; lia. }
Qed.

(** [allocate] on the abstract state: one new block, in the heaps or as a
    mapping of its own. *)
Lemma repr_allocate (s : astate) (L M : gmap Z Z) (n : Z) :
  repr s L M -> 0 < n <= 2 ^ 39 -> (length (alloced_heaps (ar s)) < 159)%nat -> mmap_available s ->
  forall fuel, (chunk_budget (alloced_heaps (ar s)) <= fuel)%nat ->
  exists p k s', allocate fuel s n = Some (p, s') /\ L !! p = None /\ M !! p = None /\
    kept L M (mm s) (mm s') /\ payload_size_of n <= k < payload_size_of n + 48 /\
    ((payload_size_of n < MMAP_THRESHOLD /\ repr s' (<[p := k]> L) M) \/
     (MMAP_THRESHOLD <= payload_size_of n /\ repr s' L (<[p := k]> M))).
Proof.
  intros (G & B & Bg & HF & Hmu & HL & HM) Hn Hcnt Hmm fuel Hf0.
  assert (size G <= fuel)%nat as Hf by (pose proof (budget_enough _ _ _ _ HF); lia).
  pose proof (F_set_mu s G B Bg true HF) as HF0.
  destruct (_allocate_ok fuel _ G B Bg n HF0 Hn Hf Hcnt Hmm) as (p & s' & E & HP).
  destruct HP as (G' & B' & Bg' & HF' & _ & D & HP).
  pose proof (fr_kept _ G B Bg HF0 L M _ HL HM D) as HK.
  pose proof (F_set_mu _ _ _ _ false HF') as HF''.
  unfold allocate. rewrite Hmu. cbn [negb c_assert mbind option_bind]. rewrite E. cbn [mbind option_bind].
  assert (forall y k, G !! y = Some (k, Used) -> Bg !! y = None) as Hex.
  { intros y k Hy. destruct (Bg !! y) as [z|] eqn:Ez; [|done].
    pose proof (tile_big_apart _ _ _ _ HF _ _ _ _ _ Hy Ez). destruct (big_block _ _ _ _ HF _ _ Ez) as (Hz & _ & _ & ?).
    destruct (tile_block _ _ _ _ HF _ _ _ Hy) as (? & _). unfold apart2, MMAP_THRESHOLD in *. lia. }
  assert (forall q, L !! q = None <-> forall k, G !! (q - 16) <> Some (k, Used)) as HLn.
  { intros q. destruct (L !! q) as [k|] eqn:Eq.
    - apply HL in Eq. split; [done|]. intros Hk. by destruct (Hk k).
    - split; [|done]. intros _ k Hk. apply HL in Hk. congruence. }
  assert (forall q, M !! q = None <-> Bg !! (q - 16) = None) as HMn.
  { intros q. destruct (M !! q) as [k|] eqn:Eq.
    - apply HM in Eq. rewrite Eq. done.
    - split; [|done]. intros _. destruct (Bg !! (q - 16)) as [k|] eqn:Ek; [|done]. apply HM in Ek. congruence. }
  destruct HP as [(Hsm & -> & sz & Hsz & HH)|(Hbig & -> & Hnew & ->)].
  - assert (G' !! (p - 16) = Some (sz, Used)) as Hp' by (apply (handed_used _ _ _ _ HH); auto).
    exists p, sz. eexists. split; [done|]. split_and!; try done; try lia.
    + apply HLn, HH.
    + apply HMn. destruct (Bg !! (p - 16)) as [z|] eqn:Ez; [|done].
      pose proof (tile_big_apart _ _ _ _ HF' _ _ _ _ _ Hp' Ez).
      destruct (big_block _ _ _ _ HF' _ _ Ez) as (Hz & _ & _ & ?).
      destruct (tile_block _ _ _ _ HF' _ _ _ Hp') as (? & _). unfold apart2, MMAP_THRESHOLD in *. lia.
    + left. split; [done|]. exists G', B', Bg. split_and!; try done.
      intros q k. rewrite (handed_used _ _ _ _ HH), <- HL, lookup_insert.
      case_decide as Eq; [subst q; split; [intros [= <-]; auto|intros [[_ ->]|[? _]]; done]|].
      split; [intros; right; split; [lia|done]|]. intros [[? _]|[_ ?]]; [lia|done].
  - exists p, (payload_size_of n). eexists. split; [done|]. split_and!; try done; try lia.
    + apply HLn. intros k Hk. pose proof (tile_big_apart _ _ _ _ HF' _ _ _ _ _ Hk (lookup_insert_eq _ _ _)).
      destruct (big_block _ _ _ _ HF' _ _ (lookup_insert_eq _ _ _)) as (Hz & _ & _ & ?).
      destruct (tile_block _ _ _ _ HF' _ _ _ Hk) as (? & _). unfold apart2, MMAP_THRESHOLD in *. lia.
    + by apply HMn.
    + right. split; [done|]. exists G, B', (<[p - 16 := payload_size_of n]> Bg). split_and!; try done.
      intros q k. rewrite !lookup_insert. destruct (decide (p = q)) as [->|]; [by rewrite decide_True|].
      rewrite decide_False by lia. apply HM.
Qed.

(** ** [release] *)
(** Releasing a heap block, on the concrete invariant. *)
Lemma release_ok (s : astate) (G : tiles) (B : bins) (Bg : bigs) (p n : Z) :
  FInv s G B Bg -> mu (ar s) = false -> G !! (p - 16) = Some (n, Used) -> n < MMAP_THRESHOLD ->
  exists s' G' B', release s p = Some s' /\ FInv s' G' B' Bg /\ mu (ar s') = false /\ maps s' = maps s /\
    same_geo (ar s) (ar s') /\
    (forall c sc, G' !! c = Some (sc, Used) <-> c <> p - 16 /\ G !! c = Some (sc, Used)) /\
    only_differ (aw (ar s) G') (mm s) (mm s') /\
    rest_kept (alloced_heaps (ar s)) G G' (mm s) (mm s') (p - 16).
Proof.
  intros HF Hmu Hp Hn.
  pose proof (F_set_mu s G B Bg true HF) as HF0. set (s0 := with_ar s (set_mu (ar s) true)) in *.
  pose proof HF0 as [HS0 MI0]. pose proof HS0 as [AI0 _].
  destruct (tile_block _ _ _ _ HF _ _ _ Hp) as (Hn32 & _ & Hpos & _).
  assert (exists s', _release s0 p = Some s' /\ release_post s0 s' G (p - 16)) as (s' & E & HP).
  { unfold _release. destruct (Z.eqb_spec p 0); [lia|]. unfold HEADER_SIZE.
    rewrite (A_usize AI0 _ _ _ Hp). destruct (Z.eqb_spec n 0); [lia|]. cbn [negb c_assert mbind option_bind].
    destruct (Z.leb_spec MMAP_THRESHOLD n); [lia|]. unfold FASTBINS_COUNT.
    destruct (Z.leb_spec n (16 * 7)).
    - by eapply release_fast.
    - by eapply release_coalesce. }
  unfold release. rewrite Hmu. cbn [negb c_assert mbind option_bind]. fold s0. rewrite E. cbn [mbind option_bind].
  destruct HP as (G' & B' & HS' & Em & Hg & Hu & D & HK).
  assert (MInv s' Bg) as MI' by (by eapply (M_inside s0 s' G')).
  eexists _, G', B'. split; [done|]. split_and!; try done; [by apply F_set_mu|].
  destruct Hg as (? & ? & ? & ? & ? & ? & ?). split_and!; done.
Qed.

Lemma repr_release_heap (s : astate) (L M : gmap Z Z) (p n : Z) :
  repr s L M -> L !! p = Some n -> n < MMAP_THRESHOLD ->
  exists s', release s p = Some s' /\ repr s' (delete p L) M /\ maps s' = maps s /\
    kept (delete p L) M (mm s) (mm s').
Proof.
  intros (G & B & Bg & HF & Hmu & HL & HM) Hp Hn. apply HL in Hp.
  destruct (release_ok s G B Bg p n HF Hmu Hp Hn) as (s' & G' & B' & E & HF' & Hmu' & Em & _ & Hu & D & _).
  assert (forall q k, delete p L !! q = Some k <-> G' !! (q - 16) = Some (k, Used)) as HL'.
  { intros q k. rewrite Hu, <- HL, lookup_delete_Some. intuition lia. }
  exists s'. split; [done|]. split_and!; try done.
  - exists G', B', Bg. done.
  - intros q k x [Hq|Hq] Hx; apply D; intros [Ha Hnp].
    + apply Hnp. exists (q - 16), k. split; [by apply HL'|lia].
    + apply HM in Hq. destruct (big_block _ _ _ _ HF _ _ Hq) as (_ & _ & _ & ?).
      destruct HF as [_ MI]. destruct (in_arena_big _ _ _ _ _ MI Hq Ha); lia.
Qed.

(** After [munmap] the range is not mapped any more. *)
Lemma munmap_gone (ms : list (Z * Z)) (a len x : Z) :
  a mod page_size = 0 -> len <> 0 -> a <= x < a + align_page len -> ~ mapped (sys_munmap ms a len) x.
Proof.
  intros Ha Hl Hx (s & e & Hin & Hse). unfold sys_munmap in Hin. rewrite Ha, Z.eqb_refl in Hin.
  destruct (Z.eqb_spec len 0); [done|]. cbn [andb negb] in Hin.
  apply list_elem_of_join in Hin as (l & Hin & Hl'). apply list_elem_of_fmap in Hl' as ([s0 e0] & -> & _).
  unfold unmap_piece in Hin.
  destruct (Z.leb_spec e0 a); simpl in Hin; [apply list_elem_of_singleton in Hin; simplify_eq; lia|].
  destruct (Z.leb_spec (a + align_page len) s0); simpl in Hin;
    [apply list_elem_of_singleton in Hin; simplify_eq; lia|].
  apply elem_of_app in Hin as [Hin|Hin]; zcases_in Hin; rewrite ?list_elem_of_singleton, ?elem_of_nil in Hin;
    simplify_eq; try done; lia.
Qed.

Lemma repr_release_mapped (s : astate) (L M : gmap Z Z) (p n : Z) :
  repr s L M -> M !! p = Some n ->
  exists s', release s p = Some s' /\ repr s' L (delete p M) /\ mm s' = mm s /\
    forall x, p <= x < p + n -> ~ mapped (maps s') x.
Proof.
  intros (G & B & Bg & HF & Hmu & HL & HM) Hp. pose proof Hp as Hp0. apply HM in Hp.
  pose proof HF as [[AI HS] MI]. destruct (M_big _ _ MI _ _ Hp) as (Hn & Hn16 & Hpg & Hpos & He & Hn61 & _ & Eh).
  destruct (big_block _ _ _ _ HF _ _ Hp) as (_ & _ & _ & Hext).
  set (s1 := with_maps s (sys_munmap (maps s) (p - 16) (n + 16))).
  assert (release s p = Some s1) as E.
  { unfold release, _release. rewrite Hmu. cbn [negb c_assert mbind option_bind].
    destruct (Z.eqb_spec p 0); [lia|]. unfold HEADER_SIZE. cbn [mm maps with_ar].
    rewrite get_size_hdr by (rewrite Eh; unfold MMAP_THRESHOLD in *; lia). rewrite Eh.
    rewrite (uwrap_small 64 n) by (unfold in_uint, MMAP_THRESHOLD in *; lia).
    destruct (Z.eqb_spec n 0); [unfold MMAP_THRESHOLD in *; lia|]. cbn [negb c_assert mbind option_bind].
    destruct (Z.leb_spec MMAP_THRESHOLD n); [|lia]. cbn [mbind option_bind].
    rewrite (uwrap_small 64 (n + 16)) by (unfold in_uint, MMAP_THRESHOLD in *; lia).
    unfold s1, with_maps, with_ar. simpl. do 3 f_equal. destruct (ar s); simpl in *; by subst. }
  assert (forall lo hi, covered (maps s) lo hi -> lo < hi -> apart2 lo hi (p - 16) (big_end (p - 16) n) ->
    covered (maps s1) lo hi) as Hcov.
  { intros lo hi Hc Hlt Ha. apply munmap_covered; try done. unfold MMAP_THRESHOLD in *. lia. }
  exists s1. split_and!; try done.
  - exists G, B, (delete (p - 16) Bg). split_and!; try done.
    + split; [split; [exact AI|done]|]. split; change (ar s1) with (ar s); change (mm s1) with (mm s).
      * intros h Hh. apply Hcov; [by apply MI|destruct (H_heap _ _ _ _ (A_H _ _ _ _ _ AI) _ Hh) as (_ & _ & _ & ?); lia|].
        destruct (M_big_heap _ _ MI _ _ h Hp Hh); unfold apart2; lia.
      * intros b Vb. apply Hcov; [by apply MI|lia|]. destruct (M_big_head _ _ MI _ _ b Hp Vb); unfold apart2; lia.
      * intros c z Hc. rewrite lookup_delete_Some in Hc. destruct Hc as [Hne Hc].
        destruct (M_big _ _ MI _ _ Hc) as (? & ? & ? & ? & ? & ? & Hcc & ?).
        destruct (big_block _ _ _ _ HF _ _ Hc) as (Hz & _ & _ & ?). unfold MMAP_THRESHOLD in Hz.
        split_and!; try done. apply Hcov; [done|lia|]. apply (M_big_big _ _ MI); done.
      * intros c z h [_ Hc]%lookup_delete_Some. by apply MI.
      * intros c z b [_ Hc]%lookup_delete_Some. by apply MI.
      * intros c z c' z' [_ Hc]%lookup_delete_Some [_ Hc']%lookup_delete_Some. by apply MI.
      * apply MI.
      * apply MI.
    + intros q k. rewrite !lookup_delete_Some, HM. intuition lia.
  - intros x Hx. unfold s1. cbn [maps with_maps]. unfold big_end, MMAP_THRESHOLD in *. apply munmap_gone; [done|lia|lia].
Qed.
End main.
