(* ===== verification/AllocCreate.v ===== *)
(** * AllocCreate: a new arena is well formed *)

From Stdlib Require Import Sorted.
From S2P Require Import Prelude Mem Dll Alloc AllocFacts AllocInv AllocBins AllocLink AllocSafe.
From S2P Require Import AllocSearch AllocOs AllocTop AllocRelease AllocMain.

(** The [n] sentinels from [curr] on. *)
Definition sentinels (curr : Z) (n : nat) : list Z := (fun i => curr + 48 * Z.of_nat i) <$> seq 0 n.

Lemma sentinels_S (curr : Z) (n : nat) : sentinels curr (S n) = curr :: sentinels (curr + 48) n.
Proof.
  unfold sentinels. simpl. f_equal; [lia|]. rewrite <- (fmap_S_seq 0 n), <- list_fmap_compose.
  apply list_fmap_ext. intros i x _. simpl. lia.
Qed.

Lemma sentinels_nth (curr : Z) (n i : nat) : (i < n)%nat -> nth i (sentinels curr n) 0 = curr + 48 * Z.of_nat i.
Proof.
  intros Hi. unfold sentinels. rewrite nth_lookup, list_lookup_fmap, lookup_seq_lt by done. done.
Qed.

(** [fc] linked to itself by the field at offset [o]. *)
Definition self (m : mem) (fc o : Z) : Prop := ld m (fc + o) = fc.

Lemma init_bins_spec (init : mem -> Z -> mem) (offs : list Z) :
  (forall m fc, only_differ (fun x => fc + 16 <= x < fc + 48) m (init m fc)) ->
  (forall m fc o, o ∈ offs -> self (init m fc) fc o) -> (forall o, o ∈ offs -> 16 <= o < 48) ->
  forall n m curr, exists m', init_bins init n m curr = (m', sentinels curr n) /\
    only_differ (fun x => curr <= x < curr + 48 * Z.of_nat n) m m' /\
    (forall i o, (i < n)%nat -> o ∈ offs -> self m' (curr + 48 * Z.of_nat i) o).
Proof.
  intros Hd Hs Ho n. induction n as [|n IH]; intros m curr.
  { exists m. split_and!; try done. intros; lia. }
  cbn [init_bins]. destruct (IH (st (init m curr) (curr + o_size) 0) (curr + sizeof_free_chunk)) as (m' & E & D & Q).
  unfold sizeof_free_chunk in *. rewrite E. exists m'. split_and!.
  - by rewrite sentinels_S.
  - intros x Hx. rewrite D by lia. unfold o_size. rewrite ld_st_ne by lia. apply Hd. lia.
  - intros [|i] o Hi Hin; unfold self in *.
    + replace (curr + 48 * Z.of_nat 0) with curr by lia. pose proof (Ho o Hin).
      rewrite D by lia. unfold o_size. rewrite ld_st_ne by lia. by apply Hs.
    + replace (curr + 48 * Z.of_nat (S i)) with (curr + 48 + 48 * Z.of_nat i) by lia. apply Q; [lia|done].
Qed.

Section create.
Context `{OSLaws}.

(** The index of a sentinel in the block: small bins, large bins, unsorted. *)
Definition slot (b : bin) : Z :=
  match b with BSmall i => Z.of_nat i | BLarge i => 32 + Z.of_nat i | BUnsorted => 96 end.

Definition empty_bins : bins := Bins (fun _ => []) (fun _ => []) (fun _ => []).

(** The empty arena at [base], before its first heap. *)
Definition empty_arena (base : Z) : arena :=
  Arena (replicate 7 NULL) NULL (base + 48 * 96) (sentinels base 32) (sentinels (base + 48 * 32) 64) false 0 0 [].

Lemma empty_head (base : Z) (b : bin) : valid_bin b -> head_of (empty_arena base) b = base + 48 * slot b.
Proof.
  unfold head_of, empty_arena. destruct b as [|i|i]; cbn [smallbins largebins unsortedbin slot valid_bin];
    intros Hv; [done| |]; rewrite sentinels_nth by done; lia.
Qed.

Lemma slot_range (b : bin) : valid_bin b -> 0 <= slot b <= 96.
Proof. destruct b; simpl; lia. Qed.

Lemma slot_inj (b b' : bin) : valid_bin b -> valid_bin b' -> slot b = slot b' -> b = b'.
Proof. destruct b, b'; simpl; intros; try done; try lia; f_equal; lia. Qed.

Lemma empty_inv (m : mem) (ms : list (Z * Z)) (base : Z) :
  0 < base -> covered ms base (base + 48 * 97) ->
  (forall b, valid_bin b -> self m (base + 48 * slot b) o_fd /\ self m (base + 48 * slot b) o_bk) ->
  (forall i, (i < 64)%nat -> self m (base + 48 * slot (BLarge i)) o_next_sizeptr /\
                          self m (base + 48 * slot (BLarge i)) o_prev_sizeptr) ->
  FInv (AState m ms (empty_arena base)) ∅ empty_bins ∅.
Proof.
  intros Hb Hcov Hfd Hsz. split; [split; [split|]|].
  - split; cbn [alloced_heaps top_chunk empty_arena mm ar]; try done;
      first [ intros a s st Ha; by rewrite lookup_empty in Ha
            | intros a s Ha; by rewrite lookup_empty in Ha
            | intros b [? Hb']; by rewrite lookup_empty in Hb'
            | intros h Hh; by apply elem_of_nil in Hh
            | intros h h' Hh; by apply elem_of_nil in Hh ].
  - split; cbn [bl sl fl empty_bins mm ar]; try done;
      try (intros b x Hx; by apply elem_of_nil in Hx);
      try (intros b b' x Hx; by apply elem_of_nil in Hx);
      try (intros x s Hx; by rewrite lookup_empty in Hx).
    + intros b Vb. rewrite empty_head by done. destruct (Hfd b Vb). by apply dll_nil.
    + intros i Hi. rewrite (empty_head base (BLarge i)) by done. destruct (Hsz i Hi). by apply dll_nil.
    + intros i. constructor.
    + intros i Hi. do 7 (destruct i as [|i]; [done|]). lia.
    + intros i. apply NoDup_nil_2.
  - split; cbn [ar].
    + intros b Vb. rewrite empty_head by done. pose proof (slot_range b Vb). lia.
    + intros b h _ Hh. simpl in Hh. by apply elem_of_nil in Hh.
    + intros b b' Vb Vb'. rewrite !empty_head by done.
      destruct (decide (slot b = slot b')); [left; by apply slot_inj|lia].
  - intros x s st Hx. simpl in Hx. by rewrite lookup_empty in Hx.
  - split; cbn [mm ar maps]; try (intros *; rewrite lookup_empty; done).
    + intros h Hh. by apply elem_of_nil in Hh.
    + intros b Vb. rewrite empty_head by done. pose proof (slot_range b Vb).
      destruct Hcov as (lo & hi & ? & ? & ?). exists lo, hi. split; [done|lia].
    + cbn. lia.
    + apply NoDup_nil_2.
Qed.

Lemma set_fdbk_self (m : mem) (fc : Z) :
  self (set_fdbk_to m fc fc) fc o_fd /\ self (set_fdbk_to m fc fc) fc o_bk /\
  only_differ (fun x => fc + 16 <= x < fc + 32) m (set_fdbk_to m fc fc).
Proof.
  unfold self, set_fdbk_to, o_fd, o_bk. split_and!; ld_steps; try done.
  intros x Hx. by rewrite !ld_st_ne by lia.
Qed.

Lemma set_sizeptr_self (m : mem) (fc : Z) :
  self (set_nextprev_sizeptr_to m fc fc) fc o_next_sizeptr /\
  self (set_nextprev_sizeptr_to m fc fc) fc o_prev_sizeptr /\
  only_differ (fun x => fc + 32 <= x < fc + 48) m (set_nextprev_sizeptr_to m fc fc).
Proof.
  unfold self, set_nextprev_sizeptr_to, o_next_sizeptr, o_prev_sizeptr. split_and!; ld_steps; try done.
  intros x Hx. by rewrite !ld_st_ne by lia.
Qed.

(** The store [arena_create] leaves before it grows the first heap. *)
Definition init_mem (m : mem) (curr : Z) : mem * list Z * list Z :=
  let '(m, small) := init_bins (fun m fc => set_fdbk_to m fc fc) 32 m curr in
  let '(m, large) := init_bins (fun m fc => set_nextprev_sizeptr_to (set_fdbk_to m fc fc) fc fc) 64 m
                       (curr + 32 * 48) in
  let ufc := curr + 32 * 48 + 64 * 48 in
  (st (set_fdbk_to m ufc ufc) (ufc + o_size) 0, small, large).

Lemma init_mem_spec (m : mem) (base : Z) :
  exists m', init_mem m base = (m', sentinels base 32, sentinels (base + 48 * 32) 64) /\
  (forall b, valid_bin b -> self m' (base + 48 * slot b) o_fd /\ self m' (base + 48 * slot b) o_bk) /\
  (forall i, (i < 64)%nat -> self m' (base + 48 * slot (BLarge i)) o_next_sizeptr /\
                          self m' (base + 48 * slot (BLarge i)) o_prev_sizeptr).
Proof.
  destruct (init_bins_spec (fun m fc => set_fdbk_to m fc fc) [o_fd; o_bk]) with (n := 32%nat) (m := m) (curr := base)
    as (m1 & E1 & D1 & Q1).
  { intros m0 fc. eapply only_differ_weaken; [|apply set_fdbk_self]. simpl. lia. }
  { intros m0 fc o. rewrite !elem_of_cons, elem_of_nil. intros [->|[->|[]]]; apply set_fdbk_self. }
  { intros o. rewrite !elem_of_cons, elem_of_nil. unfold o_fd, o_bk. lia. }
  destruct (init_bins_spec (fun m fc => set_nextprev_sizeptr_to (set_fdbk_to m fc fc) fc fc)
    [o_fd; o_bk; o_next_sizeptr; o_prev_sizeptr]) with (n := 64%nat) (m := m1) (curr := base + 48 * 32)
    as (m2 & E2 & D2 & Q2).
  { intros m0 fc x Hx. cbv beta in Hx.
    destruct (set_sizeptr_self (set_fdbk_to m0 fc fc) fc) as (_ & _ & D). rewrite D by lia.
    apply set_fdbk_self. lia. }
  { intros m0 fc o. destruct (set_sizeptr_self (set_fdbk_to m0 fc fc) fc) as (S1 & S2 & D).
    destruct (set_fdbk_self m0 fc) as (S3 & S4 & _). unfold self, o_fd, o_bk in *.
    rewrite !elem_of_cons, elem_of_nil. intros [->|[->|[->|[->|[]]]]]; try done; rewrite D by lia; done. }
  { intros o. rewrite !elem_of_cons, elem_of_nil. unfold o_fd, o_bk, o_next_sizeptr, o_prev_sizeptr. lia. }
  unfold init_mem. rewrite E1. replace (base + 32 * 48) with (base + 48 * 32) by lia. rewrite E2.
  eexists. split; [done|].
  set (ufc := base + 48 * 32 + 64 * 48) in *. set (m3 := st _ _ _).
  assert (only_differ (fun x => ufc <= x < ufc + 48) m2 m3) as D3.
  { intros x Hx. unfold m3, o_size. rewrite ld_st_ne by lia. apply set_fdbk_self. lia. }
  split.
  - intros [|i|i] Vb; cbn [slot valid_bin] in *.
    + replace (base + 48 * 96) with ufc by lia. unfold self, m3, o_size, o_fd, o_bk.
      rewrite !ld_st_ne by lia. destruct (set_fdbk_self m2 ufc) as (? & ? & _). done.
    + assert (forall o, 16 <= o < 48 -> ld m3 (base + 48 * Z.of_nat i + o) = ld m1 (base + 48 * Z.of_nat i + o)) as F.
      { intros o Ho. rewrite D3, D2 by lia. done. }
      split; unfold self; rewrite F by (unfold o_fd, o_bk; lia); apply Q1; try assumption; rewrite !elem_of_cons; auto.
    + assert (forall o, 16 <= o < 48 -> ld m3 (base + 48 * (32 + Z.of_nat i) + o)
        = ld m2 (base + 48 * 32 + 48 * Z.of_nat i + o)) as F.
      { intros o Ho. rewrite D3 by lia. f_equal. lia. }
      replace (base + 48 * (32 + Z.of_nat i)) with (base + 48 * 32 + 48 * Z.of_nat i) in * by lia.
      split; unfold self; rewrite F by (unfold o_fd, o_bk; lia); apply Q2; try assumption; rewrite !elem_of_cons; auto.
  - intros i Hi. cbn [slot].
    assert (forall o, 16 <= o < 48 -> ld m3 (base + 48 * (32 + Z.of_nat i) + o)
      = ld m2 (base + 48 * 32 + 48 * Z.of_nat i + o)) as F.
    { intros o Ho. rewrite D3 by lia. f_equal. lia. }
    replace (base + 48 * (32 + Z.of_nat i)) with (base + 48 * 32 + 48 * Z.of_nat i) in * by lia.
    split; unfold self; rewrite F by (unfold o_next_sizeptr, o_prev_sizeptr; lia); apply Q2; try assumption; rewrite !elem_of_cons; auto.
Qed.

(** The bytes [arena_create] asks for: the record and 97 sentinels. *)
Definition arena_bytes : Z := align_page (sizeof_arena + 32 * 48 + 64 * 48 + 48).

Lemma repr_arena_create (m : mem) (ms : list (Z * Z)) :
  (forall n, 0 < n <= 2 ^ 40 -> is_Some (sys_mmap ms n)) ->
  (forall p n, sys_mmap ms arena_bytes = Some p -> 0 < n <= 2 ^ 40 ->
     is_Some (sys_mmap ((p, p + align_page arena_bytes) :: ms) n)) ->
  exists s, arena_create m ms = Some s /\ repr s ∅ ∅ /\ length (alloced_heaps (ar s)) = 1%nat /\
    exists r1 r2, maps s = r1 :: r2 :: ms.
Proof.
  intros Hmm Hmm2. unfold arena_create. cbv zeta.
  unfold SMALLBINS_COUNT, LARGEBINS_COUNT, FASTBINS_COUNT, sizeof_free_chunk.
  set (needed := sizeof_arena + 32 * 48 + 64 * 48 + 48).
  destruct mutex_size as [Hmx _]. destruct page_facts as [Hpg _].
  assert (0 < sizeof_arena <= 2 ^ 20) as Hsz by (unfold sizeof_arena; lia).
  destruct (align_page_spec needed) as [Hn _]; [unfold needed; lia|].
  destruct (Hmm (align_page needed)) as [p Hp]; [unfold needed in *; lia|].
  destruct (align_page_spec (align_page needed)) as [Hn2 _]; [unfold needed in *; lia|].
  pose proof (mmap_pos _ _ _ Hp).
  unfold alloc_memory. rewrite Hp. cbn [mbind option_bind]. destruct (Z.eqb_spec p 0); [lia|].
  cbn [negb c_assert mbind option_bind]. set (m0 := zero_region _ _ _).
  set (ms1 := (p, p + align_page (align_page needed)) :: ms). set (base := p + sizeof_arena).
  destruct (init_mem_spec m0 base) as (m' & E & Q1 & Q2).
  assert (FInv (AState m' ms1 (empty_arena base)) ∅ empty_bins ∅) as HF.
  { apply empty_inv; [lia| |done|done]. exists p, (p + align_page (align_page needed)).
    split; [by left|]. unfold needed, base in *. lia. }
  destruct (grow_heap_ok _ ∅ empty_bins ∅ HF) as
    (s' & q & sz & Eg & HF' & _ & _ & _ & Emu & _ & _ & (h & Eh) & (r & Er)).
  { done. } { cbn. lia. }
  { intros k Hk. by apply (Hmm2 p). }
  exists s'. split; [|split; [|split]].
  - rewrite <- Eg. unfold init_mem in E.
    change (Z.to_nat 32) with 32%nat. change (Z.to_nat 64) with 64%nat. fold base.
    destruct (init_bins _ 32 m0 base) as [ma small]. destruct (init_bins _ 64 ma _) as [mb large].
    injection E as E1 E2 E3. rewrite <- E1, E2, E3. unfold empty_arena.
    replace (base + 48 * 96) with (base + 32 * 48 + 64 * 48) by lia. done.
  - exists (<[q := (sz, Top)]> ∅), empty_bins, ∅. split_and!; try done.
    intros a k. rewrite lookup_empty, lookup_insert. case_decide; [|rewrite lookup_empty]; split; congruence.
  - rewrite Eh. done.
  - rewrite Er. eauto.
Qed.
End create.
