(* ===== verification/AllocFuel.v ===== *)
(** * AllocFuel: the loop budget does not matter

    The loops of alloc.c that follow links are translated with a budget.
    A run that succeeds gives the same result with any larger budget. *)

From S2P Require Import Prelude Mem Alloc.

(** [f] needs at most the budget it was given. *)
Definition grows {A} (f : nat -> option A) : Prop :=
  forall n n' x, (n <= n')%nat -> f n = Some x -> f n' = Some x.

Lemma grows_const {A} (o : option A) : grows (fun _ => o).
Proof. by intros n n' x _. Qed.

Lemma grows_bind {A B} (f : nat -> option A) (k : nat -> A -> option B) :
  grows f -> (forall x, grows (fun n => k n x)) -> grows (fun n => f n ≫= k n).
Proof.
  intros Hf Hk n n' y Hn. destruct (f n) as [x|] eqn:E; [|done]. simpl. intros Hy.
  rewrite (Hf n n' x Hn E). simpl. by eapply Hk.
Qed.

Lemma grows_if {A} (b : bool) (f g : nat -> option A) :
  grows f -> grows g -> grows (fun n => if b then f n else g n).
Proof. by destruct b. Qed.

Lemma find_ceil_grows (m : mem) (head size c : Z) : grows (fun n => find_ceil n m head size c).
Proof.
  intros n. revert c. induction n as [|n IH]; intros c [|n'] x Hn; simpl; try lia; try done.
  - by destruct (_ && _).
  - destruct (_ && _); [|done]. apply IH. lia.
Qed.

Section os.
Context `{OS}.

Lemma insert_into_largebin_grows (s : astate) (fc : Z) : grows (fun n => insert_into_largebin n s fc).
Proof.
  unfold insert_into_largebin. apply grows_bind; [apply grows_const|]. intros _.
  apply grows_bind; [apply grows_const|]. intros head.
  apply grows_bind; [apply grows_const|]. intros _.
  apply grows_bind; [apply find_ceil_grows|]. intros c. apply grows_const.
Qed.

Lemma unsortedbin_loop_grows (r : Z) (n : nat) : forall nl n' nl' s c x,
  (n <= n')%nat -> (nl <= nl')%nat ->
  unsortedbin_loop n nl s c r = Some x -> unsortedbin_loop n' nl' s c r = Some x.
Proof.
  induction n as [|n IH]; intros nl n' nl' s c x Hn Hnl.
  - simpl. intros Hx. destruct n'; simpl; destruct (_ =? _); try done;
      destruct (_ <=? _); try done; exfalso; revert Hx;
      match goal with |- (?o ≫= _) = _ -> _ => destruct o end; done.
  - destruct n' as [|n']; [lia|]. cbn [unsortedbin_loop].
    destruct (_ =? _); [done|]. destruct (_ <=? _); [done|].
    match goal with |- (?o ≫= _) = _ -> _ => destruct o as [s1|] eqn:E end; [|done].
    cbn [mbind option_bind]. intros Hx.
    match goal with |- (?o ≫= _) = _ => assert (o = Some s1) as -> end.
    { revert E. destruct (_ <? _); [done|]. intros E. by eapply insert_into_largebin_grows. }
    cbn [mbind option_bind]. eapply IH; [| |exact Hx]; lia.
Qed.

Lemma largebin_scan_grows (s : astate) (head r c : Z) : grows (fun n => largebin_scan n s head c r).
Proof.
  intros n. revert c. induction n as [|n IH]; intros c [|n'] x Hn; simpl; try lia; try done.
  - destruct (_ =? _); [done|]. by destruct (_ <=? _).
  - destruct (_ =? _); [done|]. destruct (_ <=? _); [done|]. apply IH. lia.
Qed.

Lemma largebin_loop_grows (heads : list Z) (r : Z) : forall s, grows (fun n => largebin_loop n s heads r).
Proof.
  induction heads as [|h heads IH]; intros s; cbn [largebin_loop]; [apply grows_const|].
  apply grows_bind; [apply grows_const|]. intros _. apply grows_if; [apply IH|].
  apply grows_bind; [apply largebin_scan_grows|]. intros [v s1].
  apply grows_if; [apply IH|apply grows_const].
Qed.

Lemma try_next_grows (c : bool) (f : nat -> astate -> option (Z * astate)) (vs : Z * astate) :
  (forall s, grows (fun n => f n s)) -> grows (fun n => try_next c (f n) vs).
Proof. intros Hf. unfold try_next. apply grows_if; [apply Hf|apply grows_const]. Qed.

Lemma allocate_grows (s : astate) (r : Z) : grows (fun n => allocate n s r).
Proof.
  unfold allocate. apply grows_bind; [apply grows_const|]. intros _.
  apply grows_bind; [|intros [p s1]; apply grows_const].
  unfold _allocate. apply grows_if; [apply grows_const|]. cbv zeta.
  apply grows_bind; [apply grows_const|]. intros r1.
  apply grows_bind; [apply grows_const|]. intros r2.
  apply grows_bind; [apply grows_const|]. intros r3.
  apply grows_bind.
  { apply (try_next_grows true (fun n s => unsortedbin_search n s (payload_size_of r))).
    intros s0 n n' x Hn. by apply unsortedbin_loop_grows. }
  intros r4. apply grows_bind.
  { apply (try_next_grows true (fun n s => largebin_search n s (payload_size_of r))).
    intros s0. unfold largebin_search. apply grows_if; [apply grows_const|apply largebin_loop_grows]. }
  intros r5. apply grows_const.
Qed.

Lemma allocate_same (s : astate) (r : Z) (n n' : nat) (x x' : Z * astate) :
  allocate n s r = Some x -> allocate n' s r = Some x' -> x = x'.
Proof.
  intros E E'. pose proof (allocate_grows s r n (max n n') x ltac:(lia) E) as E1.
  pose proof (allocate_grows s r n' (max n n') x' ltac:(lia) E') as E2. simpl in *. congruence.
Qed.
End os.
