(* ===== verification/AllocRoom.v ===== *)
(** * AllocRoom: room for several allocations

    An allocation adds at most two heaps and two mappings, a release of a
    heap block none, so a caller can ask beforehand for room for a number
    of allocations. *)

From S2P Require Import Prelude Mem Alloc AllocFacts AllocInv AllocBins AllocSafe AllocOs AllocTop AllocMain.

(** Split a successful run of the option monad into its steps. *)
Ltac unbind :=
  repeat match goal with
    | H : (?o ≫= _) = Some _ |- _ => destruct o eqn:?; [cbn [mbind option_bind] in H|discriminate H]
    | H : Some _ = Some _ |- _ => injection H as H; try subst
    | H : None = Some _ |- _ => discriminate H
    | H : (_, _) = (_, _) |- _ => injection H as ? ?; subst
    | H : context [let '(_, _) := ?x in _] |- _ => is_var x; destruct x
    | H : (if ?b then _ else _) = Some _ |- _ => destruct b eqn:?
    end.

Section room.
Context `{OSLaws}.

(** The parts of the state that heaps and mappings are added to. *)
Definition same_os (s s' : astate) : Prop :=
  maps s' = maps s /\ alloced_heaps (ar s') = alloced_heaps (ar s) /\
  heap_expo_growth_iters (ar s') = heap_expo_growth_iters (ar s) /\
  heap_constant_growth_iters (ar s') = heap_constant_growth_iters (ar s) /\
  forall b, head_of (ar s') b = head_of (ar s) b.

Lemma same_os_refl (s : astate) : same_os s s.
Proof. done. Qed.

Lemma same_os_trans (s s1 s2 : astate) : same_os s s1 -> same_os s1 s2 -> same_os s s2.
Proof. intros (?&?&?&?&Hb) (?&?&?&?&Hb'). split_and!; congruence. Qed.

Ltac same_os_run := intros; unbind; done.

Lemma fastbin_insert_os (s s' : astate) (fc : Z) : insert_into_fastbin s fc = Some s' -> same_os s s'.
Proof. unfold insert_into_fastbin. cbv zeta. same_os_run. Qed.

Lemma smallbin_insert_os (s s' : astate) (fc : Z) : insert_into_smallbin s fc = Some s' -> same_os s s'.
Proof. unfold insert_into_smallbin. cbv zeta. same_os_run. Qed.

Lemma largebin_insert_os (fuel : nat) (s s' : astate) (fc : Z) : insert_into_largebin fuel s fc = Some s' -> same_os s s'.
Proof. unfold insert_into_largebin. cbv zeta. same_os_run. Qed.

Lemma unsorted_insert_os (s s' : astate) (fc : Z) : insert_into_unsortedbin s fc = Some s' -> same_os s s'.
Proof. unfold insert_into_unsortedbin. cbv zeta. same_os_run. Qed.

Lemma split_os (s s' : astate) (c cs r v : Z) : split_or_take s c cs r = Some (v, s') -> same_os s s'.
Proof.
  unfold split_or_take. cbv zeta. intros E. unbind; [|done].
  match goal with H : insert_into_unsortedbin _ _ = Some _ |- _ => apply unsorted_insert_os in H end. done.
Qed.

Lemma fastbin_search_os (s s' : astate) (r v : Z) : fastbin_search s r = Some (v, s') -> same_os s s'.
Proof. unfold fastbin_search. cbv zeta. same_os_run. Qed.

Lemma smallbin_search_os (s s' : astate) (r v : Z) : smallbin_search s r = Some (v, s') -> same_os s s'.
Proof. unfold smallbin_search. cbv zeta. same_os_run. Qed.

Lemma largebin_scan_os (fuel : nat) : forall (s s' : astate) (h c r v : Z),
  largebin_scan fuel s h c r = Some (v, s') -> same_os s s'.
Proof.
  induction fuel as [|fuel IH]; intros s s' h c r v; cbn [largebin_scan]; cbv zeta; intros E; unbind; try done.
  - apply split_os in E. done.
  - apply split_os in E. done.
  - by apply IH in E.
Qed.

Lemma largebin_loop_os (fuel : nat) (hs : list Z) : forall (s s' : astate) (r v : Z),
  largebin_loop fuel s hs r = Some (v, s') -> same_os s s'.
Proof.
  induction hs as [|h hs IH]; intros s s' r v; cbn [largebin_loop]; intros E; unbind; try done.
  - by apply IH in E.
  - match goal with H : largebin_scan _ _ _ _ _ = Some _ |- _ => apply largebin_scan_os in H end.
    apply IH in E. by eapply same_os_trans.
  - by match goal with H : largebin_scan _ _ _ _ _ = Some _ |- _ => apply largebin_scan_os in H end.
Qed.

Lemma largebin_search_os (fuel : nat) (s s' : astate) (r v : Z) : largebin_search fuel s r = Some (v, s') -> same_os s s'.
Proof. unfold largebin_search. cbv zeta. intros E. unbind; [done|]. by apply largebin_loop_os in E. Qed.

Lemma unsortedbin_loop_os (fl fuel : nat) : forall (s s' : astate) (c r v : Z),
  unsortedbin_loop fuel fl s c r = Some (v, s') -> same_os s s'.
Proof.
  induction fuel as [|fuel IH]; intros s s' c r v; cbn [unsortedbin_loop]; cbv zeta; intros E; unbind; try done;
    try (apply split_os in E; done);
    match goal with
    | H : insert_into_smallbin _ _ = Some _ |- _ => apply smallbin_insert_os in H
    | H : insert_into_largebin _ _ _ = Some _ |- _ => apply largebin_insert_os in H
    end; apply IH in E; by eapply same_os_trans.
Qed.

(** ** Growth *)

(** At most one mapping and one heap, inside it, are added. *)
Definition os_step (s s' : astate) : Prop :=
  exists n p, 0 < n <= 2 ^ 40 /\ sys_mmap (maps s) n = Some p /\ maps s' = (p, p + align_page n) :: maps s /\
    (length (alloced_heaps (ar s')) <= S (length (alloced_heaps (ar s))))%nat /\
    0 <= heap_expo_growth_iters (ar s') <= 7 /\ 0 <= heap_constant_growth_iters (ar s') /\
    heap_expo_growth_iters (ar s') + heap_constant_growth_iters (ar s') <= heap_expo_growth_iters (ar s) + heap_constant_growth_iters (ar s) + 1 /\
    (forall b, head_of (ar s') b = head_of (ar s) b) /\
    (forall h, h ∈ alloced_heaps (ar s') -> h ∈ alloced_heaps (ar s) \/ (p <= heap_start h /\ heap_end h + 32 <= p + align_page n)).

(** The growth counters are in the range [grow_size] needs. *)
Definition iters_ok (s : astate) (k : Z) : Prop :=
  0 <= heap_expo_growth_iters (ar s) <= 7 /\ 0 <= heap_constant_growth_iters (ar s) /\
  heap_expo_growth_iters (ar s) + heap_constant_growth_iters (ar s) + k <= 160.

Lemma alloc_chunk_os (s s' : astate) (n v : Z) : 0 <= n <= 2 ^ 39 + 64 -> alloc_chunk s n = Some (v, s') ->
  ar s' = ar s /\ exists p k, (0 < k <= 2 ^ 40 /\ v = p /\ n + 16 <= align_page k) /\ sys_mmap (maps s) k = Some p /\
    maps s' = (p, p + align_page k) :: maps s.
Proof.
  intros Hn. unfold alloc_chunk, alloc_memory. cbv zeta. rewrite (uwrap_small 64 (n + HEADER_SIZE)).
  2:{ unfold in_uint, HEADER_SIZE. lia. }
  set (k := align16 (n + HEADER_SIZE)). intros E.
  destruct (sys_mmap (maps s) k) as [p|] eqn:Ep; [|done]. cbn [mbind option_bind] in E. unbind. cbn [ar maps]. split; [done|].
  exists v, k. split; [|done]. assert (n + 16 <= k <= n + 32) as Hk.
  { unfold k, HEADER_SIZE. rewrite align16_spec by lia.
    pose proof (Z.div_mod (n + 16 + 15) 16). pose proof (Z.mod_pos_bound (n + 16 + 15) 16).
    assert (1 <= (n + 16 + 15) / 16) by (apply Z.div_le_lower_bound; lia). lia. }
  destruct (align_page_spec k ltac:(lia)) as [? _]. split_and!; lia.
Qed.

Lemma grow_heap_os (s s' : astate) : iters_ok s 1 -> grow_heap s = Some s' -> os_step s s'.
Proof.
  intros (He & Hc & Hc') E. unfold grow_heap in E. cbv zeta in E.
  destruct (grow_size (ar s)) as (sz & e & c & Eg & Hsz & _ & He' & Hc2 & Hec); [lia..|].
  rewrite Eg in E. unbind.
  match goal with H : alloc_chunk _ _ = Some _ |- _ => apply alloc_chunk_os in H as (Ea & p & k & (Hk & -> & Hkn) & Hp & Em) end.
  2:{ unfold HEAP_BOUNDARY_SIZE. rewrite uwrap_small by (unfold in_uint; lia). lia. }
  unfold HEAP_BOUNDARY_SIZE in Hkn. rewrite uwrap_small in Hkn by (unfold in_uint; lia).
  exists k, p. cbn [maps ar alloced_heaps set_alloced_heaps heap_expo_growth_iters heap_constant_growth_iters].
  rewrite Em, Ea. cbn [ar with_ar maps alloced_heaps set_top_chunk set_constant_iters set_expo_iters heap_expo_growth_iters heap_constant_growth_iters].
  rewrite length_app. cbn [length].
  split_and!; try done; try lia.
  intros h. rewrite elem_of_app, list_elem_of_singleton. intros [Hh| ->]; [by left|right]. cbn [heap_start heap_end].
  unfold HEADER_SIZE. lia.
Qed.

(** Nothing, or one mapping and heap. *)
Definition os_le1 (s s' : astate) : Prop := same_os s s' \/ os_step s s'.

Lemma os_step_same (s s1 s2 : astate) : os_step s s1 -> same_os s1 s2 -> os_step s s2.
Proof.
  intros (n & p & ? & ? & ? & ? & ? & ? & ? & Hb & Hh) (E1 & E2 & E3 & E4 & E5). exists n, p. rewrite E1, E2, E3, E4.
  split_and!; try done; try lia. intros b. by rewrite E5, Hb.
Qed.

Lemma os_same_step (s s1 s2 : astate) : same_os s s1 -> os_step s1 s2 -> os_step s s2.
Proof.
  intros (E1 & E2 & E3 & E4 & E5) (n & p & H1 & H2 & H3 & H4 & H5 & H6 & H7 & Hb & Hh). rewrite E1, E2, E3, E4 in *. exists n, p.
  split_and!; try done; try lia. intros b. by rewrite Hb, E5.
Qed.

Lemma carve_os (s s' : astate) (r v : Z) : iters_ok s 1 -> carve_from_top_chunk s r = Some (v, s') -> os_le1 s s'.
Proof.
  intros Hi. unfold carve_from_top_chunk. cbv zeta. intros E. unbind; try (by left);
    match goal with H : grow_heap _ = Some _ |- _ => apply grow_heap_os in H; [|done] end; right;
    (eapply os_step_same; [eassumption|done]).
Qed.

(** What a whole allocation may add. *)
Definition os_le2 (s s' : astate) : Prop := os_le1 s s' \/ exists s1, os_step s s1 /\ os_step s1 s'.

Lemma os_le1_same (s s1 s2 : astate) : os_le1 s s1 -> same_os s1 s2 -> os_le1 s s2.
Proof. intros [?|?] ?; [left; by eapply same_os_trans|right; by eapply os_step_same]. Qed.

Lemma os_le2_step (s s1 s2 : astate) : os_le1 s s1 -> os_le1 s1 s2 -> os_le2 s s2.
Proof.
  intros [H1|H1] [H2|H2]; [left; left; by eapply same_os_trans|left; right; by eapply os_same_step
    |left; right; by eapply os_step_same|right; eauto].
Qed.

Lemma iters_same (s s' : astate) (k : Z) : same_os s s' -> iters_ok s k -> iters_ok s' k.
Proof. unfold iters_ok. intros (_ & _ & -> & -> & _). done. Qed.

Lemma iters_le1 (s s' : astate) : os_le1 s s' -> iters_ok s 2 -> iters_ok s' 1.
Proof.
  unfold iters_ok. intros [(_ & _ & -> & -> & _)|(n & p & _ & _ & _ & _ & ? & ? & ? & _)] (? & ? & ?); split_and!; lia.
Qed.

Lemma try_next_same (c : bool) (f : astate -> option (Z * astate)) (r r' : Z * astate) :
  (forall s s' v, f s = Some (v, s') -> same_os s s') -> try_next c f r = Some r' -> same_os r.2 r'.2.
Proof.
  intros Hf E. unfold try_next in E. destruct (_ && _); [|by injection E as <-]. destruct r' as [v s']. by apply Hf in E.
Qed.

Lemma try_next_le1 (c : bool) (f : astate -> option (Z * astate)) (r r' : Z * astate) :
  iters_ok r.2 1 -> (forall s s' v, iters_ok s 1 -> f s = Some (v, s') -> os_le1 s s') -> try_next c f r = Some r' -> os_le1 r.2 r'.2.
Proof.
  intros Hi Hf E. unfold try_next in E. destruct (_ && _); [|injection E as <-; by left]. destruct r' as [v s']. by apply Hf in E.
Qed.

Lemma try_next_found (c : bool) (f : astate -> option (Z * astate)) (r r' : Z * astate) :
  r.1 <> NULL -> try_next c f r = Some r' -> r' = r.
Proof. intros Hr E. unfold try_next in E. destruct (Z.eqb_spec r.1 NULL); [done|]. cbn [andb] in E. by injection E as <-. Qed.

(** The rest of an allocation once [alloc_chunk] found nothing to do. *)
Lemma allocate_os (fuel : nat) (s s' : astate) (n v : Z) :
  0 < n <= 2 ^ 39 -> iters_ok s 2 -> allocate fuel s n = Some (v, s') -> os_le2 s s'.
Proof.
  intros Hn Hit E. unfold allocate, _allocate in E. cbv zeta in E. destruct (Z.eqb_spec n 0); [lia|].
  destruct (payload_size_of_spec n) as (? & ? & _ & ?); [lia|]. set (r := payload_size_of n) in *.
  rewrite try_next_null in E. unbind.
  - destruct p0 as [c s0].
    assert (c <> NULL) as Hc.
    { unfold alloc_chunk in Heqo1. cbv zeta in Heqo1. unbind. cbn [fst] in *.
      match goal with H : c_assert (negb (?x =? 0)) = Some _ |- _ => destruct (Z.eqb_spec x 0); [done|] end. done. }
    apply alloc_chunk_os in Heqo1 as (Ea & p & k & (Hk & _) & Hp & Em); [|lia].
    repeat match goal with H : try_next _ _ _ = Some _ |- _ => apply try_next_found in H; [subst|done] end.
    left. right. exists k, p. cbn [snd maps ar with_ar]. rewrite Em, Ea.
    cbn [ar with_ar set_mu alloced_heaps heap_expo_growth_iters heap_constant_growth_iters maps] in *.
    destruct Hit as (? & ? & ?). split_and!; try done; try lia. by left.
  - assert (same_os s (with_ar s (set_mu (ar s) true))) as S0 by done.
    apply try_next_same in Heqo2; [|intros ? ? ?; apply fastbin_search_os].
    apply try_next_same in Heqo3; [|intros ? ? ?; apply smallbin_search_os].
    apply try_next_same in Heqo4; [|intros ? ? ?; apply unsortedbin_loop_os].
    apply try_next_same in Heqo5; [|intros ? ? ?; apply largebin_search_os]. cbn [snd] in *.
    assert (same_os s p4.2) as S4 by (repeat (eapply same_os_trans; [|eassumption]); done).
    pose proof (iters_same _ _ _ S4 Hit) as I4.
    apply try_next_le1 in Heqo6; [| |intros ? ? ?; apply carve_os].
    2:{ destruct I4 as (? & ? & ?). split_and!; try done; lia. }
    pose proof (iters_le1 _ _ Heqo6 I4) as I5.
    apply try_next_le1 in Heqo7; [|done|].
    2:{ intros s1 s2 w Hi Ew. unbind. match goal with H : insert_into_unsortedbin _ _ = Some _ |- _ => apply unsorted_insert_os in H as Hs end.
        apply carve_os in Ew; [|by eapply iters_same].
        destruct Ew as [Ew|Ew]; [left; eapply same_os_trans; [exact Hs|exact Ew]|right; eapply os_same_step; [exact Hs|exact Ew]]. }
    eapply os_le2_step; [|eapply os_le1_same; [exact Heqo7|done]].
    destruct Heqo6 as [Hs|Hs]; [left; by eapply same_os_trans|right; by eapply os_same_step].
Qed.

(** ** Releasing a heap block *)

Lemma release_os (s s' : astate) (p : Z) :
  release s p = Some s' -> size_t (get_size (mm s) (p - HEADER_SIZE)) < MMAP_THRESHOLD -> same_os s s'.
Proof.
  unfold release, _release, coalesce, backward_coalesce, forward_coalesce. cbv zeta. intros E Hp. cbn [mm with_ar] in E. unbind; try done;
    repeat match goal with
    | H : insert_into_fastbin _ _ = Some _ |- _ => apply fastbin_insert_os in H
    | H : insert_into_unsortedbin _ _ = Some _ |- _ => apply unsorted_insert_os in H
    end; try done; cbn [mm with_ar] in *; lia.
Qed.

(** ** Room *)

(** The kernel can serve [k] mappings one after the other. *)
Fixpoint os_room (k : nat) (ms : list (Z * Z)) : Prop :=
  match k with
  | O => True
  | S k => (forall n, 0 < n <= 2 ^ 40 -> is_Some (sys_mmap ms n)) /\
           forall n p, 0 < n <= 2 ^ 40 -> sys_mmap ms n = Some p -> os_room k ((p, p + align_page n) :: ms)
  end.

Lemma os_room_less (k : nat) : forall ms, os_room (S k) ms -> os_room k ms.
Proof. induction k as [|k IH]; intros ms [Ha Hr]; [done|]. split; [done|]. intros n p Hn Hp. by apply IH, (Hr n p). Qed.

(** Room for [k] allocations. *)
Definition arena_room (s : astate) (k : nat) : Prop :=
  (length (alloced_heaps (ar s)) + 2 * k <= 159)%nat /\ os_room (2 * k) (maps s).

Lemma arena_room_less (s : astate) (k : nat) : arena_room s (S k) -> arena_room s k.
Proof.
  intros [Hl Hr]. split; [lia|]. apply os_room_less. replace (2 * S k)%nat with (S (S (2 * k))) in Hr by lia. by apply os_room_less.
Qed.

Lemma arena_room_one (s : astate) (k : nat) : arena_room s (S k) -> (length (alloced_heaps (ar s)) < 159)%nat /\ mmap_available s.
Proof. intros [Hl Hr]. replace (2 * S k)%nat with (S (S (2 * k))) in * by lia. split; [lia|]. by destruct Hr. Qed.

Lemma arena_room_same (s s' : astate) (k : nat) : same_os s s' -> arena_room s k -> arena_room s' k.
Proof. unfold arena_room. by intros (-> & -> & _). Qed.

Lemma arena_room_allocate (fuel : nat) (s s' : astate) (n v : Z) (k : nat) :
  0 < n <= 2 ^ 39 -> iters_ok s 2 -> arena_room s (S k) -> allocate fuel s n = Some (v, s') -> arena_room s' k.
Proof.
  intros Hn Hi [Hl Hr] E. replace (2 * S k)%nat with (S (S (2 * k))) in * by lia.
  destruct (allocate_os _ _ _ _ _ Hn Hi E) as [[Hs|Hs]|(s1 & (n1 & p1 & ? & Hp1 & Em1 & ? & _) & (n2 & p2 & ? & Hp2 & Em2 & ? & _))].
  - eapply arena_room_same; [exact Hs|]. split; [lia|]. by apply os_room_less, os_room_less.
  - destruct Hs as (n1 & p1 & ? & Hp & Em & ? & _). split; [lia|]. rewrite Em. apply os_room_less. apply Hr; done.
  - split; [lia|]. rewrite Em2. rewrite Em1 in *. destruct Hr as [_ Hr]. specialize (Hr n1 p1 ltac:(done) Hp1). by apply Hr.
Qed.

(** ** Where an arena grows *)

(** What was mapped stays mapped, and the arena only grows into memory that
    was not mapped. *)
Definition grows (s s' : astate) : Prop :=
  (forall lo hi, covered (maps s) lo hi -> covered (maps s') lo hi) /\
  forall x, in_arena (ar s') x -> in_arena (ar s) x \/ ~ mapped (maps s) x.

Lemma grows_trans (s s1 s2 : astate) : grows s s1 -> grows s1 s2 -> grows s s2.
Proof.
  intros [C1 A1] [C2 A2]. split; [auto|]. intros x [Hx|Hx]%A2; [auto|]. right. intros (lo & hi & Hin & ?).
  apply Hx. apply (covered_mapped _ lo hi); [|done]. apply C1. exists lo, hi. split; [done|lia].
Qed.

Lemma same_os_grows (s s' : astate) : same_os s s' -> grows s s'.
Proof.
  intros (Em & Eh & _ & _ & Eb). split; [by rewrite Em|]. unfold in_arena. rewrite Eh. intros x Hx. left.
  destruct Hx as [Hx|(b & Vb & Hb)]; [by left|]. rewrite Eb in Hb. eauto.
Qed.

Lemma os_step_grows (s s' : astate) : os_step s s' -> grows s s'.
Proof.
  intros (n & p & _ & Hp & Em & _ & _ & _ & _ & Eb & Eh).
  split; [intros lo hi Hc; rewrite Em; by apply covered_cons|].
  intros x [(h & [Hh|Hh]%Eh & Hx)|(b & Vb & Hb)]; [left; left; eauto| |left; right; rewrite Eb in Hb; eauto].
  right. intros (lo & hi & Hin & ?). destruct (mmap_fresh _ _ _ _ _ Hp Hin); lia.
Qed.

Lemma allocate_grows_into (fuel : nat) (s s' : astate) (n v : Z) :
  0 < n <= 2 ^ 39 -> iters_ok s 2 -> allocate fuel s n = Some (v, s') -> grows s s'.
Proof.
  intros Hn Hi E. destruct (allocate_os _ _ _ _ _ Hn Hi E) as [[Hs|Hs]|(s1 & Hs1 & Hs2)];
    eauto using same_os_grows, os_step_grows, grows_trans.
Qed.

(** A well-formed arena with slots left has its growth counters in range. *)
Lemma repr_iters (s : astate) (L M : gmap Z Z) (k : nat) : repr s L M -> arena_room s (S k) -> iters_ok s 2.
Proof.
  intros (G & B & Bg & [_ MI] & _) [Hl _]. destruct (M_iters _ _ MI) as (He & Hc & E). unfold iters_ok. lia.
Qed.
End room.
