(* ===== verification/Heap.v ===== *)
(** * Heap: what the rest of the runtime relies on from the allocator

    The queues, strings and arrays of the runtime take memory from an arena
    with [allocate], write into the blocks they own and give them back with
    [release].  [Heap] names these operations, [HeapSpec] the contract the
    clients are verified against, and the last section discharges the
    contract with the arena allocator of Alloc.v. *)

From S2P Require Import Prelude Mem Dll Alloc AllocFacts AllocInv AllocBins AllocLink AllocSafe.
From S2P Require Import AllocSearch AllocOs AllocTop AllocRelease AllocMain AllocFuel AllocRoom.

(** Operations on a heap state [H]. *)
Class Heap (H : Type) := {
  h_mem : H -> mem;
  h_set : H -> mem -> H;
  h_alloc : H -> Z -> option (Z * H);
  h_free : H -> Z -> option H
}.

(** The largest request a client makes through this interface; larger ones
    become mappings of their own. *)
Definition REQUEST_MAX : Z := 131000.

(** The words of the blocks in [L] are the same. *)
Definition blocks_kept (L : gmap Z Z) (m m' : mem) : Prop :=
  forall p n x, L !! p = Some n -> p <= x < p + n -> ld m' x = ld m x.

(** [h_ok h L]: [h] is well formed and [L] maps each live block to its size;
    [h_room h k]: the kernel and the heap table have room for [k] more
    allocations. *)
Class HeapSpec (H : Type) `{Heap H} := {
  h_ok : H -> gmap Z Z -> Prop;
  h_room : H -> nat -> Prop;
  h_block : forall h L p n, h_ok h L -> L !! p = Some n -> 16 < p /\ p mod 16 = 0 /\ 32 <= n;
  h_apart : forall h L p n q k, h_ok h L -> L !! p = Some n -> L !! q = Some k -> p <> q ->
    p + n <= q \/ q + k <= p;
  h_set_mem : forall h m, h_mem (h_set h m) = m;
  h_set_room : forall h m k, h_room h k -> h_room (h_set h m) k;
  h_room_less : forall h k, h_room h (S k) -> h_room h k;
  h_write : forall h L p n a v, h_ok h L -> L !! p = Some n -> p <= a < p + n ->
    h_ok (h_set h (st (h_mem h) a v)) L;
  h_alloc_spec : forall h L n r, h_ok h L -> h_room h (S r) -> 0 < n <= REQUEST_MAX ->
    exists p k h', h_alloc h n = Some (p, h') /\ L !! p = None /\ n <= k < MMAP_THRESHOLD /\
      h_ok h' (<[p := k]> L) /\ blocks_kept L (h_mem h) (h_mem h') /\ h_room h' r;
  h_alloc_zero : forall h L, h_ok h L -> h_alloc h 0 = Some (NULL, h);
  h_free_null : forall h L, h_ok h L -> h_free h NULL = Some h;
  h_free_spec : forall h L p n, h_ok h L -> L !! p = Some n -> n < MMAP_THRESHOLD ->
    exists h', h_free h p = Some h' /\ h_ok h' (delete p L) /\ blocks_kept (delete p L) (h_mem h) (h_mem h') /\
      forall r, h_room h r -> h_room h' r
}.

Section client.
Context `{HeapSpec H}.

(** Assigning to a word of the heap. *)
Definition put (h : H) (a v : Z) : H := h_set h (st (h_mem h) a v).

Lemma put_mem (h : H) (a v : Z) : h_mem (put h a v) = st (h_mem h) a v.
Proof. apply h_set_mem. Qed.

Lemma put_ok (h : H) (L : gmap Z Z) (p n a v : Z) :
  h_ok h L -> L !! p = Some n -> p <= a < p + n -> h_ok (put h a v) L.
Proof. apply h_write. Qed.

Lemma put_room (h : H) (a v : Z) (k : nat) : h_room h k -> h_room (put h a v) k.
Proof. apply h_set_room. Qed.

(** Room for one allocation. *)
Definition h_ready (h : H) : Prop := h_room h 1.

Lemma h_room_ready (h : H) (k : nat) : h_room h (S k) -> h_ready h.
Proof. induction k as [|k IH]; intros Hr; [done|]. apply IH. by apply h_room_less. Qed.

Lemma h_alloc_one (h : H) (L : gmap Z Z) (n : Z) : h_ok h L -> h_ready h -> 0 < n <= REQUEST_MAX ->
  exists p k h', h_alloc h n = Some (p, h') /\ L !! p = None /\ n <= k < MMAP_THRESHOLD /\
    h_ok h' (<[p := k]> L) /\ blocks_kept L (h_mem h) (h_mem h').
Proof.
  intros Ho Hr Hn. destruct (h_alloc_spec h L n 0 Ho Hr Hn) as (p & k & h' & ? & ? & ? & ? & ? & _). eauto 10.
Qed.

Lemma h_free_one (h : H) (L : gmap Z Z) (p n : Z) : h_ok h L -> L !! p = Some n -> n < MMAP_THRESHOLD ->
  exists h', h_free h p = Some h' /\ h_ok h' (delete p L) /\ blocks_kept (delete p L) (h_mem h) (h_mem h').
Proof. intros Ho Hp Hn. destruct (h_free_spec h L p n Ho Hp Hn) as (h' & ? & ? & ? & _). eauto. Qed.

Lemma blocks_kept_refl (L : gmap Z Z) (m : mem) : blocks_kept L m m.
Proof. by intros p n x _ _. Qed.
End client.

(** ** The arena allocator meets the contract *)
Section arena.
Context `{OSLaws}.

#[export] Instance arena_heap : Heap astate := {|
  h_mem := mm;
  h_set := with_mm;
  h_alloc := fun s n => allocate (chunk_budget (alloced_heaps (ar s))) s n;
  h_free := release
|}.

Definition arena_ok (s : astate) (L : gmap Z Z) : Prop := exists M, repr s L M.

Lemma payload_bound (n : Z) : 0 < n <= REQUEST_MAX -> payload_size_of n <= 131008.
Proof using Type.
  unfold REQUEST_MAX, payload_size_of, MIN_PAYLOAD_SIZE. intros Hn. rewrite align16_spec by lia.
  pose proof (Z.div_mod (n + 15) 16). pose proof (Z.mod_pos_bound (n + 15) 16).
  assert ((n + 15) / 16 <= 8188) by (apply Z.lt_succ_r, Z.div_lt_upper_bound; lia). zcases; lia.
Qed.

(** Writing inside a live block keeps the arena well formed. *)
Lemma repr_write (s : astate) (L M : gmap Z Z) (p n a v : Z) :
  repr s L M -> L !! p = Some n -> p <= a < p + n -> repr (with_mm s (st (mm s) a v)) L M.
Proof.
  intros (G & B & Bg & [[AI HS] MI] & Hmu & HL & HM) Hp Ha. apply HL in Hp.
  assert (in_payload G a) as Hin by (exists (p - 16), n; split; [done|lia]).
  exists G, B, Bg. split_and!; try done. split; [split; [|done]|].
  - cbn [mm ar with_mm]. split; [|eapply (K_transfer _ _ _ _ (A_K _ _ _ _ _ AI)); try done|apply AI].
    + eapply H_ext; [apply AI|]. intros b Hb. apply hdr_frame; apply ld_st_ne; intros ->.
      * assert (aw (ar s) G (b + o_size)) as [_ Hn]; [|done].
        apply (hw_aw AI). exists b. split; [done|]. by right.
      * assert (aw (ar s) G (b + o_prev_size)) as [_ Hn]; [|done].
        apply (hw_aw AI). exists b. split; [done|]. left. unfold o_prev_size. lia.
    + intros y o Ky Ho. apply ld_st_ne. intros ->.
      assert (aw (ar s) G (y + o)) as [_ Hn]; [|done].
      apply (lwr_aw AI). exists y, o. split; [done|]. split; [done|].
      destruct Ky as [?|[[s' ?]|[s' ?]]]; [by left|right; by exists s', Free|right; by exists s', Fast].
  - assert (HF : FInv s G B Bg) by (split; [split|]; done).
    split; try apply MI. cbn [mm ar with_mm maps]. intros c z Hc.
    destruct (M_big _ _ MI c z Hc) as (Hz & ? & ? & ? & ? & ? & ? & Eh). split_and!; try done.
    etrans; [|exact Eh]. f_equal. pose proof (tile_big_apart _ _ _ _ HF _ _ _ _ _ Hp Hc) as Ha'.
    destruct (big_block _ _ _ _ HF _ _ Hc) as (_ & _ & _ & ?). unfold MMAP_THRESHOLD in Hz.
    unfold apart2 in Ha'. apply hdr_st_ne; lia.
Qed.

(** Taking the mutex and giving it back. *)
Lemma relock (s : astate) : mu (ar s) = false ->
  with_ar (with_ar s (set_mu (ar s) true)) (set_mu (ar (with_ar s (set_mu (ar s) true))) false) = s.
Proof using Type. destruct s as [m ms []]. cbn. by intros ->. Qed.

Lemma repr_unlocked (s : astate) (L M : gmap Z Z) : repr s L M -> mu (ar s) = false.
Proof. by intros (G & B & Bg & _ & Hmu & _). Qed.

Lemma allocate_zero (fuel : nat) (s : astate) (L M : gmap Z Z) : repr s L M -> allocate fuel s 0 = Some (NULL, s).
Proof.
  intros HR%repr_unlocked. unfold allocate, _allocate. rewrite HR. cbn [negb c_assert mbind option_bind Z.eqb].
  by rewrite relock.
Qed.

Lemma release_null (s : astate) (L M : gmap Z Z) : repr s L M -> release s NULL = Some s.
Proof.
  intros HR%repr_unlocked. unfold release, _release. rewrite HR. cbn [negb c_assert mbind option_bind Z.eqb].
  by rewrite relock.
Qed.

#[export] Instance arena_heap_spec : HeapSpec astate.
Proof.
  refine {| h_ok := arena_ok; h_room := arena_room |}.
  - intros s L p n [M HR] Hp. destruct (repr_blocks s L M p n HR (or_introl Hp)) as (? & ? & ?). auto.
  - intros s L p n q k [M HR] Hp Hq Hne.
    exact (repr_apart s L M p n q k HR (or_introl Hp) (or_introl Hq) Hne).
  - done.
  - done.
  - apply arena_room_less.
  - intros s L p n a v [M HR] Hp Ha. exists M. by eapply repr_write.
  - intros s L n r [M HR] Hr Hn. unfold REQUEST_MAX in *. pose proof (repr_iters _ _ _ _ HR Hr) as Hit.
    destruct (arena_room_one _ _ Hr) as [Hc Hm].
    destruct (repr_allocate s L M n HR ltac:(lia) Hc Hm _ (le_n _)) as (p & k & s' & E & HLp & _ & HK & Hk & HR').
    pose proof (payload_bound n ltac:(unfold REQUEST_MAX; lia)). destruct (payload_size_of_spec n) as (? & _); [lia|].
    destruct HR' as [[_ HR']|[Hbig _]]; [|unfold MMAP_THRESHOLD in Hbig; lia].
    exists p, k, s'. unfold MMAP_THRESHOLD. split_and!; try done; try lia; [by exists M| |].
    + intros q j x Hq. apply HK. by left.
    + eapply arena_room_allocate; [|exact Hit|exact Hr|exact E]. lia.
  - intros s L [M HR]. exact (allocate_zero (chunk_budget (alloced_heaps (ar s))) s L M HR).
  - intros s L [M HR]. by eapply release_null.
  - intros s L p n [M HR] Hp Hn. destruct (repr_release_heap s L M p n HR Hp Hn) as (s' & E & HR' & _ & HK).
    exists s'. split_and!; [done|by exists M| |].
    + intros q j x Hq. apply HK. by left.
    + intros r Hr. eapply arena_room_same; [|exact Hr]. eapply release_os; [exact E|]. by eapply repr_size.
Defined.
End arena.
