(* ===== verification/AllocSpec.v ===== *)
(** * AllocSpec: the properties of the allocator

    The contract proved in AllocMain.v and AllocCreate.v, stated on the
    abstract state [repr] (the live blocks), each with an instance on a
    concrete kernel model; and two defects of the code, shown by running
    the model. *)

From S2P Require Import Prelude Mem Dll Alloc AllocFacts AllocInv AllocBins AllocLink AllocSafe.
From S2P Require Import AllocSearch AllocOs AllocTop AllocRelease AllocMain AllocCreate AllocFuel AllocRoom Heap.

(** ** A concrete kernel: mappings are handed out upwards *)

Definition maps_end (ms : list (Z * Z)) : Z := foldr (fun r acc => Z.max r.2 acc) 4096 ms.

Definition bump_mmap (ms : list (Z * Z)) (n : Z) : option Z :=
  let p := (maps_end ms + 4095) / 4096 * 4096 in
  if p + Z.land (size_t (n + 4096 - 1)) (Z.lnot (4096 - 1)) <=? 2 ^ 47 then Some p else None.

Definition bump_os : OS := {| sys_mmap := bump_mmap; page_size := 4096; sizeof_mutex := 40 |}.

Lemma maps_end_ge (ms : list (Z * Z)) : 4096 <= maps_end ms /\ forall lo hi, (lo, hi) ∈ ms -> hi <= maps_end ms.
Proof.
  unfold maps_end. induction ms as [|[a b] ms [IH1 IH2]]; cbn [foldr snd].
  - split; [done|]. intros lo hi Hin. by apply elem_of_nil in Hin.
  - split; [lia|]. intros lo hi. rewrite elem_of_cons. intros [[= -> ->]|Hin]; [lia|]. apply IH2 in Hin. lia.
Qed.

Lemma bump_laws : @OSLaws bump_os.
Proof.
  assert (forall ms n p, bump_mmap ms n = Some p ->
    p = (maps_end ms + 4095) / 4096 * 4096 /\ p + @align_page bump_os n <= 2 ^ 47 /\ maps_end ms <= p) as Hb.
  { intros ms n p. unfold bump_mmap, align_page. cbn [page_size bump_os]. cbv zeta.
    destruct (Z.leb_spec ((maps_end ms + 4095) / 4096 * 4096 + Z.land (size_t (n + 4096 - 1)) (Z.lnot (4096 - 1))) (2 ^ 47));
      [|done]. intros [= <-]. split_and!; [done|done|]. pose proof (Z.div_mod (maps_end ms + 4095) 4096).
    pose proof (Z.mod_pos_bound (maps_end ms + 4095) 4096). lia. }
  split; cbn [sys_mmap page_size sizeof_mutex bump_os].
  - exists 12. split; [lia|done].
  - split; [lia|done].
  - intros ms n p Hp. apply Hb in Hp as (-> & _). apply Z.mod_mul. lia.
  - intros ms n p Hp. apply Hb in Hp as (_ & _ & ?). pose proof (maps_end_ge ms). lia.
  - intros ms n p Hp. by apply Hb in Hp as (_ & ? & _).
  - intros ms n p lo hi Hp Hin. apply Hb in Hp as (_ & _ & ?). right. apply maps_end_ge in Hin. lia.
Qed.

Lemma bump_available (ms : list (Z * Z)) (n : Z) :
  maps_end ms <= 2 ^ 47 - 2 ^ 41 -> 0 < n <= 2 ^ 40 -> is_Some (bump_mmap ms n).
Proof.
  intros Hm Hn. unfold bump_mmap. cbv zeta.
  rewrite uwrap_small by (unfold in_uint; lia). change (4096 - 1) with (Z.ones 12).
  rewrite land_lnot_ones by lia. pose proof (Z.mod_pos_bound (n + 4096 - 1) (2 ^ 12)).
  pose proof (Z.div_mod (maps_end ms + 4095) 4096). pose proof (Z.mod_pos_bound (maps_end ms + 4095) 4096).
  match goal with |- context [if ?b then _ else _] => destruct b eqn:E end; [eauto|].
  apply Z.leb_gt in E. lia.
Qed.

(** Room for [k] mappings. *)
Lemma bump_room (k : nat) : forall ms, maps_end ms + Z.of_nat k * (2 ^ 40 + 2 ^ 14) <= 2 ^ 47 - 2 ^ 41 -> @os_room bump_os k ms.
Proof.
  induction k as [|k IH]; intros ms Hm; [done|]. split; [intros n Hn; apply bump_available; [lia|done]|].
  intros n p Hn Hp. apply IH. change (sys_mmap ms n) with (bump_mmap ms n) in Hp.
  unfold bump_mmap in Hp. cbv zeta in Hp. destruct (_ <=? _); [|done]. injection Hp as <-.
  unfold align_page. cbn [page_size bump_os maps_end foldr snd].
  rewrite uwrap_small by (unfold in_uint; lia). change (4096 - 1) with (Z.ones 12).
  rewrite land_lnot_ones by lia. pose proof (Z.mod_pos_bound (n + 4096 - 1) (2 ^ 12)).
  pose proof (Z.div_mod (maps_end ms + 4095) 4096). pose proof (Z.mod_pos_bound (maps_end ms + 4095) 4096).
  fold (maps_end ms). lia.
Qed.

(** An arena made on that kernel, the state the instances below start from. *)
Lemma bump_arena : exists s, @arena_create bump_os ∅ [] = Some s /\ @repr bump_os s ∅ ∅ /\
  (length (alloced_heaps (ar s)) < 159)%nat /\ @mmap_available bump_os s.
Proof.
  destruct (@repr_arena_create bump_os bump_laws ∅ []) as (s & E & HR & Hl & _).
  { intros n Hn. apply bump_available; [vm_compute; discriminate|done]. }
  { intros p n Hp Hn. vm_compute in Hp. injection Hp as <-. apply bump_available; [vm_compute; discriminate|done]. }
  exists s. split_and!; try done; [lia|].
  intros n Hn. apply bump_available; [|done].
  assert (option_map (fun s => maps_end (maps s) <=? 2 ^ 45) (@arena_create bump_os ∅ []) = Some true) as Hb
    by (vm_compute; reflexivity).
  rewrite E in Hb. simpl in Hb. injection Hb as Hb%Z.leb_le. lia.
Qed.

(** ** The contract *)
Section contract.
Context `{OSLaws}.

(** C1: a request of 1 to 2^39 bytes to a well-formed arena returns, given
    room in the heap table and a kernel that maps: no assertion fails and
    every loop of [allocate] ends.  (Near 2^64 the rounding of the request
    wraps around; such requests are not covered.)
    The block is 16-byte aligned, at least as large as the request and
    apart from all live blocks; the arena is well formed again with that
    one block added, and the contents of all live blocks are unchanged. *)
Theorem allocate_spec (s : astate) (L M : gmap Z Z) (n : Z) :
  repr s L M -> 0 < n <= 2 ^ 39 -> (length (alloced_heaps (ar s)) < 159)%nat -> mmap_available s ->
  exists p k s' L' M',
    (forall fuel, (chunk_budget (alloced_heaps (ar s)) <= fuel)%nat -> allocate fuel s n = Some (p, s')) /\
    repr s' L' M' /\
    n <= k < n + 80 /\ p mod 16 = 0 /\ L !! p = None /\ M !! p = None /\
    ((L' = <[p := k]> L /\ M' = M) \/ (L' = L /\ M' = <[p := k]> M)) /\
    (forall q j, live L M q j -> apart2 p (p + k) q (q + j)) /\
    kept L M (mm s) (mm s').
Proof.
  intros HR Hn Hc Hm. pose proof (repr_allocate s L M n HR Hn Hc Hm) as HN.
  set (N := chunk_budget _) in *. destruct (payload_size_of_spec n) as (? & ? & _ & ?); [lia|].
  destruct (HN N (le_n N)) as (p & k & s' & E & HLp & HMp & HK & Hk & HR').
  assert (exists L' M', repr s' L' M' /\ live L' M' p k /\
    ((L' = <[p := k]> L /\ M' = M) \/ (L' = L /\ M' = <[p := k]> M)) /\
    (forall q j, live L M q j -> p <> q /\ live L' M' q j)) as (L' & M' & HR2 & Hl & HE & Hsub).
  { assert (forall q j, live L M q j -> p <> q) as Hne by (intros q j [?|?] ->; congruence).
    destruct HR' as [[_ HR']|[_ HR']]; do 2 eexists; (split; [exact HR'|]); unfold live;
      (split; [rewrite ?lookup_insert_eq; auto|]); (split; [auto|]);
      intros q j Hq; (split; [eauto|]); rewrite lookup_insert_ne by eauto; done. }
  exists p, k, s', L', M'. split_and!; try done; try lia.
  - intros fuel Hf. by apply (allocate_grows s n N fuel).
  - by apply (repr_blocks s' L' M' p k HR2 Hl).
  - intros q j Hq. destruct (Hsub q j Hq). by eapply repr_apart.
Qed.

(** C2: releasing a live heap block (smaller than [MMAP_THRESHOLD]) returns,
    the arena is well formed again with exactly that block gone, and the
    contents of every other live block are unchanged: coalescing, the fast
    bins and the unsorted bin never touch memory in use. *)
Theorem release_spec (s : astate) (L M : gmap Z Z) (p n : Z) :
  repr s L M -> L !! p = Some n -> n < MMAP_THRESHOLD ->
  exists s', release s p = Some s' /\ repr s' (delete p L) M /\ maps s' = maps s /\
    kept (delete p L) M (mm s) (mm s').
Proof. apply repr_release_heap. Qed.

(** Releasing a block that is a mapping of its own unmaps all of it,
    changes no memory, and leaves every other mapping the arena lives in
    in place. *)
Theorem release_mapped_spec (s : astate) (L M : gmap Z Z) (p n : Z) :
  repr s L M -> M !! p = Some n ->
  exists s', release s p = Some s' /\ repr s' L (delete p M) /\ mm s' = mm s /\
    forall x, p <= x < p + n -> ~ mapped (maps s') x.
Proof. apply repr_release_mapped. Qed.

(** [arena_create] returns a well-formed arena with one heap and no
    live block. *)
Theorem arena_create_spec (m : mem) (ms : list (Z * Z)) :
  (forall n, 0 < n <= 2 ^ 40 -> is_Some (sys_mmap ms n)) ->
  (forall p n, sys_mmap ms arena_bytes = Some p -> 0 < n <= 2 ^ 40 ->
     is_Some (sys_mmap ((p, p + align_page arena_bytes) :: ms) n)) ->
  exists s, arena_create m ms = Some s /\ repr s ∅ ∅ /\ length (alloced_heaps (ar s)) = 1%nat.
Proof.
  intros H1 H2. destruct (repr_arena_create m ms H1 H2) as (s & E & HR & Hl & _). eauto.
Qed.

(** *** A client of the allocator

    A client asks for blocks, gives them back, and reads and writes their
    words; it numbers its blocks in the order of its requests. *)
Inductive request := RAlloc (n : Z) | RFree (i : nat) | RWrite (i : nat) (o v : Z) | RRead (i : nat) (o : Z).

(** What it expects: blocks of the sizes asked for, with the words written
    to them, and the values read so far. *)
Record blocks := Blocks { b_live : gmap nat (Z * gmap Z Z); b_next : nat; b_seen : list Z }.

(** [None]: a request the allocator promises nothing about, such as the use
    of a block after its release or outside its size, or reading a word that
    was never written. *)
Definition expected (B : blocks) (r : request) : option blocks :=
  match r with
  | RAlloc n =>
      c_assert ((0 <? n) && (n <=? REQUEST_MAX)) ;;
      Some (Blocks (<[b_next B := (n, ∅)]> (b_live B)) (S (b_next B)) (b_seen B))
  | RFree i => _ ← b_live B !! i; Some (Blocks (delete i (b_live B)) (b_next B) (b_seen B))
  | RWrite i o v =>
      '(n, c) ← b_live B !! i;
      c_assert ((0 <=? o) && (8 * o + 8 <=? n)) ;;
      Some (Blocks (<[i := (n, <[o := v]> c)]> (b_live B)) (b_next B) (b_seen B))
  | RRead i o =>
      '(n, c) ← b_live B !! i;
      v ← c !! o;
      Some (Blocks (b_live B) (b_next B) (b_seen B ++ [v]))
  end.

Fixpoint expected_all (B : blocks) (rs : list request) : option blocks :=
  match rs with
  | [] => Some B
  | r :: rs => B ← expected B r; expected_all B rs
  end.

(** What happens: the arena, and the pointers the client keeps. *)
Record client := Client { c_arena : astate; c_ptrs : gmap nat Z; c_next : nat; c_seen : list Z }.

Definition serve (c : client) (r : request) : option client :=
  let s := c_arena c in
  match r with
  | RAlloc n =>
      '(p, s) ← allocate (chunk_budget (alloced_heaps (ar s))) s n;
      Some (Client s (<[c_next c := p]> (c_ptrs c)) (S (c_next c)) (c_seen c))
  | RFree i =>
      p ← c_ptrs c !! i;
      s ← release s p;
      Some (Client s (delete i (c_ptrs c)) (c_next c) (c_seen c))
  | RWrite i o v =>
      p ← c_ptrs c !! i;
      Some (Client (with_mm s (st (mm s) (p + 8 * o) v)) (c_ptrs c) (c_next c) (c_seen c))
  | RRead i o =>
      p ← c_ptrs c !! i;
      Some (Client s (c_ptrs c) (c_next c) (c_seen c ++ [ld (mm s) (p + 8 * o)]))
  end.

Fixpoint serve_all (c : client) (rs : list request) : option client :=
  match rs with
  | [] => Some c
  | r :: rs => c ← serve c r; serve_all c rs
  end.

Definition allocs (rs : list request) : nat :=
  sum_list_with (fun r => if r is RAlloc _ then 1%nat else 0%nat) rs.

(** The block with the number [i], of size [n] and contents [w], as the
    arena holds it. *)
Definition block_kept (s : astate) (L0 L : gmap Z Z) (p n : Z) (w : gmap Z Z) : Prop :=
  L0 !! p = None /\ (exists k, L !! p = Some k /\ n <= k < MMAP_THRESHOLD) /\
  forall o v, w !! o = Some v -> 0 <= o /\ 8 * o + 8 <= n /\ ld (mm s) (p + 8 * o) = v.

Record agree (m0 : mem) (L0 : gmap Z Z) (c : client) (B : blocks) (L : gmap Z Z) : Prop := {
  ag_ok : arena_ok (c_arena c) L;
  ag_old : L0 ⊆ L;
  ag_kept : blocks_kept L0 m0 (mm (c_arena c));
  ag_next : c_next c = b_next B;
  ag_seen : c_seen c = b_seen B;
  ag_names : forall i, is_Some (b_live B !! i) -> (i < b_next B)%nat;
  ag_ptrs : forall i, is_Some (c_ptrs c !! i) -> is_Some (b_live B !! i);
  ag_block : forall i n w, b_live B !! i = Some (n, w) ->
    exists p, c_ptrs c !! i = Some p /\ block_kept (c_arena c) L0 L p n w;
  ag_inj : forall i j p, c_ptrs c !! i = Some p -> c_ptrs c !! j = Some p -> i = j
}.

Lemma block_keep (s s' : astate) (L0 L L' : gmap Z Z) (q n : Z) (w : gmap Z Z) :
  block_kept s L0 L q n w ->
  (forall k, L !! q = Some k -> L' !! q = Some k /\ forall x, q <= x < q + k -> ld (mm s') x = ld (mm s) x) ->
  block_kept s' L0 L' q n w.
Proof using Type.
  intros (? & (k & Hk & Hn) & Hw) HL. destruct (HL k Hk) as [? Hx]. split_and!; [done|eauto|].
  intros o v Ho. destruct (Hw o v Ho) as (? & ? & <-). split_and!; [done|done|]. apply Hx. lia.
Qed.

(** A write in the block at [p] leaves the words of every other block. *)
Lemma other_block (s : astate) (L : gmap Z Z) (p k a v q j x : Z) :
  arena_ok s L -> L !! p = Some k -> p <= a < p + k -> L !! q = Some j -> q <> p -> q <= x < q + j ->
  ld (st (mm s) a v) x = ld (mm s) x.
Proof.
  intros [M HR] Hp Ha Hq Hne Hx. apply ld_st_ne.
  destruct (repr_apart s L M p k q j HR (or_introl Hp) (or_introl Hq) ltac:(done)); lia.
Qed.

Lemma serve_alloc (m0 : mem) (L0 L : gmap Z Z) (c : client) (B B' : blocks) (n : Z) (k : nat) :
  agree m0 L0 c B L -> arena_room (c_arena c) (S k) -> expected B (RAlloc n) = Some B' ->
  exists c' L', serve c (RAlloc n) = Some c' /\ agree m0 L0 c' B' L' /\ arena_room (c_arena c') k.
Proof.
  intros [Ho Hold Hk0 Hnx Hs Hnm Hpt Hb Hi] Hr E. cbn [expected] in E.
  destruct (Z.ltb_spec 0 n); [|done]. destruct (Z.leb_spec n REQUEST_MAX); [|done].
  cbn [andb c_assert mbind option_bind] in E. injection E as <-.
  destruct (@h_alloc_spec astate arena_heap arena_heap_spec (c_arena c) L n k Ho Hr ltac:(lia)) as (p & j & s' & Ea & Hp & Hj & Ho' & HK & Hr').
  cbn [h_alloc arena_heap] in Ea.
  assert (forall i, c_ptrs c !! i <> Some p) as Hfresh.
  { intros i Hi'. destruct (Hpt i (mk_is_Some _ _ Hi')) as [[n' w] Hl]. destruct (Hb i n' w Hl) as (p' & Hp' & _ & (k' & Hk' & _) & _).
    congruence. }
  assert (forall i, is_Some (b_live B !! i) -> i <> b_next B) as Hne by (intros i Hi' ->; apply Hnm in Hi'; lia).
  eexists _, (<[p := j]> L). cbn [serve]. rewrite Ea. cbn [mbind option_bind]. split; [done|]. split; [|done].
  split; cbn [c_arena c_ptrs c_next c_seen b_live b_next b_seen]; try done.
  - etrans; [exact Hold|]. by apply insert_subseteq.
  - intros q m x Hq Hx. rewrite <- (Hk0 q m x Hq Hx). apply (HK q m x); [|done]. by eapply lookup_weaken.
  - by rewrite Hnx.
  - intros i [?|Hi']%lookup_insert_is_Some'; [lia|]. apply Hnm in Hi'. lia.
  - intros i [?|Hi']%lookup_insert_is_Some'; apply lookup_insert_is_Some'; [left; congruence|right; auto].
  - intros i n' w. rewrite Hnx. destruct (decide (b_next B = i)) as [<-|Hne'].
    + rewrite !lookup_insert_eq. intros [= <- <-]. exists p. split; [done|]. split; [by eapply lookup_weaken_None|].
      split; [exists j; rewrite lookup_insert_eq; split; [done|lia]|]. intros o v Ho2. by rewrite lookup_empty in Ho2.
    + rewrite !lookup_insert_ne by done. intros Hl. destruct (Hb i n' w Hl) as (q & Hq & Hbk). exists q. split; [done|].
      apply (block_keep (c_arena c) s' L0 L _ q n' w Hbk). intros k' Hk'. split; [|intros x; by apply (HK q k' x)].
      rewrite lookup_insert_ne; [done|]. intros ->. congruence.
  - rewrite Hnx. intros i i' q. destruct (decide (b_next B = i)) as [<-|Hn1], (decide (b_next B = i')) as [<-|Hn2]; [done|..];
      rewrite ?lookup_insert_eq, ?lookup_insert_ne by done; intros Hq1 Hq2; [naive_solver|naive_solver|eauto].
Qed.

Lemma serve_free (m0 : mem) (L0 L : gmap Z Z) (c : client) (B B' : blocks) (i : nat) (k : nat) :
  agree m0 L0 c B L -> arena_room (c_arena c) k -> expected B (RFree i) = Some B' ->
  exists c' L', serve c (RFree i) = Some c' /\ agree m0 L0 c' B' L' /\ arena_room (c_arena c') k.
Proof.
  intros [Ho Hold Hk0 Hnx Hs Hnm Hpt Hb Hi] Hr E. cbn [expected] in E.
  destruct (b_live B !! i) as [[n w]|] eqn:El; [|done]. injection E as <-.
  destruct (Hb i n w El) as (p & Hp & Hp0 & (j & Hj & Hjn) & _).
  destruct (@h_free_spec astate arena_heap arena_heap_spec (c_arena c) L p j Ho Hj ltac:(lia)) as (s' & Ef & Ho' & HK & Hr').
  cbn [h_free arena_heap] in Ef.
  eexists _, (delete p L). cbn [serve]. rewrite Hp. cbn [mbind option_bind]. rewrite Ef. cbn [mbind option_bind].
  split; [done|]. split; [|by apply Hr'].
  assert (forall i' q, i' <> i -> c_ptrs c !! i' = Some q -> q <> p) as Hne by (intros i' q Hii Hq ->; eauto).
  split; cbn [c_arena c_ptrs c_next c_seen b_live b_next b_seen]; try done.
  - rewrite <- (delete_id L0 p) by done. by apply delete_mono.
  - intros q m x Hq Hx. rewrite <- (Hk0 q m x Hq Hx). apply (HK q m x); [|done].
    rewrite lookup_delete_ne by congruence. by eapply lookup_weaken.
  - intros i' [? Hi']%lookup_delete_is_Some. auto.
  - intros i' [? Hi']%lookup_delete_is_Some. apply lookup_delete_is_Some. auto.
  - intros i' n' w' [Hii Hl]%lookup_delete_Some. destruct (Hb i' n' w' Hl) as (q & Hq & Hbk). exists q.
    rewrite lookup_delete_ne by done. split; [done|].
    apply (block_keep (c_arena c) s' L0 L _ q n' w' Hbk). intros k' Hk'.
    assert (delete p L !! q = Some k') by (rewrite lookup_delete_ne; [done|]; intros <-; by eapply Hne).
    split; [done|]. intros x. by apply (HK q k' x).
  - intros i1 i2 q [_ H1]%lookup_delete_Some [_ H2]%lookup_delete_Some. eauto.
Qed.

Lemma serve_write (m0 : mem) (L0 L : gmap Z Z) (c : client) (B B' : blocks) (i : nat) (o v : Z) (k : nat) :
  agree m0 L0 c B L -> arena_room (c_arena c) k -> expected B (RWrite i o v) = Some B' ->
  exists c' L', serve c (RWrite i o v) = Some c' /\ agree m0 L0 c' B' L' /\ arena_room (c_arena c') k.
Proof.
  intros [Ho Hold Hk0 Hnx Hs Hnm Hpt Hb Hi] Hr E. cbn [expected] in E.
  destruct (b_live B !! i) as [[n w]|] eqn:El; [|done]. cbn [mbind option_bind] in E.
  destruct (Z.leb_spec 0 o); [|done]. destruct (Z.leb_spec (8 * o + 8) n); [|done]. injection E as <-.
  destruct (Hb i n w El) as (p & Hp & Hp0 & (j & Hj & Hjn) & Hw).
  eexists _, L. cbn [serve]. rewrite Hp. cbn [mbind option_bind]. split; [done|].
  assert (forall q k' x, L !! q = Some k' -> q <> p -> q <= x < q + k' ->
    ld (st (mm (c_arena c)) (p + 8 * o) v) x = ld (mm (c_arena c)) x) as Hoth.
  { intros q k' x Hq Hne Hx. eapply (other_block (c_arena c) L p j); try done. lia. }
  split; [|by apply (@h_set_room astate arena_heap arena_heap_spec (c_arena c))].
  split; cbn [c_arena c_ptrs c_next c_seen b_live b_next b_seen]; try done.
  - apply (@h_write astate arena_heap arena_heap_spec (c_arena c) L p j); [done|done|lia].
  - intros q m x Hq Hx. cbn [mm with_mm]. rewrite <- (Hk0 q m x Hq Hx). apply (Hoth q m); [by eapply lookup_weaken|congruence|done].
  - intros i' [<-|Hi']%lookup_insert_is_Some'; [apply Hnm; eauto|auto].
  - intros i' Hi'. apply lookup_insert_is_Some'. auto.
  - intros i' n' w'. destruct (decide (i = i')) as [<-|Hne].
    + rewrite lookup_insert_eq. intros [= <- <-]. exists p. split; [done|]. split; [done|]. split; [by exists j|].
      intros o' v'. cbn [mm with_mm]. destruct (decide (o = o')) as [<-|Hoo].
      * rewrite lookup_insert_eq. intros [= <-]. by rewrite ld_st_eq.
      * rewrite lookup_insert_ne by done. intros Ho'. rewrite ld_st_ne by lia. by apply Hw.
    + rewrite lookup_insert_ne by done. intros Hl. destruct (Hb i' n' w' Hl) as (q & Hq & Hbk). exists q. split; [done|].
      apply (block_keep (c_arena c) _ L0 L _ q n' w' Hbk). intros k' Hk'. split; [done|]. intros x Hx.
      apply (Hoth q k'); [done| |done]. intros ->. eauto.
Qed.

Lemma serve_read (m0 : mem) (L0 L : gmap Z Z) (c : client) (B B' : blocks) (i : nat) (o : Z) :
  agree m0 L0 c B L -> expected B (RRead i o) = Some B' ->
  exists c', serve c (RRead i o) = Some c' /\ agree m0 L0 c' B' L /\ c_arena c' = c_arena c.
Proof.
  intros [Ho Hold Hk0 Hnx Hs Hnm Hpt Hb Hi] E. cbn [expected] in E.
  destruct (b_live B !! i) as [[n w]|] eqn:El; [|done]. cbn [mbind option_bind] in E.
  destruct (w !! o) as [v|] eqn:Ew; [|done]. injection E as <-.
  destruct (Hb i n w El) as (p & Hp & _ & _ & Hw). destruct (Hw o v Ew) as (_ & _ & <-).
  eexists. cbn [serve]. rewrite Hp. split; [done|]. split; [|done].
  by split; cbn [c_arena c_ptrs c_next c_seen b_live b_next b_seen]; rewrite ?Hs.
Qed.

Lemma serve_agree (m0 : mem) (L0 L : gmap Z Z) (c : client) (B B' : blocks) (r : request) (k : nat) :
  agree m0 L0 c B L -> arena_room (c_arena c) (allocs [r] + k) -> expected B r = Some B' ->
  exists c' L', serve c r = Some c' /\ agree m0 L0 c' B' L' /\ arena_room (c_arena c') k.
Proof.
  destruct r as [n|i|i o v|i o]; cbn [allocs sum_list_with fmap list_fmap sum_list Nat.add]; intros HA Hr E.
  - by eapply serve_alloc.
  - by eapply serve_free.
  - by eapply serve_write.
  - destruct (serve_read m0 L0 L c B B' i o HA E) as (c' & Es & HA' & Ec). exists c', L. by rewrite Ec.
Qed.

Lemma serve_all_agree (m0 : mem) (L0 : gmap Z Z) (rs : list request) : forall (c : client) (B B' : blocks) (L : gmap Z Z),
  agree m0 L0 c B L -> arena_room (c_arena c) (allocs rs) -> expected_all B rs = Some B' ->
  exists c' L', serve_all c rs = Some c' /\ agree m0 L0 c' B' L'.
Proof.
  induction rs as [|r rs IH]; cbn [expected_all serve_all]; intros c B B' L HA Hr E.
  - injection E as <-. eauto.
  - destruct (expected B r) as [B1|] eqn:E1; [|done]. cbn [mbind option_bind] in E.
    destruct (serve_agree m0 L0 L c B B1 r (allocs rs) HA) as (c1 & L1 & Es & HA1 & Hr1); [|done|].
    { by destruct r. }
    rewrite Es. cbn [mbind option_bind]. by eapply IH.
Qed.

(** C3: the allocator implements independent blocks.  A client that starts
    from a well-formed arena with room for its allocations and makes any
    sequence of requests (each allocation of at most 131000 bytes, each
    release, read and write of a block it holds, within the size it asked
    for) gets an answer to each, reads exactly the words it wrote last,
    and ends with blocks that are aligned to 16, at least as large as it
    asked for and pairwise apart, holding what it wrote; the blocks that
    were live before keep their contents. *)
Theorem allocator_serves_blocks (s : astate) (L M : gmap Z Z) (rs : list request) (B : blocks) :
  repr s L M -> arena_room s (allocs rs) -> expected_all (Blocks ∅ 0 []) rs = Some B ->
  exists c, serve_all (Client s ∅ 0 []) rs = Some c /\ c_seen c = b_seen B /\
    (forall i n w, b_live B !! i = Some (n, w) ->
       exists p, c_ptrs c !! i = Some p /\ p mod 16 = 0 /\
         (forall o v, w !! o = Some v -> ld (mm (c_arena c)) (p + 8 * o) = v) /\
         (forall q j, L !! q = Some j -> apart2 p (p + n) q (q + j)) /\
         forall j q n' w', j <> i -> b_live B !! j = Some (n', w') -> c_ptrs c !! j = Some q ->
           apart2 p (p + n) q (q + n')) /\
    (forall q j x, L !! q = Some j -> q <= x < q + j -> ld (mm (c_arena c)) x = ld (mm s) x).
Proof.
  intros HR Hr E.
  destruct (serve_all_agree (mm s) L rs (Client s ∅ 0 []) (Blocks ∅ 0 []) B L) as (c & L' & Ec & [[M' HR'] Hold Hk0 _ Hs _ _ Hb Hi]); [|done|exact E|].
  { split; cbn [c_arena c_ptrs c_next c_seen b_live b_next b_seen]; try done.
    - by exists M.
    - by intros i [? ?%lookup_empty_Some].
    - by intros i [? ?%lookup_empty_Some]. }
  assert (forall p q n j k k', L' !! p = Some k -> L' !! q = Some k' -> p <> q -> n <= k -> j <= k' ->
    apart2 p (p + n) q (q + j)) as Hap.
  { intros p q n j k k' Hp Hq Hne Hn Hj.
    destruct (repr_apart (c_arena c) L' M' p k q k' HR' (or_introl Hp) (or_introl Hq) Hne); unfold apart2; lia. }
  exists c. split_and!; [done|done| |by intros; eapply Hk0].
  intros i n w Hl. destruct (Hb i n w Hl) as (p & Hp & Hp0 & (k & Hk & Hn) & Hw). exists p. split; [done|].
  split; [by apply (repr_blocks (c_arena c) L' M' p k HR' (or_introl Hk))|].
  split; [intros o v Ho; by apply Hw|]. split.
  - intros q j Hq. eapply Hap; [exact Hk|by eapply lookup_weaken|congruence|lia|done].
  - intros j q n' w' Hne Hl' Hq. destruct (Hb j n' w' Hl') as (q' & Hq' & _ & (k' & Hk' & Hn') & _).
    assert (q' = q) as -> by congruence. eapply Hap; [exact Hk|exact Hk'| |lia|lia]. intros ->. eauto.
Qed.

(** The size of the next heap: seven doublings from 1 MiB, then steps of
    64 MiB. *)
Definition next_heap (a : arena) : Z :=
  if heap_expo_growth_iters a <=? 6 then 2 ^ (20 + heap_expo_growth_iters a)
  else 2 ^ 26 * (1 + heap_constant_growth_iters a).

Lemma next_heap_size (a : arena) :
  0 <= heap_expo_growth_iters a <= 7 -> 0 <= heap_constant_growth_iters a ->
  heap_expo_growth_iters a + heap_constant_growth_iters a <= 158 ->
  2 ^ 20 <= next_heap a <= HEAP_MAX_SIZE /\
  fst (if Z.shiftl HEAP_BASE_SIZE (heap_expo_growth_iters a) <=? HEAP_EXPONENTIAL_GROWTH_LIMIT
       then (size_t (Z.shiftl HEAP_BASE_SIZE (heap_expo_growth_iters a)), set_expo_iters a (heap_expo_growth_iters a + 1))
       else (size_t (HEAP_EXPONENTIAL_GROWTH_LIMIT + HEAP_CONSTANT_GROWTH * heap_constant_growth_iters a),
             set_constant_iters a (heap_constant_growth_iters a + 1))) = next_heap a.
Proof using Type.
  intros He Hc Hec. unfold next_heap, HEAP_BASE_SIZE, HEAP_EXPONENTIAL_GROWTH_LIMIT, HEAP_CONSTANT_GROWTH, HEAP_MAX_SIZE.
  set (e := heap_expo_growth_iters a) in *. set (c := heap_constant_growth_iters a) in *. clearbody e c.
  assert (e = 0 \/ e = 1 \/ e = 2 \/ e = 3 \/ e = 4 \/ e = 5 \/ e = 6 \/ e = 7) as Hcase by lia.
  repeat (destruct Hcase as [->|Hcase]; [by vm_compute|]). subst e. cbn [Z.leb Z.compare Pos.compare Pos.compare_cont].
  change ((1024 * 1024) ≪ 7 <=? 64 * 1024 * 1024) with false. cbn [fst]. rewrite uwrap_small by (unfold in_uint; lia). lia.
Qed.

(** C24: while a slot of the heap table is left, [grow_heap] takes the size of
    the growth rule (seven doublings from 1 MiB, then 64 MiB more each time)
    without wrapping around; the size is never above [HEAP_MAX_SIZE], so the
    diagnostic of that case is never printed, and exactly one heap of that
    size is appended.  The code itself does not look at the length of the
    table: after [MAX_HEAP_GROWTH_ITERATIONS] heaps the next growth stores
    behind it, which has no defined result, and this is the only growth of a
    well-formed arena (on a kernel that maps) without one. *)
Theorem grow_heap_bounds (s : astate) (L M : gmap Z Z) :
  repr s L M ->
  ((length (alloced_heaps (ar s)) < Z.to_nat MAX_HEAP_GROWTH_ITERATIONS)%nat -> mmap_available s ->
   2 ^ 20 <= next_heap (ar s) <= HEAP_MAX_SIZE /\
   exists s' p, grow_heap s = Some s' /\
     alloced_heaps (ar s') = alloced_heaps (ar s) ++ [AllocedHeap p (p + next_heap (ar s) + HEADER_SIZE)] /\
     maps s' = (p, p + align_page (next_heap (ar s) + 48)) :: maps s) /\
  ((Z.to_nat MAX_HEAP_GROWTH_ITERATIONS <= length (alloced_heaps (ar s)))%nat -> grow_heap s = None).
Proof.
  intros (G & B & Bg & [_ MI] & _). change (Z.to_nat MAX_HEAP_GROWTH_ITERATIONS) with 159%nat.
  destruct (M_iters _ _ MI) as (He & Hc & Hlen). split.
  - intros Hcnt Hmm. destruct (next_heap_size (ar s) He Hc ltac:(lia)) as [Hb Hn]. split; [done|].
    destruct (grow_size (ar s)) as (sz & e & c & Eg & Hsz & Hsz16 & _); [lia..|].
    unfold grow_heap. rewrite Eg in *. cbn [fst] in Hn. subst sz. set (sz := next_heap (ar s)) in *. clearbody sz.
    assert ((sz + 32) mod 16 = 0) by (apply mod_add_0; done || lia).
    destruct (Hmm (sz + 32 + 16)) as [p Hp]; [lia|].
    unfold HEAP_BOUNDARY_SIZE. rewrite (uwrap_small 64 (sz + 32)) by (unfold in_uint; lia).
    destruct (alloc_chunk_run (with_ar s (set_constant_iters (set_expo_iters (ar s) e) c)) (sz + 32) p) as (m1 & E1 & _); [lia|done|done|].
    rewrite E1. cbn [mbind option_bind mm ar maps with_ar]. unfold MAX_HEAP_GROWTH_ITERATIONS.
    destruct (Z.ltb_spec (Z.of_nat (length (alloced_heaps (set_top_chunk (set_constant_iters (set_expo_iters (ar s) e) c) p)))) 159) as [_|Hx];
      [|cbn in Hx; lia].
    cbn [c_assert mbind option_bind]. do 2 eexists. split; [done|]. split; [done|]. cbn [maps]. by replace (sz + 48) with (sz + 32 + 16) by lia.
  - intros Hcnt. unfold grow_heap. destruct (if _ <=? _ then _ else _) as [sz a'] eqn:Eg.
    assert (alloced_heaps a' = alloced_heaps (ar s)) as Ea by (destruct (_ <=? _); injection Eg as _ <-; done).
    destruct (alloc_chunk (with_ar s a') _) as [[p s1]|] eqn:E1; [|done]. cbn [mbind option_bind].
    assert (ar s1 = a') as Ea1.
    { unfold alloc_chunk in E1. cbv zeta in E1. destruct (alloc_memory _ _ _) as [[[q m] ms]|]; [|done]. cbn [mbind option_bind] in E1.
      destruct (c_assert _); [|done]. cbn [mbind option_bind] in E1. by injection E1 as _ <-. }
    cbv zeta. change (alloced_heaps (set_top_chunk (ar s1) p)) with (alloced_heaps (ar s1)). rewrite Ea1, Ea.
    unfold MAX_HEAP_GROWTH_ITERATIONS. by destruct (Z.ltb_spec (Z.of_nat (length (alloced_heaps (ar s)))) 159); [lia|].
Qed.
End contract.

(** *** Instances on the concrete kernel *)

Lemma allocate_spec_witness : exists s, @arena_create bump_os ∅ [] = Some s /\
  exists p s', forall fuel, (chunk_budget (alloced_heaps (ar s)) <= fuel)%nat ->
    @allocate bump_os fuel s 100 = Some (p, s').
Proof.
  destruct bump_arena as (s & E & HR & Hl & Hm). exists s. split; [done|].
  destruct (@allocate_spec bump_os bump_laws s ∅ ∅ 100 HR ltac:(lia) Hl Hm) as (p & k & s' & L' & M' & E' & _).
  exists p, s'. exact E'.
Defined.

(** A live block, for the instances of [release]. *)
Lemma bump_block (n : Z) : 0 < n <= 2 ^ 39 -> exists s p k L M, @repr bump_os s L M /\ n <= k < n + 80 /\
  ((payload_size_of n < MMAP_THRESHOLD /\ L !! p = Some k) \/ (MMAP_THRESHOLD <= payload_size_of n /\ M !! p = Some k)).
Proof.
  intros Hn. destruct bump_arena as (s & _ & HR & Hl & Hm).
  pose proof (@repr_allocate bump_os bump_laws s ∅ ∅ n HR Hn Hl Hm) as HN.
  destruct (payload_size_of_spec n) as (? & ? & _ & ?); [lia|].
  destruct (HN _ (le_n _)) as (p & k & s' & _ & _ & _ & _ & Hk & [[Hs HR']|[Hs HR']]);
    exists s', p, k; do 2 eexists; (split; [exact HR'|]); (split; [lia|]);
    [left|right]; (split; [done|]); apply lookup_insert_eq.
Qed.

Lemma grow_heap_bounds_witness : exists s s' p, @arena_create bump_os ∅ [] = Some s /\ @grow_heap bump_os s = Some s' /\
  alloced_heaps (ar s') = alloced_heaps (ar s) ++ [AllocedHeap p (p + next_heap (ar s) + HEADER_SIZE)].
Proof.
  destruct bump_arena as (s & E & HR & Hl & Hm).
  destruct (@grow_heap_bounds bump_os bump_laws s ∅ ∅ HR) as [HG _].
  destruct HG as (_ & s' & p & Eg & Eh & _); [exact Hl|exact Hm|]. exists s, s', p. auto.
Defined.

Lemma release_spec_witness : exists s p L M k s', @repr bump_os s L M /\ L !! p = Some k /\
  @release bump_os s p = Some s' /\ @repr bump_os s' (delete p L) M.
Proof.
  destruct (bump_block 100 ltac:(lia)) as (s & p & k & L & M & HR & Hk & [[_ Hp]|[Hs _]]);
    [|vm_compute in Hs; by destruct Hs].
  destruct (@release_spec bump_os bump_laws s L M p k HR Hp) as (s' & E & HR' & _).
  { unfold MMAP_THRESHOLD. lia. }
  exists s, p, L, M, k, s'. split_and!; done.
Defined.

Lemma release_mapped_spec_witness : exists s p L M k s', @repr bump_os s L M /\ M !! p = Some k /\
  @release bump_os s p = Some s' /\ @repr bump_os s' L (delete p M).
Proof.
  destruct (bump_block 200000 ltac:(lia)) as (s & p & k & L & M & HR & Hk & [[Hs _]|[_ Hp]]);
    [vm_compute in Hs; done|].
  destruct (@release_mapped_spec bump_os bump_laws s L M p k HR Hp) as (s' & E & HR' & _).
  exists s, p, L, M, k, s'. split_and!; done.
Defined.

Lemma arena_create_spec_witness : exists s, @arena_create bump_os ∅ [] = Some s /\ @repr bump_os s ∅ ∅.
Proof.
  destruct (@arena_create_spec bump_os bump_laws ∅ []) as (s & E & HR & _).
  - intros n Hn. apply bump_available; [vm_compute; discriminate|done].
  - intros p n Hp Hn. vm_compute in Hp. injection Hp as <-. apply bump_available; [vm_compute; discriminate|done].
  - exists s. split; done.
Defined.

(** A live block in an arena with room for more. *)
Lemma bump_ready_block : exists s L p k, @arena_ok bump_os s L /\ @arena_room bump_os s 15 /\ L !! p = Some k /\ 200 <= k.
Proof.
  destruct bump_arena as (s & E & HR & Hl & Hm).
  assert ((s ← @arena_create bump_os ∅ []; '(_, s) ← @allocate bump_os 9 s 200;
           Some ((length (alloced_heaps (ar s)) <? 100)%nat && (maps_end (maps s) <=? 2 ^ 40))) = Some true) as Hb
    by (vm_compute; reflexivity).
  rewrite E in Hb. cbn [mbind option_bind] in Hb.
  destruct (@allocate bump_os 9 s 200) as [[p1 s1]|] eqn:E1; [|done]. cbn [mbind option_bind] in Hb.
  injection Hb as [Hc1 Hc2]%andb_true_iff. apply Nat.ltb_lt in Hc1. apply Z.leb_le in Hc2.
  pose proof (@repr_allocate bump_os bump_laws s ∅ ∅ 200 HR ltac:(lia) Hl Hm) as HN.
  destruct (payload_size_of_spec 200) as (? & ? & _ & ?); [lia|].
  destruct (HN _ (le_n _)) as (p & n & s' & E' & _ & _ & _ & Hn & [[_ HR1]|[Hs _]]);
    [|vm_compute in Hs; by destruct Hs].
  assert ((p, s') = (p1, s1)) as [= -> ->] by (by eapply allocate_same).
  exists s1. do 3 eexists. split; [by eexists|]. split; [|split; [apply lookup_insert_eq|lia]].
  split; [lia|]. apply bump_room. lia.
Qed.

(** The same as a heap for the clients of the interface. *)
#[export] Existing Instances bump_os bump_laws.
Lemma bump_heap : exists (s : astate) L p k, h_ok s L /\ h_room s 15 /\ L !! p = Some k /\ 200 <= k.
Proof. exact bump_ready_block. Qed.

(** Two blocks; one is written, the other released and its space asked for
    again; the words of the first are read back. *)
Definition bump_requests : list request :=
  [RAlloc 100; RAlloc 1000; RWrite 0 0 7; RWrite 0 11 8; RFree 1; RAlloc 900; RWrite 2 0 9; RWrite 0 0 10;
   RRead 0 0; RRead 0 11; RRead 2 0].

Lemma allocator_serves_blocks_witness : exists s L c, arena_ok s L /\
  serve_all (Client s ∅ 0 []) bump_requests = Some c /\ c_seen c = [10; 8; 9].
Proof.
  destruct bump_ready_block as (s & L & p & k & [M HR] & Hr & _).
  destruct (expected_all (Blocks ∅ 0 []) bump_requests) as [B|] eqn:EB; [|by vm_compute in EB].
  assert (b_seen B = [10; 8; 9]) as <- by (vm_compute in EB; by injection EB as <-).
  destruct (allocator_serves_blocks s L M bump_requests B HR) as (c & Ec & Es & _); [|exact EB|].
  { change (allocs bump_requests) with 3%nat. do 12 (apply arena_room_less in Hr). exact Hr. }
  exists s, L, c. split; [by exists M|]. split; [exact Ec|exact Es].
Defined.

(** ** Two defects, on concrete runs *)

(** [forward_coalesce] merges a released chunk into the top chunk with the
    flags of the released chunk, so the new top chunk is marked in use. *)
Definition top_in_use_after (n : Z) : option (bool * bool) :=
  s ← @arena_create bump_os ∅ [];
  let before := is_curr_inuse (mm s) (top_chunk (ar s)) in
  '(p, s) ← @allocate bump_os 9 s n;
  s ← @release bump_os s p;
  Some (before, is_curr_inuse (mm s) (top_chunk (ar s))).

(** After allocating 200 bytes in a new arena and releasing them, the top
    chunk, which nobody owns, carries the in-use flag (it did not before):
    the flag the sweep of the collector reads. *)
Theorem release_marks_top_in_use : top_in_use_after 200 = Some (false, true).
Proof. vm_compute. reflexivity. Qed.

(** A request just below [MMAP_THRESHOLD] may get an unsplit chunk of at
    least that size; [release] then takes it for a mapping of its own. *)
Definition unmap_heap_run : option (bool * bool) :=
  s ← @arena_create bump_os ∅ [];
  '(a, s) ← @allocate bump_os 9 s 65536;
  '(b, s) ← @allocate bump_os 9 s 65520;
  '(c, s) ← @allocate bump_os 9 s 200;
  s ← @release bump_os s a;
  s ← @release bump_os s b;
  '(d, s) ← @allocate bump_os 9 s 131056;
  let is_mapped s := existsb (fun r => (r.1 <=? c) && (c <? r.2)) (maps s) in
  let before := is_mapped s in
  s ← @release bump_os s d;
  Some (before, is_mapped s).

(** [release] of a block of 131056 bytes that was served from the heap
    unmaps pages of the heap under another live block: block [c] is mapped
    before the call and not after it. *)
Theorem release_unmaps_live_block : unmap_heap_run = Some (true, false).
Proof. vm_compute. reflexivity. Qed.
