(* ===== verification/Queue.v ===== *)
(** * Queue: the task queues of the runtime (src/runtime/src/queue.c)

    [safe_queue]: the FIFO of ready tasks, a singly linked list with head
    and tail under a mutex and a condition variable.  [unsafe_queue] and
    [safe_gcqueue]: circular doubly linked lists of wait-queue nodes, the
    second one under a mutex.  Nodes come from the global arena. *)

From S2P Require Import Prelude Mem Dll Alloc AllocOs AllocMain Heap.

(** ** Mutexes and condition variables

    Locking a held mutex does not return and unlocking one that is not held
    is undefined: both are [None].  A condition variable counts the threads
    asleep on it and the ones that were signalled but did not run yet. *)
Record cond := Cond { waiting : nat; woken : nat }.

Definition cond_init : cond := Cond 0 0.
Definition cond_signal (c : cond) : cond :=
  match waiting c with O => c | S w => Cond w (S (woken c)) end.
Definition cond_wait (c : cond) : cond := Cond (S (waiting c)) (woken c).

Definition mutex_lock (held : bool) : option bool := c_assert (negb held) ;; Some true.
Definition mutex_unlock (held : bool) : option bool := c_assert held ;; Some false.

(** ** The ready queue *)

(** [task_node_t]: [t] and [next]; 16 bytes. *)
Definition o_node_t : Z := 0.
Definition o_node_next : Z := 8.
Definition sizeof_task_node : Z := 16.

(** [safe_queue_t] *)
Record safe_queue := SafeQueue {
  q_size_limit : Z; q_head : Z; q_tail : Z; q_lock : bool; q_cond : cond
}.

(** What a thread in [safe_q_pop_wait] does next: it gets a task, or falls
    asleep in [pthread_cond_wait], which gives the mutex back. *)
Inductive popped := Got (t : Z) | Asleep.

Section safe_queue.
Context `{Heap H}.

Definition safe_q_init (size : Z) : safe_queue := SafeQueue size NULL NULL false cond_init.

Definition safe_q_push (h : H) (q : safe_queue) (t : Z) : option (H * safe_queue) :=
  '(n, h) ← h_alloc h sizeof_task_node;
  let h := put h (n + o_node_t) t in
  let h := put h (n + o_node_next) NULL in
  l ← mutex_lock (q_lock q);
  let '(h, hd, tl) :=
    if q_tail q =? NULL then (h, n, n) else (put h (q_tail q + o_node_next) n, q_head q, n) in
  let c := cond_signal (q_cond q) in
  l ← mutex_unlock l;
  Some (h, SafeQueue (q_size_limit q) hd tl l c).

(** Taking the first node off and releasing it, the tail of both pops. *)
Definition take_head (h : H) (q : safe_queue) (l : bool) : option (Z * H * safe_queue) :=
  let n := q_head q in
  let hd := ld (h_mem h) (n + o_node_next) in
  let tl := if hd =? NULL then NULL else q_tail q in
  l ← mutex_unlock l;
  let t := ld (h_mem h) (n + o_node_t) in
  h ← h_free h n;
  Some (t, h, SafeQueue (q_size_limit q) hd tl l (q_cond q)).

Definition safe_q_pop (h : H) (q : safe_queue) : option (Z * H * safe_queue) :=
  l ← mutex_lock (q_lock q);
  if q_head q =? NULL then
    l ← mutex_unlock l;
    Some (NULL, h, SafeQueue (q_size_limit q) (q_head q) (q_tail q) l (q_cond q))
  else take_head h q l.

Definition safe_q_pop_wait (h : H) (q : safe_queue) : option (popped * H * safe_queue) :=
  l ← mutex_lock (q_lock q);
  if q_head q =? NULL then
    l ← mutex_unlock l;
    Some (Asleep, h, SafeQueue (q_size_limit q) (q_head q) (q_tail q) l (cond_wait (q_cond q)))
  else '(t, h, q) ← take_head h q l; Some (Got t, h, q).

(** A signalled thread goes round the [while] loop again. *)
Definition safe_q_pop_resume (h : H) (q : safe_queue) : option (popped * H * safe_queue) :=
  match woken (q_cond q) with
  | O => None
  | S k => safe_q_pop_wait h (SafeQueue (q_size_limit q) (q_head q) (q_tail q) (q_lock q) (Cond (waiting (q_cond q)) k))
  end.
End safe_queue.

(** ** The wait queues *)

(** [wait_q_metadata_t]: [fd], [bk], [t]; 24 bytes. *)
Definition o_wq_fd : Z := 0.
Definition o_wq_bk : Z := 8.
Definition o_wq_t : Z := 16.
Definition sizeof_wait_q_metadata : Z := 24.

Record unsafe_queue := UnsafeQueue { ioq_limit : Z; ioq_head : Z }.
Record safe_gcqueue := SafeGcQueue { gcq_limit : Z; gcq_head : Z; gcq_lock : bool; gcq_cond : cond }.

Section wait_queue.
Context `{Heap H}.
(** Offsets of the fields [wq] and [gcq] in [task_t]; they depend on the
    platform's register context, which lies before them. *)
Context (o_wq o_gcq : Z).

Definition unsafe_ioq_init (size : Z) : unsafe_queue := UnsafeQueue size NULL.

(** The pointer surgery of a push, before the present head. *)
Definition ring_insert (h : H) (hd n : Z) : H :=
  if hd =? NULL then put (put h (n + o_wq_fd) n) (n + o_wq_bk) n
  else
    let h := put h (n + o_wq_fd) hd in
    let h := put h (n + o_wq_bk) (ld (h_mem h) (hd + o_wq_bk)) in
    let h := put h (ld (h_mem h) (hd + o_wq_bk) + o_wq_fd) n in
    put h (hd + o_wq_bk) n.

Definition unsafe_ioq_push (h : H) (q : unsafe_queue) (t : Z) : option (H * unsafe_queue) :=
  '(n, h) ← h_alloc h sizeof_wait_q_metadata;
  c_assert (negb (n =? NULL)) ;;
  let h := put h (n + o_wq_t) t in
  let h := put h (t + o_wq) n in
  Some (ring_insert h (ioq_head q) n, UnsafeQueue (ioq_limit q) n).

(** The new head once [wq] is taken out, and the store. *)
Definition ring_remove (h : H) (hd wq : Z) : H * Z :=
  if ld (h_mem h) (wq + o_wq_fd) =? wq then (h, NULL)
  else
    let h := put h (ld (h_mem h) (wq + o_wq_fd) + o_wq_bk) (ld (h_mem h) (wq + o_wq_bk)) in
    let h := put h (ld (h_mem h) (wq + o_wq_bk) + o_wq_fd) (ld (h_mem h) (wq + o_wq_fd)) in
    (h, if hd =? wq then ld (h_mem h) (wq + o_wq_fd) else hd).

Definition unsafe_ioq_remove (h : H) (q : unsafe_queue) (t : Z) : option (Z * H * unsafe_queue) :=
  let wq := ld (h_mem h) (t + o_wq) in
  if (wq =? NULL) || (ioq_head q =? NULL) then Some (0, h, q)
  else
    let '(h, hd) := ring_remove h (ioq_head q) wq in
    let h := put h (wq + o_wq_fd) NULL in
    let h := put h (wq + o_wq_bk) NULL in
    let h := put h (t + o_wq) NULL in
    h ← h_free h wq;
    Some (1, h, UnsafeQueue (ioq_limit q) hd).

Definition safe_gcq_init (size : Z) : safe_gcqueue := SafeGcQueue size NULL false cond_init.

Definition safe_gcq_push (h : H) (q : safe_gcqueue) (t : Z) : option (H * safe_gcqueue) :=
  '(n, h) ← h_alloc h sizeof_wait_q_metadata;
  c_assert (negb (n =? NULL)) ;;
  let h := put h (n + o_wq_t) t in
  let h := put h (t + o_gcq) n in
  l ← mutex_lock (gcq_lock q);
  let h := ring_insert h (gcq_head q) n in
  let c := cond_signal (gcq_cond q) in
  l ← mutex_unlock l;
  Some (h, SafeGcQueue (gcq_limit q) n l c).

(** Both ways out of the function that differ from the unsafe queue: the
    early return keeps the mutex, and the single-element branch unlocks it
    before the common unlock. *)
Definition safe_gcq_remove (h : H) (q : safe_gcqueue) (t : Z) : option (Z * H * safe_gcqueue) :=
  l ← mutex_lock (gcq_lock q);
  let gcq := ld (h_mem h) (t + o_gcq) in
  if (gcq =? NULL) || (gcq_head q =? NULL)
  then Some (0, h, SafeGcQueue (gcq_limit q) (gcq_head q) l (gcq_cond q))
  else
    let single := ld (h_mem h) (gcq + o_wq_fd) =? gcq in
    let '(h, hd) := ring_remove h (gcq_head q) gcq in
    l ← (if single then mutex_unlock l else Some l);
    let h := put h (gcq + o_wq_fd) NULL in
    let h := put h (gcq + o_wq_bk) NULL in
    let h := put h (t + o_gcq) NULL in
    l ← mutex_unlock l;
    h ← h_free h gcq;
    Some (1, h, SafeGcQueue (gcq_limit q) hd l (gcq_cond q)).
End wait_queue.
