(* ===== verification/QueueSpec.v ===== *)
(** * QueueSpec: the queues hold what was pushed, in order

    The ready queue refines a list with FIFO order; the wait queues refine
    a circular list.  Everything is proved against the interface of the
    allocator (Heap.v). *)

From S2P Require Import Prelude Mem Dll Alloc AllocOs AllocMain AllocSpec Heap Queue.

(** ** Linked segments of task nodes: pairs of node and task *)
Fixpoint seg (m : mem) (x : Z) (ns : list (Z * Z)) (y : Z) : Prop :=
  match ns with
  | [] => x = y
  | (n, t) :: r => x = n /\ ld m (n + o_node_t) = t /\ seg m (ld m (n + o_node_next)) r y
  end.

Lemma seg_app (m : mem) (a b : list (Z * Z)) (y : Z) : forall x,
  seg m x (a ++ b) y <-> exists z, seg m x a z /\ seg m z b y.
Proof.
  induction a as [|[n t] a IH]; intros x; simpl.
  - split; [intros Hs; by exists x|]. by intros (z & -> & ?).
  - rewrite IH. split.
    + intros (? & ? & z & ? & ?). exists z. done.
    + intros (z & (? & ? & ?) & ?). split_and!; eauto.
Qed.

Lemma seg_frame (m m' : mem) (ns : list (Z * Z)) (y : Z) : forall x,
  (forall n t, (n, t) ∈ ns -> ld m' (n + o_node_t) = ld m (n + o_node_t) /\ ld m' (n + o_node_next) = ld m (n + o_node_next)) ->
  seg m x ns y -> seg m' x ns y.
Proof.
  induction ns as [|[n t] ns IH]; intros x Hf; [done|]. simpl.
  destruct (Hf n t) as [-> ->]; [by left|]. intros (? & ? & ?). split_and!; try done.
  apply IH; [|done]. intros n' t' Hn. apply (Hf n' t'). by right.
Qed.

Section fifo.
Context `{HeapSpec H}.

(** The queue [q] in heap [h] holds the nodes and tasks [ns], in order. *)
Record QInv (h : H) (q : safe_queue) (L : gmap Z Z) (ns : list (Z * Z)) : Prop := {
  QI_heap : h_ok h L;
  QI_seg : seg (h_mem h) (q_head q) ns NULL;
  QI_tail : q_tail q = from_option fst NULL (last ns);
  QI_nodup : NoDup ns.*1;
  QI_live : forall n t, (n, t) ∈ ns -> exists k, L !! n = Some k /\ 16 <= k < MMAP_THRESHOLD;
  QI_lock : q_lock q = false
}.

Lemma QI_node_pos (h : H) (q : safe_queue) (L : gmap Z Z) (ns : list (Z * Z)) (n t : Z) :
  QInv h q L ns -> (n, t) ∈ ns -> n <> NULL.
Proof.
  intros Q Hn. destruct (QI_live _ _ _ _ Q _ _ Hn) as (k & Hk & _).
  destruct (h_block _ _ _ _ (QI_heap _ _ _ _ Q) Hk). lia.
Qed.

Lemma QI_empty (h : H) (q : safe_queue) (L : gmap Z Z) (ns : list (Z * Z)) :
  QInv h q L ns -> q_head q = NULL <-> ns = [].
Proof.
  intros Q. pose proof (QI_seg _ _ _ _ Q) as Hs. destruct ns as [|[n t] ns]; [done|].
  simpl in Hs. destruct Hs as (-> & _). split; [|done]. intros E. exfalso.
  eapply (QI_node_pos _ _ _ _ n t Q); [by left|done].
Qed.

(** Two words of different blocks are different words. *)
Lemma block_words (h : H) (L : gmap Z Z) (p k q j x y : Z) :
  h_ok h L -> L !! p = Some k -> L !! q = Some j -> p <> q ->
  p <= x < p + k -> q <= y < q + j -> x <> y.
Proof. intros Ho Hp Hq Hne ? ?. destruct (h_apart _ _ _ _ _ _ Ho Hp Hq Hne); lia. Qed.

Lemma safe_q_push_ok (h : H) (q : safe_queue) (L : gmap Z Z) (ns : list (Z * Z)) (t : Z) :
  QInv h q L ns -> h_ready h ->
  exists h' q' n k, safe_q_push h q t = Some (h', q') /\ L !! n = None /\
    QInv h' q' (<[n := k]> L) (ns ++ [(n, t)]) /\
    (forall p j x, L !! p = Some j -> p ∉ ns.*1 -> p <= x < p + j -> ld (h_mem h') x = ld (h_mem h) x).
Proof.
  intros Q Hr. unfold safe_q_push, sizeof_task_node.
  destruct (h_alloc_one h L 16 (QI_heap _ _ _ _ Q) Hr) as (n & k & h1 & E & Hn & Hk & Ho1 & HK);
    [unfold REQUEST_MAX; lia|].
  rewrite E. cbn [mbind option_bind]. rewrite (QI_lock _ _ _ _ Q). cbn [mutex_lock negb c_assert mbind option_bind].
  set (h2 := put h1 (n + o_node_t) t). set (h3 := put h2 (n + o_node_next) NULL).
  set (L' := <[n := k]> L) in *. assert (L' !! n = Some k) as Hn' by apply lookup_insert_eq.
  assert (forall p j, L !! p = Some j -> p <> n /\ L' !! p = Some j) as HL'.
  { intros p j Hp. assert (p <> n) by congruence. split; [done|]. unfold L'. by rewrite lookup_insert_ne. }
  assert (h_ok h3 L') as Ho3.
  { eapply put_ok; [eapply put_ok; [exact Ho1|exact Hn'|]|exact Hn'|]; unfold o_node_t, o_node_next; lia. }
  assert (forall p j x, L !! p = Some j -> p <= x < p + j -> ld (h_mem h3) x = ld (h_mem h) x) as F3.
  { intros p j x Hp Hx. destruct (HL' p j Hp) as [Hne Hp']. unfold h3, h2. rewrite !put_mem.
    assert (forall o, 0 <= o < 16 -> x <> n + o) as Hxo.
    { intros o Ho. eapply (block_words h1 L' p j n k); eauto. lia. }
    rewrite !ld_st_ne; [by apply (HK p j)| |]; intros E'; symmetry in E'; revert E'; apply Hxo; unfold o_node_t, o_node_next; lia. }
  assert (seg (h_mem h3) n [(n, t)] NULL) as S3.
  { simpl. unfold h3, h2. rewrite !put_mem. unfold o_node_t, o_node_next. split_and!; [done| |]; ld_steps; done. }
  assert (NoDup (ns ++ [(n, t)]).*1) as Hnd.
  { rewrite fmap_app. apply NoDup_app. split_and!; [apply Q| |apply NoDup_singleton].
    intros x Hx Hx'. apply list_elem_of_singleton in Hx'. simpl in Hx'. subst x.
    apply list_elem_of_fmap in Hx as ([n0 t0] & E0 & Hx). simpl in E0. subst n0.
    destruct (QI_live _ _ _ _ Q _ _ Hx) as (j & Hj & _). congruence. }
  assert (forall n0 t0, (n0, t0) ∈ ns ++ [(n, t)] -> exists k, L' !! n0 = Some k /\ 16 <= k < MMAP_THRESHOLD) as Hlv.
  { intros n0 t0 [Hin|Hin]%elem_of_app.
    - destruct (QI_live _ _ _ _ Q _ _ Hin) as (j & Hj & ?). exists j. split; [by apply HL'|done].
    - apply list_elem_of_singleton in Hin as [= -> ->]. exists k. split; [done|lia]. }
  destruct ns as [|[a ta] r _] using rev_ind.
  - rewrite (QI_tail _ _ _ _ Q). simpl from_option. rewrite Z.eqb_refl.
    do 4 eexists. split; [done|]. split; [done|]. split.
    + split; cbn; try done.
    + intros p j x Hp _ Hx. by apply (F3 p j).
  - pose proof (QI_tail _ _ _ _ Q) as Ht. rewrite last_snoc in Ht. simpl in Ht. rewrite Ht.
    assert ((a, ta) ∈ r ++ [(a, ta)]) as Ha by (apply elem_of_app; right; by left).
    destruct (Z.eqb_spec a NULL) as [Ea|_]; [destruct (QI_node_pos _ _ _ _ _ _ Q Ha Ea)|].
    destruct (QI_live _ _ _ _ Q _ _ Ha) as (j & Hj & Hj16). destruct (HL' a j Hj) as [Han Hj'].
    do 4 eexists. split; [done|]. split; [done|].
    set (h4 := put h3 (a + o_node_next) n).
    assert (h_mem h4 = st (h_mem h3) (a + o_node_next) n) as E4 by apply put_mem.
    assert (forall p i x, L' !! p = Some i -> p <> a -> p <= x < p + i -> ld (h_mem h4) x = ld (h_mem h3) x) as F4.
    { intros p i x Hp Hne Hx. rewrite E4. apply ld_st_ne. intros <-.
      apply (block_words h1 L' p i a j (a + o_node_next) (a + o_node_next)); try done; unfold o_node_next in *; lia. }
    split.
    + split; cbn [q_head q_tail q_lock]; try done.
      * eapply put_ok; [exact Ho3|exact Hj'|]. unfold o_node_next. lia.
      * pose proof (QI_seg _ _ _ _ Q) as Hs. rewrite <- app_assoc. apply seg_app in Hs as (z & Hs1 & Hs2).
        simpl in Hs2. destruct Hs2 as (-> & Hta & Hnx). apply seg_app. exists a.
        assert (a ∉ r.*1) as Hnr.
        { pose proof (QI_nodup _ _ _ _ Q) as Hd. rewrite fmap_app in Hd. simpl in Hd.
          apply NoDup_app in Hd as (_ & Hd & _). intros Hin. apply (Hd a Hin). by left. }
        split.
        -- eapply seg_frame; [|exact Hs1]. intros n0 t0 Hin.
           assert (n0 <> a) as Hne by (intros ->; apply Hnr, list_elem_of_fmap; by exists (a, t0)).
           destruct (QI_live _ _ _ _ Q n0 t0) as (i & Hi & Hi16); [by apply elem_of_app; left|].
           destruct (HL' n0 i Hi) as [_ Hi'].
           rewrite !(F4 n0 i), !(F3 n0 i) by (done || (unfold o_node_t, o_node_next; lia)). done.
        -- simpl. split; [done|]. split.
           ++ rewrite E4. unfold o_node_t, o_node_next. rewrite ld_st_ne by lia.
              rewrite (F3 a j) by (done || lia). exact Hta.
           ++ rewrite E4 at 1. unfold o_node_next at 1 2. rewrite ld_st_eq.
              destruct S3 as (_ & T1 & T2). rewrite !(F4 n k) by (done || (unfold o_node_t, o_node_next; lia)). done.
      * rewrite last_snoc. done.
    + intros p i x Hp Hnp Hx. destruct (HL' p i Hp) as [_ Hp'].
      rewrite (F4 p i); [by apply (F3 p i)|done| |done].
      intros ->. apply Hnp. rewrite fmap_app, elem_of_app. right. by left.
Qed.

Lemma take_head_ok (h : H) (q : safe_queue) (L : gmap Z Z) (n t : Z) (ns : list (Z * Z)) :
  QInv h q L ((n, t) :: ns) ->
  exists h' q', take_head h q true = Some (t, h', q') /\ QInv h' q' (delete n L) ns /\
    q_cond q' = q_cond q /\ blocks_kept (delete n L) (h_mem h) (h_mem h').
Proof.
  intros Q. pose proof (QI_seg _ _ _ _ Q) as Hs. simpl in Hs. destruct Hs as (Eh & Et & Hs).
  destruct (QI_live _ _ _ _ Q n t) as (k & Hk & Hk16); [by left|].
  destruct (h_free_one h L n k (QI_heap _ _ _ _ Q) Hk) as (h' & Ef & Ho & HK); [lia|].
  unfold take_head. cbn [mutex_unlock c_assert mbind option_bind]. rewrite Eh, Et, Ef. cbn [mbind option_bind].
  do 2 eexists. split; [done|]. split; [|done].
  pose proof (QI_nodup _ _ _ _ Q) as Hnd. simpl in Hnd. apply NoDup_cons in Hnd as [Hn Hnd].
  assert (forall n0 t0, (n0, t0) ∈ ns -> exists k, delete n L !! n0 = Some k /\ 16 <= k < MMAP_THRESHOLD) as Hlv.
  { intros n0 t0 Hin. destruct (QI_live _ _ _ _ Q n0 t0) as (j & Hj & ?); [by right|].
    exists j. split; [|done]. rewrite lookup_delete_ne; [done|]. intros <-. apply Hn, list_elem_of_fmap.
    by exists (n, t0). }
  split; cbn [q_head q_tail q_lock]; try done.
  - eapply seg_frame; [|exact Hs]. intros n0 t0 Hin. destruct (Hlv n0 t0 Hin) as (j & Hj & ?).
    split; eapply HK; try done; unfold o_node_t, o_node_next; lia.
  - pose proof (QI_tail _ _ _ _ Q) as Ht. destruct ns as [|[n1 t1] ns].
    + simpl in Hs. rewrite Hs. done.
    + simpl in Hs. destruct Hs as (En1 & _). rewrite En1.
      destruct (Z.eqb_spec n1 NULL) as [E|_].
      { destruct (QI_node_pos _ _ _ _ n1 t1 Q); [right; by left|done]. }
      rewrite Ht. by rewrite last_cons_cons.
Qed.

Lemma safe_q_pop_ok (h : H) (q : safe_queue) (L : gmap Z Z) (ns : list (Z * Z)) :
  QInv h q L ns ->
  exists h' q', safe_q_pop h q = Some (from_option snd NULL (hd_error ns), h', q') /\
    QInv h' q' (from_option (fun nt => delete nt.1 L) L (hd_error ns)) (tail ns) /\ q_cond q' = q_cond q.
Proof.
  intros Q. unfold safe_q_pop. rewrite (QI_lock _ _ _ _ Q). cbn [mutex_lock negb c_assert mbind option_bind].
  destruct ns as [|[n t] ns].
  - rewrite (proj2 (QI_empty _ _ _ _ Q) eq_refl). cbn. do 2 eexists. split; [done|]. split; [|done].
    destruct Q. by split.
  - destruct (Z.eqb_spec (q_head q) NULL) as [E|_]; [by apply (QI_empty _ _ _ _ Q) in E|].
    destruct (take_head_ok _ _ _ _ _ _ Q) as (h' & q' & E & Q' & Ec & _). rewrite E. eauto 6.
Qed.

(** ** Refinement of the FIFO list *)

Inductive qop := Push (t : Z) | Pop.

(** The abstract queue: push at the end, pop the first or [NULL]. *)
Definition fifo_step (l : list Z) (o : qop) : list Z * list Z :=
  match o with
  | Push t => ([], l ++ [t])
  | Pop => ([default NULL (hd_error l)], tail l)
  end.

Fixpoint fifo_run (l : list Z) (ops : list qop) : list Z * list Z :=
  match ops with
  | [] => ([], l)
  | o :: ops => let '(out, l) := fifo_step l o in let '(outs, l) := fifo_run l ops in (out ++ outs, l)
  end.

(** Runs of the code; a push happens when the heap is ready for it. *)
Inductive qrun : H * safe_queue -> list qop -> list Z -> H * safe_queue -> Prop :=
| qrun_nil s : qrun s [] [] s
| qrun_push h q t h1 q1 ops outs s : h_ready h -> safe_q_push h q t = Some (h1, q1) ->
    qrun (h1, q1) ops outs s -> qrun (h, q) (Push t :: ops) outs s
| qrun_pop h q t h1 q1 ops outs s : safe_q_pop h q = Some (t, h1, q1) ->
    qrun (h1, q1) ops outs s -> qrun (h, q) (Pop :: ops) (t :: outs) s.

Lemma qrun_fifo (s s' : H * safe_queue) (ops : list qop) (outs : list Z) :
  qrun s ops outs s' -> forall L ns, QInv s.1 s.2 L ns ->
  exists L' ns', QInv s'.1 s'.2 L' ns' /\ fifo_run (ns.*2) ops = (outs, ns'.*2).
Proof.
  induction 1 as [s|h q t h1 q1 ops outs s Hr E Hrun IH|h q t h1 q1 ops outs s E Hrun IH]; intros L ns Q; simpl in *.
  - eauto.
  - destruct (safe_q_push_ok _ _ _ _ t Q Hr) as (h2 & q2 & n & k & E' & _ & Q' & _).
    rewrite E in E'. injection E' as <- <-. destruct (IH _ _ Q') as (L' & ns' & Q2 & Er).
    rewrite fmap_app in Er. simpl in Er. rewrite Er. eauto.
  - destruct (safe_q_pop_ok _ _ _ _ Q) as (h2 & q2 & E' & Q' & _). rewrite E in E'. injection E' as -> <- <-.
    destruct (IH _ _ Q') as (L' & ns' & Q2 & Er). rewrite <- fmap_tail, Er. exists L', ns'. split; [done|].
    by destruct ns as [|[n t] ns].
Qed.

(** ** Sleeping threads

    Threads push, poll, or wait on the queue; a signalled waiter runs
    later and tests the queue again. *)
Inductive qstep : H * safe_queue -> H * safe_queue -> Prop :=
| qs_push h q t h' q' : h_ready h -> safe_q_push h q t = Some (h', q') -> qstep (h, q) (h', q')
| qs_pop h q t h' q' : safe_q_pop h q = Some (t, h', q') -> qstep (h, q) (h', q')
| qs_wait h q r h' q' : safe_q_pop_wait h q = Some (r, h', q') -> qstep (h, q) (h', q')
| qs_resume h q r h' q' : safe_q_pop_resume h q = Some (r, h', q') -> qstep (h, q) (h', q').

(** While a thread sleeps unsignalled, there are at most as many tasks as
    signalled threads on their way. *)
Definition no_lost (q : safe_queue) (ns : list (Z * Z)) : Prop :=
  (0 < waiting (q_cond q))%nat -> (length ns <= woken (q_cond q))%nat.

Lemma pop_wait_ok (h : H) (q : safe_queue) (L : gmap Z Z) (ns : list (Z * Z)) :
  QInv h q L ns ->
  exists r h' q' L', safe_q_pop_wait h q = Some (r, h', q') /\ QInv h' q' L' (tail ns) /\
    ((ns = [] /\ r = Asleep /\ q_cond q' = cond_wait (q_cond q)) \/
     (exists t, hd_error ns.*2 = Some t /\ r = Got t /\ q_cond q' = q_cond q)).
Proof.
  intros Q. unfold safe_q_pop_wait. rewrite (QI_lock _ _ _ _ Q). cbn [mutex_lock negb c_assert mbind option_bind].
  destruct ns as [|[n t] ns].
  - rewrite (proj2 (QI_empty _ _ _ _ Q) eq_refl). cbn. exists Asleep. do 2 eexists. exists L.
    split; [done|]. split; [|by left]. destruct Q. by split.
  - destruct (Z.eqb_spec (q_head q) NULL) as [E|_]; [by apply (QI_empty _ _ _ _ Q) in E|].
    destruct (take_head_ok _ _ _ _ _ _ Q) as (h' & q' & E & Q' & Ec & _). rewrite E. cbn.
    do 4 eexists. split; [done|]. split; [exact Q'|]. right. eauto.
Qed.

(** A push signals one sleeper. *)
Lemma push_cond (h : H) (q : safe_queue) (t : Z) (h' : H) (q' : safe_queue) :
  safe_q_push h q t = Some (h', q') -> q_cond q' = cond_signal (q_cond q).
Proof using Type.
  unfold safe_q_push. destruct (h_alloc h _) as [[n0 h0]|]; [|done]. cbn [mbind option_bind].
  destruct (mutex_lock _); [|done]. cbn [mbind option_bind].
  destruct (if q_tail q =? NULL then _ else _) as [[? ?] ?].
  destruct (mutex_unlock _); [|done]. by intros [= _ <-].
Qed.

Lemma qstep_inv (s s' : H * safe_queue) (L : gmap Z Z) (ns : list (Z * Z)) :
  qstep s s' -> QInv s.1 s.2 L ns -> no_lost s.2 ns ->
  exists L' ns', QInv s'.1 s'.2 L' ns' /\ no_lost s'.2 ns'.
Proof.
  intros Hstep Q Hn. unfold no_lost in *.
  destruct Hstep as [h q t h' q' Hr E|h q t h' q' E|h q r h' q' E|h q r h' q' E]; cbn [fst snd] in *.
  - destruct (safe_q_push_ok _ _ _ _ t Q Hr) as (h2 & q2 & n & k & E' & _ & Q' & _).
    rewrite E in E'. injection E' as <- <-. do 2 eexists. split; [exact Q'|].
    rewrite (push_cond _ _ _ _ _ E).
    rewrite length_app. unfold cond_signal. destruct (q_cond q) as [[|w] k']; simpl in *; lia.
  - destruct (safe_q_pop_ok _ _ _ _ Q) as (h2 & q2 & E' & Q' & Ec). rewrite E in E'. injection E' as -> <- <-.
    do 2 eexists. split; [exact Q'|]. rewrite Ec. destruct ns; simpl in *; lia.
  - destruct (pop_wait_ok _ _ _ _ Q) as (r' & h2 & q2 & L' & E' & Q' & Hc). rewrite E in E'. injection E' as -> <- <-.
    do 2 eexists. split; [exact Q'|].
    destruct Hc as [(-> & _ & ->)|(t & _ & _ & ->)]; [simpl; lia|]. destruct ns; simpl in *; lia.
  - unfold safe_q_pop_resume in E. destruct (woken (q_cond q)) as [|k] eqn:Ek; [done|].
    set (q0 := SafeQueue _ _ _ _ _) in E. assert (QInv h q0 L ns) as Q0 by (destruct Q; by split).
    destruct (pop_wait_ok _ _ _ _ Q0) as (r' & h2 & q2 & L' & E' & Q' & Hc). rewrite E in E'. injection E' as -> <- <-.
    do 2 eexists. split; [exact Q'|].
    destruct Hc as [(-> & _ & ->)|(t & Ht & _ & ->)]; simpl; [lia|].
    destruct ns as [|n ns]; simpl in *; [done|lia].
Qed.

Lemma qsteps_inv (s s' : H * safe_queue) :
  rtc qstep s s' -> forall L ns, QInv s.1 s.2 L ns -> no_lost s.2 ns ->
  exists L' ns', QInv s'.1 s'.2 L' ns' /\ no_lost s'.2 ns'.
Proof.
  induction 1 as [s|s s1 s' Hst _ IH]; intros L ns Q Hn; [eauto|].
  destruct (qstep_inv _ _ _ _ Hst Q Hn) as (L' & ns' & Q' & Hn'). eauto.
Qed.

Lemma init_inv (h : H) (L : gmap Z Z) (size : Z) :
  h_ok h L -> QInv h (safe_q_init size) L [] /\ no_lost (safe_q_init size) [].
Proof. intros Ho. split; [|by intros ?]. split; try done; [constructor|]. intros n t Hn. by apply elem_of_nil in Hn. Qed.
End fifo.
