(* ===== verification/RingSpec.v ===== *)
(** * RingSpec: the wait queues are circular lists

    [unsafe_ioq_push] puts a task in front, [unsafe_ioq_remove] takes a
    given task out wherever it is; the mutex of the collector's root queue
    is left held, or unlocked twice, by [safe_gcq_remove]. *)

From S2P Require Import Prelude Mem Dll Alloc AllocOs AllocMain AllocSpec Heap Queue.
From S2P Require Import QueueSpec.

Ltac wqo := unfold o_wq_fd, o_wq_bk, o_wq_t in *.

Section ring.
Context `{HeapSpec H}.
(** The offset in [task_t] of the field that points back to the node. *)
Context (off : Z) (Hoff : 0 <= off).

(** The ring starting at [hd] holds the nodes and tasks [ns], in order. *)
Record RInv (h : H) (hd : Z) (L : gmap Z Z) (ns : list (Z * Z)) : Prop := {
  RI_heap : h_ok h L;
  RI_head : hd = from_option fst NULL (hd_error ns);
  RI_ring : match ns with [] => True | (x, _) :: r => dll o_wq_fd o_wq_bk (h_mem h) x r.*1 end;
  RI_nodup : NoDup ns.*1;
  RI_tasks : NoDup ns.*2;
  RI_node : forall n t, (n, t) ∈ ns -> exists k, L !! n = Some k /\ 24 <= k < MMAP_THRESHOLD;
  RI_task : forall n t, (n, t) ∈ ns -> (exists k, L !! t = Some k /\ off + 8 <= k) /\
    ld (h_mem h) (n + o_wq_t) = t /\ ld (h_mem h) (t + off) = n;
  RI_sep : forall n t n' t', (n, t) ∈ ns -> (n', t') ∈ ns -> n <> t'
}.

(** Blocks of at least 24 bytes, as ring nodes. *)
Definition rnode (L : gmap Z Z) (x : Z) : Prop := exists k, L !! x = Some k /\ 24 <= k.

Lemma rnode_spaced (h : H) (L : gmap Z Z) : h_ok h L -> spaced 24 (rnode L).
Proof.
  intros Ho x y (k & Hx & ?) (j & Hy & ?). destruct (decide (x = y)) as [->|Hne]; [auto|].
  destruct (h_apart _ _ _ _ _ _ Ho Hx Hy Hne); lia.
Qed.

Lemma rnode_pos (h : H) (L : gmap Z Z) (x : Z) : h_ok h L -> rnode L x -> 0 < x.
Proof. intros Ho (k & Hx & _). destruct (h_block _ _ _ _ Ho Hx). lia. Qed.

(** Linking [n] in between the last node and the head [x]. *)
Lemma ring_insert_ok (h : H) (L : gmap Z Z) (x n : Z) (l : list Z) :
  h_ok h L -> dll o_wq_fd o_wq_bk (h_mem h) x l -> (forall y, y ∈ n :: x :: l -> rnode L y) -> n ∉ x :: l ->
  h_ok (ring_insert h x n) L /\ dll o_wq_fd o_wq_bk (h_mem (ring_insert h x n)) n (x :: l) /\
  only_differ (fun z => exists y, y ∈ n :: x :: l /\ (z = y + o_wq_fd \/ z = y + o_wq_bk)) (h_mem h) (h_mem (ring_insert h x n)).
Proof.
  intros Ho HD HN Hn. pose proof (rnode_spaced h L Ho) as Hsp.
  assert (rnode L n) as Nn by (apply HN; by left). assert (rnode L x) as Nx by (apply HN; right; by left).
  pose proof (rnode_pos _ _ _ Ho Nx). assert (n <> x) by (intros ->; apply Hn; by left).
  pose proof (dll_before o_wq_fd o_wq_bk (h_mem h) x l []) as Hb. rewrite app_nil_r in Hb. specialize (Hb HD). simpl in Hb.
  set (a := default x (last l)) in *. assert (a ∈ x :: l) as Ha by apply default_last_elem.
  assert (rnode L a) as Na by (apply HN; by right). assert (n <> a) by (intros ->; done).
  unfold ring_insert. destruct (Z.eqb_spec x NULL); [lia|]. rewrite !put_mem.
  pose proof (Hsp n x Nn Nx) as S1. pose proof (Hsp n a Nn Na) as S2. pose proof (Hsp a x Na Nx) as S3.
  assert (ld (st (h_mem h) (n + o_wq_fd) x) (x + o_wq_bk) = a) as E1.
  { etrans; [|exact Hb]. apply ld_st_ne. wqo. lia. }
  rewrite E1.
  assert (ld (st (st (h_mem h) (n + o_wq_fd) x) (n + o_wq_bk) a) (x + o_wq_bk) = a) as E2.
  { etrans; [|exact E1]. apply ld_st_ne. wqo. lia. }
  rewrite E2. set (m' := st (st (st (st (h_mem h) _ _) _ _) _ _) _ _).
  assert (linked o_wq_fd o_wq_bk (h_mem h) m' a n x) as HL.
  { unfold m'. split; wqo; ld_steps; try done. intros z Hz. rewrite !ld_st_ne by lia. done. }
  split_and!.
  - destruct Nn as (kn & Hkn & ?), Nx as (kx & Hkx & ?), Na as (ka & Hka & ?).
    eapply put_ok; [eapply put_ok; [eapply put_ok; [eapply put_ok; [exact Ho|exact Hkn|]|exact Hkn|]|exact Hka|]|exact Hkx|];
      wqo; lia.
  - apply (dll_rotate o_wq_fd o_wq_bk m' x n l []).
    eapply (dll_link o_wq_fd o_wq_bk 24 ltac:(wqo; lia) ltac:(wqo; lia) ltac:(wqo; lia) (h_mem h) m' (rnode L) x n a x l []);
      try done; rewrite ?app_nil_r; try done.
    + intros y Hy. apply HN. rewrite !elem_of_cons in *. tauto.
    + apply ring_split_ends.
  - eapply only_differ_weaken; [|apply HL]. intros z Hz. destruct Hz as [->|[->|[->| ->]]].
    + exists n. split; [by left|auto].
    + exists n. split; [by left|auto].
    + exists a. split; [by right|auto].
    + exists x. split; [right; by left|auto].
Qed.

(** Taking [w] out of a ring of at least two nodes. *)
Lemma ring_unlink_ok (h : H) (L : gmap Z Z) (x w : Z) (l1 l2 : list Z) :
  h_ok h L -> dll o_wq_fd o_wq_bk (h_mem h) x (l1 ++ w :: l2) -> (forall y, y ∈ w :: x :: l1 ++ l2 -> rnode L y) ->
  let m1 := st (h_mem h) (ld (h_mem h) (w + o_wq_fd) + o_wq_bk) (ld (h_mem h) (w + o_wq_bk)) in
  let m' := st m1 (ld m1 (w + o_wq_bk) + o_wq_fd) (ld m1 (w + o_wq_fd)) in
  ld (h_mem h) (w + o_wq_fd) <> w /\ ld m' (w + o_wq_fd) = default x (head l2) /\
  h_ok (put (put h (ld (h_mem h) (w + o_wq_fd) + o_wq_bk) (ld (h_mem h) (w + o_wq_bk)))
          (ld m1 (w + o_wq_bk) + o_wq_fd) (ld m1 (w + o_wq_fd))) L /\
  dll o_wq_fd o_wq_bk m' x (l1 ++ l2) /\
  only_differ (fun z => exists y, y ∈ w :: x :: l1 ++ l2 /\ (z = y + o_wq_fd \/ z = y + o_wq_bk)) (h_mem h) m'.
Proof.
  intros Ho HD HN m1 m'. pose proof (rnode_spaced h L Ho) as Hsp.
  pose proof (dll_next _ _ _ _ _ _ _ HD) as Ef. pose proof (dll_neighbours _ _ _ _ _ _ _ HD) as Hs.
  rewrite Ef in Hs. set (b := default x (head l2)) in *. set (a := ld (h_mem h) (w + o_wq_bk)) in *.
  destruct (ring_split_elem _ _ _ _ _ Hs) as [Ha Hb].
  assert (w ∉ x :: l1 ++ l2) as Hw.
  { destruct HD as [_ Hnd]. apply NoDup_cons in Hnd as [Hx Hnd]. apply NoDup_app_cons_middle in Hnd as (_ & Hw1 & Hw2).
    rewrite elem_of_cons, elem_of_app in *. rewrite elem_of_cons in Hx. intuition congruence. }
  assert (a <> w) by (intros E; rewrite E in Ha; done). assert (b <> w) by (intros E; rewrite E in Hb; done).
  assert (rnode L w) as Nw by (apply HN; by left). assert (rnode L a) as Na by (apply HN; by right).
  assert (rnode L b) as Nb by (apply HN; by right).
  pose proof (Hsp w a Nw Na) as S1. pose proof (Hsp w b Nw Nb) as S2. pose proof (Hsp a b Na Nb) as S3.
  assert (ld m1 (w + o_wq_bk) = a) as E1.
  { unfold m1. rewrite Ef. rewrite ld_st_ne; [done|]. wqo. lia. }
  assert (ld m1 (w + o_wq_fd) = b) as E2.
  { unfold m1. rewrite Ef. rewrite ld_st_ne; [done|]. wqo. lia. }
  assert (m' = st (st (h_mem h) (b + o_wq_bk) a) (a + o_wq_fd) b) as Em' by (unfold m'; rewrite E1, E2; unfold m1; by rewrite Ef).
  assert (unlinked o_wq_fd o_wq_bk (h_mem h) m' a w b) as HL.
  { rewrite Em'. split; wqo; ld_steps; try done. intros z Hz. rewrite !ld_st_ne by lia. done. }
  rewrite E1, E2, Ef. split_and!; try done.
  - rewrite Em'. wqo. rewrite !ld_st_ne by lia. exact Ef.
  - destruct Na as (ka & Hka & ?), Nb as (kb & Hkb & ?).
    eapply put_ok; [eapply put_ok; [exact Ho|exact Hkb|]|exact Hka|]; wqo; lia.
  - eapply (dll_unlink o_wq_fd o_wq_bk 24 ltac:(wqo; lia) ltac:(wqo; lia) ltac:(wqo; lia) (h_mem h) m' (rnode L) x w a b); try done.
    intros y Hy. apply HN. rewrite !elem_of_cons in *. tauto.
  - eapply only_differ_weaken; [|apply HL]. intros z Hz. destruct Hz as [->|[->|[->| ->]]].
    + exists w. split; [by left|auto].
    + exists w. split; [by left|auto].
    + exists a. split; [by right|auto].
    + exists b. split; [by right|auto].
Qed.

(** The words a ring depends on: the three fields of its nodes and the
    back pointer of its tasks. *)
Definition rword (ns : list (Z * Z)) (z : Z) : Prop :=
  exists n t, (n, t) ∈ ns /\ (z = n + o_wq_fd \/ z = n + o_wq_bk \/ z = n + o_wq_t \/ z = t + off).

Lemma RInv_frame (h h' : H) (hd : Z) (L L' : gmap Z Z) (ns : list (Z * Z)) :
  RInv h hd L ns -> h_ok h' L' ->
  (forall p, p ∈ ns.*1 \/ p ∈ ns.*2 -> L' !! p = L !! p) ->
  (forall z, rword ns z -> ld (h_mem h') z = ld (h_mem h) z) -> RInv h' hd L' ns.
Proof.
  intros R Ho HL Hw. split; try done; try apply R.
  - pose proof (RI_ring _ _ _ _ R) as HR. destruct ns as [|[x tx] r]; [done|].
    eapply dll_frame; [|exact HR]. intros n Hn.
    assert (exists t, (n, t) ∈ (x, tx) :: r) as [t Hin].
    { rewrite elem_of_cons in Hn. destruct Hn as [->|Hn]; [exists tx; by left|].
      apply list_elem_of_fmap in Hn as ([n' t] & -> & Hn). exists t. by right. }
    split; apply Hw; exists n, t; tauto.
  - intros n t Hn. destruct (RI_node _ _ _ _ R n t Hn) as (k & Hk & ?). exists k. rewrite HL; [done|].
    left. apply list_elem_of_fmap. by exists (n, t).
  - intros n t Hn. destruct (RI_task _ _ _ _ R n t Hn) as ((k & Hk & ?) & ? & ?). split_and!.
    + exists k. rewrite HL; [done|]. right. apply list_elem_of_fmap. by exists (n, t).
    + rewrite Hw; [done|]. exists n, t. tauto.
    + rewrite Hw; [done|]. exists n, t. tauto.
Qed.

(** Words of a ring lie in the blocks of its nodes and tasks. *)
Lemma rword_block (h : H) (hd : Z) (L : gmap Z Z) (ns : list (Z * Z)) (z : Z) :
  RInv h hd L ns -> rword ns z -> exists p k, L !! p = Some k /\ p <= z < p + k /\
    ((p ∈ ns.*1 /\ z <= p + 16) \/ (p ∈ ns.*2 /\ z = p + off)).
Proof.
  intros R (n & t & Hin & Hz).
  destruct (RI_node _ _ _ _ R n t Hin) as (k & Hk & ?). destruct (RI_task _ _ _ _ R n t Hin) as ((j & Hj & ?) & _).
  assert (n ∈ ns.*1) by (apply list_elem_of_fmap; by exists (n, t)).
  assert (t ∈ ns.*2) by (apply list_elem_of_fmap; by exists (n, t)).
  wqo. destruct Hz as [->|[->|[->| ->]]]; [exists n, k|exists n, k|exists n, k|exists t, j];
    (split; [done|]); (split; [lia|]); [left|left|left|right]; (split; [done|]); lia.
Qed.

Lemma in_fst (ns : list (Z * Z)) (n : Z) : n ∈ ns.*1 -> exists t, (n, t) ∈ ns.
Proof using Type. intros ([n' t] & -> & Hn)%list_elem_of_fmap. by exists t. Qed.

Lemma in_snd (ns : list (Z * Z)) (t : Z) : t ∈ ns.*2 -> exists n, (n, t) ∈ ns.
Proof using Type. intros ([n t'] & -> & Hn)%list_elem_of_fmap. by exists n. Qed.

(** Rewriting links of nodes keeps the task fields. *)
Lemma ring_fields (h : H) (L : gmap Z Z) (N : list Z) (m' : mem) (n t j : Z) :
  h_ok h L -> (forall y, y ∈ N -> rnode L y) ->
  only_differ (fun z => exists y, y ∈ N /\ (z = y + o_wq_fd \/ z = y + o_wq_bk)) (h_mem h) m' ->
  rnode L n -> L !! t = Some j -> off + 8 <= j -> t ∉ N ->
  ld m' (n + o_wq_t) = ld (h_mem h) (n + o_wq_t) /\ ld m' (t + off) = ld (h_mem h) (t + off).
Proof.
  intros Ho HN D (i & Hi & ?) Ht Hj HtN. split; apply D; intros (y & Hy & Hz); destruct (HN y Hy) as (k & Hk & ?).
  - destruct (decide (y = n)) as [->|Hne]; [wqo; lia|].
    apply (block_words h L n i y k (n + o_wq_t) (n + o_wq_t)); try done; wqo; lia.
  - assert (y <> t) by congruence.
    apply (block_words h L y k t j (t + off) (t + off)); try done; wqo; lia.
Qed.

(** *** Removal *)
Lemma ring_remove_ok (h : H) (hd : Z) (L : gmap Z Z) (l1 l2 : list (Z * Z)) (w t : Z) :
  RInv h hd L (l1 ++ (w, t) :: l2) ->
  exists h' hd', ring_remove h hd w = (h', hd') /\ h_ok h' L /\ hd' = from_option fst NULL (hd_error (l1 ++ l2)) /\
    match l1 ++ l2 with [] => True | (x, _) :: r => dll o_wq_fd o_wq_bk (h_mem h') x r.*1 end /\
    only_differ (fun z => exists y, y ∈ (l1 ++ (w, t) :: l2).*1 /\ (z = y + o_wq_fd \/ z = y + o_wq_bk)) (h_mem h) (h_mem h').
Proof.
  intros R. pose proof (RI_heap _ _ _ _ R) as Ho.
  assert (forall y, y ∈ (l1 ++ (w, t) :: l2).*1 -> rnode L y) as HN.
  { intros y Hy. apply in_fst in Hy as [ty Hy]. destruct (RI_node _ _ _ _ R _ _ Hy) as (j & ? & ?). exists j. split; [done|lia]. }
  pose proof (RI_head _ _ _ _ R) as Eh. pose proof (RI_ring _ _ _ _ R) as HR. unfold ring_remove.
  destruct l1 as [|[x tx] l1]; simpl in Eh, HR.
  - destruct l2 as [|[y ty] l2]; simpl in HR.
    + destruct HR as [[HR _] _]. rewrite HR, Z.eqb_refl. do 2 eexists. split_and!; done.
    + apply (dll_rotate o_wq_fd o_wq_bk (h_mem h) w y [] l2.*1) in HR.
      destruct (ring_unlink_ok h L y w l2.*1 [] Ho HR) as (Hf & Ef & Ho' & HD & D).
      { intros z Hz. apply HN. simpl. rewrite app_nil_r in Hz. exact Hz. }
      destruct (Z.eqb_spec (ld (h_mem h) (w + o_wq_fd)) w) as [?|_]; [done|].
      rewrite !put_mem. do 2 eexists. split; [done|]. rewrite Eh, Z.eqb_refl, !put_mem, ?app_nil_r in *.
      split_and!; done.
  - rewrite fmap_app in HR. simpl in HR.
    destruct (ring_unlink_ok h L x w l1.*1 l2.*1 Ho HR) as (Hf & Ef & Ho' & HD & D).
    { intros z Hz. apply HN. rewrite fmap_app. simpl. rewrite !elem_of_cons, !elem_of_app in *. rewrite elem_of_cons. tauto. }
    destruct (Z.eqb_spec (ld (h_mem h) (w + o_wq_fd)) w) as [?|_]; [done|].
    rewrite !put_mem. do 2 eexists. split; [done|]. rewrite !put_mem. split; [done|]. split.
    + pose proof (RI_nodup _ _ _ _ R) as Hnd. simpl in Hnd. apply NoDup_cons in Hnd as [Hnx _].
      destruct (Z.eqb_spec hd w) as [E|_]; [|done]. destruct Hnx. rewrite <- Eh, E, fmap_app, elem_of_app. right. by left.
    + simpl. rewrite fmap_app. split; [done|]. eapply only_differ_weaken; [|exact D]. intros z (u & Hu & Hz). exists u.
      split; [|done]. rewrite fmap_app. simpl. rewrite !elem_of_cons, !elem_of_app in *. rewrite elem_of_cons. tauto.
Qed.

Lemma ring_head_pos (h : H) (hd : Z) (L : gmap Z Z) (l1 l2 : list (Z * Z)) (w t : Z) :
  RInv h hd L (l1 ++ (w, t) :: l2) -> hd <> NULL.
Proof using Type.
  intros R. rewrite (RI_head _ _ _ _ R).
  assert (exists x tx r, l1 ++ (w, t) :: l2 = (x, tx) :: r) as (x & tx & r & E)
    by (destruct l1 as [|[x tx] l1]; simpl; eauto).
  rewrite E in *. simpl. destruct (RI_node _ _ _ _ R x tx) as (k & Hk & _); [by left|].
  destruct (h_block _ _ _ _ (RI_heap _ _ _ _ R) Hk). lia.
Qed.

(** A node is its own successor exactly when it is alone. *)
Lemma ring_single (h : H) (hd : Z) (L : gmap Z Z) (l1 l2 : list (Z * Z)) (w t : Z) :
  RInv h hd L (l1 ++ (w, t) :: l2) -> ld (h_mem h) (w + o_wq_fd) = w <-> l1 ++ l2 = [].
Proof using Type.
  intros R. pose proof (RI_ring _ _ _ _ R) as HR. destruct l1 as [|[x tx] l1]; simpl in *.
  - destruct l2 as [|[y ty] l2]; simpl in *; [by destruct HR as [[? _] _]|].
    destruct HR as [[-> _] Hnd]. apply NoDup_cons in Hnd as [Hnd _].
    split; [|done]. intros ->. destruct Hnd. by left.
  - rewrite fmap_app in HR. simpl in HR. rewrite (dll_next _ _ _ _ _ _ _ HR). split; [|done].
    intros E. destruct HR as [_ Hnd]. exfalso.
    apply (NoDup_app_cons_middle (x :: l1.*1)) in Hnd as (_ & Hn1 & Hn2).
    destruct l2 as [|[y ty] l2]; simpl in *; subst; [apply Hn1|apply Hn2]; by left.
Qed.

(** Words of blocks that are not nodes stay, [a] apart. *)
Definition ring_frame (L : gmap Z Z) (ns : list (Z * Z)) (a : Z) (m m' : mem) : Prop :=
  forall p k x, L !! p = Some k -> p ∉ ns.*1 -> p <= x < p + k -> x <> a -> ld m' x = ld m x.

Lemma only_links_frame (h : H) (L : gmap Z Z) (N : list Z) (m m' : mem) (p k x : Z) :
  h_ok h L -> (forall y, y ∈ N -> rnode L y) ->
  only_differ (fun z => exists y, y ∈ N /\ (z = y + o_wq_fd \/ z = y + o_wq_bk)) m m' ->
  L !! p = Some k -> p ∉ N -> p <= x < p + k -> ld m' x = ld m x.
Proof.
  intros Ho HN D Hp Hn Hx. apply D. intros (y & Hy & Hz). destruct (HN y Hy) as (j & Hj & ?).
  assert (p <> y) by congruence. apply (block_words h L p k y j x x); try done; wqo; lia.
Qed.

(** The whole removal: unlink, clear the fields, free the node. *)
Lemma ring_take_core (h : H) (hd : Z) (L : gmap Z Z) (l1 l2 : list (Z * Z)) (w t : Z) :
  RInv h hd L (l1 ++ (w, t) :: l2) ->
  exists h1 hd' h2, ring_remove h hd w = (h1, hd') /\
    h_free (put (put (put h1 (w + o_wq_fd) NULL) (w + o_wq_bk) NULL) (t + off) NULL) w = Some h2 /\
    RInv h2 hd' (delete w L) (l1 ++ l2) /\ ld (h_mem h2) (t + off) = NULL /\
    ring_frame L (l1 ++ (w, t) :: l2) (t + off) (h_mem h) (h_mem h2) /\
    (forall r, h_room (put (put (put h1 (w + o_wq_fd) NULL) (w + o_wq_bk) NULL) (t + off) NULL) r -> h_room h2 r).
Proof.
  intros R. set (ns := l1 ++ (w, t) :: l2) in *. pose proof (RI_heap _ _ _ _ R) as Ho.
  destruct (ring_remove_ok h hd L l1 l2 w t R) as (h1 & hd' & E & Ho1 & Ehd & HD & D). fold ns in D.
  assert (forall a b, (a, b) ∈ l1 ++ l2 -> (a, b) ∈ ns) as Hsub.
  { intros a b. unfold ns. rewrite !elem_of_app, elem_of_cons. tauto. }
  assert ((w, t) ∈ ns) as Hwt by (unfold ns; rewrite elem_of_app, elem_of_cons; tauto).
  pose proof (RI_nodup _ _ _ _ R) as Hnd1. pose proof (RI_tasks _ _ _ _ R) as Hnd2.
  unfold ns in Hnd1, Hnd2. rewrite fmap_app in Hnd1, Hnd2. simpl in Hnd1, Hnd2.
  apply NoDup_app_cons_middle in Hnd1 as (Hnd1 & Hw1 & Hw2). apply NoDup_app_cons_middle in Hnd2 as (Hnd2 & Ht1 & Ht2).
  rewrite <- fmap_app in Hnd1, Hnd2.
  assert (w ∉ (l1 ++ l2).*1 /\ t ∉ (l1 ++ l2).*2) as [Hw Ht] by (rewrite !fmap_app, !elem_of_app; tauto).
  assert (forall y, y ∈ ns.*1 -> rnode L y) as HN.
  { intros y Hy. apply in_fst in Hy as [ty Hy]. destruct (RI_node _ _ _ _ R _ _ Hy) as (j & ? & ?). exists j. split; [done|lia]. }
  assert (RInv h1 hd' L (l1 ++ l2)) as R1.
  { split; try done.
    - intros a b Hab. apply (RI_node _ _ _ _ R a b), Hsub, Hab.
    - intros a b Hab. destruct (RI_task _ _ _ _ R a b (Hsub _ _ Hab)) as ((j & Hj & Hjo) & E1 & E2). split; [eauto|].
      destruct (ring_fields h L ns.*1 (h_mem h1) a b j) as [-> ->]; try done.
      + apply HN, list_elem_of_fmap. exists (a, b). auto.
      + intros Hin. apply in_fst in Hin as [b' Hin]. eapply (RI_sep _ _ _ _ R b b' a b); [done|auto|done].
    - intros a b a' b' Hab Hab'. eapply (RI_sep _ _ _ _ R); eauto. }
  destruct (RI_node _ _ _ _ R w t Hwt) as (kw & Hkw & ?). destruct (RI_task _ _ _ _ R w t Hwt) as ((kt & Hkt & ?) & _).
  assert (w <> t) as Hne by (eapply (RI_sep _ _ _ _ R); eauto).
  set (h3 := put (put (put h1 (w + o_wq_fd) NULL) (w + o_wq_bk) NULL) (t + off) NULL).
  assert (h_ok h3 L) as Ho3.
  { eapply put_ok; [eapply put_ok; [eapply put_ok; [exact Ho1|exact Hkw|]|exact Hkw|]|exact Hkt|]; wqo; lia. }
  destruct (h_free_spec h3 L w kw Ho3 Hkw) as (h2 & Ef & Ho2 & HK & Hroom); [lia|].
  exists h1, hd', h2. split_and!; try done.
  - eapply RInv_frame; [exact R1|exact Ho2| |].
    + intros p Hp. apply lookup_delete_ne. intros <-. destruct Hp as [Hp|Hp]; [done|].
      apply in_snd in Hp as [a Hp]. by eapply (RI_sep _ _ _ _ R w t a w); [done|auto|].
    + intros z Hz. destruct (rword_block _ _ _ _ _ R1 Hz) as (p & k & Hp & Hz' & Hin).
      assert (p <> w /\ p <> t) as [Hpw Hpt].
      { destruct Hin as [[Hin _]|[Hin _]]; (split; [|]); intros ->; try done.
        - apply in_fst in Hin as [b Hin]. by eapply (RI_sep _ _ _ _ R t b w t); [auto|done|].
        - apply in_snd in Hin as [a Hin]. by eapply (RI_sep _ _ _ _ R w t a w); [done|auto|]. }
      assert (forall o, 0 <= o < 24 -> z <> w + o) as Z1 by (intros o ?; eapply (block_words h1 L p k w kw); eauto; lia).
      assert (z <> t + off) as Z2 by (eapply (block_words h1 L p k t kt); eauto; lia).
      rewrite (HK p k z); [|by rewrite lookup_delete_ne|done]. unfold h3. rewrite !put_mem.
      pose proof (Z1 o_wq_fd). pose proof (Z1 o_wq_bk). wqo. rewrite !ld_st_ne by lia. done.
  - rewrite (HK t kt); [unfold h3; rewrite put_mem; apply ld_st_eq|by rewrite lookup_delete_ne|lia].
  - intros p k x Hp Hn Hx Hxt. fold ns in Hn. assert (p <> w) as Hpw.
    { intros ->. apply Hn. apply list_elem_of_fmap. by exists (w, t). }
    rewrite (HK p k x); [|by rewrite lookup_delete_ne|done]. unfold h3. rewrite !put_mem.
    assert (forall o, 0 <= o < 24 -> x <> w + o) as Z1 by (intros o ?; eapply (block_words h1 L p k w kw); eauto; lia).
    pose proof (Z1 o_wq_fd). pose proof (Z1 o_wq_bk). wqo. rewrite !ld_st_ne by lia.
    by apply (only_links_frame h L ns.*1 _ _ p k).
Qed.

(** *** Push *)
Lemma ring_push_core (h h1 : H) (hd : Z) (L : gmap Z Z) (ns : list (Z * Z)) (t kt n k : Z)
    (h3 := put (put h1 (n + o_wq_t) t) (t + off) n) :
  RInv h hd L ns -> L !! n = None -> 24 <= k < MMAP_THRESHOLD -> h_ok h1 (<[n := k]> L) ->
  blocks_kept L (h_mem h) (h_mem h1) -> L !! t = Some kt -> off + 8 <= kt -> t ∉ ns.*1 -> t ∉ ns.*2 ->
  RInv (ring_insert h3 hd n) n (<[n := k]> L) ((n, t) :: ns) /\
  ring_frame L ns (t + off) (h_mem h) (h_mem (ring_insert h3 hd n)).
Proof.
  intros R Hn Hk Ho1 HK Ht Hkt Ht1 Ht2. set (L' := <[n := k]> L) in *.
  assert (L' !! n = Some k) as Hn' by apply lookup_insert_eq.
  assert (forall p, p <> n -> L' !! p = L !! p) as HL' by (intros; unfold L'; by rewrite lookup_insert_ne).
  assert (t <> n) as Htn by congruence. assert (L' !! t = Some kt) as Ht' by (by rewrite HL').
  assert (h_ok h3 L') as Ho3.
  { eapply put_ok; [eapply put_ok; [exact Ho1|exact Hn'|]|exact Ht'|]; wqo; lia. }
  assert (h_mem h3 = st (st (h_mem h1) (n + o_wq_t) t) (t + off) n) as Em3 by (unfold h3; by rewrite !put_mem).
  (* nodes and tasks of the ring are old blocks *)
  assert (forall p, p ∈ ns.*1 \/ p ∈ ns.*2 -> p <> n /\ p <> t /\ exists j, L !! p = Some j) as Hold.
  { intros p Hp. assert (exists j, L !! p = Some j) as [j Hj].
    { destruct Hp as [Hp|Hp]; [apply in_fst in Hp as [t' Hp]|apply in_snd in Hp as [n' Hp]].
      - destruct (RI_node _ _ _ _ R _ _ Hp) as (j & ? & _). eauto.
      - destruct (RI_task _ _ _ _ R _ _ Hp) as ((j & ? & _) & _). eauto. }
    split; [congruence|]. split; [intros ->; tauto|eauto]. }
  assert (forall p j z, L !! p = Some j -> p <> t -> p <= z < p + j -> ld (h_mem h3) z = ld (h_mem h) z) as F3.
  { intros p j z Hp Hpt Hz. assert (p <> n) as Hpn by congruence. assert (L' !! p = Some j) as Hp' by (by rewrite HL').
    rewrite Em3. rewrite !ld_st_ne; [by apply (HK p j)| |].
    - intros E. apply (block_words h1 L' p j n k z (n + o_wq_t)); try done; wqo; lia.
    - intros E. apply (block_words h1 L' p j t kt z (t + off)); try done; lia. }
  assert (RInv h3 hd L' ns) as R3.
  { eapply RInv_frame; [exact R|exact Ho3| |].
    - intros p Hp. apply HL', Hold, Hp.
    - intros z Hz. destruct (rword_block _ _ _ _ _ R Hz) as (p & j & Hp & Hz' & Hin).
      eapply F3; [exact Hp| |exact Hz']. apply Hold. tauto. }
  assert (ld (h_mem h3) (n + o_wq_t) = t) as En.
  { rewrite Em3. rewrite ld_st_ne; [apply ld_st_eq|]. intros E.
    apply (block_words h1 L' t kt n k (t + off) (n + o_wq_t)); try done; wqo; lia. }
  assert (ld (h_mem h3) (t + off) = n) as Etn by (rewrite Em3; apply ld_st_eq).
  assert (exists m', h_mem (ring_insert h3 hd n) = m' /\ h_ok (ring_insert h3 hd n) L' /\
    dll o_wq_fd o_wq_bk m' n ns.*1 /\
    only_differ (fun z => exists y, y ∈ n :: ns.*1 /\ (z = y + o_wq_fd \/ z = y + o_wq_bk)) (h_mem h3) m')
    as (m' & Em' & Ho' & HD' & D').
  { eexists. split; [done|]. pose proof (RI_head _ _ _ _ R) as Eh. pose proof (RI_ring _ _ _ _ R3) as HR.
    destruct ns as [|[x tx] r]; simpl in Eh; subst hd.
    - unfold ring_insert. rewrite Z.eqb_refl, !put_mem. split_and!.
      + eapply put_ok; [eapply put_ok; [exact Ho3|exact Hn'|]|exact Hn'|]; wqo; lia.
      + apply dll_nil; wqo; ld_steps; done.
      + eapply only_differ_trans; apply only_differ_st; exists n; (split; [by left|auto]).
    - destruct (ring_insert_ok h3 L' x n r.*1 Ho3 HR) as (? & ? & ?); [| |done].
      + intros y Hy. rewrite elem_of_cons in Hy. destruct Hy as [->|Hy]; [exists k; split; [done|lia]|].
        change (x :: r.*1) with (((x, tx) :: r).*1) in Hy. apply in_fst in Hy as [ty Hy].
        destruct (RI_node _ _ _ _ R3 _ _ Hy) as (j & ? & ?). exists j. split; [done|lia].
      + change (x :: r.*1) with (((x, tx) :: r).*1). intros Hin. by destruct (Hold n (or_introl Hin)) as [? _]. }
  assert (forall n0 t0, (n0, t0) ∈ (n, t) :: ns -> exists j, L' !! n0 = Some j /\ 24 <= j < MMAP_THRESHOLD) as Hnode.
  { intros n0 t0 Hin. rewrite elem_of_cons in Hin. destruct Hin as [[= -> ->]|Hin]; [eauto|]. by apply (RI_node _ _ _ _ R3 n0 t0). }
  assert (forall n0 t0, (n0, t0) ∈ (n, t) :: ns -> (exists j, L' !! t0 = Some j /\ off + 8 <= j) /\
    ld (h_mem h3) (n0 + o_wq_t) = t0 /\ ld (h_mem h3) (t0 + off) = n0) as Htask.
  { intros n0 t0 Hin. rewrite elem_of_cons in Hin. destruct Hin as [[= -> ->]|Hin]; [eauto 6|]. by apply (RI_task _ _ _ _ R3 n0 t0). }
  assert (forall n0 t0 n1 t1, (n0, t0) ∈ (n, t) :: ns -> (n1, t1) ∈ (n, t) :: ns -> n0 <> t1) as Hsep.
  { intros n0 t0 n1 t1 Hin Hin'. rewrite elem_of_cons in Hin, Hin'.
    assert (forall a b, (a, b) ∈ ns -> a ∈ ns.*1 /\ b ∈ ns.*2) as Hfs.
    { intros a b Hab. split; apply list_elem_of_fmap; by exists (a, b). }
    destruct Hin as [[= -> ->]|Hin], Hin' as [[= -> ->]|Hin']; [done| | |by eapply (RI_sep _ _ _ _ R)].
    - apply Hfs in Hin' as [_ Hin']. apply not_eq_sym, Hold; auto.
    - apply Hfs in Hin as [Hin _]. apply Hold; auto. }
  assert (forall y, y ∈ n :: ns.*1 -> rnode L' y) as HN'.
  { intros y Hy. change (n :: ns.*1) with (((n, t) :: ns).*1) in Hy. apply in_fst in Hy as [ty Hy].
    destruct (Hnode y ty Hy) as (i & Hi & ?). exists i. split; [done|lia]. }
  split; cycle 1.
  { intros p j x Hp Hpn Hx Hxt. assert (p <> n) as Hne by congruence. rewrite Em'.
    rewrite (only_links_frame h3 L' (n :: ns.*1) (h_mem h3) m' p j x);
      [|done|exact HN'|done|by rewrite HL'|by rewrite not_elem_of_cons|done].
    rewrite Em3, !ld_st_ne; [by apply (HK p j)| |done].
    intros E. apply (block_words h1 L' p j n k x (n + o_wq_t)); try done; [by rewrite HL'|wqo; lia]. }
  split; try done.
  - rewrite Em'. exact HD'.
  - simpl. apply NoDup_cons. split; [|apply R]. intros Hin. by destruct (Hold n (or_introl Hin)) as [? _].
  - simpl. apply NoDup_cons. split; [done|apply R].
  - intros n0 t0 Hin. destruct (Htask n0 t0 Hin) as ((j & Hj & Hjo) & E1 & E2).
    split; [eauto|]. rewrite Em'. destruct (ring_fields h3 L' (n :: ns.*1) m' n0 t0 j) as [-> ->]; try done.
    + destruct (Hnode n0 t0 Hin) as (i & ? & ?). exists i. split; [done|lia].
    + intros Hy. change (n :: ns.*1) with (((n, t) :: ns).*1) in Hy. apply in_fst in Hy as [ty Hy].
      by apply (Hsep t0 ty n0 t0).
Qed.

Lemma ring_insert_room (h : H) (hd n : Z) (r : nat) : h_room h r -> h_room (ring_insert h hd n) r.
Proof using Type. intros Hr. unfold ring_insert. destruct (hd =? NULL); by repeat apply put_room. Qed.

(** Taking a node from the heap and pushing it. *)
Lemma ring_alloc_push {r : nat} (h : H) (hd : Z) (L : gmap Z Z) (ns : list (Z * Z)) (t k : Z) :
  RInv h hd L ns -> h_room h (S r) -> L !! t = Some k -> off + 8 <= k -> t ∉ ns.*1 -> t ∉ ns.*2 ->
  exists n j h1, h_alloc h sizeof_wait_q_metadata = Some (n, h1) /\ n <> NULL /\ L !! n = None /\
    j < MMAP_THRESHOLD /\
    RInv (ring_insert (put (put h1 (n + o_wq_t) t) (t + off) n) hd n) n (<[n := j]> L) ((n, t) :: ns) /\
    ring_frame L ns (t + off) (h_mem h) (h_mem (ring_insert (put (put h1 (n + o_wq_t) t) (t + off) n) hd n)) /\
    h_room (ring_insert (put (put h1 (n + o_wq_t) t) (t + off) n) hd n) r.
Proof.
  intros R Hr Ht Hk Ht1 Ht2. unfold sizeof_wait_q_metadata.
  destruct (h_alloc_spec h L 24 r (RI_heap _ _ _ _ R) Hr) as (n & j & h1 & E & Hn & Hj & Ho & HK & Hr1);
    [unfold REQUEST_MAX; lia|].
  destruct (h_block h1 _ n j Ho (lookup_insert_eq _ _ _)) as [? _].
  exists n, j, h1. split_and!; try done; [lia|lia|by eapply ring_push_core..|].
  by apply ring_insert_room, put_room, put_room.
Qed.

Lemma RInv_nil (h : H) (L : gmap Z Z) : h_ok h L -> RInv h NULL L [].
Proof using Type.
  intros Ho. split; try done; try apply NoDup_nil_2.
  all: try (by intros n t Hn; apply elem_of_nil in Hn).
  intros n t n' t' Hn; by apply elem_of_nil in Hn.
Qed.

(** *** The queue of roots *)
Lemma safe_gcq_push_ok {r : nat} (h : H) (q : safe_gcqueue) (L : gmap Z Z) (ns : list (Z * Z)) (t k : Z) :
  RInv h (gcq_head q) L ns -> gcq_lock q = false -> h_room h (S r) ->
  L !! t = Some k -> off + 8 <= k -> t ∉ ns.*1 -> t ∉ ns.*2 ->
  exists h' q' n j, safe_gcq_push off h q t = Some (h', q') /\ gcq_lock q' = false /\
    L !! n = None /\ j < MMAP_THRESHOLD /\ RInv h' (gcq_head q') (<[n := j]> L) ((n, t) :: ns) /\
    ring_frame L ns (t + off) (h_mem h) (h_mem h') /\ h_room h' r.
Proof.
  intros R Hl Hr Ht Hk Ht1 Ht2.
  destruct (ring_alloc_push h _ L ns t k R Hr Ht Hk Ht1 Ht2) as (n & j & h1 & E & Hn0 & Hn & Hj & R' & HF & Hr').
  unfold safe_gcq_push. rewrite E. cbn [mbind option_bind].
  destruct (Z.eqb_spec n NULL); [done|]. rewrite Hl. cbn [negb c_assert mutex_lock mutex_unlock mbind option_bind].
  do 4 eexists. split; [done|]. split; [done|]. split; [exact Hn|]. split; [exact Hj|]. split; [exact R'|]. split; [exact HF|exact Hr'].
Qed.

Lemma safe_gcq_remove_ok (h : H) (q : safe_gcqueue) (L : gmap Z Z) (l1 l2 : list (Z * Z)) (w t : Z) :
  RInv h (gcq_head q) L (l1 ++ (w, t) :: l2) -> gcq_lock q = false ->
  if decide (l1 ++ l2 = []) then safe_gcq_remove off h q t = None
  else exists h' q', safe_gcq_remove off h q t = Some (1, h', q') /\
    gcq_lock q' = false /\ RInv h' (gcq_head q') (delete w L) (l1 ++ l2) /\
    ring_frame L (l1 ++ (w, t) :: l2) (t + off) (h_mem h) (h_mem h').
Proof.
  intros R Hl. assert ((w, t) ∈ l1 ++ (w, t) :: l2) as Hin by (rewrite elem_of_app, elem_of_cons; tauto).
  destruct (RI_task _ _ _ _ R w t Hin) as (_ & _ & Ew).
  destruct (ring_take_core h _ L l1 l2 w t R) as (h1 & hd & h2 & E & Ef & R' & _ & HF & _).
  pose proof (ring_single _ _ _ _ _ _ _ R) as Hs.
  destruct (RI_node _ _ _ _ R w t Hin) as (k & Hk & ?). destruct (h_block _ _ _ _ (RI_heap _ _ _ _ R) Hk) as [? _].
  pose proof (ring_head_pos _ _ _ _ _ _ _ R) as Hh0.
  unfold safe_gcq_remove. rewrite Hl. cbn [mutex_lock negb c_assert mbind option_bind]. rewrite Ew, E.
  destruct (Z.eqb_spec w NULL) as [?|_]; [lia|]. destruct (Z.eqb_spec (gcq_head q) NULL) as [?|_]; [done|]. cbn [orb].
  case_decide as He.
  - apply Hs in He. by rewrite He, Z.eqb_refl.
  - destruct (Z.eqb_spec (ld (h_mem h) (w + o_wq_fd)) w) as [Es|_]; [by apply Hs in Es|].
    cbn [mutex_unlock c_assert mbind option_bind]. rewrite Ef. cbn [mbind option_bind]. do 2 eexists. by split_and!.
Qed.
End ring.
