(* ===== verification/QueueThms.v ===== *)
(** * QueueThms: the properties of the task queues

    Stated against the allocator's interface (Heap.v), with instances on
    the arena allocator over a concrete kernel. *)

From S2P Require Import Prelude Mem Dll Alloc AllocOs AllocMain AllocSpec Heap Queue.
From S2P Require Import QueueSpec RingSpec.

Section claims.
Context `{HeapSpec H}.

(** C10: the ready queue refines a FIFO list: whatever sequence of pushes
    and pops runs on a queue that holds the tasks [ns], the pops return
    exactly what a list with push-at-the-end and pop-at-the-front returns
    ([NULL] when it is empty), and the queue ends up holding the list's
    tasks. *)
Theorem safe_queue_refines_fifo (h h' : H) (q q' : safe_queue) (L : gmap Z Z) (ns : list (Z * Z))
    (ops : list qop) (outs : list Z) :
  QInv h q L ns -> qrun (h, q) ops outs (h', q') ->
  exists L' ns', QInv h' q' L' ns' /\ fifo_run ns.*2 ops = (outs, ns'.*2).
Proof. intros Q Hr. exact (qrun_fifo _ _ _ _ Hr L ns Q). Qed.

(** On a well-formed ready queue every operation returns: a push takes
    one fresh block and leaves all blocks outside the queue unchanged, a
    pop takes the first task, and [safe_q_pop_wait] gets the first task
    or, exactly when the queue is empty, falls asleep with the mutex
    given back. *)
Theorem safe_queue_ops_return (h : H) (q : safe_queue) (L : gmap Z Z) (ns : list (Z * Z)) (t : Z) :
  QInv h q L ns -> h_ready h ->
  (exists h' q' n k, safe_q_push h q t = Some (h', q') /\ L !! n = None /\
    QInv h' q' (<[n := k]> L) (ns ++ [(n, t)]) /\
    forall p j x, L !! p = Some j -> p ∉ ns.*1 -> p <= x < p + j -> ld (h_mem h') x = ld (h_mem h) x) /\
  (exists h' q' L', safe_q_pop h q = Some (from_option snd NULL (hd_error ns), h', q') /\ QInv h' q' L' (tail ns)) /\
  (exists r h' q' L', safe_q_pop_wait h q = Some (r, h', q') /\ QInv h' q' L' (tail ns) /\
    r = from_option Got Asleep (hd_error ns.*2)).
Proof.
  intros Q Hr. split; [by apply safe_q_push_ok|]. split.
  - destruct (safe_q_pop_ok _ _ _ _ Q) as (h' & q' & E & Q' & _). eauto 6.
  - destruct (pop_wait_ok _ _ _ _ Q) as (r & h' & q' & L' & E & Q' & Hc). exists r, h', q', L'. split_and!; try done.
    destruct Hc as [(-> & -> & _)|(t' & E' & -> & _)]; [done|]. by rewrite E'.
Qed.

(** No wakeup is lost: in every state reached from a new queue by
    pushes, polls, waits and signalled threads resuming, as long as a
    thread sleeps on the condition variable the queue holds at most as
    many tasks as there are signalled threads on their way to it. *)
Theorem safe_queue_no_lost_wakeup (h h' : H) (q' : safe_queue) (L : gmap Z Z) (size : Z) :
  h_ok h L -> rtc qstep (h, safe_q_init size) (h', q') ->
  exists L' ns, QInv h' q' L' ns /\
    ((0 < waiting (q_cond q'))%nat -> (length ns <= woken (q_cond q'))%nat).
Proof.
  intros Ho Hs. destruct (init_inv h L size Ho) as [Q Hn].
  exact (qsteps_inv _ _ Hs L [] Q Hn).
Qed.

Context (o_wq o_gcq : Z) (Hwq : 0 <= o_wq) (Hgcq : 0 <= o_gcq).

(** Pushing a task that is not in the wait queue yet puts it in front
    of the ring, with the task's [wq] field pointing back to its node. *)
Theorem unsafe_ioq_push_spec (h : H) (q : unsafe_queue) (L : gmap Z Z) (ns : list (Z * Z)) (t k : Z) :
  RInv o_wq h (ioq_head q) L ns -> h_ready h -> L !! t = Some k -> o_wq + 8 <= k -> t ∉ ns.*1 -> t ∉ ns.*2 ->
  exists h' q' n j, unsafe_ioq_push o_wq h q t = Some (h', q') /\
    L !! n = None /\ RInv o_wq h' (ioq_head q') (<[n := j]> L) ((n, t) :: ns).
Proof using Hwq.
  intros R Hr Ht Hk Ht1 Ht2.
  destruct (ring_alloc_push o_wq Hwq h _ L ns t k R Hr Ht Hk Ht1 Ht2) as (n & j & h1 & E & Hn0 & Hn & _ & R' & _).
  unfold unsafe_ioq_push. rewrite E. cbn [mbind option_bind].
  destruct (Z.eqb_spec n NULL); [done|]. cbn [negb c_assert mbind option_bind]. eauto 8.
Qed.

(** Removing a queued task from the wait queue takes exactly that task
    out, wherever it is in the ring, frees its node and clears the task's
    [wq] field; removing a task that is not queued changes nothing. *)
Theorem unsafe_ioq_remove_spec (h : H) (q : unsafe_queue) (L : gmap Z Z) (l1 l2 : list (Z * Z)) (w t : Z) :
  RInv o_wq h (ioq_head q) L (l1 ++ (w, t) :: l2) ->
  exists h' q', unsafe_ioq_remove o_wq h q t = Some (1, h', q') /\
    RInv o_wq h' (ioq_head q') (delete w L) (l1 ++ l2) /\
    unsafe_ioq_remove o_wq h' q' t = Some (0, h', q').
Proof using Hwq.
  intros R. assert ((w, t) ∈ l1 ++ (w, t) :: l2) as Hin by (rewrite elem_of_app, elem_of_cons; tauto).
  destruct (RI_task _ _ _ _ _ R w t Hin) as (_ & _ & Ew).
  destruct (ring_take_core o_wq Hwq h _ L l1 l2 w t R) as (h1 & hd & h2 & E & Ef & R' & Et & _).
  unfold unsafe_ioq_remove at 1. rewrite Ew.
  destruct (Z.eqb_spec w NULL) as [E0|_].
  { pose proof (rnode_pos h L w (RI_heap _ _ _ _ _ R)) as Hp. destruct (RI_node _ _ _ _ _ R w t Hin) as (k & Hk & ?).
    assert (0 < w); [|lia]. apply Hp. exists k. split; [done|lia]. }
  destruct (Z.eqb_spec (ioq_head q) NULL) as [E0|_]; [by destruct (ring_head_pos o_wq _ _ _ _ _ _ _ R E0)|].
  cbn [orb]. rewrite E. rewrite Ef. cbn [mbind option_bind]. do 2 eexists. split; [done|]. split; [exact R'|].
  unfold unsafe_ioq_remove. by rewrite Et.
Qed.

(** A push on the collector's root queue, with its mutex free, puts the
    task in front of the ring and gives the mutex back. *)
Theorem safe_gcq_push_spec (h : H) (q : safe_gcqueue) (L : gmap Z Z) (ns : list (Z * Z)) (t k : Z) :
  RInv o_gcq h (gcq_head q) L ns -> gcq_lock q = false -> h_ready h ->
  L !! t = Some k -> o_gcq + 8 <= k -> t ∉ ns.*1 -> t ∉ ns.*2 ->
  exists h' q' n j, safe_gcq_push o_gcq h q t = Some (h', q') /\ gcq_lock q' = false /\
    L !! n = None /\ RInv o_gcq h' (gcq_head q') (<[n := j]> L) ((n, t) :: ns).
Proof using Hgcq.
  intros R Hl Hr Ht Hk Ht1 Ht2.
  destruct (safe_gcq_push_ok o_gcq Hgcq h q L ns t k R Hl Hr Ht Hk Ht1 Ht2) as (h' & q' & n & j & ? & ? & ? & _ & ? & _).
  by exists h', q', n, j.
Qed.

(** [safe_gcq_remove] on every branch.  With another task in the ring
    it takes the task out and gives the mutex back.  When the task is the
    only one, it unlocks the mutex twice, which is undefined behaviour.
    When there is nothing to remove it returns 0 with the mutex still
    held, so the next push or removal never gets past its lock. *)
Theorem safe_gcq_remove_branches (h : H) (q : safe_gcqueue) (L : gmap Z Z) (l1 l2 : list (Z * Z)) (w t : Z) :
  RInv o_gcq h (gcq_head q) L (l1 ++ (w, t) :: l2) -> gcq_lock q = false ->
  (l1 ++ l2 <> [] -> exists h' q', safe_gcq_remove o_gcq h q t = Some (1, h', q') /\
    gcq_lock q' = false /\ RInv o_gcq h' (gcq_head q') (delete w L) (l1 ++ l2)) /\
  (l1 ++ l2 = [] -> safe_gcq_remove o_gcq h q t = None) /\
  (forall u, ld (h_mem h) (u + o_gcq) = NULL -> exists q', safe_gcq_remove o_gcq h q u = Some (0, h, q') /\
    forall v, safe_gcq_remove o_gcq h q' v = None /\ safe_gcq_push o_gcq h q' v = None).
Proof using Hgcq.
  intros R Hl. pose proof (safe_gcq_remove_ok o_gcq Hgcq h q L l1 l2 w t R Hl) as HR. split_and!.
  - intros Hne. rewrite decide_False in HR by done. destruct HR as (h' & q' & ? & ? & ? & _). eauto.
  - intros He. by rewrite decide_True in HR by done.
  - intros u Hu. unfold safe_gcq_remove. rewrite Hl, Hu. cbn [mutex_lock negb c_assert mbind option_bind orb Z.eqb].
    eexists. split; [done|]. intros v. split; [done|].
    unfold safe_gcq_push. destruct (h_alloc h _) as [[n h0]|]; [|done]. cbn [mbind option_bind].
    by destruct (c_assert _).
Qed.
End claims.

(** ** Instances on the arena allocator *)
Lemma safe_queue_refines_fifo_witness : exists (s s' : astate) q',
  qrun (s, safe_q_init 0) [Push 7; Pop; Pop] [7; 0] (s', q').
Proof.
  destruct bump_heap as (s & L & p & k & Ho & Hr%h_room_ready & _).
  destruct (init_inv s L 0 Ho) as [Q _].
  destruct (safe_q_push_ok _ _ _ _ 7 Q Hr) as (s1 & q1 & n & j & E1 & _ & Q1 & _).
  destruct (safe_q_pop_ok _ _ _ _ Q1) as (s2 & q2 & E2 & Q2 & _).
  destruct (safe_q_pop_ok _ _ _ _ Q2) as (s3 & q3 & E3 & Q3 & _).
  assert (qrun (s, safe_q_init 0) [Push 7; Pop; Pop] [7; 0] (s3, q3)) as Hrun.
  { eapply qrun_push; [done|exact E1|]. eapply qrun_pop; [exact E2|]. eapply qrun_pop; [exact E3|]. constructor. }
  destruct (safe_queue_refines_fifo s s3 (safe_q_init 0) q3 L [] _ _ Q Hrun) as (L' & ns' & _ & Ef).
  exists s, s3, q3. exact Hrun.
Defined.

Lemma safe_queue_ops_return_witness : exists (s s' : astate) q', safe_q_push s (safe_q_init 0) 7 = Some (s', q').
Proof.
  destruct bump_heap as (s & L & p & k & Ho & Hr%h_room_ready & _).
  destruct (init_inv s L 0 Ho) as [Q _].
  destruct (safe_queue_ops_return s (safe_q_init 0) L [] 7 Q Hr) as ((s' & q' & n & j & E & _) & _).
  exists s, s', q'. exact E.
Defined.

(** A thread waits, then a task is pushed: the sleeper is signalled. *)
Lemma safe_queue_no_lost_wakeup_witness : exists (s s' : astate) q',
  rtc qstep (s, safe_q_init 0) (s', q') /\ woken (q_cond q') = 1%nat /\ waiting (q_cond q') = 0%nat.
Proof.
  destruct bump_heap as (s & L & p & k & Ho & Hr%h_room_ready & _).
  destruct (init_inv s L 0 Ho) as [Q _].
  set (q1 := SafeQueue 0 NULL NULL false (Cond 1 0)).
  assert (QInv s q1 L []) as Q1 by (destruct Q; by split).
  destruct (safe_q_push_ok _ _ _ _ 7 Q1 Hr) as (s2 & q2 & n & j & E2 & _ & Q2 & _).
  assert (rtc qstep (s, safe_q_init 0) (s2, q2)) as Hst.
  { eapply rtc_l; [eapply qs_wait; reflexivity|]. eapply rtc_once, qs_push; [done|exact E2]. }
  destruct (safe_queue_no_lost_wakeup s s2 q2 L 0 Ho Hst) as (L' & ns & _ & _).
  exists s, s2, q2. split; [exact Hst|]. apply push_cond in E2. rewrite E2. done.
Defined.

Lemma unsafe_ioq_push_spec_witness : exists (s s' : astate) t q', unsafe_ioq_push 160 s (unsafe_ioq_init 0) t = Some (s', q').
Proof.
  destruct bump_heap as (s & L & p & k & Ho & Hr%h_room_ready & Hp & Hk).
  destruct (unsafe_ioq_push_spec 160 ltac:(lia) s (unsafe_ioq_init 0) L [] p k (RInv_nil _ _ _ Ho) Hr Hp)
    as (s' & q' & n & j & E & _); [lia|apply not_elem_of_nil|apply not_elem_of_nil|].
  exists s, s', p, q'. exact E.
Defined.

(** A ring with one task, for the removals. *)
Lemma bump_ring (off : Z) : 0 <= off <= 192 -> exists (s : astate) L w t, RInv off s w L [(w, t)].
Proof.
  intros Ho. destruct bump_heap as (s & L & p & k & Hok & Hr%h_room_ready & Hp & Hk).
  destruct (ring_alloc_push off ltac:(lia) s NULL L [] p k (RInv_nil _ _ _ Hok) Hr Hp) as (n & j & s1 & _ & _ & _ & _ & R & _);
    [lia|apply not_elem_of_nil|apply not_elem_of_nil|].
  do 4 eexists. exact R.
Qed.

Lemma unsafe_ioq_remove_spec_witness : exists (s s' : astate) w t q',
  unsafe_ioq_remove 160 s (UnsafeQueue 0 w) t = Some (1, s', q') /\ ioq_head q' = NULL.
Proof.
  destruct (bump_ring 160 ltac:(lia)) as (s & L & w & t & R).
  destruct (unsafe_ioq_remove_spec 160 ltac:(lia) s (UnsafeQueue 0 w) L [] [] w t R) as (s' & q' & E & R' & _).
  exists s, s', w, t, q'. split; [exact E|]. exact (RI_head _ _ _ _ _ R').
Defined.

Lemma safe_gcq_push_spec_witness : exists (s s' : astate) t q', safe_gcq_push 168 s (safe_gcq_init 0) t = Some (s', q').
Proof.
  destruct bump_heap as (s & L & p & k & Ho & Hr%h_room_ready & Hp & Hk).
  destruct (safe_gcq_push_spec 168 ltac:(lia) s (safe_gcq_init 0) L [] p k (RInv_nil _ _ _ Ho) eq_refl Hr Hp)
    as (s' & q' & n & j & E & _); [lia|apply not_elem_of_nil|apply not_elem_of_nil|].
  exists s, s', p, q'. exact E.
Defined.

Lemma safe_gcq_remove_branches_witness : exists (s : astate) w t,
  safe_gcq_remove 168 s (SafeGcQueue 0 w false cond_init) t = None.
Proof.
  destruct (bump_ring 168 ltac:(lia)) as (s & L & w & t & R).
  destruct (safe_gcq_remove_branches 168 ltac:(lia) s (SafeGcQueue 0 w false cond_init) L [] [] w t R eq_refl) as (_ & E & _).
  exists s, w, t. exact (E eq_refl).
Defined.
