(* ===== verification/Gc.v ===== *)
(** * Gc: the mark-and-sweep collector (src/runtime/src/gc.c)

    The collector scans the stacks and saved registers of the registered
    tasks conservatively, marks the chunks their words point into, and
    releases every chunk of the scheduler arenas that is in use and not
    marked.  A chunk's mark is bit 1 of its [prev_size] word.

    The C functions [gc_mark_mem_region], [try_mark_pointer] and
    [mark_chunk_recursive] call each other; [depth] bounds that recursion
    (GcSpec.v shows that depth 1 is enough). *)

From S2P Require Import Prelude Mem Dll Alloc AllocOs AllocMain Heap Queue.

(** ** Roots: a task's saved context *)

(** The parts of [ucontext_t] the accessors of platform/linux/context.c
    read. *)
Record platform_ctx := PlatformCtx {
  ss_sp : Z; ss_size : Z; mc_sp : Z; mc_pc : Z; mc_regs : Z -> Z
}.

Definition platform_ctx_get_stack_base (ctx : platform_ctx) : Z := ss_sp ctx.
Definition platform_ctx_get_stack_pointer (ctx : platform_ctx) : Z := mc_sp ctx.
Definition platform_ctx_get_pc (ctx : platform_ctx) : Z := mc_pc ctx.
Definition platform_ctx_get_stack_size (ctx : platform_ctx) : Z := ss_size ctx.
Definition platform_ctx_get_reg (ctx : platform_ctx) (i : Z) : Z := mc_regs ctx i.

Inductive task_state := TASK_RUNNING | TASK_YIELDED | TASK_FINISHED.

#[export] Instance task_state_eq_dec : EqDecision task_state.
Proof. solve_decision. Defined.

(** The collector's global state: the store, the mappings, the global arena,
    [arenas[0 .. arenas_count)], the root queue ([None] before [gc_init])
    and, by task address, the fields of [task_t] it reads. *)
Record collector := Collector {
  g_mem : mem; g_maps : list (Z * Z);
  global_arena : option arena; arenas : list arena;
  roots : option safe_gcqueue;
  g_tasks : gmap Z (task_state * platform_ctx)
}.

Definition MAX_ARENAS : nat := 12.
Definition GC_PTR_ALIGNMENT : Z := 8.
Definition GC_ALIGN_MASK : Z := GC_PTR_ALIGNMENT - 1.

(** ** Marking *)
Section mark.

(** The heaps of all registered arenas, in the order of the two loops. *)
Context (heaps : list alloced_heap).

Definition chunk_payload (m : mem) (scan : Z) : Z :=
  size_t (Z.land (ld m (scan + o_size)) CHUNK_SIZE_MASK).

Fixpoint scan_heap (n : nat) (m : mem) (scan he ptr : Z) : option Z :=
  if he <=? scan then Some NULL
  else
    match n with
    | O => None
    | S n =>
        let payload_size := chunk_payload m scan in
        if negb (is_curr_inuse m scan) then scan_heap n m (scan + HEADER_SIZE + payload_size) he ptr
        else
          let payload_start := scan + HEADER_SIZE in
          let payload_end := payload_start + payload_size in
          if (payload_start <=? ptr) && (ptr <? payload_end) then Some scan
          else scan_heap n m (scan + HEADER_SIZE + payload_size) he ptr
    end.

(** Every step moves on by at least a header. *)
Definition heap_steps (h : alloced_heap) : nat := Z.to_nat ((heap_end h - heap_start h) / HEADER_SIZE + 1).

Definition find_chunk_in_heap (m : mem) (h : alloced_heap) (ptr : Z) : option Z :=
  scan_heap (heap_steps h) m (heap_start h) (heap_end h) ptr.

Definition is_pointer_aligned (v : Z) : bool := Z.land v GC_ALIGN_MASK =? 0.

Definition is_marked (m : mem) (ch : Z) : bool := truthy (Z.land (ld m (ch + o_prev_size)) GC_MARK_FLAG_MASK).
Definition set_mark (m : mem) (ch : Z) : mem :=
  st m (ch + o_prev_size) (Z.lor (ld m (ch + o_prev_size)) GC_MARK_FLAG_MASK).

Definition clear_mark (m : mem) (ch : Z) : mem :=
  st m (ch + o_prev_size) (Z.land (ld m (ch + o_prev_size)) (Z.lnot GC_MARK_FLAG_MASK)).

(** [region] is the recursive call to [gc_mark_mem_region]. *)
Definition mark_chunk_recursive (region : mem -> Z -> Z -> option mem) (m : mem) (ch : Z) : option mem :=
  if is_marked m ch then Some m
  else
    let payload_start := ch + HEADER_SIZE in
    region m payload_start (payload_start + chunk_payload m ch).

Fixpoint try_heaps (region : mem -> Z -> Z -> option mem) (hs : list alloced_heap) (m : mem) (p : Z)
  : option (Z * mem) :=
  match hs with
  | [] => Some (0, m)
  | h :: hs =>
      if (p <? heap_start h) || (heap_end h <=? p) then try_heaps region hs m p
      else
        ch ← find_chunk_in_heap m h p;
        if ch =? NULL then Some (0, m)
        else
          m ← mark_chunk_recursive region (set_mark m ch) ch;
          Some (1, m)
  end.

Definition try_mark_pointer (region : mem -> Z -> Z -> option mem) (m : mem) (val : Z) : option (Z * mem) :=
  if negb (is_pointer_aligned val) then Some (0, m) else try_heaps region heaps m val.

(** The words at [p], [p + 8], ... ([n] of them). *)
Fixpoint mark_words (region : mem -> Z -> Z -> option mem) (m : mem) (p : Z) (n : nat) : option mem :=
  match n with
  | O => Some m
  | S n =>
      let val := ld m p in
      m ← (if val =? 0 then Some m else snd <$> try_mark_pointer region m val);
      mark_words region m (p + 8) n
  end.

Fixpoint gc_mark_mem_region (depth : nat) (m : mem) (start end_ : Z) : option mem :=
  match depth with
  | O => None
  | S depth => mark_words (gc_mark_mem_region depth) m start (Z.to_nat ((end_ - start) / 8))
  end.

Fixpoint mark_regs (depth : nat) (m : mem) (ctx : platform_ctx) (i : Z) (n : nat) : option mem :=
  match n with
  | O => Some m
  | S n =>
      let val := platform_ctx_get_reg ctx i in
      m ← (if val =? 0 then Some m else snd <$> try_mark_pointer (gc_mark_mem_region depth) m val);
      mark_regs depth m ctx (i + 1) n
  end.

Definition gc_mark_registers (depth : nat) (m : mem) (ctx : platform_ctx) : option mem :=
  m ← mark_regs depth m ctx 0 31;
  m ← snd <$> try_mark_pointer (gc_mark_mem_region depth) m (platform_ctx_get_stack_pointer ctx);
  snd <$> try_mark_pointer (gc_mark_mem_region depth) m (platform_ctx_get_pc ctx).

Definition gc_mark_task (depth : nat) (m : mem) (ctx : platform_ctx) : option mem :=
  let stack_bottom := platform_ctx_get_stack_base ctx in
  let stack_top := stack_bottom + platform_ctx_get_stack_size ctx in
  let sp := platform_ctx_get_stack_pointer ctx in
  if (sp <? stack_bottom) || (stack_top <? sp) then Some m
  else
    m ← gc_mark_mem_region depth m stack_bottom stack_top;
    gc_mark_registers depth m ctx.

(** The [do ... while] over the ring of roots; [n] bounds its length. *)
Fixpoint mark_ring (depth n : nat) (tasks : gmap Z (task_state * platform_ctx)) (m : mem) (tm head : Z)
  : option mem :=
  match n with
  | O => None
  | S n =>
      '(state, ctx) ← tasks !! ld m (tm + o_wq_t);
      m ← (if decide (state = TASK_FINISHED) then Some m else gc_mark_task depth m ctx);
      let tm := ld m (tm + o_wq_fd) in
      if (tm =? NULL) || (tm =? head) then Some m else mark_ring depth n tasks m tm head
  end.
End mark.

(** ** Sweeping *)
Section collect.
Context `{OS}.
(** The offset of the field [gcq] in [task_t]. *)
Context (o_gcq : Z).

Fixpoint sweep_scan (n : nat) (s : astate) (scan he : Z) : option astate :=
  if he <=? scan then Some s
  else
    match n with
    | O => None
    | S n =>
        let payload_size := chunk_payload (mm s) scan in
        s ← (if is_marked (mm s) scan
             then Some (with_mm s (clear_mark (mm s) scan))
             else if is_curr_inuse (mm s) scan then release s (scan + HEADER_SIZE)
             else Some s);
        sweep_scan n s (scan + HEADER_SIZE + payload_size) he
    end.

Fixpoint sweep_heaps (hs : list alloced_heap) (s : astate) : option astate :=
  match hs with
  | [] => Some s
  | h :: hs => s ← sweep_scan (heap_steps h) s (heap_start h) (heap_end h); sweep_heaps hs s
  end.

Definition sweep_arena (s : astate) : option astate := sweep_heaps (alloced_heaps (ar s)) s.

(** The store and mappings go from one arena to the next. *)
Fixpoint sweep_arenas (ars : list arena) (m : mem) (ms : list (Z * Z)) : option (list arena * mem * list (Z * Z)) :=
  match ars with
  | [] => Some ([], m, ms)
  | a :: ars =>
      s ← sweep_arena (AState m ms a);
      '(ars, m, ms) ← sweep_arenas ars (mm s) (maps s);
      Some (ar s :: ars, m, ms)
  end.

(** ** The collector's operations *)

Definition with_mem (c : collector) (m : mem) : collector :=
  Collector m (g_maps c) (global_arena c) (arenas c) (roots c) (g_tasks c).

Definition all_heaps (c : collector) : list alloced_heap := mjoin (alloced_heaps <$> arenas c).

Definition gc_create_global_arena (c : collector) : option collector :=
  s ← arena_create (g_mem c) (g_maps c);
  Some (Collector (mm s) (maps s) (Some (ar s)) (arenas c) (roots c) (g_tasks c)).

(** The result is the index of the new arena, or [None] for [NULL]. *)
Definition gc_create_arena (c : collector) : option (option nat * collector) :=
  if (MAX_ARENAS <? length (arenas c) + 1)%nat then Some (None, c)
  else
    s ← arena_create (g_mem c) (g_maps c);
    Some (Some (length (arenas c)),
      Collector (mm s) (maps s) (global_arena c) (arenas c ++ [ar s]) (roots c) (g_tasks c)).

Definition gc_register_root (c : collector) (t : Z) : option collector :=
  q ← roots c;
  c_assert (negb (t =? NULL)) ;;
  a ← global_arena c;
  '(s, q) ← safe_gcq_push o_gcq (AState (g_mem c) (g_maps c) a) q t;
  Some (Collector (mm s) (maps s) (Some (ar s)) (arenas c) (Some q) (g_tasks c)).

Definition gc_unregister_root (c : collector) (t : Z) : option collector :=
  q ← roots c;
  c_assert (negb (t =? NULL)) ;;
  a ← global_arena c;
  '(_, s, q) ← safe_gcq_remove o_gcq (AState (g_mem c) (g_maps c) a) q t;
  Some (Collector (mm s) (maps s) (Some (ar s)) (arenas c) (Some q) (g_tasks c)).

Definition gc_init (c : collector) : collector :=
  Collector (g_mem c) (g_maps c) (global_arena c) (arenas c) (Some (safe_gcq_init 2147483647)) (g_tasks c).

(** [depth] and [n] bound the marking recursion and the ring of roots. *)
Definition gc_mark (depth n : nat) (c : collector) : option collector :=
  q ← roots c;
  if gcq_head q =? NULL then Some c
  else m ← mark_ring (all_heaps c) depth n (g_tasks c) (g_mem c) (gcq_head q) (gcq_head q); Some (with_mem c m).

Definition gc_sweep (c : collector) : option collector :=
  '(ars, m, ms) ← sweep_arenas (arenas c) (g_mem c) (g_maps c);
  Some (Collector m ms (global_arena c) ars (roots c) (g_tasks c)).

(** [gc_mark(); gc_sweep();], the body of [gc_collect] between stopping and
    resuming the world (these are steps of World.v). *)
Definition gc_collect (depth n : nat) (c : collector) : option collector :=
  c ← gc_mark depth n c;
  gc_sweep c.
End collect.
