(* ===== verification/GcSpec.v ===== *)
(** * GcSpec: what a marking phase marks

    On heaps tiled by chunks, looking a pointer up finds the chunk in use
    whose payload it points into, and marking terminates without ever
    following the contents of a chunk: the chunks marked are exactly the
    ones a root word points into. *)

From S2P Require Import Prelude Mem Dll Alloc AllocFacts AllocInv AllocSafe AllocOs AllocMain.
From S2P Require Import AllocSpec Heap Queue QueueSpec RingSpec Gc.

(** [G] gives the payload size of every chunk of the heaps [hs]. *)
Record tiled (m : mem) (hs : list alloced_heap) (G : gmap Z Z) : Prop := {
  T_tile : forall a s, G !! a = Some s -> 0 <= s /\ a mod 16 = 0 /\ 0 < a /\ chunk_payload m a = s;
  T_sep : forall a s b s', G !! a = Some s -> G !! b = Some s' -> a = b \/ a + 16 + s <= b \/ b + 16 + s' <= a;
  T_next : forall h a s, h ∈ hs -> G !! a = Some s -> heap_start h <= a < heap_end h ->
    a + 16 + s <= heap_end h /\ (a + 16 + s = heap_end h \/ is_Some (G !! (a + 16 + s)));
  T_start : forall h, h ∈ hs -> is_Some (G !! heap_start h) /\ heap_start h < heap_end h;
  T_heaps : forall h h' a, h ∈ hs -> h' ∈ hs -> heap_start h <= a < heap_end h -> heap_start h' <= a < heap_end h' -> h = h';
  T_in : forall a s, G !! a = Some s -> exists h, h ∈ hs /\ heap_start h <= a /\ a + 16 + s <= heap_end h
}.

(** The heaps of a well-formed arena are tiled. *)
Lemma tiled_arena (m : mem) (hs : list alloced_heap) (t : Z) (G : tiles) :
  HInv (hdr_of m) hs t G -> tiled m hs (fst <$> G).
Proof.
  intros HI. assert (forall a s, (fst <$> G) !! a = Some s <-> exists st, G !! a = Some (s, st)) as HG.
  { intros a s. rewrite lookup_fmap, fmap_Some. split; [intros ([s' st] & E & ->); eauto|].
    intros [st E]. exists (s, st). auto. }
  assert (forall a, is_Some ((fst <$> G) !! a) <-> is_Some (G !! a)) as HS by (intros a; by rewrite lookup_fmap, fmap_is_Some).
  assert (forall h, h ∈ hs -> heap_start h + 48 <= heap_end h) as Hlen.
  { intros h Hh. destruct (H_heap _ _ _ _ HI _ Hh) as (_ & _ & _ & ?). lia. }
  assert (forall h h' a, h ∈ hs -> h' ∈ hs -> heap_start h <= a < heap_end h -> heap_start h' <= a < heap_end h' -> h = h') as Huniq.
  { intros h h' a Hh Hh' ? ?. destruct (H_heaps _ _ _ _ HI _ _ Hh Hh') as [?|[?|?]]; [done|lia..]. }
  split; try done.
  - intros a s [st Ha]%HG. destruct (H_tile _ _ _ _ HI _ _ _ Ha) as (? & ? & ? & ? & Es).
    split_and!; try done; [lia|]. pose proof (H_size_bound _ _ _ _ HI _ _ _ Ha).
    unfold chunk_payload. change (size_t (hsz (hdr_of m a)) = s). rewrite Es. apply uwrap_small. unfold in_uint. lia.
  - intros a s b s' [st Ha]%HG [st' Hb]%HG. exact (H_sep _ _ _ _ HI _ _ _ _ _ _ Ha Hb).
  - intros h a s Hh [st Ha]%HG Hin. destruct (H_next _ _ _ _ HI _ _ _ Ha) as (h' & Hh' & ? & ? & Hn).
    destruct (H_tile _ _ _ _ HI _ _ _ Ha) as (? & _).
    rewrite (Huniq h h' a Hh Hh' Hin) by lia. rewrite HS. done.
  - intros h Hh. rewrite HS. destruct (H_heap _ _ _ _ HI _ Hh) as (? & _). split; [done|]. pose proof (Hlen h Hh). lia.
  - intros a s [st Ha]%HG. destruct (H_next _ _ _ _ HI _ _ _ Ha) as (h & ? & ? & ? & _). eauto.
Qed.

(** [c] is a chunk in use whose payload the pointer [p] points into. *)
Definition holder (m : mem) (G : gmap Z Z) (p c : Z) : Prop :=
  exists s, G !! c = Some s /\ is_curr_inuse m c = true /\ c + 16 <= p < c + 16 + s.

Section lookup.
Context {m : mem} {hs : list alloced_heap} {G : gmap Z Z}.
Context (T : tiled m hs G).

Lemma holder_unique (p c c' : Z) : holder m G p c -> holder m G p c' -> c = c'.
Proof using T. intros (s & Hc & _ & ?) (s' & Hc' & _ & ?). destruct (T_sep _ _ _ T _ _ _ _ Hc Hc'); lia. Qed.

(** The scan from a chunk boundary of [h] finds the holder from there on. *)
Lemma scan_heap_spec (h : alloced_heap) (p : Z) : h ∈ hs -> forall n scan,
  (is_Some (G !! scan) /\ heap_start h <= scan < heap_end h) \/ scan = heap_end h ->
  (heap_end h - scan) / 16 < Z.of_nat n ->
  exists c, scan_heap n m scan (heap_end h) p = Some c /\
    ((c <> NULL /\ holder m G p c) \/
     (c = NULL /\ forall c', holder m G p c' -> ~ scan <= c' < heap_end h)).
Proof using T.
  intros Hh. induction n as [|n IH]; intros scan Hs Hn.
  - exfalso. assert (0 <= (heap_end h - scan) / 16); [|lia]. apply Z.div_pos; [|lia]. destruct Hs as [[_ ?]|]; lia.
  - cbn [scan_heap]. destruct Hs as [[[s Hs] Hin]|Es].
    2:{ destruct (Z.leb_spec (heap_end h) scan); [|lia]. exists NULL. split; [done|]. right. split; [done|]. lia. }
    destruct (Z.leb_spec (heap_end h) scan); [lia|].
    destruct (T_tile _ _ _ T _ _ Hs) as (Hs0 & _ & Hp0 & Ep). rewrite Ep. unfold HEADER_SIZE.
    destruct (T_next _ _ _ T _ _ _ Hh Hs Hin) as [Hend Hnext].
    assert (exists c, scan_heap n m (scan + 16 + s) (heap_end h) p = Some c /\
      ((c <> NULL /\ holder m G p c) \/
       (c = NULL /\ forall c', holder m G p c' -> ~ scan + 16 + s <= c' < heap_end h))) as (c & Ec & Hc).
    { apply IH.
      - destruct Hnext as [?|Hnext]; [by right|]. destruct (decide (scan + 16 + s = heap_end h)); [by right|].
        left. split; [done|lia].
      - assert ((heap_end h - (scan + 16 + s)) / 16 <= (heap_end h - scan) / 16 - 1); [|lia].
        replace ((heap_end h - scan) / 16 - 1) with ((heap_end h - scan + (-1) * 16) / 16) by (rewrite Z.div_add by lia; lia).
        apply Z.div_le_mono; lia. }
    assert (forall c', holder m G p c' -> scan <= c' -> c' = scan \/ scan + 16 + s <= c') as Hgap.
    { intros c' (s' & Hc' & _) ?. destruct (T_tile _ _ _ T _ _ Hc') as (? & _). destruct (T_sep _ _ _ T _ _ _ _ Hs Hc'); lia. }
    destruct (is_curr_inuse m scan) eqn:Ei; cbn [negb].
    + destruct (Z.leb_spec (scan + 16) p), (Z.ltb_spec p (scan + 16 + s)); cbn [andb];
        [exists scan; split; [done|]; left; split; [lia|exists s; done]|..];
        (exists c; split; [done|]; destruct Hc as [?|[-> Hc]]; [by left|]; right; split; [done|];
         intros c' Hc' [? ?]; destruct (Hgap c' Hc') as [->|?]; [done|destruct Hc' as (s' & Hs' & _ & ?); simplify_eq; lia|by apply (Hc c')]).
    + exists c. split; [done|]. destruct Hc as [?|[-> Hc]]; [by left|]. right. split; [done|].
      intros c' Hc' [? ?]. destruct (Hgap c' Hc') as [->|?]; [done|destruct Hc' as (s' & _ & ? & _); congruence|by apply (Hc c')].
Qed.

Lemma find_chunk_spec (h : alloced_heap) (p : Z) : h ∈ hs -> heap_start h <= p < heap_end h ->
  exists c, find_chunk_in_heap m h p = Some c /\
    ((c <> NULL /\ holder m G p c) \/ (c = NULL /\ forall c', ~ holder m G p c')).
Proof using T.
  intros Hh Hp. unfold find_chunk_in_heap, heap_steps, HEADER_SIZE.
  destruct (T_start _ _ _ T _ Hh) as [H1 H2].
  destruct (scan_heap_spec h p Hh (Z.to_nat ((heap_end h - heap_start h) / 16 + 1)) (heap_start h)) as (c & Ec & Hc).
  - left. split; [done|lia].
  - assert (0 <= (heap_end h - heap_start h) / 16) by (apply Z.div_pos; lia). lia.
  - exists c. split; [done|]. destruct Hc as [?|[-> Hc]]; [by left|]. right. split; [done|].
    intros c' Hc'. apply (Hc c' Hc'). destruct Hc' as (s & Hs & _ & ?).
    destruct (T_in _ _ _ T _ _ Hs) as (h' & Hh' & ? & ?). rewrite (T_heaps _ _ _ T h h' p); [lia|done|done|lia|lia].
Qed.
End lookup.

(** ** The effect of marking *)

(** From [m] to [m'] only mark bits of chunks were set: those of the chunks
    satisfying [P]. *)
Record mark_post (G : gmap Z Z) (m m' : mem) (P : Z -> Prop) : Prop := {
  MP_diff : forall x, ld m' x = ld m x \/ (is_Some (G !! x) /\ ld m' x = Z.lor (ld m x) GC_MARK_FLAG_MASK);
  MP_mark : forall c, is_Some (G !! c) -> is_marked m' c = true <-> is_marked m c = true \/ P c
}.

(** The chunk a word [v] keeps alive. *)
Definition points (m : mem) (G : gmap Z Z) (v c : Z) : Prop := v mod 8 = 0 /\ holder m G v c.

Lemma is_marked_bit (m : mem) (c : Z) : is_marked m c = Z.testbit (ld m c) 1.
Proof.
  unfold is_marked, o_prev_size, GC_MARK_FLAG_MASK. rewrite Z.add_0_r.
  exact (truthy_land_bit (ld m c) 1 ltac:(lia)).
Qed.

Lemma mark_post_refl (G : gmap Z Z) (m : mem) : mark_post G m m (fun _ => False).
Proof. split; [by left|tauto]. Qed.

Lemma mark_post_trans (G : gmap Z Z) (m m1 m2 : mem) (P Q : Z -> Prop) :
  mark_post G m m1 P -> mark_post G m1 m2 Q -> mark_post G m m2 (fun c => P c \/ Q c).
Proof.
  intros [D1 M1] [D2 M2]. split.
  - intros x. destruct (D1 x) as [E1|[Hx E1]], (D2 x) as [E2|[Hx' E2]]; rewrite E2, E1; auto.
    right. split; [done|]. by rewrite <- Z.lor_assoc, Z.lor_diag.
  - intros c Hc. rewrite M2, M1 by done. tauto.
Qed.

Lemma mark_post_iff (G : gmap Z Z) (m m' : mem) (P Q : Z -> Prop) :
  (forall c, P c <-> Q c) -> mark_post G m m' P -> mark_post G m m' Q.
Proof. intros HPQ [D M]. split; [done|]. intros c Hc. rewrite M by done. by rewrite HPQ. Qed.

Lemma mark_post_word (G : gmap Z Z) (m m' : mem) (P : Z -> Prop) (x : Z) :
  mark_post G m m' P -> G !! x = None -> ld m' x = ld m x.
Proof. intros [D _] Hx. destruct (D x) as [?|[[s Hs] _]]; [done|congruence]. Qed.

Section marking.
Context {hs : list alloced_heap} {G : gmap Z Z}.

Lemma tile_size_word (m : mem) (a s : Z) : tiled m hs G -> G !! a = Some s -> G !! (a + o_size) = None.
Proof.
  intros T Ha. destruct (G !! (a + o_size)) as [s'|] eqn:E; [|done]. exfalso.
  destruct (T_tile _ _ _ T _ _ Ha) as (_ & H1 & _). destruct (T_tile _ _ _ T _ _ E) as (_ & H2 & _).
  unfold o_size in *. rewrite Z.add_mod, H1 in H2 by lia. discriminate.
Qed.

Lemma tiled_marked (m m' : mem) (P : Z -> Prop) : mark_post G m m' P -> tiled m hs G -> tiled m' hs G.
Proof.
  intros MP T. split; try apply T. intros a s Ha. destruct (T_tile _ _ _ T _ _ Ha) as (? & ? & ? & E).
  split_and!; try done. unfold chunk_payload. rewrite (mark_post_word _ _ _ _ _ MP (tile_size_word _ _ _ T Ha)). exact E.
Qed.

Lemma holder_marked (m m' : mem) (P : Z -> Prop) (p c : Z) :
  mark_post G m m' P -> tiled m hs G -> holder m' G p c <-> holder m G p c.
Proof.
  intros MP T. unfold holder, is_curr_inuse.
  split; intros (s & Hs & Hc & ?); exists s; (split; [done|]); (split; [|done]);
    [rewrite <- (mark_post_word _ _ _ _ _ MP (tile_size_word _ _ _ T Hs))|
     rewrite (mark_post_word _ _ _ _ _ MP (tile_size_word _ _ _ T Hs))]; done.
Qed.

Lemma set_mark_post (m : mem) (c : Z) : is_Some (G !! c) -> mark_post G m (set_mark m c) (eq c).
Proof.
  intros Hc. unfold set_mark, o_prev_size. rewrite Z.add_0_r. split.
  - intros x. rewrite ld_st. case_decide; [subst; auto|by left].
  - intros x Hx. rewrite !is_marked_bit, ld_st. case_decide; [subst|].
    + rewrite Z.lor_spec. unfold GC_MARK_FLAG_MASK. change (Z.testbit 2 1) with true. rewrite orb_true_r. tauto.
    + split; [auto|]. by intros [?|?].
Qed.

(** A chunk that was just marked is not followed. *)
Lemma mark_chunk_recursive_stops (region : mem -> Z -> Z -> option mem) (m : mem) (c : Z) :
  mark_chunk_recursive region (set_mark m c) c = Some (set_mark m c).
Proof.
  unfold mark_chunk_recursive. assert (is_marked (set_mark m c) c = true) as ->; [|done].
  rewrite is_marked_bit. unfold set_mark, o_prev_size. rewrite Z.add_0_r, ld_st_eq, Z.lor_spec. apply orb_true_r.
Qed.

Lemma try_heaps_spec (region : mem -> Z -> Z -> option mem) (m : mem) (p : Z) (hs' : list alloced_heap) :
  tiled m hs G -> (forall h, h ∈ hs' -> h ∈ hs) ->
  (forall h, h ∈ hs -> heap_start h <= p < heap_end h -> h ∈ hs') ->
  exists r m', try_heaps region hs' m p = Some (r, m') /\ mark_post G m m' (holder m G p).
Proof.
  intros T. induction hs' as [|h hs' IH]; intros Hsub Hall; cbn [try_heaps].
  - do 2 eexists. split; [done|]. eapply mark_post_iff; [|apply mark_post_refl]. intros c. split; [done|].
    intros (s & Hs & _ & ?). destruct (T_in _ _ _ T _ _ Hs) as (h & Hh & ? & ?).
    assert (h ∈ []) as Hn by (apply Hall; [done|lia]). by apply elem_of_nil in Hn.
  - assert (h ∈ hs) as Hh by (apply Hsub; by left).
    destruct ((p <? heap_start h) || (heap_end h <=? p)) eqn:Eout.
    { apply orb_true_iff in Eout. rewrite Z.ltb_lt, Z.leb_le in Eout. apply IH; [intros; apply Hsub; by right|].
      intros h' Hh' Hp. destruct (proj1 (elem_of_cons _ _ _) (Hall h' Hh' Hp)) as [->|?]; [lia|done]. }
    apply orb_false_iff in Eout. rewrite Z.ltb_ge, Z.leb_gt in Eout.
    destruct (find_chunk_spec T h p Hh) as (c & -> & Hc); [lia|]. cbn [mbind option_bind].
    destruct Hc as [[Hc0 Hc]|[-> Hc]].
    + destruct (Z.eqb_spec c NULL); [done|]. rewrite mark_chunk_recursive_stops. cbn [mbind option_bind].
      do 2 eexists. split; [done|]. eapply mark_post_iff; [|apply set_mark_post].
      * intros c'. split; [by intros <-|]. intros Hc'. by eapply holder_unique.
      * destruct Hc as (s & ? & _). eauto.
    + do 2 eexists. split; [done|]. eapply mark_post_iff; [|apply mark_post_refl]. intros c. split; [done|].
      by intros ?%Hc.
Qed.

Lemma try_mark_spec (region : mem -> Z -> Z -> option mem) (m : mem) (v : Z) : tiled m hs G ->
  exists r m', try_mark_pointer hs region m v = Some (r, m') /\ mark_post G m m' (points m G v).
Proof.
  intros T. unfold try_mark_pointer, is_pointer_aligned, GC_ALIGN_MASK, GC_PTR_ALIGNMENT, points.
  change (8 - 1) with (Z.ones 3). rewrite Z.land_ones by lia. change (2 ^ 3) with 8.
  destruct (Z.eqb_spec (v mod 8) 0) as [Hv|Hv]; cbn [negb].
  - destruct (try_heaps_spec region m v hs T) as (r & m' & E & MP); [done|done|]. rewrite E.
    do 2 eexists. split; [done|]. eapply mark_post_iff; [|exact MP]. tauto.
  - do 2 eexists. split; [done|]. eapply mark_post_iff; [|apply mark_post_refl]. tauto.
Qed.

(** The same with the test for zero of the callers. *)
Lemma try_word_spec (region : mem -> Z -> Z -> option mem) (m : mem) (v : Z) : tiled m hs G ->
  exists m', (if v =? 0 then Some m else snd <$> try_mark_pointer hs region m v) = Some m' /\
    mark_post G m m' (points m G v).
Proof.
  intros T. destruct (Z.eqb_spec v 0) as [->|_].
  - exists m. split; [done|]. eapply mark_post_iff; [|apply mark_post_refl]. intros c. split; [done|].
    intros (_ & s & Hs & _ & ?). destruct (T_tile _ _ _ T _ _ Hs). lia.
  - destruct (try_mark_spec region m v T) as (r & m' & -> & MP). by exists m'.
Qed.

Lemma points_marked (m m' : mem) (P : Z -> Prop) (v c : Z) :
  mark_post G m m' P -> tiled m hs G -> points m' G v c <-> points m G v c.
Proof. intros MP T. unfold points. by rewrite (holder_marked m m' P) by done. Qed.

(** The chunks the words at [p], [p + 8], ... point into. *)
Definition words_point (m : mem) (p : Z) (n : nat) (c : Z) : Prop :=
  exists i, 0 <= i < Z.of_nat n /\ points m G (ld m (p + 8 * i)) c.

Lemma mark_words_spec (region : mem -> Z -> Z -> option mem) (n : nat) : forall m p,
  tiled m hs G -> (forall i, 0 <= i < Z.of_nat n -> G !! (p + 8 * i) = None) ->
  exists m', mark_words hs region m p n = Some m' /\ mark_post G m m' (words_point m p n).
Proof.
  induction n as [|n IH]; intros m p T Hp; cbn [mark_words].
  - exists m. split; [done|]. eapply mark_post_iff; [|apply mark_post_refl]. intros c. split; [done|].
    intros (i & ? & _). lia.
  - destruct (try_word_spec region m (ld m p) T) as (m1 & -> & MP1). cbn [mbind option_bind].
    destruct (IH m1 (p + 8) (tiled_marked _ _ _ MP1 T)) as (m2 & -> & MP2).
    { intros i Hi. replace (p + 8 + 8 * i) with (p + 8 * (i + 1)) by lia. apply Hp. lia. }
    exists m2. split; [done|]. eapply mark_post_iff; [|exact (mark_post_trans _ _ _ _ _ _ MP1 MP2)].
    intros c. unfold words_point. split.
    + intros [Hc|(i & Hi & Hc)].
      * exists 0. rewrite Z.mul_0_r, Z.add_0_r. split; [lia|done].
      * exists (i + 1). split; [lia|]. apply (points_marked _ _ _ _ _ MP1 T) in Hc.
        rewrite (mark_post_word _ _ _ _ _ MP1) in Hc; replace (p + 8 + 8 * i) with (p + 8 * (i + 1)) in * by lia;
          [done|]. apply Hp. lia.
    + intros (i & Hi & Hc). destruct (decide (i = 0)) as [->|Hne]; [left; by rewrite Z.mul_0_r, Z.add_0_r in Hc|].
      right. exists (i - 1). split; [lia|]. replace (p + 8 + 8 * (i - 1)) with (p + 8 * i) by lia.
      apply (points_marked _ _ _ _ _ MP1 T). rewrite (mark_post_word _ _ _ _ _ MP1); [done|]. apply Hp. lia.
Qed.

Lemma mark_region_spec (d : nat) (m : mem) (a b : Z) :
  tiled m hs G -> (forall c, is_Some (G !! c) -> ~ a <= c < b) ->
  exists m', gc_mark_mem_region hs (S d) m a b = Some m' /\
    mark_post G m m' (words_point m a (Z.to_nat ((b - a) / 8))).
Proof.
  intros T Hab. cbn [gc_mark_mem_region]. apply mark_words_spec; [done|]. intros i Hi.
  destruct (G !! (a + 8 * i)) as [s|] eqn:E; [|done]. destruct (Hab (a + 8 * i)); [eauto|].
  destruct (decide (b - a < 0)) as [Hneg|?].
  { assert ((b - a) / 8 < 0) by (apply Z.div_lt_upper_bound; lia). lia. }
  pose proof (Z.div_mod (b - a) 8). pose proof (Z.mod_pos_bound (b - a) 8).
  assert (0 <= (b - a) / 8) by (apply Z.div_pos; lia). lia.
Qed.

Lemma words_point_marked (m m' : mem) (P : Z -> Prop) (p c : Z) (n : nat) :
  mark_post G m m' P -> tiled m hs G -> (forall i, 0 <= i < Z.of_nat n -> G !! (p + 8 * i) = None) ->
  words_point m' p n c <-> words_point m p n c.
Proof.
  intros MP T Hp. unfold words_point. split; intros (i & Hi & Hc); exists i; (split; [done|]);
    pose proof (mark_post_word _ _ _ _ _ MP (Hp i Hi)) as E.
  - rewrite E in Hc. by apply (points_marked _ _ _ _ _ MP T).
  - rewrite E. by apply (points_marked _ _ _ _ _ MP T).
Qed.

(** ** Marking from a task *)

(** The chunks a saved context keeps alive: through its stack, a register,
    the stack pointer or the program counter. *)
Definition rooted (m : mem) (ctx : platform_ctx) (c : Z) : Prop :=
  ss_sp ctx <= mc_sp ctx <= ss_sp ctx + ss_size ctx /\
  (words_point m (ss_sp ctx) (Z.to_nat (ss_size ctx / 8)) c \/
   (exists i, 0 <= i < 31 /\ points m G (mc_regs ctx i) c) \/
   points m G (mc_sp ctx) c \/ points m G (mc_pc ctx) c).

(** No chunk header lies in the stack. *)
Definition stack_apart (ctx : platform_ctx) : Prop :=
  forall c, is_Some (G !! c) -> ~ ss_sp ctx <= c < ss_sp ctx + ss_size ctx.

Lemma stack_words (ctx : platform_ctx) (i : Z) : stack_apart ctx ->
  0 <= i < Z.of_nat (Z.to_nat (ss_size ctx / 8)) -> G !! (ss_sp ctx + 8 * i) = None.
Proof using Type.
  intros Ha Hi. destruct (G !! (ss_sp ctx + 8 * i)) as [s|] eqn:E; [|done]. destruct (Ha (ss_sp ctx + 8 * i)); [eauto|].
  pose proof (Z.div_mod (ss_size ctx) 8). pose proof (Z.mod_pos_bound (ss_size ctx) 8). lia.
Qed.

Lemma rooted_marked (m m' : mem) (P : Z -> Prop) (ctx : platform_ctx) (c : Z) :
  mark_post G m m' P -> tiled m hs G -> stack_apart ctx -> rooted m' ctx c <-> rooted m ctx c.
Proof.
  intros MP T Ha. unfold rooted.
  rewrite (words_point_marked _ _ _ _ _ _ MP T) by (intros; by apply stack_words).
  rewrite !(points_marked _ _ _ _ _ MP T). setoid_rewrite (points_marked _ _ _ _ _ MP T). done.
Qed.

Lemma mark_regs_spec (d : nat) (ctx : platform_ctx) (n : nat) : forall m i, tiled m hs G ->
  exists m', mark_regs hs d m ctx i n = Some m' /\
    mark_post G m m' (fun c => exists j, i <= j < i + Z.of_nat n /\ points m G (mc_regs ctx j) c).
Proof.
  induction n as [|n IH]; intros m i T; cbn [mark_regs].
  - exists m. split; [done|]. eapply mark_post_iff; [|apply mark_post_refl]. intros c. split; [done|]. intros (j & ? & _). lia.
  - destruct (try_word_spec (gc_mark_mem_region hs d) m (platform_ctx_get_reg ctx i) T) as (m1 & -> & MP1).
    cbn [mbind option_bind]. destruct (IH m1 (i + 1) (tiled_marked _ _ _ MP1 T)) as (m2 & -> & MP2).
    exists m2. split; [done|]. eapply mark_post_iff; [|exact (mark_post_trans _ _ _ _ _ _ MP1 MP2)].
    intros c. unfold platform_ctx_get_reg. setoid_rewrite (points_marked _ _ _ _ _ MP1 T). split.
    + intros [Hc|(j & ? & Hc)]; [exists i|exists j]; (split; [lia|done]).
    + intros (j & ? & Hc). destruct (decide (j = i)) as [->|]; [by left|]. right. exists j. split; [lia|done].
Qed.

Lemma mark_task_spec (d : nat) (m : mem) (ctx : platform_ctx) : tiled m hs G -> stack_apart ctx ->
  exists m', gc_mark_task hs (S d) m ctx = Some m' /\ mark_post G m m' (rooted m ctx).
Proof.
  intros T Ha. unfold gc_mark_task, platform_ctx_get_stack_base, platform_ctx_get_stack_pointer, platform_ctx_get_stack_size.
  destruct ((mc_sp ctx <? ss_sp ctx) || (ss_sp ctx + ss_size ctx <? mc_sp ctx)) eqn:Eb.
  { apply orb_true_iff in Eb. rewrite !Z.ltb_lt in Eb. exists m. split; [done|].
    eapply mark_post_iff; [|apply mark_post_refl]. intros c. split; [done|]. intros [? _]. lia. }
  apply orb_false_iff in Eb. rewrite !Z.ltb_ge in Eb.
  destruct (mark_region_spec d m (ss_sp ctx) (ss_sp ctx + ss_size ctx) T Ha) as (m1 & -> & MP1).
  replace (ss_sp ctx + ss_size ctx - ss_sp ctx) with (ss_size ctx) in MP1 by lia. cbn [mbind option_bind].
  unfold gc_mark_registers. pose proof (tiled_marked _ _ _ MP1 T) as T1.
  destruct (mark_regs_spec (S d) ctx 31 m1 0 T1) as (m2 & -> & MP2). cbn [mbind option_bind].
  pose proof (tiled_marked _ _ _ MP2 T1) as T2. pose proof (mark_post_trans _ _ _ _ _ _ MP1 MP2) as MP12.
  destruct (try_mark_spec (gc_mark_mem_region hs (S d)) m2 (mc_sp ctx) T2) as (r3 & m3 & E3 & MP3).
  unfold platform_ctx_get_stack_pointer, platform_ctx_get_pc. rewrite E3. cbn [fmap option_fmap option_map mbind option_bind snd].
  pose proof (tiled_marked _ _ _ MP3 T2) as T3. pose proof (mark_post_trans _ _ _ _ _ _ MP12 MP3) as MP13.
  destruct (try_mark_spec (gc_mark_mem_region hs (S d)) m3 (mc_pc ctx) T3) as (r4 & m4 & E4 & MP4). rewrite E4.
  exists m4. split; [done|]. eapply mark_post_iff; [|exact (mark_post_trans _ _ _ _ _ _ MP13 MP4)].
  intros c. cbv beta. rewrite (points_marked _ _ _ _ _ MP13 T), (points_marked _ _ _ _ _ MP12 T).
  setoid_rewrite (points_marked _ _ _ _ _ MP1 T). unfold rooted. change (0 + Z.of_nat 31) with 31. tauto.
Qed.

(** ** Marking from all roots *)

(** The chunks a registered, unfinished task keeps alive. *)
Definition task_root (tasks : gmap Z (task_state * platform_ctx)) (m : mem) (t c : Z) : Prop :=
  exists st ctx, tasks !! t = Some (st, ctx) /\ st <> TASK_FINISHED /\ rooted m ctx c.

Lemma task_root_marked (tasks : gmap Z (task_state * platform_ctx)) (m m' : mem) (P : Z -> Prop) (t c : Z)
    (st : task_state) (ctx : platform_ctx) :
  mark_post G m m' P -> tiled m hs G -> tasks !! t = Some (st, ctx) -> stack_apart ctx ->
  task_root tasks m' t c <-> task_root tasks m t c.
Proof.
  intros MP T Et Ha. unfold task_root. split; intros (st' & ctx' & E & ? & Hr);
    assert (ctx' = ctx) as -> by congruence; exists st', ctx; (split; [done|]); (split; [done|]);
    by apply (rooted_marked _ _ _ _ _ MP T Ha).
Qed.

Lemma mark_ring_spec (d : nat) (tasks : gmap Z (task_state * platform_ctx)) (head : Z) (l : list Z) : forall n m tm,
  (length l < n)%nat -> tiled m hs G -> chain o_wq_fd o_wq_bk m tm l head -> head ∉ l -> G !! (head + o_wq_bk) = None ->
  (forall x, x ∈ tm :: l -> x <> NULL /\ G !! (x + o_wq_fd) = None /\ G !! (x + o_wq_bk) = None /\ G !! (x + o_wq_t) = None /\
     exists st ctx, tasks !! ld m (x + o_wq_t) = Some (st, ctx) /\ stack_apart ctx) ->
  exists m', mark_ring hs (S d) n tasks m tm head = Some m' /\
    mark_post G m m' (fun c => exists x, x ∈ tm :: l /\ task_root tasks m (ld m (x + o_wq_t)) c).
Proof.
  induction l as [|z l IH]; intros n m tm Hn T Hch Hh Hhb Hx; (destruct n as [|n]; [simpl in Hn; lia|]); cbn [mark_ring].
  all: destruct (Hx tm) as (Hx0 & Gf & Gb & Gt & st & ctx & Et & Ha); [by left|]; rewrite Et; cbn [mbind option_bind].
  all: assert (exists m1, (if decide (st = TASK_FINISHED) then Some m else gc_mark_task hs (S d) m ctx) = Some m1 /\
      mark_post G m m1 (task_root tasks m (ld m (tm + o_wq_t)))) as (m1 & E1 & MP1) by
    (destruct (decide (st = TASK_FINISHED)) as [->|Hst];
     [exists m; split; [done|]; eapply mark_post_iff; [|apply mark_post_refl]; intros c; split; [done|];
      intros (st' & ctx' & E & ? & _); congruence
     |destruct (mark_task_spec d m ctx T Ha) as (m1 & -> & MP1); exists m1; split; [done|];
      eapply mark_post_iff; [|exact MP1]; intros c; split; [intros; exists st, ctx; done|];
      intros (st' & ctx' & E & ? & ?); congruence]).
  all: rewrite E1; cbn [mbind option_bind]; rewrite (mark_post_word _ _ _ _ _ MP1 Gf).
  - cbn [chain] in Hch. destruct Hch as [-> _]. rewrite Z.eqb_refl, orb_true_r. exists m1. split; [done|].
    eapply mark_post_iff; [|exact MP1]. intros c. split; [intros; exists tm; split; [by left|done]|].
    intros (x & [->|[]%elem_of_nil]%elem_of_cons & ?). done.
  - cbn [chain] in Hch. destruct Hch as (-> & Hzb & Hch).
    destruct (Hx z) as (Hz0 & _); [by right; left|].
    destruct (Z.eqb_spec z NULL); [done|]. destruct (Z.eqb_spec z head) as [->|_]; [destruct Hh; by left|]. cbn [orb].
    assert (forall x o, x ∈ tm :: z :: l -> o = o_wq_fd \/ o = o_wq_bk \/ o = o_wq_t -> ld m1 (x + o) = ld m (x + o)) as Hw.
    { intros x o Hin Ho. destruct (Hx x Hin) as (_ & ? & ? & ? & _). apply (mark_post_word _ _ _ _ _ MP1).
      by destruct Ho as [->|[->| ->]]. }
    destruct (IH n m1 z) as (m2 & -> & MP2).
    + simpl in Hn. lia.
    + exact (tiled_marked _ _ _ MP1 T).
    + eapply chain_frame; [| |exact Hch].
      * intros x Hin. apply Hw; [|auto]. rewrite !elem_of_cons. tauto.
      * intros x [->|Hin]; [by apply (mark_post_word _ _ _ _ _ MP1)|]. apply Hw; [|auto]. rewrite !elem_of_cons. tauto.
    + intros Hin. apply Hh. by right.
    + done.
    + intros x Hin. destruct (Hx x) as (? & ? & ? & ? & st' & ctx' & E' & ?); [by right|].
      rewrite (Hw x o_wq_t) by (auto; by right). eauto 8.
    + exists m2. split; [done|]. eapply mark_post_iff; [|exact (mark_post_trans _ _ _ _ _ _ MP1 MP2)].
      intros c. cbv beta.
      assert (forall x, x ∈ z :: l -> task_root tasks m1 (ld m1 (x + o_wq_t)) c <-> task_root tasks m (ld m (x + o_wq_t)) c) as Htr.
      { intros x Hin. rewrite (Hw x o_wq_t) by (auto; by right).
        destruct (Hx x) as (_ & _ & _ & _ & st' & ctx' & E' & ?); [by right|]. by eapply task_root_marked. }
      split.
      * intros [Hc|(x & Hin & Hc)]; [exists tm; split; [by left|done]|]. exists x. split; [by right|].
        by apply Htr.
      * intros (x & [->|Hin]%elem_of_cons & Hc); [by left|]. right. exists x. split; [done|]. by apply Htr.
Qed.
End marking.

(** The ring of registered tasks: [ns] lists its nodes and tasks. *)
Definition root_ring (m : mem) (head : Z) (ns : list (Z * Z)) : Prop :=
  head = from_option fst NULL (hd_error ns) /\
  match ns with [] => True | (x, _) :: r => dll o_wq_fd o_wq_bk m x r.*1 end /\
  forall n t, (n, t) ∈ ns -> n <> NULL /\ ld m (n + o_wq_t) = t.

(** The mark phase as a whole. *)
Lemma gc_mark_ok (c : collector) (q : safe_gcqueue) (ns : list (Z * Z)) (G : gmap Z Z) (d n : nat) :
  roots c = Some q -> tiled (g_mem c) (all_heaps c) G -> root_ring (g_mem c) (gcq_head q) ns ->
  (forall x t, (x, t) ∈ ns -> G !! (x + o_wq_fd) = None /\ G !! (x + o_wq_bk) = None /\ G !! (x + o_wq_t) = None /\
     exists st ctx, g_tasks c !! t = Some (st, ctx) /\ @stack_apart G ctx) ->
  (length ns <= n)%nat ->
  exists m', gc_mark (S d) n c = Some (with_mem c m') /\
    (forall x, ld m' x = ld (g_mem c) x \/ (is_Some (G !! x) /\ ld m' x = Z.lor (ld (g_mem c) x) GC_MARK_FLAG_MASK)) /\
    (forall k, is_Some (G !! k) -> is_marked m' k = true <->
       is_marked (g_mem c) k = true \/ exists x t, (x, t) ∈ ns /\ @task_root G (g_tasks c) (g_mem c) t k).
Proof.
  intros Eq T (Eh & HR & Hn) HG Hlen. unfold gc_mark. rewrite Eq. cbn [mbind option_bind].
  destruct ns as [|[x t] r]; simpl in Eh; rewrite Eh.
  { exists (g_mem c). split; [by destruct c|]. split; [by left|]. intros k _. split; [auto|].
    intros [?|(x & t & []%elem_of_nil & _)]; done. }
  destruct (Hn x t) as [Hx0 _]; [by left|]. destruct (Z.eqb_spec x NULL); [done|].
  destruct HR as [Hch Hnd]. apply NoDup_cons in Hnd as [Hx _].
  assert (forall y, y ∈ x :: r.*1 -> exists ty, (y, ty) ∈ (x, t) :: r) as Hin.
  { intros y [->|Hy]%elem_of_cons; [exists t; by left|]. apply in_fst in Hy as [ty Hy]. exists ty. by right. }
  destruct (mark_ring_spec (hs := all_heaps c) (G := G) d (g_tasks c) x r.*1 n (g_mem c) x) as (m' & -> & MP); try done.
  - rewrite length_fmap. simpl in Hlen. lia.
  - apply (HG x t). by left.
  - intros y Hy. destruct (Hin y Hy) as [ty Hty]. destruct (Hn y ty Hty) as [? ->].
    destruct (HG y ty Hty) as (? & ? & ? & ?). done.
  - exists m'. split; [done|]. split; [apply MP|]. intros k Hk. rewrite (MP_mark _ _ _ _ MP k Hk).
    split; (intros [?|Hr]; [by left|right]).
    + destruct Hr as (y & Hy & Hr). destruct (Hin y Hy) as [ty Hty]. destruct (Hn y ty Hty) as [_ E].
      rewrite E in Hr. eauto.
    + destruct Hr as (y & ty & Hy & Hr). destruct (Hn y ty Hy) as [_ E]. exists y. rewrite E. split; [|done].
      change (x :: r.*1) with (((x, t) :: r).*1). apply list_elem_of_fmap. by exists (y, ty).
Qed.
