(* ===== verification/GcSweep.v ===== *)
(** * GcSweep: what a sweep releases

    The sweep walks the heaps chunk by chunk while [release] merges the
    chunks behind and just before it, so the walk may stand on the old
    header of a chunk that no longer exists.  [sweeping] relates the state
    at such a point to the state at the start: what the walk has still to
    see is unchanged, and what it has passed is in use only if marked. *)

From S2P Require Import Prelude Mem Dll Alloc AllocFacts AllocInv AllocBins AllocLink AllocSafe AllocOs.
From S2P Require Import AllocRelease AllocMain AllocSpec Heap Queue QueueSpec RingSpec Gc GcSpec.

(** [a] and [a'] have the same memory. *)
Lemma in_arena_geo (a a' : arena) (x : Z) : same_geo a a' -> in_arena a' x <-> in_arena a x.
Proof.
  intros Hg. unfold in_arena. destruct Hg as (E1 & E2 & E3 & E4 & E5 & E6 & E7).
  rewrite E7. assert (forall b, head_of a' b = head_of a b) as Eh by (intros []; simpl; by rewrite ?E1, ?E2, ?E3).
  by setoid_rewrite Eh.
Qed.

(** ** Clearing a mark *)

Lemma unmark_marked (m : mem) (a : Z) : is_marked (clear_mark m a) a = false.
Proof.
  rewrite is_marked_bit. unfold clear_mark, o_prev_size, GC_MARK_FLAG_MASK. rewrite Z.add_0_r, ld_st_eq, Z.land_spec.
  apply andb_false_r.
Qed.

Lemma unmark_hdr (m : mem) (a : Z) : hdr_of (clear_mark m a) a = hdr_of m a.
Proof.
  unfold clear_mark. rewrite hdr_st_prev_size. unfold GC_MARK_FLAG_MASK. by rewrite word_size_clear2.
Qed.

Lemma unmark_ne (m : mem) (a x : Z) : x <> a -> ld (clear_mark m a) x = ld m x.
Proof. intros Hx. unfold clear_mark, o_prev_size. apply ld_st_ne. lia. Qed.

Section unmark.
Context `{OSLaws}.

Lemma slot_aw (m : mem) (a : arena) (t : Z) (G : tiles) (B : bins) (b : Z) :
  AInv m a t G B -> scan_slot (alloced_heaps a) G b -> aw a G b.
Proof.
  intros AI [Hb|(y & u & st & Hy & Hst & ? & ?)].
  - apply (hw_aw AI). exists b. split; [done|by left].
  - destruct (H_next _ _ _ _ (A_H _ _ _ _ _ AI) _ _ _ Hy) as (h & Hh & ? & ? & _). split.
    + left. exists h. split; [done|lia].
    + intros (c & s & Hc & ?). destruct (H_sep _ _ _ _ (A_H _ _ _ _ _ AI) _ _ _ _ _ _ Hy Hc) as [->|?]; [|lia].
      simplify_eq.
Qed.

(** Clearing the mark where the scan stands keeps the arena well formed. *)
Lemma unmark_ok (s : astate) (G : tiles) (B : bins) (Bg : bigs) (b : Z) :
  FInv s G B Bg -> scan_slot (alloced_heaps (ar s)) G b ->
  FInv (with_mm s (clear_mark (mm s) b)) G B Bg /\ only_differ (aw (ar s) G) (mm s) (clear_mark (mm s) b).
Proof.
  intros [[AI HS] MI] Hb. pose proof (A_H _ _ _ _ _ AI) as HI. pose proof (A_O _ _ _ _ _ AI) as HO.
  assert (only_differ (aw (ar s) G) (mm s) (clear_mark (mm s) b)) as D.
  { apply only_differ_st. unfold o_prev_size. rewrite Z.add_0_r. by eapply slot_aw. }
  split; [|done]. split; [split; [|done]|].
  - cbn [mm ar with_mm]. split; [|eapply (K_transfer _ _ _ _ (A_K _ _ _ _ _ AI)); try done|done].
    + eapply H_ext; [exact HI|]. intros c Hc. destruct (slot_hnode HI _ _ Hb Hc) as [->|?]; [apply unmark_hdr|].
      apply hdr_frame; apply unmark_ne; offs; lia.
    + intros y o Ky Ho. apply unmark_ne. pose proof (slot_link HI HO _ _ Hb (knode_lnode _ _ _ Ky)). lia.
  - eapply (M_inside s _ G); try done.
Qed.
End unmark.

(** ** The walk *)
Section sweep.
Context `{OSLaws}.
Context (s0 : astate) (G0 : tiles) (B0 : bins) (Bg : bigs).
Context (HF0 : FInv s0 G0 B0 Bg).
(** No chunk handed out is as large as [MMAP_THRESHOLD], and the top chunk
    does not carry the in-use flag. *)
Context (Hsmall : forall c sc, G0 !! c = Some (sc, Used) -> sc < MMAP_THRESHOLD).
Context (Htop : forall c sc, G0 !! c = Some (sc, Top) -> is_curr_inuse (mm s0) c = false).

Local Abbreviation hs0 := (alloced_heaps (ar s0)).

(** [s] is a state of the walk that has still to see the chunks [todo] and
    stands at [a]. *)
Record sweeping (todo : Z -> Prop) (a : Z) (s : astate) (G : tiles) (B : bins) : Prop := {
  SW_inv : FInv s G B Bg;
  SW_mu : mu (ar s) = false;
  SW_maps : maps s = maps s0;
  SW_geo : same_geo (ar s0) (ar s);
  SW_todo : forall b sb st, G0 !! b = Some (sb, st) -> todo b ->
    scan_slot hs0 G b /\ scan_view (mm s) b = scan_view (mm s0) b /\ (b <> a \/ st = Used -> G !! b = Some (sb, st));
  SW_used : forall c sc, G !! c = Some (sc, Used) <->
    G0 !! c = Some (sc, Used) /\ (is_marked (mm s0) c = true \/ todo c);
  SW_unmarked : forall c sc, G !! c = Some (sc, Used) -> ~ todo c -> is_marked (mm s) c = false;
  SW_diff : only_differ (in_arena (ar s0)) (mm s0) (mm s);
  SW_kept : forall c sc x, G !! c = Some (sc, Used) -> c + 16 <= x < c + 16 + sc -> ld (mm s) x = ld (mm s0) x
}.

Lemma sweeping_heaps (todo : Z -> Prop) (a : Z) (s : astate) (G : tiles) (B : bins) :
  sweeping todo a s G B -> alloced_heaps (ar s) = hs0.
Proof. intros SW. apply (SW_geo _ _ _ _ _ SW). Qed.

(** Only the chunks among [todo] matter, and where the walk stands does not
    once it has left a chunk behind. *)
Lemma sweeping_iff (todo todo' : Z -> Prop) (a a' : Z) (s : astate) (G : tiles) (B : bins) :
  sweeping todo a s G B -> (forall b, is_Some (G0 !! b) -> todo b <-> todo' b) -> a' = a \/ G0 !! a = None ->
  sweeping todo' a' s G B.
Proof.
  intros SW Ht Ha. destruct SW as [H1 H2 H3 H4 H5 H6 H7 H8 H9]. split; try done.
  - intros b sb st Hb Hd. apply Ht in Hd; [|eauto]. destruct (H5 b sb st Hb Hd) as (? & ? & Hr). split_and!; try done.
    intros Hc. apply Hr. destruct Ha as [->|Ha]; [done|]. left. intros ->. congruence.
  - intros c sc. rewrite H6. split; intros [Hc Hd]; (split; [done|]); (destruct Hd as [?|Hd]; [by left|right]);
      apply (Ht c); eauto.
  - intros c sc Hc Hd. apply (H7 c sc Hc). rewrite (Ht c); [done|]. apply H6 in Hc as [? _]. eauto.
Qed.

Lemma sweeping_start (a : Z) : mu (ar s0) = false -> sweeping (fun _ => True) a s0 G0 B0.
Proof.
  intros Hmu. split; try done.
  - intros b sb st Hb _. split_and!; try done. left. left. eauto.
  - intros c sc. tauto.
Qed.

(** What the walk reads at the chunk it stands on. *)
Lemma sweeping_view (todo : Z -> Prop) (a sa : Z) (sta : status) (s : astate) (G : tiles) (B : bins) :
  sweeping todo a s G B -> G0 !! a = Some (sa, sta) -> todo a ->
  chunk_payload (mm s) a = sa /\ is_marked (mm s) a = is_marked (mm s0) a /\
  is_curr_inuse (mm s) a = is_curr_inuse (mm s0) a /\
  (is_curr_inuse (mm s0) a = true <-> sta = Used) /\ scan_slot hs0 G a.
Proof.
  intros SW Ha Ht. destruct (SW_todo _ _ _ _ _ SW a sa sta Ha Ht) as (Hsl & Hv & _).
  destruct HF0 as [[AI HS] _]. destruct (A_tile AI _ _ _ Ha) as (? & _ & _ & ? & Esz & ?).
  unfold scan_view in Hv. apply pair_eq in Hv as [[E1 E2]%pair_eq E3]. rewrite !is_marked_bit, !is_curr_inuse_hdr. split_and!; try done.
  - unfold chunk_payload. change (size_t (hsz (hdr_of (mm s) a)) = sa). rewrite E1, Esz. apply uwrap_small.
    unfold in_uint. lia.
  - split; [intros Hc|intros ->; exact (H_curr _ _ _ _ (A_H _ _ _ _ _ AI) _ _ _ Ha)].
    pose proof (H_curr _ _ _ _ (A_H _ _ _ _ _ AI) _ _ _ Ha) as Hok. destruct (HS _ _ _ Ha).
    destruct sta; try done; unfold curr_ok in Hok; try congruence.
    pose proof (Htop _ _ Ha) as Hf. rewrite is_curr_inuse_hdr in Hf. congruence.
Qed.

(** A marked chunk: the mark is cleared. *)
Lemma sweep_marked (todo : Z -> Prop) (a sa a' : Z) (sta : status) (s : astate) (G : tiles) (B : bins) :
  sweeping todo a s G B -> G0 !! a = Some (sa, sta) -> todo a -> is_marked (mm s0) a = true ->
  sweeping (fun b => todo b /\ b <> a) a' (with_mm s (clear_mark (mm s) a)) G B.
Proof.
  intros SW Ha Ht Hm. pose proof (sweeping_heaps _ _ _ _ _ SW) as Eh.
  destruct (sweeping_view _ _ _ _ _ _ _ SW Ha Ht) as (_ & _ & _ & _ & Hsl).
  pose proof (SW_inv _ _ _ _ _ SW) as HF. pose proof HF as [[AI _] _]. pose proof (A_H _ _ _ _ _ AI) as HI.
  rewrite Eh in HI. destruct (unmark_ok s G B Bg a HF) as [HF' D]; [by rewrite Eh|].
  split; try done; try apply SW.
  - intros b sb st Hb [Hd Hba]. destruct (SW_todo _ _ _ _ _ SW b sb st Hb Hd) as (? & <- & Hr). split_and!; auto.
    destruct (slot_hnode HI a b Hsl) as [?|?]; [left; exists (sb, st); auto|by subst|].
    apply scan_view_frame; apply unmark_ne; offs; lia.
  - intros c sc. rewrite (SW_used _ _ _ _ _ SW). destruct (decide (c = a)) as [->|]; tauto.
  - intros c sc Hc Hd. destruct (decide (c = a)) as [->|Hca]; [apply unmark_marked|]. cbn [mm with_mm].
    rewrite is_marked_bit, unmark_ne, <- is_marked_bit by done. apply (SW_unmarked _ _ _ _ _ SW c sc Hc). tauto.
  - cbn [mm with_mm]. eapply only_differ_trans; [apply SW|]. eapply only_differ_weaken; [|exact D].
    intros x [Hx _]. by apply (in_arena_geo (ar s0) (ar s)); [apply SW|].
  - intros c sc x Hc Hx. cbn [mm with_mm]. rewrite D; [by eapply (SW_kept _ _ _ _ _ SW)|]. intros [_ []]. by exists c, sc.
Qed.

(** A chunk that is neither marked nor in use: nothing happens. *)
Lemma sweep_unused (todo : Z -> Prop) (a sa a' : Z) (sta : status) (s : astate) (G : tiles) (B : bins) :
  sweeping todo a s G B -> G0 !! a = Some (sa, sta) -> sta <> Used ->
  sweeping (fun b => todo b /\ b <> a) a' s G B.
Proof.
  intros SW Ha Hst. assert (forall sc, G0 !! a <> Some (sc, Used)) as Hn by congruence.
  split; try apply SW.
  - intros b sb st Hb [Hd Hba]. destruct (SW_todo _ _ _ _ _ SW b sb st Hb Hd) as (? & ? & Hr). auto.
  - intros c sc. rewrite (SW_used _ _ _ _ _ SW). destruct (decide (c = a)) as [->|]; [|tauto].
    split; intros [Hc _]; by apply Hn in Hc.
  - intros c sc Hc Hd. destruct (decide (c = a)) as [->|].
    + apply (SW_used _ _ _ _ _ SW) in Hc as [Hc _]. by apply Hn in Hc.
    + apply (SW_unmarked _ _ _ _ _ SW c sc Hc). tauto.
Qed.

(** A chunk in use and not marked: it is released. *)
Lemma sweep_released (todo : Z -> Prop) (a sa : Z) (s : astate) (G : tiles) (B : bins) :
  sweeping todo a s G B -> G0 !! a = Some (sa, Used) -> todo a -> is_marked (mm s0) a = false ->
  (forall b sb st, G0 !! b = Some (sb, st) -> todo b -> b + 16 + sb <> a) ->
  exists s' G' B', release s (a + HEADER_SIZE) = Some s' /\ sweeping (fun b => todo b /\ b <> a) (a + 16 + sa) s' G' B'.
Proof.
  intros SW Ha Ht Hm Hprev. pose proof (sweeping_heaps _ _ _ _ _ SW) as Eh.
  destruct (SW_todo _ _ _ _ _ SW a sa Used Ha Ht) as (_ & _ & Hr). pose proof (Hr (or_intror eq_refl)) as HGa.
  pose proof (SW_inv _ _ _ _ _ SW) as HF. pose proof HF as [[AI _] _]. pose proof (A_H _ _ _ _ _ AI) as HI.
  unfold HEADER_SIZE. replace a with (a + 16 - 16) in HGa by lia.
  destruct (release_ok s G B Bg (a + 16) sa HF (SW_mu _ _ _ _ _ SW) HGa (Hsmall _ _ Ha))
    as (s' & G' & B' & E & HF' & Hmu & Em & Hg & Hu & D & HU & HT).
  replace (a + 16 - 16) with a in * by lia. rewrite Eh in HU, HI.
  assert (forall b st, G !! b = Some st -> inner hs0 b) as Hin.
  { intros b st Hb h Hh ->. pose proof (H_end_not_tile _ _ _ _ HI h Hh). congruence. }
  exists s', G', B'. split; [done|]. split; try done.
  - rewrite Em. apply SW.
  - eapply same_geo_trans; [apply SW|done].
  - intros b sb st Hb [Hd Hba]. destruct (SW_todo _ _ _ _ _ SW b sb st Hb Hd) as (Hsl & Hv & Hreal).
    pose proof (Hreal (or_introl Hba)) as Hb'.
    assert (forall sb', G !! b = Some (sb', Free) -> b + 16 + sb' <> a) as Hpb.
    { intros sb' Hsb. simplify_eq. by eapply Hprev. }
    destruct (HU b Hsl) as [? Hv']; [split_and!; eauto|]. split_and!; [done|congruence|].
    intros [Hbn| ->]; [|by apply Hu]. rewrite (HT b sa); auto.
  - intros c sc. rewrite Hu, (SW_used _ _ _ _ _ SW). destruct (decide (c = a)) as [->|]; [|tauto].
    split; [tauto|]. intros [_ [?|[_ ?]]]; congruence.
  - intros c sc [Hca Hc]%Hu Hd. rewrite is_marked_bit. destruct (HU c) as [_ Hv]; [left; left; eauto| |].
    { split_and!; [done|by eapply Hin|]. intros sb Hsb. congruence. }
    unfold scan_view in Hv. apply pair_eq in Hv as [_ ->]. rewrite <- is_marked_bit.
    apply (SW_unmarked _ _ _ _ _ SW c sc Hc). tauto.
  - eapply only_differ_trans; [apply SW|]. eapply only_differ_weaken; [|exact D].
    intros x [Hx _]. by apply (in_arena_geo (ar s0) (ar s)); [apply SW|].
  - intros c sc x Hc Hx. rewrite D; [|intros [_ []]; by exists c, sc]. apply Hu in Hc as [_ Hc]. by eapply (SW_kept _ _ _ _ _ SW).
Qed.
(** One round of the loop. *)
Lemma sweep_chunk (todo : Z -> Prop) (a sa : Z) (sta : status) (s : astate) (G : tiles) (B : bins) :
  sweeping todo a s G B -> G0 !! a = Some (sa, sta) -> todo a ->
  (forall b sb st, G0 !! b = Some (sb, st) -> todo b -> b + 16 + sb <> a) ->
  exists s' G' B',
    (if is_marked (mm s) a then Some (with_mm s (clear_mark (mm s) a))
     else if is_curr_inuse (mm s) a then release s (a + HEADER_SIZE) else Some s) = Some s' /\
    sweeping (fun b => todo b /\ b <> a) (a + 16 + sa) s' G' B'.
Proof.
  intros SW Ha Ht Hprev. destruct (sweeping_view _ _ _ _ _ _ _ SW Ha Ht) as (_ & -> & -> & Hu & _).
  destruct (is_marked (mm s0) a) eqn:Em.
  - do 3 eexists. split; [done|]. by eapply sweep_marked.
  - destruct (is_curr_inuse (mm s0) a) eqn:Ec.
    + destruct Hu as [Hu _]. rewrite (Hu eq_refl) in Ha. by eapply sweep_released.
    + do 3 eexists. split; [done|]. eapply sweep_unused; [done|done|]. intros ->. destruct Hu as [_ Hu]. by specialize (Hu eq_refl).
Qed.

(** The loop over one heap; [rest] are the chunks of the heaps after it. *)
Lemma sweep_scan_ok (h : alloced_heap) (rest : Z -> Prop) :
  h ∈ hs0 -> (forall b, rest b -> ~ heap_start h <= b < heap_end h) -> forall n a s G B,
  (is_Some (G0 !! a) /\ heap_start h <= a < heap_end h) \/ a = heap_end h ->
  (heap_end h - a) / 16 < Z.of_nat n ->
  sweeping (fun b => a <= b < heap_end h \/ rest b) a s G B ->
  exists s' G' B', sweep_scan n s a (heap_end h) = Some s' /\ sweeping rest (heap_end h) s' G' B'.
Proof.
  intros Hh Hrest. destruct HF0 as [[AI _] _]. pose proof (A_H _ _ _ _ _ AI) as HI.
  induction n as [|n IH]; intros a s G B Ha Hn SW.
  - exfalso. assert (0 <= (heap_end h - a) / 16); [|lia]. apply Z.div_pos; [|lia]. destruct Ha as [[_ ?]|]; lia.
  - cbn [sweep_scan]. destruct Ha as [[[[sa sta] Ha] Hin]| ->].
    2:{ rewrite (proj2 (Z.leb_le _ _)) by lia. exists s, G, B. split; [done|].
        eapply sweeping_iff; [exact SW| |by left]. intros b _. intuition lia. }
    destruct (Z.leb_spec (heap_end h) a); [lia|].
    destruct (H_tile _ _ _ _ HI _ _ _ Ha) as (? & _).
    destruct (H_next _ _ _ _ HI _ _ _ Ha) as (h' & Hh' & ? & ? & Hn').
    assert (h' = h) as -> by (destruct (H_heaps _ _ _ _ HI _ _ Hh Hh') as [?|[?|?]]; [done|lia..]).
    destruct (sweeping_view _ _ _ _ _ G B SW Ha) as (-> & _); [left; lia|].
    destruct (sweep_chunk _ _ _ _ _ _ _ SW Ha) as (s1 & G1 & B1 & E1 & SW1).
    { left. lia. }
    { intros b sb st Hb [?|Hd] Eb; [destruct (H_tile _ _ _ _ HI _ _ _ Hb); lia|].
      destruct (H_tile _ _ _ _ HI _ _ _ Hb). destruct (H_next _ _ _ _ HI _ _ _ Hb) as (h' & Hh2 & ? & ? & _).
      apply (Hrest b Hd). destruct (H_heaps _ _ _ _ HI _ _ Hh Hh2) as [<-|?]; lia. }
 rewrite E1. cbn [mbind option_bind]. unfold HEADER_SIZE.
    apply (IH (a + 16 + sa) s1 G1 B1).
    + destruct Hn' as [?|Hn']; [by right|]. destruct (decide (a + 16 + sa = heap_end h)); [by right|]. left. split; [done|lia].
    + assert ((heap_end h - (a + 16 + sa)) / 16 <= (heap_end h - a) / 16 - 1); [|lia].
      replace ((heap_end h - a) / 16 - 1) with ((heap_end h - a + (-1) * 16) / 16) by (rewrite Z.div_add by lia; lia).
      apply Z.div_le_mono; lia.
    + eapply sweeping_iff; [exact SW1| |by left]. intros b [[sb st] Hb]. cbv beta.
      destruct (H_tile _ _ _ _ HI _ _ _ Hb) as (? & _).
      pose proof (H_sep _ _ _ _ HI _ _ _ _ _ _ Ha Hb). split; [intros [[?|?] ?]; [left; lia|by right]|].
      intros [?|Hd]; [split; [left; lia|lia]|]. split; [by right|]. intros ->. by apply (Hrest a Hd).
Qed.

(** The chunks of the heaps [hs]. *)
Definition in_heaps (hs : list alloced_heap) (b : Z) : Prop := exists h, h ∈ hs /\ heap_start h <= b < heap_end h.

Lemma sweep_heaps_ok (hs : list alloced_heap) : forall a s G B,
  NoDup hs -> (forall h, h ∈ hs -> h ∈ hs0) -> G0 !! a = None -> sweeping (in_heaps hs) a s G B ->
  exists s' a' G' B', sweep_heaps hs s = Some s' /\ sweeping (fun _ => False) a' s' G' B'.
Proof.
  destruct HF0 as [[AI _] _]. pose proof (A_H _ _ _ _ _ AI) as HI.
  induction hs as [|h hs IH]; intros a s G B Hnd Hsub Ha SW; cbn [sweep_heaps].
  - exists s, a, G, B. split; [done|]. eapply sweeping_iff; [exact SW| |by left].
    intros b _. split; [|done]. by intros (h & []%elem_of_nil & _).
  - apply NoDup_cons in Hnd as [Hnot Hnd]. assert (h ∈ hs0) as Hh by (apply Hsub; by left).
    destruct (H_heap _ _ _ _ HI _ Hh) as (Hst & _ & _ & ?).
    destruct (sweep_scan_ok h (in_heaps hs) Hh) with (n := heap_steps h) (a := heap_start h) (s := s) (G := G) (B := B)
      as (s1 & G1 & B1 & E1 & SW1).
    + intros b (h' & Hh' & ?) ?. destruct (H_heaps _ _ _ _ HI _ _ Hh (Hsub h' ltac:(by right))) as [->|?]; [done|lia].
    + left. split; [done|lia].
    + unfold heap_steps, HEADER_SIZE. assert (0 <= (heap_end h - heap_start h) / 16) by (apply Z.div_pos; lia). lia.
    + eapply sweeping_iff; [exact SW| |by right]. intros b _. unfold in_heaps. setoid_rewrite elem_of_cons. split.
      * intros (h' & [->|?] & ?); [by left|right; eauto].
      * intros [?|(h' & ? & ?)]; eauto.
    + rewrite E1. cbn [mbind option_bind]. apply (IH (heap_end h) s1 G1 B1 Hnd); [|by eapply H_end_not_tile|done].
      intros h' Hh'. apply Hsub. by right.
Qed.

Lemma sweep_arena_ok : mu (ar s0) = false ->
  exists s' a' G' B', sweep_arena s0 = Some s' /\ sweeping (fun _ => False) a' s' G' B'.
Proof.
  intros Hmu. destruct HF0 as [[AI _] MI]. pose proof (A_H _ _ _ _ _ AI) as HI.
  eapply (sweep_heaps_ok hs0 (-1)); [apply MI|done| |].
  - destruct (G0 !! (-1)) as [[sz st]|] eqn:E; [|done]. destruct (H_tile _ _ _ _ HI _ _ _ E) as (_ & _ & _ & ? & _). lia.
  - eapply sweeping_iff; [by apply sweeping_start| |by left]. intros b [[sb st] Hb]. split; [|done]. intros _.
    destruct (H_tile _ _ _ _ HI _ _ _ Hb) as (? & _).
    destruct (H_next _ _ _ _ HI _ _ _ Hb) as (h & Hh & ? & ? & _). exists h. split; [done|lia].
Qed.
End sweep.

(** ** Sweeping an arena, in terms of the blocks it has handed out *)

(** The blocks whose chunks are marked. *)
Definition marked_blocks (m : mem) (L : gmap Z Z) : gmap Z Z :=
  filter (fun pn => is_marked m (pn.1 - HEADER_SIZE) = true) L.

Lemma marked_blocks_spec (m : mem) (L : gmap Z Z) (p n : Z) :
  marked_blocks m L !! p = Some n <-> L !! p = Some n /\ is_marked m (p - 16) = true.
Proof. apply map_lookup_filter_Some. Qed.

(** The top chunk does not carry the in-use flag. *)
Definition top_free (s : astate) : Prop :=
  top_chunk (ar s) <> NULL -> is_curr_inuse (mm s) (top_chunk (ar s)) = false.

(** All heap blocks are below the size at which [release] unmaps. *)
Definition small_blocks (L : gmap Z Z) : Prop := forall p n, L !! p = Some n -> n < MMAP_THRESHOLD.

Section sweep_arena.
Context `{OSLaws}.

Lemma repr_sweep_arena (s : astate) (L M : gmap Z Z) :
  repr s L M -> small_blocks L -> top_free s ->
  exists s', sweep_arena s = Some s' /\ repr s' (marked_blocks (mm s) L) M /\ maps s' = maps s /\
    same_geo (ar s) (ar s') /\ kept (marked_blocks (mm s) L) M (mm s) (mm s') /\
    only_differ (in_arena (ar s)) (mm s) (mm s') /\
    (forall p n, marked_blocks (mm s) L !! p = Some n -> is_marked (mm s') (p - 16) = false).
Proof.
  intros (G & B & Bg & HF & Hmu & HL & HM) Hsm Htf.
  destruct (sweep_arena_ok s G B Bg HF) as (s' & a' & G' & B' & E & SW); try done.
  - intros c sc Hc. apply (Hsm (c + 16)), HL. by replace (c + 16 - 16) with c by lia.
  - intros c sc Hc. destruct HF as [[AI _] _]. rewrite (H_top _ _ _ _ (A_H _ _ _ _ _ AI) _ _ Hc). apply Htf.
    rewrite <- (H_top _ _ _ _ (A_H _ _ _ _ _ AI) _ _ Hc). destruct (A_tile AI _ _ _ Hc) as (_ & _ & _ & ? & _). lia.
  - assert (forall p n, marked_blocks (mm s) L !! p = Some n <-> G' !! (p - 16) = Some (n, Used)) as HL'.
    { intros p n. rewrite marked_blocks_spec, HL, (SW_used _ _ _ _ _ _ _ _ SW). intuition. }
    exists s'. split; [done|]. split_and!; try apply SW.
    + exists G', B', Bg. split_and!; try done; apply SW.
    + intros p n x [Hp|Hp] Hx.
      * apply HL' in Hp. eapply (SW_kept _ _ _ _ _ _ _ _ SW); [done|lia].
      * apply (SW_diff _ _ _ _ _ _ _ _ SW). intros Ha. apply HM in Hp. destruct HF as [HS MI].
        destruct (big_block _ _ _ _ (conj HS MI) _ _ Hp) as (_ & _ & _ & ?).
        destruct (in_arena_big _ _ _ _ _ MI Hp Ha); lia.
    + intros p n Hp. apply HL' in Hp. eapply (SW_unmarked _ _ _ _ _ _ _ _ SW); [done|]. by intros [].
Qed.
End sweep_arena.
