(* ===== verification/GcCollect.v ===== *)
(** * GcCollect: a whole collection

    The arenas of the schedulers share one store.  Marking writes headers of
    live blocks, sweeping an arena writes inside that arena, so all arenas
    stay well formed, and a collection keeps exactly the heap blocks a root
    points into. *)

From S2P Require Import Prelude Mem Dll Alloc AllocFacts AllocInv AllocBins AllocLink AllocSafe AllocOs.
From S2P Require Import AllocRelease AllocMain AllocSpec Heap Queue QueueSpec RingSpec Gc GcSpec GcSweep.

(** [P] holds of no word of the blocks [M] nor of their headers. *)
Definition off_blocks (P : Z -> Prop) (M : gmap Z Z) : Prop :=
  forall p n x, M !! p = Some n -> P x -> x < p - 16 \/ p + n <= x.

Section frame.
Context `{OSLaws}.

Lemma repr_in_arena (s : astate) (L M : gmap Z Z) (p n x : Z) :
  repr s L M -> L !! p = Some n -> p - 16 <= x < p + n -> in_arena (ar s) x.
Proof.
  intros (G & B & Bg & HF & _ & HL & _) Hp Hx. apply HL in Hp.
  destruct (tile_block _ _ _ _ HF _ _ _ Hp) as (_ & _ & _ & h & Hh & ? & ?). left. exists h. split; [done|lia].
Qed.

Lemma repr_top_in_arena (s : astate) (L M : gmap Z Z) (o : Z) :
  repr s L M -> top_chunk (ar s) <> NULL -> 0 <= o < 16 -> in_arena (ar s) (top_chunk (ar s) + o).
Proof.
  intros (G & B & Bg & [[AI _] _] & _) Ht Ho.
  destruct (H_top_end _ _ _ _ (A_H _ _ _ _ _ AI) Ht) as (sz & h & Hsz & _).
  destruct (H_next _ _ _ _ (A_H _ _ _ _ _ AI) _ _ _ Hsz) as (h' & Hh' & ? & ? & _).
  destruct (A_tile AI _ _ _ Hsz). left. exists h'. split; [done|lia].
Qed.

(** An arena does not notice writes elsewhere. *)
Lemma repr_outside (m m' : mem) (ms : list (Z * Z)) (a : arena) (L M : gmap Z Z) (P : Z -> Prop) :
  repr (AState m ms a) L M -> only_differ P m m' -> (forall x, P x -> ~ in_arena a x) -> off_blocks P M ->
  repr (AState m' ms a) L M.
Proof.
  intros (G & B & Bg & [[AI HS] MI] & Hmu & HL & HM) D HP HPM. exists G, B, Bg. split_and!; try done.
  split; [split; [|done]|].
  - eapply (A_outside m); [exact AI|]. by eapply only_differ_weaken.
  - split; try apply MI. cbn [mm ar maps]. intros c z Hc.
    destruct (M_big _ _ MI c z Hc) as (Hz & ? & ? & ? & ? & ? & ? & Eh). split_and!; try done.
    etrans; [|exact Eh]. f_equal. assert (M !! (c + 16) = Some z) as Hc' by (apply HM; by replace (c + 16 - 16) with c by lia).
    unfold MMAP_THRESHOLD in Hz. apply hdr_frame; apply D; intros Hx; destruct (HPM _ _ _ Hc' Hx); offs; lia.
Qed.

(** What a sweep of an arena relies on. *)
Record sweepable (s : astate) (L M : gmap Z Z) : Prop := {
  SB_repr : repr s L M;
  SB_small : small_blocks L;
  SB_top : top_free s
}.

Lemma sweepable_outside (m m' : mem) (ms : list (Z * Z)) (a : arena) (L M : gmap Z Z) (P : Z -> Prop) :
  sweepable (AState m ms a) L M -> only_differ P m m' -> (forall x, P x -> ~ in_arena a x) -> off_blocks P M ->
  sweepable (AState m' ms a) L M /\ marked_blocks m' L = marked_blocks m L /\ kept L M m m'.
Proof.
  intros [HR Hs Ht] D HP HPM.
  assert (forall x, in_arena a x -> ld m' x = ld m x) as Heq by (intros x Hx; apply D; intros ?%HP; done).
  split; [split; [by eapply repr_outside|done|]|split].
  - unfold top_free in *. cbn [ar mm] in *. intros Hn. rewrite <- (Ht Hn). unfold is_curr_inuse. rewrite Heq; [done|].
    by apply (repr_top_in_arena (AState m ms a) L M).
  - apply map_filter_ext. intros p n Hp. cbn [fst]. unfold HEADER_SIZE, is_marked. rewrite Heq; [done|].
    apply (repr_in_arena (AState m ms a) L M p n _ HR Hp). destruct (repr_blocks _ _ _ _ _ HR (or_introl Hp)). offs. lia.
  - intros p n x [Hp|Hp] Hx; [apply Heq; apply (repr_in_arena (AState m ms a) L M p n x HR Hp); lia|].
    apply D. intros Hx'. destruct (HPM _ _ _ Hp Hx'); lia.
Qed.
End frame.

(** ** Several arenas *)

Lemma Forall2_replace {A A' B} (P : A -> A' -> Prop) (Q : A -> B -> Prop) (R : A' -> B -> Prop) (l : list A) (l' : list A') (k : list B) :
  (forall a a' b, P a a' -> Q a b -> R a' b) -> Forall2 P l l' -> Forall2 Q l k -> Forall2 R l' k.
Proof.
  intros HR HP. revert k. induction HP as [|a a' l l' Ha _ IH]; intros k HQ.
  - by apply Forall2_nil_inv_l in HQ as ->.
  - apply Forall2_cons_inv_l in HQ as (b & k' & ? & ? & ->). constructor; eauto.
Qed.

Definition separate (a : arena) (M : gmap Z Z) (a' : arena) (M' : gmap Z Z) : Prop :=
  (forall x, in_arena a x -> ~ in_arena a' x) /\ off_blocks (in_arena a) M' /\ off_blocks (in_arena a') M.

Lemma separate_geo (a b a' : arena) (M M' : gmap Z Z) :
  same_geo a b -> separate a M a' M' -> separate b M a' M'.
Proof.
  intros Hg (H1 & H2 & H3). split_and!; [|intros p n x Hp Hx; apply (H2 p n x Hp)|done].
  - intros x Hx. apply H1. by apply (in_arena_geo a b).
  - by apply (in_arena_geo a b).
Qed.

Lemma separate_geo_r (a a' b' : arena) (M M' : gmap Z Z) :
  same_geo a' b' -> separate a M a' M' -> separate a M b' M'.
Proof.
  intros Hg (H1 & H2 & H3). split_and!; [|done|].
  - intros x Hx. rewrite (in_arena_geo a' b') by done. by apply H1.
  - intros p n x Hp Hx. apply (H3 p n x Hp). by apply (in_arena_geo a' b').
Qed.

Section arenas.
Context `{OSLaws}.

(** The words of the arenas. *)
Definition in_arenas (ars : list arena) (x : Z) : Prop := exists a, a ∈ ars /\ in_arena a x.

(** The arenas [ars] satisfy [Q] and lie apart; [LMs] gives the heap blocks
    and the mapped blocks of each. *)
Fixpoint arenas_ok (Q : astate -> gmap Z Z -> gmap Z Z -> Prop) (m : mem) (ms : list (Z * Z)) (ars : list arena)
    (LMs : list (gmap Z Z * gmap Z Z)) : Prop :=
  match ars, LMs with
  | [], [] => True
  | a :: ars, (L, M) :: LMs =>
      Q (AState m ms a) L M /\ Forall2 (fun a' LM' => separate a M a' LM'.2) ars LMs /\ arenas_ok Q m ms ars LMs
  | _, _ => False
  end.

Lemma arenas_ok_weaken (Q Q' : astate -> gmap Z Z -> gmap Z Z -> Prop) (m : mem) (ms : list (Z * Z)) (ars : list arena) :
  (forall s L M, Q s L M -> Q' s L M) -> forall LMs, arenas_ok Q m ms ars LMs -> arenas_ok Q' m ms ars LMs.
Proof.
  intros HQ. induction ars as [|a ars IH]; intros [|[L M] LMs] HA; try done.
  destruct HA as (? & ? & ?). cbn [arenas_ok]. auto.
Qed.

(** Writes outside the arenas. *)
Definition outside (P : Z -> Prop) (ars : list arena) (LMs : list (gmap Z Z * gmap Z Z)) : Prop :=
  Forall2 (fun a LM => (forall x, P x -> ~ in_arena a x) /\ off_blocks P LM.2) ars LMs.

Lemma sweepable_arenas_outside (m m' : mem) (ms : list (Z * Z)) (P : Z -> Prop) (ars : list arena) : forall LMs,
  arenas_ok sweepable m ms ars LMs -> only_differ P m m' -> outside P ars LMs ->
  arenas_ok sweepable m' ms ars LMs /\
  Forall (fun LM => marked_blocks m' LM.1 = marked_blocks m LM.1 /\ kept LM.1 LM.2 m m') LMs.
Proof.
  induction ars as [|a ars IH]; intros [|[L M] LMs] HA D HP; try done.
  destruct HA as (HSb & Hsep & HA). apply Forall2_cons in HP as [[HP HPM] HPs].
  destruct (sweepable_outside m m' ms a L M P HSb D HP HPM) as (? & ? & ?).
  destruct (IH LMs HA D HPs) as [? ?]. split; [done|]. by constructor.
Qed.

Lemma separate_outside (a : arena) (M : gmap Z Z) (ars : list arena) (LMs : list (gmap Z Z * gmap Z Z)) :
  Forall2 (fun a' LM' => separate a M a' LM'.2) ars LMs -> outside (in_arena a) ars LMs /\
  (forall x, in_arenas ars x -> ~ in_arena a x) /\ off_blocks (in_arenas ars) M.
Proof.
  intros HF. split; [|split].
  - eapply Forall2_impl; [exact HF|]. by intros a' LM' (? & ? & _).
  - intros x (a' & Ha' & Hx) Hx'. apply list_elem_of_lookup_1 in Ha' as [i Hi]. destruct (Forall2_lookup_l _ _ _ _ _ HF Hi) as (LM' & _ & Hd & _). by apply (Hd x).
  - intros p n x Hp (a' & Ha' & Hx). apply list_elem_of_lookup_1 in Ha' as [i Hi]. destruct (Forall2_lookup_l _ _ _ _ _ HF Hi) as (LM' & _ & _ & _ & Ho). by apply (Ho p n x).
Qed.

(** ** Sweeping them all *)

Definition swept (m : mem) (LM : gmap Z Z * gmap Z Z) : gmap Z Z * gmap Z Z := (marked_blocks m LM.1, LM.2).

(** The blocks left keep their contents and carry no mark. *)
Definition swept_clean (m m' : mem) (LM : gmap Z Z * gmap Z Z) : Prop :=
  kept (marked_blocks m LM.1) LM.2 m m' /\
  forall p n, marked_blocks m LM.1 !! p = Some n -> is_marked m' (p - 16) = false.

Lemma contents_kept_trans (L M : gmap Z Z) (m1 m2 m3 : mem) : kept L M m1 m2 -> kept L M m2 m3 -> kept L M m1 m3.
Proof. intros H1 H2 p n x Hp Hx. rewrite (H2 p n x Hp Hx). by apply (H1 p n x). Qed.

Lemma kept_marked (m0 : mem) (L M : gmap Z Z) (m m' : mem) : kept L M m m' -> kept (marked_blocks m0 L) M m m'.
Proof.
  intros HK p n x [Hp|Hp] Hx; apply (HK p n x); try done; [left|by right]. by apply marked_blocks_spec in Hp as [? _].
Qed.

Lemma sweep_arenas_ok (ms : list (Z * Z)) (ars : list arena) : forall m LMs,
  arenas_ok sweepable m ms ars LMs ->
  exists ars' m', sweep_arenas ars m ms = Some (ars', m', ms) /\
    arenas_ok repr m' ms ars' (swept m <$> LMs) /\ Forall2 same_geo ars ars' /\
    only_differ (in_arenas ars) m m' /\ Forall (swept_clean m m') LMs.
Proof.
  induction ars as [|a ars IH]; intros m [|[L M] LMs] HA; try done; cbn [sweep_arenas].
  { exists [], m. split_and!; done. }
  destruct HA as ([HR Hsm Htf] & Hsep & HA). destruct (separate_outside _ _ _ _ Hsep) as (Ho & Hin & Hoff).
  destruct (repr_sweep_arena _ L M HR Hsm Htf) as (s' & E & HR' & Em & Hg & HK & D & Hun). cbn [mm maps ar] in *.
  rewrite E. cbn [mbind option_bind]. rewrite Em.
  destruct (sweepable_arenas_outside _ _ _ _ _ _ HA D Ho) as [HA1 Hfr].
  destruct (IH (mm s') LMs HA1) as (ars' & m' & -> & HR2 & Hg2 & D2 & Hc2). cbn [mbind option_bind].
  assert (swept (mm s') <$> LMs = swept m <$> LMs) as Esw.
  { apply list_fmap_ext. intros i LM Hi. unfold swept. apply list_elem_of_lookup_2 in Hi.
    rewrite Forall_forall in Hfr. by destruct (Hfr LM Hi) as [-> _]. }
  rewrite Esw in HR2. destruct s' as [m1 ms1 a1]. cbn [mm maps ar] in *. subst ms1.
  assert (forall x, in_arenas ars x -> ~ in_arena a1 x) as Hin1 by (intros x Hx; rewrite (in_arena_geo a a1) by done; auto).
  exists (a1 :: ars'), m'. split; [done|]. split_and!.
  - cbn [fmap list_fmap arenas_ok]. unfold swept at 1. split_and!; [by eapply repr_outside| |done].
    apply Forall2_fmap_r. eapply Forall2_replace; [|exact Hg2|exact Hsep].
    intros b b' LM Hb Hs. cbn [snd]. eapply separate_geo; [exact Hg|]. eapply separate_geo_r; [exact Hb|exact Hs].
  - by constructor.
  - eapply only_differ_trans; [eapply only_differ_weaken; [|exact D]|eapply only_differ_weaken; [|exact D2]].
    + intros x Hx. exists a. split; [by left|done].
    + intros x (b & Hb & Hx). exists b. split; [by right|done].
  - constructor.
    + split; cbn [fst snd].
      * eapply contents_kept_trans; [exact HK|]. intros p n x [Hp|Hp] Hx; apply D2; intros Hx'.
        -- apply (Hin1 x Hx'). apply (repr_in_arena _ _ _ _ _ x HR' Hp). lia.
        -- destruct (Hoff _ _ _ Hp Hx'); lia.
      * intros p n Hp. rewrite <- (Hun p n Hp), !is_marked_bit. f_equal. apply D2. intros Hx'. apply (Hin1 _ Hx').
        apply (repr_in_arena _ _ _ _ _ _ HR' Hp). destruct (repr_blocks _ _ _ _ _ HR' (or_introl Hp)). lia.
    + rewrite Forall_forall in Hfr, Hc2 |- *. intros LM HLM. destruct (Hfr LM HLM) as [Eq HK1]. destruct (Hc2 LM HLM) as [HK2 Hu2].
      unfold swept_clean in *. rewrite Eq in *. split; [|done]. eapply contents_kept_trans; [|exact HK2]. by apply kept_marked.
Qed.
End arenas.

(** ** The chunks of all arenas together *)

Lemma tiled_nil (m : mem) : tiled m [] ∅.
Proof. split; try (intros *; rewrite lookup_empty; done); intros h *; by intros ?%elem_of_nil. Qed.

Lemma tiled_union (m : mem) (hs1 hs2 : list alloced_heap) (G1 G2 : gmap Z Z) :
  tiled m hs1 G1 -> tiled m hs2 G2 ->
  (forall h1 h2, h1 ∈ hs1 -> h2 ∈ hs2 -> apart2 (heap_start h1) (heap_end h1) (heap_start h2) (heap_end h2)) ->
  G1 ##ₘ G2 /\ tiled m (hs1 ++ hs2) (G1 ∪ G2).
Proof.
  intros T1 T2 Hap.
  assert (forall a s b s', G1 !! a = Some s -> G2 !! b = Some s' -> a + 16 + s <= b \/ b + 16 + s' <= a) as Hsep.
  { intros a s b s' Ha Hb. destruct (T_in _ _ _ T1 _ _ Ha) as (h1 & Hh1 & ? & ?).
    destruct (T_in _ _ _ T2 _ _ Hb) as (h2 & Hh2 & ? & ?). destruct (Hap _ _ Hh1 Hh2); lia. }
  assert (G1 ##ₘ G2) as Hd.
  { apply map_disjoint_spec. intros a s s' Ha Hb. destruct (T_tile _ _ _ T1 _ _ Ha). destruct (T_tile _ _ _ T2 _ _ Hb).
    destruct (Hsep _ _ _ _ Ha Hb); lia. }
  split; [done|].
  assert (forall a s, (G1 ∪ G2) !! a = Some s <-> G1 !! a = Some s \/ G2 !! a = Some s) as HU by (intros; by apply lookup_union_Some).
  assert (forall a, is_Some ((G1 ∪ G2) !! a) <-> is_Some (G1 !! a) \/ is_Some (G2 !! a)) as HUS.
  { intros a. split; [intros [s Hs%HU]; destruct Hs; [left|right]; eauto|intros [[s Hs]|[s Hs]]; exists s; apply HU; auto]. }
  split.
  - intros a s [Ha|Ha]%HU; [exact (T_tile _ _ _ T1 _ _ Ha)|exact (T_tile _ _ _ T2 _ _ Ha)].
  - intros a s b s' [Ha|Ha]%HU [Hb|Hb]%HU; [by apply (T_sep _ _ _ T1)| | |by apply (T_sep _ _ _ T2)].
    + destruct (Hsep _ _ _ _ Ha Hb); auto.
    + destruct (Hsep _ _ _ _ Hb Ha); auto.
  - intros h a s Hh Ha Hin. rewrite HUS. apply elem_of_app in Hh. apply HU in Ha. destruct Hh as [Hh|Hh], Ha as [Ha|Ha].
    + destruct (T_next _ _ _ T1 _ _ _ Hh Ha Hin). tauto.
    + destruct (T_in _ _ _ T2 _ _ Ha) as (h2 & Hh2 & ? & ?). destruct (T_tile _ _ _ T2 _ _ Ha). destruct (Hap _ _ Hh Hh2); lia.
    + destruct (T_in _ _ _ T1 _ _ Ha) as (h1 & Hh1 & ? & ?). destruct (T_tile _ _ _ T1 _ _ Ha). destruct (Hap _ _ Hh1 Hh); lia.
    + destruct (T_next _ _ _ T2 _ _ _ Hh Ha Hin). tauto.
  - intros h [Hh|Hh]%elem_of_app; rewrite HUS; [destruct (T_start _ _ _ T1 _ Hh)|destruct (T_start _ _ _ T2 _ Hh)]; auto.
  - intros h h' a [Hh|Hh]%elem_of_app [Hh'|Hh']%elem_of_app ? ?.
    + by apply (T_heaps _ _ _ T1 h h' a).
    + destruct (Hap _ _ Hh Hh'); lia.
    + destruct (Hap _ _ Hh' Hh); lia.
    + by apply (T_heaps _ _ _ T2 h h' a).
  - intros a s [Ha|Ha]%HU; [destruct (T_in _ _ _ T1 _ _ Ha) as (h & ? & ?)|destruct (T_in _ _ _ T2 _ _ Ha) as (h & ? & ?)];
      exists h; rewrite elem_of_app; auto.
Qed.

Section chunks.
Context `{OSLaws}.

(** [G] are the chunks of [hs], and those in use are the blocks [live]. *)
Definition chunks_of (m : mem) (hs : list alloced_heap) (G : gmap Z Z) (blocks : Z -> Z -> Prop) : Prop :=
  tiled m hs G /\ forall c k, (G !! c = Some k /\ is_curr_inuse m c = true) <-> blocks (c + 16) k.

Lemma arena_chunks (s : astate) (L M : gmap Z Z) :
  repr s L M -> top_free s -> exists G, chunks_of (mm s) (alloced_heaps (ar s)) G (fun p k => L !! p = Some k).
Proof.
  intros (G & B & Bg & [[AI HS] _] & _ & HL & _) Ht. pose proof (A_H _ _ _ _ _ AI) as HI.
  exists (fst <$> G). split; [by eapply tiled_arena|]. intros c k. rewrite HL, lookup_fmap, fmap_Some.
  replace (c + 16 - 16) with c by lia. split.
  - intros [([s' st] & Hc & ->) Hu]. rewrite is_curr_inuse_hdr in Hu. pose proof (H_curr _ _ _ _ HI _ _ _ Hc) as Hok.
    destruct (HS _ _ _ Hc). cbn [fst]. rewrite Hc. destruct st; try done; unfold curr_ok in Hok; try congruence.
    pose proof (H_top _ _ _ _ HI _ _ Hc) as E. destruct (A_tile AI _ _ _ Hc) as (_ & _ & _ & ? & _).
    unfold top_free in Ht. rewrite is_curr_inuse_hdr, <- E in Ht. rewrite Ht in Hu; [done|]. lia.
  - intros Hc. split; [by exists (k, Used)|]. rewrite is_curr_inuse_hdr. exact (H_curr _ _ _ _ HI _ _ _ Hc).
Qed.

Lemma heaps_apart (s s' : astate) (L M L' M' : gmap Z Z) (h h' : alloced_heap) :
  repr s L M -> repr s' L' M' -> (forall x, in_arena (ar s) x -> ~ in_arena (ar s') x) ->
  h ∈ alloced_heaps (ar s) -> h' ∈ alloced_heaps (ar s') ->
  apart2 (heap_start h) (heap_end h) (heap_start h') (heap_end h').
Proof.
  intros (G & B & Bg & [[AI _] _] & _) (G' & B' & Bg' & [[AI' _] _] & _) Hd Hh Hh'.
  destruct (H_heap _ _ _ _ (A_H _ _ _ _ _ AI) _ Hh) as (_ & _ & _ & ?).
  destruct (H_heap _ _ _ _ (A_H _ _ _ _ _ AI') _ Hh') as (_ & _ & _ & ?). unfold apart2.
  destruct (Z.le_gt_cases (heap_end h) (heap_start h')) as [?|?]; [by left|].
  destruct (Z.le_gt_cases (heap_end h') (heap_start h)) as [?|?]; [by right|]. exfalso.
  apply (Hd (Z.max (heap_start h) (heap_start h'))); left; [exists h|exists h']; (split; [done|lia]).
Qed.

(** The heap blocks of all arenas. *)
Definition heap_block (LMs : list (gmap Z Z * gmap Z Z)) (p k : Z) : Prop := exists LM, LM ∈ LMs /\ LM.1 !! p = Some k.

Lemma heap_block_cons (L M : gmap Z Z) (LMs : list (gmap Z Z * gmap Z Z)) (p k : Z) :
  heap_block ((L, M) :: LMs) p k <-> L !! p = Some k \/ heap_block LMs p k.
Proof.
  unfold heap_block. setoid_rewrite elem_of_cons. split.
  - intros (LM & [->|?] & ?); [by left|right; eauto].
  - intros [?|(LM & ? & ?)]; eauto.
Qed.

Lemma arenas_repr (m : mem) (ms : list (Z * Z)) (ars : list arena) : forall LMs (a : arena),
  arenas_ok sweepable m ms ars LMs -> a ∈ ars -> exists LM, LM ∈ LMs /\ sweepable (AState m ms a) LM.1 LM.2.
Proof.
  induction ars as [|a0 ars IH]; intros [|[L M] LMs] a HA Ha; try done; [by apply elem_of_nil in Ha|].
  destruct HA as (HSb & _ & HA). apply elem_of_cons in Ha as [->|Ha]; [exists (L, M); split; [by left|done]|].
  destruct (IH LMs a HA Ha) as (LM & ? & ?). exists LM. split; [by right|done].
Qed.

Lemma arenas_chunks (m : mem) (ms : list (Z * Z)) (ars : list arena) : forall LMs,
  arenas_ok sweepable m ms ars LMs ->
  exists G, chunks_of m (mjoin (alloced_heaps <$> ars)) G (heap_block LMs).
Proof.
  induction ars as [|a ars IH]; intros [|[L M] LMs] HA; try done.
  { exists ∅. split; [apply tiled_nil|]. intros c k. rewrite lookup_empty. split; [by intros [? _]|].
    by intros (LM & []%elem_of_nil & _). }
  destruct HA as (HSb & Hsep & HA). destruct (IH LMs HA) as (G2 & T2 & HG2).
  destruct (arena_chunks _ _ _ (SB_repr _ _ _ HSb) (SB_top _ _ _ HSb)) as (G1 & T1 & HG1). cbn [mm ar] in *.
  destruct (tiled_union _ _ _ _ _ T1 T2) as [Hd T].
  { intros h1 h2 Hh1 (hs & Hh2 & Hhs)%list_elem_of_join. apply list_elem_of_fmap in Hhs as (a' & -> & Ha').
    destruct (arenas_repr _ _ _ _ _ HA Ha') as (LM & HLM & HSb').
    apply (heaps_apart _ _ _ _ _ _ h1 h2 (SB_repr _ _ _ HSb) (SB_repr _ _ _ HSb')); try done. cbn [ar].
    apply list_elem_of_lookup_1 in Ha' as [i Hi]. by destruct (Forall2_lookup_l _ _ _ _ _ Hsep Hi) as (LM' & _ & Hs & _). }
  exists (G1 ∪ G2). split; [done|]. intros c k. rewrite heap_block_cons, <- HG1, <- HG2, lookup_union_Some by done. tauto.
Qed.
End chunks.

(** ** Marks on the headers of live blocks *)

(** From [m] to [m'] mark bits were set in words satisfying [P]. *)
Definition marks_set (P : Z -> Prop) (m m' : mem) : Prop :=
  forall x, ld m' x = ld m x \/ (P x /\ ld m' x = Z.lor (ld m x) GC_MARK_FLAG_MASK).

(** In the arena [a], [P] holds of headers of the blocks [L] only. *)
Definition on_headers (P : Z -> Prop) (a : arena) (LM : gmap Z Z * gmap Z Z) : Prop :=
  (forall x, P x -> in_arena a x -> is_Some (LM.1 !! (x + 16))) /\ off_blocks P LM.2.

Section marks.
Context `{OSLaws}.

Lemma sweepable_marked (m m' : mem) (ms : list (Z * Z)) (a : arena) (L M : gmap Z Z) (P : Z -> Prop) :
  sweepable (AState m ms a) L M -> marks_set P m m' -> on_headers P a (L, M) ->
  sweepable (AState m' ms a) L M /\ kept L M m m'.
Proof.
  intros [HR Hs Ht] HP [Hin Hoff]. cbn [fst snd] in *. pose proof HR as (G & B & Bg & [[AI HS] MI] & Hmu & HL & HM).
  pose proof (A_H _ _ _ _ _ AI) as HI. pose proof (A_O _ _ _ _ _ AI) as HO. cbn [mm ar maps] in *.
  (** only the first words of live chunks changed *)
  assert (forall x, in_arena a x -> (forall k, G !! x <> Some (k, Used)) -> ld m' x = ld m x) as Hsame.
  { intros x Ha Hn. destruct (HP x) as [?|[Hx _]]; [done|]. destruct (Hin x Hx Ha) as [k Hk]. apply HL in Hk.
    replace (x + 16 - 16) with x in Hk by lia. by destruct (Hn k). }
  assert (forall b, hnode (alloced_heaps a) G b -> hdr_of m' b = hdr_of m b) as Hhdr.
  { intros b Hb. unfold hdr_of. rewrite (Hsame (b + o_size)).
    - f_equal. unfold o_prev_size. rewrite Z.add_0_r. destruct (HP b) as [->|[_ ->]]; [done|apply word_size_lor2].
    - apply (hw_aw AI). exists b. split; [done|by right].
    - intros k Hk. destruct (H_hnode_apart _ _ _ _ HI b (b + o_size)) as [?|?]; [done|left; eauto|offs; lia..]. }
  assert (forall n o, lnode a G n -> 16 <= o < 48 -> (exists s st, G !! n = Some (s, st) /\ st <> Used) \/
    (exists b, valid_bin b /\ n = head_of a b) -> ld m' (n + o) = ld m (n + o)) as Hlink.
  { intros n o Hn Ho Hf. apply Hsame.
    - apply (lwr_aw AI). exists n, o. split_and!; try lia. tauto.
    - intros k Hk. destruct (lnode_hnode _ _ _ _ _ HI HO n (n + o) Hn) as [?|[?|?]]; [left; eauto|lia..]. }
  assert (forall c z, Bg !! c = Some z -> M !! (c + 16) = Some z) as HM'.
  { intros c z Hc. apply HM. by replace (c + 16 - 16) with c by lia. }
  split; [split; [|done|]|].
  - exists G, B, Bg. split_and!; try done. split; [split; [|done]|]; cbn [mm ar maps].
    + split; [by eapply H_ext|eapply (K_transfer _ _ _ _ (A_K _ _ _ _ _ AI)); try done|done].
      intros y o Ky Ho. apply Hlink; [by apply knode_lnode|done|].
      destruct Ky as [?|[[s' ?]|[s' ?]]]; [by right|left; by exists s', Free|left; by exists s', Fast].
    + split; try apply MI. cbn [mm ar maps]. intros c z Hc.
      destruct (M_big _ _ MI c z Hc) as (Hz & ? & ? & ? & ? & ? & ? & Eh). split_and!; try done.
      etrans; [|exact Eh]. unfold MMAP_THRESHOLD in Hz. f_equal.
      apply hdr_frame; (match goal with |- ld m' ?x = _ => destruct (HP x) as [?|[Hx _]]; [done|] end);
        destruct (Hoff _ _ _ (HM' c z Hc) Hx); offs; lia.
  - unfold top_free in *. cbn [ar mm] in *. intros Hn. rewrite <- (Ht Hn), !is_curr_inuse_hdr. f_equal. apply Hhdr.
    destruct (H_top_end _ _ _ _ HI Hn) as (sz & h & Hsz & _). left. eauto.
  - intros p n x [Hp|Hp] Hx.
    + apply Hsame; [eapply (repr_in_arena _ _ _ p n x HR Hp); lia|]. intros k Hk. apply HL in Hp.
      destruct (H_tile _ _ _ _ HI _ _ _ Hk). destruct (H_sep _ _ _ _ HI _ _ _ _ _ _ Hp Hk); lia.
    + destruct (HP x) as [?|[Hx' _]]; [done|]. destruct (Hoff _ _ _ Hp Hx'); lia.
Qed.

Lemma arenas_marked (m m' : mem) (ms : list (Z * Z)) (P : Z -> Prop) (ars : list arena) : forall LMs,
  arenas_ok sweepable m ms ars LMs -> marks_set P m m' -> Forall2 (on_headers P) ars LMs ->
  arenas_ok sweepable m' ms ars LMs /\ Forall (fun LM => kept LM.1 LM.2 m m') LMs.
Proof.
  induction ars as [|a ars IH]; intros [|[L M] LMs] HA HP HF; try done.
  destruct HA as (HSb & Hsep & HA). apply Forall2_cons in HF as [Ha HF].
  destruct (sweepable_marked m m' ms a L M P HSb HP Ha) as [? ?]. destruct (IH LMs HA HP HF) as [? ?].
  split; [done|]. by constructor.
Qed.

(** The headers of the live blocks of all arenas. *)
Lemma arenas_headers (m : mem) (ms : list (Z * Z)) (ars : list arena) : forall LMs,
  arenas_ok sweepable m ms ars LMs ->
  Forall2 (on_headers (fun x => exists k, heap_block LMs (x + 16) k)) ars LMs /\
  (forall x k, heap_block LMs (x + 16) k -> in_arenas ars x).
Proof.
  induction ars as [|a ars IH]; intros [|[L M] LMs] HA; try done.
  { split; [done|]. by intros x k (LM & []%elem_of_nil & _). }
  destruct HA as (HSb & Hsep & HA). destruct (IH LMs HA) as [IH1 IH2]. pose proof (SB_repr _ _ _ HSb) as HR.
  destruct (separate_outside _ _ _ _ Hsep) as (Ho & Hin & Hoff).
  assert (forall x k, L !! (x + 16) = Some k -> in_arena a x) as HLin.
  { intros x k Hk. apply (repr_in_arena _ _ _ _ _ x HR Hk). destruct (repr_blocks _ _ _ _ _ HR (or_introl Hk)). lia. }
  split; [constructor|].
  - split; cbn [fst snd].
    + intros x [k [Hk|Hk]%heap_block_cons] Hx; [by exists k|]. by destruct (Hin x (IH2 x k Hk)).
    + intros p n x Hp [k [Hk|Hk]%heap_block_cons]; [|by apply (Hoff p n x Hp), (IH2 x k)].
      destruct HR as (G & B & Bg & HF & _ & _ & HM). apply HM in Hp.
      destruct (big_block _ _ _ _ HF _ _ Hp) as (_ & _ & _ & ?). destruct HF as [_ MI].
      destruct (in_arena_big _ _ _ _ _ MI Hp (HLin x k Hk)); lia.
  - apply Forall2_same_length_lookup. split; [by eapply Forall2_length|]. intros i a' [L' M'] Ha' HLM'.
    destruct (Forall2_lookup_lr _ _ _ _ _ _ IH1 Ha' HLM') as [H1 H2].
    destruct (Forall2_lookup_lr _ _ _ _ _ _ Ho Ha' HLM') as [H3 H4]. cbn [fst snd] in *. split; cbn [fst snd].
    + intros x [k [Hk|Hk]%heap_block_cons] Hx; [by destruct (H3 x (HLin x k Hk))|eauto].
    + intros p n x Hp [k [Hk|Hk]%heap_block_cons]; [eauto|]. apply (H2 p n x Hp). eauto.
  - intros x k [Hk|Hk]%heap_block_cons; [exists a; split; [by left|eauto]|].
    destruct (IH2 x k Hk) as (a' & ? & ?). exists a'. split; [by right|done].
Qed.
End marks.

(** ** Roots as words *)

(** The words a saved context keeps alive objects with: those of its stack,
    its registers, the stack pointer and the program counter. *)
Definition ctx_word (m : mem) (ctx : platform_ctx) (v : Z) : Prop :=
  ss_sp ctx <= mc_sp ctx <= ss_sp ctx + ss_size ctx /\
  ((exists i, 0 <= i < Z.of_nat (Z.to_nat (ss_size ctx / 8)) /\ v = ld m (ss_sp ctx + 8 * i)) \/
   (exists i, 0 <= i < 31 /\ v = mc_regs ctx i) \/ v = mc_sp ctx \/ v = mc_pc ctx).

(** A word of an unfinished registered task. *)
Definition root_word (c : collector) (ns : list (Z * Z)) (v : Z) : Prop :=
  exists x t st ctx, (x, t) ∈ ns /\ g_tasks c !! t = Some (st, ctx) /\ st <> TASK_FINISHED /\ ctx_word (g_mem c) ctx v.

(** The block of [k] bytes at [p] is kept alive by the word [v]. *)
Definition keeps_block (p k v : Z) : Prop := v mod 8 = 0 /\ p <= v < p + k.

Lemma rooted_word (m : mem) (G : gmap Z Z) (ctx : platform_ctx) (k : Z) :
  @rooted G m ctx k <-> exists v, ctx_word m ctx v /\ points m G v k.
Proof.
  unfold rooted, words_point, ctx_word. split.
  - intros (Hb & [(i & Hi & Hp)|[(i & Hi & Hp)|[Hp|Hp]]]); eexists; (split; [split; [exact Hb|]|exact Hp]); eauto.
  - intros (v & (Hb & [(i & Hi & ->)|[(i & Hi & ->)|[->| ->]]]) & Hp); (split; [done|]); eauto.
Qed.

Lemma task_root_word (c : collector) (ns : list (Z * Z)) (G : gmap Z Z) (k : Z) :
  (exists x t, (x, t) ∈ ns /\ @task_root G (g_tasks c) (g_mem c) t k) <->
  exists v, root_word c ns v /\ points (g_mem c) G v k.
Proof.
  unfold task_root, root_word. setoid_rewrite rooted_word. split.
  - intros (x & t & Hx & st & ctx & Ht & Hst & v & Hv & Hp). exists v. split; [|done]. exists x, t, st, ctx. done.
  - intros (v & (x & t & st & ctx & Hx & Ht & Hst & Hv) & Hp). exists x, t. split; [done|]. exists st, ctx. eauto.
Qed.

Lemma points_block (m : mem) (hs : list alloced_heap) (G : gmap Z Z) (blocks : Z -> Z -> Prop) (v p k : Z) :
  chunks_of m hs G blocks -> blocks p k -> points m G v (p - 16) <-> keeps_block p k v.
Proof.
  intros [_ HB] Hb. assert (G !! (p - 16) = Some k /\ is_curr_inuse m (p - 16) = true) as [HG Hu].
  { apply HB. by replace (p - 16 + 16) with p by lia. }
  unfold points, holder, keeps_block. split.
  - intros (Hv & s & Hs & _ & Hin). simplify_eq. split; [done|lia].
  - intros (Hv & Hin). split; [done|]. exists k. split_and!; done || lia.
Qed.

Section collection.
Context `{OSLaws}.

(** The ring of roots and the stacks lie outside the arenas. *)
Definition roots_apart (c : collector) (ns : list (Z * Z)) : Prop :=
  forall x t, (x, t) ∈ ns ->
    (forall o, o ∈ [o_wq_fd; o_wq_bk; o_wq_t] -> ~ in_arenas (arenas c) (x + o)) /\
    exists st ctx, g_tasks c !! t = Some (st, ctx) /\
      forall y, ss_sp ctx <= y < ss_sp ctx + ss_size ctx -> ~ in_arenas (arenas c) y.

Lemma chunk_in_arenas (m : mem) (ars : list arena) (G : gmap Z Z) (k : Z) :
  tiled m (mjoin (alloced_heaps <$> ars)) G -> is_Some (G !! k) -> in_arenas ars k.
Proof.
  intros T [s Hs]. destruct (T_tile _ _ _ T _ _ Hs). destruct (T_in _ _ _ T _ _ Hs) as (h & Hh & ? & ?).
  apply list_elem_of_join in Hh as (l & Hh & Hl). apply list_elem_of_fmap in Hl as (a & -> & Ha).
  exists a. split; [done|]. left. exists h. split; [done|lia].
Qed.

(** What the mark phase does, in terms of blocks. *)
Lemma mark_blocks (c : collector) (q : safe_gcqueue) (ns : list (Z * Z)) (LMs : list (gmap Z Z * gmap Z Z)) (d n : nat) :
  roots c = Some q -> root_ring (g_mem c) (gcq_head q) ns -> (length ns <= n)%nat ->
  arenas_ok sweepable (g_mem c) (g_maps c) (arenas c) LMs -> roots_apart c ns ->
  (forall p k, heap_block LMs p k -> is_marked (g_mem c) (p - 16) = false) ->
  exists m', gc_mark (S d) n c = Some (with_mem c m') /\
    marks_set (fun x => exists k, heap_block LMs (x + 16) k) (g_mem c) m' /\
    forall p k, heap_block LMs p k ->
      is_marked m' (p - 16) = true <-> exists v, root_word c ns v /\ keeps_block p k v.
Proof.
  intros Eq HR Hn HA Hap Hun. destruct (arenas_chunks _ _ _ _ HA) as (G & T & HB).
  assert (forall x, ~ in_arenas (arenas c) x -> G !! x = None) as HGn.
  { intros x Hx. destruct (G !! x) as [s|] eqn:E; [|done]. destruct Hx. eapply chunk_in_arenas; eauto. }
  destruct (gc_mark_ok c q ns G d n Eq T HR) as (m' & E & HD & HM); [|done|].
  { intros x t Hx. destruct (Hap x t Hx) as (Ho & st & ctx & Ht & Hst).
    split_and!; try (apply HGn, Ho; set_solver). exists st, ctx. split; [done|]. intros k Hk Hin.
    by eapply (Hst k), chunk_in_arenas. }
  setoid_rewrite task_root_word in HM.
  exists m'. split; [done|]. split.
  - intros x. destruct (HD x) as [?|[HG Hx]]; [by left|]. destruct (is_marked (g_mem c) x) eqn:Em.
    + left. rewrite Hx. rewrite is_marked_bit in Em. apply Z.bits_inj'. intros i Hi. rewrite Z.lor_spec.
      unfold GC_MARK_FLAG_MASK. change 2 with (2 ^ 1). rewrite Z.pow2_bits_eqb by lia.
      destruct (Z.eqb_spec 1 i) as [<-|]; [by rewrite Em|apply orb_false_r].
    + right. split; [|done]. destruct (proj1 (HM x HG)) as [?|(v & _ & _ & s & Hs & Hu & _)]; [|congruence|].
      * rewrite is_marked_bit, Hx, Z.lor_spec. apply orb_true_r.
      * exists s. by apply HB.
  - intros p k Hp. assert (is_Some (G !! (p - 16))) as HG.
    { destruct (proj2 (HB (p - 16) k)) as [? _]; [by replace (p - 16 + 16) with p by lia|eauto]. }
    rewrite (HM _ HG), (Hun p k Hp). setoid_rewrite (points_block _ _ _ _ _ _ _ (conj T HB) Hp).
    split; [intros [?|?]; done|by right].
Qed.

(** What a collection leaves of an arena's blocks. *)
Definition collected (c : collector) (ns : list (Z * Z)) (m' : mem) (LM LM' : gmap Z Z * gmap Z Z) : Prop :=
  LM'.2 = LM.2 /\
  (forall p k, LM'.1 !! p = Some k <-> LM.1 !! p = Some k /\ exists v, root_word c ns v /\ keeps_block p k v) /\
  kept LM'.1 LM'.2 (g_mem c) m' /\
  forall p k, LM'.1 !! p = Some k -> is_marked m' (p - 16) = false.

Lemma gc_collect_ok (c : collector) (q : safe_gcqueue) (ns : list (Z * Z)) (LMs : list (gmap Z Z * gmap Z Z)) (d n : nat) :
  roots c = Some q -> root_ring (g_mem c) (gcq_head q) ns -> (length ns <= n)%nat ->
  arenas_ok sweepable (g_mem c) (g_maps c) (arenas c) LMs -> roots_apart c ns ->
  (forall p k, heap_block LMs p k -> is_marked (g_mem c) (p - 16) = false) ->
  exists c' LMs', gc_collect (S d) n c = Some c' /\
    arenas_ok repr (g_mem c') (g_maps c') (arenas c') LMs' /\ Forall2 (collected c ns (g_mem c')) LMs LMs' /\
    only_differ (in_arenas (arenas c)) (g_mem c) (g_mem c') /\
    g_maps c' = g_maps c /\ global_arena c' = global_arena c /\ roots c' = roots c /\ g_tasks c' = g_tasks c.
Proof.
  intros Eq HR Hn HA Hap Hun. destruct (mark_blocks c q ns LMs d n Eq HR Hn HA Hap Hun) as (m1 & E1 & HP & HM).
  destruct (arenas_headers _ _ _ _ HA) as [HF Hin].
  destruct (arenas_marked _ _ _ _ _ _ HA HP HF) as [HA1 HK1].
  destruct (sweep_arenas_ok _ _ _ _ HA1) as (ars' & m2 & E2 & HA2 & _ & D2 & HC2).
  unfold gc_collect. rewrite E1. cbn [mbind option_bind]. unfold gc_sweep. cbn [with_mem arenas g_mem g_maps]. rewrite E2.
  cbn [mbind option_bind]. do 2 eexists. split; [done|]. cbn [g_mem g_maps arenas global_arena roots g_tasks with_mem].
  split_and!; [exact HA2| |(eapply only_differ_trans; [|exact D2])|done..].
  - apply Forall2_fmap_r, Forall_Forall2_diag. rewrite Forall_forall in HC2, HK1 |- *. intros LM HLM.
    destruct (HC2 LM HLM) as [HK2 Hcl]. unfold collected, swept. cbn [fst snd].
    split; [done|]. split; [|split; [(eapply contents_kept_trans; [apply kept_marked; exact (HK1 LM HLM)|done])|done]].
    intros p k. change ((marked_blocks m1 LM.1, LM.2).1) with (marked_blocks m1 LM.1). rewrite marked_blocks_spec. split; intros [Hp Hm]; (split; [done|]); apply (HM p k); try done; by exists LM.
  - intros x Hx. destruct (HP x) as [?|[[k Hk] _]]; [done|]. by destruct Hx; apply (Hin x k).
Qed.
End collection.
