(* ===== verification/GcThms.v ===== *)
(** * GcThms: the properties of the collector

    What the mark phase marks, what a whole collection keeps, and two runs
    of collections. *)

From S2P Require Import Prelude Mem Dll Alloc AllocFacts AllocInv AllocSafe AllocOs AllocMain AllocFuel.
From S2P Require Import AllocSpec Heap Queue QueueSpec RingSpec Gc GcSpec GcSweep GcCollect.

(** The root queue is such a ring. *)
Lemma RInv_root_ring `{HeapSpec H} (off : Z) (h : H) (hd : Z) (L : gmap Z Z) (ns : list (Z * Z)) :
  RInv off h hd L ns -> root_ring (h_mem h) hd ns.
Proof.
  intros R. split; [apply R|]. split; [apply R|]. intros n t Hn. split; [|by apply (RI_task _ _ _ _ _ R)].
  destruct (RI_node _ _ _ _ _ R n t Hn) as (k & Hk & ?).
  destruct (h_block _ _ _ _ (RI_heap _ _ _ _ _ R) Hk). lia.
Qed.


(** Looking up a pointer in a heap of a well-formed arena returns; when
    the pointer lies anywhere in a live block the result is that block's
    chunk, and any chunk returned is marked in use and contains the
    pointer. *)
Theorem find_live_block `{OSLaws} (s : astate) (L M : gmap Z Z) (h : alloced_heap) (p : Z) :
  repr s L M -> h ∈ alloced_heaps (ar s) -> heap_start h <= p < heap_end h ->
  exists c, find_chunk_in_heap (mm s) h p = Some c /\
    (forall q k, L !! q = Some k -> q <= p < q + k -> c = q - HEADER_SIZE) /\
    (c <> NULL -> is_curr_inuse (mm s) c = true /\ c + HEADER_SIZE <= p < c + HEADER_SIZE + chunk_payload (mm s) c).
Proof.
  intros (G & B & Bg & [[AI _] _] & _ & HL & _) Hh Hp. pose proof (tiled_arena _ _ _ _ (A_H _ _ _ _ _ AI)) as T.
  destruct (find_chunk_spec T h p Hh Hp) as (c & E & Hc). exists c. split; [done|]. split.
  - intros q k Hq Hpq. apply HL in Hq. unfold HEADER_SIZE.
    assert (holder (mm s) (fst <$> G) p (q - 16)) as Hold.
    { exists k. split; [by rewrite lookup_fmap, Hq|]. split; [|lia]. rewrite is_curr_inuse_hdr.
      exact (H_curr _ _ _ _ (A_H _ _ _ _ _ AI) _ _ _ Hq). }
    destruct Hc as [[_ Hc]|[_ Hc]]; [by eapply holder_unique|]. by destruct (Hc (q - 16)).
  - intros Hc0. destruct Hc as [[_ (k & Hk & ? & ?)]|[? _]]; [|done]. unfold HEADER_SIZE.
    destruct (T_tile _ _ _ T _ _ Hk) as (_ & _ & _ & ->). done.
Qed.


(** ** Instances *)

(** A heap of two chunks of 32 bytes; the stack of the only task points into
    the first one, whose payload points into the second one. *)
Definition two_chunks : gmap Z Z := {[ 4096 := 32; 4144 := 32 ]}.
Definition small_mem : mem :=
  list_to_map [(4096 + 8, 37); (4144 + 8, 37); (4112, 4160); (12288, 4112);
               (8192, 8192); (8200, 8192); (8208, 9000)].
Definition small_arena : arena := Arena [] 0 0 [] [] false 0 0 [AllocedHeap 4096 4192].
Definition small_ctx : platform_ctx := PlatformCtx 12288 16 12288 0 (fun _ => 0).
Definition small_collector : collector :=
  Collector small_mem [] None [small_arena] (Some (SafeGcQueue 0 8192 false cond_init))
    {[ 9000 := (TASK_RUNNING, small_ctx) ]}.

Lemma two_chunks_lookup (a s : Z) : two_chunks !! a = Some s -> (a = 4096 \/ a = 4144) /\ s = 32.
Proof.
  unfold two_chunks. rewrite lookup_insert. case_decide; [intros [= <-]; auto|].
  rewrite lookup_singleton. case_decide; [intros [= <-]; auto|done].
Qed.

Lemma small_tiled : tiled (g_mem small_collector) (all_heaps small_collector) two_chunks.
Proof.
  assert (forall h, h ∈ all_heaps small_collector -> h = AllocedHeap 4096 4192) as Hh.
  { intros h. change (all_heaps small_collector) with [AllocedHeap 4096 4192]. by rewrite list_elem_of_singleton. }
  split.
  - intros a s [[->| ->] ->]%two_chunks_lookup; (split; [done|]); (split; [done|]); (split; [done|]); by vm_compute.
  - intros a s b s' [[->| ->] ->]%two_chunks_lookup [[->| ->] ->]%two_chunks_lookup; lia.
  - intros h a s ->%Hh [[->| ->] ->]%two_chunks_lookup _; cbn [heap_end]; (split; [lia|]); [right; by exists 32|by left].
  - intros h ->%Hh. split; [by exists 32|done].
  - intros h h' a ->%Hh ->%Hh. done.
  - intros a s [[->| ->] ->]%two_chunks_lookup; exists (AllocedHeap 4096 4192); cbn; (split; [by left|lia]).
Qed.


Lemma find_live_block_witness : exists (s : astate) L M h q k, repr s L M /\ h ∈ alloced_heaps (ar s) /\ L !! q = Some k /\
  find_chunk_in_heap (mm s) h (q + 5) = Some (q - HEADER_SIZE).
Proof.
  destruct bump_ready_block as (s & L & q & k & [M HR] & _ & Hq & Hk).
  assert (exists h, h ∈ alloced_heaps (ar s) /\ heap_start h <= q /\ q + k <= heap_end h) as (h & Hh & ? & ?).
  { destruct (repr_in_heap s L M q k HR Hq) as (h & ? & ? & ?). eauto. }
  destruct (find_live_block s L M h (q + 5) HR Hh ltac:(lia)) as (c & E & Hc & _).
  exists s, L, M, h, q, k. split_and!; try done. rewrite E. f_equal. apply (Hc q k); [done|lia].
Defined.

(** An arena with one block, ready for a collection. *)
Lemma collect_ready : exists (s : astate) (p k : Z), sweepable s {[ p := k ]} ∅ /\ maps_end (maps s) <= 2 ^ 40 /\
  is_marked (mm s) (p - 16) = false.
Proof.
  destruct bump_arena as (s & E & HR & Hl & Hm).
  assert ((s ← arena_create ∅ []; '(p, s) ← allocate 9 s 200;
           Some (negb (is_curr_inuse (mm s) (top_chunk (ar s))) && (maps_end (maps s) <=? 2 ^ 40) &&
                 negb (is_marked (mm s) (p - 16)))) = Some true) as Hb by (vm_compute; reflexivity).
  rewrite E in Hb. cbn [mbind option_bind] in Hb.
  destruct (allocate 9 s 200) as [[p1 s1]|] eqn:E1; [|done]. cbn [mbind option_bind] in Hb.
  injection Hb as [[Ht Hc]%andb_true_iff Hk]%andb_true_iff.
  apply Z.leb_le in Hc. apply negb_true_iff in Ht, Hk.
  pose proof (repr_allocate s ∅ ∅ 200 HR ltac:(lia) Hl Hm) as HN.
  destruct (payload_size_of_spec 200) as (? & ? & _ & ?); [lia|].
  destruct (HN _ (le_n _)) as (p & n & s' & E' & _ & _ & _ & Hn & [[_ HR1]|[Hs _]]);
    [|vm_compute in Hs; by destruct Hs].
  assert ((p, s') = (p1, s1)) as [= -> ->] by (by eapply allocate_same).
  exists s1, p1, n. split_and!; try done. split; [done| |by intros _].
  intros q k [<- <-]%lookup_singleton_Some. unfold MMAP_THRESHOLD. lia.
Qed.

Lemma below_maps_end (s : astate) (L M : gmap Z Z) (x : Z) : repr s L M -> in_arena (ar s) x -> x < maps_end (maps s).
Proof.
  intros (G & B & Bg & [_ MI] & _) Hx. destruct (maps_end_ge (maps s)) as [_ Hend].
  destruct Hx as [(h & Hh & ?)|(b & Vb & ?)].
  - destruct (M_heap _ _ MI h Hh) as (lo & hi & Hin & ? & ?). pose proof (Hend _ _ Hin). lia.
  - destruct (M_head _ _ MI b Vb) as (lo & hi & Hin & ? & ?). pose proof (Hend _ _ Hin). lia.
Qed.

(** A collector with that arena and one task, whose registers hold [p]. *)
Definition rooted_collector (s : astate) (p : Z) : collector :=
  let m := st (st (st (mm s) (2 ^ 41 + o_wq_fd) (2 ^ 41)) (2 ^ 41 + o_wq_bk) (2 ^ 41)) (2 ^ 41 + o_wq_t) (2 ^ 42) in
  Collector m (maps s) None [ar s] (Some (SafeGcQueue 0 (2 ^ 41) false cond_init))
    {[ 2 ^ 42 := (TASK_RUNNING, PlatformCtx (2 ^ 43) 16 (2 ^ 43) 0 (fun _ => p)) ]}.


(** ** Two collections, on concrete runs *)

Definition on_arena (i : nat) (f : astate -> option (Z * astate)) (c : collector) : option (Z * collector) :=
  a ← arenas c !! i;
  '(r, s) ← f (AState (g_mem c) (g_maps c) a);
  Some (r, Collector (mm s) (maps s) (global_arena c) (<[i := ar s]> (arenas c)) (roots c) (g_tasks c)).

Definition STACK : Z := 2 ^ 40.

(** A global arena, one scheduler arena, and one registered task with a
    stack of eight words at [STACK]. *)
Definition boot : option collector :=
  c ← gc_create_global_arena (gc_init (Collector ∅ [] None [] None ∅));
  '(_, c) ← gc_create_arena c;
  a ← global_arena c;
  '(t, s) ← allocate 9 (AState (g_mem c) (g_maps c) a) 200;
  let ctx := PlatformCtx STACK 64 STACK 0 (fun _ => 0) in
  gc_register_root 168 (Collector (mm s) (maps s) (Some (ar s)) (arenas c) (roots c) {[ t := (TASK_RUNNING, ctx) ]}) t.

(** Object [x] is on the stack and holds the only pointer to object [y];
    after a collection, is each in use, and is [y] handed out again? *)
Definition transitive_run : option (bool * bool * bool) :=
  c ← boot;
  '(x, c) ← on_arena 0 (fun s => allocate 9 s 200) c;
  '(y, c) ← on_arena 0 (fun s => allocate 9 s 200) c;
  '(_, c) ← on_arena 0 (fun s => allocate 9 s 200) c;
  c ← gc_collect 2 9 (with_mem c (st (st (g_mem c) x y) STACK x));
  let in_use p := is_curr_inuse (g_mem c) (p - HEADER_SIZE) in
  '(z, c) ← on_arena 0 (fun s => allocate 9 s 200) c;
  Some (in_use x, in_use y, z =? y).

(** A collection releases an object that is reachable from a root only
    through another object: the object on the stack stays in use, the one it
    points to is released, and the next allocation hands it out again while
    the first object still points to it. *)
Theorem transitive_object_released : transitive_run = Some (true, false, true).
Proof. vm_compute. reflexivity. Qed.

(** One object, never referenced; is its heap still mapped after the first
    and after the second collection, and where does the next allocation
    after them go? *)
Definition sweep_twice_run : option (bool * bool * bool) :=
  c ← boot;
  '(x, c) ← on_arena 0 (fun s => allocate 9 s 200) c;
  let mapped c := existsb (fun r => (r.1 <=? x) && (x <? r.2)) (g_maps c) in
  c1 ← gc_collect 2 9 c;
  c2 ← gc_collect 2 9 c1;
  '(z, c3) ← on_arena 0 (fun s => allocate 9 s 200) c2;
  Some (mapped c1, mapped c2, z =? x).

(** The first collection of an arena whose only object is garbage merges
    it into the top chunk and leaves the in-use flag on it; the second
    collection takes the top chunk for an object, and as it is larger than
    [MMAP_THRESHOLD], [release] unmaps the whole heap.  The next allocation
    returns an address in the unmapped heap. *)
Theorem second_sweep_unmaps_heap : sweep_twice_run = Some (true, false, true).
Proof. vm_compute. reflexivity. Qed.
