(* ===== verification/Reserve.v ===== *)
(** * Reserve: mappings beside an arena

    The stacks of the tasks are mappings of their own, made and unmade while
    the global arena keeps growing.  [reserved R] says that the ranges of [R]
    are mapped and belong neither to the arena nor to one of its blocks; an
    arena with reserved ranges still meets the contract of Heap.v, so that
    everything proved against that contract holds beside them. *)

From S2P Require Import Prelude Mem Alloc AllocFacts AllocInv AllocBins AllocLink AllocSafe AllocOs AllocTop.
From S2P Require Import AllocRelease AllocMain AllocRoom Heap GcCollect.

Section reserve.
Context `{OSLaws}.

(** One range: page aligned, mapped, clear of the arena and of the blocks
    [M] that are mappings. *)
Record reserved1 (s : astate) (M : gmap Z Z) (r : Z * Z) : Prop := {
  R_size : r.1 < r.2;
  R_page : r.1 mod page_size = 0;
  R_map : covered (maps s) r.1 r.2;
  R_arena : forall x, r.1 <= x < r.2 -> ~ in_arena (ar s) x;
  R_big : forall p n, M !! p = Some n -> apart2 r.1 r.2 (p - 16) (big_end (p - 16) n)
}.

Definition reserved (R : list (Z * Z)) (s : astate) (M : gmap Z Z) : Prop :=
  (forall r, r ∈ R -> reserved1 s M r) /\
  (forall i j r r', R !! i = Some r -> R !! j = Some r' -> i <> j -> apart2 r.1 r.2 r'.1 r'.2).

Definition reserved_ok (R : list (Z * Z)) (s : astate) (L : gmap Z Z) : Prop :=
  exists M, repr s L M /\ reserved R s M.

Lemma reserved_grows (R : list (Z * Z)) (s s' : astate) (M : gmap Z Z) :
  grows s s' -> reserved R s M -> reserved R s' M.
Proof.
  intros [HC HA] [H1 H2]. split; [|done]. intros r Hr. destruct (H1 r Hr) as [? ? Hm Ha ?]. split; try done; [by apply HC|].
  intros x Hx [Hi|Hi]%HA; [by apply (Ha x)|]. apply Hi. by apply (covered_mapped _ r.1 r.2).
Qed.

(** Every reserved list gives an implementation of the heap contract. *)
Definition reserved_spec (R : list (Z * Z)) : HeapSpec astate.
Proof.
  refine {| h_ok := reserved_ok R; h_room := arena_room |}.
  - intros s L p n (M & HR & _) Hp. destruct (repr_blocks s L M p n HR (or_introl Hp)) as (? & ? & ?). auto.
  - intros s L p n q k (M & HR & _) Hp Hq Hne.
    exact (repr_apart s L M p n q k HR (or_introl Hp) (or_introl Hq) Hne).
  - done.
  - done.
  - apply arena_room_less.
  - intros s L p n a v (M & HR & HV) Hp Ha. exists M. split; [by eapply repr_write|].
    eapply reserved_grows; [|exact HV]. by apply same_os_grows.
  - intros s L n r (M & HR & HV) Hr Hn. unfold REQUEST_MAX in *. pose proof (repr_iters _ _ _ _ HR Hr) as Hit.
    destruct (arena_room_one _ _ Hr) as [Hc Hm].
    destruct (repr_allocate s L M n HR ltac:(lia) Hc Hm _ (le_n _)) as (p & k & s' & E & HLp & _ & HK & Hk & HR').
    pose proof (payload_bound n ltac:(unfold REQUEST_MAX; lia)). destruct (payload_size_of_spec n) as (? & _); [lia|].
    destruct HR' as [[_ HR']|[Hbig _]]; [|unfold MMAP_THRESHOLD in Hbig; lia].
    assert (0 < n <= 2 ^ 39) as Hn' by lia.
    exists p, k, s'. unfold MMAP_THRESHOLD. split_and!; try done; try lia.
    + exists M. split; [done|]. eapply reserved_grows; [|exact HV]. by eapply allocate_grows_into.
    + intros q j x Hq. apply HK. by left.
    + by eapply arena_room_allocate.
  - intros s L (M & HR & _). exact (allocate_zero (chunk_budget (alloced_heaps (ar s))) s L M HR).
  - intros s L (M & HR & _). by eapply release_null.
  - intros s L p n (M & HR & HV) Hp Hn. destruct (repr_release_heap s L M p n HR Hp Hn) as (s' & E & HR' & _ & HK).
    assert (same_os s s') as Hos by (eapply release_os; [exact E|]; by eapply repr_size).
    exists s'. split_and!; [done| | |].
    + exists M. split; [done|]. eapply reserved_grows; [|exact HV]. by apply same_os_grows.
    + intros q j x Hq. apply HK. by left.
    + intros r. by apply arena_room_same.
Defined.

(** ** Other mappings *)

(** Ranges that do not meet, from their points. *)
Lemma apart2_points (lo hi lo' hi' : Z) : lo < hi -> lo' < hi' ->
  (forall x, lo <= x < hi -> lo' <= x < hi' -> False) -> apart2 lo hi lo' hi'.
Proof using Type.
  intros H1 H2 Hx. unfold apart2. destruct (Z.le_gt_cases hi lo') as [?|?]; [by left|].
  destruct (Z.le_gt_cases hi' lo) as [?|?]; [by right|]. exfalso. apply (Hx (Z.max lo lo')); lia.
Qed.

(** An arena does not notice a change of the mappings that leaves alone
    what it covers. *)
Lemma repr_remap (m : mem) (ms ms' : list (Z * Z)) (a : arena) (L M : gmap Z Z) :
  repr (AState m ms a) L M ->
  (forall lo hi, lo < hi -> covered ms lo hi ->
     ((forall x, lo <= x < hi -> in_arena a x) \/ exists p n, M !! p = Some n /\ lo = p - 16 /\ hi = big_end (p - 16) n) ->
     covered ms' lo hi) ->
  repr (AState m ms' a) L M.
Proof.
  intros (G & B & Bg & [[AI HS] MI] & Hmu & HL & HM) HC. exists G, B, Bg. split_and!; try done.
  assert (HF : FInv (AState m ms a) G B Bg) by (split; [split|]; done).
  split; [split; done|]. split; try apply MI; cbn [mm ar maps].
  - intros h Hh. apply HC; [|by apply MI|].
    + destruct (H_heap _ _ _ _ (A_H _ _ _ _ _ AI) _ Hh) as (_ & _ & _ & ?). cbn [ar] in *. lia.
    + left. intros x Hx. left. eauto.
  - intros b Vb. apply HC; [lia|by apply MI|]. left. intros x Hx. right. eauto.
  - intros c z Hc. destruct (M_big _ _ MI c z Hc) as (? & ? & ? & ? & ? & ? & Hcov & ?). split_and!; try done.
    destruct (big_block _ _ _ _ HF _ _ Hc) as (Hz & _ & _ & ?). unfold MMAP_THRESHOLD in Hz.
    apply HC; [lia|done|]. right. exists (c + 16), z. rewrite HM. replace (c + 16 - 16) with c by lia. done.
Qed.

Lemma repr_map_more (m : mem) (ms : list (Z * Z)) (r : Z * Z) (a : arena) (L M : gmap Z Z) :
  repr (AState m ms a) L M -> repr (AState m (r :: ms) a) L M.
Proof. intros HR. eapply repr_remap; [exact HR|]. intros. by apply covered_cons. Qed.

(** Blocks and the arena are mapped. *)
Lemma repr_mapped (s : astate) (L M : gmap Z Z) (x : Z) : repr s L M ->
  in_arena (ar s) x \/ (exists p n, M !! p = Some n /\ p - 16 <= x < big_end (p - 16) n) -> mapped (maps s) x.
Proof.
  intros (G & B & Bg & [_ MI] & _ & _ & HM) [[(h & Hh & ?)|(b & Vb & ?)]|(p & n & Hp & Hx)].
  - eapply covered_mapped; [by apply (M_heap _ _ MI)|lia].
  - eapply covered_mapped; [by apply (M_head _ _ MI)|lia].
  - apply HM in Hp. destruct (M_big _ _ MI _ _ Hp) as (_ & _ & _ & _ & _ & _ & Hc & _).
    by eapply covered_mapped.
Qed.

Lemma repr_big_block (s : astate) (L M : gmap Z Z) (p n : Z) : repr s L M -> M !! p = Some n ->
  p + n <= big_end (p - 16) n /\ 0 < n.
Proof.
  intros (G & B & Bg & HF & _ & _ & HM) Hp%HM. destruct (big_block _ _ _ _ HF _ _ Hp) as (Hz & _ & _ & ?).
  unfold MMAP_THRESHOLD in Hz. lia.
Qed.

(** A fresh mapping, zeroed, is reserved. *)
Lemma reserve_ok (R : list (Z * Z)) (s : astate) (L : gmap Z Z) (n p : Z) :
  reserved_ok R s L -> 0 < n <= 2 ^ 40 -> sys_mmap (maps s) n = Some p ->
  reserved_ok ((p, p + align_page n) :: R)
    (AState (zero_region (mm s) p (align_page n)) ((p, p + align_page n) :: maps s) (ar s)) L /\
  blocks_kept L (mm s) (zero_region (mm s) p (align_page n)).
Proof.
  intros (M & HR & HV) Hn Hp. destruct s as [m ms a]. cbn [mm maps ar] in *.
  destruct (align_page_spec n ltac:(lia)) as [Han _].
  assert (forall x, p <= x < p + align_page n -> ~ mapped ms x) as Hfr.
  { intros x Hx (lo & hi & Hin & ?). destruct (mmap_fresh _ _ _ _ _ Hp Hin); lia. }
  assert (only_differ (fun x => p <= x < p + align_page n) m (zero_region m p (align_page n))) as D.
  { intros x Hx. apply ld_zero_out. lia. }
  split.
  - exists M. split.
    + apply repr_map_more. eapply repr_outside; [exact HR|exact D| |].
      * intros x Hx Hi. apply (Hfr x Hx). apply (repr_mapped _ _ _ x HR). by left.
      * intros q k x Hq Hx. destruct (repr_big_block _ _ _ _ _ HR Hq).
        destruct (Z.lt_ge_cases x (q - 16)) as [?|?]; [by left|]. destruct (Z.lt_ge_cases x (q + k)) as [?|?]; [|by right].
        destruct (Hfr x Hx). apply (repr_mapped _ _ _ x HR). right. exists q, k. split; [done|lia].
    + destruct (reserved_grows R (AState m ms a)
        (AState (zero_region m p (align_page n)) ((p, p + align_page n) :: ms) a) M) as [V1 V2]; [|done|].
      { split; [intros; by apply covered_cons|]. by left. }
      split.
      * intros r [->|Hr]%elem_of_cons; [|by apply V1]. split; cbn [fst snd maps ar]; [lia|by eapply mmap_page| | |].
        -- exists p, (p + align_page n). split; [by left|lia].
        -- intros x Hx Hi. apply (Hfr x Hx). apply (repr_mapped _ _ _ x HR). by left.
        -- intros q k Hq. destruct (repr_big_block _ _ _ _ _ HR Hq). apply apart2_points; [lia|lia|].
           intros x Hx Hx'. destruct (Hfr x Hx). apply (repr_mapped _ _ _ x HR). right. eauto.
      * assert (forall r, r ∈ R -> apart2 p (p + align_page n) r.1 r.2) as Hnew.
        { intros r Hr. destruct HV as [V _]. destruct (V r Hr) as [? _ Hm _ _]. apply apart2_points; [lia|done|].
          intros x Hx Hx'. apply (Hfr x Hx). by eapply covered_mapped. }
        intros [|i] [|j] r r' Hi Hj Hne; cbn in Hi, Hj; simplify_eq; cbn [fst snd]; [| |].
        -- apply Hnew. by eapply list_elem_of_lookup_2.
        -- pose proof (Hnew r ltac:(by eapply list_elem_of_lookup_2)) as Ha. unfold apart2 in *. lia.
        -- apply (V2 i j); [done|done|congruence].
  - intros q k x Hq Hx. apply D. intros Hx'. apply (Hfr x Hx'). apply (repr_mapped _ _ _ x HR). left.
    apply (repr_in_arena _ _ _ q k x HR Hq). lia.
Qed.

(** Leaving one range out of the list. *)
Lemma reserved_drop (R1 R2 : list (Z * Z)) (r : Z * Z) (s : astate) (M : gmap Z Z) :
  reserved (R1 ++ r :: R2) s M ->
  reserved (R1 ++ R2) s M /\ reserved1 s M r /\ forall r', r' ∈ R1 ++ R2 -> apart2 r'.1 r'.2 r.1 r.2.
Proof.
  intros [V1 V2].
  assert (forall i x, (R1 ++ R2) !! i = Some x -> exists k, (R1 ++ r :: R2) !! k = Some x /\ k <> length R1 /\
    k = if decide (i < length R1)%nat then i else S i) as Hsh.
  { intros i x Hi. case_decide; [rewrite lookup_app_l in Hi by done; exists i|rewrite lookup_app_r in Hi by lia; exists (S i)].
    - rewrite lookup_app_l by done. split_and!; [done|lia|done].
    - rewrite lookup_app_r by lia. replace (S i - length R1)%nat with (S (i - length R1)) by lia. split_and!; [done|lia|done]. }
  assert ((R1 ++ r :: R2) !! length R1 = Some r) as Hr.
  { rewrite lookup_app_r by lia. by replace (length R1 - length R1)%nat with 0%nat by lia. }
  split_and!.
  - split.
    + intros x Hx. apply V1. rewrite elem_of_app, elem_of_cons. apply elem_of_app in Hx. tauto.
    + intros i j x y Hi Hj Hne. destruct (Hsh i x Hi) as (i' & Hi' & _ & Ei), (Hsh j y Hj) as (j' & Hj' & _ & Ej).
      apply (V2 i' j'); try done. repeat case_decide; lia.
  - apply V1. by eapply list_elem_of_lookup_2.
  - intros x [i Hi]%list_elem_of_lookup. destruct (Hsh i x Hi) as (k & Hk & Hne & _). by apply (V2 k (length R1)).
Qed.

Lemma reserved_ok_drop (R1 R2 : list (Z * Z)) (r : Z * Z) (s : astate) (L : gmap Z Z) :
  reserved_ok (R1 ++ r :: R2) s L -> reserved_ok (R1 ++ R2) s L.
Proof. intros (M & HR & HV). exists M. split; [done|]. by eapply reserved_drop. Qed.

(** Giving a reserved range back. *)
Lemma unreserve_ok (R1 R2 : list (Z * Z)) (s : astate) (L : gmap Z Z) (p len : Z) :
  reserved_ok (R1 ++ (p, p + align_page len) :: R2) s L -> 0 < len <= 2 ^ 40 ->
  reserved_ok (R1 ++ R2) (with_maps s (sys_munmap (maps s) p len)) L /\
  forall x, p <= x < p + align_page len -> ~ mapped (sys_munmap (maps s) p len) x.
Proof.
  intros (M & HR & HV) Hl. destruct s as [m ms a]. cbn [mm maps ar with_maps] in *.
  destruct (align_page_spec len ltac:(lia)) as [Hal _].
  destruct (reserved_drop _ _ _ _ _ HV) as ([V1 V2] & [_ Hpg _ Har Hbig] & Hap). cbn [fst snd ar maps] in *.
  assert (forall lo hi, lo < hi -> covered ms lo hi -> apart2 lo hi p (p + align_page len) ->
    covered (sys_munmap ms p len) lo hi) as Hcov by (intros; apply munmap_covered; try done; lia).
  split; [|intros x Hx; apply munmap_gone; [done|lia|done]].
  exists M. split.
  - eapply repr_remap; [exact HR|]. intros lo hi Hlt Hc Ho. apply Hcov; try done. destruct Ho as [Ho|(q & n & Hq & -> & ->)].
    + apply apart2_points; [done|lia|]. intros x Hx Hx'. apply (Har x Hx'). by apply Ho.
    + pose proof (Hbig q n Hq). unfold apart2 in *. lia.
  - split; [|done]. intros r Hr. destruct (V1 r Hr) as [? ? ? ? ?]. split; try done. cbn [maps]. apply Hcov; auto.
Qed.

Lemma reserved_arena (R : list (Z * Z)) (s : astate) (L : gmap Z Z) : reserved_ok R s L -> arena_ok s L.
Proof. intros (M & HR & _). by exists M. Qed.

Lemma arena_reserved (s : astate) (L : gmap Z Z) : arena_ok s L -> reserved_ok [] s L.
Proof. intros [M HR]. exists M. split; [done|]. split; [by intros r Hr%elem_of_nil|done]. Qed.
End reserve.
