(* ===== verification/Tasks.v ===== *)
(** * Tasks: tasks as objects in memory (initutils.c, scheduler.c)

    [thread] packs the callee and its arguments into a payload of blocks of
    the global arena, which [task_trampoline] unpacks on the stack of the
    new task and gives back.  [task_create] and [task_destroy] make and
    unmake the task itself: its record, its stack and its place in the ring
    of roots. *)

From S2P Require Import Prelude Mem Alloc AllocOs AllocMain Heap Queue Gc.

(** ** The payload of a task *)

(** [task_payload_t]: [fn], [nargs], the [ffi_cif] (its size depends on the
    platform), [arg_types], [arg_values]. *)
Definition o_pl_fn : Z := 0.
Definition o_pl_nargs : Z := 8.
Definition o_pl_cif : Z := 16.

(** libffi: the size of an [ffi_cif], the words [ffi_prep_cif] stores in it
    (offset and value, from the number and the types of the arguments), and
    the address of [ffi_type_pointer]. *)
Class FFI := {
  sizeof_cif : Z;
  prep_cif : Z -> Z -> list (Z * Z);
  ffi_type_pointer : Z
}.

(** [task_t] on Linux, where its context is one pointer. *)
Definition o_task_id : Z := 0.
Definition o_task_uc : Z := 8.
Definition o_task_stack_size : Z := 16.
Definition o_task_sched_id : Z := 24.
Definition o_task_fn : Z := 32.
Definition o_task_stack : Z := 40.
Definition o_task_state : Z := 48.
Definition o_task_gcq : Z := 136.
Definition sizeof_task : Z := 144.

(** The values of [task_state_t]. *)
Definition state_word (st : task_state) : Z :=
  match st with TASK_RUNNING => 0 | TASK_YIELDED => 1 | TASK_FINISHED => 2 end.

Section payload.
Context {Ffi : FFI} `{Heap H}.

Definition o_pl_types : Z := o_pl_cif + sizeof_cif.
Definition o_pl_values : Z := o_pl_types + 8.
Definition sizeof_task_payload : Z := o_pl_values + 8.

(** The loop over the variable arguments. *)
Fixpoint payload_args (h : H) (payload i : Z) (args : list Z) : option H :=
  match args with
  | [] => Some h
  | a :: args =>
      let h := put h (ld (h_mem h) (payload + o_pl_types) + 8 * i) ffi_type_pointer in
      '(val, h) ← h_alloc h 8;
      let h := put h val a in
      let h := put h (ld (h_mem h) (payload + o_pl_values) + 8 * i) val in
      payload_args h payload (i + 1) args
  end.

(** [ffi_prep_cif]. *)
Definition ffi_prep_cif (h : H) (cif nargs types : Z) : H :=
  foldl (fun h w => put h (cif + w.1) w.2) h (prep_cif nargs types).

(** [thread], up to the call of [task_create]. *)
Definition thread_payload (h : H) (fn : Z) (args : list Z) : option (Z * H) :=
  let nargs := Z.of_nat (length args) in
  '(payload, h) ← h_alloc h sizeof_task_payload;
  let h := put h (payload + o_pl_fn) fn in
  let h := put h (payload + o_pl_nargs) nargs in
  '(types, h) ← h_alloc h (size_t (8 * nargs));
  let h := put h (payload + o_pl_types) types in
  '(values, h) ← h_alloc h (size_t (8 * nargs));
  let h := put h (payload + o_pl_values) values in
  h ← payload_args h payload 0 args;
  Some (payload, ffi_prep_cif h (payload + o_pl_cif) nargs (ld (h_mem h) (payload + o_pl_types))).

Fixpoint release_args (h : H) (payload i : Z) (n : nat) : option H :=
  match n with
  | O => Some h
  | S n =>
      h ← h_free h (ld (h_mem h) (ld (h_mem h) (payload + o_pl_values) + 8 * i));
      release_args h payload (i + 1) n
  end.

(** [ffi_call] with pointer arguments: it calls [fn] with the words the
    entries of [arg_values] point to. *)
Definition ffi_call (h : H) (payload : Z) : Z * list Z :=
  let values := ld (h_mem h) (payload + o_pl_values) in
  (ld (h_mem h) (payload + o_pl_fn),
   (fun i => ld (h_mem h) (ld (h_mem h) (values + 8 * Z.of_nat i))) <$>
     seq 0 (Z.to_nat (ld (h_mem h) (payload + o_pl_nargs)))).

(** The rest of [task_trampoline], once the call returned. *)
Definition task_finish (h : H) (t payload : Z) : option H :=
  let h := put h (t + o_task_state) (state_word TASK_FINISHED) in
  h ← release_args h payload 0 (Z.to_nat (ld (h_mem h) (payload + o_pl_nargs)));
  h ← h_free h (ld (h_mem h) (payload + o_pl_types));
  h ← h_free h (ld (h_mem h) (payload + o_pl_values));
  h_free h payload.

(** [call] runs the program's function; it may not return. *)
Definition task_trampoline (call : H -> Z -> list Z -> option H) (h : H) (t payload : Z) : option H :=
  let '(fn, args) := ffi_call h payload in
  h ← call h fn args;
  task_finish h t payload.
End payload.

(** ** Creating and destroying a task *)
Section task.
Context `{OS}.
(** [makecontext]: the stack pointer, program counter and registers of a
    fresh context on a stack, for a task and its payload. *)
Context (makecontext : Z -> Z -> Z -> Z -> Z * Z * (Z -> Z)).

Definition STACK_SIZE : Z := 1024 * 1024.

(** What the collector reads of the new task: the state word is whatever
    the block held before. *)
Definition word_state (w : Z) : task_state :=
  if w =? 0 then TASK_RUNNING else if w =? 1 then TASK_YIELDED else TASK_FINISHED.

(** The store as the global arena sees it. *)
Definition arena_of (c : collector) : option astate :=
  a ← global_arena c; Some (AState (g_mem c) (g_maps c) a).
Definition with_arena (c : collector) (s : astate) : collector :=
  Collector (mm s) (maps s) (Some (ar s)) (arenas c) (roots c) (g_tasks c).

(** [uc] is the block [malloc] returned for the [ucontext_t]. *)
Definition task_create (c : collector) (fn payload kt_id uc : Z) : option (Z * collector) :=
  s ← arena_of c;
  '(t, s) ← h_alloc s sizeof_task;
  c_assert (negb (t =? NULL)) ;;
  let s := put s (t + o_task_uc) uc in
  let s := put s (t + o_task_fn) fn in
  let s := put s (t + o_task_stack_size) STACK_SIZE in
  let s := put s (t + o_task_sched_id) kt_id in
  '(mapped, m, ms) ← alloc_memory (mm s) (maps s) (size_t (ld (mm s) (t + o_task_stack_size) + page_size));
  let s := AState m ms (ar s) in
  let s := put s (t + o_task_stack) (mapped + page_size) in
  let stack := ld (mm s) (t + o_task_stack) in
  let stack_size := ld (mm s) (t + o_task_stack_size) in
  let '(sp, pc, regs) := makecontext stack stack_size t payload in
  let st := word_state (ld (mm s) (t + o_task_state)) in
  let c := with_arena c s in
  let c := Collector (g_mem c) (g_maps c) (global_arena c) (arenas c) (roots c)
             (<[t := (st, PlatformCtx stack stack_size sp pc regs)]> (g_tasks c)) in
  c ← gc_register_root o_task_gcq c t;
  Some (t, c).

Definition task_destroy (c : collector) (t : Z) : option collector :=
  if t =? NULL then Some c
  else
    c ← gc_unregister_root o_task_gcq c t;
    s ← arena_of c;
    let original_base := ld (mm s) (t + o_task_stack) - page_size in
    let total_size := size_t (ld (mm s) (t + o_task_stack_size) + page_size) in
    s ← h_free (with_maps s (sys_munmap (maps s) original_base total_size)) t;
    Some (with_arena c s).

(** ** Starting a task *)
Context {Ffi : FFI}.

(** The runtime's own state: the ready queues of [kernel_thread_map] and
    [task_count]. *)
Record runtime := Runtime { rt_gc : collector; ready_qs : list safe_queue; task_count : Z }.

(** [SCHEDULER_THREAD_POOL_SIZE]. *)
Definition pool_size : Z := 12.

(** [r1] and [r2] are the results of the two calls of [rand]; the kernel
    thread [kid] has that number as its [id] (init_scheduler). *)
Definition thread (rt : runtime) (fn : Z) (args : list Z) (r1 r2 uc : Z) : option (Z * runtime) :=
  s ← arena_of (rt_gc rt);
  '(payload, s) ← thread_payload s fn args;
  let kid := Z.rem r1 pool_size in
  '(t, c) ← task_create (with_arena (rt_gc rt) s) fn payload kid uc;
  s ← arena_of c;
  let s := put s (t + o_task_id) r2 in
  let count := swrap 32 (task_count rt + 1) in
  q ← arr_get (ready_qs rt) kid;
  '(s, q) ← safe_q_push s q t;
  Some (t, Runtime (with_arena c s) (<[Z.to_nat kid := q]> (ready_qs rt)) count).
End task.
