(* ===== verification/TaskSpec.v ===== *)
(** * TaskSpec: what a task owns

    The payload [thread] builds survives until [task_trampoline] unpacks it
    and gives back exactly its blocks. *)

From S2P Require Import Prelude Mem Dll Alloc AllocOs AllocMain AllocRoom Heap Queue QueueSpec RingSpec.
From S2P Require Import Gc GcCollect Reserve Tasks.

(** What libffi documents of [ffi_prep_cif]: it writes into the [ffi_cif]. *)
Class FFILaws {Ffi : FFI} : Prop := {
  cif_size : 8 <= sizeof_cif <= 4096;
  prep_cif_inside : forall n t o v, (o, v) ∈ prep_cif n t -> 0 <= o <= sizeof_cif - 8
}.

(** Several blocks deleted one after the other. *)
Lemma foldr_delete_out (L : gmap Z Z) (ps : list Z) (p : Z) : p ∉ ps -> foldr delete L ps !! p = L !! p.
Proof. intros Hp. by apply lookup_foldr_delete_not_elem_of. Qed.

Section payload.
Context {Ffi : FFI} {HFfi : FFILaws} `{HeapSpec H}.

Ltac plo := unfold sizeof_task_payload, o_pl_values, o_pl_types, o_pl_cif, o_pl_nargs, o_pl_fn in *.

(** The argument cells: [vals] are the blocks [arg_values] points to. *)
Definition cells_at (m : mem) (values i : Z) (vals args : list Z) : Prop :=
  length vals = length args /\
  forall j v a, vals !! j = Some v -> args !! j = Some a -> ld m (values + 8 * (i + Z.of_nat j)) = v /\ ld m v = a.

(** A payload in memory. *)
Record payload_at (m : mem) (payload fn types values : Z) (vals args : list Z) : Prop := {
  PL_fn : ld m (payload + o_pl_fn) = fn;
  PL_nargs : ld m (payload + o_pl_nargs) = Z.of_nat (length args);
  PL_types : ld m (payload + o_pl_types) = types;
  PL_values : ld m (payload + o_pl_values) = values;
  PL_cells : cells_at m values 0 vals args
}.

(** ** Filling in the arguments *)

(** Writing into one block keeps the others. *)
Lemma put_other (h : H) (L : gmap Z Z) (p k q j a v x : Z) :
  h_ok h L -> L !! p = Some k -> p <= a < p + k -> L !! q = Some j -> q <= x < q + j -> (p = q -> x <> a) ->
  ld (h_mem (put h a v)) x = ld (h_mem h) x.
Proof.
  intros Ho Hp Ha Hq Hx Hne. rewrite put_mem, ld_st_ne; [done|]. destruct (decide (p = q)) as [E|E]; [specialize (Hne E); congruence|].
  intros Eq. apply (block_words h L q j p k x a); congruence || lia.
Qed.

(** Blocks allocated one after the other. *)
Lemma union_insert (D L : gmap Z Z) (v k : Z) : <[v := k]> L ##ₘ D -> <[v := k]> D ∪ L = D ∪ <[v := k]> L.
Proof using Type.
  intros Hd. rewrite <- insert_union_l, insert_union_r; [done|]. eapply map_disjoint_Some_l; [exact Hd|]. apply lookup_insert_eq.
Qed.

Lemma payload_args_ok (payload kp types kt values kv : Z) (r : nat) (args : list Z) : forall (h : H) (L : gmap Z Z) (i : Z),
  h_ok h L -> h_room h (length args + r) -> 0 <= i -> payload <> types -> payload <> values -> types <> values ->
  L !! payload = Some kp -> sizeof_task_payload <= kp ->
  L !! types = Some kt -> 8 * (i + Z.of_nat (length args)) <= kt ->
  L !! values = Some kv -> 8 * (i + Z.of_nat (length args)) <= kv ->
  ld (h_mem h) (payload + o_pl_types) = types -> ld (h_mem h) (payload + o_pl_values) = values ->
  exists h' D vals, payload_args h payload i args = Some h' /\ h_ok h' (D ∪ L) /\ L ##ₘ D /\
    dom D = list_to_set vals /\ NoDup vals /\ (forall v k, D !! v = Some k -> 8 <= k < MMAP_THRESHOLD) /\
    cells_at (h_mem h') values i vals args /\
    (forall p k x, L !! p = Some k -> p <= x < p + k -> (p = types \/ p = values -> x < p + 8 * i) ->
       ld (h_mem h') x = ld (h_mem h) x) /\ h_room h' r.
Proof.
  induction args as [|a args IH]; intros h L i Ho Hr Hi N1 N2 N3 Hp Hkp Ht Hkt Hv Hkv Et Ev; cbn [payload_args].
  - exists h, ∅, []. rewrite map_empty_union. split_and!; try done.
    + apply map_disjoint_empty_r.
    + apply NoDup_nil_2.
  - cbn [length] in Hkt, Hkv, Hr. rewrite Et. destruct cif_size as [Hc _].
    set (h1 := put h (types + 8 * i) ffi_type_pointer).
    assert (h_ok h1 L) as Ho1 by (eapply put_ok; [exact Ho|exact Ht|lia]).
    destruct (h_alloc_spec h1 L 8 (length args + r)%nat Ho1) as (v & k & h2 & E2 & Hv2 & Hk & Ho2 & HK & Hr2);
      [by apply put_room|unfold REQUEST_MAX; lia|]. rewrite E2. cbn [mbind option_bind].
    set (L' := <[v := k]> L) in *. set (h3 := put h2 v a).
    assert (L' !! v = Some k) as Lv by apply lookup_insert_eq.
    assert (forall p j, L !! p = Some j -> p <> v /\ L' !! p = Some j) as HL'.
    { intros p j Hj. assert (p <> v) by congruence. unfold L'. by rewrite lookup_insert_ne. }
    destruct (HL' _ _ Hp) as [Np Lp], (HL' _ _ Ht) as [Nt Lt], (HL' _ _ Hv) as [Nv Lv'].
    assert (forall p j x, L !! p = Some j -> p <= x < p + j -> (p = types -> x <> types + 8 * i) ->
      ld (h_mem h3) x = ld (h_mem h) x) as F3.
    { intros p j x Hj Hx Hne. destruct (HL' _ _ Hj) as [Npv Lj]. unfold h3.
      rewrite (put_other h2 L' v k p j); try done; try lia; try congruence. rewrite (HK p j x Hj Hx). unfold h1.
      apply (put_other h L types kt p j); try done; try lia; intros <-; auto. }
    assert (ld (h_mem h3) (payload + o_pl_values) = values) as Ev3.
    { rewrite (F3 payload kp); [done|done| |done]. plo. lia. }
    rewrite Ev3. set (h4 := put h3 (values + 8 * i) v).
    assert (h_ok h3 L') as Ho3 by (eapply put_ok; [exact Ho2|exact Lv|lia]).
    assert (h_ok h4 L') as Ho4 by (eapply put_ok; [exact Ho3|exact Lv'|lia]).
    assert (forall p j x, L' !! p = Some j -> p <= x < p + j -> (p = values -> x <> values + 8 * i) ->
      ld (h_mem h4) x = ld (h_mem h3) x) as F4.
    { intros p j x Hj Hx Hne. apply (put_other h3 L' values kv p j); try done; try lia; intros <-; auto. }
    destruct (IH h4 L' (i + 1)) as (h' & D & vals & E & Ho' & Hd & Hdom & Hnd & HD & [Hlen Hcells] & HF & Hr'); try done; try lia.
    { by apply put_room, put_room. }
    { rewrite (F4 payload kp), (F3 payload kp); try done; plo; lia. }
    { rewrite (F4 payload kp); try done; plo; lia. }
    assert (D !! v = None) as Dv by (eapply map_disjoint_Some_l; [exact Hd|exact Lv]).
    exists h', (<[v := k]> D), (v :: vals). split_and!; try done.
    + by rewrite union_insert.
    + apply map_disjoint_insert_r. split; [done|]. eapply map_disjoint_weaken_l; [exact Hd|]. by apply insert_subseteq.
    + rewrite dom_insert_L, Hdom. done.
    + apply NoDup_cons. split; [|done]. intros Hin. apply (not_elem_of_dom D) in Dv. apply Dv. rewrite Hdom. by apply elem_of_list_to_set.
    + intros w j. rewrite lookup_insert. case_decide; [intros [= <-]; lia|]. apply HD.
    + split; [cbn; lia|]. intros [|j] w b Hw Hb; cbn in Hw, Hb.
      * injection Hw as <-. injection Hb as <-. rewrite Z.add_0_r. split.
        -- rewrite (HF values kv); [unfold h4; rewrite put_mem; apply ld_st_eq|done|lia|lia].
        -- rewrite (HF v k); [|done|lia|intros [?|?]; congruence]. rewrite (F4 v k); [|done|lia|congruence].
           unfold h3. rewrite put_mem. apply ld_st_eq.
      * destruct (Hcells j w b Hw Hb) as [E1 E3]. split; [|done]. etrans; [|exact E1]. do 2 f_equal. lia.
    + intros p j x Hj Hx Hb. destruct (HL' _ _ Hj) as [Npv Lj].
      rewrite (HF p j); [|done|done|intros Hpq; specialize (Hb Hpq); lia].
      rewrite (F4 p j); [|done|done|intros ->; specialize (Hb (or_intror eq_refl)); lia].
      apply (F3 p j); [done|done|intros ->; specialize (Hb (or_introl eq_refl)); lia].
Qed.

(** ** The blocks of a payload *)

(** The two arrays; [allocate] returns [NULL] for arrays of no entry. *)
Definition arrays (n : nat) (types values : Z) : list Z := match n with O => [] | S _ => [types; values] end.

Record owned (D : gmap Z Z) (payload types values : Z) (vals : list Z) : Prop := {
  OW_payload : exists k, D !! payload = Some k /\ sizeof_task_payload <= k;
  OW_null : vals = [] -> types = NULL /\ values = NULL;
  OW_values : vals <> [] -> exists k, D !! values = Some k /\ 8 * Z.of_nat (length vals) <= k;
  OW_cell : forall v, v ∈ vals -> exists k, D !! v = Some k /\ 8 <= k;
  OW_dom : dom D = list_to_set (vals ++ arrays (length vals) types values ++ [payload]);
  OW_nodup : NoDup (vals ++ arrays (length vals) types values ++ [payload]);
  OW_small : forall p k, D !! p = Some k -> k < MMAP_THRESHOLD
}.

(** The words of a payload lie in its blocks. *)
Lemma payload_at_kept (D : gmap Z Z) (m m' : mem) (payload fn types values : Z) (vals args : list Z) :
  owned D payload types values vals -> payload_at m payload fn types values vals args -> blocks_kept D m m' ->
  payload_at m' payload fn types values vals args.
Proof.
  intros W P HK. destruct (OW_payload _ _ _ _ _ W) as (kp & Hp & Hkp). destruct cif_size as [Hc _].
  assert (forall o, 0 <= o <= o_pl_values -> ld m' (payload + o) = ld m (payload + o)) as Hw.
  { intros o Ho. apply (HK payload kp); [done|]. plo. lia. }
  destruct P as [P1 P2 P3 P4 [Hlen P5]].
  split; [by rewrite Hw by (plo; lia)..|]. split; [done|]. intros j v a Hv Ha. destruct (P5 j v a Hv Ha) as [E1 E2].
  assert (v ∈ vals) as Hin by (by eapply list_elem_of_lookup_2). pose proof (lookup_lt_Some _ _ _ Hv).
  destruct (OW_values _ _ _ _ _ W) as (kv & Hkv & ?); [by intros ->|]. destruct (OW_cell _ _ _ _ _ W v Hin) as (k & Hk & ?).
  rewrite (HK values kv _ Hkv), (HK v k _ Hk); [done|lia|lia].
Qed.

(** [ffi_prep_cif] writes into the descriptor only. *)
Lemma ffi_prep_cif_ok (h : H) (L : gmap Z Z) (payload kp n types : Z) :
  h_ok h L -> L !! payload = Some kp -> sizeof_task_payload <= kp ->
  let h' := ffi_prep_cif h (payload + o_pl_cif) n types in
  h_ok h' L /\ only_differ (fun x => payload + o_pl_cif <= x < payload + o_pl_types) (h_mem h) (h_mem h') /\
  forall r, h_room h r -> h_room h' r.
Proof.
  intros Ho Hp Hkp. cbv zeta. unfold ffi_prep_cif.
  assert (forall o v, (o, v) ∈ prep_cif n types -> 0 <= o <= sizeof_cif - 8) as Hin by apply prep_cif_inside.
  revert h Ho. induction (prep_cif n types) as [|[o v] ws IH]; intros h Ho; cbn [foldl fst snd].
  - split_and!; [done|apply only_differ_refl|done].
  - pose proof (Hin o v ltac:(by left)) as Hov. destruct (IH ltac:(intros; eapply Hin; by right) (put h (payload + o_pl_cif + o) v)) as (H2 & H3 & H4).
    { eapply put_ok; [done|done|]. plo. lia. }
    split_and!; [done| |].
    + eapply only_differ_trans; [|exact H3]. rewrite put_mem. apply only_differ_st. plo. lia.
    + intros r Hr. by apply H4, put_room.
Qed.

(** *** Building *)
Lemma thread_payload_nil (h : H) (L : gmap Z Z) (fn : Z) (r : nat) : h_ok h L -> h_room h (S r) ->
  exists payload h' D, thread_payload h fn [] = Some (payload, h') /\ L ##ₘ D /\ h_ok h' (D ∪ L) /\
    owned D payload NULL NULL [] /\ payload_at (h_mem h') payload fn NULL NULL [] [] /\
    blocks_kept L (h_mem h) (h_mem h') /\ h_room h' r.
Proof.
  intros Ho Hr. destruct cif_size as [Hc Hc'].
  destruct (h_alloc_spec h L sizeof_task_payload r Ho Hr) as (p & k & h1 & E1 & Hp & Hk & Ho1 & HK1 & Hr1);
    [plo; unfold REQUEST_MAX; lia|].
  unfold thread_payload. cbn [length]. rewrite E1. cbn [mbind option_bind]. change (size_t (8 * Z.of_nat 0)) with 0.
  set (L1 := <[p := k]> L) in *. assert (L1 !! p = Some k) as Lp by apply lookup_insert_eq.
  set (h2 := put (put h1 (p + o_pl_fn) fn) (p + o_pl_nargs) (Z.of_nat 0)).
  assert (h_ok h2 L1) as Ho2 by (eapply put_ok; [eapply put_ok; [exact Ho1|exact Lp|]|exact Lp|]; plo; lia).
  rewrite (h_alloc_zero h2 L1 Ho2). cbn [mbind option_bind]. set (h3 := put h2 (p + o_pl_types) NULL).
  assert (h_ok h3 L1) as Ho3 by (eapply put_ok; [exact Ho2|exact Lp|]; plo; lia).
  rewrite (h_alloc_zero h3 L1 Ho3). cbn [mbind option_bind payload_args]. set (h4 := put h3 (p + o_pl_values) NULL).
  assert (h_ok h4 L1) as Ho4 by (eapply put_ok; [exact Ho3|exact Lp|]; plo; lia).
  assert (h_mem h4 = st (st (st (st (h_mem h1) (p + o_pl_fn) fn) (p + o_pl_nargs) 0) (p + o_pl_types) NULL) (p + o_pl_values) NULL) as Em.
  { unfold h4, h3, h2. by rewrite !put_mem. }
  destruct (ffi_prep_cif_ok h4 L1 p k (Z.of_nat 0) (ld (h_mem h4) (p + o_pl_types)) Ho4 Lp) as (Ho5 & D5 & R5); [lia|].
  eexists p, _, {[p := k]}. split; [done|]. rewrite <- insert_union_singleton_l. split_and!; try done.
  - by apply map_disjoint_singleton_r.
  - split; cbn [length arrays app].
    + exists k. split; [apply lookup_singleton_eq|lia].
    + done.
    + done.
    + by intros v Hv%elem_of_nil.
    + rewrite dom_singleton_L. set_solver.
    + apply NoDup_singleton.
    + intros q j [<- <-]%lookup_singleton_Some. lia.
  - split; [..|by split]; rewrite D5, Em by (plo; lia); plo; ld_steps; done.
  - intros q j x Hq Hx. assert (q <> p) as Hne by congruence.
    assert (forall y, p <= y < p + k -> x <> y) as Hxy.
    { intros y Hy. apply (block_words h1 L1 q j p k); try done. unfold L1. by rewrite lookup_insert_ne. }
    rewrite D5 by (intros Hb; apply (Hxy x); [plo; lia|done]). rewrite Em, !ld_st_ne; [by apply (HK1 q j)|..]; apply not_eq_sym, Hxy; plo; lia.
  - apply R5. unfold h4, h3, h2. by repeat apply put_room.
Qed.

(** Three blocks in a row. *)
Lemma three_blocks (L : gmap Z Z) (p kp t kt v kv : Z) (D : gmap Z Z) :
  L !! p = None -> <[p := kp]> L !! t = None -> <[t := kt]> (<[p := kp]> L) !! v = None ->
  <[v := kv]> (<[t := kt]> (<[p := kp]> L)) ##ₘ D ->
  let D3 := <[v := kv]> (<[t := kt]> {[p := kp]}) in
  L ##ₘ D ∪ D3 /\ D ∪ <[v := kv]> (<[t := kt]> (<[p := kp]> L)) = (D ∪ D3) ∪ L /\
  D !! p = None /\ D !! t = None /\ D !! v = None /\ p <> t /\ p <> v /\ t <> v.
Proof using Type.
  intros Hp Ht Hv Hd D3. rewrite lookup_insert_None in Ht, Hv. destruct Ht as [Ht Hpt], Hv as [Hv Htv].
  rewrite lookup_insert_None in Hv. destruct Hv as [Hv Hpv].
  rewrite !map_disjoint_insert_l in Hd. destruct Hd as (Dv & Dt & Dp & Hd). split_and!; try done.
  - rewrite map_disjoint_union_r. split; [done|]. unfold D3. rewrite !map_disjoint_insert_r. split_and!; try done.
    by apply map_disjoint_singleton_r.
  - rewrite <- map_union_assoc. f_equal. unfold D3. rewrite <- !insert_union_l. do 2 f_equal. apply insert_union_singleton_l.
Qed.

Lemma three_lookup (p kp t kt v kv q : Z) : p <> t -> p <> v -> t <> v ->
  (<[v := kv]> (<[t := kt]> {[p := kp]}) : gmap Z Z) !! q =
  if decide (q = v) then Some kv else if decide (q = t) then Some kt else if decide (q = p) then Some kp else None.
Proof using Type.
  intros ? ? ?. destruct (decide (q = v)) as [->|]; [apply lookup_insert_eq|rewrite lookup_insert_ne by done].
  destruct (decide (q = t)) as [->|]; [apply lookup_insert_eq|rewrite lookup_insert_ne by done].
  case_decide as Eq; [rewrite Eq; apply lookup_singleton_eq|by apply lookup_singleton_ne].
Qed.

(** The cells [D] with the payload and its two arrays. *)
Lemma owned_blocks (D : gmap Z Z) (p kp t kt v kv : Z) (vals : list Z) :
  vals <> [] -> p <> t -> p <> v -> t <> v -> D !! p = None -> D !! t = None -> D !! v = None ->
  dom D = list_to_set vals -> NoDup vals -> (forall w k, D !! w = Some k -> 8 <= k < MMAP_THRESHOLD) ->
  sizeof_task_payload <= kp < MMAP_THRESHOLD -> kt < MMAP_THRESHOLD -> 8 * Z.of_nat (length vals) <= kv < MMAP_THRESHOLD ->
  let D3 := <[v := kv]> (<[t := kt]> {[p := kp]}) in
  owned (D ∪ D3) p t v vals /\ (forall q j, D3 !! q = Some j -> (D ∪ D3) !! q = Some j).
Proof.
  intros Hne Npt Npv Ntv Dp Dt Dv Hdom Hnd HD Hkp Hkt Hkv D3.
  assert (forall q, D3 !! q = _) as HD3 by (intros q; exact (three_lookup p kp t kt v kv q Npt Npv Ntv)).
  assert (forall q j, D3 !! q = Some j -> (D ∪ D3) !! q = Some j) as HDq.
  { intros q j Hq. rewrite lookup_union_r; [done|]. rewrite HD3 in Hq. repeat case_decide; simplify_eq; done. }
  assert (forall w, w ∈ vals -> exists k, D !! w = Some k) as Hcell.
  { intros w Hw. apply elem_of_dom. rewrite Hdom. by apply elem_of_list_to_set. }
  split; [|done]. split.
  - exists kp. split; [|lia]. apply HDq. rewrite HD3. repeat case_decide; congruence.
  - done.
  - intros _. exists kv. split; [|lia]. apply HDq. rewrite HD3. by rewrite decide_True.
  - intros w Hw. destruct (Hcell w Hw) as [k Hk]. exists k. split; [by apply lookup_union_Some_l|]. by destruct (HD w k Hk).
  - rewrite dom_union_L, Hdom. unfold D3. rewrite !dom_insert_L, dom_singleton_L.
    destruct vals; [done|]. cbn [length arrays]. rewrite list_to_set_app_L. cbn [app list_to_set]. set_solver.
  - destruct vals as [|w vals]; [done|]. cbn [length arrays]. apply NoDup_app. split; [done|]. split.
    + intros x Hx. destruct (Hcell x Hx) as [k Hk].
      cbn [app]. rewrite !elem_of_cons, elem_of_nil. intros [->|[->|[->|[]]]]; congruence.
    + cbn [app]. rewrite !NoDup_cons, !elem_of_cons, !elem_of_nil.
      split_and!; [intuition congruence|intuition congruence|tauto|apply NoDup_nil_2].
  - intros q k Hq. apply lookup_union_Some_raw in Hq as [Hq|[_ Hq]]; [by apply (HD q)|].
    rewrite HD3 in Hq. repeat case_decide; simplify_eq; lia.
Qed.

(** The three allocations before the loop. *)
Lemma payload_header_ok (h : H) (L : gmap Z Z) (fn n : Z) (r : nat) :
  0 < n -> 8 * n <= REQUEST_MAX -> h_ok h L -> h_room h (S (S (S r))) ->
  exists p kp h1 t kt h3 v kv h5,
    h_alloc h sizeof_task_payload = Some (p, h1) /\
    h_alloc (put (put h1 (p + o_pl_fn) fn) (p + o_pl_nargs) n) (8 * n) = Some (t, h3) /\
    h_alloc (put h3 (p + o_pl_types) t) (8 * n) = Some (v, h5) /\
    L !! p = None /\ <[p := kp]> L !! t = None /\ <[t := kt]> (<[p := kp]> L) !! v = None /\
    sizeof_task_payload <= kp < MMAP_THRESHOLD /\ 8 * n <= kt < MMAP_THRESHOLD /\ 8 * n <= kv < MMAP_THRESHOLD /\
    let h6 := put h5 (p + o_pl_values) v in let L3 := <[v := kv]> (<[t := kt]> (<[p := kp]> L)) in
    h_ok h6 L3 /\ h_room h6 r /\ blocks_kept L (h_mem h) (h_mem h6) /\
    ld (h_mem h6) (p + o_pl_fn) = fn /\ ld (h_mem h6) (p + o_pl_nargs) = n /\
    ld (h_mem h6) (p + o_pl_types) = t /\ ld (h_mem h6) (p + o_pl_values) = v.
Proof.
  intros Hn Hmax Ho Hr. destruct cif_size as [Hc Hc'].
  destruct (h_alloc_spec h L sizeof_task_payload _ Ho Hr) as (p & kp & h1 & E1 & Hp & Hkp & Ho1 & HK1 & Hr1);
    [plo; unfold REQUEST_MAX; lia|].
  set (L1 := <[p := kp]> L) in *. assert (L1 !! p = Some kp) as L1p by apply lookup_insert_eq.
  set (h2 := put (put h1 (p + o_pl_fn) fn) (p + o_pl_nargs) n).
  assert (h_ok h2 L1) as Ho2 by (eapply put_ok; [eapply put_ok; [exact Ho1|exact L1p|]|exact L1p|]; plo; lia).
  destruct (h_alloc_spec h2 L1 (8 * n) _ Ho2 ltac:(repeat apply put_room; exact Hr1) ltac:(lia))
    as (t & kt & h3 & E3 & Ht & Hkt & Ho3 & HK3 & Hr3).
  set (L2 := <[t := kt]> L1) in *. set (h4 := put h3 (p + o_pl_types) t).
  assert (L2 !! p = Some kp) as L2p by (unfold L2; rewrite lookup_insert_ne; congruence).
  assert (h_ok h4 L2) as Ho4 by (eapply put_ok; [exact Ho3|exact L2p|]; plo; lia).
  destruct (h_alloc_spec h4 L2 (8 * n) _ Ho4 ltac:(apply put_room; exact Hr3) ltac:(lia))
    as (v & kv & h5 & E5 & Hv & Hkv & Ho5 & HK5 & Hr5).
  assert (<[v := kv]> L2 !! p = Some kp) as L3p by (rewrite lookup_insert_ne; congruence).
  exists p, kp, h1, t, kt, h3, v, kv, h5. cbv zeta. set (h6 := put h5 (p + o_pl_values) v).
  assert (forall o, 0 <= o < sizeof_task_payload -> ld (h_mem h6) (p + o) =
    ld (st (st (st (st (h_mem h1) (p + o_pl_fn) fn) (p + o_pl_nargs) n) (p + o_pl_types) t) (p + o_pl_values) v) (p + o)) as Hw.
  { intros o Hoo. unfold h6. rewrite put_mem. destruct (decide (p + o_pl_values = p + o)) as [Eo|Eo]; [by rewrite Eo, !ld_st_eq|].
    rewrite !(ld_st_ne _ (p + o_pl_values)) by done. rewrite (HK5 p kp) by (done || lia).
    unfold h4. rewrite put_mem. destruct (decide (p + o_pl_types = p + o)) as [Eo2|Eo2]; [by rewrite Eo2, !ld_st_eq|].
    rewrite !(ld_st_ne _ (p + o_pl_types)) by done. rewrite (HK3 p kp) by (done || lia). unfold h2. by rewrite !put_mem. }
  split_and!; try done; try lia; try (rewrite Hw by (plo; lia); plo; ld_steps; done).
  - eapply put_ok; [exact Ho5|exact L3p|]; plo; lia.
  - by apply put_room.
  - intros q j x Hq Hx. assert (q <> p) by congruence. assert (L1 !! q = Some j) as Q1 by (unfold L1; by rewrite lookup_insert_ne).
    assert (q <> t) by congruence. assert (L2 !! q = Some j) as Q2 by (unfold L2; by rewrite lookup_insert_ne).
    assert (forall y, p <= y < p + kp -> y <> x) as Hxy.
    { intros y Hy. apply not_eq_sym. apply (block_words h1 L1 q j p kp); done. }
    unfold h6. rewrite put_mem, ld_st_ne by (apply Hxy; plo; lia).
    rewrite (HK5 q j) by done. unfold h4. rewrite put_mem, ld_st_ne by (apply Hxy; plo; lia). rewrite (HK3 q j) by done.
    unfold h2. rewrite !put_mem, !ld_st_ne by (apply Hxy; plo; lia). by apply (HK1 q j).
Qed.

Lemma thread_payload_cons (h : H) (L : gmap Z Z) (fn : Z) (args : list Z) (r : nat) :
  args <> [] -> 8 * Z.of_nat (length args) <= REQUEST_MAX -> h_ok h L -> h_room h (S (S (S (length args + r)))) ->
  exists payload h' D types values vals, thread_payload h fn args = Some (payload, h') /\ L ##ₘ D /\ h_ok h' (D ∪ L) /\
    owned D payload types values vals /\ payload_at (h_mem h') payload fn types values vals args /\
    blocks_kept L (h_mem h) (h_mem h') /\ h_room h' r.
Proof.
  intros Hargs Hmax Ho Hr. destruct cif_size as [Hc Hc']. set (n := Z.of_nat (length args)) in *.
  assert (0 < n) as Hn by (destruct args; [done|unfold n; cbn; lia]).
  destruct (payload_header_ok h L fn n (length args + r) Hn Hmax Ho Hr) as
    (p & kp & h1 & t & kt & h3 & v & kv & h5 & E1 & E3 & E5 & Hp & Ht & Hv & Hkp & Hkt & Hkv & Ho6 & Hr6 & HK6 & W1 & W2 & W3 & W4).
  unfold thread_payload. fold n. rewrite (uwrap_small 64 (8 * n)) by (unfold in_uint, REQUEST_MAX in *; lia).
  rewrite E1. cbn [mbind option_bind]. rewrite E3. cbn [mbind option_bind]. rewrite E5. cbn [mbind option_bind].
  set (h6 := put h5 (p + o_pl_values) v) in *. set (L3 := <[v := kv]> (<[t := kt]> (<[p := kp]> L))) in *.
  destruct (three_blocks L p kp t kt v kv ∅ Hp Ht Hv ltac:(apply map_disjoint_empty_r)) as (_ & _ & _ & _ & _ & Npt & Npv & Ntv).
  assert (L3 !! p = Some kp /\ L3 !! t = Some kt /\ L3 !! v = Some kv) as (L3p & L3t & L3v).
  { unfold L3. split_and!; [rewrite !lookup_insert_ne by done; apply lookup_insert_eq|rewrite lookup_insert_ne by done|]; apply lookup_insert_eq. }
  destruct (payload_args_ok p kp t kt v kv r args h6 L3 0 Ho6 Hr6 ltac:(lia) Npt Npv Ntv L3p ltac:(lia) L3t
    ltac:(fold n; lia) L3v ltac:(fold n; lia) W3 W4) as (h7 & D & vals & E7 & Ho7 & Hd & Hdom & Hnd & HD & Hcells & HF & Hr7).
  rewrite E7. cbn [mbind option_bind].
  destruct (three_blocks L p kp t kt v kv D Hp Ht Hv Hd) as (Hdj & EU & Dp & Dt & Dv & _). fold L3 in EU.
  assert (length vals = length args) as Hlen by apply Hcells.
  destruct (owned_blocks D p kp t kt v kv vals) as [HW HDq]; try done; try lia; [by destruct vals, args|].
  set (D3 := <[v := kv]> (<[t := kt]> {[p := kp]})) in *.
  assert ((D ∪ L3) !! p = Some kp) as HUp by (rewrite lookup_union_r by done; done).
  destruct (ffi_prep_cif_ok h7 _ p kp n (ld (h_mem h7) (p + o_pl_types)) Ho7 HUp) as (Ho8 & D8 & R8); [lia|].
  set (h8 := ffi_prep_cif _ _ _ _) in *.
  assert (forall q j x, (D ∪ L3) !! q = Some j -> q <= x < q + j -> (q = p -> x < p + o_pl_cif \/ p + o_pl_types <= x) ->
    ld (h_mem h8) x = ld (h_mem h7) x) as F8.
  { intros q j x Hq Hx Hne. apply D8. intros Hb. destruct (decide (q = p)) as [E|E]; [specialize (Hne E); lia|].
    apply (block_words h7 _ q j p kp x x Ho7 Hq HUp E Hx); [plo; lia|done]. }
  rewrite EU in Ho8. exists p, h8, (D ∪ D3), t, v, vals. split_and!; try done; [| |by apply R8].
  - assert (forall o, 0 <= o < sizeof_task_payload -> (o < o_pl_cif \/ o_pl_types <= o) -> ld (h_mem h8) (p + o) = ld (h_mem h6) (p + o)) as Hw.
    { intros o Hoo Hb. rewrite (F8 p kp) by (done || lia). apply (HF p kp); [done|lia|]. intros [->| ->]; done. }
    destruct Hcells as [_ Hcells]. split; [rewrite Hw by (plo; lia); done..|]. split; [done|]. intros j w a Hw' Ha.
    destruct (Hcells j w a Hw' Ha) as [Q1 Q2]. pose proof (lookup_lt_Some _ _ _ Hw').
    assert (w ∈ dom D) as [k Hk]%elem_of_dom by (rewrite Hdom; apply elem_of_list_to_set; by eapply list_elem_of_lookup_2).
    destruct (HD w k Hk). rewrite (F8 v kv), (F8 w k); try done; try lia; [by apply lookup_union_Some_l|congruence|].
    by rewrite lookup_union_r.
  - intros q j x Hq Hx. assert (L3 !! q = Some j /\ q <> p /\ q <> t /\ q <> v) as (Q3 & Qp & Qt & Qv).
    { rewrite !lookup_insert_None in Ht. rewrite !lookup_insert_None in Hv. destruct Ht, Hv as [[? ?] ?].
      assert (q <> p /\ q <> t /\ q <> v) as (? & ? & ?) by (split_and!; congruence).
      unfold L3. by rewrite !lookup_insert_ne. }
    rewrite (F8 q j), (HF q j); try done; [by apply (HK6 q j)|intros [->| ->]; done|].
    rewrite lookup_union_r; [done|]. by eapply map_disjoint_Some_l.
Qed.

Lemma thread_payload_ok (h : H) (L : gmap Z Z) (fn : Z) (args : list Z) (r : nat) :
  8 * Z.of_nat (length args) <= REQUEST_MAX -> h_ok h L -> h_room h (S (S (S (length args + r)))) ->
  exists payload h' D types values vals, thread_payload h fn args = Some (payload, h') /\ L ##ₘ D /\ h_ok h' (D ∪ L) /\
    owned D payload types values vals /\ payload_at (h_mem h') payload fn types values vals args /\
    blocks_kept L (h_mem h) (h_mem h') /\ h_room h' r.
Proof.
  intros Hmax Ho Hr. destruct args as [|a args]; [|by apply thread_payload_cons].
  destruct (thread_payload_nil h L fn r Ho) as (p & h' & D & Hq); [by apply h_room_less, h_room_less|].
  exists p, h', D, NULL, NULL, []. exact Hq.
Qed.

(** ** Calling and giving back *)
Lemma ffi_call_ok (h : H) (payload fn types values : Z) (vals args : list Z) :
  payload_at (h_mem h) payload fn types values vals args -> ffi_call h payload = (fn, args).
Proof.
  intros [P1 P2 P3 P4 [Hlen P5]]. unfold ffi_call. rewrite P1, P2, P4, Nat2Z.id. f_equal.
  apply list_eq. intros j. rewrite list_lookup_fmap. destruct (args !! j) as [a|] eqn:Ha.
  - pose proof (lookup_lt_Some _ _ _ Ha). destruct (lookup_lt_is_Some_2 vals j) as [v Hv]; [lia|].
    rewrite lookup_seq_lt by done. cbn. destruct (P5 j v a Hv Ha) as [E1 E2]. f_equal.
    replace (values + 8 * Z.of_nat j) with (values + 8 * (0 + Z.of_nat j)) by lia. by rewrite E1, E2.
  - apply lookup_ge_None in Ha. by rewrite lookup_seq_ge.
Qed.

Lemma release_args_ok (payload kp values kv : Z) (vals : list Z) : forall (h : H) (L : gmap Z Z) (i : Z),
  h_ok h L -> 0 <= i -> L !! payload = Some kp -> sizeof_task_payload <= kp ->
  (vals <> [] -> L !! values = Some kv /\ 8 * (i + Z.of_nat (length vals)) <= kv) ->
  payload ∉ vals -> values ∉ vals -> NoDup vals -> (forall v, v ∈ vals -> exists k, L !! v = Some k /\ k < MMAP_THRESHOLD) ->
  ld (h_mem h) (payload + o_pl_values) = values ->
  (forall j v, vals !! j = Some v -> ld (h_mem h) (values + 8 * (i + Z.of_nat j)) = v) ->
  exists h', release_args h payload i (length vals) = Some h' /\ h_ok h' (foldr delete L vals) /\
    blocks_kept (foldr delete L vals) (h_mem h) (h_mem h') /\ forall r, h_room h r -> h_room h' r.
Proof.
  destruct cif_size as [Hc _].
  induction vals as [|v vals IH]; intros h L i Ho Hi Hp Hkp Hv Np Nv Hnd Hb Ev Hcells; cbn [length release_args foldr].
  - exists h. split_and!; try done; apply blocks_kept_refl.
  - rewrite Ev. specialize (Hcells 0%nat v eq_refl) as Ec. rewrite Z.add_0_r in Ec. rewrite Ec.
    destruct Hv as [Hv Hkv]; [done|]. cbn [length] in Hkv.
    apply not_elem_of_cons in Np as [Npv Np], Nv as [Nvv Nv]. apply NoDup_cons in Hnd as [Hnv Hnd].
    destruct (Hb v ltac:(by left)) as (k & Hk & Hks).
    destruct (h_free_spec h L v k Ho Hk Hks) as (h1 & E1 & Ho1 & HK1 & Hr1). rewrite E1. cbn [mbind option_bind].
    assert (forall q, q <> v -> delete v L !! q = L !! q) as Hdel by (intros; by apply lookup_delete_ne).
    destruct (IH h1 (delete v L) (i + 1)) as (h' & E & Ho' & HK & Hr); try done; try lia.
    + by rewrite Hdel.
    + intros _. rewrite Hdel by done. split; [done|lia].
    + intros w Hw. destruct (Hb w ltac:(by right)) as (j & ? & ?). exists j. rewrite Hdel; [done|congruence].
    + rewrite (HK1 payload kp); [done|by rewrite Hdel|plo; lia].
    + intros j w Hw. pose proof (lookup_lt_Some _ _ _ Hw). rewrite (HK1 values kv); [|by rewrite Hdel|lia].
      rewrite <- (Hcells (S j) w Hw). do 2 f_equal. lia.
    + rewrite <- delete_foldr_delete in Ho', HK. exists h'. split_and!; try done; [|auto].
      intros q j x Hq Hx. rewrite (HK q j x Hq Hx). apply (HK1 q j); [|done].
      rewrite lookup_delete_Some in *. destruct Hq as [? [_ Hq]%lookup_foldr_delete_Some]. done.
Qed.

(** Two frees of a block, or of [NULL] and no block. *)
Lemma free_arrays_ok (h : H) (L : gmap Z Z) (n : nat) (types values : Z) :
  h_ok h L -> (n = 0%nat -> types = NULL /\ values = NULL) -> NoDup (arrays n types values) ->
  (forall p, p ∈ arrays n types values -> exists k, L !! p = Some k /\ k < MMAP_THRESHOLD) ->
  exists h1 h2, h_free h types = Some h1 /\ h_free h1 values = Some h2 /\
    h_ok h2 (foldr delete L (arrays n types values)) /\
    (forall q j x, foldr delete L (arrays n types values) !! q = Some j -> q <= x < q + j ->
      ld (h_mem h1) x = ld (h_mem h) x /\ ld (h_mem h2) x = ld (h_mem h) x) /\
    forall r, h_room h r -> h_room h2 r.
Proof.
  intros Ho Hz Hnd Hb. destruct n as [|n]; cbn [arrays foldr] in *.
  - destruct (Hz eq_refl) as [-> ->]. exists h, h. by rewrite (h_free_null h L Ho).
  - apply NoDup_cons in Hnd as [Hne%not_elem_of_cons _]. destruct Hne as [Hne _].
    destruct (Hb types ltac:(by left)) as (kt & Ht & ?), (Hb values ltac:(right; by left)) as (kv & Hv & ?).
    destruct (h_free_spec h L types kt Ho Ht) as (h1 & E1 & Ho1 & HK1 & Hr1); [done|].
    destruct (h_free_spec h1 (delete types L) values kv Ho1) as (h2 & E2 & Ho2 & HK2 & Hr2); [by rewrite lookup_delete_ne|done|].
    exists h1, h2. rewrite delete_delete. split_and!; try done; [|auto]. intros q j x Hq Hx.
    assert (ld (h_mem h1) x = ld (h_mem h) x) as E.
    { apply (HK1 q j); [|done]. apply lookup_delete_Some in Hq as [_ Hq]. done. }
    split; [done|]. by rewrite <- E; apply (HK2 q j).
Qed.

(** Deleting the blocks of [D]. *)
Lemma difference_blocks (L D : gmap Z Z) (ps : list Z) : dom D = list_to_set ps -> foldr delete L ps = L ∖ D.
Proof using Type.
  intros Hd. apply map_eq. intros q. destruct (decide (q ∈ ps)) as [Hq|Hq].
  - rewrite lookup_foldr_delete by done. symmetry. rewrite lookup_difference_None. right. apply elem_of_dom.
    rewrite Hd. by apply elem_of_list_to_set.
  - rewrite lookup_foldr_delete_not_elem_of by done. symmetry. rewrite lookup_difference.
    assert (D !! q = None) as ->; [|done]. apply not_elem_of_dom. rewrite Hd. by rewrite elem_of_list_to_set.
Qed.

Lemma task_finish_ok (h : H) (L D : gmap Z Z) (payload fn types values : Z) (vals args : list Z) (t kt : Z) :
  h_ok h L -> D ⊆ L -> owned D payload types values vals -> payload_at (h_mem h) payload fn types values vals args ->
  L !! t = Some kt -> o_task_state + 8 <= kt -> D !! t = None ->
  exists h', task_finish h t payload = Some h' /\ h_ok h' (L ∖ D) /\
    blocks_kept (L ∖ D) (st (h_mem h) (t + o_task_state) (state_word TASK_FINISHED)) (h_mem h') /\
    forall r, h_room h r -> h_room h' r.
Proof.
  intros Ho Hsub W P Ht Hkt HtD. destruct (OW_payload _ _ _ _ _ W) as (kp & Hp & Hkp). destruct cif_size as [Hc _].
  pose proof (lookup_weaken _ _ _ _ Hp Hsub) as Lp. set (h1 := put h (t + o_task_state) (state_word TASK_FINISHED)).
  assert (0 <= o_task_state) by (unfold o_task_state; lia).
  assert (h_ok h1 L) as Ho1 by (eapply put_ok; [exact Ho|exact Ht|lia]).
  assert (payload_at (h_mem h1) payload fn types values vals args) as P1.
  { eapply payload_at_kept; [exact W|exact P|]. intros q j x Hq Hx. apply (put_other h L t kt q j); try done; try lia.
    - by eapply lookup_weaken.
    - intros ->. congruence. }
  assert (length vals = length args) as Hlen by apply P1.
  pose proof (OW_nodup _ _ _ _ _ W) as Hnd. apply NoDup_app in Hnd as (Hnv & Hdis & Hnd).
  apply NoDup_app in Hnd as (Hna & Hdis2 & _).
  assert (forall p, p ∈ vals ++ arrays (length vals) types values ++ [payload] -> exists k, D !! p = Some k /\ L !! p = Some k /\ k < MMAP_THRESHOLD) as Hin.
  { intros p Hpin. assert (p ∈ dom D) as [k Hk]%elem_of_dom by (rewrite (OW_dom _ _ _ _ _ W); by apply elem_of_list_to_set).
    exists k. split; [done|]. split; [by eapply lookup_weaken|by eapply (OW_small _ _ _ _ _ W)]. }
  assert (exists kv, vals <> [] -> L !! values = Some kv /\ 8 * (0 + Z.of_nat (length vals)) <= kv) as [kv Hkv].
  { destruct vals as [|v0 vals']; [by exists 0|]. destruct (OW_values _ _ _ _ _ W) as (kv & Hkv & ?); [done|].
    exists kv. intros _. split; [by eapply lookup_weaken|lia]. }
  destruct (release_args_ok payload kp values kv vals h1 L 0) as (h2 & E2 & Ho2 & HK2 & Hr2); try done.
  { intros Hx. apply (Hdis payload Hx). rewrite elem_of_app. right. by left. }
  { intros Hx. destruct vals as [|v0 vals']; [by apply elem_of_nil in Hx|]. apply (Hdis values Hx). cbn [length arrays].
    rewrite elem_of_app. left. right. by left. }
  { intros v Hv. destruct (Hin v) as (k & _ & ? & ?); [rewrite elem_of_app; by left|]. eauto. }
  { apply P1. }
  { intros j v Hv. destruct (lookup_lt_is_Some_2 args j) as [a Ha]; [rewrite <- Hlen; by eapply lookup_lt_Some|].
    by destruct P1 as [_ _ _ _ [_ P5]]; destruct (P5 j v a Hv Ha). }
  set (L2 := foldr delete L vals) in *.
  assert (forall q, q ∉ vals -> L2 !! q = L !! q) as HL2 by (intros; by apply lookup_foldr_delete_not_elem_of).
  assert (payload ∉ vals) as Npv by (intros Hx; apply (Hdis payload Hx); rewrite elem_of_app; right; by left).
  destruct (free_arrays_ok h2 L2 (length vals) types values) as (h3 & h4 & E3 & E4 & Ho4 & HK4 & Hr4); try done.
  { intros Hl0. apply (OW_null _ _ _ _ _ W). by destruct vals. }
  { intros p Hpa. destruct (Hin p) as (k & _ & ? & ?); [rewrite !elem_of_app; auto|]. exists k. rewrite HL2; [done|].
    intros Hx. apply (Hdis p Hx). rewrite elem_of_app. by left. }
  set (L4 := foldr delete L2 (arrays (length vals) types values)) in *.
  assert (payload ∉ arrays (length vals) types values) as Npa by (intros Hx; apply (Hdis2 payload Hx); by left).
  assert (L4 !! payload = Some kp) as L4p by (unfold L4; rewrite lookup_foldr_delete_not_elem_of, HL2; done).
  assert (forall o, 0 <= o < sizeof_task_payload -> ld (h_mem h2) (payload + o) = ld (h_mem h1) (payload + o)) as Hw2.
  { intros o Hoo. apply (HK2 payload kp); [by rewrite HL2|lia]. }
  destruct (h_free_spec h4 L4 payload kp Ho4 L4p) as (h5 & E5 & Ho5 & HK5 & Hr5); [by eapply (OW_small _ _ _ _ _ W)|].
  assert (delete payload L4 = L ∖ D) as EL.
  { rewrite <- (difference_blocks L D (payload :: arrays (length vals) types values ++ vals)).
    - cbn [foldr]. by rewrite foldr_app.
    - rewrite (OW_dom _ _ _ _ _ W). cbn [list_to_set]. rewrite !list_to_set_app_L. cbn [list_to_set]. set_solver. }
  exists h5. split_and!; [| | |intros r Hr; apply Hr5, Hr4, Hr2; by apply put_room].
  - unfold task_finish. fold h1. rewrite (PL_nargs _ _ _ _ _ _ _ P1), Nat2Z.id, <- Hlen, E2. cbn [mbind option_bind].
    rewrite Hw2, (PL_types _ _ _ _ _ _ _ P1), E3 by (plo; lia). cbn [mbind option_bind].
    destruct (HK4 payload kp (payload + o_pl_values) L4p) as [-> _]; [plo; lia|].
    rewrite Hw2, (PL_values _ _ _ _ _ _ _ P1), E4 by (plo; lia). cbn [mbind option_bind]. exact E5.
  - by rewrite <- EL.
  - intros q j x Hq Hx. rewrite <- EL in Hq. rewrite (HK5 q j x Hq Hx). apply lookup_delete_Some in Hq as [_ Hq].
    destruct (HK4 q j x Hq Hx) as [_ ->]. apply lookup_foldr_delete_Some in Hq as [_ Hq]. rewrite (HK2 q j x Hq Hx).
    unfold h1. by rewrite put_mem.
Qed.
End payload.

(** ** The table of tasks *)
Section table.
Context `{OSLaws}.
Context (makecontext : Z -> Z -> Z -> Z -> Z * Z * (Z -> Z)).

Ltac tko := unfold sizeof_task, o_task_gcq, o_task_state, o_task_stack, o_task_fn, o_task_sched_id, o_task_stack_size, o_task_uc, o_task_id in *.

(** The mapping at [b] holds the guard page and the stack. *)
Definition stack_len : Z := STACK_SIZE + page_size.
Definition stack_of (e : Z * Z * Z) : Z * Z := (e.2, e.2 + align_page stack_len).

(** The words of a task's record that stay as long as it lives. *)
Definition record_at (m : mem) (t b : Z) : Prop :=
  ld m (t + o_task_stack) = b + page_size /\ ld m (t + o_task_stack_size) = STACK_SIZE.

(** The tasks of [c]: ring node, record and stack mapping of each. *)
Record TInv (c : collector) (L : gmap Z Z) (ts : list (Z * Z * Z)) : Prop := {
  T_ring : exists s q, arena_of c = Some s /\ roots c = Some q /\ gcq_lock q = false /\
    @RInv _ _ (reserved_spec (stack_of <$> ts)) o_task_gcq s (gcq_head q) L ts.*1;
  T_task : forall n t b, (n, t, b) ∈ ts -> (exists k, L !! t = Some k /\ sizeof_task <= k < MMAP_THRESHOLD) /\
    record_at (g_mem c) t b /\
    exists st ctx, g_tasks c !! t = Some (st, ctx) /\ ss_sp ctx = b + page_size /\ ss_size ctx = STACK_SIZE
}.

Lemma stack_len_bound : 0 < stack_len <= 2 ^ 40 /\ size_t (STACK_SIZE + page_size) = stack_len.
Proof.
  destruct page_facts as [? _]. unfold stack_len, STACK_SIZE. split; [lia|]. apply uwrap_small. unfold in_uint. lia.
Qed.

Lemma RInv_respec (HS1 HS2 : HeapSpec astate) (off : Z) (s : astate) (hd : Z) (L : gmap Z Z) (ns : list (Z * Z)) :
  @RInv _ _ HS1 off s hd L ns -> @h_ok _ _ HS2 s L -> @RInv _ _ HS2 off s hd L ns.
Proof using Type. intros R Ho. destruct R. by split. Qed.

(** A ring survives in a larger heap. *)
Lemma RInv_kept `{HS : HeapSpec Hp} (off : Z) (h h' : Hp) (hd : Z) (L L' : gmap Z Z) (ns : list (Z * Z)) :
  RInv off h hd L ns -> 0 <= off -> h_ok h' L' -> L ⊆ L' -> blocks_kept L (h_mem h) (h_mem h') -> RInv off h' hd L' ns.
Proof using Type.
  intros R Hoff Ho Hsub HK. eapply RInv_frame; [exact R|exact Ho| |].
  - intros p Hp'. assert (exists k, L !! p = Some k) as [k Hk].
    { destruct Hp' as [[t Hin]%in_fst|[n Hin]%in_snd].
      - destruct (RI_node _ _ _ _ _ R _ _ Hin) as (k & ? & _). eauto.
      - destruct (RI_task _ _ _ _ _ R _ _ Hin) as ((k & ? & _) & _). eauto. }
    rewrite Hk. by eapply lookup_weaken.
  - intros z Hz. destruct (rword_block off Hoff _ _ _ _ _ R Hz) as (p & k & Hk & Hz' & _). by apply (HK p k).
Qed.

Lemma put_mm (s : astate) (a v : Z) : mm (put s a v) = st (mm s) a v.
Proof using Type. done. Qed.

(** The record and the stack of a new task, before it is registered. *)
Lemma create_record (r : nat) (R : list (Z * Z)) (s : astate) (L : gmap Z Z) (fn kid uc : Z) :
  reserved_ok R s L -> arena_room s (S (S (S r))) ->
  exists t kt s1 b, h_alloc s sizeof_task = Some (t, s1) /\ t <> NULL /\ L !! t = None /\ sizeof_task <= kt < MMAP_THRESHOLD /\
    let s2 := put (put (put (put s1 (t + o_task_uc) uc) (t + o_task_fn) fn) (t + o_task_stack_size) STACK_SIZE) (t + o_task_sched_id) kid in
    ld (mm s2) (t + o_task_stack_size) = STACK_SIZE /\ sys_mmap (maps s2) stack_len = Some b /\
    let n := align_page stack_len in
    let s3 := put (AState (zero_region (mm s2) b n) ((b, b + n) :: maps s2) (ar s2)) (t + o_task_stack) (b + page_size) in
    reserved_ok ((b, b + n) :: R) s3 (<[t := kt]> L) /\ blocks_kept L (mm s) (mm s3) /\ record_at (mm s3) t b /\ arena_room s3 (S r) /\
    ld (mm s3) (t + o_task_sched_id) = kid /\
    forall x, b <= x < b + n -> ~ mapped (maps s) x.
Proof.
  intros Ho Hr. pose (HS := reserved_spec R). destruct stack_len_bound as [Hsl _].
  destruct (@h_alloc_spec _ _ HS s L sizeof_task (S (S r)) Ho Hr) as (t & kt & s1 & E1 & Ht & Hkt & Ho1 & HK1 & Hr1); [unfold REQUEST_MAX; tko; lia|].
  set (L1 := <[t := kt]> L) in *. assert (L1 !! t = Some kt) as Lt by apply lookup_insert_eq.
  destruct (@h_block _ _ HS s1 L1 t kt Ho1 Lt) as [Ht0 _].
  set (s2 := put (put (put (put s1 (t + o_task_uc) uc) (t + o_task_fn) fn) (t + o_task_stack_size) STACK_SIZE) (t + o_task_sched_id) kid).
  assert (reserved_ok R s2 L1) as Ho2.
  { do 4 (eapply (@h_write _ _ HS); [|exact Lt|tko; lia]). exact Ho1. }
  assert (maps s2 = maps s1 /\ ar s2 = ar s1) as [Em Ea] by done.
  destruct Hr1 as [Hl1 Hos1]. replace (2 * S (S r))%nat with (S (S (2 * S r))) in Hos1 by lia. destruct Hos1 as [Hav Hos1].
  destruct (Hav stack_len Hsl) as [b Hb]. specialize (Hos1 _ _ Hsl Hb).
  destruct (reserve_ok R s2 L1 stack_len b Ho2 Hsl) as [Ho3 HK3]; [by rewrite Em|].
  exists t, kt, s1, b. split_and!; try done; try lia. cbv zeta. fold s2. split; [|split; [done|]].
  - unfold s2. rewrite !put_mm. tko. ld_steps. done.
  - split_and!.
    + eapply (@h_write _ _ (reserved_spec _)); [exact Ho3|exact Lt|tko; lia].
    + intros q j x Hq Hx. assert (q <> t) as Hne by congruence. assert (L1 !! q = Some j) as Lq by (unfold L1; by rewrite lookup_insert_ne).
      assert (forall y, t <= y < t + kt -> y <> x) as Hxy.
      { intros y Hy. apply not_eq_sym. by apply (@block_words _ _ HS s1 L1 q j t kt). }
      rewrite put_mm, ld_st_ne by (apply Hxy; tko; lia). cbn [mm]. rewrite (HK3 q j x Lq Hx).
      unfold s2. rewrite !put_mm, !ld_st_ne by (apply Hxy; tko; lia). by apply (HK1 q j).
    + split; rewrite put_mm; [apply ld_st_eq|]. rewrite ld_st_ne by (tko; lia). cbn [mm]. rewrite (HK3 t kt); [|done|tko; lia]. unfold s2. rewrite !put_mm. tko. ld_steps. done.
    + split; cbn [ar put h_set arena_heap with_mm maps]; [rewrite Ea; lia|]. rewrite Em. by apply os_room_less.
    + rewrite put_mm, ld_st_ne by (tko; lia). cbn [mm]. rewrite (HK3 t kt); [|done|tko; lia]. unfold s2. rewrite put_mm. apply ld_st_eq.
    + intros x Hx (lo & hi & Hin & ?). destruct Ho as (M & HR & _). pose proof (repr_iters _ _ _ _ HR Hr) as Hit.
      destruct (allocate_grows_into _ _ _ sizeof_task _ ltac:(tko; lia) Hit E1) as [Hcov _].
      destruct (Hcov x (x + 1)) as (lo' & hi' & Hin' & ?); [exists lo, hi; split; [done|lia]|].
      destruct (mmap_fresh _ _ _ _ _ Hb Hin'); lia.
Qed.

Lemma ts_fst_snd (ts : list (Z * Z * Z)) (n t b : Z) : (n, t, b) ∈ ts -> n ∈ ts.*1.*1 /\ t ∈ ts.*1.*2.
Proof using Type.
  intros Hin. split; apply list_elem_of_fmap; exists (n, t); (split; [done|]); apply list_elem_of_fmap; by exists (n, t, b).
Qed.

Lemma arena_of_some (c : collector) (s : astate) : arena_of c = Some s ->
  global_arena c = Some (ar s) /\ g_mem c = mm s /\ g_maps c = maps s /\ AState (g_mem c) (g_maps c) (ar s) = s.
Proof using Type.
  unfold arena_of. destruct (global_arena c) as [a|]; [|done]. cbn [mbind option_bind]. by intros [= <-].
Qed.

(** The records of the other tasks keep their words when the ring changes. *)
Lemma record_frame `{HS : HeapSpec Hp} (L : gmap Z Z) (h : Hp) (ns : list (Z * Z)) (m m' : mem) (t b k a ka : Z) :
  h_ok h L -> ring_frame L ns (a + o_task_gcq) m m' -> L !! t = Some k -> sizeof_task <= k -> t ∉ ns.*1 ->
  L !! a = Some ka -> sizeof_task <= ka -> record_at m t b -> record_at m' t b.
Proof using Type.
  intros Ho HF Ht Hk Hn Ha Hka [R1 R2].
  assert (forall o, o = o_task_stack \/ o = o_task_stack_size -> ld m' (t + o) = ld m (t + o)) as Hw.
  { intros o Hoo. apply (HF t k); [done|done|tko; lia|]. destruct (decide (t = a)) as [->|Hne]; [tko; lia|].
    apply (block_words h L t k a ka); try done; tko; lia. }
  split; rewrite Hw by auto; done.
Qed.

Lemma task_create_ok (r : nat) (c : collector) (L : gmap Z Z) (ts : list (Z * Z * Z)) (fn payload kid uc : Z) :
  TInv c L ts -> (forall s, arena_of c = Some s -> arena_room s (S (S (S r)))) ->
  exists t c' n b kt kn, task_create makecontext c fn payload kid uc = Some (t, c') /\
    L !! t = None /\ <[t := kt]> L !! n = None /\ TInv c' (<[n := kn]> (<[t := kt]> L)) ((n, t, b) :: ts) /\
    (forall p k x, L !! p = Some k -> p ∉ ts.*1.*1 -> p <= x < p + k -> ld (g_mem c') x = ld (g_mem c) x) /\
    (forall x, b <= x < b + align_page stack_len -> ~ mapped (g_maps c) x) /\
    (forall s, arena_of c' = Some s -> arena_room s r) /\ ld (g_mem c') (t + o_task_sched_id) = kid /\
    exists st, g_tasks c' !! t = Some (st, let '(sp, pc, regs) := makecontext (b + page_size) STACK_SIZE t payload in
      PlatformCtx (b + page_size) STACK_SIZE sp pc regs).
Proof.
  intros [(s & q & Es & Eq & Hlock & R) HT] Hr. specialize (Hr s Es). set (Rs := stack_of <$> ts) in *.
  destruct (arena_of_some c s Es) as (Ea & Em & Ems & _). destruct stack_len_bound as [Hsl Esl].
  destruct (create_record r Rs s L fn kid uc (RI_heap _ _ _ _ _ R) Hr) as
    (t & kt & s1 & b & E1 & Ht0 & Ht & Hkt & E2 & Eb & Ho3 & HK3 & Hrec & Hr3 & Hsid & Hfresh).
  unfold task_create. rewrite Es. cbn [mbind option_bind]. rewrite E1. cbn [mbind option_bind].
  destruct (Z.eqb_spec t NULL) as [?|_]; [done|]. cbn [negb c_assert mbind option_bind].
  set (s2 := put (put (put (put s1 _ _) _ _) _ _) _ _) in *. unfold alloc_memory. rewrite E2, Esl, Eb. cbn [mbind option_bind].
  set (s3 := put (AState (zero_region (mm s2) b (align_page stack_len)) _ (ar s2)) _ _) in *.
  rewrite (proj1 Hrec), (proj2 Hrec).
  destruct (makecontext (b + page_size) STACK_SIZE t payload) as [[sp pc] regs] eqn:Emk.
  set (L1 := <[t := kt]> L) in *. assert (L1 !! t = Some kt) as Lt by apply lookup_insert_eq.
  assert (L ⊆ L1) as Hsub by (by apply insert_subseteq).
  pose (HS := reserved_spec ((b, b + align_page stack_len) :: Rs)).
  assert (@RInv _ _ HS o_task_gcq s3 (gcq_head q) L1 ts.*1) as R3.
  { apply (RInv_respec (reserved_spec Rs)); [|exact Ho3]. eapply (RInv_kept (HS := reserved_spec Rs)); [exact R|done| |done|exact HK3].
    apply (reserved_ok_drop [] Rs (b, b + align_page stack_len)), Ho3. }
  assert (forall n' t', (n', t') ∈ ts.*1 -> L !! n' <> None /\ L !! t' <> None) as Hold.
  { intros n' t' Hin. destruct (RI_node _ _ _ _ _ R _ _ Hin) as (j & Hj & _), (RI_task _ _ _ _ _ R _ _ Hin) as ((j' & Hj' & _) & _). by rewrite Hj, Hj'. }
  assert (t ∉ ts.*1.*1 /\ t ∉ ts.*1.*2) as [Nt1 Nt2].
  { split; [intros [t' Hin]%in_fst|intros [n' Hin]%in_snd]; by destruct (Hold _ _ Hin). }
  destruct (safe_gcq_push_ok o_task_gcq ltac:(done) s3 q L1 ts.*1 t kt R3 Hlock Hr3 Lt) as
    (s4 & q' & n & kn & E4 & Hlock' & Hn & Hkn & R4 & HF & Hr4); [tko; lia|done|done|].
  set (L2 := <[n := kn]> L1) in *. assert (n <> t) as Hnt by congruence.
  assert (L2 !! t = Some kt) as Lt2 by (unfold L2; by rewrite lookup_insert_ne).
  exists t. eexists _, n, b, kt, kn. split.
  { unfold gc_register_root, with_arena. cbn [roots g_mem g_maps global_arena arenas g_tasks]. rewrite Eq. cbn [mbind option_bind].
    destruct (Z.eqb_spec t NULL) as [?|_]; [done|]. cbn [negb c_assert mbind option_bind].
    change (AState (mm s3) (maps s3) (ar s3)) with s3. rewrite E4. cbn [mbind option_bind]. done. }
  split; [done|]. split; [done|]. cbn [g_mem g_tasks g_maps].
  assert (forall n' t' b', (n', t', b') ∈ ts -> record_at (mm s4) t' b') as Hrec'.
  { intros n' t' b' Hin. destruct (HT _ _ _ Hin) as ((k & Hk & ?) & [Q1 Q2] & _). destruct (ts_fst_snd _ _ _ _ Hin) as [_ Hin2].
    eapply (record_frame (HS := HS) L1 s3 ts.*1 (mm s3) (mm s4) t' b' k t kt); try done; try lia.
    - by eapply lookup_weaken.
    - intros [t'' Hin']%in_fst. apply in_snd in Hin2 as [n'' Hin2]. by apply (RI_sep _ _ _ _ _ R t' t'' n'' t').
    - split; (rewrite (HK3 t' k); [rewrite <- Em; done|done|tko; lia]). }
  split_and!.
  - split; cbn [g_mem g_tasks].
    + exists s4, q'. cbn [arena_of global_arena g_mem g_maps mbind option_bind roots]. split_and!; try done. by destruct s4.
    + intros n' t' b' [[= -> -> ->]|Hin]%elem_of_cons.
      * split; [exists kt; split; [done|lia]|]. split.
        -- eapply (record_frame (HS := HS) L1 s3 ts.*1 (mm s3) (mm s4) t b kt t kt); try done; lia.
        -- do 2 eexists. split; [apply lookup_insert_eq|done].
      * destruct (HT _ _ _ Hin) as ((k & Hk & ?) & _ & st' & ctx & Hc & ? & ?). assert (t' <> t) by congruence.
        split; [exists k; split; [|lia]; unfold L2, L1; rewrite !lookup_insert_ne; [done|done|]; intros <-; unfold L1 in Hn; rewrite lookup_insert_ne in Hn; congruence|].
        split; [by eapply Hrec'|]. exists st', ctx. split; [|done]. by rewrite lookup_insert_ne.
  - intros p k x Hp Hpn Hx. assert (p <> t) by congruence. etrans; [apply (HF p k x); try done|].
    + by eapply lookup_weaken.
    + apply (@block_words _ _ HS s3 L1 p k t kt); try done; [by eapply lookup_weaken|tko; lia].
    + rewrite Em. by apply (HK3 p k).
  - intros x Hx. rewrite Ems. by apply Hfresh.
  - cbn [arena_of global_arena g_mem g_maps mbind option_bind]. intros s' [= <-]. by destruct s4.
  - etrans; [apply (HF t kt); try done; tko; lia|exact Hsid].
  - eexists. rewrite lookup_insert_eq, Emk. done.
Qed.

(** A ring survives the release of a block it does not use. *)
Lemma RInv_release `{HS : HeapSpec Hp} (off : Z) (h h' : Hp) (hd : Z) (L : gmap Z Z) (ns : list (Z * Z)) (t : Z) :
  RInv off h hd L ns -> 0 <= off -> h_ok h' (delete t L) -> t ∉ ns.*1 -> t ∉ ns.*2 ->
  blocks_kept (delete t L) (h_mem h) (h_mem h') -> RInv off h' hd (delete t L) ns.
Proof using Type.
  clear makecontext. intros R Hoff Ho N1 N2 HK. eapply RInv_frame; [exact R|exact Ho| |].
  - intros p Hp'. apply lookup_delete_ne. intros <-. tauto.
  - intros z Hz. destruct (rword_block off Hoff _ _ _ _ _ R Hz) as (p & k & Hk & Hz' & Hin). apply (HK p k); [|done].
    rewrite lookup_delete_ne; [done|]. intros <-. tauto.
Qed.

(** The members of a ring other than [t] do not share its block. *)
Lemma ring_others `{HS : HeapSpec Hp} (off : Z) (h : Hp) (hd : Z) (L : gmap Z Z) (l1 l2 : list (Z * Z)) (n t : Z) :
  RInv off h hd L (l1 ++ (n, t) :: l2) -> t ∉ (l1 ++ (n, t) :: l2).*1 /\ t ∉ (l1 ++ l2).*2 /\ n ∉ (l1 ++ l2).*1 /\ n ∉ (l1 ++ l2).*2.
Proof using Type.
  clear makecontext. intros R. assert ((n, t) ∈ l1 ++ (n, t) :: l2) as Hin by (rewrite elem_of_app, elem_of_cons; tauto).
  pose proof (RI_tasks _ _ _ _ _ R) as D2. pose proof (RI_nodup _ _ _ _ _ R) as D1. rewrite fmap_app in D1, D2. cbn in D1, D2.
  apply NoDup_app_cons_middle in D1 as (_ & ? & ?), D2 as (_ & ? & ?). split_and!.
  - intros [t' Hin']%in_fst. by apply (RI_sep _ _ _ _ _ R t t' n t).
  - rewrite fmap_app, elem_of_app. tauto.
  - rewrite fmap_app, elem_of_app. tauto.
  - intros [n' Hin']%in_snd. apply (RI_sep _ _ _ _ _ R n t n' n); [done| |done].
    rewrite elem_of_app, elem_of_cons in *. tauto.
Qed.

Lemma task_destroy_ok (c : collector) (L : gmap Z Z) (l1 l2 : list (Z * Z * Z)) (n t b : Z) :
  TInv c L (l1 ++ (n, t, b) :: l2) ->
  if decide (l1 ++ l2 = []) then task_destroy c t = None
  else exists c', task_destroy c t = Some c' /\ TInv c' (delete t (delete n L)) (l1 ++ l2) /\
    (forall p k x, delete t (delete n L) !! p = Some k -> p ∉ (l1 ++ l2).*1.*1 -> p <= x < p + k -> ld (g_mem c') x = ld (g_mem c) x) /\
    (forall x, b <= x < b + align_page stack_len -> ~ mapped (g_maps c') x).
Proof.
  clear makecontext. intros [(s & q & Es & Eq & Hlock & R) HT]. destruct (arena_of_some c s Es) as (Ea & Em & Ems & Est).
  destruct stack_len_bound as [Hsl Esl]. set (R1 := stack_of <$> l1). set (R2 := stack_of <$> l2).
  set (r := (b, b + align_page stack_len)). rewrite fmap_app in R. cbn [fmap list_fmap] in R. fold R1 R2 in R.
  change (stack_of (n, t, b)) with r in R. pose (HS := reserved_spec (R1 ++ r :: R2)).
  rewrite fmap_app in R. cbn [fmap list_fmap fst] in R.
  assert ((n, t, b) ∈ l1 ++ (n, t, b) :: l2) as Hin by (rewrite elem_of_app, elem_of_cons; tauto).
  destruct (HT n t b Hin) as ((kt & Ht & Hkt) & Hrec & _).
  destruct (ring_others (HS := HS) _ _ _ _ _ _ _ _ R) as (Nt1 & Nt2 & Nn1 & Nn2).
  destruct (@h_block _ _ HS s L t kt (RI_heap _ _ _ _ _ R) Ht) as [Ht0 _].
  assert (t <> n) as Htn by (intros ->; apply Nt1; rewrite fmap_app, elem_of_app; right; by left).
  pose proof (safe_gcq_remove_ok o_task_gcq ltac:(done) s q L _ _ n t R Hlock) as HRm.
  unfold task_destroy. destruct (Z.eqb_spec t NULL) as [?|_]; [lia|].
  unfold gc_unregister_root. rewrite Eq. cbn [mbind option_bind].
  destruct (Z.eqb_spec t NULL) as [?|_]; [lia|]. cbn [negb c_assert mbind option_bind]. rewrite Ea. cbn [mbind option_bind].
  rewrite Est, <- fmap_app in *. destruct (decide (l1 ++ l2 = [])) as [He|He].
  { rewrite decide_True in HRm by (by rewrite He). by rewrite HRm. }
  rewrite decide_False in HRm by (intros He'%fmap_nil_inv; done).
  destruct HRm as (s1 & q' & E1 & Hlock' & R1' & HF). rewrite E1. cbn [mbind option_bind].
  set (L1 := delete n L) in *. assert (L1 !! t = Some kt) as Lt1 by (unfold L1; by rewrite lookup_delete_ne).
  assert (forall t' k' b', L !! t' = Some k' -> sizeof_task <= k' -> t' ∉ (l1.*1 ++ (n, t) :: l2.*1).*1 ->
    record_at (g_mem c) t' b' -> record_at (mm s1) t' b') as Hrec1.
  { intros t' k' b' Ht' Hk' Hn' Hr'. rewrite Em in Hr'.
    eapply (record_frame (HS := HS) L s (l1.*1 ++ (n, t) :: l2.*1) (mm s) (mm s1) t' b' k' t kt); try done; [apply R|lia]. }
  destruct (Hrec1 t kt b Ht ltac:(lia) Nt1 Hrec) as [W1 W2].
  cbn [arena_of global_arena g_mem g_maps mbind option_bind mm maps]. rewrite W1, W2, Esl.
  replace (b + page_size - page_size) with b by lia.
  destruct (unreserve_ok R1 R2 s1 L1 b stack_len (RI_heap _ _ _ _ _ R1') Hsl) as [Ho2 Hgone].
  pose (HS2 := reserved_spec (R1 ++ R2)). replace (AState (mm s1) (maps s1) (ar s1)) with s1 by (by destruct s1).
  set (s2 := with_maps s1 (sys_munmap (maps s1) b stack_len)) in *.
  assert (@RInv _ _ HS2 o_task_gcq s2 (gcq_head q') L1 (l1 ++ l2).*1) as R2'.
  { eapply (RInv_kept (HS := HS2) o_task_gcq s1); [|done|exact Ho2|done|apply blocks_kept_refl].
    apply (RInv_respec HS); [exact R1'|]. by eapply reserved_ok_drop, (RI_heap _ _ _ _ _ R1'). }
  destruct (@h_free_spec _ _ HS2 s2 L1 t kt Ho2 Lt1) as (s3 & E3 & Ho3 & HK3 & _); [lia|]. rewrite E3. cbn [mbind option_bind].
  assert (maps s3 = maps s2) as Em3.
  { destruct Ho2 as (M & HR & _). apply (release_os s2 s3 t); [exact E3|]. by eapply repr_size; [exact HR|exact Lt1|lia]. }
  assert (forall p k x, delete t L1 !! p = Some k -> p ∉ (l1 ++ l2).*1.*1 -> p <= x < p + k -> ld (mm s3) x = ld (mm s) x) as Hfr.
  { intros p k x Hp Hn Hx. etrans; [by apply (HK3 p k)|]. apply lookup_delete_Some in Hp as [Hpt [Hpn Hp]%lookup_delete_Some].
    apply (HF p k x Hp); [|done|].
    - rewrite !fmap_app in *. cbn. rewrite elem_of_app, elem_of_cons in *. intuition congruence.
    - apply (@block_words _ _ HS s L p k t kt); try done; [apply R|tko; lia]. }
  eexists. split; [done|]. cbn [with_arena g_mem g_maps]. rewrite Em. split_and!; [|exact Hfr|by rewrite Em3].
  assert (forall n' t' b', (n', t', b') ∈ l1 ++ l2 -> (n', t', b') ∈ l1 ++ (n, t, b) :: l2 /\ n' <> t /\ t' <> t /\ t' <> n /\ t' ∉ (l1 ++ l2).*1.*1) as Hoth.
  { intros n' t' b' Hin'. destruct (ts_fst_snd _ _ _ _ Hin') as [F1 F2]. split_and!.
    - rewrite elem_of_app, elem_of_cons in *. tauto.
    - intros ->. apply Nt1. rewrite fmap_app in F1. rewrite !fmap_app in *. cbn. rewrite elem_of_app, elem_of_cons in *. tauto.
    - intros ->. done.
    - intros ->. done.
    - intros [t'' Hx]%in_fst. apply in_snd in F2 as [n'' F2]. by apply (RI_sep _ _ _ _ _ R2' t' t'' n'' t'). }
  split; cbn [with_arena g_mem g_maps g_tasks].
  - exists s3, q'. cbn [arena_of with_arena global_arena g_mem g_maps mbind option_bind roots]. split_and!; try done; [by destruct s3|].
    rewrite fmap_app. fold R1 R2. apply (RInv_release (HS := HS2) o_task_gcq s2 s3); try done.
    intros Hx. apply Nt1. rewrite fmap_app in *. cbn. rewrite !fmap_app in *. rewrite elem_of_app, elem_of_cons in *. tauto.
  - intros n' t' b' Hin'. destruct (Hoth _ _ _ Hin') as (Hin2 & ? & ? & ? & Hnn). destruct (HT _ _ _ Hin2) as ((k & Hk & ?) & [Q1 Q2] & Hctx).
    assert (delete t L1 !! t' = Some k) as Hk' by (unfold L1; by rewrite !lookup_delete_ne).
    split; [eauto|]. split; [|done]. rewrite Em in Q1, Q2. split; (rewrite (Hfr t' k); [done|done|done|tko; lia]).
Qed.
End table.
