(* ===== verification/ThreadSpec.v ===== *)
(** * ThreadSpec: starting a task

    [thread] composes the payload, the record and stack of the task, the
    ring of roots and a ready queue.  Each is proved against the heap
    contract; the invariant of the runtime keeps their blocks apart. *)

From S2P Require Import Prelude Mem Dll Alloc AllocOs AllocMain AllocRoom AllocSpec Heap Queue QueueSpec RingSpec.
From S2P Require Import Gc GcCollect Reserve Tasks TaskSpec.

Section moves.
Context `{OSLaws}.

Ltac tko := unfold sizeof_task, o_task_gcq, o_task_state, o_task_stack, o_task_fn, o_task_sched_id, o_task_stack_size, o_task_uc, o_task_id in *.

(** A queue survives while the blocks of its nodes do. *)
Lemma QInv_move (HS1 HS2 : HeapSpec astate) (s s' : astate) (q : safe_queue) (L L' : gmap Z Z) (qs : list (Z * Z)) :
  @QInv _ _ HS1 s q L qs -> @h_ok _ _ HS2 s' L' -> (forall n, n ∈ qs.*1 -> L' !! n = L !! n) ->
  (forall n k x, n ∈ qs.*1 -> L !! n = Some k -> n <= x < n + k -> ld (mm s') x = ld (mm s) x) ->
  @QInv _ _ HS2 s' q L' qs.
Proof.
  intros Q Ho HL HW.
  assert (forall n t, (n, t) ∈ qs -> n ∈ qs.*1) as Hf by (intros n t Hn; apply list_elem_of_fmap; by exists (n, t)).
  split; try done; try apply Q.
  - eapply seg_frame; [|apply Q]. intros n t Hn. destruct (QI_live _ _ _ _ Q n t Hn) as (k & Hk & ?).
    split; apply (HW n k); eauto; unfold o_node_t, o_node_next; lia.
  - intros n t Hn. rewrite HL by eauto. by apply (QI_live _ _ _ _ Q n t).
Qed.

(** The words of a record that the table of tasks depends on. *)
Definition task_word (o : Z) : Prop := o = o_task_gcq \/ o = o_task_stack \/ o = o_task_stack_size.

(** The table of tasks survives while the blocks of its nodes and these
    words of its records do. *)
Lemma TInv_move (c : collector) (s s' : astate) (L L' : gmap Z Z) (ts : list (Z * Z * Z)) :
  TInv c L ts -> arena_of c = Some s -> reserved_ok (stack_of <$> ts) s' L' ->
  (forall p, p ∈ ts.*1.*1 \/ p ∈ ts.*1.*2 -> L' !! p = L !! p) ->
  (forall p k x, p ∈ ts.*1.*1 -> L !! p = Some k -> p <= x < p + k -> ld (mm s') x = ld (mm s) x) ->
  (forall t o, t ∈ ts.*1.*2 -> task_word o -> ld (mm s') (t + o) = ld (mm s) (t + o)) ->
  TInv (with_arena c s') L' ts.
Proof.
  intros [(s0 & q & Es & Eq & Hlock & R) HT] Es' Ho HL HN HW. assert (s0 = s) as -> by congruence.
  destruct (arena_of_some c s Es) as (_ & Em & _). pose (HS := reserved_spec (stack_of <$> ts)).
  split; cbn [with_arena g_mem g_tasks roots].
  - exists s', q. split; [by destruct s'|]. split_and!; try done.
    eapply (RInv_frame o_task_gcq); [exact R|exact Ho|done|].
    intros z Hz. destruct (rword_block o_task_gcq ltac:(done) _ _ _ _ _ R Hz) as (p & k & Hk & Hz' & [[Hin _]|[Hin ->]]).
    + by apply (HN p k).
    + apply HW; [done|by left].
  - intros n t b Hin. destruct (HT n t b Hin) as (Hlive & [W1 W2] & Hctx). destruct (ts_fst_snd _ _ _ _ Hin) as [_ Ht].
    split; [rewrite HL by auto; done|]. split; [|done]. rewrite Em in W1, W2. split; rewrite HW; unfold task_word; auto.
Qed.

(** The three words lie in the record. *)
Lemma task_word_in (c : collector) (L : gmap Z Z) (ts : list (Z * Z * Z)) (t o : Z) : TInv c L ts -> t ∈ ts.*1.*2 -> task_word o ->
  exists k, L !! t = Some k /\ t <= t + o < t + k /\ sizeof_task <= k.
Proof.
  intros [_ HT] [n Hin]%in_snd Ho. apply list_elem_of_fmap in Hin as ([[n' t'] b] & E & Hin). cbn in E. injection E as <- <-.
  destruct (HT n t b Hin) as ((k & Hk & ?) & _). exists k. split; [done|]. destruct Ho as [->|[->| ->]]; tko; lia.
Qed.
End moves.

Section thread.
Context `{OSLaws} {Ffi : FFI} {HFfi : FFILaws}.
Context (makecontext : Z -> Z -> Z -> Z -> Z * Z * (Z -> Z)).

Ltac tko := unfold sizeof_task, o_task_gcq, o_task_state, o_task_stack, o_task_fn, o_task_sched_id, o_task_stack_size, o_task_uc, o_task_id in *.

(** The runtime: tasks [ts], and [qss] in the ready queues; the nodes of
    the queues are blocks of their own. *)
Record RTInv (rt : runtime) (L : gmap Z Z) (ts : list (Z * Z * Z)) (qss : list (list (Z * Z))) : Prop := {
  RT_tasks : TInv (rt_gc rt) L ts;
  RT_len : length (ready_qs rt) = length qss;
  RT_queue : forall s i q qs, arena_of (rt_gc rt) = Some s -> ready_qs rt !! i = Some q -> qss !! i = Some qs ->
    @QInv _ _ (reserved_spec (stack_of <$> ts)) s q L qs;
  RT_sep : forall i qs n, qss !! i = Some qs -> n ∈ qs.*1 -> n ∉ ts.*1.*1 /\ n ∉ ts.*1.*2;
  RT_apart : forall i j qs qs' n, qss !! i = Some qs -> qss !! j = Some qs' -> i <> j -> n ∈ qs.*1 -> n ∉ qs'.*1
}.

(** Every block named in the invariant is live. *)
Lemma RT_node_live (rt : runtime) (L : gmap Z Z) (ts : list (Z * Z * Z)) (qss : list (list (Z * Z))) (i : nat) (qs : list (Z * Z)) (n : Z) :
  RTInv rt L ts qss -> qss !! i = Some qs -> n ∈ qs.*1 -> is_Some (L !! n).
Proof using Type.
  intros RT Hi [t Hn]%in_fst. destruct (T_ring _ _ _ (RT_tasks _ _ _ _ RT)) as (s & q0 & Es & _).
  destruct (lookup_lt_is_Some_2 (ready_qs rt) i) as [q Hq].
  { rewrite (RT_len _ _ _ _ RT). by eapply lookup_lt_Some. }
  destruct (QI_live _ _ _ _ (RT_queue _ _ _ _ RT s i q qs Es Hq Hi) n t Hn) as (k & Hk & _). by exists k.
Qed.

Lemma T_live (c : collector) (L : gmap Z Z) (ts : list (Z * Z * Z)) (p : Z) :
  TInv c L ts -> p ∈ ts.*1.*1 \/ p ∈ ts.*1.*2 -> is_Some (L !! p).
Proof using Type.
  intros [(s & q & _ & _ & _ & R) _] [[t Hin]%in_fst|[n Hin]%in_snd].
  - destruct (RI_node _ _ _ _ _ R _ _ Hin) as (k & ? & _). eauto.
  - destruct (RI_task _ _ _ _ _ R _ _ Hin) as ((k & ? & _) & _). eauto.
Qed.

Lemma T_arena (c : collector) (L : gmap Z Z) (ts : list (Z * Z * Z)) (s : astate) :
  TInv c L ts -> arena_of c = Some s -> reserved_ok (stack_of <$> ts) s L.
Proof using Type. intros [(s' & q & Es & _ & _ & R) _] Es'. assert (s' = s) as -> by congruence. apply R. Qed.

(** The new word [id] of the record. *)
Lemma T_put_id (c : collector) (L : gmap Z Z) (ts : list (Z * Z * Z)) (s : astate) (n t b v : Z) :
  TInv c L ((n, t, b) :: ts) -> arena_of c = Some s -> TInv (with_arena c (put s (t + o_task_id) v)) L ((n, t, b) :: ts) /\
  (forall p k x, L !! p = Some k -> p <> t -> p <= x < p + k -> ld (mm (put s (t + o_task_id) v)) x = ld (mm s) x).
Proof using Type.
  intros T Es. pose proof (T_arena _ _ _ _ T Es) as Ho. destruct (T_task _ _ _ T n t b ltac:(by left)) as ((k & Hk & ?) & _).
  pose (HS := reserved_spec (stack_of <$> (n, t, b) :: ts)).
  assert (forall p j x, L !! p = Some j -> (p = t -> x <> t + o_task_id) -> p <= x < p + j -> ld (mm (put s (t + o_task_id) v)) x = ld (mm s) x) as F.
  { intros p j x Hp Hne Hx. apply (@put_other _ _ HS s L t k p j); try done; [tko; lia|]. intros E. apply Hne. done. }
  split; [|intros p j x Hp Hne Hx; by apply (F p j)].
  eapply TInv_move; [exact T|exact Es| |done| |].
  - eapply (@h_write _ _ HS); [exact Ho|exact Hk|tko; lia].
  - intros p j x Hp Hj Hx. apply (F p j); [done| |done]. intros ->. exfalso.
    destruct T as [(s' & q & _ & _ & _ & R) _]. apply in_fst in Hp as [t' Hp]. by apply (RI_sep _ _ _ _ _ R t t' n t); [|by left|].
  - intros t' o Ht' Hto. destruct (task_word_in c L _ t' o T Ht' Hto) as (j & Hj & Hx & _). apply (F t' j); [done| |done].
    intros ->. destruct Hto as [->|[->| ->]]; tko; lia.
Qed.

(** Pushing a task on a ready queue. *)
Lemma push_rt_ok (rt : runtime) (s : astate) (L : gmap Z Z) (ts : list (Z * Z * Z)) (qss : list (list (Z * Z))) (kid : nat) (q : safe_queue)
    (qs : list (Z * Z)) (t cnt : Z) :
  RTInv rt L ts qss -> arena_of (rt_gc rt) = Some s -> arena_room s 1 -> ready_qs rt !! kid = Some q -> qss !! kid = Some qs ->
  exists s' q' m k, safe_q_push s q t = Some (s', q') /\ L !! m = None /\
    RTInv (Runtime (with_arena (rt_gc rt) s') (<[kid := q']> (ready_qs rt)) cnt) (<[m := k]> L) ts (<[kid := qs ++ [(m, t)]]> qss) /\
    (forall p j x, L !! p = Some j -> p ∉ qs.*1 -> p <= x < p + j -> ld (mm s') x = ld (mm s) x).
Proof using Type.
  clear makecontext. intros RT Es Hr Hq Hqs. pose (HS := reserved_spec (stack_of <$> ts)). pose proof (RT_tasks _ _ _ _ RT) as T.
  destruct (@safe_q_push_ok _ _ HS s q L qs t (RT_queue _ _ _ _ RT s kid q qs Es Hq Hqs) Hr) as (s' & q' & m & k & E & Hm & Q' & HF').
  exists s', q', m, k. split_and!; try done. set (L' := <[m := k]> L) in *.
  assert (L ⊆ L') as HLL by (by apply insert_subseteq).
  assert (forall p, p ∈ ts.*1.*1 \/ p ∈ ts.*1.*2 -> p ∉ qs.*1) as Hnq.
  { intros p Hp Hin. destruct (RT_sep _ _ _ _ RT kid qs p Hqs Hin). tauto. }
  assert (forall y i qsi, qss !! i = Some qsi -> y ∈ qsi.*1 -> y <> m) as Hym.
  { intros y i qsi Hi Hy. destruct (RT_node_live _ _ _ _ _ _ _ RT Hi Hy) as [j Hj]. congruence. }
  assert (forall i qi, <[kid := qs ++ [(m, t)]]> qss !! i = Some qi -> exists qo, qss !! i = Some qo /\
    forall y, y ∈ qi.*1 -> y ∈ qo.*1 \/ (y = m /\ i = kid)) as Hold.
  { intros i qi Hi. destruct (decide (i = kid)) as [->|Hne].
    - rewrite list_lookup_insert_eq in Hi by (by eapply lookup_lt_Some). injection Hi as <-. exists qs. split; [done|].
      intros y. rewrite fmap_app, elem_of_app. intros [?|Hy]; [auto|]. apply list_elem_of_singleton in Hy as ->. auto.
    - rewrite list_lookup_insert_ne in Hi by done. exists qi. auto. }
  split; cbn [rt_gc ready_qs].
  - eapply TInv_move; [exact T|exact Es|apply Q'| | |].
    + intros p Hp. destruct (T_live _ _ _ p T Hp) as [j Hj]. rewrite Hj. by eapply lookup_weaken.
    + intros p j x Hp Hj Hx. apply (HF' p j); [done|by apply Hnq; left|done].
    + intros t' o Ht' Hto. destruct (task_word_in _ _ _ t' o T Ht' Hto) as (j & Hj & Hx & _). apply (HF' t' j); [done|by apply Hnq; right|done].
  - by rewrite !length_insert, (RT_len _ _ _ _ RT).
  - intros s1 i qi qsi Es1 Hi Hsi. assert (s1 = s') as -> by (destruct s'; cbn in Es1; congruence).
    destruct (decide (i = kid)) as [->|Hne].
    + rewrite list_lookup_insert_eq in Hi by (by eapply lookup_lt_Some). rewrite list_lookup_insert_eq in Hsi by (by eapply lookup_lt_Some). by simplify_eq.
    + rewrite list_lookup_insert_ne in Hi by done. rewrite list_lookup_insert_ne in Hsi by done.
      eapply (QInv_move HS HS s); [by eapply (RT_queue _ _ _ _ RT)|apply Q'| |].
      * intros y Hy. apply lookup_insert_ne, not_eq_sym. by eapply Hym.
      * intros y j x Hy Hj Hx. apply (HF' y j); [done| |done]. by eapply (RT_apart _ _ _ _ RT i kid).
  - intros i qsi y Hi Hy. destruct (Hold i qsi Hi) as (qo & Hqo & Hin). destruct (Hin y Hy) as [Hy'|[-> _]].
    + by apply (RT_sep _ _ _ _ RT i qo).
    + split; intros Hp; destruct (T_live _ _ _ m T) as [j Hj]; try tauto; congruence.
  - intros i j qi qj y Hi Hj Hij Hy. destruct (Hold i qi Hi) as (qo & Hqo & Hqi), (Hold j qj Hj) as (qo' & Hqo' & Hqj). intros Hy'.
    destruct (Hqi y Hy) as [Hy1|[Em Ei]], (Hqj y Hy') as [Hy2|[Ey Ej]].
    + by apply (RT_apart _ _ _ _ RT i j qo qo' y).
    + by apply (Hym y i qo Hqo Hy1).
    + by apply (Hym y j qo' Hqo' Hy2).
    + congruence.
Qed.

(** A new task in the ring of roots, on blocks that were not live. *)
Lemma new_task_rt_ok (rt : runtime) (c : collector) (s s0 : astate) (L0 L : gmap Z Z) (ts : list (Z * Z * Z)) (n t b : Z)
    (qss : list (list (Z * Z))) (cnt : Z) :
  RTInv rt L0 ts qss -> arena_of (rt_gc rt) = Some s0 -> L0 ⊆ L -> L0 !! n = None -> L0 !! t = None ->
  TInv c L ((n, t, b) :: ts) -> arena_of c = Some s ->
  (forall p k x, L0 !! p = Some k -> p ∉ ts.*1.*1 -> p <= x < p + k -> ld (mm s) x = ld (mm s0) x) ->
  RTInv (Runtime c (ready_qs rt) cnt) L ((n, t, b) :: ts) qss.
Proof using Type.
  clear makecontext. intros RT Es0 Hsub Hn Ht T Es HF. split; cbn [rt_gc ready_qs]; [done|apply RT| | |apply RT].
  - intros s1 i qi qsi Es1 Hi Hsi. assert (s1 = s) as -> by congruence.
    eapply (QInv_move (reserved_spec (stack_of <$> ts)) _ s0); [by eapply (RT_queue _ _ _ _ RT)|by eapply T_arena| |].
    + intros y Hy. destruct (RT_node_live _ _ _ _ _ _ _ RT Hsi Hy) as [k Hk]. rewrite Hk. by eapply lookup_weaken.
    + intros y k x Hy Hk Hx. apply (HF y k); [done| |done]. by destruct (RT_sep _ _ _ _ RT i qsi y Hsi Hy).
  - intros i qsi y Hi Hy. destruct (RT_sep _ _ _ _ RT i qsi y Hi Hy). destruct (RT_node_live _ _ _ _ _ _ _ RT Hi Hy) as [j Hj].
    cbn. rewrite !not_elem_of_cons. split_and!; congruence || done.
Qed.

Lemma thread_ok (rt : runtime) (L : gmap Z Z) (ts : list (Z * Z * Z)) (qss : list (list (Z * Z))) (fn : Z) (args : list Z) (r1 r2 uc : Z) :
  RTInv rt L ts qss -> Z.of_nat (length qss) = pool_size -> 0 <= r1 -> 8 * Z.of_nat (length args) <= REQUEST_MAX ->
  (forall s, arena_of (rt_gc rt) = Some s -> arena_room s (length args + 7)) ->
  exists t rt' payload D types values vals n b m kt kn km qs, let kid := Z.to_nat (r1 mod pool_size) in
    let L' := <[m := km]> (<[n := kn]> (<[t := kt]> (D ∪ L))) in
    thread makecontext rt fn args r1 r2 uc = Some (t, rt') /\ L ##ₘ D /\ (D ∪ L) !! t = None /\ <[t := kt]> (D ∪ L) !! n = None /\
    <[n := kn]> (<[t := kt]> (D ∪ L)) !! m = None /\
    qss !! kid = Some qs /\ RTInv rt' L' ((n, t, b) :: ts) (<[kid := qs ++ [(m, t)]]> qss) /\
    owned D payload types values vals /\ payload_at (g_mem (rt_gc rt')) payload fn types values vals args /\
    task_count rt' = swrap 32 (task_count rt + 1) /\
    (forall p k x, L !! p = Some k -> p ∉ ts.*1.*1 -> p ∉ qs.*1 -> p <= x < p + k -> ld (g_mem (rt_gc rt')) x = ld (g_mem (rt_gc rt)) x) /\
    (exists st, g_tasks (rt_gc rt') !! t = Some (st, let '(sp, pc, regs) := makecontext (b + page_size) STACK_SIZE t payload in
      PlatformCtx (b + page_size) STACK_SIZE sp pc regs)) /\
    ld (g_mem (rt_gc rt')) (t + o_task_sched_id) = r1 mod pool_size /\
    (forall s, arena_of (rt_gc rt) = Some s -> exists s1, thread_payload s fn args = Some (payload, s1)).
Proof.
  intros RT Hlen Hr1 Hmax Hroom. destruct (T_ring _ _ _ (RT_tasks _ _ _ _ RT)) as (s0 & q0 & Es0 & _).
  specialize (Hroom s0 Es0). pose (HS := reserved_spec (stack_of <$> ts)). pose proof (T_arena _ _ _ _ (RT_tasks _ _ _ _ RT) Es0) as Ho0.
  destruct (thread_payload_ok (HFfi := HFfi) (H1 := HS) s0 L fn args 4 Hmax Ho0) as
    (payload & s1 & D & types & values & vals & E1 & Hd & Ho1 & HW & HP & HK1 & Hr4).
  { by replace (S (S (S (length args + 4)))) with (length args + 7)%nat by lia. }
  set (L1 := D ∪ L) in *. assert (L ⊆ L1) as Hs1 by (by apply map_union_subseteq_r).
  set (c1 := with_arena (rt_gc rt) s1).
  assert (TInv c1 L1 ts) as T1.
  { eapply TInv_move; [apply RT|exact Es0|exact Ho1| | |].
    - intros p Hp. destruct (T_live _ _ _ p (RT_tasks _ _ _ _ RT) Hp) as [k Hk]. rewrite Hk. by eapply lookup_weaken.
    - intros p k x _ Hk Hx. by apply (HK1 p k).
    - intros t' o Ht' Hto. destruct (task_word_in _ _ _ t' o (RT_tasks _ _ _ _ RT) Ht' Hto) as (j & Hj & Hx & _). by apply (HK1 t' j). }
  assert (arena_of c1 = Some s1) as Es1 by (by destruct s1).
  set (kid := Z.to_nat (r1 mod pool_size)). assert (0 <= r1 mod pool_size < pool_size) as Hkid by (apply Z.mod_pos_bound; done).
  destruct (task_create_ok makecontext 1 c1 L1 ts fn payload (r1 mod pool_size) uc T1) as
    (t & c2 & n & b & kt & kn & E2 & Ht & Hn & T2 & HF2 & _ & Hr2 & Hsid & st & Hctx).
  { intros s' Es'. assert (s' = s1) as -> by congruence. exact Hr4. }
  set (L2 := <[n := kn]> (<[t := kt]> L1)) in *.
  assert (n <> t /\ L1 !! n = None) as [Hnt Hn1] by (apply lookup_insert_None in Hn; intuition congruence).
  assert (L1 ⊆ L2) as Hs2.
  { etrans; [by apply (insert_subseteq L1 t kt)|by apply insert_subseteq]. }
  destruct (T_ring _ _ _ T2) as (s2 & q2 & Es2 & _). destruct (arena_of_some c2 s2 Es2) as (_ & Em2 & _ & _).
  destruct (T_put_id c2 L2 ts s2 n t b r2 T2 Es2) as [T3 HF3]. set (s3 := put s2 (t + o_task_id) r2) in *.
  assert (forall p, is_Some (L1 !! p) -> p <> t) as Hpt by (intros p [k Hk] ->; congruence).
  destruct (lookup_lt_is_Some_2 (ready_qs rt) kid) as [q Hq]; [rewrite (RT_len _ _ _ _ RT); unfold kid; lia|].
  destruct (lookup_lt_is_Some_2 qss kid) as [qs Hqs]; [unfold kid; lia|].
  assert (forall p k x, L !! p = Some k -> p ∉ ts.*1.*1 -> p <= x < p + k -> ld (mm s3) x = ld (mm s0) x) as HF0.
  { intros p k x Hp Hpn Hx. assert (L1 !! p = Some k) as Hp1 by (by eapply lookup_weaken).
    assert (L2 !! p = Some k) as Hp2 by (by eapply lookup_weaken).
    rewrite (HF3 p k) by eauto. rewrite <- Em2, (HF2 p k) by done. change (g_mem c1) with (mm s1). by apply (HK1 p k). }
  assert (arena_of (with_arena c2 s3) = Some s3) as Es3 by (by destruct s3).
  pose proof (new_task_rt_ok rt (with_arena c2 s3) s3 s0 L L2 ts n t b qss (task_count rt) RT Es0 ltac:(by etrans)
    ltac:(by eapply lookup_weaken_None) ltac:(by eapply lookup_weaken_None) T3 Es3 HF0) as RT2.
  destruct (push_rt_ok _ s3 L2 _ qss kid q qs t (swrap 32 (task_count rt + 1)) RT2 Es3 (Hr2 s2 Es2) Hq Hqs) as (s4 & q' & m & km & E4 & Hm & RT' & HF4).
  exists t. eexists. exists payload, D, types, values, vals, n, b, m, kt, kn, km, qs. cbv zeta. fold kid. fold L1. fold L2. split.
  { unfold thread. rewrite Es0. cbn [mbind option_bind]. rewrite E1. cbn [mbind option_bind]. rewrite Z.rem_mod_nonneg by done.
    fold c1. rewrite E2. cbn [mbind option_bind]. rewrite Es2. cbn [mbind option_bind]. fold s3.
    unfold arr_get. destruct (Z.leb_spec 0 (r1 mod pool_size)); [|lia]. fold kid. rewrite Hq. cbn [mbind option_bind].
    rewrite E4. cbn [mbind option_bind]. done. }
  assert (forall p k x, L1 !! p = Some k -> p ∉ ts.*1.*1 -> p ∉ qs.*1 -> p <= x < p + k -> ld (mm s4) x = ld (mm s1) x) as HF.
  { intros p k x Hp Hpt1 Hpq Hx. assert (L2 !! p = Some k) as Hp2 by (by eapply lookup_weaken).
    rewrite (HF4 p k), (HF3 p k) by eauto. rewrite <- Em2. by apply (HF2 p k). }
  destruct (arena_of_some _ _ Es0) as (_ & Em0 & _). assert (sizeof_task <= kt) as Hsz.
  { destruct (T_task _ _ _ T2 n t b ltac:(by left)) as ((k & Hk & ?) & _). unfold L2 in Hk. rewrite lookup_insert_ne, lookup_insert_eq in Hk by done. injection Hk as ->. lia. }
  split_and!; try done; [| |by exists st| |intros s' Es'; assert (s' = s0) as -> by congruence; eauto].
  2:{ intros p k x Hp Hpt1 Hpq Hx. cbn [rt_gc with_arena g_mem]. rewrite (HF p k), Em0; [by apply (HK1 p k)|by eapply lookup_weaken|done..]. }
  2:{ cbn [rt_gc with_arena g_mem]. assert (L2 !! t = Some kt) as Lt by (unfold L2; by rewrite lookup_insert_ne, lookup_insert_eq by done).
    rewrite (HF4 t kt); [|done| |tko; lia].
    - unfold s3. rewrite put_mm, ld_st_ne by (tko; lia). by rewrite <- Em2.
    - intros Hin. destruct (RT_node_live _ _ _ _ _ _ _ RT Hqs Hin) as [j Hj]. pose proof (lookup_weaken _ _ _ _ Hj Hs1). congruence. }
  eapply payload_at_kept; [exact HW|exact HP|]. cbn [rt_gc with_arena g_mem]. intros p k x Hp Hx.
  assert (L1 !! p = Some k) as Hp1 by (by apply lookup_union_Some_l).
  assert (L !! p = None) as Hp0 by (by eapply map_disjoint_Some_r). apply (HF p k); [done| | |done]; intros Hin.
  - destruct (T_live _ _ _ p (RT_tasks _ _ _ _ RT)) as [j Hj]; [auto|]. congruence.
  - destruct (RT_node_live _ _ _ _ _ _ _ RT Hqs Hin) as [j Hj]. congruence.
Qed.

(** What it does to the ready queues: one push. *)
Lemma thread_queues (rt rt' : runtime) (fn : Z) (args : list Z) (r1 r2 uc t : Z) : thread makecontext rt fn args r1 r2 uc = Some (t, rt') ->
  exists q q', let kid := Z.rem r1 pool_size in arr_get (ready_qs rt) kid = Some q /\ ready_qs rt' = <[Z.to_nat kid := q']> (ready_qs rt) /\
    q_cond q' = cond_signal (q_cond q).
Proof using Type.
  unfold thread. destruct (arena_of _) as [s|]; [|done]. cbn [mbind option_bind]. destruct (thread_payload _ _ _) as [[pl s1]|]; [|done]. cbn [mbind option_bind].
  destruct (task_create _ _ _ _ _ _) as [[t' c]|]; [|done]. cbn [mbind option_bind]. destruct (arena_of c) as [s2|]; [|done]. cbn [mbind option_bind].
  destruct (arr_get _ _) as [q|] eqn:Eq; [|done]. cbn [mbind option_bind]. destruct (safe_q_push _ _ _) as [[s3 q']|] eqn:Ep; [|done].
  intros [= <- <-]. exists q, q'. split_and!; try done. by eapply push_cond.
Qed.

(** A runtime without tasks. *)
Lemma idle_rt (rt : runtime) (s : astate) (L : gmap Z Z) (k : nat) : arena_of (rt_gc rt) = Some s -> reserved_ok [] s L ->
  (exists r, roots (rt_gc rt) = Some (safe_gcq_init r)) -> (exists n, ready_qs rt = replicate k (safe_q_init n)) ->
  RTInv rt L [] (replicate k []).
Proof using Type.
  intros Es Ho [r Er] [n Eq]. split.
  - split; [|by intros m t b Hin%elem_of_nil]. exists s, (safe_gcq_init r). split_and!; try done.
    by apply (@RInv_nil _ _ (reserved_spec [])).
  - by rewrite Eq, !length_replicate.
  - intros s' i q qs Es' Hq Hqs. assert (s' = s) as -> by congruence. rewrite Eq in Hq.
    apply lookup_replicate in Hq as [-> _]. apply lookup_replicate in Hqs as [-> _].
    split; try done; [apply NoDup_nil_2|]. by intros m t Hin%elem_of_nil.
  - intros i qs m [-> _]%lookup_replicate Hm. by apply elem_of_nil in Hm.
  - intros i j qs qs' m [-> _]%lookup_replicate _ _ Hm. by apply elem_of_nil in Hm.
Qed.
End thread.
