(* ===== verification/TaskThms.v ===== *)
(** * TaskThms: the life of a task

    The payload reaches the callee and is given back exactly; [thread] keeps
    the invariant of the runtime and hands the task to a ready queue;
    [task_destroy] takes it out again and unmaps its stack. *)

From S2P Require Import Prelude Mem Dll Alloc AllocOs AllocMain AllocRoom AllocSpec Heap Queue QueueSpec RingSpec.
From S2P Require Import Gc GcCollect Reserve Tasks TaskSpec ThreadSpec.

(** C15: what [thread] packs is what the task is called with, whatever
    happens in between.  With room for the blocks, [thread_payload] returns
    and owns new blocks [D], leaving all others alone.  In every later state
    in which the blocks of [D] are still live and unchanged, [ffi_call]
    calls the same function with the same arguments (also with none, where
    the two arrays are [NULL]); and if the function returns, having left the
    blocks of [D] alone, [task_trampoline] releases exactly them, marks the
    task finished and changes nothing else. *)
Theorem payload_roundtrip {Ffi : FFI} {HFfi : FFILaws} `{HeapSpec H} (h : H) (L : gmap Z Z) (fn : Z) (args : list Z) :
  8 * Z.of_nat (length args) <= REQUEST_MAX -> h_ok h L -> h_room h (length args + 3) ->
  exists payload h1 D, thread_payload h fn args = Some (payload, h1) /\ L ##ₘ D /\ h_ok h1 (D ∪ L) /\
    blocks_kept L (h_mem h) (h_mem h1) /\
    forall h2, blocks_kept D (h_mem h1) (h_mem h2) ->
      ffi_call h2 payload = (fn, args) /\
      forall call h3 L3 t kt, call h2 fn args = Some h3 -> h_ok h3 L3 -> D ⊆ L3 -> blocks_kept D (h_mem h2) (h_mem h3) ->
        L3 !! t = Some kt -> o_task_state + 8 <= kt -> D !! t = None ->
        exists h4, task_trampoline call h2 t payload = Some h4 /\ h_ok h4 (L3 ∖ D) /\
          blocks_kept (L3 ∖ D) (st (h_mem h3) (t + o_task_state) (state_word TASK_FINISHED)) (h_mem h4).
Proof.
  intros Hmax Ho Hr.
  destruct (thread_payload_ok h L fn args 0 Hmax Ho) as (payload & h1 & D & types & values & vals & E & Hd & Ho1 & HW & HP & HK & _).
  { by replace (S (S (S (length args + 0)))) with (length args + 3)%nat by lia. }
  exists payload, h1, D. split_and!; try done. intros h2 HK2.
  pose proof (payload_at_kept _ _ _ _ _ _ _ _ _ HW HP HK2) as HP2. pose proof (ffi_call_ok _ _ _ _ _ _ _ HP2) as Ec. split; [done|].
  intros call h3 L3 t kt E3 Ho3 Hsub HK3 Ht Hkt HtD. pose proof (payload_at_kept _ _ _ _ _ _ _ _ _ HW HP2 HK3) as HP3.
  destruct (task_finish_ok h3 L3 D payload fn types values vals args t kt) as (h4 & E4 & ? & ? & _); try done.
  exists h4. unfold task_trampoline. rewrite Ec, E3. eauto.
Qed.

Section life.
Context `{OSLaws} {Ffi : FFI} {HFfi : FFILaws}.
Context (makecontext : Z -> Z -> Z -> Z -> Z * Z * (Z -> Z)).

(** C14: [thread] starts a task.  From a runtime that satisfies its invariant
    (the ring of roots and every ready queue well formed on blocks of their
    own, each task with its record, ring node and stack mapping), and with
    room, it returns a task with a new record, ring node and queue node; the
    task is at the end of the ready queue of the thread that the random
    number selects and at the front of the ring of roots, the payload is in
    memory, its context is the one [makecontext] makes on a new stack mapping,
    [task_count] is one more, no live block outside the queue and the ring
    of roots has changed, and the invariant holds again.  The record names
    the selected thread, and the payload is the one [thread_payload] made. *)
Theorem thread_spec (rt : runtime) (L : gmap Z Z) (ts : list (Z * Z * Z)) (qss : list (list (Z * Z))) (fn : Z) (args : list Z) (r1 r2 uc : Z) :
  RTInv rt L ts qss -> Z.of_nat (length qss) = pool_size -> 0 <= r1 -> 8 * Z.of_nat (length args) <= REQUEST_MAX ->
  (forall s, arena_of (rt_gc rt) = Some s -> arena_room s (length args + 7)) ->
  exists t rt' payload D types values vals n b m kt kn km qs, let kid := Z.to_nat (r1 mod pool_size) in
    let L' := <[m := km]> (<[n := kn]> (<[t := kt]> (D ∪ L))) in
    thread makecontext rt fn args r1 r2 uc = Some (t, rt') /\ L ##ₘ D /\ (D ∪ L) !! t = None /\ <[t := kt]> (D ∪ L) !! n = None /\
    <[n := kn]> (<[t := kt]> (D ∪ L)) !! m = None /\
    qss !! kid = Some qs /\ RTInv rt' L' ((n, t, b) :: ts) (<[kid := qs ++ [(m, t)]]> qss) /\
    owned D payload types values vals /\ payload_at (g_mem (rt_gc rt')) payload fn types values vals args /\
    task_count rt' = swrap 32 (task_count rt + 1) /\
    (forall p k x, L !! p = Some k -> p ∉ ts.*1.*1 -> p ∉ qs.*1 -> p <= x < p + k -> ld (g_mem (rt_gc rt')) x = ld (g_mem (rt_gc rt)) x) /\
    (exists st, g_tasks (rt_gc rt') !! t = Some (st, let '(sp, pc, regs) := makecontext (b + page_size) STACK_SIZE t payload in
      PlatformCtx (b + page_size) STACK_SIZE sp pc regs)) /\
    ld (g_mem (rt_gc rt')) (t + o_task_sched_id) = r1 mod pool_size /\
    (forall s, arena_of (rt_gc rt) = Some s -> exists s1, thread_payload s fn args = Some (payload, s1)).
Proof. apply thread_ok. Qed.

(** C16: [task_destroy] ends a task.  While another task is registered, it
    takes the task out of the ring of roots wherever it is, releases its
    record and its ring node and nothing else, and unmaps its guard page and
    stack; the other tasks keep their records, stacks and places, and every
    other live block its contents.  When the task is the last one, the
    removal from the ring unlocks the mutex of the ring twice. *)
Theorem task_destroy_spec (c : collector) (L : gmap Z Z) (l1 l2 : list (Z * Z * Z)) (n t b : Z) :
  TInv c L (l1 ++ (n, t, b) :: l2) ->
  (l1 ++ l2 <> [] -> exists c', task_destroy c t = Some c' /\ TInv c' (delete t (delete n L)) (l1 ++ l2) /\
    (forall p k x, delete t (delete n L) !! p = Some k -> p ∉ (l1 ++ l2).*1.*1 -> p <= x < p + k -> ld (g_mem c') x = ld (g_mem c) x) /\
    (forall x, b <= x < b + align_page stack_len -> ~ mapped (g_maps c') x)) /\
  (l1 ++ l2 = [] -> task_destroy c t = None).
Proof.
  intros T. pose proof (task_destroy_ok c L l1 l2 n t b T) as HD.
  split; intros He; [by rewrite decide_False in HD|by rewrite decide_True in HD].
Qed.
End life.

(** ** Instances *)

(** A libffi whose descriptor has one word. *)
Definition tiny_ffi : FFI := {| sizeof_cif := 32; prep_cif := fun n t => [(0, n); (8, t)]; ffi_type_pointer := 7 |}.
#[export] Instance tiny_laws : @FFILaws tiny_ffi.
Proof.
  split; [cbn; lia|]. cbn. intros n t o v. rewrite !elem_of_cons, elem_of_nil. intros [[= -> _]|[[= -> _]|[]]]; lia.
Qed.

Lemma payload_roundtrip_witness : exists (s s1 : astate) payload, @thread_payload tiny_ffi _ _ s 77 [5; 6] = Some (payload, s1) /\
  ffi_call (Ffi := tiny_ffi) s1 payload = (77, [5; 6]).
Proof.
  destruct bump_heap as (s & L & p & k & Ho & Hr & Hp & Hk).
  destruct (@payload_roundtrip tiny_ffi _ astate _ _ s L 77 [5; 6]) as (payload & s1 & D & E & Hd & Ho1 & _ & HL).
  - vm_compute. discriminate.
  - exact Ho.
  - change (h_room s 5). do 10 apply h_room_less. exact Hr.
  - destruct (HL s1 (blocks_kept_refl _ _)) as [Hc _]. eauto.
Defined.

(** A runtime without tasks, on the arena [s]. *)
Definition idle_runtime (s : astate) : runtime :=
  Runtime (Collector (mm s) (maps s) (Some (ar s)) [] (Some (safe_gcq_init 0)) ∅) (replicate 12 (safe_q_init 64)) 0.
Definition plain_context (stack size t payload : Z) : Z * Z * (Z -> Z) := (stack + size, 0, fun _ => payload).

Lemma idle_ok (s : astate) (L : gmap Z Z) : h_ok s L -> RTInv (idle_runtime s) L [] (replicate 12 []).
Proof.
  intros Ho%arena_reserved. apply (idle_rt _ s); [by destruct s|done|by exists 0|by exists 64].
Qed.

Lemma thread_spec_witness : exists (s : astate) t rt', @thread _ plain_context tiny_ffi (idle_runtime s) 77 [5] 25 3 0 = Some (t, rt') /\
  task_count rt' = 1.
Proof.
  destruct bump_heap as (s & L & p & k & Ho & Hr & Hp & Hk).
  destruct (@thread_spec _ _ tiny_ffi _ plain_context (idle_runtime s) L [] (replicate 12 []) 77 [5] 25 3 0) as
    (t & rt' & payload & D & types & values & vals & n & b & m & kt & kn & km & qs & E & _ & _ & _ & _ & _ & _ & _ & _ & Hc & _).
  - by apply idle_ok.
  - done.
  - lia.
  - vm_compute. discriminate.
  - intros s' Es. assert (s' = s) as -> by (destruct s; cbn in Es; congruence). change (h_room s 8). do 7 apply h_room_less. exact Hr.
  - exists s, t, rt'. split; [exact E|]. exact Hc.
Defined.

(** Two tasks. *)
Lemma two_tasks : exists c L n1 t1 b1 n2 t2 b2, TInv c L [(n2, t2, b2); (n1, t1, b1)].
Proof.
  destruct bump_heap as (s & L & p & k & Ho & Hr & Hp & Hk). pose proof (RT_tasks _ _ _ _ (idle_ok s L Ho)) as T.
  destruct (task_create_ok plain_context 12 _ L [] 1 0 0 0 T) as (t1 & c1 & n1 & b1 & kt1 & kn1 & _ & _ & _ & T1 & _ & _ & Hr1 & _).
  { intros s' Es. assert (s' = s) as -> by (destruct s; cbn in Es; congruence). exact Hr. }
  destruct (task_create_ok plain_context 9 c1 _ _ 1 0 0 0 T1 Hr1) as (t2 & c2 & n2 & b2 & kt2 & kn2 & _ & _ & _ & T2 & _).
  eauto 15.
Qed.

Lemma task_destroy_spec_witness : exists c t c', task_destroy c t = Some c'.
Proof.
  destruct two_tasks as (c & L & n1 & t1 & b1 & n2 & t2 & b2 & T).
  destruct (task_destroy_spec c L [] [(n1, t1, b1)] n2 t2 b2 T) as [HD _].
  destruct HD as (c' & E & _); [done|]. exists c, t2, c'. exact E.
Defined.
