(* ===== verification/Threads.v ===== *)
(** * Threads: lemmas about families of program points

    The interleaving models keep the program point of each task or thread
    in a list.  Here: sums over the list, and locks held by exactly the
    thread whose program point is inside the critical section. *)

From S2P Require Import Prelude.

Section threads.
Context {A : Type}.
Implicit Types (l : list A) (p q : A) (i j : nat).

Definition sum_of (f : A -> Z) l : Z := foldr (fun p n => f p + n) 0 l.

Lemma sum_of_insert (f : A -> Z) l i p q :
  l !! i = Some p -> sum_of f (<[i := q]> l) = sum_of f l - f p + f q.
Proof.
  revert i. induction l as [|x l IH]; intros [|i] Hi; simplify_eq/=; [lia|].
  specialize (IH i Hi). unfold sum_of in *. lia.
Qed.

Lemma sum_of_fmap (f : A -> Z) (g : A -> A) l : (forall p, f (g p) = f p) -> sum_of f (g <$> l) = sum_of f l.
Proof. intros Hg. unfold sum_of. induction l as [|p l IH]; [done|]. cbn [fmap list_fmap foldr]. by rewrite IH, Hg. Qed.

Lemma sum_of_zero (f : A -> Z) n p : f p = 0 -> sum_of f (replicate n p) = 0.
Proof. intros Hp. induction n as [|n IH]; [done|]. unfold sum_of in *. cbn [replicate foldr]. lia. Qed.

Lemma sum_of_nonneg (f : A -> Z) l : (forall p, 0 <= f p) -> 0 <= sum_of f l.
Proof. intros Hf. induction l as [|p l IH]; [done|]. unfold sum_of in *. cbn [foldr]. specialize (Hf p). lia. Qed.

Lemma sum_of_ge (f : A -> Z) l i p : (forall p, 0 <= f p) -> l !! i = Some p -> f p <= sum_of f l.
Proof.
  intros Hf. revert i. induction l as [|x l IH]; intros [|i] Hi; simplify_eq/=.
  - pose proof (sum_of_nonneg f l Hf). unfold sum_of in *. lia.
  - specialize (IH i Hi). specialize (Hf x). unfold sum_of in *. lia.
Qed.

Lemma sum_of_ge2 (f : A -> Z) l i j p q :
  (forall p, 0 <= f p) -> l !! i = Some p -> l !! j = Some q -> i <> j -> f p + f q <= sum_of f l.
Proof.
  intros Hf. revert i j. induction l as [|x l IH]; intros [|i] [|j] Hi Hj Hne; simplify_eq/=.
  - pose proof (sum_of_ge f l j q Hf Hj). unfold sum_of in *. lia.
  - pose proof (sum_of_ge f l i p Hf Hi). unfold sum_of in *. lia.
  - specialize (IH i j Hi Hj ltac:(lia)). specialize (Hf x). unfold sum_of in *. lia.
Qed.

Lemma insert_cases l i j p q r :
  l !! i = Some p -> <[i := q]> l !! j = Some r -> (j = i /\ r = q) \/ (j <> i /\ l !! j = Some r).
Proof.
  intros Hi Hj. rewrite list_lookup_insert in Hj. destruct (decide (i = j ∧ (i < length l)%nat)) as [[<- _]|Hn].
  - left. split; [done|]. by injection Hj as <-.
  - right. split; [|done]. intros ->. apply Hn. split; [done|]. by eapply lookup_lt_Some.
Qed.

Lemma insert_at l i p q : l !! i = Some p -> <[i := q]> l !! i = Some q.
Proof. intros Hi. apply list_lookup_insert_eq. by eapply lookup_lt_Some. Qed.

Lemma insert_other l i j q : j <> i -> <[i := q]> l !! j = l !! j.
Proof. intros. by rewrite list_lookup_insert_ne. Qed.

(** ** Locks *)

(** Thread [i] holds the lock exactly when [f] holds of its program point. *)
Definition lock_held (o : option nat) (f : A -> bool) l : Prop :=
  forall i p, l !! i = Some p -> o = Some i <-> f p = true.

(** Thread [i] keeps, takes or gives back the lock. *)
Definition lock_moves (o o' : option nat) i (b b' : bool) : Prop :=
  (o' = o /\ b' = b) \/ (o = None /\ o' = Some i /\ b' = true) \/ (b = true /\ o' = None /\ b' = false).

Lemma lock_held_move (o o' : option nat) (f : A -> bool) l i p q :
  lock_held o f l -> l !! i = Some p -> lock_moves o o' i (f p) (f q) -> lock_held o' f (<[i := q]> l).
Proof.
  intros Hm Hi Hmv j r Hj. pose proof (Hm i p Hi) as Hp.
  destruct (insert_cases _ _ _ _ _ _ Hi Hj) as [[-> ->]|[Hne Hj']].
  - destruct Hmv as [[-> ->]|[(-> & -> & ->)|(_ & -> & ->)]]; done.
  - specialize (Hm j r Hj'). rewrite <- Hm. destruct Hmv as [[-> _]|[(-> & -> & _)|(Hb & -> & _)]]; [done|split; congruence|].
    apply Hp in Hb. split; congruence.
Qed.

Lemma lock_held_unique (o : option nat) (f : A -> bool) l i j p q :
  lock_held o f l -> l !! i = Some p -> l !! j = Some q -> f p = true -> f q = true -> i = j.
Proof. intros Hm Hi Hj Hp Hq. apply (Hm _ _ Hi) in Hp. apply (Hm _ _ Hj) in Hq. congruence. Qed.

Lemma lock_held_replicate (f : A -> bool) n p : f p = false -> lock_held None f (replicate n p).
Proof. intros Hp i r [-> _]%lookup_replicate. by rewrite Hp. Qed.

(** Some thread is at a program point satisfying [P]. *)
Definition some_at (P : nat -> A -> Prop) l : Prop := exists i p, l !! i = Some p /\ P i p.

Lemma some_at_insert (P P' : nat -> A -> Prop) l i p q :
  l !! i = Some p -> (P i p -> P' i q) -> (forall j r, j <> i -> P j r -> P' j r) ->
  some_at P l -> some_at P' (<[i := q]> l).
Proof.
  intros Hi Hq Ho (j & r & Hj & Hr). destruct (decide (j = i)) as [->|Hne].
  - exists i, q. split; [by eapply insert_at|]. apply Hq. congruence.
  - exists j, r. rewrite insert_other by done. auto.
Qed.

Lemma some_at_here (P : nat -> A -> Prop) l i p q : l !! i = Some p -> P i q -> some_at P (<[i := q]> l).
Proof. intros Hi Hq. exists i, q. split; [by eapply insert_at|done]. Qed.
End threads.

(** ** Queues of tasks without duplicates *)

Lemma nodup_middle (l k : list nat) (i : nat) : NoDup (l ++ k) -> i ∉ l ++ k -> NoDup (l ++ [i] ++ k).
Proof. intros Hn Hi. rewrite elem_of_app in Hi. simpl. rewrite NoDup_app_cons_middle. tauto. Qed.

Lemma nodup_resume (l k : list nat) (i : nat) : NoDup (l ++ k) -> NoDup (l ++ filter (.≠ i) k).
Proof.
  rewrite !NoDup_app. intros (? & Hd & ?). split_and!; [done| |by apply NoDup_filter].
  intros x Hx [_ ?]%list_elem_of_filter. by apply (Hd x).
Qed.

Lemma nodup_pop (l k : list nat) (i : nat) : NoDup ((i :: l) ++ k) -> NoDup (l ++ k ++ [i]).
Proof. intros Hn. rewrite (Permutation_app_comm k [i]). by rewrite (Permutation_app_comm l), <- app_assoc, (Permutation_app_comm k l). Qed.

(** The tasks [k] in the queues are at program points satisfying [f], and
    none of them is queued twice. *)
Definition queued_ok {A} (f : A -> bool) (k : list nat) (l : list A) : Prop :=
  (forall j, j ∈ k -> exists p, l !! j = Some p /\ f p = true) /\ NoDup k.

Section queued.
Context {A : Type} (f : A -> bool).
Implicit Types (l : list A) (p q : A) (k : list nat).

Lemma queued_same k l i p q :
  queued_ok f k l -> l !! i = Some p -> (f p = true -> f q = true) -> queued_ok f k (<[i := q]> l).
Proof.
  intros [Hq Hn] Hi Hpq. split; [|done]. intros j Hj. destruct (Hq j Hj) as (r & Hr & Hf).
  destruct (decide (j = i)) as [->|Hne].
  - exists q. split; [by eapply insert_at|]. simplify_eq. auto.
  - exists r. by rewrite insert_other.
Qed.

Lemma queued_not k l i p : queued_ok f k l -> l !! i = Some p -> f p = false -> i ∉ k.
Proof. intros [Hq _] Hi Hp Hin. destruct (Hq i Hin) as (r & ? & ?). congruence. Qed.

Lemma queued_perm k k' l : queued_ok f k l -> k' ≡ₚ k -> queued_ok f k' l.
Proof. intros [Hq Hn] Hp. split; [|by rewrite Hp]. intros j. rewrite Hp. apply Hq. Qed.

Lemma queued_add k k' l i p q :
  queued_ok f k l -> l !! i = Some p -> f p = false -> f q = true -> k' ≡ₚ i :: k -> queued_ok f k' (<[i := q]> l).
Proof.
  intros Hk Hi Hp Hq E. eapply queued_perm; [|exact E]. pose proof (queued_not _ _ _ _ Hk Hi Hp) as Hni.
  destruct Hk as [Hk Hn]. split; [|by constructor].
  intros j [->|Hj]%elem_of_cons; [exists q; split; [by eapply insert_at|done]|].
  rewrite insert_other by (intros ->; done). auto.
Qed.

Lemma queued_del k k' l i q :
  queued_ok f k l -> NoDup k' -> (forall j, j ∈ k' -> j ∈ k /\ j <> i) -> queued_ok f k' (<[i := q]> l).
Proof.
  intros [Hk _] Hn Hsub. split; [|done]. intros j Hj. destruct (Hsub j Hj) as [Hj' Hne].
  rewrite insert_other by done. auto.
Qed.

(** Task [i] leaves the ready queue, the last part of [k]. *)
Lemma queued_resume k rd l i q :
  queued_ok f (k ++ rd) l -> i ∈ rd -> queued_ok f (k ++ filter (.≠ i) rd) (<[i := q]> l).
Proof.
  intros Hk Hi. eapply queued_del; [exact Hk| |].
  - apply nodup_resume. apply Hk.
  - destruct Hk as [_ Hn]. apply NoDup_app in Hn as (_ & Hd & _).
    intros j. rewrite !elem_of_app, list_elem_of_filter. intros [Hj|[? ?]]; [|auto].
    split; [auto|]. intros ->. by apply (Hd i).
Qed.

Lemma queued_replicate n p : queued_ok f [] (replicate n p).
Proof. split; [|apply NoDup_nil_2]. intros j Hj. by apply elem_of_nil in Hj. Qed.
End queued.
