(* ===== verification/Tokens.v ===== *)
(** * Tokens: counting the places a task is in

    The scheduler and the I/O models keep tasks in queues, sets of pending
    operations and program points.  That a task is in exactly one of them is
    a sum of counts: [is_t t] counts the entries that are [t]. *)

From S2P Require Import Prelude Threads.

Definition b2z (b : bool) : Z := if b then 1 else 0.
Definition is_t (t : nat) (t' : nat) : Z := if decide (t' = t) then 1 else 0.
Definition count_t (t : nat) (l : list nat) : Z := sum_of (is_t t) l.

(** Take the first [t] out of the list. *)
Fixpoint remove_first (t : nat) (l : list nat) : list nat :=
  match l with [] => [] | x :: l => if decide (x = t) then l else x :: remove_first t l end.

Lemma sum_of_app {A} (f : A -> Z) (l k : list A) : sum_of f (l ++ k) = sum_of f l + sum_of f k.
Proof. unfold sum_of. induction l as [|x l IH]; [done|]. cbn [app foldr]. lia. Qed.

Lemma sum_of_one {A} (f : A -> Z) (x : A) : sum_of f [x] = f x.
Proof. unfold sum_of. cbn. lia. Qed.

Lemma sum_of_replicate {A} (f : A -> Z) (n : nat) (x : A) : sum_of f (replicate n x) = Z.of_nat n * f x.
Proof. unfold sum_of. induction n as [|n IH]; [done|]. cbn [replicate foldr]. lia. Qed.

Lemma sum_of_cons {A} (f : A -> Z) (x : A) (l : list A) : sum_of f (x :: l) = f x + sum_of f l.
Proof. done. Qed.

Lemma lookup_set {A} (l : list A) (c t : nat) (x y : A) : l !! c = Some x -> <[c := y]> l !! t = if decide (t = c) then Some y else l !! t.
Proof.
  intros Hc. case_decide as E; [subst; apply list_lookup_insert_eq; by eapply lookup_lt_Some|by apply list_lookup_insert_ne].
Qed.

Lemma lookup_new {A} (l : list A) (t : nat) (x : A) : (l ++ [x]) !! t = if decide (t = length l) then Some x else l !! t.
Proof.
  case_decide as E; [subst; rewrite lookup_app_r, Nat.sub_diag by lia; done|]. destruct (decide (t < length l)%nat); [by apply lookup_app_l|].
  rewrite lookup_app_r, (lookup_ge_None_2 l) by lia. apply lookup_ge_None_2. cbn. lia.
Qed.

Lemma is_t_nonneg (t t' : nat) : 0 <= is_t t t'.
Proof. unfold is_t. by case_decide. Qed.

Lemma is_t_self (t : nat) : is_t t t = 1.
Proof. unfold is_t. by rewrite decide_True. Qed.

Lemma is_t_other (t t' : nat) : t' <> t -> is_t t t' = 0.
Proof. intros Hne. unfold is_t. by rewrite decide_False. Qed.

Lemma count_nil (t : nat) : count_t t [] = 0.
Proof. done. Qed.

Lemma count_cons (t x : nat) (l : list nat) : count_t t (x :: l) = is_t t x + count_t t l.
Proof. apply sum_of_cons. Qed.

Lemma count_app (t : nat) (l k : list nat) : count_t t (l ++ k) = count_t t l + count_t t k.
Proof. apply sum_of_app. Qed.

Lemma count_snoc (t x : nat) (l : list nat) : count_t t (l ++ [x]) = count_t t l + is_t t x.
Proof. by rewrite count_app, count_cons, count_nil, Z.add_0_r. Qed.

Lemma count_t_nonneg (t : nat) (l : list nat) : 0 <= count_t t l.
Proof. apply sum_of_nonneg, is_t_nonneg. Qed.

Lemma count_pos (t : nat) (l : list nat) : t ∈ l <-> 1 <= count_t t l.
Proof.
  induction l as [|x l IH]; [split; [by intros ?%not_elem_of_nil|done]|]. rewrite count_cons, elem_of_cons. pose proof (count_t_nonneg t l).
  unfold is_t. case_decide; split; intros Hx; try lia; subst; auto.
  - destruct Hx as [->|Hx]; [done|]. apply IH in Hx. lia.
  - right. apply IH. lia.
Qed.

Lemma count_zero (t : nat) (l : list nat) : t ∉ l <-> count_t t l = 0.
Proof. pose proof (count_t_nonneg t l). rewrite count_pos. lia. Qed.

Lemma count_remove (t x : nat) (l : list nat) : x ∈ l -> count_t t (remove_first x l) = count_t t l - is_t t x.
Proof.
  induction l as [|y l IH]; [by intros ?%not_elem_of_nil|]. cbn [remove_first]. rewrite count_cons. intros Hx. case_decide as E; [subst; lia|].
  apply elem_of_cons in Hx as [->|Hx]; [done|]. rewrite count_cons, IH by done. lia.
Qed.

Lemma remove_first_absent (x : nat) (l : list nat) : x ∉ l -> remove_first x l = l.
Proof. induction l as [|y l IH]; [done|]. rewrite not_elem_of_cons. intros [Hne Hl]. cbn [remove_first]. rewrite decide_False by done. by rewrite IH. Qed.

Lemma elem_of_remove (t x : nat) (l : list nat) : t ∈ remove_first x l -> t ∈ l.
Proof.
  induction l as [|y l IH]; [done|]. cbn [remove_first]. case_decide; [by right|]. rewrite !elem_of_cons. intros [->|?]; [by left|right; auto].
Qed.
