(* ===== verification/World.v ===== *)
(** * World: stopping and resuming the scheduler threads

    The handshake between the collector ([gc_stop_the_world],
    [gc_resume_world] in src/runtime/src/gc.c) and the scheduler threads
    ([self_yield] and the counter updates of [scheduler_run] in
    src/runtime/src/scheduler.c), as interleaved steps.  [main] makes the
    scheduler threads and the first task before it calls [gc_start], so the
    statements of [gc_start] are interleaved with the threads as well; the
    collector thread exists when [gc_start] has made it.  Every atomic
    operation, lock and wait is a step of its own; a thread asleep on a
    condition variable moves only when it is signalled. *)

From S2P Require Import Prelude.

(** Who holds a mutex. *)
Inductive owner := Collecting | Scheduler (i : nat).

#[export] Instance owner_eq_dec : EqDecision owner.
Proof. solve_decision. Defined.

(** Where [main] is in [gc_start]: before the stores of [world_stopped],
    [stopped_count] and [total_threads], the initialisation of [lock], of
    [cv_mutators_stopped], of [cv_world_resumed] and of [add_lock], and the
    start of the collector thread.  Then, where the collector is: outside a
    collection; holding [lock] before and
    after the store of [world_stopped]; asleep on, or woken from,
    [cv_mutators_stopped]; between the unlock of [lock] and the lock of
    [add_lock]; marking and sweeping; and inside [gc_resume_world]. *)
Inductive cpc := BStopped | BCount | BTotal | BLock | BCondStopped | BCondResumed | BAddLock | BCreate
  | CIdle | CLocked | CCheck | CSleep | CWoken | CUnlocked | CMark
  | CResumeLocked | CResumeStored | CResumeReset | CResumeSignalled | CResumeUnlocked.

#[export] Instance cpc_eq_dec : EqDecision cpc.
Proof. solve_decision. Defined.

(** Where a scheduler thread is: between tasks; at, inside and after the
    update of [total_threads] under [add_lock]; running a task; inside
    [self_yield] (saw the flag; holds [lock]; has incremented [stopped_count]
    to a value; at the test of the loop; asleep on, or woken from,
    [cv_world_resumed]); and back from its task. *)
Inductive mpc := MIdle | MAdd | MAddLocked | MAdded | MRun | MYield | MLocked | MCounted (v : Z)
  | MLoop | MSleep | MWoken | MLeave.

#[export] Instance mpc_eq_dec : EqDecision mpc.
Proof. solve_decision. Defined.

(** [gc_state_t] and the threads. *)
Record world := World {
  world_stopped : bool; stopped_count : Z; total_threads : Z;
  lock : option owner; add_lock : option owner;
  coll : cpc; muts : list mpc
}.

(** [main] is about to call [gc_start], with [n] scheduler threads.
    [gc_state] is a variable with static storage, all zero; a zero mutex is
    an unlocked one, as [PTHREAD_MUTEX_INITIALIZER] is on Linux. *)
Definition boot (n : nat) : world := World false 0 0 None None BStopped (replicate n MIdle).

Definition set_lock (w : world) (l : option owner) : world :=
  World (world_stopped w) (stopped_count w) (total_threads w) l (add_lock w) (coll w) (muts w).
Definition set_add_lock (w : world) (l : option owner) : world :=
  World (world_stopped w) (stopped_count w) (total_threads w) (lock w) l (coll w) (muts w).
Definition set_coll (w : world) (c : cpc) : world :=
  World (world_stopped w) (stopped_count w) (total_threads w) (lock w) (add_lock w) c (muts w).
Definition set_mut (w : world) (i : nat) (p : mpc) : world :=
  World (world_stopped w) (stopped_count w) (total_threads w) (lock w) (add_lock w) (coll w) (<[i := p]> (muts w)).
Definition set_stopped (w : world) (b : bool) : world :=
  World b (stopped_count w) (total_threads w) (lock w) (add_lock w) (coll w) (muts w).
Definition set_count (w : world) (n : Z) : world :=
  World (world_stopped w) n (total_threads w) (lock w) (add_lock w) (coll w) (muts w).
Definition set_total (w : world) (n : Z) : world :=
  World (world_stopped w) (stopped_count w) n (lock w) (add_lock w) (coll w) (muts w).

(** [pthread_cond_signal(&cv_mutators_stopped)]. *)
Definition signal_stopped (w : world) : world :=
  match coll w with CSleep => set_coll w CWoken | _ => w end.

(** [pthread_cond_broadcast(&cv_world_resumed)]. *)
Definition wake (p : mpc) : mpc := match p with MSleep => MWoken | _ => p end.
Definition broadcast_resumed (w : world) : world :=
  World (world_stopped w) (stopped_count w) (total_threads w) (lock w) (add_lock w) (coll w) (wake <$> muts w).

(** ** Starting the collector *)

(** [gc_start], statement by statement.  Nobody waits on the condition
    variables yet.  Initialising a mutex that is held is undefined: it has
    no step. *)
Definition gc_start_step (w : world) : option world :=
  match coll w with
  | BStopped => Some (set_coll (set_stopped w false) BCount)
  | BCount => Some (set_coll (set_count w 0) BTotal)
  | BTotal => Some (set_coll (set_total w 0) BLock)
  | BLock => if decide (lock w = None) then Some (set_coll w BCondStopped) else None
  | BCondStopped => Some (set_coll w BCondResumed)
  | BCondResumed => Some (set_coll w BAddLock)
  | BAddLock => if decide (add_lock w = None) then Some (set_coll w BCreate) else None
  | BCreate => Some (set_coll w CIdle)
  | _ => None
  end.

(** ** The collector *)

(** [gc_stop_the_world], statement by statement. *)
Definition stop_step (w : world) : option world :=
  match coll w with
  | CIdle => if decide (lock w = None) then Some (set_coll (set_lock w (Some Collecting)) CLocked) else None
  | CLocked => Some (set_coll (set_stopped w true) CCheck)
  | CCheck =>
      if stopped_count w <? total_threads w then Some (set_coll (set_lock w None) CSleep)
      else Some (set_coll (set_lock w None) CUnlocked)
  | CWoken => if decide (lock w = None) then Some (set_coll (set_lock w (Some Collecting)) CCheck) else None
  | CUnlocked => if decide (add_lock w = None) then Some (set_coll (set_add_lock w (Some Collecting)) CMark) else None
  | _ => None
  end.

(** [gc_resume_world]. *)
Definition resume_step (w : world) : option world :=
  match coll w with
  | CMark => if decide (lock w = None) then Some (set_coll (set_lock w (Some Collecting)) CResumeLocked) else None
  | CResumeLocked => Some (set_coll (set_stopped w false) CResumeStored)
  | CResumeStored => Some (set_coll (set_count w 0) CResumeReset)
  | CResumeReset => Some (set_coll (broadcast_resumed w) CResumeSignalled)
  | CResumeSignalled => Some (set_coll (set_lock w None) CResumeUnlocked)
  | CResumeUnlocked => Some (set_coll (set_add_lock w None) CIdle)
  | _ => None
  end.

Definition collector_step (w : world) : option world :=
  match gc_start_step w with
  | Some w' => Some w'
  | None => match stop_step w with Some w' => Some w' | None => resume_step w end
  end.

(** ** A scheduler thread *)

(** The part of [scheduler_run] around a task. *)
Definition scheduler_step (w : world) (i : nat) (p : mpc) : option world :=
  match p with
  | MIdle => Some (set_mut w i MAdd)
  | MAdd => if decide (add_lock w = None) then Some (set_mut (set_add_lock w (Some (Scheduler i))) i MAddLocked) else None
  | MAddLocked => Some (set_mut (set_total w (total_threads w + 1)) i MAdded)
  | MAdded => Some (set_mut (set_add_lock w None) i MRun)
  | MLeave => Some (set_mut (set_total w (total_threads w - 1)) i MIdle)
  | _ => None
  end.

(** The task calls [self_yield]; nothing happens while the world runs. *)
Definition self_yield_step (w : world) (i : nat) (p : mpc) : option world :=
  match p with
  | MRun => if world_stopped w then Some (set_mut w i MYield) else None
  | MYield => if decide (lock w = None) then Some (set_mut (set_lock w (Some (Scheduler i))) i MLocked) else None
  | MLocked => Some (set_mut (set_count w (stopped_count w + 1)) i (MCounted (stopped_count w + 1)))
  | MCounted v => Some (set_mut (if v =? total_threads w then signal_stopped w else w) i MLoop)
  | MLoop =>
      if world_stopped w then Some (set_mut (set_lock w None) i MSleep)
      else Some (set_mut (set_lock w None) i MRun)
  | MWoken => if decide (lock w = None) then Some (set_mut (set_lock w (Some (Scheduler i))) i MLoop) else None
  | _ => None
  end.

(** ** Interleavings *)

(** The next statement of [gc_start], of the collector or of a scheduler thread; or the
    running task of a scheduler thread finishes, blocks or is preempted. *)
Inductive action := Collect | Mutate (i : nat) | Leave (i : nat).

Definition act (w : world) (a : action) : option world :=
  match a with
  | Collect => collector_step w
  | Mutate i =>
      p ← muts w !! i;
      match scheduler_step w i p with Some w' => Some w' | None => self_yield_step w i p end
  | Leave i => p ← muts w !! i; if decide (p = MRun) then Some (set_mut w i MLeave) else None
  end.

Fixpoint acts (w : world) (l : list action) : option world :=
  match l with
  | [] => Some w
  | a :: l => w ← act w a; acts w l
  end.

Definition wstep (w w' : world) : Prop := exists a, act w a = Some w'.
