(* ===== verification/WorldThms.v ===== *)
(** * WorldThms: what the handshake guarantees and what it does not

    In every reachable state [total_threads] is the number of threads in a
    task, less those that [gc_start] forgot; the locks exclude; and a thread
    that stopped stays stopped until the collector resumes the world.  But
    the collector may mark while a task runs, and may sleep for good. *)

From S2P Require Import Prelude Threads World.

(** Threads counted in [total_threads]. *)
Definition counted (p : mpc) : Z := match p with MIdle | MAdd | MAddLocked => 0 | _ => 1 end.
Definition count_muts (l : list mpc) : Z := sum_of counted l.

Lemma count_muts_wake (l : list mpc) : count_muts (wake <$> l) = count_muts l.
Proof. apply sum_of_fmap. by intros []. Qed.

(** Program points inside the critical sections of [lock] and [add_lock]. *)
Definition coll_lock (c : cpc) : bool :=
  match c with CLocked | CCheck | CResumeLocked | CResumeStored | CResumeReset | CResumeSignalled => true | _ => false end.
Definition mut_lock (p : mpc) : bool := match p with MLocked | MCounted _ | MLoop => true | _ => false end.
Definition coll_add (c : cpc) : bool :=
  match c with CMark | CResumeLocked | CResumeStored | CResumeReset | CResumeSignalled | CResumeUnlocked => true | _ => false end.
Definition mut_add (p : mpc) : bool := match p with MAddLocked | MAdded => true | _ => false end.

(** From the store of 1 to the store of 0 in [world_stopped]. *)
Definition stopping (c : cpc) : bool :=
  match c with CCheck | CSleep | CWoken | CUnlocked | CMark | CResumeLocked => true | _ => false end.

(** *** Locks

    [lock_ok o cb f l]: the owner [o] is the collector exactly when [cb], and
    thread [i] of [l] exactly when [f] holds of its program point. *)
Definition lock_ok (o : option owner) (cb : bool) (f : mpc -> bool) (l : list mpc) : Prop :=
  (o = Some Collecting <-> cb = true) /\ forall i p, l !! i = Some p -> o = Some (Scheduler i) <-> f p = true.

(** Thread [i] keeps, takes or gives back a lock. *)
Definition lock_move (o o' : option owner) (i : nat) (b b' : bool) : Prop :=
  (o' = o /\ b' = b) \/ (o = None /\ o' = Some (Scheduler i) /\ b' = true) \/ (b = true /\ o' = None /\ b' = false).

Lemma lock_ok_move (o o' : option owner) (cb : bool) (f : mpc -> bool) (l : list mpc) (i : nat) (p q : mpc) :
  lock_ok o cb f l -> l !! i = Some p -> lock_move o o' i (f p) (f q) -> lock_ok o' cb f (<[i := q]> l).
Proof.
  intros [Hc Hm] Hi Hmv. pose proof (Hm i p Hi) as Hp. split.
  - destruct Hmv as [[-> _]|[(-> & -> & _)|(Hb & -> & _)]]; [done|split; [done|]..].
    + intros E. apply Hc in E. done.
    + intros E. apply Hc in E. apply Hp in Hb. congruence.
  - intros j r Hj. destruct (insert_cases _ _ _ _ _ _ Hi Hj) as [[-> ->]|[Hji Hj']].
    + destruct Hmv as [[-> ->]|[(-> & -> & ->)|(_ & -> & ->)]]; done.
    + specialize (Hm j r Hj'). rewrite <- Hm.
      destruct Hmv as [[-> _]|[(-> & -> & _)|(Hb & -> & _)]]; [done|split; congruence|].
      apply Hp in Hb. split; congruence.
Qed.

(** The collector keeps, takes or gives back a lock. *)
Lemma lock_ok_coll (o o' : option owner) (cb cb' : bool) (f : mpc -> bool) (l : list mpc) :
  lock_ok o cb f l ->
  (o' = o /\ cb' = cb) \/ (o = None /\ o' = Some Collecting /\ cb' = true) \/ (cb = true /\ o' = None /\ cb' = false) ->
  lock_ok o' cb' f l.
Proof.
  intros [Hc Hm] Hmv. destruct Hmv as [[-> ->]|[(-> & -> & ->)|(-> & -> & ->)]]; [done|split; [done|]..];
    intros j r Hj; specialize (Hm j r Hj); rewrite <- Hm; [split; congruence|].
  destruct Hc as [_ Hc]. rewrite (Hc eq_refl). split; congruence.
Qed.

Lemma lock_ok_wake (o : option owner) (cb : bool) (f : mpc -> bool) (l : list mpc) :
  f MWoken = f MSleep -> lock_ok o cb f l -> lock_ok o cb f (wake <$> l).
Proof.
  intros Hf [Hc Hm]. split; [done|]. intros j r Hj. rewrite list_lookup_fmap in Hj.
  apply fmap_Some in Hj as (p & Hj & ->). rewrite (Hm j p Hj). destruct p; cbn [wake]; rewrite ?Hf; done.
Qed.

(** [e]: the threads that [gc_start] forgot. *)
Record WInv (e : Z) (w : world) : Prop := {
  W_total : total_threads w = count_muts (muts w) - e;
  W_lock : lock_ok (lock w) (coll_lock (coll w)) mut_lock (muts w);
  W_add : lock_ok (add_lock w) (coll_add (coll w)) mut_add (muts w);
  W_stop : stopping (coll w) = world_stopped w
}.

Lemma boot_inv (n : nat) : WInv 0 (boot n).
Proof.
  assert (forall i p, replicate n MIdle !! i = Some p -> p = MIdle) as Hp by (intros i p [-> _]%lookup_replicate; done).
  split; try done.
  - cbn [total_threads muts boot]. unfold count_muts. by rewrite sum_of_zero.
  - split; [done|]. intros i p ->%Hp. done.
  - split; [done|]. intros i p ->%Hp. done.
Qed.

Lemma mutator_inv (e : Z) (w w' : world) (i : nat) (p q : mpc) :
  WInv e w -> muts w !! i = Some p -> muts w' = <[i := q]> (muts w) ->
  total_threads w' = total_threads w - counted p + counted q ->
  lock_move (lock w) (lock w') i (mut_lock p) (mut_lock q) ->
  lock_move (add_lock w) (add_lock w') i (mut_add p) (mut_add q) ->
  coll w' = coll w \/ (coll w = CSleep /\ coll w' = CWoken) -> world_stopped w' = world_stopped w -> WInv e w'.
Proof.
  intros [I1 I2 I3 I4] Hi Em Et Hl Ha Hc Hs.
  assert (coll_lock (coll w') = coll_lock (coll w) /\ coll_add (coll w') = coll_add (coll w) /\
          stopping (coll w') = stopping (coll w)) as (E1 & E2 & E3) by (by destruct Hc as [->|[-> ->]]).
  split; rewrite ?E1, ?E2, ?E3, ?Em, ?Hs; try done.
  - unfold count_muts in *. rewrite Et, I1, (sum_of_insert _ _ _ _ _ Hi). lia.
  - by eapply lock_ok_move.
  - by eapply lock_ok_move.
Qed.

Lemma signal_coll (w : world) : coll (signal_stopped w) = coll w \/ (coll w = CSleep /\ coll (signal_stopped w) = CWoken).
Proof. unfold signal_stopped. destruct (coll w) eqn:E; auto. Qed.

Lemma signal_fields (w : world) : muts (signal_stopped w) = muts w /\ total_threads (signal_stopped w) = total_threads w /\
  lock (signal_stopped w) = lock w /\ add_lock (signal_stopped w) = add_lock w /\ world_stopped (signal_stopped w) = world_stopped w.
Proof. unfold signal_stopped. by destruct (coll w). Qed.

Lemma scheduler_step_inv (e : Z) (w w' : world) (i : nat) (p : mpc) :
  WInv e w -> muts w !! i = Some p -> scheduler_step w i p = Some w' -> WInv e w'.
Proof.
  intros I Hi E. destruct p; simpl in E; repeat case_decide; simplify_eq;
    eapply (mutator_inv e w _ i _ _ I Hi); cbn; try reflexivity; try (by left); unfold lock_move; cbn; auto 6; lia.
Qed.

Lemma self_yield_step_inv (e : Z) (w w' : world) (i : nat) (p : mpc) :
  WInv e w -> muts w !! i = Some p -> self_yield_step w i p = Some w' -> WInv e w'.
Proof.
  intros I Hi E. destruct (signal_fields w) as (Em & Et & El & Ea & Ew). pose proof (signal_coll w) as Ec.
  destruct p; simpl in E; repeat (case_decide || case_match); simplify_eq;
    eapply (mutator_inv e w _ i _ _ I Hi); cbn; rewrite ?Em, ?Et, ?El, ?Ea, ?Ew;
    try reflexivity; try (by left); unfold lock_move; cbn; auto 6; lia.
Qed.

(** The threads in a task when [gc_start] sets their number to 0. *)
Definition forgotten (w : world) (a : action) : Z :=
  match a, coll w with Collect, BTotal => total_threads w | _, _ => 0 end.

Lemma collector_step_inv (e : Z) (w w' : world) : WInv e w -> collector_step w = Some w' -> WInv (e + forgotten w Collect) w'.
Proof.
  intros [I1 I2 I3 I4] E. unfold collector_step, gc_start_step, stop_step, resume_step in E. unfold forgotten.
  destruct (coll w) eqn:Ec; repeat (case_decide || case_match); simplify_eq; split; cbn -[count_muts];
    rewrite ?count_muts_wake; try done; try lia; try (apply lock_ok_wake; [done|]);
    first [exact I2 | exact I3 | (eapply lock_ok_coll; [exact I2|]; auto 6) | (eapply lock_ok_coll; [exact I3|]; auto 6)].
Qed.

Lemma act_inv (e : Z) (w w' : world) (a : action) : act w a = Some w' -> WInv e w -> WInv (e + forgotten w a) w'.
Proof.
  destruct a as [|i|i]; intros E I; cbn [act] in E; [by eapply collector_step_inv| |]; cbn [forgotten]; rewrite Z.add_0_r.
  - destruct (muts w !! i) as [p|] eqn:Hi; [|done]. cbn [mbind option_bind] in E.
    destruct (scheduler_step w i p) eqn:Es; [simplify_eq; by eapply scheduler_step_inv|by eapply self_yield_step_inv].
  - destruct (muts w !! i) as [p|] eqn:Hi; [|done]. cbn [mbind option_bind] in E. case_decide; [|done]. simplify_eq.
    eapply (mutator_inv e w _ i _ _ I Hi); cbn; try reflexivity; try (by left); cbn; lia.
Qed.

(** The threads forgotten by [gc_start] in the course of a run. *)
Fixpoint lost (w : world) (l : list action) : Z :=
  match l with
  | [] => 0
  | a :: l => forgotten w a + match act w a with Some w' => lost w' l | None => 0 end
  end.

Lemma acts_inv (l : list action) : forall e w w', acts w l = Some w' -> WInv e w -> WInv (e + lost w l) w'.
Proof.
  induction l as [|a l IH]; intros e w w' E I; cbn [acts lost] in *; [simplify_eq; by rewrite Z.add_0_r|].
  destruct (act w a) as [w1|] eqn:Ea; [|done]. cbn [mbind option_bind] in E. rewrite Z.add_assoc.
  apply (IH _ _ _ E). by apply act_inv.
Qed.

Lemma boot_acts_inv (n : nat) (l : list action) (w : world) : acts (boot n) l = Some w -> WInv (lost (boot n) l) w.
Proof. intros E. apply (acts_inv l 0 _ _ E), boot_inv. Qed.

(** ** The properties *)


(** A scheduler thread moves the collector only by waking it. *)
Lemma mutators_coll (w w' : world) (a : action) : act w a = Some w' -> a <> Collect ->
  coll w' = coll w \/ (coll w = CSleep /\ coll w' = CWoken).
Proof.
  destruct a as [|i|i]; intros E Hne; [done| |]; cbn [act] in E; (destruct (muts w !! i) as [p|]; [|done]);
    cbn [mbind option_bind] in E.
  - pose proof (signal_coll w) as Hs.
    destruct p; cbn [scheduler_step self_yield_step] in E; repeat (case_decide || case_match); simplify_eq; auto.
  - case_decide; simplify_eq. by left.
Qed.

(** [gc_start] on its own. *)
Definition boot_run : list action := replicate 8 Collect.

(** When [gc_start] is done before the threads move, no thread is lost. *)
Theorem gc_start_first (n : nat) (l : list action) : lost (boot n) (boot_run ++ l) = 0.
Proof.
  assert (forall l w, match coll w with BStopped | BCount | BTotal => False | _ => True end -> lost w l = 0) as Hl.
  { clear l. induction l as [|a l IH]; intros w Hc; cbn [lost]; [done|]. replace (forgotten w a) with 0.
    - destruct (act w a) as [w'|] eqn:E; [|done]. rewrite IH; [done|].
      assert (a = Collect \/ a <> Collect) as [->|Hne] by (destruct a; auto).
      + cbn [act] in E. unfold collector_step, gc_start_step, stop_step, resume_step in E.
        destruct (coll w); try done; repeat (case_decide || (case_match; try done)); simplify_eq; done.
      + destruct (mutators_coll w w' a E Hne) as [->|[_ ->]]; done.
    - unfold forgotten. by destruct a, (coll w). }
  cbn [boot_run replicate app lost act forgotten coll boot total_threads]. rewrite !Z.add_0_l. by apply Hl.
Qed.

(** A thread that saw [world_stopped] set and has not returned from
    [self_yield]. *)
Definition parked (p : mpc) : bool :=
  match p with MYield | MLocked | MCounted _ | MLoop | MSleep | MWoken => true | _ => false end.

Lemma parked_insert (l : list mpc) (i j : nat) (p q : mpc) :
  l !! i = Some p -> parked p = true -> (i = j -> parked q = true) ->
  exists r, <[j := q]> l !! i = Some r /\ parked r = true.
Proof.
  intros Hi Hp Hq. destruct (decide (i = j)) as [<-|Hne].
  - exists q. split; [by eapply insert_at|auto].
  - exists p. by rewrite insert_other.
Qed.

(** From the store of [world_stopped] until the collector clears it, a
    scheduler thread that entered the slow path of [self_yield] stays
    there, whatever step any thread takes. *)
Theorem stopped_thread_stays_stopped (n : nat) (l : list action) (w w' : world) (i : nat) (p : mpc) :
  acts (boot n) l = Some w -> wstep w w' -> stopping (coll w) = true ->
  muts w !! i = Some p -> parked p = true ->
  exists p', muts w' !! i = Some p' /\ parked p' = true.
Proof.
  intros [_ _ _ I]%boot_acts_inv [[|j|j] E] Hst Hi Hp; cbn [act] in E; rewrite Hst in I.
  - unfold collector_step, gc_start_step, stop_step, resume_step in E.
    destruct (coll w); repeat (case_decide || case_match); simplify_eq; eauto.
  - destruct (muts w !! j) as [q|] eqn:Hj; [|done]. cbn [mbind option_bind] in E.
    destruct (signal_fields w) as (Em & _).
    destruct q; cbn [scheduler_step self_yield_step] in E; rewrite <- ?I in E; repeat (case_decide || case_match); simplify_eq;
      cbn [muts set_mut set_lock set_add_lock set_count set_total]; rewrite ?Em;
      (eapply parked_insert; [exact Hi|exact Hp|]); intros ->; simplify_eq; try done.
  - destruct (muts w !! j) as [q|] eqn:Hj; [|done]. cbn [mbind option_bind] in E. case_decide; [|done]. simplify_eq.
    cbn [muts set_mut]. eapply parked_insert; [exact Hi|exact Hp|]. intros ->. simplify_eq.
Qed.

Definition start_task (i : nat) : list action := [Mutate i; Mutate i; Mutate i; Mutate i].

(** The thread starts a task between the collector's unlock of [lock] and
    its lock of [add_lock]. *)
Definition window_run : list action := boot_run ++ [Collect; Collect; Collect] ++ start_task 0 ++ [Collect].

(** The thread then sees the flag, is overtaken by the whole collection, and
    increments [stopped_count] after the collector reset it; the next
    collection takes the running thread for a stopped one. *)
Definition stale_run : list action :=
  boot_run ++ [Collect; Collect; Collect] ++ start_task 0 ++ [Mutate 0; Collect] ++ replicate 6 Collect ++
  [Mutate 0; Mutate 0; Mutate 0; Mutate 0] ++ [Collect; Collect; Collect; Collect].

(** Stopping the world does not stop it: with a single scheduler thread
    the collector reaches its marking phase while the thread is running a
    task, by the window between the two locks, and also without it, through
    a stale [stopped_count] left behind by an earlier collection. *)
Theorem marks_while_task_runs :
  Forall (fun l => exists w, acts (boot 1) l = Some w /\ coll w = CMark /\ muts w = [MRun]) [window_run; stale_run].
Proof. repeat (apply Forall_cons; split); try (by apply Forall_nil); eexists; (split; [vm_compute; reflexivity|done]).
Qed.

(** The first task starts before [main] is through with [gc_start]. *)
Definition early_run : list action := start_task 0 ++ boot_run.

(** [gc_start] forgets a task that runs already: the collector does not
    wait for it, and marks while it runs; when the task returns
    [total_threads] becomes -1, and the collector marks while another task
    runs although it was started long after [gc_start]. *)
Theorem gc_start_forgets_task :
  (exists w, acts (boot 1) (early_run ++ replicate 4 Collect) = Some w /\ coll w = CMark /\ muts w = [MRun] /\ total_threads w = 0) /\
  (exists w, acts (boot 1) (early_run ++ [Leave 0; Mutate 0]) = Some w /\ muts w = [MIdle] /\ total_threads w = -1) /\
  (exists w, acts (boot 1) (early_run ++ [Leave 0; Mutate 0] ++ start_task 0 ++ replicate 4 Collect) = Some w /\
     coll w = CMark /\ muts w = [MRun] /\ total_threads w = 0).
Proof. split_and!; eexists; (split; [vm_compute; reflexivity|done]). Qed.

(** The first task can also be inside the critical section of [add_lock]
    when [gc_start] initialises that mutex again, which is undefined. *)
Theorem gc_start_reinitialises : exists w, acts (boot 1) ([Mutate 0; Mutate 0] ++ replicate 6 Collect) = Some w /\
  coll w = BAddLock /\ add_lock w = Some (Scheduler 0).
Proof. eexists. split; [vm_compute; reflexivity|done]. Qed.

(** Two threads run tasks; the collector waits for both; the first one
    stops, the second one's task ends. *)
Definition missed_run : list action :=
  boot_run ++ start_task 0 ++ start_task 1 ++ [Collect; Collect; Collect] ++
  [Mutate 0; Mutate 0; Mutate 0; Mutate 0; Mutate 0] ++ [Leave 1; Mutate 1].

(** [scheduler_run] decrements [total_threads] without signalling the
    collector: a state is reached in which every thread still in a task has
    stopped, yet the collector sleeps on [cv_mutators_stopped] and the
    stopped thread on [cv_world_resumed], and neither they nor anybody else
    can move until some other task arrives at the idle thread. *)
Theorem collector_misses_wakeup : exists w, acts (boot 2) missed_run = Some w /\
  coll w = CSleep /\ muts w = [MSleep; MIdle] /\ total_threads w <= stopped_count w /\
  forall a w', act w a = Some w' -> a = Mutate 1.
Proof.
  eexists. split; [vm_compute; reflexivity|]. split_and!; [done|done|done|].
  intros [|[|[|i]]|[|[|i]]] w' E; vm_compute in E; congruence.
Qed.

(** *** Instances *)

Definition missed_world : world := World true 1 1 None None CSleep [MSleep; MIdle].

Lemma missed_reached : acts (boot 2) missed_run = Some missed_world.
Proof. vm_compute. reflexivity. Qed.

(** A run in which [gc_start] forgets a task. *)
Definition early_world : world := World false 0 0 None None CIdle [MRun].

Lemma early_reached : acts (boot 1) early_run = Some early_world.
Proof. vm_compute. reflexivity. Qed.

Lemma early_lost : lost (boot 1) early_run = 1.
Proof. vm_compute. reflexivity. Qed.


Lemma stopped_thread_stays_stopped_witness : exists w', act missed_world (Mutate 1) = Some w' /\
  exists p, muts w' !! 0%nat = Some p /\ parked p = true.
Proof.
  eexists. split; [reflexivity|].
  eapply (stopped_thread_stays_stopped 2 missed_run missed_world _ 0 MSleep missed_reached); [exists (Mutate 1); reflexivity|reflexivity..].
Defined.
