(* ===== verification/Sync.v ===== *)
(** * Sync: mutexes, read-write mutexes and wait groups
      (src/runtime/src/sync.c)

    Each primitive is a state shared by tasks and, per task, the program
    point in the primitive's functions; a step of a task is one atomic
    operation, one lock or unlock, one queue operation under the lock, or
    one [task_yield].  The queues of waiting tasks are lists, first task
    first (QueueThms.v shows that [safe_queue] implements that); a task
    popped from a waiting queue is pushed on the ready queue of its
    scheduler, here the list [ready], and runs again only from there. *)

From S2P Require Import Prelude Threads.

(** ** The mutex *)

(** [mutex_lock]: after the failed fast path, holding [mtx->lock] before and
    after the load, after the store of 1, after the push, before
    [task_yield], suspended.  [mutex_unlock]: called, holding [mtx->lock]
    before and after the store of 0, after the pop. *)
Inductive mx_pc := Out | LockSlow | LockHeld | LockLoaded (expected : Z) | LockStored | LockPushed | LockYield
  | LockAsleep | Inside | UnlockCalled | UnlockHeld | UnlockStored | UnlockPopped.

#[export] Instance mx_pc_eq_dec : EqDecision mx_pc.
Proof. solve_decision. Defined.

(** [__public__mutex_t], the ready queue and the tasks. *)
Record mutex := Mutex {
  mx_state : Z; mx_lock : option nat; mx_waiters : list nat; mx_ready : list nat; mx_tasks : list mx_pc
}.

Definition __public__sync_mutex_create (n : nat) : mutex := Mutex 0 None [] [] (replicate n Out).

Definition mx_goto (w : mutex) (i : nat) (p : mx_pc) : mutex :=
  Mutex (mx_state w) (mx_lock w) (mx_waiters w) (mx_ready w) (<[i := p]> (mx_tasks w)).
Definition mx_with_state (w : mutex) (v : Z) : mutex := Mutex v (mx_lock w) (mx_waiters w) (mx_ready w) (mx_tasks w).
Definition mx_with_lock (w : mutex) (o : option nat) : mutex := Mutex (mx_state w) o (mx_waiters w) (mx_ready w) (mx_tasks w).

(** [__public__sync_mutex_lock] *)
Definition __public__sync_mutex_lock (w : mutex) (i : nat) (p : mx_pc) : option mutex :=
  match p with
  | Out => if mx_state w =? 0 then Some (mx_goto (mx_with_state w 1) i Inside) else Some (mx_goto w i LockSlow)
  | LockSlow => if decide (mx_lock w = None) then Some (mx_goto (mx_with_lock w (Some i)) i LockHeld) else None
  | LockHeld => Some (mx_goto w i (LockLoaded (mx_state w)))
  | LockLoaded expected =>
      if expected =? 0 then Some (mx_goto (mx_with_state w 1) i LockStored)
      else Some (mx_goto (Mutex (mx_state w) (mx_lock w) (mx_waiters w ++ [i]) (mx_ready w) (mx_tasks w)) i LockPushed)
  | LockStored => Some (mx_goto (mx_with_lock w None) i Inside)
  | LockPushed => Some (mx_goto (mx_with_lock w None) i LockYield)
  | LockYield => Some (mx_goto w i LockAsleep)
  | LockAsleep =>
      if decide (i ∈ mx_ready w)
      then Some (mx_goto (Mutex (mx_state w) (mx_lock w) (mx_waiters w) (filter (.≠ i) (mx_ready w)) (mx_tasks w)) i LockSlow)
      else None
  | _ => None
  end.

(** [__public__sync_mutex_unlock] *)
Definition __public__sync_mutex_unlock (w : mutex) (i : nat) (p : mx_pc) : option mutex :=
  match p with
  | Inside => Some (mx_goto w i UnlockCalled)
  | UnlockCalled => if decide (mx_lock w = None) then Some (mx_goto (mx_with_lock w (Some i)) i UnlockHeld) else None
  | UnlockHeld => Some (mx_goto (mx_with_state w 0) i UnlockStored)
  | UnlockStored =>
      Some (mx_goto (match mx_waiters w with
                     | [] => w
                     | t :: ts => Mutex (mx_state w) (mx_lock w) ts (mx_ready w ++ [t]) (mx_tasks w)
                     end) i UnlockPopped)
  | UnlockPopped => Some (mx_goto (mx_with_lock w None) i Out)
  | _ => None
  end.

Definition mx_step (w : mutex) (i : nat) : option mutex :=
  p ← mx_tasks w !! i;
  match __public__sync_mutex_lock w i p with
  | Some w' => Some w'
  | None => __public__sync_mutex_unlock w i p
  end.

Fixpoint mx_run (w : mutex) (l : list nat) : option mutex :=
  match l with [] => Some w | i :: l => w ← mx_step w i; mx_run w l end.

Definition mx_steps : mutex -> mutex -> Prop := rtc (fun w w' => exists i, mx_step w i = Some w').

(** ** The read-write mutex *)

Definition WRITER_BIT : Z := 1.
Definition READER_INC : Z := 2.
Definition writer_bit (v : Z) : bool := truthy (Z.land v WRITER_BIT).

(** [rlock]: at the load, loaded, at and after the lock, after the push,
    before [task_yield], suspended; [runlock]: at the lock, holding it,
    after the pop.  [rwlock] likewise, then the loop that waits for the
    readers: at the load, about to yield, suspended; [rwunlock]. *)
Inductive rw_pc :=
  | Idle
  | ReadLoad | ReadLoaded (old : Z) | ReadSlow | ReadHeld | ReadRetry | ReadPushed | ReadYield | ReadAsleep
  | Reading | RUnlockSlow | RUnlockHeld | RUnlockPopped
  | WriteLoad | WriteLoaded (old : Z) | WriteSlow | WriteHeld | WriteRetry | WritePushed | WriteYield | WriteAsleep
  | Drain | DrainYield | DrainAsleep
  | Writing | WUnlockCalled | WUnlockHeld | WUnlockStored | WUnlockPopped.

(** [__public__rwmutex_t] *)
Record rwmutex := RwMutex {
  rw_state : Z; rw_lock : option nat; rw_readers : list nat; rw_writers : list nat;
  rw_ready : list nat; rw_tasks : list rw_pc
}.

Definition __public__sync_rwmutex_create (n : nat) : rwmutex := RwMutex 0 None [] [] [] (replicate n Idle).

Definition rw_goto (w : rwmutex) (i : nat) (p : rw_pc) : rwmutex :=
  RwMutex (rw_state w) (rw_lock w) (rw_readers w) (rw_writers w) (rw_ready w) (<[i := p]> (rw_tasks w)).
Definition rw_with_state (w : rwmutex) (v : Z) : rwmutex :=
  RwMutex v (rw_lock w) (rw_readers w) (rw_writers w) (rw_ready w) (rw_tasks w).
Definition rw_with_lock (w : rwmutex) (o : option nat) : rwmutex :=
  RwMutex (rw_state w) o (rw_readers w) (rw_writers w) (rw_ready w) (rw_tasks w).
Definition rw_with_queues (w : rwmutex) (rs ws rd : list nat) : rwmutex :=
  RwMutex (rw_state w) (rw_lock w) rs ws rd (rw_tasks w).

Definition rw_take (w : rwmutex) (i : nat) (p : rw_pc) : option rwmutex :=
  if decide (rw_lock w = None) then Some (rw_goto (rw_with_lock w (Some i)) i p) else None.
Definition rw_give (w : rwmutex) (i : nat) (p : rw_pc) : option rwmutex := Some (rw_goto (rw_with_lock w None) i p).
(** A suspended task runs again from the ready queue. *)
Definition rw_resume (w : rwmutex) (i : nat) (p : rw_pc) : option rwmutex :=
  if decide (i ∈ rw_ready w)
  then Some (rw_goto (rw_with_queues w (rw_readers w) (rw_writers w) (filter (.≠ i) (rw_ready w))) i p)
  else None.

(** [__public__sync_rwmutex_rlock]; [spurious]: a weak compare-and-exchange
    may fail although the value is the expected one. *)
Definition __public__sync_rwmutex_rlock (spurious : bool) (w : rwmutex) (i : nat) (p : rw_pc) : option rwmutex :=
  match p with
  | ReadLoad => Some (rw_goto w i (ReadLoaded (rw_state w)))
  | ReadLoaded old =>
      if writer_bit old then Some (rw_goto w i ReadSlow)
      else if (rw_state w =? old) && negb spurious
           then Some (rw_goto (rw_with_state w (old + READER_INC)) i Reading)
           else Some (rw_goto w i ReadLoad)
  | ReadSlow => rw_take w i ReadHeld
  | ReadHeld =>
      if writer_bit (rw_state w)
      then Some (rw_goto (rw_with_queues w (rw_readers w ++ [i]) (rw_writers w) (rw_ready w)) i ReadPushed)
      else Some (rw_goto w i ReadRetry)
  | ReadRetry => rw_give w i ReadLoad
  | ReadPushed => rw_give w i ReadYield
  | ReadYield => Some (rw_goto w i ReadAsleep)
  | ReadAsleep => rw_resume w i ReadLoad
  | _ => None
  end.

(** [__public__sync_rwmutex_runlock] *)
Definition __public__sync_rwmutex_runlock (w : rwmutex) (i : nat) (p : rw_pc) : option rwmutex :=
  match p with
  | Reading =>
      let prev := rw_state w in
      let w := rw_with_state w (prev - READER_INC) in
      Some (rw_goto w i (if prev - READER_INC =? WRITER_BIT then RUnlockSlow else Idle))
  | RUnlockSlow => rw_take w i RUnlockHeld
  | RUnlockHeld =>
      Some (rw_goto (match rw_writers w with
                     | [] => w
                     | t :: ts => rw_with_queues w (rw_readers w) ts (rw_ready w ++ [t])
                     end) i RUnlockPopped)
  | RUnlockPopped => rw_give w i Idle
  | _ => None
  end.

(** [__public__sync_rwmutex_rwlock] *)
Definition __public__sync_rwmutex_rwlock (spurious : bool) (w : rwmutex) (i : nat) (p : rw_pc) : option rwmutex :=
  match p with
  | WriteLoad => Some (rw_goto w i (WriteLoaded (rw_state w)))
  | WriteLoaded old =>
      if writer_bit old then Some (rw_goto w i WriteSlow)
      else if (rw_state w =? old) && negb spurious
           then Some (rw_goto (rw_with_state w (Z.lor old WRITER_BIT)) i Drain)
           else Some (rw_goto w i WriteLoad)
  | WriteSlow => rw_take w i WriteHeld
  | WriteHeld =>
      if writer_bit (rw_state w)
      then Some (rw_goto (rw_with_queues w (rw_readers w) (rw_writers w ++ [i]) (rw_ready w)) i WritePushed)
      else Some (rw_goto w i WriteRetry)
  | WriteRetry => rw_give w i WriteLoad
  | WritePushed => rw_give w i WriteYield
  | WriteYield => Some (rw_goto w i WriteAsleep)
  | WriteAsleep => rw_resume w i WriteLoad
  | Drain => Some (rw_goto w i (if rw_state w =? WRITER_BIT then Writing else DrainYield))
  | DrainYield => Some (rw_goto w i DrainAsleep)
  | DrainAsleep => rw_resume w i Drain
  | _ => None
  end.

(** [__public__sync_rwmutex_rwunlock]: one writer, or else all readers. *)
Definition __public__sync_rwmutex_rwunlock (w : rwmutex) (i : nat) (p : rw_pc) : option rwmutex :=
  match p with
  | Writing => Some (rw_goto w i WUnlockCalled)
  | WUnlockCalled => rw_take w i WUnlockHeld
  | WUnlockHeld => Some (rw_goto (rw_with_state w 0) i WUnlockStored)
  | WUnlockStored =>
      Some (rw_goto (match rw_writers w with
                     | [] => rw_with_queues w [] [] (rw_ready w ++ rw_readers w)
                     | t :: ts => rw_with_queues w (rw_readers w) ts (rw_ready w ++ [t])
                     end) i WUnlockPopped)
  | WUnlockPopped => rw_give w i Idle
  | _ => None
  end.

(** A step of task [i]; an idle task may call [rlock] or [rwlock]. *)
Inductive rw_act := CallRead (i : nat) | CallWrite (i : nat) | Go (i : nat) (spurious : bool).

Definition orelse {B} (o o' : option B) : option B := match o with Some b => Some b | None => o' end.

Definition rw_step (w : rwmutex) (a : rw_act) : option rwmutex :=
  match a with
  | CallRead i => p ← rw_tasks w !! i; match p with Idle => Some (rw_goto w i ReadLoad) | _ => None end
  | CallWrite i => p ← rw_tasks w !! i; match p with Idle => Some (rw_goto w i WriteLoad) | _ => None end
  | Go i spurious =>
      p ← rw_tasks w !! i;
      orelse (__public__sync_rwmutex_rlock spurious w i p)
        (orelse (__public__sync_rwmutex_runlock w i p)
          (orelse (__public__sync_rwmutex_rwlock spurious w i p) (__public__sync_rwmutex_rwunlock w i p)))
  end.

Fixpoint rw_run (w : rwmutex) (l : list rw_act) : option rwmutex :=
  match l with [] => Some w | a :: l => w ← rw_step w a; rw_run w l end.

Definition rw_steps : rwmutex -> rwmutex -> Prop := rtc (fun w w' => exists a, rw_step w a = Some w').

(** ** The wait group *)

(** [add]: after the fetch-and-add with the sum it computed, at the lock,
    holding it, after the pops.  [wait]: at the load, at the lock, holding
    it before and after the second load, after the push, before
    [task_yield], suspended; returned. *)
Inductive wg_pc :=
  | WgIdle
  | Added (new_count delta : Z) | AddSlow | AddHeld | AddPopped
  | WaitLoad | WaitSlow | WaitHeld | WaitLoaded (count : Z) | WaitDone | WaitPushed | WaitYield | WaitAsleep.

(** [__public__waitgroup_t]; [wg_aborted]: an assertion failed and the
    process is gone. *)
Record waitgroup := WaitGroup {
  wg_count : Z; wg_lock : option nat; wg_waiters : list nat; wg_ready : list nat;
  wg_aborted : bool; wg_tasks : list wg_pc
}.

Definition __public__sync_waitgroup_create (n : nat) : waitgroup := WaitGroup 0 None [] [] false (replicate n WgIdle).

Definition wg_goto (w : waitgroup) (i : nat) (p : wg_pc) : waitgroup :=
  WaitGroup (wg_count w) (wg_lock w) (wg_waiters w) (wg_ready w) (wg_aborted w) (<[i := p]> (wg_tasks w)).
Definition wg_with_count (w : waitgroup) (v : Z) : waitgroup :=
  WaitGroup v (wg_lock w) (wg_waiters w) (wg_ready w) (wg_aborted w) (wg_tasks w).
Definition wg_with_lock (w : waitgroup) (o : option nat) : waitgroup :=
  WaitGroup (wg_count w) o (wg_waiters w) (wg_ready w) (wg_aborted w) (wg_tasks w).
Definition wg_with_queues (w : waitgroup) (ws rd : list nat) : waitgroup :=
  WaitGroup (wg_count w) (wg_lock w) ws rd (wg_aborted w) (wg_tasks w).
Definition wg_abort (w : waitgroup) : waitgroup :=
  WaitGroup (wg_count w) (wg_lock w) (wg_waiters w) (wg_ready w) true (wg_tasks w).

Definition wg_take (w : waitgroup) (i : nat) (p : wg_pc) : option waitgroup :=
  if decide (wg_lock w = None) then Some (wg_goto (wg_with_lock w (Some i)) i p) else None.
Definition wg_give (w : waitgroup) (i : nat) (p : wg_pc) : option waitgroup := Some (wg_goto (wg_with_lock w None) i p).

(** The call of [__public__sync_waitgroup_add]; [new_count += delta]
    overflows, which is undefined, when the sum does not fit. *)
Definition wg_call_add (w : waitgroup) (i : nat) (delta : Z) : option waitgroup :=
  let sum := wg_count w + delta in
  c_assert ((- 2 ^ 63 <=? sum) && (sum <? 2 ^ 63)) ;;
  Some (wg_goto (wg_with_count w sum) i (Added sum delta)).

Definition __public__sync_waitgroup_add (w : waitgroup) (i : nat) (p : wg_pc) : option waitgroup :=
  match p with
  | Added new_count delta =>
      if negb (0 <=? new_count) then Some (wg_abort w)
      else Some (wg_goto w i (if (new_count =? 0) && (delta <? 0) then AddSlow else WgIdle))
  | AddSlow => wg_take w i AddHeld
  | AddHeld => (* the loop of pops and pushes, all under [wg->lock] *)
      Some (wg_goto (wg_with_queues w [] (wg_ready w ++ wg_waiters w)) i AddPopped)
  | AddPopped => wg_give w i WgIdle
  | _ => None
  end.

Definition __public__sync_waitgroup_done (w : waitgroup) (i : nat) : option waitgroup := wg_call_add w i (-1).

Definition __public__sync_waitgroup_wait (w : waitgroup) (i : nat) (p : wg_pc) : option waitgroup :=
  match p with
  | WaitLoad => Some (wg_goto w i (if wg_count w =? 0 then WgIdle else WaitSlow))
  | WaitSlow => wg_take w i WaitHeld
  | WaitHeld => Some (wg_goto w i (WaitLoaded (wg_count w)))
  | WaitLoaded count =>
      if count =? 0 then Some (wg_goto w i WaitDone)
      else Some (wg_goto (wg_with_queues w (wg_waiters w ++ [i]) (wg_ready w)) i WaitPushed)
  | WaitDone => wg_give w i WgIdle
  | WaitPushed => wg_give w i WaitYield
  | WaitYield => Some (wg_goto w i WaitAsleep)
  | WaitAsleep =>
      if decide (i ∈ wg_ready w)
      then Some (wg_goto (wg_with_queues w (wg_waiters w) (filter (.≠ i) (wg_ready w))) i WaitLoad)
      else None
  | _ => None
  end.

Inductive wg_act := CallAdd (i : nat) (delta : Z) | CallDone (i : nat) | CallWait (i : nat) | Advance (i : nat).

Definition wg_step (w : waitgroup) (a : wg_act) : option waitgroup :=
  if wg_aborted w then None
  else
    match a with
    | CallAdd i delta => p ← wg_tasks w !! i; match p with WgIdle => wg_call_add w i delta | _ => None end
    | CallDone i => p ← wg_tasks w !! i; match p with WgIdle => __public__sync_waitgroup_done w i | _ => None end
    | CallWait i => p ← wg_tasks w !! i; match p with WgIdle => Some (wg_goto w i WaitLoad) | _ => None end
    | Advance i =>
        p ← wg_tasks w !! i;
        orelse (__public__sync_waitgroup_add w i p) (__public__sync_waitgroup_wait w i p)
    end.

Fixpoint wg_run (w : waitgroup) (l : list wg_act) : option waitgroup :=
  match l with [] => Some w | a :: l => w ← wg_step w a; wg_run w l end.

Definition wg_steps : waitgroup -> waitgroup -> Prop := rtc (fun w w' => exists a, wg_step w a = Some w').
