(* ===== verification/MutexThms.v ===== *)
(** * MutexThms: the mutex wakes its waiters, and is not exclusive *)

From S2P Require Import Prelude Threads Sync.

(** Holding [mtx->lock]. *)
Definition mx_holds (p : mx_pc) : bool :=
  match p with LockHeld | LockLoaded _ | LockStored | LockPushed | UnlockHeld | UnlockStored | UnlockPopped => true | _ => false end.

(** From the acquisition of the mutex to the store of 0. *)
Definition mx_owner (p : mx_pc) : bool :=
  match p with LockStored | Inside | UnlockCalled | UnlockHeld => true | _ => false end.

(** From the push on [waiters] to the wakeup. *)
Definition mx_queued (p : mx_pc) : bool := match p with LockPushed | LockYield | LockAsleep => true | _ => false end.

(** A task that will look at the state again or is about to pop a waiter. *)
Definition mx_active (rd : list nat) (i : nat) (p : mx_pc) : Prop :=
  i ∈ rd \/ match p with LockSlow | LockHeld | UnlockStored => True | LockLoaded e => e = 0 | _ => False end.

Record MxInv (w : mutex) : Prop := {
  MX_lock : lock_held (mx_lock w) mx_holds (mx_tasks w);
  MX_range : forall i, mx_lock w = Some i -> is_Some (mx_tasks w !! i);
  MX_state : mx_state w = 0 \/ (mx_state w = 1 /\ some_at (fun _ p => mx_owner p = true) (mx_tasks w));
  MX_loaded : forall i e, mx_tasks w !! i = Some (LockLoaded e) -> e = 0 \/ mx_state w = 1;
  MX_wake : mx_waiters w <> [] -> mx_state w = 1 \/ some_at (mx_active (mx_ready w)) (mx_tasks w);
  MX_in : forall i, i ∈ mx_waiters w \/ i ∈ mx_ready w -> exists p, mx_tasks w !! i = Some p /\ mx_queued p = true;
  MX_out : forall i p, mx_tasks w !! i = Some p -> mx_queued p = true -> i ∈ mx_waiters w \/ i ∈ mx_ready w;
  MX_nodup : NoDup (mx_waiters w ++ mx_ready w)
}.

(** A step of task [i] from [p] to [q], described by what it does to each
    component, keeps the invariant. *)
Lemma mx_move (w : mutex) (i : nat) (p q : mx_pc) (s : Z) (o : option nat) (ws rd : list nat) :
  MxInv w -> mx_tasks w !! i = Some p ->
  lock_moves (mx_lock w) o i (mx_holds p) (mx_holds q) ->
  (s = mx_state w /\ mx_owner q = mx_owner p) \/ (s = 1 /\ mx_owner q = true) \/ (s = 0 /\ mx_holds p = true /\ q = UnlockStored) ->
  (forall e, q = LockLoaded e -> e = mx_state w /\ s = mx_state w) ->
  (ws <> [] -> mx_waiters w = [] -> s = 1) ->
  (mx_active (mx_ready w) i p -> mx_active rd i q \/ s = 1 \/ ws = [] \/ exists j, j ∈ rd /\ j <> i /\ is_Some (mx_tasks w !! j)) ->
  (forall j, j <> i -> (j ∈ ws \/ j ∈ rd) <-> (j ∈ mx_waiters w \/ j ∈ mx_ready w)) ->
  (forall j, j <> i -> j ∈ mx_ready w -> j ∈ rd) ->
  (i ∈ ws \/ i ∈ rd <-> mx_queued q = true) -> NoDup (ws ++ rd) ->
  MxInv (Mutex s o ws rd (<[i := q]> (mx_tasks w))).
Proof.
  intros [I1 I2 I3 I4 I5 I6 I7 I8] Hi Hl Hs He Hws Hact Hq Hrd Hiq Hnd.
  split; cbn [mx_lock mx_tasks mx_state mx_waiters mx_ready].
  - by eapply lock_held_move.
  - intros j Hj. assert (j = i \/ mx_lock w = Some j) as [->|Hj'].
    { destruct Hl as [[Eo _]|[(_ & Eo & _)|(_ & Eo & _)]]; rewrite Eo in Hj; [by right|left; congruence|done]. }
    + exists q. by eapply insert_at.
    + destruct (decide (j = i)) as [->|Hne]; [exists q; by eapply insert_at|]. rewrite insert_other by done. auto.
  - destruct Hs as [[-> Ho]|[[-> Ho]|[-> _]]]; [|right; split; [done|]; by eapply some_at_here|by left].
    destruct I3 as [?|[? Hs]]; [by left|right]. split; [done|].
    eapply (some_at_insert (fun _ p => mx_owner p = true)); [exact Hi| |done|exact Hs]. by rewrite Ho.
  - intros j e Hj. destruct (insert_cases _ _ _ _ _ _ Hi Hj) as [[-> E]|[Hne Hj']].
    + destruct (He e (eq_sym E)) as [-> ->]. destruct I3 as [?|[? _]]; auto.
    + destruct Hs as [[-> _]|[[-> _]|(-> & Hp & _)]]; [by eapply I4|by right|].
      destruct Hne. by eapply (lock_held_unique _ _ _ _ _ _ _ I1 Hj' Hi).
  - intros Hne. destruct (decide (mx_waiters w = [])) as [Hw|Hw]; [left; auto|].
    destruct (I5 Hw) as [E|(k & r & Hk & Hr)].
    + destruct Hs as [[-> _]|[[-> _]|(_ & _ & ->)]]; [by left|by left|].
      right. eapply some_at_here; [exact Hi|]. by right.
    + destruct (decide (k = i)) as [->|Hki].
      * simplify_eq. destruct (Hact Hr) as [?|[?|[?|(j & Hj & Hji & [x Hx])]]]; [|by left|done|].
        -- right. by eapply some_at_here.
        -- right. exists j, x. rewrite insert_other by done. split; [done|by left].
      * right. exists k, r. rewrite insert_other by done. split; [done|]. destruct Hr as [Hr|Hr]; [left; auto|by right].
  - intros j Hj. destruct (decide (j = i)) as [->|Hne].
    + exists q. split; [by eapply insert_at|]. by apply Hiq.
    + rewrite insert_other by done. apply I6. by apply Hq.
  - intros j r Hj Hr. destruct (insert_cases _ _ _ _ _ _ Hi Hj) as [[-> ->]|[Hne Hj']]; [by apply Hiq|].
    apply Hq; [done|]. by eapply I7.
  - done.
Qed.

Lemma mx_step_inv (w w' : mutex) (i : nat) : mx_step w i = Some w' -> MxInv w -> MxInv w'.
Proof.
  intros E I. unfold mx_step in E. destruct (mx_tasks w !! i) as [p|] eqn:Hi; [|done]. cbn [mbind option_bind] in E.
  pose proof (MX_in _ I) as Hin. pose proof (MX_out _ I i p Hi) as Hout. pose proof (MX_nodup _ I) as Hnd.
  assert (i ∈ mx_waiters w \/ i ∈ mx_ready w -> mx_queued p = true) as Hin'.
  { intros Hq. destruct (Hin i Hq) as (p' & ? & ?). congruence. }
  destruct p; cbn [__public__sync_mutex_lock __public__sync_mutex_unlock] in E; repeat (case_match || case_decide); simplify_eq;
    unfold mx_goto, mx_with_state, mx_with_lock; cbn [mx_state mx_lock mx_waiters mx_ready mx_tasks];
    eapply (mx_move w i _ _ _ _ _ _ I Hi); unfold mx_active, lock_moves; cbn [mx_holds mx_owner mx_queued] in *;
    try done; auto 8; try tauto; try (by intros; simplify_eq); try (intros ? ?; congruence);
    try (split; [by intros ?%Hin'|done]).
  - (* the load *) destruct (MX_state _ I) as [?|[? _]]; auto.
  - (* the push *) intros _ _. destruct (MX_loaded _ I i _ Hi) as [->|?]; [done|done].
  - intros _. destruct (MX_loaded _ I i _ Hi) as [->|?]; [done|auto].
  - intros j Hj. rewrite elem_of_app, list_elem_of_singleton. tauto.
  - split; [done|]. intros _. left. rewrite elem_of_app, list_elem_of_singleton. auto.
  - rewrite <- app_assoc. apply nodup_middle; [done|]. rewrite elem_of_app. intros Hq. by specialize (Hin' Hq).
  - (* resuming *) intros j Hj. rewrite list_elem_of_filter. tauto.
  - intros j Hj ?. by apply list_elem_of_filter.
  - rewrite list_elem_of_filter. split; [|done]. intros [Hw|[? _]]; [|done].
    apply NoDup_app in Hnd as (_ & Hnd & _). by destruct (Hnd i Hw).
  - by apply nodup_resume.
  - (* an empty queue *) rewrite H. split; [by intros ?%Hin'|done].
  - by rewrite H.
  - (* the pop *) intros _. right; right; right. destruct (Hin n) as (p' & Hp' & Hq'); [left; by left|].
    exists n. rewrite elem_of_app, list_elem_of_singleton. split; [auto|]. split; [intros ->; rewrite Hi in Hp'; by simplify_eq|eauto].
  - intros j _. rewrite H, elem_of_app, !elem_of_cons, elem_of_nil. tauto.
  - intros j _ ?. rewrite elem_of_app. by left.
  - rewrite elem_of_app, list_elem_of_singleton. split; [|done].
    intros [Hl|[Hr| ->]]; apply Hin'; rewrite ?elem_of_cons; auto.
  - by apply nodup_pop.
Qed.

Lemma mx_create_inv (n : nat) : MxInv (__public__sync_mutex_create n).
Proof.
  assert (forall i p, replicate n Out !! i = Some p -> p = Out) as Hp by (intros i p [-> _]%lookup_replicate; done).
  split; cbn; try done.
  - by apply lock_held_replicate.
  - by left.
  - intros i e ?%Hp. done.
  - intros i [[]%elem_of_nil|[]%elem_of_nil].
  - intros i p ->%Hp. done.
  - apply NoDup_nil_2.
Qed.

Lemma mx_steps_inv (n : nat) (w : mutex) : mx_steps (__public__sync_mutex_create n) w -> MxInv w.
Proof.
  intros Hr. assert (forall w w', mx_steps w w' -> MxInv w -> MxInv w') as Hi.
  { induction 1 as [|w1 w2 w3 [i Hs] _ IH]; [done|]. intros I. apply IH. by eapply mx_step_inv. }
  eapply Hi; [exact Hr|]. apply mx_create_inv.
Qed.

Lemma mx_run_steps (l : list nat) : forall w w', mx_run w l = Some w' -> mx_steps w w'.
Proof.
  induction l as [|i l IH]; intros w w' E; cbn [mx_run] in E; [by simplify_eq; apply rtc_refl|].
  destruct (mx_step w i) as [w1|] eqn:Ei; [|done]. eapply rtc_l; [by exists i|]. by apply IH.
Qed.

(** A task that holds [mtx->lock], or any other that is not suspended and
    waits for nothing but that lock, can take its step. *)
Lemma mx_enabled (w : mutex) (i : nat) (p : mx_pc) :
  mx_tasks w !! i = Some p -> p <> Out ->
  mx_holds p = true \/ mx_lock w = None -> (p = LockAsleep -> i ∈ mx_ready w) -> exists w', mx_step w i = Some w'.
Proof.
  intros Hi Hp Hl Ha. unfold mx_step. rewrite Hi. cbn [mbind option_bind].
  destruct p; cbn [__public__sync_mutex_lock __public__sync_mutex_unlock mx_holds] in *; try done; eauto.
  - destruct Hl as [?|Hl]; [done|]. destruct (decide (mx_lock w = None)); [eauto|done].
  - destruct (expected =? 0); eauto.
  - destruct (decide (i ∈ mx_ready w)); [eauto|tauto].
  - destruct Hl as [?|Hl]; [done|]. destruct (decide (mx_lock w = None)); [eauto|done].
Qed.

(** C36: no task is left waiting for good: in every reachable state in which
    some task is on its way to the mutex or has been put on its waiting
    queue, a task that is not idle can take a step; and a task that sleeps
    unsignalled does so only while another task holds the mutex or is about
    to look at it or to pop a waiter. *)
Theorem mutex_no_lost_wakeup (n : nat) (w : mutex) (i : nat) (p : mx_pc) :
  mx_steps (__public__sync_mutex_create n) w -> mx_tasks w !! i = Some p -> p <> Out ->
  (exists j q w', mx_tasks w !! j = Some q /\ q <> Out /\ mx_step w j = Some w') /\
  (p = LockAsleep -> i ∉ mx_ready w ->
     exists j q, j <> i /\ mx_tasks w !! j = Some q /\ (mx_owner q = true \/ mx_active (mx_ready w) j q)).
Proof.
  intros I%mx_steps_inv Hi Hp.
  assert (p = LockAsleep -> i ∉ mx_ready w ->
     exists j q, j <> i /\ mx_tasks w !! j = Some q /\ (mx_owner q = true \/ mx_active (mx_ready w) j q)) as Hwake.
  { intros -> Hr. destruct (MX_out _ I i _ Hi eq_refl) as [Hw|?]; [|done].
    destruct (MX_wake _ I) as [E|(j & q & Hj & Ha)]; [by intros E; rewrite E in Hw; apply elem_of_nil in Hw| |].
    - destruct (MX_state _ I) as [?|[_ (j & q & Hj & Ho)]]; [congruence|]. exists j, q. split; [|auto].
      intros ->. simplify_eq.
    - exists j, q. split; [|auto]. intros ->. simplify_eq. by destruct Ha. }
  split; [|exact Hwake].
  destruct (mx_lock w) as [k|] eqn:El.
  { destruct (MX_range _ I k El) as [q Hk]. pose proof (proj1 (MX_lock _ I k q Hk) El) as Hh.
    assert (q <> Out) as Hq by (by intros ->). destruct (mx_enabled w k q Hk Hq) as [w' E]; [auto|by intros ->|].
    exists k, q, w'. done. }
  destruct (decide (p = LockAsleep /\ i ∉ mx_ready w)) as [[-> Hr]|Hn].
  - destruct (Hwake eq_refl Hr) as (j & q & _ & Hj & Hq).
    assert (q <> Out /\ (q = LockAsleep -> j ∈ mx_ready w)) as [Hqo Hqa].
    { destruct Hq as [Hq|[Hq|Hq]]; [by destruct q| |by destruct q].
      split; [|done]. intros ->. destruct (MX_in _ I j) as (q & ? & ?); [auto|]. by simplify_eq. }
    destruct (mx_enabled w j q Hj Hqo) as [w' E]; auto. exists j, q, w'. done.
  - destruct (mx_enabled w i p Hi Hp) as [w' E]; [auto| |].
    + intros ->. destruct (decide (i ∈ mx_ready w)); [done|]. by destruct Hn.
    + exists i, p, w'. done.
Qed.

(** Task 0 holds the mutex; task 1 fails the fast path; task 0 unlocks; task
    1, holding [mtx->lock], loads 0; task 0 takes the mutex by the fast
    path; task 1 stores 1. *)
Definition race_run : list nat := [0; 1; 0; 0; 0; 0; 0; 1; 1; 0; 1; 1]%nat.

(** The mutex does not exclude: the slow path of [lock] tests the state
    and stores 1 under [mtx->lock], which the fast path's compare-and-swap
    does not take, so two tasks get past [lock] at the same time. *)
Theorem mutex_admits_two : exists w, mx_run (__public__sync_mutex_create 2) race_run = Some w /\
  mx_tasks w = [Inside; Inside].
Proof. eexists. split; [vm_compute; reflexivity|done]. Qed.

(** Task 1 sleeps while task 0 holds the mutex. *)
Definition mx_sleeping : mutex := Mutex 1 None [1%nat] [] [Inside; LockAsleep].

Lemma mx_sleeping_reached : mx_steps (__public__sync_mutex_create 2) mx_sleeping.
Proof. apply (mx_run_steps [0; 1; 1; 1; 1; 1; 1]%nat). vm_compute. reflexivity. Qed.

Lemma mutex_no_lost_wakeup_witness : mx_steps (__public__sync_mutex_create 2) mx_sleeping /\
  exists j q w', mx_tasks mx_sleeping !! j = Some q /\ q <> Out /\ mx_step mx_sleeping j = Some w'.
Proof.
  split; [exact mx_sleeping_reached|].
  exact (proj1 (mutex_no_lost_wakeup 2 mx_sleeping 1 LockAsleep mx_sleeping_reached eq_refl ltac:(discriminate))).
Defined.
