(* ===== verification/RwMutexThms.v ===== *)
(** * RwMutexThms: the read-write mutex excludes, and loses writers *)

From S2P Require Import Prelude Threads Sync.

(** Readers inside, and writers from setting the bit to the store of 0. *)
Definition rw_reading (p : rw_pc) : Z := match p with Reading => 1 | _ => 0 end.
Definition rw_claim (p : rw_pc) : Z :=
  match p with Drain | DrainYield | DrainAsleep | Writing | WUnlockCalled | WUnlockHeld => 1 | _ => 0 end.
Definition rw_inside (p : rw_pc) : bool := match p with Writing | WUnlockCalled | WUnlockHeld => true | _ => false end.

(** From the push on a waiting queue to the wakeup. *)
Definition rw_queued (p : rw_pc) : bool :=
  match p with ReadPushed | ReadYield | ReadAsleep | WritePushed | WriteYield | WriteAsleep => true | _ => false end.

(** The state word counts the readers by twos and the writer by one. *)
Definition rw_counts (s : Z) (l : list rw_pc) : Prop :=
  s = 2 * sum_of rw_reading l + sum_of rw_claim l /\ sum_of rw_claim l <= 1 /\
  (forall i p, l !! i = Some p -> rw_inside p = true -> sum_of rw_reading l = 0).

Lemma rw_reading_nonneg (p : rw_pc) : 0 <= rw_reading p.
Proof. by destruct p. Qed.

Lemma rw_claim_nonneg (p : rw_pc) : 0 <= rw_claim p.
Proof. by destruct p. Qed.

Lemma rw_inside_claim (p : rw_pc) : rw_inside p = true -> rw_claim p = 1.
Proof. by destruct p. Qed.

(** The writer bit is set exactly when some writer claims the mutex. *)
Lemma rw_counts_bit (s : Z) (l : list rw_pc) :
  rw_counts s l -> 0 <= sum_of rw_reading l /\ 0 <= sum_of rw_claim l /\ writer_bit s = (sum_of rw_claim l =? 1).
Proof.
  intros (Es & Hc & _). pose proof (sum_of_nonneg rw_reading l rw_reading_nonneg).
  pose proof (sum_of_nonneg rw_claim l rw_claim_nonneg). split_and!; [done|done|].
  unfold writer_bit, truthy, WRITER_BIT. change 1 with (Z.ones 1) at 1. rewrite Z.land_ones by lia. change (2 ^ 1) with 2.
  rewrite Es, Z.add_comm, Z.mul_comm, Z.mod_add by lia.
  assert (sum_of rw_claim l = 0 \/ sum_of rw_claim l = 1) as [-> | ->] by lia; done.
Qed.

Section counts.
Context {s : Z} {l : list rw_pc} {i : nat} {p : rw_pc}.
Context (HC : rw_counts s l) (Hi : l !! i = Some p).

Lemma counts_same (q : rw_pc) :
  rw_reading q = rw_reading p -> rw_claim q = rw_claim p ->
  (rw_inside q = true -> rw_inside p = true \/ s = 1) -> rw_counts s (<[i := q]> l).
Proof using All.
  intros Er Ec Hin. destruct HC as (Es & Hc & Hw). pose proof (rw_counts_bit _ _ HC) as (? & ? & _).
  unfold rw_counts. rewrite !(sum_of_insert _ _ _ _ _ Hi), Er, Ec.
  replace (sum_of rw_reading l - rw_reading p + rw_reading p) with (sum_of rw_reading l) by lia.
  replace (sum_of rw_claim l - rw_claim p + rw_claim p) with (sum_of rw_claim l) by lia.
  split_and!; [done|done|]. intros j r Hj Hr.
  destruct (insert_cases _ _ _ _ _ _ Hi Hj) as [[-> ->]|[_ Hj']]; [|by eapply Hw].
  destruct (Hin Hr) as [?| ->]; [by eapply Hw|]. lia.
Qed.

Lemma counts_read : rw_reading p = 0 -> rw_claim p = 0 -> writer_bit s = false -> rw_counts (s + READER_INC) (<[i := Reading]> l).
Proof using All.
  intros Er Ec Hb. destruct HC as (Es & Hc & Hw). pose proof (rw_counts_bit _ _ HC) as (? & ? & Eb).
  rewrite Hb in Eb. symmetry in Eb. apply Z.eqb_neq in Eb. unfold rw_counts, READER_INC.
  rewrite !(sum_of_insert _ _ _ _ _ Hi), Er, Ec. cbn [rw_reading rw_claim]. split_and!; [lia|lia|].
  intros j r Hj Hr. destruct (insert_cases _ _ _ _ _ _ Hi Hj) as [[-> ->]|[_ Hj']]; [done|].
  pose proof (sum_of_ge rw_claim l j r rw_claim_nonneg Hj'). rewrite (rw_inside_claim r Hr) in *. lia.
Qed.

Lemma counts_claim : rw_reading p = 0 -> rw_claim p = 0 -> writer_bit s = false -> rw_counts (Z.lor s WRITER_BIT) (<[i := Drain]> l).
Proof using All.
  intros Er Ec Hb. destruct HC as (Es & Hc & Hw). pose proof (rw_counts_bit _ _ HC) as (? & ? & Eb).
  rewrite Hb in Eb. symmetry in Eb. apply Z.eqb_neq in Eb.
  assert (Z.lor s WRITER_BIT = s + 1) as ->.
  { unfold WRITER_BIT.
    assert (s = 2 * sum_of rw_reading l) as -> by lia. generalize (sum_of rw_reading l). intros z.
    by destruct z as [|z|[z|z|]]. }
  unfold rw_counts. rewrite !(sum_of_insert _ _ _ _ _ Hi), Er, Ec. cbn [rw_reading rw_claim]. split_and!; [lia|lia|].
  intros j r Hj Hr. destruct (insert_cases _ _ _ _ _ _ Hi Hj) as [[-> ->]|[_ Hj']]; [done|].
  pose proof (sum_of_ge rw_claim l j r rw_claim_nonneg Hj'). rewrite (rw_inside_claim r Hr) in *. lia.
Qed.
End counts.

Lemma counts_unread (s : Z) (l : list rw_pc) (i : nat) (q : rw_pc) :
  rw_counts s l -> l !! i = Some Reading -> rw_reading q = 0 -> rw_claim q = 0 -> rw_counts (s - READER_INC) (<[i := q]> l).
Proof.
  intros (Es & Hc & Hw) Hi Er Ec. unfold rw_counts, READER_INC. rewrite !(sum_of_insert _ _ _ _ _ Hi), Er, Ec.
  cbn [rw_reading rw_claim]. split_and!; [lia|lia|].
  intros j r Hj Hr. destruct (insert_cases _ _ _ _ _ _ Hi Hj) as [[-> ->]|[_ Hj']].
  - rewrite (rw_inside_claim q Hr) in Ec. done.
  - pose proof (Hw j r Hj' Hr). pose proof (sum_of_ge rw_reading l i _ rw_reading_nonneg Hi). cbn [rw_reading] in *. lia.
Qed.

Lemma counts_release (s : Z) (l : list rw_pc) (i : nat) :
  rw_counts s l -> l !! i = Some WUnlockHeld -> rw_counts 0 (<[i := WUnlockStored]> l).
Proof.
  intros (Es & Hc & Hw) Hi. pose proof (Hw i _ Hi eq_refl) as Hr0.
  pose proof (sum_of_ge rw_claim l i _ rw_claim_nonneg Hi) as Hc1. cbn [rw_claim] in Hc1.
  unfold rw_counts. rewrite !(sum_of_insert _ _ _ _ _ Hi). cbn [rw_reading rw_claim]. split_and!; [lia|lia|].
  intros j r Hj Hr. destruct (insert_cases _ _ _ _ _ _ Hi Hj) as [[-> ->]|[Hne Hj']]; [done|].
  pose proof (sum_of_ge2 rw_claim l j i r _ rw_claim_nonneg Hj' Hi Hne). rewrite (rw_inside_claim r Hr) in *. cbn [rw_claim] in *. lia.
Qed.

Definition rw_queues (w : rwmutex) : list nat := rw_readers w ++ rw_writers w ++ rw_ready w.

Record RwInv (w : rwmutex) : Prop := {
  RW_counts : rw_counts (rw_state w) (rw_tasks w);
  RW_queued : queued_ok rw_queued (rw_queues w) (rw_tasks w)
}.

(** Steps that leave the state word and the queues alone. *)
Lemma rw_inv_goto (w : rwmutex) (i : nat) (p q : rw_pc) (o : option nat) :
  RwInv w -> rw_tasks w !! i = Some p -> rw_reading q = rw_reading p -> rw_claim q = rw_claim p ->
  (rw_inside q = true -> rw_inside p = true \/ rw_state w = 1) -> (rw_queued p = true -> rw_queued q = true) ->
  RwInv (rw_goto (rw_with_lock w o) i q).
Proof.
  intros [I1 I2] Hi Hr Hc Hin Hq. split; cbn [rw_state rw_tasks rw_goto rw_with_lock rw_queues].
  - by apply (counts_same I1 Hi).
  - by eapply queued_same.
Qed.

(** Steps that move tasks between the queues or into them. *)
Lemma rw_inv_queues (w : rwmutex) (i : nat) (p q : rw_pc) (rs ws rd : list nat) :
  RwInv w -> rw_tasks w !! i = Some p -> rw_reading q = rw_reading p -> rw_claim q = rw_claim p ->
  rw_inside q = false -> queued_ok rw_queued (rs ++ ws ++ rd) (<[i := q]> (rw_tasks w)) ->
  RwInv (rw_goto (rw_with_queues w rs ws rd) i q).
Proof.
  intros [I1 I2] Hi Hr Hc Hin Hq. split; cbn [rw_state rw_tasks rw_goto rw_with_queues].
  - apply (counts_same I1 Hi); try done. by rewrite Hin.
  - exact Hq.
Qed.

Lemma rw_resume_inv (w w' : rwmutex) (i : nat) (p q : rw_pc) :
  RwInv w -> rw_tasks w !! i = Some p -> rw_reading q = rw_reading p -> rw_claim q = rw_claim p ->
  rw_inside q = false -> rw_resume w i q = Some w' -> RwInv w'.
Proof.
  intros I Hi Hr Hc Hin E. unfold rw_resume in E. case_decide; simplify_eq. eapply rw_inv_queues; try done.
  rewrite app_assoc. apply queued_resume; [|done]. rewrite <- app_assoc. apply (RW_queued _ I).
Qed.

(** Steps that only look, lock, unlock or yield. *)
Lemma rw_take_inv (w w' : rwmutex) (i : nat) (p q : rw_pc) :
  RwInv w -> rw_tasks w !! i = Some p -> rw_reading q = rw_reading p -> rw_claim q = rw_claim p ->
  (rw_inside q = true -> rw_inside p = true \/ rw_state w = 1) -> (rw_queued p = true -> rw_queued q = true) ->
  rw_take w i q = Some w' -> RwInv w'.
Proof. intros I Hi Hr Hc Hin Hq E. unfold rw_take in E. case_decide; simplify_eq. by eapply rw_inv_goto. Qed.

Lemma rw_give_inv (w w' : rwmutex) (i : nat) (p q : rw_pc) :
  RwInv w -> rw_tasks w !! i = Some p -> rw_reading q = rw_reading p -> rw_claim q = rw_claim p ->
  (rw_inside q = true -> rw_inside p = true \/ rw_state w = 1) -> (rw_queued p = true -> rw_queued q = true) ->
  rw_give w i q = Some w' -> RwInv w'.
Proof. intros I Hi Hr Hc Hin Hq E. unfold rw_give in E. simplify_eq. by eapply rw_inv_goto. Qed.

Lemma rw_goto_inv (w : rwmutex) (i : nat) (p q : rw_pc) :
  RwInv w -> rw_tasks w !! i = Some p -> rw_reading q = rw_reading p -> rw_claim q = rw_claim p ->
  (rw_inside q = true -> rw_inside p = true \/ rw_state w = 1) -> (rw_queued p = true -> rw_queued q = true) ->
  RwInv (rw_goto w i q).
Proof. intros I Hi. destruct w. exact (rw_inv_goto _ i p q _ I Hi). Qed.

Lemma rlock_inv (b : bool) (w w' : rwmutex) (i : nat) (p : rw_pc) :
  RwInv w -> rw_tasks w !! i = Some p -> __public__sync_rwmutex_rlock b w i p = Some w' -> RwInv w'.
Proof.
  intros I Hi E. destruct p; cbn [__public__sync_rwmutex_rlock] in E; try done.
  - simplify_eq. by eapply rw_goto_inv.
  - destruct (writer_bit old) eqn:Eb; simplify_eq; [by eapply rw_goto_inv|].
    destruct (Z.eqb_spec (rw_state w) old) as [<-|_]; destruct b; cbn [andb negb] in E; simplify_eq;
      try (by eapply rw_goto_inv).
    split; cbn [rw_state rw_tasks rw_goto rw_with_state rw_queues]; [by apply (counts_read (RW_counts _ I) Hi)|].
    eapply queued_same; [apply I|exact Hi|done].
  - eapply rw_take_inv; [exact I|exact Hi|..|exact E]; done.
  - destruct (writer_bit (rw_state w)); simplify_eq; [|by eapply rw_goto_inv].
    eapply rw_inv_queues; try done. eapply queued_add; [apply I|exact Hi|done|done|].
    unfold rw_queues. by rewrite (Permutation_app_comm (rw_readers w) [i]).
  - eapply rw_give_inv; [exact I|exact Hi|..|exact E]; done.
  - eapply rw_give_inv; [exact I|exact Hi|..|exact E]; done.
  - simplify_eq. by eapply rw_goto_inv.
  - eapply rw_resume_inv; [exact I|exact Hi|..|exact E]; done.
Qed.

Lemma runlock_inv (w w' : rwmutex) (i : nat) (p : rw_pc) :
  RwInv w -> rw_tasks w !! i = Some p -> __public__sync_rwmutex_runlock w i p = Some w' -> RwInv w'.
Proof.
  intros I Hi E. destruct p; cbn [__public__sync_rwmutex_runlock] in E; try done.
  - simplify_eq. split; cbn [rw_state rw_tasks rw_goto rw_with_state rw_queues].
    + eapply counts_unread; [apply I|exact Hi|by case_match..].
    + eapply queued_same; [apply I|exact Hi|done].
  - eapply rw_take_inv; [exact I|exact Hi|..|exact E]; done.
  - destruct (rw_writers w) as [|t ts] eqn:Ew; simplify_eq; [by eapply rw_goto_inv|].
    eapply rw_inv_queues; try done. eapply queued_perm; [eapply queued_same; [apply I|exact Hi|done]|].
    unfold rw_queues. rewrite Ew. apply Permutation_app_head. rewrite app_assoc. apply (Permutation_app_comm (ts ++ rw_ready w) [t]).
  - eapply rw_give_inv; [exact I|exact Hi|..|exact E]; done.
Qed.

Lemma rwlock_inv (b : bool) (w w' : rwmutex) (i : nat) (p : rw_pc) :
  RwInv w -> rw_tasks w !! i = Some p -> __public__sync_rwmutex_rwlock b w i p = Some w' -> RwInv w'.
Proof.
  intros I Hi E. destruct p; cbn [__public__sync_rwmutex_rwlock] in E; try done.
  - simplify_eq. by eapply rw_goto_inv.
  - destruct (writer_bit old) eqn:Eb; simplify_eq; [by eapply rw_goto_inv|].
    destruct (Z.eqb_spec (rw_state w) old) as [<-|_]; destruct b; cbn [andb negb] in E; simplify_eq;
      try (by eapply rw_goto_inv).
    split; cbn [rw_state rw_tasks rw_goto rw_with_state rw_queues]; [by apply (counts_claim (RW_counts _ I) Hi)|].
    eapply queued_same; [apply I|exact Hi|done].
  - eapply rw_take_inv; [exact I|exact Hi|..|exact E]; done.
  - destruct (writer_bit (rw_state w)); simplify_eq; [|by eapply rw_goto_inv].
    eapply rw_inv_queues; try done. eapply queued_add; [apply I|exact Hi|done|done|].
    unfold rw_queues. rewrite (Permutation_app_comm (rw_writers w) [i]). symmetry. apply Permutation_middle.
  - eapply rw_give_inv; [exact I|exact Hi|..|exact E]; done.
  - eapply rw_give_inv; [exact I|exact Hi|..|exact E]; done.
  - simplify_eq. by eapply rw_goto_inv.
  - eapply rw_resume_inv; [exact I|exact Hi|..|exact E]; done.
  - simplify_eq. eapply rw_goto_inv; try done; destruct (Z.eqb_spec (rw_state w) WRITER_BIT); auto.
  - simplify_eq. by eapply rw_goto_inv.
  - eapply rw_resume_inv; [exact I|exact Hi|..|exact E]; done.
Qed.

Lemma rwunlock_inv (w w' : rwmutex) (i : nat) (p : rw_pc) :
  RwInv w -> rw_tasks w !! i = Some p -> __public__sync_rwmutex_rwunlock w i p = Some w' -> RwInv w'.
Proof.
  intros I Hi E. destruct p; cbn [__public__sync_rwmutex_rwunlock] in E; try done.
  - simplify_eq. eapply rw_goto_inv; try done. by left.
  - eapply rw_take_inv; [exact I|exact Hi|..|exact E]; try done. by left.
  - simplify_eq. split; cbn [rw_state rw_tasks rw_goto rw_with_state rw_queues]; [eapply counts_release; [apply I|exact Hi]|].
    eapply queued_same; [apply I|exact Hi|done].
  - destruct (rw_writers w) as [|t ts] eqn:Ew; simplify_eq; (eapply rw_inv_queues; try done);
      (eapply queued_perm; [eapply queued_same; [apply I|exact Hi|done]|]); unfold rw_queues; rewrite Ew.
    + simpl. by rewrite Permutation_app_comm.
    + apply Permutation_app_head. rewrite app_assoc. apply (Permutation_app_comm (ts ++ rw_ready w) [t]).
  - eapply rw_give_inv; [exact I|exact Hi|..|exact E]; done.
Qed.

Lemma rw_step_inv (w w' : rwmutex) (a : rw_act) : rw_step w a = Some w' -> RwInv w -> RwInv w'.
Proof.
  intros E I. destruct a as [i|i|i b]; cbn [rw_step] in E; (destruct (rw_tasks w !! i) as [p|] eqn:Hi; [|done]);
    cbn [mbind option_bind] in E.
  - destruct p; simplify_eq. by eapply rw_goto_inv.
  - destruct p; simplify_eq. by eapply rw_goto_inv.
  - destruct (__public__sync_rwmutex_rlock b w i p) eqn:E1; cbn [orelse] in E; [simplify_eq; by eapply rlock_inv|].
    destruct (__public__sync_rwmutex_runlock w i p) eqn:E2; cbn [orelse] in E; [simplify_eq; by eapply runlock_inv|].
    destruct (__public__sync_rwmutex_rwlock b w i p) eqn:E3; cbn [orelse] in E; [simplify_eq; by eapply rwlock_inv|].
    by eapply rwunlock_inv.
Qed.

Lemma rw_steps_inv (w w' : rwmutex) : rw_steps w w' -> RwInv w -> RwInv w'.
Proof. induction 1 as [|w1 w2 w3 [a Hs] _ IH]; [done|]. intros I. apply IH. by eapply rw_step_inv. Qed.

Lemma rw_create_inv (n : nat) : RwInv (__public__sync_rwmutex_create n).
Proof.
  split; [|apply queued_replicate]. cbn [rw_state rw_tasks __public__sync_rwmutex_create].
  unfold rw_counts. rewrite !sum_of_zero by done. split_and!; try done.
Qed.

Lemma rw_run_steps (l : list rw_act) : forall w w', rw_run w l = Some w' -> rw_steps w w'.
Proof.
  induction l as [|a l IH]; intros w w' E; cbn [rw_run] in E; [by simplify_eq; apply rtc_refl|].
  destruct (rw_step w a) as [w1|] eqn:Ea; [|done]. eapply rtc_l; [by exists a|]. by apply IH.
Qed.

(** ** The properties *)

(** C12: in every reachable state, a task that is writing is the only task
    inside the mutex, and the state word is 2 for each reader inside plus 1
    if some writer has announced itself. *)
Theorem rwmutex_excludes (n : nat) (w : rwmutex) :
  rw_steps (__public__sync_rwmutex_create n) w ->
  rw_state w = 2 * sum_of rw_reading (rw_tasks w) + sum_of rw_claim (rw_tasks w) /\ sum_of rw_claim (rw_tasks w) <= 1 /\
  forall i j p q, rw_tasks w !! i = Some p -> rw_tasks w !! j = Some q -> i <> j -> rw_inside p = true ->
    q <> Reading /\ rw_inside q = false.
Proof.
  intros Hs. destruct (rw_steps_inv _ _ Hs (rw_create_inv n)) as [(Es & Hc & Hw) _]. split_and!; [done|done|].
  intros i j p q Hi Hj Hne Hp. split.
  - intros ->. pose proof (Hw i p Hi Hp). pose proof (sum_of_ge rw_reading _ j _ rw_reading_nonneg Hj).
    cbn [rw_reading] in *. lia.
  - destruct (rw_inside q) eqn:Hq; [|done]. pose proof (sum_of_ge2 rw_claim _ i j p q rw_claim_nonneg Hi Hj Hne).
    rewrite (rw_inside_claim p Hp), (rw_inside_claim q Hq) in *. lia.
Qed.

(** A writer that yielded in the loop that waits for the readers. *)
Definition drained (p : rw_pc) : bool := match p with DrainYield | DrainAsleep => true | _ => false end.

Lemma drained_step (w w' : rwmutex) (a : rw_act) (i : nat) (p : rw_pc) :
  RwInv w -> rw_tasks w !! i = Some p -> drained p = true -> rw_step w a = Some w' ->
  exists p', rw_tasks w' !! i = Some p' /\ drained p' = true.
Proof.
  intros I Hi Hp E.
  assert (i ∉ rw_ready w) as Hr.
  { assert (rw_queued p = false) as Hq by (by destruct p). pose proof (queued_not _ _ _ _ _ (RW_queued _ I) Hi Hq) as Hn.
    unfold rw_queues in Hn. rewrite !elem_of_app in Hn. tauto. }
  assert (forall j q, j <> i -> forall w1, rw_tasks w1 = rw_tasks w -> rw_tasks (rw_goto w1 j q) !! i = Some p) as Hother.
  { intros j q Hji w1 E1. cbn [rw_tasks rw_goto]. rewrite E1. by rewrite insert_other by congruence. }
  destruct a as [j|j|j b]; cbn [rw_step] in E; (destruct (rw_tasks w !! j) as [q|] eqn:Hj; [|done]); cbn [mbind option_bind] in E;
    (destruct (decide (j = i)) as [->|Hji];
     [replace q with p in * by congruence; destruct p; try done; cbn in E; unfold rw_resume in E; repeat case_decide; simplify_eq;
        try done; eexists; (split; [cbn [rw_tasks rw_goto]; by eapply insert_at|done])
     |exists p; split; [|done]]).
  - destruct q; simplify_eq. by apply Hother.
  - destruct q; simplify_eq. by apply Hother.
  - destruct q; cbn in E; unfold rw_take, rw_give, rw_resume in E;
      repeat first [progress cbn [orelse] in E | progress simplify_eq | case_decide | case_match]; try done; by apply Hother.
Qed.

(** A writer that finds readers inside and yields is lost: it is in no
    queue, so in every continuation it stays suspended, the writer bit stays
    set, and no task is ever inside the mutex as a writer again. *)
Theorem rwmutex_writer_lost (n : nat) (w w' : rwmutex) (i : nat) (p : rw_pc) :
  rw_steps (__public__sync_rwmutex_create n) w -> rw_tasks w !! i = Some p -> drained p = true -> rw_steps w w' ->
  (exists p', rw_tasks w' !! i = Some p' /\ drained p' = true) /\
  writer_bit (rw_state w') = true /\
  forall j q, rw_tasks w' !! j = Some q -> rw_inside q = false.
Proof.
  intros Hs Hi Hp Hs'. pose proof (rw_steps_inv _ _ Hs (rw_create_inv n)) as I. clear Hs.
  pose proof (rw_steps_inv _ _ Hs' I) as I'.
  assert (exists p', rw_tasks w' !! i = Some p' /\ drained p' = true) as (p' & Hi' & Hp').
  { revert p Hi Hp I. induction Hs' as [|w1 w2 w3 [a Ha] _ IH]; intros p Hi Hp I; [eauto|].
    destruct (drained_step _ _ _ _ _ I Hi Hp Ha) as (q & Hq & Hd). eapply IH; try done. by eapply rw_step_inv. }
  assert (rw_claim p' = 1) as Hc by (by destruct p').
  pose proof (sum_of_ge rw_claim _ i p' rw_claim_nonneg Hi') as Hge. rewrite Hc in Hge.
  destruct (rw_counts_bit _ _ (RW_counts _ I')) as (_ & _ & Eb). destruct (RW_counts _ I') as (_ & Hle & _).
  split_and!; [eauto| |].
  - rewrite Eb. apply Z.eqb_eq. lia.
  - intros j q Hj. destruct (rw_inside q) eqn:Hq; [|done]. assert (i <> j) as Hne by (intros ->; rewrite Hi' in Hj; injection Hj as <-; by destruct p').
    pose proof (sum_of_ge2 rw_claim _ i j p' q rw_claim_nonneg Hi' Hj Hne). rewrite Hc, (rw_inside_claim q Hq) in *. lia.
Qed.

(** A reader is inside, a writer sets the bit, sees the reader and yields;
    the reader leaves. *)
Definition lost_run : list rw_act :=
  [CallRead 0; Go 0 false; Go 0 false; CallWrite 1; Go 1 false; Go 1 false; Go 1 false; Go 1 false;
   Go 0 false; Go 0 false; Go 0 false; Go 0 false].

(** With one reader and one writer a state is reached in which the mutex
    is free of readers, the writer is suspended outside every queue, and no
    step of any task is possible except new calls: the documented wait for
    the readers never ends. *)
Theorem rwmutex_writer_deadlock : exists w, rw_run (__public__sync_rwmutex_create 2) lost_run = Some w /\
  rw_tasks w = [Idle; DrainAsleep] /\ rw_state w = WRITER_BIT /\ rw_queues w = [] /\
  forall i b, rw_step w (Go i b) = None.
Proof.
  eexists. split; [vm_compute; reflexivity|]. split_and!; try done. intros [|[|i]] []; reflexivity.
Qed.

(** *** Instances *)
Definition lost_state : rwmutex := RwMutex 1 None [] [] [] [Idle; DrainAsleep].

Lemma lost_reached : rw_steps (__public__sync_rwmutex_create 2) lost_state.
Proof. apply (rw_run_steps lost_run). vm_compute. reflexivity. Qed.

Definition writing_state : rwmutex := RwMutex 1 None [] [] [] [Idle; Writing].

Lemma writing_reached : rw_steps (__public__sync_rwmutex_create 2) writing_state.
Proof. apply (rw_run_steps [CallWrite 1; Go 1 false; Go 1 false; Go 1 false]). vm_compute. reflexivity. Qed.

Lemma rwmutex_excludes_witness : rw_steps (__public__sync_rwmutex_create 2) writing_state /\ (Idle <> Reading /\ rw_inside Idle = false).
Proof.
  split; [exact writing_reached|]. destruct (rwmutex_excludes 2 writing_state writing_reached) as (_ & _ & Hx).
  exact (Hx 1%nat 0%nat Writing Idle eq_refl eq_refl ltac:(discriminate) eq_refl).
Defined.

Lemma rwmutex_writer_lost_witness : exists w', rw_run lost_state [CallRead 0; Go 0 false; Go 0 false] = Some w' /\
  writer_bit (rw_state w') = true.
Proof.
  eexists. split; [vm_compute; reflexivity|].
  refine (proj1 (proj2 (rwmutex_writer_lost 2 lost_state _ 1 DrainAsleep lost_reached eq_refl eq_refl
    (rw_run_steps [CallRead 0; Go 0 false; Go 0 false] _ _ _)))). vm_compute. reflexivity.
Defined.
