(* ===== verification/WaitGroupThms.v ===== *)
(** * WaitGroupThms: a wait group wakes its waiters *)

From S2P Require Import Prelude Threads Sync.

Definition wg_holds (p : wg_pc) : bool :=
  match p with AddHeld | AddPopped | WaitHeld | WaitLoaded _ | WaitDone | WaitPushed => true | _ => false end.

Definition wg_queued (p : wg_pc) : bool := match p with WaitPushed | WaitYield | WaitAsleep => true | _ => false end.

(** An [add] that is about to wake the waiters, or to abort. *)
Definition wg_pending (p : wg_pc) : Prop :=
  match p with
  | Added new delta => new < 0 \/ (new = 0 /\ delta < 0)
  | AddSlow | AddHeld => True
  | _ => False
  end.

Definition wg_failing (p : wg_pc) : Prop := match p with Added new _ => new < 0 | _ => False end.

Definition wg_awake (w : waitgroup) : Prop := wg_count w <> 0 \/ some_at (fun _ => wg_pending) (wg_tasks w).

Definition wg_queues (w : waitgroup) : list nat := wg_waiters w ++ wg_ready w.

Record WgInv (w : waitgroup) : Prop := {
  WG_lock : lock_held (wg_lock w) wg_holds (wg_tasks w);
  WG_neg : wg_count w < 0 -> some_at (fun _ => wg_failing) (wg_tasks w);
  WG_wake : wg_waiters w <> [] -> wg_awake w;
  WG_loaded : forall i c, wg_tasks w !! i = Some (WaitLoaded c) -> c <> 0 -> wg_awake w;
  WG_queued : queued_ok wg_queued (wg_queues w) (wg_tasks w);
  WG_asleep : forall i p, wg_tasks w !! i = Some p -> wg_queued p = true -> i ∈ wg_queues w
}.

(** What a step of task [i] from [p] to [q] does to the wakeup condition. *)
Lemma wg_awake_move (l : list wg_pc) (i : nat) (p q : wg_pc) (c : Z) :
  l !! i = Some p -> (wg_pending p -> wg_pending q) ->
  c <> 0 \/ some_at (fun _ => wg_pending) l -> c <> 0 \/ some_at (fun _ => wg_pending) (<[i := q]> l).
Proof. intros Hi Hq [?|Hs]; [by left|right]. by eapply (some_at_insert (fun _ => wg_pending)). Qed.

Lemma wg_move (w : waitgroup) (i : nat) (p q : wg_pc) (o : option nat) (ws rd : list nat) :
  WgInv w -> wg_tasks w !! i = Some p ->
  lock_moves (wg_lock w) o i (wg_holds p) (wg_holds q) ->
  (wg_failing p -> wg_failing q) -> (wg_pending p -> wg_pending q) \/ ws = [] /\ wg_holds p = true ->
  (ws <> [] -> wg_waiters w = [] -> wg_awake w) ->
  (forall c, q = WaitLoaded c -> c = wg_count w) ->
  queued_ok wg_queued (ws ++ rd) (<[i := q]> (wg_tasks w)) ->
  (forall j, j ∈ wg_queues w -> j <> i -> j ∈ ws ++ rd) -> (wg_queued q = true -> i ∈ ws ++ rd) ->
  WgInv (WaitGroup (wg_count w) o ws rd (wg_aborted w) (<[i := q]> (wg_tasks w))).
Proof.
  intros [I1 I2 I3 I4 I5 I6] Hi Hl Hf Hp Hws Hld Hq Hsub Hqi.
  split; cbn [wg_lock wg_tasks wg_count wg_waiters wg_queues wg_ready]; try done.
  - by eapply lock_held_move.
  - intros Hc. by eapply (some_at_insert (fun _ => wg_failing)); [exact Hi| |done|auto].
  - unfold wg_awake. cbn [wg_count wg_tasks]. intros Hne. destruct Hp as [Hp|[? _]]; [|done]. eapply wg_awake_move; try done.
    destruct (decide (wg_waiters w = [])); [by apply Hws|by apply I3].
  - unfold wg_awake. cbn [wg_count wg_tasks]. intros j c Hj Hc. destruct (insert_cases _ _ _ _ _ _ Hi Hj) as [[-> E]|[Hne Hj']].
    + left. by rewrite <- (Hld c (eq_sym E)).
    + destruct Hp as [Hp|[_ Hh]]; [by eapply wg_awake_move; [| |eapply I4]|].
      destruct Hne. by eapply (lock_held_unique _ _ _ _ _ _ _ I1 Hj' Hi).
  - intros j r Hj Hr. destruct (insert_cases _ _ _ _ _ _ Hi Hj) as [[-> ->]|[Hne Hj']]; [auto|].
    apply Hsub; [|done]. by eapply I6.
Qed.

(** Steps that only look, lock, unlock or yield. *)
Lemma wg_quiet (w : waitgroup) (i : nat) (p q : wg_pc) (o : option nat) :
  WgInv w -> wg_tasks w !! i = Some p -> lock_moves (wg_lock w) o i (wg_holds p) (wg_holds q) ->
  (wg_failing p -> wg_failing q) -> (wg_pending p -> wg_pending q) ->
  (forall c, q = WaitLoaded c -> c = wg_count w) -> wg_queued q = wg_queued p -> WgInv (wg_goto (wg_with_lock w o) i q).
Proof.
  intros I Hi Hl Hf Hp Hld Hq. apply (wg_move w i p q o _ _ I Hi); auto.
  - intros. done.
  - eapply queued_same; [apply I|exact Hi|congruence].
  - rewrite Hq. by apply (WG_asleep _ I).
Qed.

Lemma wg_quiet_goto (w : waitgroup) (i : nat) (p q : wg_pc) :
  WgInv w -> wg_tasks w !! i = Some p -> wg_holds q = wg_holds p ->
  (wg_failing p -> wg_failing q) -> (wg_pending p -> wg_pending q) ->
  (forall c, q = WaitLoaded c -> c = wg_count w) -> wg_queued q = wg_queued p -> WgInv (wg_goto w i q).
Proof. intros I Hi Hl. destruct w. apply (wg_quiet _ i p q _ I Hi). by left. Qed.

Lemma wg_take_inv (w w' : waitgroup) (i : nat) (p q : wg_pc) :
  WgInv w -> wg_tasks w !! i = Some p -> wg_holds q = true -> (wg_failing p -> wg_failing q) -> (wg_pending p -> wg_pending q) ->
  (forall c, q = WaitLoaded c -> c = wg_count w) -> wg_queued q = wg_queued p -> wg_take w i q = Some w' -> WgInv w'.
Proof.
  intros I Hi Hl Hf Hp Hld Hq E. unfold wg_take in E. case_decide; simplify_eq.
  apply (wg_quiet w i p q _ I Hi); try done. right. by left.
Qed.

Lemma wg_give_inv (w w' : waitgroup) (i : nat) (p q : wg_pc) :
  WgInv w -> wg_tasks w !! i = Some p -> wg_holds p = true -> wg_holds q = false ->
  (wg_failing p -> wg_failing q) -> (wg_pending p -> wg_pending q) ->
  (forall c, q = WaitLoaded c -> c = wg_count w) -> wg_queued q = wg_queued p -> wg_give w i q = Some w' -> WgInv w'.
Proof.
  intros I Hi Hl Hl' Hf Hp Hld Hq E. unfold wg_give in E. simplify_eq.
  apply (wg_quiet w i p q _ I Hi); try done. right. by right.
Qed.

Lemma wg_add_inv (w w' : waitgroup) (i : nat) (p : wg_pc) :
  WgInv w -> wg_tasks w !! i = Some p -> __public__sync_waitgroup_add w i p = Some w' -> WgInv w'.
Proof.
  intros I Hi E. destruct p; cbn [__public__sync_waitgroup_add] in E; try done.
  - destruct (Z.leb_spec 0 new_count); cbn [negb] in E; simplify_eq; [|destruct I; by split].
    eapply wg_quiet_goto; [exact I|exact Hi|..];
      destruct (Z.eqb_spec new_count 0), (Z.ltb_spec delta 0); cbn; try done; try lia.
  - eapply wg_take_inv; [exact I|exact Hi|..|exact E]; done.
  - simplify_eq. apply (wg_move w i _ _ _ _ _ I Hi); cbn; try done.
    + by left.
    + by right.
    + eapply queued_perm; [eapply queued_same; [apply I|exact Hi|done]|]. apply Permutation_app_comm.
    + intros j. unfold wg_queues. rewrite !elem_of_app. tauto.
  - eapply wg_give_inv; [exact I|exact Hi|..|exact E]; done.
Qed.

Lemma wg_wait_inv (w w' : waitgroup) (i : nat) (p : wg_pc) :
  WgInv w -> wg_tasks w !! i = Some p -> __public__sync_waitgroup_wait w i p = Some w' -> WgInv w'.
Proof.
  intros I Hi E. destruct p; cbn [__public__sync_waitgroup_wait] in E; try done.
  - simplify_eq. eapply wg_quiet_goto; [exact I|exact Hi|..]; by destruct (wg_count w =? 0).
  - eapply wg_take_inv; [exact I|exact Hi|..|exact E]; done.
  - simplify_eq. eapply wg_quiet_goto; [exact I|exact Hi|..]; try done. by intros c [= ->].
  - destruct (Z.eqb_spec count 0) as [->|Hc]; simplify_eq; [by eapply wg_quiet_goto|].
    apply (wg_move w i _ _ _ _ _ I Hi); cbn; try done.
    + by left.
    + by left.
    + intros _ _. by eapply (WG_loaded _ I).
    + eapply queued_add; [apply I|exact Hi|done|done|]. unfold wg_queues.
      rewrite (Permutation_app_comm (wg_waiters w) [i]). done.
    + intros j. unfold wg_queues. rewrite !elem_of_app. tauto.
    + rewrite !elem_of_app, list_elem_of_singleton. tauto.
  - eapply wg_give_inv; [exact I|exact Hi|..|exact E]; done.
  - eapply wg_give_inv; [exact I|exact Hi|..|exact E]; done.
  - simplify_eq. by eapply wg_quiet_goto.
  - case_decide; simplify_eq. apply (wg_move w i _ _ _ _ _ I Hi); cbn; try done.
    + by left.
    + by left.
    + by apply queued_resume; [apply I|].
    + intros j. unfold wg_queues. rewrite !elem_of_app, list_elem_of_filter. tauto.
Qed.

Lemma wg_call_inv (w w' : waitgroup) (i : nat) (delta : Z) :
  WgInv w -> wg_tasks w !! i = Some WgIdle -> wg_call_add w i delta = Some w' -> WgInv w'.
Proof.
  intros [I1 I2 I3 I4 I5 I6] Hi E. unfold wg_call_add in E.
  destruct (c_assert _); [|done]. cbn [mbind option_bind] in E. simplify_eq.
  assert (wg_awake w -> wg_awake (wg_goto (wg_with_count w (wg_count w + delta)) i (Added (wg_count w + delta) delta))) as Haw.
  { intros Ha. unfold wg_awake. cbn [wg_count wg_tasks wg_goto wg_with_count].
    destruct (decide (wg_count w + delta = 0)) as [E0|]; [right|by left].
    destruct (decide (delta < 0)); [eapply some_at_here; [exact Hi|cbn; lia]|].
    destruct (decide (wg_count w < 0)) as [Hneg|].
    - eapply (some_at_insert (fun _ => wg_failing)); [exact Hi|done| |by apply I2]. intros j r _. destruct r; cbn; auto; done.
    - destruct Ha as [?|Ha]; [lia|]. by eapply (some_at_insert (fun _ => wg_pending)); [exact Hi| |done|exact Ha]. }
  split; cbn [wg_lock wg_tasks wg_count wg_waiters wg_goto wg_with_count].
  - eapply lock_held_move; [exact I1|exact Hi|by left].
  - intros Hc. eapply some_at_here; [exact Hi|done].
  - intros Hw. by apply Haw, I3.
  - intros j c Hj Hc. apply Haw. destruct (insert_cases _ _ _ _ _ _ Hi Hj) as [[-> ?]|[_ Hj']]; [done|by eapply I4].
  - by eapply queued_same.
  - intros j r Hj Hr. destruct (insert_cases _ _ _ _ _ _ Hi Hj) as [[-> ->]|[_ Hj']]; [done|by eapply I6].
Qed.

Lemma wg_step_inv (w w' : waitgroup) (a : wg_act) : wg_step w a = Some w' -> WgInv w -> WgInv w'.
Proof.
  intros E I. unfold wg_step in E. destruct (wg_aborted w); [done|].
  destruct a as [i delta|i|i|i]; (destruct (wg_tasks w !! i) as [p|] eqn:Hi; [|done]); cbn [mbind option_bind] in E.
  - destruct p; try done. by eapply wg_call_inv.
  - destruct p; try done. by eapply wg_call_inv.
  - destruct p; simplify_eq. by eapply wg_quiet_goto.
  - destruct (__public__sync_waitgroup_add w i p) eqn:E1; cbn [orelse] in E; [simplify_eq; by eapply wg_add_inv|].
    by eapply wg_wait_inv.
Qed.

Lemma wg_steps_inv (n : nat) (w : waitgroup) : wg_steps (__public__sync_waitgroup_create n) w -> WgInv w.
Proof.
  intros Hs. assert (forall w w', wg_steps w w' -> WgInv w -> WgInv w') as Hind.
  { induction 1 as [|w1 w2 w3 [a Ha] _ IH]; [done|]. intros I. apply IH. by eapply wg_step_inv. }
  eapply Hind; [exact Hs|]. split; try done.
  - by apply lock_held_replicate.
  - intros i c [? _]%lookup_replicate. done.
  - apply queued_replicate.
  - intros i p [-> _]%lookup_replicate. done.
Qed.

Lemma wg_run_steps (l : list wg_act) : forall w w', wg_run w l = Some w' -> wg_steps w w'.
Proof.
  induction l as [|a l IH]; intros w w' E; cbn [wg_run] in E; [by simplify_eq; apply rtc_refl|].
  destruct (wg_step w a) as [w1|] eqn:Ea; [|done]. eapply rtc_l; [by exists a|]. by apply IH.
Qed.

(** C39: no waiter of a wait group is lost, whatever the interleaving of adds
    and waits: in every reachable state a suspended task either has been
    made ready, or the counter is not zero, or some [add] is still on its
    way to wake the waiters or to its assertion failure.  So once the
    counter is zero and no [add] is in flight, every suspended task is
    ready to run. *)
Theorem waitgroup_no_lost_wakeup (n : nat) (w : waitgroup) (i : nat) :
  wg_steps (__public__sync_waitgroup_create n) w -> wg_tasks w !! i = Some WaitAsleep ->
  i ∈ wg_ready w \/ wg_count w <> 0 \/ exists j p, wg_tasks w !! j = Some p /\ wg_pending p.
Proof.
  intros I%wg_steps_inv Hi. pose proof (WG_asleep _ I i _ Hi eq_refl) as Hq. unfold wg_queues in Hq.
  apply elem_of_app in Hq as [Hq|Hq]; [right|by left]. apply (WG_wake _ I). intros E. rewrite E in Hq. by apply elem_of_nil in Hq.
Qed.

(** The counter of a wait group is negative only while some [add] is
    about to fail its assertion: no task ever runs on with a negative
    counter it made itself. *)
Theorem waitgroup_negative_aborts (n : nat) (w : waitgroup) :
  wg_steps (__public__sync_waitgroup_create n) w -> wg_count w < 0 ->
  exists j new delta, wg_tasks w !! j = Some (Added new delta) /\ new < 0 /\
    __public__sync_waitgroup_add w j (Added new delta) = Some (wg_abort w).
Proof.
  intros I%wg_steps_inv Hc. destruct (WG_neg _ I Hc) as (j & p & Hj & Hp). destruct p; try done.
  exists j, new_count, delta. split_and!; [done|done|]. cbn in Hp |- *. by destruct (Z.leb_spec 0 new_count); [lia|].
Qed.

(** *** Instances: task 1 waits for task 0; then [done] without an add. *)
Definition wg_waiting : waitgroup := WaitGroup 1 None [1%nat] [] false [WgIdle; WaitAsleep].
Definition wg_negative : waitgroup := WaitGroup (-1) None [] [] false [Added (-1) (-1); WgIdle].

Lemma waitgroup_no_lost_wakeup_witness : wg_steps (__public__sync_waitgroup_create 2) wg_waiting /\
  (1%nat ∈ wg_ready wg_waiting \/ wg_count wg_waiting <> 0 \/ exists j p, wg_tasks wg_waiting !! j = Some p /\ wg_pending p).
Proof.
  assert (wg_steps (__public__sync_waitgroup_create 2) wg_waiting) as Hs.
  { apply (wg_run_steps [CallAdd 0 1; Advance 0; CallWait 1; Advance 1; Advance 1; Advance 1; Advance 1; Advance 1; Advance 1]).
    vm_compute. reflexivity. }
  split; [exact Hs|]. exact (waitgroup_no_lost_wakeup 2 wg_waiting 1 Hs eq_refl).
Defined.

Lemma waitgroup_negative_aborts_witness : wg_steps (__public__sync_waitgroup_create 2) wg_negative /\
  exists j new delta, wg_tasks wg_negative !! j = Some (Added new delta) /\ new < 0.
Proof.
  assert (wg_steps (__public__sync_waitgroup_create 2) wg_negative) as Hs.
  { apply (wg_run_steps [CallDone 0]). vm_compute. reflexivity. }
  split; [exact Hs|]. destruct (waitgroup_negative_aborts 2 wg_negative Hs ltac:(done)) as (j & new & delta & Hj & Hn & _).
  exists j, new, delta. done.
Defined.
