(* ===== verification/Bytes.v ===== *)
(** * Bytes: the bytes of character buffers

    The buffers strings and arrays point to are kept byte by byte, in a
    store of their own over the same addresses as the words of Mem.v (a
    block is used either for words or for bytes).  Copies, and the list of
    the bytes of a buffer. *)

From S2P Require Import Prelude.

Abbreviation bytes := (gmap Z Z).

(** The byte at [a]; fresh memory reads zero. *)
Definition rd (b : bytes) (a : Z) : Z := default 0 (b !! a).

(** Storing the list [l] from [a] on. *)
Fixpoint wr (b : bytes) (a : Z) (l : list Z) : bytes :=
  match l with [] => b | c :: l => wr (<[a := c]> b) (a + 1) l end.

(** The [n] bytes from [a] on. *)
Fixpoint rds (b : bytes) (a : Z) (n : nat) : list Z :=
  match n with O => [] | S n => rd b a :: rds b (a + 1) n end.

(** [memcpy] and [memset] of regions that do not overlap. *)
Definition memcpy (b : bytes) (dst src n : Z) : bytes := wr b dst (rds b src (Z.to_nat n)).
Definition memset (b : bytes) (dst c n : Z) : bytes := wr b dst (replicate (Z.to_nat n) c).

Lemma length_rds (b : bytes) (n : nat) : forall a, length (rds b a n) = n.
Proof. induction n as [|n IH]; intros a; [done|]. cbn [rds length]. by rewrite IH. Qed.

Lemma rd_wr_out (l : list Z) : forall b a x, x < a \/ a + Z.of_nat (length l) <= x -> rd (wr b a l) x = rd b x.
Proof.
  induction l as [|c l IH]; intros b a x Hx; [done|]. cbn [wr length] in *. rewrite IH by lia.
  unfold rd. rewrite lookup_insert_ne by lia. done.
Qed.

Lemma rds_ext (b b' : bytes) (n : nat) : forall a,
  (forall x, a <= x < a + Z.of_nat n -> rd b' x = rd b x) -> rds b' a n = rds b a n.
Proof.
  induction n as [|n IH]; intros a Hx; [done|]. cbn [rds]. rewrite Hx by lia. f_equal. apply IH. intros x ?. apply Hx. lia.
Qed.

Lemma rds_wr_out (b : bytes) (a : Z) (l : list Z) (x : Z) (n : nat) :
  x + Z.of_nat n <= a \/ a + Z.of_nat (length l) <= x -> rds (wr b a l) x n = rds b x n.
Proof. intros Hx. apply rds_ext. intros y Hy. apply rd_wr_out. lia. Qed.

Lemma rds_wr (l : list Z) : forall b a, rds (wr b a l) a (length l) = l.
Proof.
  induction l as [|c l IH]; intros b a; [done|]. cbn [wr length rds]. rewrite IH. f_equal.
  rewrite rd_wr_out by lia. unfold rd. by rewrite lookup_insert_eq.
Qed.

Lemma rds_app (b : bytes) (n k : nat) : forall a, rds b a (n + k) = rds b a n ++ rds b (a + Z.of_nat n) k.
Proof.
  induction n as [|n IH]; intros a; cbn [rds app Nat.add]; [by rewrite Z.add_0_r|].
  rewrite IH. do 3 f_equal. lia.
Qed.

(** Appending behind the [n] bytes at [a]. *)
Lemma rds_wr_snoc (b : bytes) (a : Z) (n : nat) (l : list Z) :
  rds (wr b (a + Z.of_nat n) l) a (n + length l) = rds b a n ++ l.
Proof. rewrite rds_app, rds_wr. f_equal. apply rds_wr_out. lia. Qed.

Lemma rds_lookup (b : bytes) (n : nat) : forall a i, (i < n)%nat -> rds b a n !! i = Some (rd b (a + Z.of_nat i)).
Proof.
  induction n as [|n IH]; intros a [|i] Hi; cbn [rds lookup list_lookup]; try lia.
  - by rewrite Z.add_0_r.
  - rewrite IH by lia. do 2 f_equal. lia.
Qed.

Lemma rds_take (b : bytes) (n k : nat) (a : Z) : (n <= k)%nat -> rds b a n = take n (rds b a k).
Proof. intros Hn. replace k with (n + (k - n))%nat by lia. rewrite rds_app, take_app_length' by (by rewrite length_rds). done. Qed.

(** The target of a copy reads like its source. *)
Lemma rds_memcpy (b : bytes) (dst src n : Z) (k : nat) : (k <= Z.to_nat n)%nat -> rds (memcpy b dst src n) dst k = rds b src k.
Proof.
  intros Hk. unfold memcpy. rewrite (rds_take _ k (Z.to_nat n)) by done.
  rewrite <- (length_rds b (Z.to_nat n) src) at 2. rewrite rds_wr. by rewrite <- rds_take.
Qed.
