(* ===== verification/Strings.v ===== *)
(** * Strings: heap-allocated strings (src/runtime/src/strings.c)

    A string is a block with a pointer to its characters and a size.  The
    conversions of numbers to text work on small stack buffers and are
    functions to lists of characters here. *)

From Stdlib Require Import SpecFloat.
From S2P Require Import Prelude Mem Alloc Heap Bytes.

(** ** Numbers as text *)

Definition CH_0 : Z := 48.
Definition CH_MINUS : Z := 45.
Definition CH_DOT : Z := 46.
Definition PERCENT : Z := 37.
Definition STRING : Z := 115.
Definition SIGNED_INT : Z := 100.
Definition UNSIGNED_INT : Z := 117.
Definition LONG : Z := 108.
Definition POINTER : Z := 112.
Definition FLOAT : Z := 102.

(** [do { tmp[i++] = '0' + (v % 10); v /= 10; } while (v);] *)
Fixpoint dec_loop (fuel : nat) (v : Z) (tmp : list Z) : option (list Z) :=
  match fuel with
  | O => None
  | S fuel =>
      let tmp := tmp ++ [CH_0 + v mod 10] in
      let v := v / 10 in
      if v =? 0 then Some tmp else dec_loop fuel v tmp
  end.

Definition swap_at (l : list Z) (i j : nat) : list Z :=
  match l !! i, l !! j with Some a, Some b => <[j := a]> (<[i := b]> l) | _, _ => l end.

(** The loop that reverses the digits in place; [n] iterations are left. *)
Fixpoint reverse_loop (n j : nat) (tmp : list Z) : list Z :=
  match n with O => tmp | S n => reverse_loop n (S j) (swap_at tmp j (length tmp - 1 - j)) end.

Definition u64_to_dec (v : Z) : option (list Z) :=
  tmp ← dec_loop 64 v [];
  Some (reverse_loop (length tmp / 2) 0 tmp).

(** [-v] overflows, which is undefined, for the smallest value. *)
Definition i64_to_dec (v : Z) : option (list Z) :=
  if v <? 0 then
    c_assert (negb (v =? - 2 ^ 63)) ;;
    ds ← u64_to_dec (uwrap 64 (- v)); Some (CH_MINUS :: ds)
  else u64_to_dec (uwrap 64 v).

Definition hex_digit (d : Z) : Z := if d <? 10 then CH_0 + d else 97 + (d - 10).

(** The loop over [shift = 60, 56, ..., 0]; [n] shifts are left. *)
Fixpoint hex_loop (n : nat) (v : Z) (started : bool) : list Z :=
  match n with
  | O => []
  | S n =>
      let shift := 4 * Z.of_nat n in
      let d := hex_digit (Z.land (Z.shiftr v shift) 15) in
      if negb (d =? CH_0) || started || (shift =? 0) then d :: hex_loop n v true else hex_loop n v started
  end.

Definition ptr_to_hex (p : Z) : list Z := [CH_0; 120] ++ hex_loop 16 p false.

(** A C [double]. *)
Abbreviation double := spec_float.
Definition double_mul (x y : double) : double := SFmul 53 1024 x y.
Definition double_sub (x y : double) : double := SFsub 53 1024 x y.
Definition double_of_Z (z : Z) : double := binary_normalize 53 1024 z 0 false.
(** Conversion to an integer drops the fraction; it is undefined for a value
    that is not finite. *)
Definition double_trunc (x : double) : option Z :=
  match x with
  | S754_zero _ => Some 0
  | S754_finite s m e => let z := Z.shiftl (Zpos m) e in Some (if s then - z else z)
  | _ => None
  end.
Definition double_negative (x : double) : bool := SFltb x (S754_zero false).

(** Six fractional digits; [n] are left. *)
Fixpoint frac_loop (n : nat) (frac : double) : option (list Z) :=
  match n with
  | O => Some []
  | S n =>
      let frac := double_mul frac (double_of_Z 10) in
      d ← double_trunc frac;
      ds ← frac_loop n (double_sub frac (double_of_Z d));
      Some (uwrap 8 (CH_0 + d) :: ds)
  end.

Definition f64_to_dec (v : double) : option (list Z) :=
  let neg := double_negative v in
  let v := if neg then SFopp v else v in
  ip ← double_trunc v;
  c_assert (ip <? 2 ^ 64) ;;
  ibuf ← u64_to_dec ip;
  ds ← frac_loop 6 (double_sub v (double_of_Z ip));
  Some ((if neg then [CH_MINUS] else []) ++ ibuf ++ [CH_DOT] ++ ds).

(** ** Strings in memory *)

(** [__public__string_t]: [data], [size]; 16 bytes. *)
Definition o_data : Z := 0.
Definition o_str_size : Z := 8.
Definition sizeof_string : Z := 16.

(** [__public__array_t]: [data], [shape], [length], [rank], [capacity],
    [elem_size]; 48 bytes. *)
Definition o_shape : Z := 8.
Definition o_length : Z := 16.
Definition o_rank : Z := 24.
Definition o_capacity : Z := 32.
Definition o_elem_size : Z := 40.
Definition sizeof_array : Z := 48.

(** The heap of the calling thread's arena and the bytes of its buffers. *)
Record sheap (H : Type) := SHeap { sh_heap : H; sh_bytes : bytes }.
Arguments SHeap {H} _ _.
Arguments sh_heap {H} _.
Arguments sh_bytes {H} _.

Section strings.
Context `{Heap H}.

Definition s_alloc (s : sheap H) (n : Z) : option (Z * sheap H) :=
  '(p, h) ← h_alloc (sh_heap s) n; Some (p, SHeap h (sh_bytes s)).
Definition s_free (s : sheap H) (p : Z) : option (sheap H) :=
  h ← h_free (sh_heap s) p; Some (SHeap h (sh_bytes s)).
Definition s_ld (s : sheap H) (a : Z) : Z := ld (h_mem (sh_heap s)) a.
Definition s_put (s : sheap H) (a v : Z) : sheap H := SHeap (put (sh_heap s) a v) (sh_bytes s).
Definition s_bytes (s : sheap H) (b : bytes) : sheap H := SHeap (sh_heap s) b.
Definition s_wr (s : sheap H) (a : Z) (l : list Z) : sheap H := s_bytes s (wr (sh_bytes s) a l).
Definition s_memcpy (s : sheap H) (dst src n : Z) : sheap H := s_bytes s (memcpy (sh_bytes s) dst src n).

Definition __public__strings_alloc_from_raw (s : sheap H) (fmt size : Z) : option (Z * sheap H) :=
  '(p, s) ← s_alloc s sizeof_string;
  '(d, s) ← s_alloc s (size_t (size + 1));
  let s := s_put s (p + o_data) d in
  let s := s_wr s (d + size) [0] in
  let s := s_memcpy s d fmt size in
  let s := s_put s (p + o_str_size) size in
  Some (p, s).

(** The block has [fmt->size] bytes, not [sizeof(__public__array_t)]. *)
Definition __public__strings_get_bytes (s : sheap H) (fmt : Z) : option (Z * sheap H) :=
  '(arr, s) ← s_alloc s (s_ld s (fmt + o_str_size));
  let s := s_put s (arr + o_data) (s_ld s (fmt + o_data)) in
  let count := s_ld s (fmt + o_str_size) in
  let s := s_put s (arr + o_shape) (s_ld s (arr + o_data) + count) in
  let s := s_put s (arr + o_length) count in
  let s := s_put s (arr + o_rank) 1 in
  Some (arr, s).

Definition __public__strings_alloc_from_arr (s : sheap H) (fmt : Z) : option (Z * sheap H) :=
  '(p, s) ← s_alloc s sizeof_string;
  let length := s_ld s (fmt + o_length) in
  '(d, s) ← s_alloc s (size_t (length + 1));
  let s := s_put s (p + o_data) d in
  let s := s_wr s (d + length) [0] in
  let s := s_memcpy s d (s_ld s (fmt + o_data)) length in
  let s := s_put s (p + o_str_size) (size_t length) in
  Some (p, s).

(** *** The growing buffer of [__public__strings_format] *)
Record outbuf := OutBuf { buf : Z; cap : Z; len : Z }.

(** [while (newcap < *len + n) newcap *= 2;] *)
Fixpoint newcap_loop (fuel : nat) (newcap need : Z) : option Z :=
  if newcap <? need then
    match fuel with O => None | S fuel => newcap_loop fuel (size_t (newcap * 2)) need end
  else Some newcap.

(** [src] are the bytes [src[0 .. n)] of the C function. *)
Definition buf_append (s : sheap H) (o : outbuf) (src : list Z) : option (sheap H * outbuf) :=
  let n := Z.of_nat (length src) in
  '(s, o) ← (if cap o <? len o + n then
               newcap ← newcap_loop 64 (if cap o =? 0 then 64 else size_t (cap o * 2)) (len o + n);
               '(nb, s) ← s_alloc s newcap;
               let s := if buf o =? NULL then s else s_memcpy s nb (buf o) (len o) in
               Some (s, OutBuf nb newcap (len o))
             else Some (s, o));
  Some (s_wr s (buf o + len o) src, OutBuf (buf o) (cap o) (len o + n)).

(** An argument of the variadic call. *)
Inductive varg := VInt (z : Z) | VLong (z : Z) | VPtr (p : Z) | VDouble (f : double).

(** One conversion: the text of the next argument(s) and the arguments left;
    reading an argument of another type is undefined. *)
Definition fetch (args : list varg) : option (varg * list varg) :=
  match args with [] => None | a :: args => Some (a, args) end.

Definition string_bytes (s : sheap H) (p : Z) : list Z :=
  if (p =? NULL) || (s_ld s (p + o_data) =? NULL) || (s_ld s (p + o_str_size) =? 0) then []
  else rds (sh_bytes s) (s_ld s (p + o_data)) (Z.to_nat (s_ld s (p + o_str_size))).

(** The loop over [fmt->data]; [n] bounds the iterations.  The source has it
    three times; the two copies in diskio.c ([long_d]) also skip a 'd' that
    follows LONG. *)
Fixpoint format_loop (long_d : bool) (n : nat) (s : sheap H) (o : outbuf) (fmt i : Z) (args : list varg)
  : option (sheap H * outbuf) :=
  let size := s_ld s (fmt + o_str_size) in
  let at_ k := rd (sh_bytes s) (s_ld s (fmt + o_data) + k) in
  if size <=? i then Some (s, o)
  else
    match n with
    | O => None
    | S n =>
        let c := at_ i in
        if negb (c =? PERCENT) then
          '(s, o) ← buf_append s o [c]; format_loop long_d n s o fmt (i + 1) args
        else
          let i := i + 1 in
          if size <=? i then Some (s, o)
          else
            let spec := at_ i in
            if spec =? PERCENT then
              '(s, o) ← buf_append s o [PERCENT]; format_loop long_d n s o fmt (i + 1) args
            else if spec =? STRING then
              '(a, args) ← fetch args;
              match a with
              | VPtr p =>
                  '(s, o) ← (match string_bytes s p with [] => Some (s, o) | l => buf_append s o l end);
                  format_loop long_d n s o fmt (i + 1) args
              | _ => None
              end
            else if spec =? SIGNED_INT then
              '(a, args) ← fetch args;
              match a with
              | VInt z => t ← i64_to_dec (swrap 32 z); '(s, o) ← buf_append s o t; format_loop long_d n s o fmt (i + 1) args
              | _ => None
              end
            else if spec =? UNSIGNED_INT then
              '(a, args) ← fetch args;
              match a with
              | VInt z => t ← u64_to_dec (uwrap 32 z); '(s, o) ← buf_append s o t; format_loop long_d n s o fmt (i + 1) args
              | _ => None
              end
            else if spec =? LONG then
              '(a, args) ← fetch args;
              match a with
              | VLong z =>
                  if (i + 1 <? size) && (at_ (i + 1) =? UNSIGNED_INT)
                  then t ← u64_to_dec (uwrap 64 z); '(s, o) ← buf_append s o t; format_loop long_d n s o fmt (i + 2) args
                  else
                    let i := if long_d && (i + 1 <? size) && (at_ (i + 1) =? SIGNED_INT) then i + 1 else i in
                    t ← i64_to_dec (swrap 64 z); '(s, o) ← buf_append s o t; format_loop long_d n s o fmt (i + 1) args
              | _ => None
              end
            else if spec =? POINTER then
              '(a, args) ← fetch args;
              match a with
              | VPtr p => '(s, o) ← buf_append s o (ptr_to_hex p); format_loop long_d n s o fmt (i + 1) args
              | _ => None
              end
            else if spec =? FLOAT then
              '(a, args) ← fetch args;
              match a with
              | VDouble f => t ← f64_to_dec f; '(s, o) ← buf_append s o t; format_loop long_d n s o fmt (i + 1) args
              | _ => None
              end
            else
              '(s, o) ← buf_append s o [PERCENT];
              '(s, o) ← buf_append s o [spec];
              format_loop long_d n s o fmt (i + 1) args
    end.

Definition __public__strings_format (s : sheap H) (fmt : Z) (args : list varg) : option (Z * sheap H) :=
  if (fmt =? NULL) || (s_ld s (fmt + o_data) =? NULL) then Some (NULL, s)
  else
    '(s, o) ← format_loop false (Z.to_nat (s_ld s (fmt + o_str_size))) s (OutBuf NULL 0 0) fmt 0 args;
    '(res, s) ← s_alloc s sizeof_string;
    let s := s_put s (res + o_data) (buf o) in
    let s := s_put s (res + o_str_size) (len o) in
    Some (res, s).

Definition __public__strings_length (s : sheap H) (str : Z) : Z := swrap 32 (s_ld s (str + o_str_size)).

Definition __public__strings_get (s : sheap H) (str i : Z) : Z := rd (sh_bytes s) (s_ld s (str + o_data) + i).

(** The loop over the common prefix; [n] bytes are left. *)
Fixpoint compare_loop (n : nat) (b : bytes) (d1 d2 : Z) : option Z :=
  match n with
  | O => None
  | S n =>
      let c1 := rd b d1 in let c2 := rd b d2 in
      if negb (c1 =? c2) then Some (c1 - c2) else compare_loop n b (d1 + 1) (d2 + 1)
  end.

Definition __public__strings_compare (s : sheap H) (str1 str2 : Z) : Z :=
  if (str1 =? NULL) || (str2 =? NULL) then
    if str1 =? str2 then 0 else if str1 =? NULL then -1 else 1
  else
    let n1 := s_ld s (str1 + o_str_size) in
    let n2 := s_ld s (str2 + o_str_size) in
    match compare_loop (Z.to_nat (Z.min n1 n2)) (sh_bytes s) (s_ld s (str1 + o_data)) (s_ld s (str2 + o_data)) with
    | Some r => r
    | None => swrap 32 (size_t (n1 - n2))
    end.

(** Copies one byte more than the string has before overwriting it. *)
Definition __public__strings_append (s : sheap H) (str ch : Z) : option (sheap H) :=
  let size := size_t (s_ld s (str + o_str_size) + 1) in
  let s := s_put s (str + o_str_size) size in
  '(data, s) ← s_alloc s (size_t (size + 1));
  c_assert (negb (s_ld s (str + o_data) =? NULL)) ;;
  let s := s_memcpy s data (s_ld s (str + o_data)) size in
  let s := s_wr s (data + (size - 1)) [uwrap 8 ch] in
  let s := s_wr s (data + size) [0] in
  s ← s_free s (s_ld s (str + o_data));
  Some (s_put s (str + o_data) data).

Definition __public__strings_join (s : sheap H) (str1 str2 : Z) : option (sheap H) :=
  let n1 := s_ld s (str1 + o_str_size) in
  let n2 := s_ld s (str2 + o_str_size) in
  let size := size_t (n1 + n2) in
  '(data, s) ← s_alloc s (size_t (size + 1));
  let s := s_memcpy s data (s_ld s (str1 + o_data)) n1 in
  let s := s_memcpy s (data + n1) (s_ld s (str2 + o_data)) n2 in
  let s := s_wr s (data + size) [0] in
  s ← s_free s (s_ld s (str1 + o_data));
  let s := s_put s (str1 + o_data) data in
  Some (s_put s (str1 + o_str_size) size).

Definition __public__strings_substring (s : sheap H) (str start end_ : Z) : option (Z * sheap H) :=
  if (start <? 0) || (ssize_t (s_ld s (str + o_str_size)) <? end_) then Some (NULL, s)
  else
    let size := end_ - start in
    '(data, s) ← s_alloc s (size_t (size + 1));
    c_assert (negb (data =? NULL) && (0 <=? size)) ;;
    let s := s_memcpy s data (s_ld s (str + o_data) + start) size in
    let s := s_wr s (data + size) [0] in
    '(res, s) ← s_alloc s sizeof_string;
    let s := s_put s (res + o_data) data in
    let s := s_put s (res + o_str_size) size in
    Some (res, s).
End strings.
