(* ===== verification/Decimal.v ===== *)
(** * Decimal: the digits the number conversions produce *)

From S2P Require Import Prelude Strings.

(** ** Decimal text *)

Definition is_digit (c : Z) : Prop := CH_0 <= c <= CH_0 + 9.

(** The value of a digit string, most significant digit first. *)
Definition dec_value (l : list Z) : Z := foldl (fun a c => 10 * a + (c - CH_0)) 0 l.

(** The value of the text of a signed number. *)
Definition signed_value (l : list Z) : Z :=
  match l with c :: ds => if c =? CH_MINUS then - dec_value ds else dec_value l | [] => 0 end.

(** The same from the other end. *)
Definition le_value (l : list Z) : Z := foldr (fun c a => (c - CH_0) + 10 * a) 0 l.

Lemma dec_value_rev (l : list Z) : dec_value (reverse l) = le_value l.
Proof.
  unfold dec_value, le_value. induction l as [|c l IH]; [done|]. rewrite reverse_cons, foldl_snoc, IH. cbn [foldr]. lia.
Qed.

Lemma dec_loop_spec (fuel : nat) : forall v tmp, 0 <= v < 10 ^ Z.of_nat fuel -> (0 < fuel)%nat ->
  exists ds, dec_loop fuel v tmp = Some (tmp ++ ds) /\ le_value ds = v /\ Forall is_digit ds /\
    (1 <= length ds <= fuel)%nat /\ (v <> 0 -> last ds <> Some CH_0).
Proof.
  induction fuel as [|fuel IH]; intros v tmp Hv Hf; [lia|]. cbn [dec_loop].
  pose proof (Z.div_mod v 10). pose proof (Z.mod_pos_bound v 10).
  assert (is_digit (CH_0 + v mod 10)) as Hd by (unfold is_digit; lia).
  destruct (Z.eqb_spec (v / 10) 0) as [E|Hne].
  - exists [CH_0 + v mod 10]. cbn [le_value foldr length last]. split_and!; try done; try lia; [by constructor|].
    intros Hv0 [= ?]. lia.
  - assert (0 <= v / 10 < 10 ^ Z.of_nat fuel) as Hv'.
    { split; [apply Z.div_pos; lia|]. apply Z.div_lt_upper_bound; [lia|].
      rewrite Nat2Z.inj_succ, Z.pow_succ_r in Hv by lia. lia. }
    assert (0 < fuel)%nat as Hf' by (destruct fuel; [cbn in Hv'; lia|lia]).
    destruct (IH (v / 10) (tmp ++ [CH_0 + v mod 10]) Hv' Hf') as (ds & -> & Ev & Hds & Hl & Hlast).
    exists ((CH_0 + v mod 10) :: ds). rewrite <- app_assoc. split; [done|]. cbn [le_value foldr length].
    fold (le_value ds). split_and!; [lia|by constructor|lia|lia|].
    intros _. destruct ds as [|d ds]; [cbn in Hl; lia|]. rewrite last_cons_cons. by apply Hlast.
Qed.

(** More fuel gives the same digits. *)
Lemma dec_loop_more (f f' : nat) : forall v tmp ds, (f <= f')%nat -> dec_loop f v tmp = Some ds -> dec_loop f' v tmp = Some ds.
Proof.
  revert f'. induction f as [|f IH]; intros [|f'] v tmp ds Hf E; try done; [lia|]. cbn [dec_loop] in *.
  destruct (v / 10 =? 0); [done|]. apply IH; [lia|done].
Qed.

(** *** Reversing in place *)
Lemma length_swap (l : list Z) (i j : nat) : length (swap_at l i j) = length l.
Proof. unfold swap_at. destruct (l !! i), (l !! j); rewrite ?length_insert; done. Qed.

Lemma swap_lookup (l : list Z) (i j k : nat) : (i < length l)%nat -> (j < length l)%nat ->
  swap_at l i j !! k = if decide (k = j) then l !! i else if decide (k = i) then l !! j else l !! k.
Proof.
  intros Hi Hj. unfold swap_at. destruct (lookup_lt_is_Some_2 l i Hi) as [a Ea], (lookup_lt_is_Some_2 l j Hj) as [b Eb].
  rewrite Ea, Eb. case_decide as E1; [subst; apply list_lookup_insert_eq; by rewrite length_insert|].
  rewrite list_lookup_insert_ne by done. case_decide as E2; [subst; by apply list_lookup_insert_eq|by rewrite list_lookup_insert_ne].
Qed.

Lemma reverse_loop_lookup (n : nat) : forall j tmp k, (j + n <= length tmp / 2)%nat -> (k < length tmp)%nat ->
  reverse_loop n j tmp !! k =
    if decide ((j <= k < j + n)%nat \/ (length tmp - j - n <= k < length tmp - j)%nat) then tmp !! (length tmp - 1 - k)%nat else tmp !! k.
Proof.
  induction n as [|n IH]; intros j tmp k Hn Hk; cbn [reverse_loop].
  - rewrite decide_False by lia. done.
  - pose proof (Nat.div_mod_eq (length tmp) 2). pose proof (Nat.mod_upper_bound (length tmp) 2).
    rewrite IH by (rewrite ?length_swap; lia). rewrite length_swap. rewrite !swap_lookup by lia.
    repeat case_decide; try lia; try done; f_equal; lia.
Qed.

Lemma length_reverse_loop (n : nat) : forall j tmp, length (reverse_loop n j tmp) = length tmp.
Proof. induction n as [|n IH]; intros j tmp; [done|]. cbn [reverse_loop]. by rewrite IH, length_swap. Qed.

Lemma reverse_loop_reverse (tmp : list Z) : reverse_loop (length tmp / 2) 0 tmp = reverse tmp.
Proof.
  apply list_eq. intros k. destruct (decide (k < length tmp)%nat) as [Hk|Hk].
  - rewrite reverse_loop_lookup, reverse_lookup by lia.
    pose proof (Nat.div_mod_eq (length tmp) 2). pose proof (Nat.mod_upper_bound (length tmp) 2).
    case_decide; f_equal; lia.
  - rewrite !lookup_ge_None_2; [done|rewrite length_reverse; lia|rewrite length_reverse_loop; lia].
Qed.

Lemma u64_to_dec_ok (v : Z) : in_uint 64 v ->
  exists ds, u64_to_dec v = Some ds /\ dec_value ds = v /\ Forall is_digit ds /\ (1 <= length ds <= 20)%nat /\
    (v <> 0 -> head ds <> Some CH_0).
Proof.
  intros [H0 H1]. assert (v < 10 ^ 20) by lia.
  destruct (dec_loop_spec 20 v [] ltac:(lia) ltac:(lia)) as (ds & E & Ev & Hd & Hl & Hlast).
  assert (dec_loop 64 v [] = Some ds) as E64 by (apply (dec_loop_more 20 64 v [] ds); [lia|exact E]). clear E.
  unfold u64_to_dec. rewrite E64. cbn [mbind option_bind].
  exists (reverse ds). rewrite reverse_loop_reverse, dec_value_rev, length_reverse, head_reverse. split_and!; try done; try lia.
  by apply Forall_reverse.
Qed.
