(* ===== verification/StrHeap.v ===== *)
(** * StrHeap: strings and buffers as regions of live blocks

    What the string and array operations do to the heap: allocation,
    assignment and copying as steps that keep every block they do not name,
    and the predicates that say which blocks hold a string. *)

From S2P Require Import Prelude Mem Alloc Heap Bytes Strings.

Section steps.
Context `{HeapSpec H}.
Implicit Types (s : sheap H) (L : gmap Z Z).

Definition s_ok s L : Prop := h_ok (sh_heap s) L.
Definition s_room s (r : nat) : Prop := h_room (sh_heap s) r.

(** The words and the bytes of the blocks in [L] are the same. *)
Definition kept L s s' : Prop :=
  blocks_kept L (h_mem (sh_heap s)) (h_mem (sh_heap s')) /\
  forall p n x, L !! p = Some n -> p <= x < p + n -> rd (sh_bytes s') x = rd (sh_bytes s) x.

Lemma kept_refl L s : kept L s s.
Proof. split; [by apply blocks_kept_refl|done]. Qed.

Lemma kept_trans L s1 s2 s3 : kept L s1 s2 -> kept L s2 s3 -> kept L s1 s3.
Proof.
  intros [W1 B1] [W2 B2]. split.
  - intros p n x Hp Hx. by rewrite (W2 p n x), (W1 p n x).
  - intros p n x Hp Hx. by rewrite (B2 p n x), (B1 p n x).
Qed.

Lemma kept_sub L L' s s' : L ⊆ L' -> kept L' s s' -> kept L s s'.
Proof.
  intros Hs [W B]. split.
  - intros p n x Hp. apply (W p n). by eapply lookup_weaken.
  - intros p n x Hp. apply (B p n). by eapply lookup_weaken.
Qed.

Lemma kept_ld L s s' p n x : kept L s s' -> L !! p = Some n -> p <= x < p + n -> s_ld s' x = s_ld s x.
Proof. intros [W _]. apply W. Qed.

Lemma kept_rds L s s' p n x k : kept L s s' -> L !! p = Some n -> p <= x -> x + Z.of_nat k <= p + n ->
  rds (sh_bytes s') x k = rds (sh_bytes s) x k.
Proof. intros [_ B] Hp Hx Hk. apply rds_ext. intros y Hy. apply (B p n); [done|lia]. Qed.

Lemma s_block s L p n : s_ok s L -> L !! p = Some n -> 16 < p /\ 32 <= n.
Proof. intros Ho Hp. destruct (h_block _ _ _ _ Ho Hp) as (? & _ & ?). done. Qed.

Lemma s_alloc_ok s L n r : s_ok s L -> s_room s (S r) -> 0 < n <= REQUEST_MAX ->
  exists p k s', s_alloc s n = Some (p, s') /\ L !! p = None /\ n <= k < MMAP_THRESHOLD /\
    s_ok s' (<[p := k]> L) /\ kept L s s' /\ s_room s' r /\ sh_bytes s' = sh_bytes s.
Proof.
  intros Ho Hr Hn. destruct (h_alloc_spec _ _ _ _ Ho Hr Hn) as (p & k & h' & E & Hp & [? ?] & Ho' & HK & Hr').
  exists p, k, (SHeap h' (sh_bytes s)). unfold s_alloc. rewrite E. split_and!; done.
Qed.

Lemma s_free_ok s L p n : s_ok s L -> L !! p = Some n -> n < MMAP_THRESHOLD ->
  exists s', s_free s p = Some s' /\ s_ok s' (delete p L) /\ kept (delete p L) s s' /\ (forall r, s_room s r -> s_room s' r) /\
    sh_bytes s' = sh_bytes s.
Proof.
  intros Ho Hp Hn. destruct (h_free_spec _ _ _ _ Ho Hp Hn) as (h' & E & Ho' & HK & Hr).
  exists (SHeap h' (sh_bytes s)). unfold s_free. rewrite E. split_and!; done.
Qed.

(** An assignment to the block at [p] keeps the others. *)
Lemma s_put_kept s L p n a v : s_ok s L -> L !! p = Some n -> p <= a < p + n -> kept (delete p L) s (s_put s a v).
Proof.
  intros Ho Hp Ha. split; [|done]. intros q k x [Hne Hq]%lookup_delete_Some Hx.
  unfold s_put. cbn [sh_heap]. rewrite put_mem, ld_st_ne; [done|].
  pose proof (h_apart _ _ _ _ _ _ Ho Hp Hq Hne). lia.
Qed.

Lemma s_wr_kept s L p n a l : s_ok s L -> L !! p = Some n -> p <= a -> a + Z.of_nat (length l) <= p + n ->
  kept (delete p L) s (s_wr s a l).
Proof.
  intros Ho Hp Ha Hl. split; [done|]. intros q k x [Hne Hq]%lookup_delete_Some Hx.
  cbn [s_wr s_bytes sh_bytes]. apply rd_wr_out. pose proof (h_apart _ _ _ _ _ _ Ho Hp Hq Hne). lia.
Qed.

Lemma s_put_ok s L p n a v : s_ok s L -> L !! p = Some n -> p <= a < p + n -> s_ok (s_put s a v) L.
Proof. unfold s_ok, s_put. cbn [sh_heap]. intros. by eapply put_ok. Qed.

Lemma s_put_room s a v r : s_room s r -> s_room (s_put s a v) r.
Proof. unfold s_room, s_put. cbn [sh_heap]. apply put_room. Qed.

Lemma s_ld_put s a v x : s_ld (s_put s a v) x = if decide (x = a) then v else s_ld s x.
Proof.
  unfold s_ld, s_put. cbn [sh_heap]. rewrite put_mem.
  case_decide; [subst; by rewrite ld_st_eq|by rewrite ld_st_ne].
Qed.

(** *** Strings *)

(** The string object at [p] has the characters [l]; one without characters
    may have no buffer. *)
Definition str_at s L (p : Z) (l : list Z) : Prop :=
  is_Some (L !! p) /\ s_ld s (p + o_str_size) = Z.of_nat (length l) /\
  (s_ld s (p + o_data) = NULL /\ l = [] \/
   exists k, L !! s_ld s (p + o_data) = Some k /\ Z.of_nat (length l) <= k < MMAP_THRESHOLD /\
     rds (sh_bytes s) (s_ld s (p + o_data)) (length l) = l).

(** The string at [p] with its buffer [d], both live blocks. *)
Definition str_own s L (p d : Z) (l : list Z) : Prop :=
  s_ld s (p + o_data) = d /\ str_at s L p l /\ is_Some (L !! d).

Lemma str_at_keep s s' L L1 L' p l : s_ok s L -> L1 ⊆ L -> kept L1 s s' -> L1 ⊆ L' -> str_at s L1 p l -> str_at s' L' p l.
Proof.
  intros Ho Hs1 HK Hs ([n Hp] & El & Hd). destruct (s_block _ _ _ _ Ho (lookup_weaken _ _ _ _ Hp Hs1)) as [_ Hn].
  unfold str_at. rewrite !(kept_ld L1 s s' p n) by (try done; unfold o_data, o_str_size; lia).
  split; [exists n; by eapply lookup_weaken|]. split; [done|].
  destruct Hd as [Hd|(k & Hk & Hl & Er)]; [by left|right]. exists k. split; [by eapply lookup_weaken|]. split; [done|].
  rewrite (kept_rds L1 s s' _ k) by (try done; lia). done.
Qed.

Lemma str_own_keep s s' L L1 L' p d l : s_ok s L -> L1 ⊆ L -> kept L1 s s' -> L1 ⊆ L' -> str_own s L1 p d l -> str_own s' L' p d l.
Proof.
  intros Ho Hs1 HK Hs (Ed & Hs' & [k Hk]). destruct (Hs') as ([n Hp] & _).
  destruct (s_block _ _ _ _ Ho (lookup_weaken _ _ _ _ Hp Hs1)) as [_ Hn].
  split_and!; [|by eapply str_at_keep|exists k; by eapply lookup_weaken].
  rewrite (kept_ld L1 s s' p n) by (try done; unfold o_data; lia). done.
Qed.

Lemma str_at_kept s s' L L' p l : s_ok s L -> kept L s s' -> L ⊆ L' -> str_at s L p l -> str_at s' L' p l.
Proof. intros Ho HK Hs. by eapply str_at_keep. Qed.

Lemma str_own_kept s s' L L' p d l : s_ok s L -> kept L s s' -> L ⊆ L' -> str_own s L p d l -> str_own s' L' p d l.
Proof. intros Ho HK Hs. by eapply str_own_keep. Qed.

(** Only the blocks of the string itself matter. *)
Lemma str_own_sub s L L' p d l : L' ⊆ L -> is_Some (L' !! p) -> is_Some (L' !! d) -> str_own s L p d l -> str_own s L' p d l.
Proof.
  intros Hs Hp [k Hk] (Ed & (_ & El & Hd) & _). split_and!; [done| |by exists k]. split_and!; [done..|].
  destruct Hd as [?|(j & Hj & ?)]; [by left|right]. exists j. split; [|done].
  rewrite Ed in *. rewrite Hk. by rewrite (lookup_weaken _ _ _ _ Hk Hs) in Hj.
Qed.

Lemma str_own_block s L p d l : s_ok s L -> str_own s L p d l ->
  exists n k, L !! p = Some n /\ L !! d = Some k /\ 32 <= n /\ 16 < p /\ 16 < d /\ Z.of_nat (length l) <= k < MMAP_THRESHOLD /\
    rds (sh_bytes s) d (length l) = l /\ s_ld s (p + o_str_size) = Z.of_nat (length l).
Proof.
  intros Ho (Ed & ([n Hp] & El & Hd) & [k Hk]). rewrite Ed in Hd.
  destruct (s_block _ _ _ _ Ho Hp) as [Hp0 Hn], (s_block _ _ _ _ Ho Hk) as [Hd0 _].
  destruct Hd as [[-> _]|(j & Hj & Hl & Er)]; [lia|]. rewrite Hk in Hj. injection Hj as <-.
  exists n, k. done.
Qed.
End steps.
