(* ===== verification/StrSpec.v ===== *)
(** * StrSpec: the operations that build and change strings

    Each operation is followed through the heap: where the result is, what
    characters it has, and that the blocks it does not own keep theirs. *)

From S2P Require Import Prelude Mem Alloc Heap Bytes Strings StrHeap.

Section spec.
Context `{HeapSpec H}.
Implicit Types (s : sheap H) (L : gmap Z Z).

(** Writes into a fresh block keep the blocks that were live before it. *)
Lemma fresh_wr s L p k a l : s_ok s (<[p := k]> L) -> L !! p = None -> p <= a -> a + Z.of_nat (length l) <= p + k ->
  kept L s (s_wr s a l).
Proof.
  intros Ho Hp Ha Hl. rewrite <- (delete_insert_id L p k Hp). eapply s_wr_kept; [done|by rewrite lookup_insert_eq|done..].
Qed.

Lemma fresh_put s L p k a v : s_ok s (<[p := k]> L) -> L !! p = None -> p <= a < p + k -> kept L s (s_put s a v).
Proof.
  intros Ho Hp Ha. rewrite <- (delete_insert_id L p k Hp). eapply s_put_kept; [done|by rewrite lookup_insert_eq|done].
Qed.

Lemma fresh_put_ok s L p k a v : s_ok s (<[p := k]> L) -> p <= a < p + k -> s_ok (s_put s a v) (<[p := k]> L).
Proof. intros Ho Ha. eapply s_put_ok; [done|by rewrite lookup_insert_eq|done]. Qed.

Lemma kept_fresh L p (k : Z) : L !! p = None -> L ⊆ <[p := k]> L.
Proof. apply insert_subseteq. Qed.

(** Freeing the old buffer [d0] of the string at [p] and attaching the new
    one [d]. *)
Lemma rebuffer s L p n d0 k0 d k : s_ok s (<[d := k]> L) -> L !! d = None -> L !! p = Some n -> L !! d0 = Some k0 ->
  k0 < MMAP_THRESHOLD -> p <> d0 ->
  exists s1, s_free s d0 = Some s1 /\ let s2 := s_put s1 (p + o_data) d in
    s_ok s2 (<[d := k]> (delete d0 L)) /\ kept (delete p (<[d := k]> (delete d0 L))) s s2 /\ kept (delete p (delete d0 L)) s s2 /\
    sh_bytes s2 = sh_bytes s /\ s_ld s2 (p + o_data) = d /\
    forall x, p <= x < p + n -> x <> p + o_data -> s_ld s2 x = s_ld s x.
Proof.
  intros Ho Hd Hp Hd0 Hk Hne. assert (d <> d0) as Hdd by congruence. assert (p <> d) as Hpd by congruence.
  destruct (s_free_ok s _ d0 k0 Ho) as (s1 & E & Ho1 & HK1 & _ & Eb); [by rewrite lookup_insert_ne|done|].
  rewrite delete_insert_ne in Ho1, HK1 by done.
  assert (<[d := k]> (delete d0 L) !! p = Some n) as Hp1 by (by rewrite lookup_insert_ne, lookup_delete_ne).
  assert (32 <= n) as Hn by (apply (s_block _ _ _ _ Ho1 Hp1)).
  exists s1. split; [done|]. cbv zeta.
  assert (p <= p + o_data < p + n) as Hin by (unfold o_data; lia).
  assert (kept (delete p (<[d := k]> (delete d0 L))) s (s_put s1 (p + o_data) d)) as HK.
  { eapply kept_trans; [|by eapply s_put_kept]. eapply kept_sub; [apply delete_subseteq|exact HK1]. }
  split; [by eapply s_put_ok|]. split; [exact HK|]. split; [|split; [by cbn|split]].
  - eapply kept_sub; [|exact HK]. apply delete_mono, insert_subseteq. by rewrite lookup_delete_ne.
  - rewrite s_ld_put, decide_True by done. done.
  - intros x Hx Hxd. rewrite s_ld_put, decide_False by done. eapply kept_ld; [exact HK1|exact Hp1|exact Hx].
Qed.

(** The conclusion both [append] and [join] reach. *)
Definition grown s L s' (p d0 : Z) (l : list Z) : Prop :=
  exists d k, L !! d = None /\ s_ok s' (<[d := k]> (delete d0 L)) /\ str_own s' (<[d := k]> (delete d0 L)) p d l /\
    kept (delete p (delete d0 L)) s s'.

Lemma append_ok s L p d l ch r : s_ok s L -> s_room s (S r) -> str_own s L p d l -> p <> d ->
  Z.of_nat (length l) + 2 <= REQUEST_MAX ->
  exists s', __public__strings_append s p ch = Some s' /\ grown s L s' p d (l ++ [uwrap 8 ch]).
Proof.
  intros Ho Hr Hs Hne Hlen. destruct (str_own_block s L p d l Ho Hs) as (n & k0 & Hp & Hd & Hn & Hp0 & Hd0 & Hk0 & Er & El).
  unfold REQUEST_MAX in Hlen. unfold __public__strings_append. rewrite El.
  rewrite (uwrap_small 64 (Z.of_nat (length l) + 1)) by (unfold in_uint; lia).
  rewrite (uwrap_small 64 (Z.of_nat (length l) + 1 + 1)) by (unfold in_uint; lia).
  set (s0 := s_put s (p + o_str_size) _).
  assert (p <= p + o_str_size < p + n) as Hin by (unfold o_str_size; lia).
  assert (s_ok s0 L) as Ho0 by (exact (s_put_ok s L p n _ _ Ho Hp Hin)).
  assert (kept (delete p L) s s0) as HK0 by (exact (s_put_kept s L p n _ _ Ho Hp Hin)).
  destruct (s_alloc_ok s0 L (Z.of_nat (length l) + 1 + 1) r) as (b & k & s1 & -> & Hb & Hk & Ho1 & HK1 & _ & Eb);
    [done|by apply s_put_room|unfold REQUEST_MAX; lia|]. cbn [mbind option_bind].
  assert (s_ld s1 (p + o_data) = d) as Ed1.
  { rewrite (kept_ld L s0 s1 p n) by (try done; unfold o_data; lia). unfold s0.
    rewrite s_ld_put, decide_False by (unfold o_data, o_str_size; lia). apply Hs. }
  rewrite Ed1. replace (d =? NULL) with false by lia. cbn [c_assert negb mbind option_bind].
  set (s2 := s_memcpy s1 b d _). set (s3 := s_wr s2 _ _). set (s4 := s_wr s3 _ _).
  assert (kept L s1 s2) as HK2.
  { eapply fresh_wr; [exact Ho1|done|lia|]. rewrite length_rds. lia. }
  assert (kept L s2 s3) as HK3 by (eapply fresh_wr; [exact Ho1|done|cbn; lia..]).
  assert (kept L s3 s4) as HK4 by (eapply fresh_wr; [exact Ho1|done|cbn; lia..]).
  assert (kept L s0 s4) as HK04 by eauto using kept_trans.
  change (s_ld s4 (p + o_data)) with (s_ld s1 (p + o_data)). rewrite Ed1.
  destruct (rebuffer s4 L p n d k0 b k) as (s5 & E5 & Ho6 & _ & HK6 & Eb6 & Ed6 & Es6); [done..|apply Hk0|done|].
  rewrite E5. cbn [mbind option_bind]. eexists. split; [done|]. exists b, k. split; [done|]. split; [done|].
  assert (rds (sh_bytes s4) b (length (l ++ [uwrap 8 ch])) = l ++ [uwrap 8 ch]) as Erd.
  { rewrite length_app. unfold s4. cbn [s_wr s_bytes sh_bytes]. rewrite rds_wr_out by (cbn; lia).
    unfold s3. cbn [s_wr s_bytes sh_bytes]. replace (b + (Z.of_nat (length l) + 1 - 1)) with (b + Z.of_nat (length l)) by lia.
    rewrite rds_wr_snoc. f_equal. unfold s2, s_memcpy. cbn [s_bytes sh_bytes].
    rewrite rds_memcpy by lia. rewrite Eb. exact Er. }
  split; [split_and!|].
  - done.
  - split_and!; [by exists n; rewrite lookup_insert_ne, lookup_delete_ne by congruence| |].
    + rewrite Es6 by (unfold o_data, o_str_size in *; lia). change (s_ld s4) with (s_ld s1). rewrite (kept_ld L s0 s1 p n) by done. unfold s0.
      rewrite s_ld_put, decide_True, length_app by done. cbn [length]. lia.
    + right. exists k. rewrite Ed6, Eb6. split; [by rewrite lookup_insert_eq|]. split; [rewrite length_app; cbn; lia|done].
  - exists k. by rewrite lookup_insert_eq.
  - eapply kept_trans; [|exact HK6]. eapply kept_trans; (eapply kept_sub; [|done]).
    + apply delete_mono, delete_subseteq.
    + etrans; [apply delete_subseteq|apply delete_subseteq].
Qed.

Lemma str_size s L p l : str_at s L p l -> s_ld s (p + o_str_size) = Z.of_nat (length l).
Proof. by intros (_ & ? & _). Qed.

Lemma str_at_bytes s L p l : str_at s L p l -> rds (sh_bytes s) (s_ld s (p + o_data)) (length l) = l.
Proof. intros (_ & _ & [[_ ->]|(k & _ & _ & E)]); done. Qed.

(** [str2] may be any readable string, [str1] owns its buffer. *)
Lemma join_ok s L p1 d1 l1 p2 l2 r : s_ok s L -> s_room s (S r) -> str_own s L p1 d1 l1 -> p1 <> d1 ->
  str_at s L p2 l2 -> Z.of_nat (length l1 + length l2) + 1 <= REQUEST_MAX ->
  exists s', __public__strings_join s p1 p2 = Some s' /\ grown s L s' p1 d1 (l1 ++ l2).
Proof.
  intros Ho Hr Hs1 Hne Hs2 Hlen.
  destruct (str_own_block s L p1 d1 l1 Ho Hs1) as (n & k0 & Hp & Hd & Hn & _ & _ & Hk0 & Er1 & El1).
  pose proof (str_size _ _ _ _ Hs2) as El2. destruct (Hs2) as ([n2 Hp2] & _). destruct (s_block _ _ _ _ Ho Hp2) as [_ Hn2].
  unfold REQUEST_MAX in Hlen. rewrite Nat2Z.inj_add in Hlen. unfold __public__strings_join. rewrite El1, El2.
  rewrite (uwrap_small 64 (Z.of_nat (length l1) + Z.of_nat (length l2))) by (unfold in_uint; lia).
  rewrite uwrap_small by (unfold in_uint; lia).
  destruct (s_alloc_ok s L (Z.of_nat (length l1) + Z.of_nat (length l2) + 1) r) as (b & k & s1 & -> & Hb & Hk & Ho1 & HK1 & _ & Eb);
    [done|done|unfold REQUEST_MAX; lia|]. cbn [mbind option_bind].
  assert (str_own s1 (<[b := k]> L) p1 d1 l1) as Hs1' by (eapply str_own_kept; [exact Ho|exact HK1|by apply kept_fresh|done]).
  assert (str_at s1 (<[b := k]> L) p2 l2) as Hs2' by (eapply str_at_kept; [exact Ho|exact HK1|by apply kept_fresh|done]).
  pose proof (proj1 Hs1') as Ed1. rewrite Ed1.
  set (s2 := s_memcpy s1 b _ _). change (s_ld s2 (p2 + o_data)) with (s_ld s1 (p2 + o_data)).
  set (s3 := s_memcpy s2 _ _ _). set (s4 := s_wr s3 _ _).
  assert (kept L s1 s2) as HK2 by (eapply fresh_wr; [exact Ho1|done|lia|rewrite length_rds; lia]).
  assert (kept L s2 s3) as HK3 by (eapply fresh_wr; [exact Ho1|done|lia|rewrite length_rds; lia]).
  assert (kept L s3 s4) as HK4 by (eapply fresh_wr; [exact Ho1|done|cbn; lia..]).
  assert (kept L s s4) as HK04 by eauto using kept_trans.
  change (s_ld s4 (p1 + o_data)) with (s_ld s1 (p1 + o_data)). rewrite Ed1.
  destruct (rebuffer s4 L p1 n d1 k0 b k) as (s5 & E5 & Ho6 & _ & HK6 & Eb6 & Ed6 & Es6); [done..|apply Hk0|done|].
  rewrite E5. cbn [mbind option_bind]. eexists. split; [done|]. exists b, k.
  assert (<[b := k]> (delete d1 L) !! p1 = Some n) as Hp1 by (by rewrite lookup_insert_ne, lookup_delete_ne by congruence).
  assert (p1 <= p1 + o_str_size < p1 + n) as Hin by (unfold o_str_size; lia).
  assert (rds (sh_bytes s4) b (length (l1 ++ l2)) = l1 ++ l2) as Erd.
  { rewrite length_app. unfold s4. cbn [s_wr s_bytes sh_bytes]. rewrite rds_wr_out by lia. rewrite rds_app.
    unfold s3, s_memcpy. cbn [s_bytes sh_bytes]. rewrite rds_memcpy by lia. f_equal.
    - unfold memcpy. rewrite rds_wr_out by lia. unfold s2, s_memcpy. cbn [s_bytes sh_bytes]. rewrite rds_memcpy by lia.
      rewrite Eb. exact Er1.
    - destruct Hs2 as (_ & _ & Hd2). assert (rds (sh_bytes s2) (s_ld s1 (p2 + o_data)) (length l2) =
        rds (sh_bytes s1) (s_ld s1 (p2 + o_data)) (length l2)) as ->; [|by eapply str_at_bytes].
      rewrite (kept_ld L s s1 p2 n2) by (try done; unfold o_data; lia).
      destruct Hd2 as [[_ ->]|(k2 & Hk2 & ? & _)]; [done|]. eapply kept_rds; [exact HK2|exact Hk2|lia..]. }
  split; [done|]. split; [by eapply s_put_ok|]. split; [split_and!|].
  - rewrite s_ld_put, decide_False by (unfold o_data, o_str_size; lia). done.
  - split_and!; [by exists n|rewrite s_ld_put, decide_True, length_app by done; lia|].
    right. exists k. rewrite s_ld_put, decide_False, Ed6 by (unfold o_data, o_str_size; lia). cbn [s_put sh_bytes]. cbn [s_put sh_bytes] in Eb6.
    rewrite Eb6. split; [by rewrite lookup_insert_eq|]. split; [rewrite length_app; lia|done].
  - exists k. by rewrite lookup_insert_eq.
  - assert (kept (delete p1 (delete d1 L)) s s4) as HK by (eapply kept_sub; [|exact HK04]; etrans; apply delete_subseteq).
    eapply kept_trans; [exact HK|]. eapply kept_trans; [exact HK6|].
    eapply kept_sub; [|by eapply s_put_kept]. apply delete_mono, insert_subseteq. by rewrite lookup_delete_ne by congruence.
Qed.

(** *** New strings *)

(** [d] can be the buffer of a string with the characters [l]. *)
Definition is_buf s L (d : Z) (l : list Z) : Prop :=
  d = NULL /\ l = [] \/
  exists k, L !! d = Some k /\ Z.of_nat (length l) <= k < MMAP_THRESHOLD /\ rds (sh_bytes s) d (length l) = l.

Lemma is_buf_kept s s' L L' d l : kept L s s' -> L ⊆ L' -> is_buf s L d l -> is_buf s' L' d l.
Proof.
  intros HK Hs [?|(k & Hk & Hl & E)]; [by left|right]. exists k. split; [by eapply lookup_weaken|]. split; [done|].
  rewrite <- E at 2. eapply kept_rds; [exact HK|exact Hk|lia..].
Qed.

(** [p = allocate(...); p->data = d; p->size = n;] *)
Lemma make_obj s L d l r : s_ok s L -> s_room s (S r) -> is_buf s L d l ->
  exists p n s1, s_alloc s sizeof_string = Some (p, s1) /\ L !! p = None /\
    let s2 := s_put (s_put s1 (p + o_data) d) (p + o_str_size) (Z.of_nat (length l)) in
    s_ok s2 (<[p := n]> L) /\ str_at s2 (<[p := n]> L) p l /\ s_ld s2 (p + o_data) = d /\ kept L s s2 /\ s_room s2 r.
Proof.
  intros Ho Hr Hb. destruct (s_alloc_ok s L sizeof_string r Ho Hr) as (p & n & s1 & E & Hp & Hn & Ho1 & HK1 & Hr1 & Eb);
    [unfold REQUEST_MAX, sizeof_string; lia|]. exists p, n, s1. split; [done|]. split; [done|]. cbv zeta. unfold sizeof_string in Hn.
  assert (kept L s1 (s_put s1 (p + o_data) d)) as HK2 by (eapply fresh_put; [exact Ho1|done|unfold o_data; lia]).
  assert (s_ok (s_put s1 (p + o_data) d) (<[p := n]> L)) as Ho2 by (eapply fresh_put_ok; [exact Ho1|unfold o_data; lia]).
  set (s2 := s_put s1 (p + o_data) d) in *. set (s3 := s_put s2 _ _).
  assert (kept L s2 s3) as HK3 by (eapply fresh_put; [exact Ho2|done|unfold o_str_size; lia]).
  assert (kept L s s3) as HK by eauto using kept_trans.
  assert (s_ld s3 (p + o_data) = d) as Ed.
  { unfold s3, s2. rewrite !s_ld_put. rewrite decide_False, decide_True by (unfold o_data, o_str_size; lia). done. }
  split_and!; [eapply fresh_put_ok; [exact Ho2|unfold o_str_size; lia]|split_and!| |done|..].
  - exists n. by rewrite lookup_insert_eq.
  - unfold s3. rewrite s_ld_put, decide_True by done. done.
  - rewrite Ed. eapply is_buf_kept; [exact HK|by apply kept_fresh|done].
  - done.
  - unfold s3, s2. by apply s_put_room, s_put_room.
Qed.

(** The conclusion the operations that return a string reach. *)
Definition made s L s' (p : Z) (l : list Z) : Prop :=
  exists d k n, L !! d = None /\ L !! p = None /\ p <> d /\ s_ok s' (<[p := n]> (<[d := k]> L)) /\
    str_own s' (<[p := n]> (<[d := k]> L)) p d l /\ kept L s s'.

Lemma substring_ok s L p l i j r : s_ok s L -> s_room s (S (S r)) -> str_at s L p l -> 0 <= i <= j -> j <= Z.of_nat (length l) ->
  j - i + 1 <= REQUEST_MAX -> Z.of_nat (length l) < 2 ^ 63 ->
  exists q s', __public__strings_substring s p i j = Some (q, s') /\ made s L s' q (take (Z.to_nat (j - i)) (drop (Z.to_nat i) l)).
Proof.
  intros Ho Hr Hs Hi Hj Hlen Hl. pose proof (str_size _ _ _ _ Hs) as El. pose proof (str_at_bytes _ _ _ _ Hs) as Er.
  unfold REQUEST_MAX in Hlen. unfold __public__strings_substring. rewrite El.
  rewrite swrap_small by (unfold in_sint; lia). rewrite uwrap_small by (unfold in_uint; lia).
  replace (i <? 0) with false by lia. replace (_ <? j) with false by lia. cbn [orb].
  destruct (s_alloc_ok s L (j - i + 1) (S r) Ho Hr) as (b & k & s1 & -> & Hb & Hk & Ho1 & HK1 & Hr1 & Eb);
    [unfold REQUEST_MAX; lia|]. cbn [mbind option_bind].
  destruct (s_block s1 _ b k Ho1 (lookup_insert_eq _ _ _)) as [Hb0 _].
  replace (b =? NULL) with false by lia. replace (0 <=? j - i) with true by lia. cbn [c_assert negb andb mbind option_bind].
  assert (s_ld s1 (p + o_data) = s_ld s (p + o_data)) as ->.
  { destruct Hs as ([n Hp] & _). destruct (s_block _ _ _ _ Ho Hp). eapply kept_ld; [exact HK1|exact Hp|unfold o_data; lia]. }
  set (s2 := s_memcpy s1 b _ _). set (s3 := s_wr s2 _ _). set (l' := take _ _).
  assert (length l' = Z.to_nat (j - i)) as Hl' by (unfold l'; rewrite length_take, length_drop; lia).
  assert (kept L s1 s2) as HK2 by (eapply fresh_wr; [exact Ho1|done|lia|rewrite length_rds; lia]).
  assert (kept L s2 s3) as HK3 by (eapply fresh_wr; [exact Ho1|done|cbn; lia..]).
  assert (is_buf s3 (<[b := k]> L) b l') as Hbuf.
  { right. exists k. rewrite Hl'. split; [by rewrite lookup_insert_eq|]. split; [lia|].
    unfold s3. cbn [s_wr s_bytes sh_bytes]. rewrite rds_wr_out by lia. unfold s2, s_memcpy. cbn [s_bytes sh_bytes].
    rewrite rds_memcpy by lia. rewrite Eb. unfold l'. rewrite <- Er.
    replace (length l) with (Z.to_nat i + (Z.to_nat (j - i) + (length l - Z.to_nat j)))%nat by lia.
    rewrite (rds_app _ (Z.to_nat i)), drop_app_length' by (by rewrite length_rds).
    rewrite (rds_app _ (Z.to_nat (j - i))), take_app_length' by (by rewrite length_rds).
    f_equal. lia. }
  destruct (make_obj s3 (<[b := k]> L) b l' r) as (q & n & s4 & -> & Hq & Ho5 & Hs5 & Ed5 & HK5 & _); [done..|].
  cbn [mbind option_bind]. apply lookup_insert_None in Hq as [Hq Hbq]. exists q. eexists. split; [done|].
  rewrite Hl', Z2Nat.id in Ho5, Hs5, Ed5, HK5 by lia. exists b, k, n. split; [done|]. split; [done|]. split; [by apply not_eq_sym|]. split; [done|]. split.
  - split_and!; [done..|]. exists k. rewrite lookup_insert_ne by done. by rewrite lookup_insert_eq.
  - eapply kept_trans; [exact HK1|]. eapply kept_trans; [exact HK2|]. eapply kept_trans; [exact HK3|].
    eapply kept_sub; [|exact HK5]; by apply kept_fresh.
Qed.

(** The assignments that fill a new string of [l]: the object [p], its
    buffer [d], the terminator and the characters. *)
Definition fill_string s (p d : Z) (l : list Z) : sheap H :=
  s_put (s_wr (s_wr (s_put s (p + o_data) d) (d + Z.of_nat (length l)) [0]) d l) (p + o_str_size) (Z.of_nat (length l)).

Lemma fill_string_ok s s2 L p n d k l : s_ok s2 (<[p := n]> (<[d := k]> L)) -> L !! p = None -> L !! d = None -> p <> d ->
  16 <= n -> Z.of_nat (length l) + 1 <= k < MMAP_THRESHOLD -> kept L s s2 -> made s L (fill_string s2 p d l) p l.
Proof.
  intros Ho2 Hp Hd Hpd Hn Hk HK2. assert (Hin : forall o, 0 <= o < 16 -> p <= p + o < p + n) by lia.
  assert (<[d := k]> L !! p = None) as Hpd' by (by rewrite lookup_insert_ne).
  unfold fill_string. set (s3 := s_put s2 _ _). set (s4 := s_wr s3 _ _). set (s5 := s_wr s4 _ _). set (s6 := s_put s5 _ _).
  assert (s_ok s3 (<[p := n]> (<[d := k]> L))) as Ho3 by (eapply fresh_put_ok; [exact Ho2|apply Hin; unfold o_data; lia]).
  assert (kept (<[d := k]> L) s2 s3) as HK3 by (eapply fresh_put; [exact Ho2|done|apply Hin; unfold o_data; lia]).
  assert (kept L s3 s4 /\ kept L s4 s5) as [HK4 HK5].
  { rewrite (insert_insert_ne L) in Ho3 by done. assert (<[p := n]> L !! d = None) by (by rewrite lookup_insert_ne).
    split; (eapply kept_sub; [by apply (kept_fresh L p n)|]); (eapply fresh_wr; [exact Ho3|done|cbn; lia|cbn; lia]). }
  assert (kept (<[d := k]> L) s5 s6) as HK6 by (eapply fresh_put; [exact Ho3|done|apply Hin; unfold o_str_size; lia]).
  assert (s_ld s6 (p + o_data) = d) as Ed.
  { unfold s6. rewrite s_ld_put, decide_False by (unfold o_data, o_str_size; lia). change (s_ld s5) with (s_ld s3). unfold s3.
    by rewrite s_ld_put, decide_True. }
  exists d, k, n. split; [done|]. split; [done|]. split; [done|].
  split; [eapply fresh_put_ok; [exact Ho3|apply Hin; unfold o_str_size; lia]|]. split; [split_and!|].
  - done.
  - split_and!; [exists n; by rewrite lookup_insert_eq|unfold s6; by rewrite s_ld_put, decide_True|]. right. exists k. rewrite Ed.
    split; [rewrite lookup_insert_ne by done; by rewrite lookup_insert_eq|]. split; [lia|]. cbn [s6 s_put s5 s_wr s_bytes sh_bytes]. apply rds_wr.
  - exists k. rewrite lookup_insert_ne by done. by rewrite lookup_insert_eq.
  - eapply kept_trans; [exact HK2|]. eapply kept_trans; [eapply kept_sub; [by apply (kept_fresh L d k)|exact HK3]|].
    eapply kept_trans; [exact HK4|]. eapply kept_trans; [exact HK5|]. eapply kept_sub; [by apply (kept_fresh L d k)|done].
Qed.

(** The two allocations of a new string. *)
Lemma string_blocks s L len r : s_ok s L -> s_room s (S (S r)) -> 0 <= len -> len + 1 <= REQUEST_MAX ->
  exists p n s1 d k s2, s_alloc s sizeof_string = Some (p, s1) /\ s_alloc s1 (size_t (len + 1)) = Some (d, s2) /\
    s_ok s2 (<[p := n]> (<[d := k]> L)) /\ L !! p = None /\ L !! d = None /\ p <> d /\ 16 <= n /\ len + 1 <= k < MMAP_THRESHOLD /\
    kept L s s2 /\ s_room s2 r /\ sh_bytes s2 = sh_bytes s.
Proof.
  intros Ho Hr Hl Hlen. unfold REQUEST_MAX in Hlen.
  destruct (s_alloc_ok s L sizeof_string (S r) Ho Hr) as (p & n & s1 & E1 & Hp & Hn & Ho1 & HK1 & Hr1 & Eb1);
    [unfold REQUEST_MAX, sizeof_string; lia|]. unfold sizeof_string in Hn.
  destruct (s_alloc_ok s1 _ (len + 1) r Ho1 Hr1) as (d & k & s2 & E2 & Hd & Hk & Ho2 & HK2 & Hr2 & Eb2); [unfold REQUEST_MAX; lia|].
  apply lookup_insert_None in Hd as [Hd Hpd]. rewrite (insert_insert_ne L) in Ho2 by done.
  exists p, n, s1, d, k, s2. rewrite uwrap_small by (unfold in_uint; lia). split_and!; try done; try lia; [|congruence].
  eapply kept_trans; [exact HK1|]. eapply kept_sub; [|exact HK2]. by apply kept_fresh.
Qed.

Lemma raw_ok s L src l r : s_ok s L -> s_room s (S (S r)) -> (exists q j, L !! q = Some j /\ q <= src /\ src + Z.of_nat (length l) <= q + j) ->
  rds (sh_bytes s) src (length l) = l -> Z.of_nat (length l) + 1 <= REQUEST_MAX ->
  exists p s', __public__strings_alloc_from_raw s src (Z.of_nat (length l)) = Some (p, s') /\ made s L s' p l /\ s_room s' r.
Proof.
  intros Ho Hr (q & j & Hq & Hsrc & Hend) Er Hlen. unfold __public__strings_alloc_from_raw.
  destruct (string_blocks s L (Z.of_nat (length l)) r Ho Hr ltac:(lia) Hlen) as
    (p & n & s1 & d & k & s2 & -> & E2 & Ho2 & Hp & Hd & Hpd & Hn & Hk & HK2 & Hr2 & Eb). cbn [mbind option_bind]. rewrite E2. cbn [mbind option_bind].
  unfold s_memcpy, memcpy. rewrite Nat2Z.id.
  assert (rds (sh_bytes (s_wr (s_put s2 (p + o_data) d) (d + Z.of_nat (length l)) [0])) src (length l) = l) as ->.
  { cbn [s_wr s_put s_bytes sh_bytes]. rewrite rds_wr_out, Eb; [done|].
    assert (q <> d) as Hqd by congruence.
    assert (<[p := n]> (<[d := k]> L) !! q = Some j) as Hq2 by (rewrite !lookup_insert_ne by congruence; done).
    assert (<[p := n]> (<[d := k]> L) !! d = Some k) as Hd2 by (rewrite lookup_insert_ne by congruence; apply lookup_insert_eq).
    destruct (h_apart _ _ _ _ _ _ Ho2 Hq2 Hd2 Hqd); cbn [length]; lia. }
  exists p. eexists. split; [done|]. split; [by eapply (fill_string_ok s s2)|by do 2 apply s_put_room].
Qed.
End spec.
