(* ===== verification/StrFormat.v ===== *)
(** * StrFormat: formatted output against a pure renderer

    [render] is the text a format and its arguments stand for, with no heap
    and no growing buffer; the loop over the format string builds exactly
    that text, whatever reallocations of the buffer it needs. *)

From S2P Require Import Prelude Mem Alloc Heap Bytes Strings StrHeap StrSpec.

(** ** The specification *)

(** The text of one conversion; [strs] are the characters of the string
    objects. *)
Definition conv (strs : Z -> option (list Z)) (spec : Z) (a : varg) : option (list Z) :=
  match a with
  | VPtr p => if spec =? STRING then strs p else if spec =? POINTER then Some (ptr_to_hex p) else None
  | VInt z =>
      if spec =? SIGNED_INT then i64_to_dec (swrap 32 z)
      else if spec =? UNSIGNED_INT then u64_to_dec (uwrap 32 z) else None
  | VDouble f => if spec =? FLOAT then f64_to_dec f else None
  | VLong _ => None
  end.

Definition takes_arg (spec : Z) : bool :=
  (spec =? STRING) || (spec =? SIGNED_INT) || (spec =? UNSIGNED_INT) || (spec =? POINTER) || (spec =? FLOAT).

Definition before (t : list Z) (l : option (list Z)) : option (list Z) := l ← l; Some (t ++ l).

Fixpoint render (long_d : bool) (strs : Z -> option (list Z)) (f : list Z) (args : list varg) : option (list Z) :=
  match f with
  | [] => Some []
  | c :: f =>
      if negb (c =? PERCENT) then before [c] (render long_d strs f args)
      else
        match f with
        | [] => Some []
        | spec :: f =>
            if spec =? PERCENT then before [PERCENT] (render long_d strs f args)
            else if takes_arg spec then
              match args with
              | a :: args => t ← conv strs spec a; before t (render long_d strs f args)
              | [] => None
              end
            else if spec =? LONG then
              match args, f with
              | VLong z :: args, u :: g =>
                  if u =? UNSIGNED_INT then t ← u64_to_dec (uwrap 64 z); before t (render long_d strs g args)
                  else t ← i64_to_dec (swrap 64 z); before t (render long_d strs (if long_d && (u =? SIGNED_INT) then g else f) args)
              | VLong z :: args, [] => i64_to_dec (swrap 64 z)
              | _, _ => None
              end
            else before [PERCENT; spec] (render long_d strs f args)
        end
  end.

(** ** The growing buffer *)

(** Texts up to this length stay within [REQUEST_MAX] when the capacity doubles. *)
Definition TEXT_MAX : Z := 65000.

Lemma newcap_loop_ok (fuel : nat) : forall c need, 0 < c -> c <= 131000 -> need <= 65500 -> need <= c * 2 ^ Z.of_nat fuel ->
  exists r, newcap_loop fuel c need = Some r /\ need <= r /\ c <= r <= Z.max c (2 * need).
Proof.
  induction fuel as [|fuel IH]; intros c need Hc Hc' Hn Hf; cbn [newcap_loop].
  - destruct (Z.ltb_spec c need); [rewrite Z.pow_0_r in Hf; lia|]. exists c. split; [done|lia].
  - destruct (Z.ltb_spec c need); [|exists c; split; [done|lia]].
    rewrite uwrap_small by (unfold in_uint; lia).
    destruct (IH (c * 2) need) as (r & -> & ? & ?); [lia..| |].
    + rewrite Nat2Z.inj_succ, Z.pow_succ_r in Hf by lia. lia.
    + exists r. split; [done|lia].
Qed.

Section format.
Context `{HeapSpec H} (s0 : sheap H) (L0 : gmap Z Z).
Implicit Types (s : sheap H) (L : gmap Z Z).

(** The buffer [o] holds [acc]; its block is not one of the caller's. *)
Definition out_ok s L (o : outbuf) (acc : list Z) : Prop :=
  len o = Z.of_nat (length acc) /\
  (cap o = 0 /\ buf o = NULL /\ acc = [] \/
   exists k, L !! buf o = Some k /\ L0 !! buf o = None /\ len o <= cap o <= k /\ k < MMAP_THRESHOLD /\ 64 <= cap o <= 131000 /\
     rds (sh_bytes s) (buf o) (length acc) = acc).

(** The state of the loop: [r] more appends have room. *)
Definition finv s (o : outbuf) (acc : list Z) (r : nat) : Prop :=
  exists L, s_ok s L /\ L0 ⊆ L /\ out_ok s L o acc /\ kept L0 s0 s /\ s_room s (S r).

Lemma finv_less s o acc r : finv s o acc (S r) -> finv s o acc r.
Proof. intros (L & ? & ? & ? & ? & ?). exists L. split_and!; try done. by apply h_room_less. Qed.

Lemma finv_weaken s o acc r k : (r <= k)%nat -> finv s o acc k -> finv s o acc r.
Proof. induction 1 as [|k Hk IH]; [done|]. intros ?. by apply IH, finv_less. Qed.

Lemma kept_own s L b k a l : s_ok s L -> L0 ⊆ L -> L !! b = Some k -> L0 !! b = None -> b <= a ->
  a + Z.of_nat (length l) <= b + k -> kept L0 s (s_wr s a l).
Proof.
  intros Ho Hs Hb Hb0 Ha Hl. eapply kept_sub; [|by eapply s_wr_kept].
  rewrite <- (delete_id L0 b Hb0). by apply delete_mono.
Qed.

(** A buffer with room for the text. *)
Lemma append_in_place s L o acc t : s_ok s L -> L0 ⊆ L -> out_ok s L o acc -> len o + Z.of_nat (length t) <= cap o ->
  kept L0 s (s_wr s (buf o + len o) t) /\ out_ok (s_wr s (buf o + len o) t) L (OutBuf (buf o) (cap o) (len o + Z.of_nat (length t))) (acc ++ t).
Proof.
  intros Ho Hs [El [(Ec & Eb & ->)|(k & Hk & Hk0 & Hc & Hk1 & Hc2 & Er)]] Hlen.
  - cbn in El. assert (length t = 0)%nat as Ht by lia. destruct t; [|done]. cbn. rewrite Z.add_0_r.
    split; [by destruct s|]. split; [done|]. by left.
  - split; [eapply kept_own; [exact Ho|done|exact Hk|done|lia..]|]. split; cbn [len cap buf]; rewrite length_app; [lia|].
    right. exists k. split_and!; try done; try lia. cbn [s_wr s_bytes sh_bytes]. rewrite El, rds_wr_snoc. by rewrite Er.
Qed.

Lemma grow_ok s L o acc n r : s_ok s L -> L0 ⊆ L -> out_ok s L o acc -> s_room s (S r) ->
  cap o < len o + n -> 0 <= n -> len o + n <= TEXT_MAX ->
  exists c b s1, newcap_loop 64 (if cap o =? 0 then 64 else size_t (cap o * 2)) (len o + n) = Some c /\
    s_alloc s c = Some (b, s1) /\ len o + n <= c /\
    let s2 := if buf o =? NULL then s1 else s_memcpy s1 b (buf o) (len o) in
    exists L2, s_ok s2 L2 /\ L0 ⊆ L2 /\ out_ok s2 L2 (OutBuf b c (len o)) acc /\ kept L0 s s2 /\ s_room s2 r.
Proof.
  intros Ho Hs [El Hbuf] Hr Hcap Hn Hmax. unfold TEXT_MAX in Hmax.
  assert (0 <= cap o <= 131000 /\ Z.of_nat (length acc) <= cap o) as [Hc0 Hla].
  { destruct Hbuf as [(-> & _ & ->)|(k & ? & ? & ? & ? & ? & _)]; cbn; lia. }
  destruct (newcap_loop_ok 64 (if cap o =? 0 then 64 else size_t (cap o * 2)) (len o + n)) as (c & E & Hc & Hc').
  { rewrite uwrap_small by (unfold in_uint; lia). zcases; lia. }
  { rewrite uwrap_small by (unfold in_uint; lia). zcases; lia. }
  { lia. }
  { rewrite uwrap_small by (unfold in_uint; lia). zcases; nia. }
  assert (64 <= c <= 131000) as Hcb.
  { rewrite uwrap_small in Hc' by (unfold in_uint; lia). revert Hc'. zcases; [lia|].
    destruct Hbuf as [(? & _ & _)|(k & ? & ? & ? & ? & ? & _)]; lia. }
  destruct (s_alloc_ok s L c r Ho Hr) as (b & k & s1 & Ea & Hb & Hk & Ho1 & HK1 & Hr1 & Eb); [unfold REQUEST_MAX; lia|].
  exists c, b, s1. split_and!; [done..|]. cbv zeta. exists (<[b := k]> L).
  assert (L0 !! b = None) as Hb0 by (by eapply lookup_weaken_None).
  assert (L ⊆ <[b := k]> L) as Hs1 by (by apply kept_fresh).
  assert (L0 ⊆ <[b := k]> L) as Hs2 by (by etrans).
  assert (kept L0 s s1) as HK by (exact (kept_sub L0 L s s1 Hs HK1)).
  assert (Hout : forall s2 : sheap H, rds (sh_bytes s2) b (length acc) = acc -> out_ok s2 (<[b := k]> L) (OutBuf b c (len o)) acc).
  { intros s2 Er. split; [done|]. right. exists k. cbn [buf cap len]. split_and!; try done; try lia. by rewrite lookup_insert_eq. }
  destruct (Z.eqb_spec (buf o) NULL) as [En|Hne].
  - split_and!; try done. apply Hout. destruct Hbuf as [(_ & _ & ->)|(j & Hj & _)]; [done|].
    destruct (s_block _ _ _ _ Ho Hj). lia.
  - destruct Hbuf as [(_ & ? & _)|(j & Hj & Hj0 & Hl & _ & _ & Er)]; [done|]. split_and!; try done.
    + apply Hout. cbn [s_memcpy s_bytes sh_bytes]. rewrite rds_memcpy by lia. by rewrite Eb.
    + eapply kept_trans; [exact HK|]. eapply (kept_own s1 _ b k); [exact Ho1|done|by rewrite lookup_insert_eq|done|lia|].
      rewrite length_rds. lia.
Qed.

Lemma buf_append_ok s o acc t r : finv s o acc (S r) -> Z.of_nat (length (acc ++ t)) <= TEXT_MAX ->
  exists s' o', buf_append s o t = Some (s', o') /\ finv s' o' (acc ++ t) r.
Proof.
  intros (L & Ho & Hs & Hout & HK & Hr) Hlen. rewrite length_app in Hlen. unfold buf_append.
  destruct (Z.ltb_spec (cap o) (len o + Z.of_nat (length t))) as [Hg|Hg].
  - destruct (grow_ok s L o acc (Z.of_nat (length t)) (S r)) as (c & b & s1 & -> & E & Hc & L2 & Ho2 & Hs2 & Hout2 & HK2 & Hr2);
      [done..|lia|destruct Hout; lia|]. cbn [mbind option_bind]. rewrite E. cbn [mbind option_bind].
    set (s2 := if buf o =? NULL then s1 else _) in *.
    destruct (append_in_place s2 L2 (OutBuf b c (len o)) acc t) as [HK3 Hout3]; [done..|].
    eexists _, _. split; [done|]. exists L2. split_and!; [exact Ho2|exact Hs2|exact Hout3| |exact Hr2].
    eapply kept_trans; [exact HK|]. by eapply kept_trans.
  - cbn [mbind option_bind]. destruct (append_in_place s L o acc t) as [HK3 Hout3]; [done..|].
    eexists _, _. split; [done|]. exists L. split_and!; [exact Ho|exact Hs|exact Hout3|by eapply kept_trans|by apply h_room_less].
Qed.

(** *** The loop *)
Variables (long_d : bool) (fmt : Z) (f : list Z) (strs : Z -> option (list Z)).
Hypothesis Hok0 : s_ok s0 L0.
Hypothesis Hfmt : str_at s0 L0 fmt f.
Hypothesis Hstrs : forall p l, strs p = Some l -> p = NULL /\ l = [] \/ str_at s0 L0 p l.

Lemma finv_str s o acc r p l : finv s o acc r -> str_at s0 L0 p l -> exists L, s_ok s L /\ str_at s L p l.
Proof. intros (L & Ho & Hs & _ & HK & _) Hp. exists L. split; [done|]. exact (str_at_kept s0 s L0 L p l Hok0 HK Hs Hp). Qed.

Lemma finv_size s o acc r : finv s o acc r -> s_ld s (fmt + o_str_size) = Z.of_nat (length f).
Proof. intros Hi. destruct (finv_str _ _ _ _ _ _ Hi Hfmt) as (L & _ & Hs). by eapply str_size. Qed.

Lemma finv_char s o acc r i c : finv s o acc r -> f !! i = Some c ->
  rd (sh_bytes s) (s_ld s (fmt + o_data) + Z.of_nat i) = c.
Proof.
  intros Hi Hc. destruct (finv_str _ _ _ _ _ _ Hi Hfmt) as (L & _ & Hs). pose proof (str_at_bytes _ _ _ _ Hs) as E.
  pose proof (lookup_lt_Some _ _ _ Hc) as Hl. rewrite <- E in Hc at 1. rewrite rds_lookup in Hc by done. by injection Hc.
Qed.

Lemma finv_strs s o acc r p l : finv s o acc r -> strs p = Some l -> string_bytes s p = l.
Proof.
  intros Hi [[-> ->]|Hp]%Hstrs; [done|]. destruct (finv_str _ _ _ _ _ _ Hi Hp) as (L & Ho & Hs).
  pose proof (str_at_bytes _ _ _ _ Hs) as E. pose proof (str_size _ _ _ _ Hs) as El. destruct Hs as ([n Hn] & _ & Hd).
  destruct (s_block _ _ _ _ Ho Hn) as [Hp0 _]. unfold string_bytes. rewrite El.
  replace (p =? NULL) with false by lia. cbn [orb]. rewrite Nat2Z.id, E.
  destruct Hd as [[-> ->]|(k & Hk & _)]; [done|]. destruct (s_block _ _ _ _ Ho Hk).
  replace (s_ld s (p + o_data) =? NULL) with false by lia. cbn [orb]. by destruct l.
Qed.

(** What is left to do: emit [l], from the state reached after [acc]. *)
Definition loop_done n s o i args acc l : Prop :=
  exists s' o', format_loop long_d n s o fmt i args = Some (s', o') /\ finv s' o' (acc ++ l) 0.

(** One append, then the rest of the loop. *)
Lemma emit_then n s o i args acc t l r :
  finv s o acc (S r) -> Z.of_nat (length (acc ++ t ++ l)) <= TEXT_MAX ->
  (forall s' o', finv s' o' (acc ++ t) r -> loop_done n s' o' i args (acc ++ t) l) ->
  exists s' o', ('(s, o) ← buf_append s o t; format_loop long_d n s o fmt i args) = Some (s', o') /\ finv s' o' (acc ++ t ++ l) 0.
Proof.
  intros Hi Hlen IH. destruct (buf_append_ok s o acc t r) as (s' & o' & E & Hi'); [done|rewrite !length_app in *; lia|].
  rewrite E. cbn [mbind option_bind]. rewrite app_assoc. by apply IH.
Qed.

Lemma drop_cons i c rest : drop i f = c :: rest -> f !! i = Some c /\ drop (S i) f = rest /\ (i < length f)%nat.
Proof.
  intros E. assert (f !! i = Some c) as Ec by (rewrite <- (Nat.add_0_r i), <- lookup_drop, E; done).
  split_and!; [done| |by eapply lookup_lt_Some]. rewrite (drop_S _ _ _ Ec) in E. by injection E.
Qed.

Lemma before_Some t m l : before t m = Some l -> exists l', m = Some l' /\ l = t ++ l'.
Proof. unfold before. destruct m as [l'|]; cbn; [|done]. intros [= <-]. by exists l'. Qed.

(** Split on the conversion character [C] and evaluate the specification. *)
Ltac on_spec C El :=
  match goal with |- context [?sp =? C] =>
    destruct (Z.eqb_spec sp C) as [->|?];
    [let v := eval vm_compute in (takes_arg C) in change (takes_arg C) with v in El; cbv iota in El|] end.

(** Its argument and the argument's text. *)
Ltac on_arg args El :=
  destruct args as [|[z|z|p|x] args]; [done|cbv [conv STRING SIGNED_INT UNSIGNED_INT POINTER FLOAT Z.eqb Pos.eqb] in El; try discriminate El..];
  cbn [fetch mbind option_bind].
Ltac on_text El Et :=
  lazymatch type of El with mbind _ ?m = _ => destruct m as [t|] eqn:Et; [|discriminate El] end.
Ltac on_rest El := cbn [mbind option_bind] in *; apply before_Some in El as (l' & El & ->).

Lemma format_loop_ok (n : nat) : forall s o acc i args l r rest,
  finv s o acc r -> drop i f = rest -> (length rest <= n)%nat -> (length rest <= r)%nat ->
  render long_d strs rest args = Some l -> Z.of_nat (length (acc ++ l)) <= TEXT_MAX ->
  loop_done n s o (Z.of_nat i) args acc l.
Proof.
  induction n as [n IH] using lt_wf_ind. intros s o acc i args l r rest Hi Hd Hn Hr El Hlen. unfold loop_done.
  destruct rest as [|c rest].
  - cbn in El. injection El as <-. exists s, o. rewrite app_nil_r. split; [|eapply finv_weaken, Hi; lia].
    assert (length f <= i)%nat by (apply (f_equal length) in Hd; rewrite length_drop in Hd; cbn in Hd; lia).
    destruct n; cbn [format_loop]; rewrite (finv_size _ _ _ _ Hi), (proj2 (Z.leb_le _ _)) by lia; done.
  - destruct n as [|n]; [cbn in Hn; lia|]. cbn [length] in Hn, Hr. destruct r as [|r]; [lia|].
    destruct (drop_cons _ _ _ Hd) as (Hc & Hd1 & Hlt). cbn [format_loop render] in *.
    rewrite (finv_size _ _ _ _ Hi), (finv_char _ _ _ _ _ _ Hi Hc), (proj2 (Z.leb_gt _ _)) by lia.
    replace (Z.of_nat i + 1) with (Z.of_nat (S i)) by lia.
    destruct (negb (c =? PERCENT)).
    + apply before_Some in El as (l' & El & ->). eapply emit_then; [done|done|]. intros s' o' Hi'.
      eapply IH; try done; try lia. by rewrite <- app_assoc.
    + destruct rest as [|spec rest].
      { injection El as <-. exists s, o. rewrite app_nil_r.
        assert (length f <= S i)%nat by (apply (f_equal length) in Hd1; rewrite length_drop in Hd1; cbn in Hd1; lia).
        rewrite (proj2 (Z.leb_le _ _)) by lia. split; [done|]. eapply finv_weaken, Hi. lia. }
      destruct (drop_cons _ _ _ Hd1) as (Hs & Hd2 & Hlt1). cbn [length] in Hn, Hr.
      rewrite (proj2 (Z.leb_gt _ _)), (finv_char _ _ _ _ _ _ Hi Hs) by lia.
      replace (Z.of_nat (S i) + 1) with (Z.of_nat (S (S i))) by lia.
      clear Hd Hc Hs. destruct r as [|r]; [lia|].
      assert (Hgo : forall t l' i' rest' args', drop i' f = rest' -> (length rest' <= length rest)%nat ->
        render long_d strs rest' args' = Some l' -> Z.of_nat (length (acc ++ t ++ l')) <= TEXT_MAX ->
        exists s' o', ('(s, o) ← buf_append s o t; format_loop long_d n s o fmt (Z.of_nat i') args') = Some (s', o') /\
          finv s' o' (acc ++ t ++ l') 0).
      { intros t l' i' rest' args' Hd' Hl' E' Hlen'. eapply emit_then; [exact Hi|exact Hlen'|]. intros s' o' Hi'.
        eapply (IH n); [lia|exact Hi'|exact Hd'|lia..|exact E'|by rewrite <- app_assoc]. }
      on_spec PERCENT El; [on_rest El; by eapply Hgo|].
      on_spec STRING El.
      { on_arg args El. on_text El Et. on_rest El. rewrite (finv_strs _ _ _ _ _ _ Hi Et). destruct t as [|c' t]; [|by eapply Hgo].
        cbn [mbind option_bind app] in *. eapply (IH n); [lia|apply finv_less; exact Hi|exact Hd2|lia..|exact El|exact Hlen]. }
      on_spec SIGNED_INT El; [on_arg args El; on_text El Et; on_rest El; by eapply Hgo|].
      on_spec UNSIGNED_INT El; [on_arg args El; on_text El Et; on_rest El; by eapply Hgo|].
      on_spec LONG El.
      { destruct args as [|[z|z|p|x] args]; try discriminate El. cbn [fetch mbind option_bind]. destruct rest as [|u rest].
        - assert (length f <= S (S i))%nat by (apply (f_equal length) in Hd2; rewrite length_drop in Hd2; cbn in Hd2; lia).
          rewrite (proj2 (Z.ltb_ge _ _)), El by lia. rewrite andb_false_r. cbn [andb mbind option_bind]. replace (Z.of_nat (S i) + 1) with (Z.of_nat (S (S i))) by lia. pose proof (Hgo l [] (S (S i)) [] args Hd2) as Hgo'.
          rewrite app_nil_r in Hgo'. by apply Hgo'.
        - destruct (drop_cons _ _ _ Hd2) as (Hu & Hd3 & Hlt2). rewrite (proj2 (Z.ltb_lt _ _)), (finv_char _ _ _ _ _ _ Hi Hu) by lia.
          rewrite andb_true_r. cbn [andb]. destruct (u =? UNSIGNED_INT); on_text El Et; on_rest El.
          + replace (Z.of_nat (S i) + 2) with (Z.of_nat (S (S (S i)))) by lia. eapply Hgo; [exact Hd3|cbn; lia|done..].
          + destruct (long_d && (u =? SIGNED_INT)).
            2:{ replace (Z.of_nat (S i) + 1) with (Z.of_nat (S (S i))) by lia. by eapply Hgo. }
            replace (Z.of_nat (S (S i)) + 1) with (Z.of_nat (S (S (S i)))) by lia. eapply Hgo; [exact Hd3|cbn; lia|done..]. }
      on_spec POINTER El; [on_arg args El; on_rest El; by eapply Hgo|].
      on_spec FLOAT El; [on_arg args El; on_text El Et; on_rest El; by eapply Hgo|].
      assert (takes_arg spec = false) as Hta by (unfold takes_arg; rewrite !(proj2 (Z.eqb_neq _ _)) by done; done).
      rewrite Hta in El. on_rest El. destruct (buf_append_ok s o acc [PERCENT] (S r) Hi) as (s1 & o1 & -> & Hi1).
      { rewrite !length_app in *. cbn in *. lia. }
      cbn [mbind option_bind]. change ([PERCENT; spec] ++ l') with ([PERCENT] ++ [spec] ++ l') in *. rewrite app_assoc in *.
      eapply emit_then; [exact Hi1|by rewrite <- app_assoc in *|]. intros s' o' Hi'.
      eapply (IH n); [lia|exact Hi'|exact Hd2|lia..|exact El|by rewrite <- app_assoc].
Qed.
End format.

(** The characters of the string object at [p], if it is one. *)
Definition strs_ok `{HeapSpec H} (s : sheap H) (L : gmap Z Z) (strs : Z -> option (list Z)) : Prop :=
  forall p l, strs p = Some l -> p = NULL /\ l = [] \/ str_at s L p l.

(** The whole loop, from an empty buffer. *)
Lemma format_text_ok `{HeapSpec H} (s : sheap H) L long_d fmt f args strs l r : s_ok s L -> str_at s L fmt f -> strs_ok s L strs ->
  s_room s (S (r + length f)) -> render long_d strs f args = Some l -> Z.of_nat (length l) <= TEXT_MAX ->
  exists s1 o L1, format_loop long_d (length f) s (OutBuf NULL 0 0) fmt 0 args = Some (s1, o) /\ s_ok s1 L1 /\ L ⊆ L1 /\
    len o = Z.of_nat (length l) /\ (buf o = NULL /\ l = [] \/
      exists k, L1 !! buf o = Some k /\ Z.of_nat (length l) <= k < MMAP_THRESHOLD /\ rds (sh_bytes s1) (buf o) (length l) = l) /\
    kept L s s1 /\ s_room s1 1.
Proof.
  intros Ho Hf Hstrs Hr Hl Hlen.
  assert (finv s L s (OutBuf NULL 0 0) [] (length f)) as Hi.
  { exists L. split; [done|]. split; [done|]. split; [split; [done|by left]|]. split; [apply kept_refl|].
    clear -Hr. induction r as [|r IH]; [done|]. by apply IH, h_room_less. }
  destruct (format_loop_ok s L long_d fmt f strs Ho Hf Hstrs (length f) s _ [] 0 args l _ f Hi eq_refl)
    as (s1 & o1 & E & L1 & Ho1 & Hs1 & [Elen Hb] & HK1 & Hr1); [lia|lia|done|done|]. change (Z.of_nat 0) with 0 in E.
  cbn [app] in *. exists s1, o1, L1. split; [done|]. split; [done|]. split; [done|]. split; [done|]. split; [|done].
  destruct Hb as [(_ & -> & ->)|(j & Hj & _ & ? & ? & _ & Er)]; [by left|right]. exists j. split; [done|]. split; [lia|done].
Qed.
