(* ===== verification/StringThms.v ===== *)
(** * StringThms: what the string operations compute

    The text of numbers reads back as the number, [format] is its pure
    renderer, [join] and [append] concatenate, [substring] cuts, and
    [compare] orders strings lexicographically by unsigned bytes. *)

From S2P Require Import Prelude Mem Alloc Heap Bytes AllocSpec Strings Decimal StrHeap StrSpec StrFormat.

(** The order of strings by unsigned bytes. *)
Fixpoint lex (l1 l2 : list Z) : comparison :=
  match l1, l2 with
  | [], [] => Eq
  | [], _ => Lt
  | _, [] => Gt
  | a :: l1, b :: l2 => match a ?= b with Eq => lex l1 l2 | c => c end
  end.

Lemma lex_eq (l1 : list Z) : forall l2, lex l1 l2 = Eq <-> l1 = l2.
Proof.
  induction l1 as [|a l1 IH]; intros [|b l2]; cbn [lex]; try done.
  destruct (Z.compare_spec a b) as [->|?|?]; [rewrite IH; split; [by intros ->|by intros [= ->]]|split; [done|intros [= -> ->]; lia]..].
Qed.

(** The C result: a difference of bytes or of lengths. *)
Fixpoint lex_diff (l1 l2 : list Z) : Z :=
  match l1, l2 with
  | a :: l1, b :: l2 => if a =? b then lex_diff l1 l2 else a - b
  | _, _ => Z.of_nat (length l1) - Z.of_nat (length l2)
  end.

Lemma lex_diff_sgn (l1 : list Z) : forall l2, (lex_diff l1 l2 ?= 0) = lex l1 l2.
Proof.
  induction l1 as [|a l1 IH]; intros [|b l2]; cbn [lex lex_diff length]; try done.
  destruct (Z.eqb_spec a b) as [->|Hne]; [by rewrite Z.compare_refl|].
  destruct (Z.compare_spec a b); [lia|apply Z.compare_lt_iff; lia|apply Z.compare_gt_iff; lia].
Qed.

Lemma compare_loop_spec (b : bytes) (l1 : list Z) : forall l2 d1 d2, rds b d1 (length l1) = l1 -> rds b d2 (length l2) = l2 ->
  lex_diff l1 l2 = match compare_loop (Nat.min (length l1) (length l2)) b d1 d2 with
                   | Some r => r
                   | None => Z.of_nat (length l1) - Z.of_nat (length l2)
                   end.
Proof.
  induction l1 as [|x l1 IH]; intros [|y l2] d1 d2 E1 E2; try done. cbn [length Nat.min compare_loop lex_diff rds] in *.
  injection E1 as E1 E1'. injection E2 as E2 E2'. rewrite E1, E2. destruct (Z.eqb_spec x y) as [->|Hne]; [|done].
  cbn [negb]. rewrite (IH l2 _ _ E1' E2'). destruct (compare_loop _ _ _ _); [done|lia].
Qed.

(** The loop finds nothing exactly when one string begins the other. *)
Lemma compare_loop_none (b : bytes) (l1 : list Z) : forall l2 d1 d2, rds b d1 (length l1) = l1 -> rds b d2 (length l2) = l2 ->
  compare_loop (Nat.min (length l1) (length l2)) b d1 d2 = None <-> l1 `prefix_of` l2 \/ l2 `prefix_of` l1.
Proof.
  induction l1 as [|x l1 IH]; intros l2 d1 d2 E1 E2; [split; [left; apply prefix_nil|done]|].
  destruct l2 as [|y l2]; [split; [right; apply prefix_nil|done]|]. cbn [length Nat.min compare_loop rds] in *.
  injection E1 as E1 E1'. injection E2 as E2 E2'. rewrite E1, E2. destruct (Z.eqb_spec x y) as [->|Hne]; cbn [negb].
  - rewrite (IH l2 _ _ E1' E2'). split; (intros [?|?]; [left|right]); try by apply prefix_cons.
    all: by eapply prefix_cons_inv_2.
  - split; [done|]. intros [Hp|Hp]; apply prefix_cons_inv_1 in Hp; congruence.
Qed.

(** ** Numbers as text *)

(** [i64_to_dec] writes a text that reads back as the number, without
    leading zeros, of at most 21 characters, so that its 32-byte buffer is
    never overrun; only the smallest number has no defined result, because
    the code negates it. *)
Theorem i64_to_dec_roundtrip (v : Z) (Hv : in_sint 64 v) :
  if v =? - 2 ^ 63 then i64_to_dec v = None
  else exists t, i64_to_dec v = Some t /\ signed_value t = v /\ (1 <= length t <= 21)%nat /\
    (v < 0 -> exists ds, t = CH_MINUS :: ds /\ Forall is_digit ds /\ head ds <> Some CH_0) /\
    (0 <= v -> Forall is_digit t) /\ (0 < v -> head t <> Some CH_0).
Proof.
  unfold in_sint in Hv. unfold i64_to_dec. destruct (Z.ltb_spec v 0) as [Hn|Hp].
  - destruct (Z.eqb_spec v (- 2 ^ 63)) as [->|Hne]; [done|]. cbn [negb c_assert mbind option_bind].
    rewrite uwrap_small by (unfold in_uint; lia).
    destruct (u64_to_dec_ok (- v)) as (ds & -> & Ev & Hd & Hl & Hh); [unfold in_uint; lia|]. cbn [mbind option_bind].
    exists (CH_MINUS :: ds). cbn [signed_value length]. rewrite Z.eqb_refl, Ev. split_and!; try done; try lia.
    intros _. exists ds. split_and!; [done|done|]. apply Hh. lia.
  - destruct (Z.eqb_spec v (- 2 ^ 63)) as [->|Hne]; [lia|]. rewrite uwrap_small by (unfold in_uint; lia).
    destruct (u64_to_dec_ok v) as (ds & -> & Ev & Hd & Hl & Hh); [unfold in_uint; lia|].
    exists ds. split_and!; try done; try lia; [|intros ?; apply Hh; lia].
    destruct ds as [|c ds]; [done|]. cbn [signed_value]. destruct (Z.eqb_spec c CH_MINUS) as [->|?]; [|done].
    exfalso. inversion Hd as [|? ? Hc _]. unfold is_digit, CH_MINUS, CH_0 in Hc. lia.
Qed.

(** ** Operations on the heap *)
Section thms.
Context `{HeapSpec H}.
Implicit Types (s : sheap H) (L : gmap Z Z).

(** C11: [__public__strings_format] refines [render]: for a format that is
    not empty, arguments of the right types and a text of at most 65000
    bytes it returns a new string with exactly the
    rendered text, and every block that was live before, the format and the
    argument strings included, is live and unchanged. *)
Theorem strings_format_renders s L fmt f args strs l (Ho : s_ok s L) (Hf : str_at s L fmt f) (Hne : f <> [])
  (Hstrs : strs_ok s L strs) (Hr : s_room s (S (S (length f)))) (Hl : render false strs f args = Some l)
  (Hlen : Z.of_nat (length l) <= TEXT_MAX) :
  exists q s' L', __public__strings_format s fmt args = Some (q, s') /\ s_ok s' L' /\ L ⊆ L' /\ L !! q = None /\
    str_at s' L' q l /\ kept L s s'.
Proof.
  destruct (Hf) as ([n Hn] & El & Hd). destruct (s_block _ _ _ _ Ho Hn) as [Hp _]. unfold __public__strings_format.
  replace (fmt =? NULL) with false by lia. destruct Hd as [[_ ?]|(k & Hk & _)]; [done|].
  destruct (s_block _ _ _ _ Ho Hk). replace (s_ld s (fmt + o_data) =? NULL) with false by lia. cbn [orb]. rewrite El, Nat2Z.id.
  destruct (format_text_ok s L false fmt f args strs l 1 Ho Hf Hstrs Hr Hl Hlen) as (s1 & o1 & L1 & -> & Ho1 & Hs1 & Elen & Hbuf & HK1 & Hr1).
  cbn [mbind option_bind].
  destruct (make_obj s1 L1 (buf o1) l 0 Ho1 Hr1 Hbuf) as (q & m & s2 & -> & Hq & Ho3 & Hs3 & _ & HK3 & _). cbn [mbind option_bind].
  rewrite Elen. exists q. eexists. exists (<[q := m]> L1). split_and!; [done|done| |exact (lookup_weaken_None _ _ _ Hq Hs1)|done|].
  - etrans; [exact Hs1|by apply kept_fresh].
  - eapply kept_trans; [exact HK1|]. by eapply kept_sub.
Qed.

(** [__public__strings_join] makes the first string the concatenation
    of both: it gets a new buffer, its old one is released, and every other
    live block, the second string's included, keeps its words and bytes. *)
Theorem strings_join_spec s L p1 d1 l1 p2 d2 l2 r (Ho : s_ok s L) (Hr : s_room s (S r)) (Hs1 : str_own s L p1 d1 l1)
  (Hs2 : str_own s L p2 d2 l2) (Hd : NoDup [p1; d1; p2; d2]) (Hlen : Z.of_nat (length l1 + length l2) + 1 <= REQUEST_MAX) :
  exists s' d k, __public__strings_join s p1 p2 = Some s' /\ L !! d = None /\ s_ok s' (<[d := k]> (delete d1 L)) /\
    str_own s' (<[d := k]> (delete d1 L)) p1 d (l1 ++ l2) /\ str_own s' (<[d := k]> (delete d1 L)) p2 d2 l2 /\
    kept (delete p1 (delete d1 L)) s s'.
Proof.
  rewrite !NoDup_cons, !not_elem_of_cons in Hd. destruct Hd as [(? & ? & ? & _) [(? & ? & _) _]].
  destruct (join_ok s L p1 d1 l1 p2 l2 r Ho Hr Hs1) as (s' & E & d & k & Hd & Ho' & Hs' & HK); [done|apply Hs2|done|].
  exists s', d, k. split_and!; try done. destruct (Hs2) as (_ & ([n2 Hp2] & _) & [k2 Hd2]).
  assert (str_own s (delete p1 (delete d1 L)) p2 d2 l2) as Hs2'.
  { eapply str_own_sub; [etrans; apply delete_subseteq| | |exact Hs2]; rewrite !lookup_delete_ne by done; eauto. }
  assert (delete p1 (delete d1 L) ⊆ <[d := k]> (delete d1 L)) as Hsub.
  { etrans; [apply delete_subseteq|]. apply insert_subseteq. rewrite lookup_delete_ne; [done|]. intros ->. destruct Hs1 as (_ & _ & [? ?]). congruence. }
  eapply (str_own_keep s s' L (delete p1 (delete d1 L))); [done|etrans; apply delete_subseteq|done..].
Qed.

(** [__public__strings_append] adds one character at the end of a
    string that owns its buffer, in a new buffer that replaces the released
    one; every other live block keeps its words and bytes. *)
Theorem strings_append_spec s L p d l ch r (Ho : s_ok s L) (Hr : s_room s (S r)) (Hs : str_own s L p d l) (Hne : p <> d)
  (Hlen : Z.of_nat (length l) + 2 <= REQUEST_MAX) :
  exists s' d' k, __public__strings_append s p ch = Some s' /\ L !! d' = None /\ s_ok s' (<[d' := k]> (delete d L)) /\
    str_own s' (<[d' := k]> (delete d L)) p d' (l ++ [uwrap 8 ch]) /\ kept (delete p (delete d L)) s s'.
Proof. destruct (append_ok s L p d l ch r Ho Hr Hs Hne Hlen) as (s' & E & d' & k & Hg). exists s', d', k. by split. Qed.

(** [__public__strings_substring] returns NULL and changes nothing when
    the start is negative or the end is behind the string, returns a new
    string with the characters from [i] up to [j] when 0 <= i <= j <= size,
    and has no defined result when i > j, which it does not test. *)
Theorem strings_substring_branches s L p l i j r (Ho : s_ok s L) (Hr : s_room s (S (S r))) (Hs : str_at s L p l)
  (Hlen : Z.of_nat (length l) + 1 <= REQUEST_MAX) :
  (i < 0 \/ Z.of_nat (length l) < j -> __public__strings_substring s p i j = Some (NULL, s)) /\
  (0 <= i <= j -> j <= Z.of_nat (length l) ->
    exists q s', __public__strings_substring s p i j = Some (q, s') /\
      made s L s' q (take (Z.to_nat (j - i)) (drop (Z.to_nat i) l))) /\
  (0 <= i -> j < i -> j <= Z.of_nat (length l) -> __public__strings_substring s p i j = None).
Proof.
  unfold REQUEST_MAX in Hlen. pose proof (str_size _ _ _ _ Hs) as El. split_and!.
  - intros Hb. unfold __public__strings_substring. rewrite El, swrap_small by (unfold in_sint; lia).
    destruct (Z.ltb_spec i 0); [done|]. destruct (Z.ltb_spec (Z.of_nat (length l)) j); [done|lia].
  - intros Hi Hj. eapply substring_ok; try done; unfold REQUEST_MAX; lia.
  - intros Hi Hj Hl. unfold __public__strings_substring. rewrite El, swrap_small by (unfold in_sint; lia).
    replace (i <? 0) with false by lia. replace (_ <? j) with false by lia. cbn [orb].
    destruct (s_alloc _ _) as [[d s1]|]; [|done]. cbn [mbind option_bind].
    replace (0 <=? j - i) with false by lia. by rewrite andb_false_r.
Qed.

(** [o]: what the loop over the common prefix finds. *)
Lemma compare_cases s L p1 l1 p2 l2 (Ho : s_ok s L) (Hs1 : str_at s L p1 l1) (Hs2 : str_at s L p2 l2) :
  exists o, (o = None <-> l1 `prefix_of` l2 \/ l2 `prefix_of` l1) /\
    lex_diff l1 l2 = default (Z.of_nat (length l1) - Z.of_nat (length l2)) o /\
    __public__strings_compare s p1 p2 = default (swrap 32 (Z.of_nat (length l1) - Z.of_nat (length l2))) o.
Proof.
  pose proof (str_size _ _ _ _ Hs1) as E1. pose proof (str_size _ _ _ _ Hs2) as E2.
  pose proof (str_at_bytes _ _ _ _ Hs1) as B1. pose proof (str_at_bytes _ _ _ _ Hs2) as B2.
  exists (compare_loop (Nat.min (length l1) (length l2)) (sh_bytes s) (s_ld s (p1 + o_data)) (s_ld s (p2 + o_data))).
  split; [by apply compare_loop_none|]. split; [by apply compare_loop_spec|].
  destruct Hs1 as ([n1 Hn1] & _), Hs2 as ([n2 Hn2] & _).
  destruct (s_block _ _ _ _ Ho Hn1) as [? _], (s_block _ _ _ _ Ho Hn2) as [? _]. unfold __public__strings_compare.
  replace (p1 =? NULL) with false by lia. replace (p2 =? NULL) with false by lia. cbn [orb]. rewrite E1, E2.
  replace (Z.to_nat (Z.min _ _)) with (Nat.min (length l1) (length l2)) by lia. by rewrite swrap_uwrap by lia.
Qed.

(** C37: [__public__strings_compare] orders strings by unsigned bytes.  When
    the lengths differ by less than 2^31, or neither string begins the
    other, the sign of its result is the lexicographic order of the
    characters, and it is 0 exactly for equal strings.  When one string
    begins the other the result is the difference of the lengths, cut down
    to an [int]: its sign can be wrong when they differ by 2^31 or more, and
    it is 0 when they differ by 2^32. *)
Theorem strings_compare_lexicographic s L p1 l1 p2 l2 (Ho : s_ok s L) (Hs1 : str_at s L p1 l1) (Hs2 : str_at s L p2 l2) :
  let r := __public__strings_compare s p1 p2 in
  let d := Z.of_nat (length l1) - Z.of_nat (length l2) in
  let nested := l1 `prefix_of` l2 \/ l2 `prefix_of` l1 in
  (- 2 ^ 31 <= d < 2 ^ 31 \/ ~ nested -> (r ?= 0) = lex l1 l2 /\ (r = 0 <-> l1 = l2)) /\
  (nested -> r = swrap 32 d).
Proof.
  cbv zeta. destruct (compare_cases s L p1 l1 p2 l2 Ho Hs1 Hs2) as (o & En & Ed & ->).
  assert ((lex_diff l1 l2 ?= 0) = lex l1 l2 /\ (lex_diff l1 l2 = 0 <-> l1 = l2)) as Hlex.
  { split; [apply lex_diff_sgn|]. rewrite <- (lex_eq l1 l2), <- lex_diff_sgn. by rewrite Z.compare_eq_iff. }
  rewrite Ed in Hlex. destruct o as [r|]; cbn [default] in *; [split; [done|by intros ?%En]|].
  split; [|done]. intros [Hd|Hd]; [|by destruct Hd; apply En]. by rewrite swrap_small by (unfold in_sint; lia).
Qed.

(** A string followed by 2^32 more bytes compares equal to it. *)
Corollary strings_compare_truncates s L p1 l1 p2 l2 (Ho : s_ok s L) (Hs1 : str_at s L p1 l1) (Hs2 : str_at s L p2 (l1 ++ l2))
  (Hl : Z.of_nat (length l2) = 2 ^ 32) : __public__strings_compare s p1 p2 = 0 /\ l1 <> l1 ++ l2.
Proof.
  assert (forall d, d = - 2 ^ 32 -> swrap 32 d = 0) as Hz by (by intros d ->).
  split; [|intros E%(f_equal length); rewrite length_app in E; lia].
  destruct (compare_cases s L p1 l1 p2 (l1 ++ l2) Ho Hs1 Hs2) as (o & En & _ & ->).
  rewrite (proj2 En) by (left; by apply prefix_app_r). apply Hz. rewrite length_app. lia.
Qed.
End thms.

(** ** Instances on the arena allocator *)

(** An arena with two strings. *)
Lemma bump_strings (l1 l2 : list Z) : Z.of_nat (length l1) <= 50 -> Z.of_nat (length l2) <= 50 ->
  exists (s : sheap astate) L p1 d1 p2 d2, s_ok s L /\ s_room s 11 /\ str_own s L p1 d1 l1 /\ str_own s L p2 d2 l2 /\ NoDup [p1; d1; p2; d2].
Proof.
  intros Hl1 Hl2. destruct bump_heap as (h & L & q & j & Ho & Hr & Hq & Hj).
  set (s := s_wr (s_wr (SHeap h ∅) q l1) (q + 100) l2).
  destruct (raw_ok s L q l1 13) as (p1 & s1 & _ & (d1 & k1 & n1 & Hd1 & Hp1 & Hne1 & Ho1 & Hs1 & HK1) & Hr1);
    [done|done|exists q, j; split; [done|lia]| |unfold REQUEST_MAX; lia|].
  { unfold s. cbn [s_wr s_bytes sh_bytes]. rewrite rds_wr_out by lia. apply rds_wr. }
  set (L1 := <[p1 := n1]> (<[d1 := k1]> L)) in *.
  assert (L ⊆ L1) as HL1.
  { unfold L1. etrans; [by apply (kept_fresh L d1 k1)|]. apply kept_fresh. by rewrite lookup_insert_ne. }
  assert (L1 !! q = Some j) as Hq1 by (by eapply lookup_weaken).
  destruct (raw_ok s1 L1 (q + 100) l2 11) as (p2 & s2 & _ & (d2 & k2 & n2 & Hd2 & Hp2 & Hne2 & Ho2 & Hs2 & HK2) & Hr2);
    [done|done|exists q, j; split; [done|lia]| |unfold REQUEST_MAX; lia|].
  { rewrite (kept_rds L s s1 q j) by (done || lia). unfold s. cbn [s_wr s_bytes sh_bytes]. apply rds_wr. }
  assert (L1 ⊆ <[p2 := n2]> (<[d2 := k2]> L1)) as HL2.
  { etrans; [by apply (kept_fresh L1 d2 k2)|]. apply kept_fresh. by rewrite lookup_insert_ne. }
  exists s2, (<[p2 := n2]> (<[d2 := k2]> L1)), p1, d1, p2, d2. split_and!; [done|done|exact (str_own_kept s1 s2 L1 _ p1 d1 l1 Ho1 HK2 HL2 Hs1)|done|].
  assert (L1 !! p1 = Some n1) by (apply lookup_insert_eq).
  assert (L1 !! d1 = Some k1) by (unfold L1; rewrite lookup_insert_ne by done; apply lookup_insert_eq).
  rewrite !NoDup_cons, !not_elem_of_cons. split_and!; try congruence; try apply not_elem_of_nil; by apply NoDup_nil.
Qed.

Lemma i64_to_dec_roundtrip_witness : exists t, i64_to_dec (-1207) = Some t /\ signed_value t = -1207.
Proof.
  pose proof (i64_to_dec_roundtrip (-1207) ltac:(unfold in_sint; lia)) as Ht. cbn [Z.eqb Z.opp Z.pow] in Ht.
  destruct Ht as (t & E & Ev & _). exists t. by split.
Defined.

(** "n=%d %s!" with -42 and the second string, "ab". *)
Lemma strings_format_renders_witness : exists (s s' : sheap astate) p L' q arg,
  __public__strings_format s p [VInt (-42); VPtr arg] = Some (q, s') /\ str_at s' L' q [110; 61; 45; 52; 50; 32; 97; 98; 33].
Proof.
  destruct (bump_strings [110; 61; 37; 100; 32; 37; 115; 33] [97; 98]) as (s & L & p1 & d1 & p2 & d2 & Ho & Hr & Hs1 & Hs2 & _);
    [cbn; lia..|].
  set (strs := fun p => if p =? p2 then Some [97; 98] else None).
  assert (render false strs [110; 61; 37; 100; 32; 37; 115; 33] [VInt (-42); VPtr p2] = Some [110; 61; 45; 52; 50; 32; 97; 98; 33]) as E.
  { unfold strs. cbn. by rewrite Z.eqb_refl. }
  destruct (strings_format_renders s L p1 [110; 61; 37; 100; 32; 37; 115; 33] [VInt (-42); VPtr p2] strs [110; 61; 45; 52; 50; 32; 97; 98; 33] Ho (proj1 (proj2 Hs1)) ltac:(done))
    with (3 := E) as (q & s' & L' & E' & _ & _ & _ & Hs' & _).
  - intros p l Hp. unfold strs in Hp. destruct (Z.eqb_spec p p2) as [->|?]; [|done]. injection Hp as <-. right. apply Hs2.
  - exact (h_room_less _ _ Hr).
  - unfold TEXT_MAX. cbn. lia.
  - exists s, s', p1, L', q, p2. by split.
Defined.

Lemma strings_join_spec_witness : exists (s s' : sheap astate) L' p1 p2 d, __public__strings_join s p1 p2 = Some s' /\
  str_own s' L' p1 d [104; 105; 33].
Proof.
  destruct (bump_strings [104; 105] [33]) as (s & L & p1 & d1 & p2 & d2 & Ho & Hr & Hs1 & Hs2 & Hd); [cbn; lia..|].
  destruct (strings_join_spec s L p1 d1 [104; 105] p2 d2 [33] 10 Ho Hr Hs1 Hs2 Hd) as (s' & d & k & E & _ & _ & Hs' & _);
    [unfold REQUEST_MAX; cbn; lia|].
  do 6 eexists. split; [exact E|exact Hs'].
Defined.

Lemma strings_append_spec_witness : exists (s s' : sheap astate) L' p d, __public__strings_append s p (-1) = Some s' /\
  str_own s' L' p d [104; 105; 255].
Proof.
  destruct (bump_strings [104; 105] [33]) as (s & L & p1 & d1 & p2 & d2 & Ho & Hr & Hs1 & _ & Hd); [cbn; lia..|].
  rewrite !NoDup_cons, !not_elem_of_cons in Hd.
  destruct (strings_append_spec s L p1 d1 [104; 105] (-1) 10 Ho Hr Hs1 ltac:(tauto)) as (s' & d & k & E & _ & _ & Hs' & _);
    [unfold REQUEST_MAX; cbn; lia|].
  do 5 eexists. split; [exact E|exact Hs'].
Defined.

Lemma strings_substring_branches_witness : exists (s s' : sheap astate) L p q, made s L s' q [105; 33] /\
  __public__strings_substring s p 1 3 = Some (q, s') /\ __public__strings_substring s p 1 4 = Some (NULL, s) /\
  __public__strings_substring s p 2 1 = None.
Proof.
  destruct (bump_strings [104; 105; 33] []) as (s & L & p1 & d1 & p2 & d2 & Ho & Hr & Hs1 & _); [cbn; lia..|].
  pose proof (strings_substring_branches s L p1 [104; 105; 33] 1 3 9 Ho Hr (proj1 (proj2 Hs1))) as (_ & Hin & _); [unfold REQUEST_MAX; cbn; lia|].
  pose proof (strings_substring_branches s L p1 [104; 105; 33] 1 4 9 Ho Hr (proj1 (proj2 Hs1))) as (Hout & _); [unfold REQUEST_MAX; cbn; lia|].
  pose proof (strings_substring_branches s L p1 [104; 105; 33] 2 1 9 Ho Hr (proj1 (proj2 Hs1))) as (_ & _ & Hrev); [unfold REQUEST_MAX; cbn; lia|].
  destruct Hin as (q & s' & E & Hm); [lia|cbn; lia|]. exists s, s', L, p1, q.
  split; [exact Hm|]. split; [exact E|]. split; [apply Hout; cbn; lia|apply Hrev; cbn; lia].
Defined.

Lemma strings_compare_lexicographic_witness : exists (s : sheap astate) p1 p2, (__public__strings_compare s p1 p2 ?= 0) = Gt.
Proof.
  destruct (bump_strings [97; 200] [97; 98; 99]) as (s & L & p1 & d1 & p2 & d2 & Ho & Hr & Hs1 & Hs2 & Hd); [cbn; lia..|].
  destruct (strings_compare_lexicographic s L p1 [97; 200] p2 [97; 98; 99] Ho (proj1 (proj2 Hs1)) (proj1 (proj2 Hs2))) as [Hlex _].
  exists s, p1, p2. apply Hlex. left. cbn. lia.
Defined.
