(* ===== verification/Atomics.v ===== *)
(** * Atomics: the atomic variables of the language (src/runtime/src/atomics.c)

    Every wrapper is one sequentially consistent operation of C11 on the
    object at [ptr].  A cell of the memory holds the value of the object; a
    floating-point object is kept as its bit pattern, which is what
    [atomic_compare_exchange_strong] compares. *)

From S2P Require Import Prelude Mem.

(** ** Object types *)
Inductive aty := ABool | AUint (w : Z) | ASint (w : Z) | AFloat (w : Z).

Abbreviation u8 := (AUint 8).
Abbreviation u16 := (AUint 16).
Abbreviation u32 := (AUint 32).
Abbreviation u64 := (AUint 64).
Abbreviation i8 := (ASint 8).
Abbreviation i16 := (ASint 16).
Abbreviation i32 := (ASint 32).
Abbreviation i64 := (ASint 64).
Abbreviation f16 := (AFloat 16).
Abbreviation f32 := (AFloat 32).
Abbreviation f64 := (AFloat 64).
Abbreviation uptr := (AUint 64).

(** Conversion of an argument to the type. *)
Definition cv (t : aty) (v : Z) : Z :=
  match t with
  | ABool => if v =? 0 then 0 else 1
  | AUint w => uwrap w v
  | ASint w => swrap w v
  | AFloat w => uwrap w v
  end.

(** ** The operations of <stdatomic.h>

    Each returns its result and the memory after it. *)
Definition atomic_store (t : aty) (m : mem) (ptr val : Z) : mem := st m ptr (cv t val).
Definition atomic_load (t : aty) (m : mem) (ptr : Z) : Z := cv t (ld m ptr).
Definition atomic_rmw (f : Z -> Z -> Z) (t : aty) (m : mem) (ptr val : Z) : Z * mem :=
  let old := atomic_load t m ptr in (old, st m ptr (cv t (f old (cv t val)))).
Definition atomic_fetch_add : aty -> mem -> Z -> Z -> Z * mem := atomic_rmw Z.add.
Definition atomic_fetch_sub : aty -> mem -> Z -> Z -> Z * mem := atomic_rmw Z.sub.
Definition atomic_fetch_and : aty -> mem -> Z -> Z -> Z * mem := atomic_rmw Z.land.
Definition atomic_fetch_or : aty -> mem -> Z -> Z -> Z * mem := atomic_rmw Z.lor.
Definition atomic_fetch_xor : aty -> mem -> Z -> Z -> Z * mem := atomic_rmw Z.lxor.
Definition atomic_exchange : aty -> mem -> Z -> Z -> Z * mem := atomic_rmw (fun _ v => v).
Definition atomic_compare_exchange_strong (t : aty) (m : mem) (ptr expected desired : Z) : bool * mem :=
  if atomic_load t m ptr =? cv t expected then (true, st m ptr (cv t desired)) else (false, m).

(** ** bool *)
Definition __public__atomics_store_boolean : mem -> Z -> Z -> mem := atomic_store ABool.
Definition __public__atomics_load_boolean : mem -> Z -> Z := atomic_load ABool.
Definition __public__atomics_cas_boolean : mem -> Z -> Z -> Z -> bool * mem := atomic_compare_exchange_strong ABool.
Definition __public__atomics_exchange_boolean : mem -> Z -> Z -> Z * mem := atomic_exchange ABool.

(** ** uint8 *)
Definition __public__atomics_store_uint8 : mem -> Z -> Z -> mem := atomic_store u8.
Definition __public__atomics_load_uint8 : mem -> Z -> Z := atomic_load u8.
Definition __public__atomics_add_uint8 : mem -> Z -> Z -> Z * mem := atomic_fetch_add u8.
Definition __public__atomics_sub_uint8 : mem -> Z -> Z -> Z * mem := atomic_fetch_sub u8.
Definition __public__atomics_and_uint8 : mem -> Z -> Z -> Z * mem := atomic_fetch_and u8.
Definition __public__atomics_or_uint8 : mem -> Z -> Z -> Z * mem := atomic_fetch_or u8.
Definition __public__atomics_xor_uint8 : mem -> Z -> Z -> Z * mem := atomic_fetch_xor u8.
Definition __public__atomics_exchange_uint8 : mem -> Z -> Z -> Z * mem := atomic_exchange u8.
Definition __public__atomics_cas_uint8 : mem -> Z -> Z -> Z -> bool * mem := atomic_compare_exchange_strong u8.

(** ** uint16 *)
Definition __public__atomics_store_uint16 : mem -> Z -> Z -> mem := atomic_store u16.
Definition __public__atomics_load_uint16 : mem -> Z -> Z := atomic_load u16.
Definition __public__atomics_add_uint16 : mem -> Z -> Z -> Z * mem := atomic_fetch_add u16.
Definition __public__atomics_sub_uint16 : mem -> Z -> Z -> Z * mem := atomic_fetch_sub u16.
Definition __public__atomics_and_uint16 : mem -> Z -> Z -> Z * mem := atomic_fetch_and u16.
Definition __public__atomics_or_uint16 : mem -> Z -> Z -> Z * mem := atomic_fetch_or u16.
Definition __public__atomics_xor_uint16 : mem -> Z -> Z -> Z * mem := atomic_fetch_xor u16.
Definition __public__atomics_exchange_uint16 : mem -> Z -> Z -> Z * mem := atomic_exchange u16.
Definition __public__atomics_cas_uint16 : mem -> Z -> Z -> Z -> bool * mem := atomic_compare_exchange_strong u16.

(** ** uint32 *)
Definition __public__atomics_store_uint32 : mem -> Z -> Z -> mem := atomic_store u32.
Definition __public__atomics_load_uint32 : mem -> Z -> Z := atomic_load u32.
Definition __public__atomics_add_uint32 : mem -> Z -> Z -> Z * mem := atomic_fetch_add u32.
Definition __public__atomics_sub_uint32 : mem -> Z -> Z -> Z * mem := atomic_fetch_sub u32.
Definition __public__atomics_and_uint32 : mem -> Z -> Z -> Z * mem := atomic_fetch_and u32.
Definition __public__atomics_or_uint32 : mem -> Z -> Z -> Z * mem := atomic_fetch_or u32.
Definition __public__atomics_xor_uint32 : mem -> Z -> Z -> Z * mem := atomic_fetch_xor u32.
Definition __public__atomics_exchange_uint32 : mem -> Z -> Z -> Z * mem := atomic_exchange u32.
Definition __public__atomics_cas_uint32 : mem -> Z -> Z -> Z -> bool * mem := atomic_compare_exchange_strong u32.

(** ** uint64 *)
Definition __public__atomics_store_uint64 : mem -> Z -> Z -> mem := atomic_store u64.
Definition __public__atomics_load_uint64 : mem -> Z -> Z := atomic_load u64.
Definition __public__atomics_add_uint64 : mem -> Z -> Z -> Z * mem := atomic_fetch_add u64.
Definition __public__atomics_sub_uint64 : mem -> Z -> Z -> Z * mem := atomic_fetch_sub u64.
Definition __public__atomics_and_uint64 : mem -> Z -> Z -> Z * mem := atomic_fetch_and u64.
Definition __public__atomics_or_uint64 : mem -> Z -> Z -> Z * mem := atomic_fetch_or u64.
Definition __public__atomics_xor_uint64 : mem -> Z -> Z -> Z * mem := atomic_fetch_xor u64.
Definition __public__atomics_exchange_uint64 : mem -> Z -> Z -> Z * mem := atomic_exchange u64.
Definition __public__atomics_cas_uint64 : mem -> Z -> Z -> Z -> bool * mem := atomic_compare_exchange_strong u64.

(** ** int8 *)
Definition __public__atomics_store_int8 : mem -> Z -> Z -> mem := atomic_store i8.
Definition __public__atomics_load_int8 : mem -> Z -> Z := atomic_load i8.
Definition __public__atomics_add_int8 : mem -> Z -> Z -> Z * mem := atomic_fetch_add i8.
Definition __public__atomics_sub_int8 : mem -> Z -> Z -> Z * mem := atomic_fetch_sub i8.
Definition __public__atomics_and_int8 : mem -> Z -> Z -> Z * mem := atomic_fetch_and i8.
Definition __public__atomics_or_int8 : mem -> Z -> Z -> Z * mem := atomic_fetch_or i8.
Definition __public__atomics_xor_int8 : mem -> Z -> Z -> Z * mem := atomic_fetch_xor i8.
Definition __public__atomics_exchange_int8 : mem -> Z -> Z -> Z * mem := atomic_exchange i8.
Definition __public__atomics_cas_int8 : mem -> Z -> Z -> Z -> bool * mem := atomic_compare_exchange_strong i8.

(** ** int16 *)
Definition __public__atomics_store_int16 : mem -> Z -> Z -> mem := atomic_store i16.
Definition __public__atomics_load_int16 : mem -> Z -> Z := atomic_load i16.
Definition __public__atomics_add_int16 : mem -> Z -> Z -> Z * mem := atomic_fetch_add i16.
Definition __public__atomics_sub_int16 : mem -> Z -> Z -> Z * mem := atomic_fetch_sub i16.
Definition __public__atomics_and_int16 : mem -> Z -> Z -> Z * mem := atomic_fetch_and i16.
Definition __public__atomics_or_int16 : mem -> Z -> Z -> Z * mem := atomic_fetch_or i16.
Definition __public__atomics_xor_int16 : mem -> Z -> Z -> Z * mem := atomic_fetch_xor i16.
Definition __public__atomics_exchange_int16 : mem -> Z -> Z -> Z * mem := atomic_exchange i16.
Definition __public__atomics_cas_int16 : mem -> Z -> Z -> Z -> bool * mem := atomic_compare_exchange_strong i16.

(** ** int32 *)
Definition __public__atomics_store_int32 : mem -> Z -> Z -> mem := atomic_store i32.
Definition __public__atomics_load_int32 : mem -> Z -> Z := atomic_load i32.
Definition __public__atomics_add_int32 : mem -> Z -> Z -> Z * mem := atomic_fetch_add i32.
Definition __public__atomics_sub_int32 : mem -> Z -> Z -> Z * mem := atomic_fetch_sub i32.
Definition __public__atomics_and_int32 : mem -> Z -> Z -> Z * mem := atomic_fetch_and i32.
Definition __public__atomics_or_int32 : mem -> Z -> Z -> Z * mem := atomic_fetch_or i32.
Definition __public__atomics_xor_int32 : mem -> Z -> Z -> Z * mem := atomic_fetch_xor i32.
Definition __public__atomics_exchange_int32 : mem -> Z -> Z -> Z * mem := atomic_exchange i32.
Definition __public__atomics_cas_int32 : mem -> Z -> Z -> Z -> bool * mem := atomic_compare_exchange_strong i32.

(** ** int64 *)
Definition __public__atomics_store_int64 : mem -> Z -> Z -> mem := atomic_store i64.
Definition __public__atomics_load_int64 : mem -> Z -> Z := atomic_load i64.
Definition __public__atomics_add_int64 : mem -> Z -> Z -> Z * mem := atomic_fetch_add i64.
Definition __public__atomics_sub_int64 : mem -> Z -> Z -> Z * mem := atomic_fetch_sub i64.
Definition __public__atomics_and_int64 : mem -> Z -> Z -> Z * mem := atomic_fetch_and i64.
Definition __public__atomics_or_int64 : mem -> Z -> Z -> Z * mem := atomic_fetch_or i64.
Definition __public__atomics_xor_int64 : mem -> Z -> Z -> Z * mem := atomic_fetch_xor i64.
Definition __public__atomics_exchange_int64 : mem -> Z -> Z -> Z * mem := atomic_exchange i64.
Definition __public__atomics_cas_int64 : mem -> Z -> Z -> Z -> bool * mem := atomic_compare_exchange_strong i64.

(** ** int *)
Definition __public__atomics_store_int : mem -> Z -> Z -> mem := atomic_store i64.
Definition __public__atomics_load_int : mem -> Z -> Z := atomic_load i64.
Definition __public__atomics_add_int : mem -> Z -> Z -> Z * mem := atomic_fetch_add i64.
Definition __public__atomics_sub_int : mem -> Z -> Z -> Z * mem := atomic_fetch_sub i64.
Definition __public__atomics_and_int : mem -> Z -> Z -> Z * mem := atomic_fetch_and i64.
Definition __public__atomics_or_int : mem -> Z -> Z -> Z * mem := atomic_fetch_or i64.
Definition __public__atomics_xor_int : mem -> Z -> Z -> Z * mem := atomic_fetch_xor i64.
Definition __public__atomics_exchange_int : mem -> Z -> Z -> Z * mem := atomic_exchange i64.
Definition __public__atomics_cas_int : mem -> Z -> Z -> Z -> bool * mem := atomic_compare_exchange_strong i64.

(** ** float16 *)
Definition __public__atomics_store_float16 : mem -> Z -> Z -> mem := atomic_store f16.
Definition __public__atomics_load_float16 : mem -> Z -> Z := atomic_load f16.
Definition __public__atomics_exchange_float16 : mem -> Z -> Z -> Z * mem := atomic_exchange f16.
Definition __public__atomics_cas_float16 : mem -> Z -> Z -> Z -> bool * mem := atomic_compare_exchange_strong f16.

(** ** float32 *)
Definition __public__atomics_store_float32 : mem -> Z -> Z -> mem := atomic_store f32.
Definition __public__atomics_load_float32 : mem -> Z -> Z := atomic_load f32.
Definition __public__atomics_exchange_float32 : mem -> Z -> Z -> Z * mem := atomic_exchange f32.
Definition __public__atomics_cas_float32 : mem -> Z -> Z -> Z -> bool * mem := atomic_compare_exchange_strong f32.

(** ** float64 *)
Definition __public__atomics_store_float64 : mem -> Z -> Z -> mem := atomic_store f64.
Definition __public__atomics_load_float64 : mem -> Z -> Z := atomic_load f64.
Definition __public__atomics_exchange_float64 : mem -> Z -> Z -> Z * mem := atomic_exchange f64.
Definition __public__atomics_cas_float64 : mem -> Z -> Z -> Z -> bool * mem := atomic_compare_exchange_strong f64.

(** ** double *)
Definition __public__atomics_store_double : mem -> Z -> Z -> mem := atomic_store f64.
Definition __public__atomics_load_double : mem -> Z -> Z := atomic_load f64.
Definition __public__atomics_exchange_double : mem -> Z -> Z -> Z * mem := atomic_exchange f64.
Definition __public__atomics_cas_double : mem -> Z -> Z -> Z -> bool * mem := atomic_compare_exchange_strong f64.

(** ** Pointers, as [uintptr_t] *)
Definition __public__atomics_store_ptr : mem -> Z -> Z -> mem := atomic_store uptr.
Definition __public__atomics_load_ptr : mem -> Z -> Z := atomic_load uptr.
Definition __public__atomics_cas_ptr : mem -> Z -> Z -> Z -> bool * mem := atomic_compare_exchange_strong uptr.
Definition __public__atomics_exchange_ptr : mem -> Z -> Z -> Z * mem := atomic_exchange uptr.

(** ** The wrappers by operation, with the type each is for *)
Definition store_family : list (aty * (mem -> Z -> Z -> mem)) :=
  [(ABool, __public__atomics_store_boolean); (u8, __public__atomics_store_uint8);
   (u16, __public__atomics_store_uint16); (u32, __public__atomics_store_uint32);
   (u64, __public__atomics_store_uint64); (i8, __public__atomics_store_int8);
   (i16, __public__atomics_store_int16); (i32, __public__atomics_store_int32);
   (i64, __public__atomics_store_int64); (i64, __public__atomics_store_int);
   (f16, __public__atomics_store_float16); (f32, __public__atomics_store_float32);
   (f64, __public__atomics_store_float64); (f64, __public__atomics_store_double);
   (uptr, __public__atomics_store_ptr)].
Definition load_family : list (aty * (mem -> Z -> Z)) :=
  [(ABool, __public__atomics_load_boolean); (u8, __public__atomics_load_uint8);
   (u16, __public__atomics_load_uint16); (u32, __public__atomics_load_uint32);
   (u64, __public__atomics_load_uint64); (i8, __public__atomics_load_int8);
   (i16, __public__atomics_load_int16); (i32, __public__atomics_load_int32);
   (i64, __public__atomics_load_int64); (i64, __public__atomics_load_int);
   (f16, __public__atomics_load_float16); (f32, __public__atomics_load_float32);
   (f64, __public__atomics_load_float64); (f64, __public__atomics_load_double);
   (uptr, __public__atomics_load_ptr)].
Definition exchange_family : list (aty * (mem -> Z -> Z -> Z * mem)) :=
  [(ABool, __public__atomics_exchange_boolean); (u8, __public__atomics_exchange_uint8);
   (u16, __public__atomics_exchange_uint16); (u32, __public__atomics_exchange_uint32);
   (u64, __public__atomics_exchange_uint64); (i8, __public__atomics_exchange_int8);
   (i16, __public__atomics_exchange_int16); (i32, __public__atomics_exchange_int32);
   (i64, __public__atomics_exchange_int64); (i64, __public__atomics_exchange_int);
   (f16, __public__atomics_exchange_float16); (f32, __public__atomics_exchange_float32);
   (f64, __public__atomics_exchange_float64); (f64, __public__atomics_exchange_double);
   (uptr, __public__atomics_exchange_ptr)].
Definition cas_family : list (aty * (mem -> Z -> Z -> Z -> bool * mem)) :=
  [(ABool, __public__atomics_cas_boolean); (u8, __public__atomics_cas_uint8);
   (u16, __public__atomics_cas_uint16); (u32, __public__atomics_cas_uint32);
   (u64, __public__atomics_cas_uint64); (i8, __public__atomics_cas_int8);
   (i16, __public__atomics_cas_int16); (i32, __public__atomics_cas_int32);
   (i64, __public__atomics_cas_int64); (i64, __public__atomics_cas_int);
   (f16, __public__atomics_cas_float16); (f32, __public__atomics_cas_float32);
   (f64, __public__atomics_cas_float64); (f64, __public__atomics_cas_double);
   (uptr, __public__atomics_cas_ptr)].
Definition add_family : list (aty * (mem -> Z -> Z -> Z * mem)) :=
  [(u8, __public__atomics_add_uint8); (u16, __public__atomics_add_uint16);
   (u32, __public__atomics_add_uint32); (u64, __public__atomics_add_uint64);
   (i8, __public__atomics_add_int8); (i16, __public__atomics_add_int16);
   (i32, __public__atomics_add_int32); (i64, __public__atomics_add_int64);
   (i64, __public__atomics_add_int)].
Definition sub_family : list (aty * (mem -> Z -> Z -> Z * mem)) :=
  [(u8, __public__atomics_sub_uint8); (u16, __public__atomics_sub_uint16);
   (u32, __public__atomics_sub_uint32); (u64, __public__atomics_sub_uint64);
   (i8, __public__atomics_sub_int8); (i16, __public__atomics_sub_int16);
   (i32, __public__atomics_sub_int32); (i64, __public__atomics_sub_int64);
   (i64, __public__atomics_sub_int)].
Definition and_family : list (aty * (mem -> Z -> Z -> Z * mem)) :=
  [(u8, __public__atomics_and_uint8); (u16, __public__atomics_and_uint16);
   (u32, __public__atomics_and_uint32); (u64, __public__atomics_and_uint64);
   (i8, __public__atomics_and_int8); (i16, __public__atomics_and_int16);
   (i32, __public__atomics_and_int32); (i64, __public__atomics_and_int64);
   (i64, __public__atomics_and_int)].
Definition or_family : list (aty * (mem -> Z -> Z -> Z * mem)) :=
  [(u8, __public__atomics_or_uint8); (u16, __public__atomics_or_uint16);
   (u32, __public__atomics_or_uint32); (u64, __public__atomics_or_uint64);
   (i8, __public__atomics_or_int8); (i16, __public__atomics_or_int16);
   (i32, __public__atomics_or_int32); (i64, __public__atomics_or_int64);
   (i64, __public__atomics_or_int)].
Definition xor_family : list (aty * (mem -> Z -> Z -> Z * mem)) :=
  [(u8, __public__atomics_xor_uint8); (u16, __public__atomics_xor_uint16);
   (u32, __public__atomics_xor_uint32); (u64, __public__atomics_xor_uint64);
   (i8, __public__atomics_xor_int8); (i16, __public__atomics_xor_int16);
   (i32, __public__atomics_xor_int32); (i64, __public__atomics_xor_int64);
   (i64, __public__atomics_xor_int)].
