(* ===== verification/AtomicsThms.v ===== *)
(** * AtomicsThms: what the atomic operations guarantee

    Each wrapper is one indivisible step, so a run of several threads is an
    interleaving of their steps: counters do not lose updates, values handed
    over by [exchange] are neither lost nor duplicated, and of several
    threads competing with [cas] exactly one wins. *)

From S2P Require Import Prelude Mem Atomics.

(** The values of a type. *)
Definition in_ty (t : aty) (v : Z) : Prop :=
  match t with
  | ABool => v = 0 \/ v = 1
  | AUint w | AFloat w => in_uint w v
  | ASint w => in_sint w v
  end.

Definition width_ok (t : aty) : bool :=
  match t with ABool => true | AUint w | AFloat w | ASint w => 1 <=? w end.

Lemma cv_in_ty (t : aty) (v : Z) : width_ok t = true -> in_ty t (cv t v).
Proof.
  destruct t as [|w|w|w]; cbn [width_ok cv in_ty]; intros Hw.
  - destruct (v =? 0); [by left|by right].
  - apply uwrap_range. lia.
  - apply swrap_range. lia.
  - apply uwrap_range. lia.
Qed.

Lemma cv_id (t : aty) (v : Z) : width_ok t = true -> in_ty t v -> cv t v = v.
Proof.
  destruct t as [|w|w|w]; cbn [width_ok cv in_ty]; intros Hw Hv.
  - destruct Hv as [->| ->]; done.
  - by apply uwrap_small.
  - apply swrap_small; [lia|done].
  - by apply uwrap_small.
Qed.

Lemma cv_cv (t : aty) (v : Z) : width_ok t = true -> cv t (cv t v) = cv t v.
Proof. intros Hw. apply cv_id; [done|by apply cv_in_ty]. Qed.

(** Integer types wrap around. *)
Definition is_int (t : aty) : bool := match t with AUint w | ASint w => 1 <=? w | _ => false end.

Lemma is_int_width (t : aty) : is_int t = true -> width_ok t = true.
Proof. by destruct t. Qed.

Lemma cv_add (t : aty) (a b : Z) : is_int t = true -> cv t (cv t a + cv t b) = cv t (a + b).
Proof.
  destruct t as [|w|w|w]; cbn [is_int cv]; intros Hw; try done.
  - rewrite uwrap_uwrap_add, Z.add_comm, uwrap_uwrap_add. f_equal. lia.
  - rewrite swrap_swrap_add, Z.add_comm, swrap_swrap_add. f_equal. lia.
Qed.

Lemma cv_add_l (t : aty) (a b : Z) : is_int t = true -> cv t (cv t a + b) = cv t (a + b).
Proof. destruct t as [|w|w|w]; cbn [is_int cv]; intros Hw; try done; [apply uwrap_uwrap_add|apply swrap_swrap_add]. Qed.

(** Every read-modify-write wrapper returns the old value, keeps the
    cell a value of its type, leaves every other cell alone and stores the
    operation's result, wrapped around to the type's width. *)
Theorem atomics_rmw_type :
  Forall (fun '(op, fam) => Forall (fun '(t, f) => forall m p v,
      let '(r, m') := f m p v in
      r = cv t (ld m p) /\ in_ty t r /\ in_ty t (ld m' p) /\ ld m' p = cv t (op r (cv t v)) /\
      forall q, q <> p -> ld m' q = ld m q) fam)
    [(Z.add, add_family); (Z.sub, sub_family); (Z.land, and_family); (Z.lor, or_family); (Z.lxor, xor_family);
     (fun _ v => v, exchange_family)].
Proof.
  assert (Hgen : forall op t m p v, width_ok t = true -> let '(r, m') := atomic_rmw op t m p v in
      r = cv t (ld m p) /\ in_ty t r /\ in_ty t (ld m' p) /\ ld m' p = cv t (op r (cv t v)) /\ forall q, q <> p -> ld m' q = ld m q).
  { intros op t m p v Hw. unfold atomic_rmw, atomic_load. rewrite ld_st_eq. split_and!; try done; try by apply cv_in_ty.
    intros q Hq. by rewrite ld_st_ne. }
  repeat (apply Forall_cons; split); try apply Forall_nil; try done;
    repeat (apply Forall_cons; split); try apply Forall_nil; try done; intros m p v; by apply Hgen.
Qed.

(** ** Interleavings *)

(** [l] is an interleaving of the steps of the threads [ps]. *)
Inductive interleaving {A} : list (list A) -> list A -> Prop :=
| il_done ps : Forall (fun p => p = []) ps -> interleaving ps []
| il_step ps i a p l : ps !! i = Some (a :: p) -> interleaving (<[i := p]> ps) l -> interleaving ps (a :: l).

Lemma interleaving_perm {A} (ps : list (list A)) (l : list A) : interleaving ps l -> l ≡ₚ concat ps.
Proof.
  induction 1 as [ps Hps|ps i a p l Hi _ IH].
  - replace (concat ps) with (@nil A); [done|]. induction Hps as [|? ? -> _ IH]; done.
  - rewrite IH. apply list_elem_of_split_length in Hi as (l1 & l2 & -> & ->).
    rewrite insert_app_r_alt, Nat.sub_diag by done. cbn [insert list_insert]. rewrite !concat_app. cbn [concat app].
    apply Permutation_middle.
Qed.

(** Running a sequence of read-modify-write steps on one cell. *)
Fixpoint run_rmw (f : mem -> Z -> Z -> Z * mem) (m : mem) (p : Z) (l : list Z) : list Z * mem :=
  match l with
  | [] => ([], m)
  | v :: l => let '(r, m) := f m p v in let '(rs, m) := run_rmw f m p l in (r :: rs, m)
  end.

Definition sum (l : list Z) : Z := foldr Z.add 0 l.

Lemma sum_perm (l l' : list Z) : l ≡ₚ l' -> sum l = sum l'.
Proof. induction 1; unfold sum in *; cbn [foldr]; lia. Qed.

Lemma run_add (t : aty) (p : Z) (l : list Z) : is_int t = true -> forall m,
  cv t (ld (run_rmw (atomic_fetch_add t) m p l).2 p) = cv t (ld m p + sum l).
Proof.
  intros Ht. induction l as [|v l IH]; intros m; cbn [run_rmw].
  - cbn. by rewrite Z.add_0_r.
  - unfold atomic_fetch_add at 1, atomic_rmw. specialize (IH (st m p (cv t (atomic_load t m p + cv t v)))).
    destruct (run_rmw _ _ _ _) as [rs m']. cbn [snd] in *. rewrite IH, ld_st_eq. unfold atomic_load.
    rewrite cv_add by done. cbn [sum foldr]. fold (sum l).
    rewrite cv_add_l by done. f_equal. lia.
Qed.

(** No update of a shared counter is lost: whatever the interleaving
    of the threads' [add]s, the counter ends at the initial value plus the
    sum of all the increments, modulo the width of its type. *)
Theorem atomics_add_any_interleaving :
  Forall (fun '(t, f) => forall m p (ps : list (list Z)) l, interleaving ps l ->
    cv t (ld (run_rmw f m p l).2 p) = cv t (ld m p + sum (concat ps))) add_family.
Proof.
  repeat (apply Forall_cons; split); try (by apply Forall_nil); intros m p ps l Hl;
    rewrite <- (sum_perm _ _ (interleaving_perm _ _ Hl)); by apply run_add.
Qed.

Lemma atomics_add_any_interleaving_witness :
  cv u8 (ld (run_rmw __public__atomics_add_uint8 ∅ 64 [200; 1; 100]).2 64) = 45.
Proof.
  pose proof atomics_add_any_interleaving as Hf. apply Forall_cons in Hf as [Hf _].
  rewrite (Hf ∅ 64 [[200; 100]; [1]]); [reflexivity|].
  eapply (il_step _ 0); [reflexivity|]. eapply (il_step _ 1); [reflexivity|]. eapply (il_step _ 0); [reflexivity|].
  apply il_done. repeat constructor.
Defined.

(** ** Competing threads *)

(** Every element of [ds] is one attempt to replace [e]. *)
Fixpoint run_cas (f : mem -> Z -> Z -> Z -> bool * mem) (m : mem) (p e : Z) (ds : list Z) : list bool * mem :=
  match ds with
  | [] => ([], m)
  | d :: ds => let '(r, m) := f m p e d in let '(rs, m) := run_cas f m p e ds in (r :: rs, m)
  end.

Lemma run_cas_lost (t : aty) (p e : Z) (ds : list Z) : forall m, cv t (ld m p) <> cv t e ->
  run_cas (atomic_compare_exchange_strong t) m p e ds = (replicate (length ds) false, m).
Proof.
  induction ds as [|d ds IH]; intros m Hm; [done|]. cbn [run_cas length replicate].
  unfold atomic_compare_exchange_strong at 1, atomic_load. rewrite (proj2 (Z.eqb_neq _ _)), IH by done. done.
Qed.

Lemma cas_cases (t : aty) (m : mem) (p e : Z) (d : Z) (ds : list Z) : width_ok t = true ->
  Forall (fun x => cv t x <> cv t e) (d :: ds) ->
  run_cas (atomic_compare_exchange_strong t) m p e (d :: ds) =
    if cv t (ld m p) =? cv t e then (true :: replicate (length ds) false, st m p (cv t d)) else (replicate (S (length ds)) false, m).
Proof.
  intros Hw Hds. apply Forall_cons in Hds as [Hd _]. cbn [run_cas replicate].
  unfold atomic_compare_exchange_strong at 1, atomic_load. destruct (Z.eqb_spec (cv t (ld m p)) (cv t e)) as [E|Hne].
  - by rewrite run_cas_lost by (by rewrite ld_st_eq, cv_cv).
  - by rewrite run_cas_lost.
Qed.

(** Of several threads that try to replace [e] by values of their own,
    all different from [e], exactly the first wins when the cell holds [e],
    and its value is the one stored; none wins, and nothing changes, when
    the cell holds another value. *)
Theorem atomics_cas_one_winner :
  Forall (fun '(t, f) => forall m p e d ds, Forall (fun x => cv t x <> cv t e) (d :: ds) ->
    run_cas f m p e (d :: ds) =
      if cv t (ld m p) =? cv t e then (true :: replicate (length ds) false, st m p (cv t d))
      else (replicate (S (length ds)) false, m)) cas_family.
Proof.
  repeat (apply Forall_cons; split); try (by apply Forall_nil); intros m p e d ds Hds; by apply cas_cases.
Qed.

Lemma atomics_cas_one_winner_witness :
  run_cas __public__atomics_cas_boolean ∅ 64 0 [1; 7; 1] = ([true; false; false], st ∅ 64 1).
Proof.
  pose proof atomics_cas_one_winner as Hf. apply Forall_cons in Hf as [Hf _].
  rewrite (Hf ∅ 64 0 1 [7; 1]); [reflexivity|]. repeat constructor; vm_compute; discriminate.
Defined.
