(* ===== verification/Arrays.v ===== *)
(** * Arrays: jagged arrays on the heap (src/runtime/src/array.c)

    An array is a header of six fields followed by its shape, and a data
    block: elements when the rank is 1, pointers to sub-arrays otherwise.
    Pointers and header fields are words, elements are bytes, so clearing
    and copying a data block is done in both stores.  The
    allocation entry points of src/runtime/src/ggc.c are here too. *)

From S2P Require Import Prelude Mem Alloc Heap Bytes Strings.

Section arrays.
Context `{Heap H}.

(** [memset(a, 0, n)]: the words that lie in the region, and its bytes. *)
Fixpoint zero_words (s : sheap H) (a : Z) (n : nat) : sheap H :=
  match n with O => s | S n => zero_words (s_put s a 0) (a + 8) n end.
Definition s_zero (s : sheap H) (a n : Z) : sheap H :=
  let s := zero_words s a (Z.to_nat (n / 8)) in s_bytes s (memset (sh_bytes s) a 0 n).

(** [memcpy(dst, src, n)]. *)
Fixpoint copy_words (s : sheap H) (dst src : Z) (n : nat) : sheap H :=
  match n with O => s | S n => copy_words (s_put s dst (s_ld s src)) (dst + 8) (src + 8) n end.
Definition s_copy (s : sheap H) (dst src n : Z) : sheap H :=
  let s := copy_words s dst src (Z.to_nat (n / 8)) in s_memcpy s dst src n.

(** [for (i ...; i < count; i++) sub_arrays[i] = make();] with [n] left. *)
Fixpoint sub_loop (make : sheap H -> option (Z * sheap H)) (n : nat) (s : sheap H) (sub_arrays i : Z) : option (sheap H) :=
  match n with
  | O => Some s
  | S n =>
      '(sub, s) ← make s;
      sub_loop make n (s_put s (sub_arrays + 8 * i) sub) sub_arrays (i + 1)
  end.

(** The assignments to the new header [arr], with the data block [dt], and
    the [memset] of the data block. *)
Definition init_array (s : sheap H) (arr dt elem_size rank dims count shape_size data_size : Z) : sheap H :=
  let s := s_put s (arr + o_data) dt in
  let s :=
    if 0 <? rank then
      let s := s_put s (arr + o_shape) (arr + sizeof_array) in
      s_copy s (s_ld s (arr + o_shape)) dims shape_size
    else s_put s (arr + o_shape) NULL in
  let s := s_put s (arr + o_capacity) count in
  let s := s_put s (arr + o_length) count in
  let s := s_put s (arr + o_rank) rank in
  let s := s_put s (arr + o_elem_size) elem_size in
  s_zero s (s_ld s (arr + o_data)) data_size.

(** Each call has one dimension less; [fuel] bounds the depth. *)
Fixpoint __alloc_array_recursive (fuel : nat) (s : sheap H) (elem_size rank dims dim_index : Z) : option (Z * sheap H) :=
  if rank <=? dim_index then Some (NULL, s)
  else
    match fuel with
    | O => None
    | S fuel =>
        let count := s_ld s (dims + 8 * dim_index) in
        c_assert (negb (count =? 0)) ;;
        let shape_size := size_t (rank * 8) in
        let data_size := if 1 <? rank then size_t (count * 8) else size_t (count * elem_size) in
        let total_size := size_t (sizeof_array + shape_size) in
        '(arr, s) ← s_alloc s total_size;
        '(dt, s) ← s_alloc s data_size;
        c_assert (negb (total_size =? 0)) ;;
        let s := init_array s arr dt elem_size rank dims count shape_size data_size in
        if 1 <? rank then
          s ← sub_loop (fun s => __alloc_array_recursive fuel s elem_size (rank - 1) (dims + 8) 0)
                (Z.to_nat count) s (s_ld s (arr + o_data)) 0;
          Some (arr, s)
        else Some (arr, s)
    end.

(** [dims[i] = va_arg(args, int64_t)] for the arguments [l]. *)
Fixpoint store_dims (s : sheap H) (dims : Z) (l : list Z) : sheap H :=
  match l with [] => s | d :: l => store_dims (s_put s dims d) (dims + 8) l end.

Definition __public__alloc_array (s : sheap H) (elem_size rank : Z) (args : list Z) : option (Z * sheap H) :=
  if rank <=? 0 then Some (NULL, s)
  else
    '(dims, s) ← s_alloc s (size_t (rank * 8));
    c_assert (negb (rank =? 0)) ;;
    c_assert (rank <=? Z.of_nat (length args)) ;;
    let s := store_dims s dims (take (Z.to_nat rank) args) in
    '(result, s) ← __alloc_array_recursive (Z.to_nat rank) s elem_size rank dims 0;
    s ← s_free s dims;
    Some (result, s).

(** A NULL array ends the program; [length++] and the doubling of the
    capacity must not overflow. *)
Definition __public__extend_array (s : sheap H) (arr : Z) : option (sheap H) :=
  c_assert (negb (arr =? NULL)) ;;
  c_assert (s_ld s (arr + o_length) + 1 <? 2 ^ 63) ;;
  let s := s_put s (arr + o_length) (s_ld s (arr + o_length) + 1) in
  if s_ld s (arr + o_length) <=? s_ld s (arr + o_capacity) then Some s
  else
    c_assert (s_ld s (arr + o_capacity) * 2 <? 2 ^ 63) ;;
    let new_cap := if 0 <? s_ld s (arr + o_capacity) then s_ld s (arr + o_capacity) * 2 else 1 in
    let s := s_put s (arr + o_capacity) new_cap in
    let elem_size := s_ld s (arr + o_elem_size) in
    '(data, s) ← s_alloc s (size_t (new_cap * elem_size));
    c_assert (negb (new_cap * elem_size =? 0)) ;;
    let s := s_copy s data (s_ld s (arr + o_data)) (size_t ((s_ld s (arr + o_length) - 1) * elem_size)) in
    s ← s_free s (s_ld s (arr + o_data));
    Some (s_put s (arr + o_data) data).

Definition __public__len (s : sheap H) (arr : Z) : Z := s_ld s (arr + o_length).

Definition __public__get_subarray (s : sheap H) (arr index : Z) : Z :=
  if (arr =? NULL) || (s_ld s (arr + o_rank) <=? 1) then NULL
  else if (index <? 0) || (s_ld s (arr + o_length) <=? index) then NULL
  else s_ld s (s_ld s (arr + o_data) + 8 * index).

Definition __public__set_subarray (s : sheap H) (arr index sub_arr : Z) : sheap H :=
  if (arr =? NULL) || (s_ld s (arr + o_rank) <=? 1) then s
  else if (index <? 0) || (s_ld s (arr + o_length) <=? index) then s
  else s_put s (s_ld s (arr + o_data) + 8 * index) sub_arr.

(** ** Allocation entry points *)
Definition runtime_init (s : sheap H) : sheap H := s.
Definition __public__alloc (s : sheap H) (size : Z) : option (Z * sheap H) := s_alloc s (size_t size).
Definition lang_alloc_atomic (s : sheap H) (size : Z) : option (Z * sheap H) := s_alloc s (size_t size).
Definition runtime_collect (s : sheap H) : sheap H := s.
End arrays.
