(* ===== verification/ArraySpec.v ===== *)
(** * ArraySpec: how the array operations act on the heap

    [touch L p] says that a step only writes into the live block [p];
    [arr_at] that a header and everything below it is a jagged array of the
    given dimensions. *)

From S2P Require Import Prelude Mem Alloc Heap Bytes Strings StrHeap StrSpec Arrays.

Section touch.
Context `{HeapSpec H}.
Implicit Types (s : sheap H) (L : gmap Z Z).

Record touch L (p : Z) s s' : Prop := {
  touch_ok : s_ok s' L;
  touch_kept : kept (delete p L) s s';
  touch_room : forall r, s_room s r -> s_room s' r
}.

Lemma touch_refl L p s : s_ok s L -> touch L p s s.
Proof. intros Ho. split; [done|apply kept_refl|done]. Qed.

Lemma touch_trans L p s1 s2 s3 : touch L p s1 s2 -> touch L p s2 s3 -> touch L p s1 s3.
Proof. intros [? K1 R1] [? K2 R2]. split; [done|by eapply kept_trans|auto]. Qed.

Lemma touch_put L p n s a v : s_ok s L -> L !! p = Some n -> p <= a < p + n -> touch L p s (s_put s a v).
Proof. intros Ho Hp Ha. split; [by eapply s_put_ok|by eapply s_put_kept|intros r; apply s_put_room]. Qed.

(** One more assignment. *)
Lemma touch_then_put L p n s0 s a v : touch L p s0 s -> L !! p = Some n -> p <= a < p + n -> touch L p s0 (s_put s a v).
Proof. intros T Hp Ha. eapply touch_trans; [exact T|]. eapply touch_put; [apply T|done..]. Qed.

Lemma touch_wr L p n s a l : s_ok s L -> L !! p = Some n -> p <= a -> a + Z.of_nat (length l) <= p + n -> touch L p s (s_wr s a l).
Proof. intros Ho Hp Ha Hl. split; [done|by eapply s_wr_kept|done]. Qed.

Lemma touch_zero_words L p n (k : nat) : L !! p = Some n -> forall s a, s_ok s L -> p <= a -> a + 8 * Z.of_nat k <= p + n ->
  touch L p s (zero_words s a k).
Proof.
  intros Hp. induction k as [|k IH]; intros s a Ho Ha Hk; [by apply touch_refl|]. cbn [zero_words].
  assert (touch L p s (s_put s a 0)) as T by (eapply touch_put; [done|done|lia]).
  eapply touch_trans; [exact T|]. apply IH; [apply T|lia..].
Qed.

Lemma touch_copy_words L p n (k : nat) : L !! p = Some n -> forall s dst src, s_ok s L -> p <= dst -> dst + 8 * Z.of_nat k <= p + n ->
  touch L p s (copy_words s dst src k).
Proof.
  intros Hp. induction k as [|k IH]; intros s dst src Ho Ha Hk; [by apply touch_refl|]. cbn [copy_words].
  assert (touch L p s (s_put s dst (s_ld s src))) as T by (eapply touch_put; [done|done|lia]).
  eapply touch_trans; [exact T|]. apply IH; [apply T|lia..].
Qed.

(** *** What the loops store *)
Lemma zero_words_bytes (k : nat) : forall s a, sh_bytes (zero_words s a k) = sh_bytes s.
Proof. induction k as [|k IH]; intros s a; [done|]. cbn [zero_words]. by rewrite IH. Qed.

Lemma zero_words_out (k : nat) : forall s a x, x < a \/ a + 8 * Z.of_nat k <= x -> s_ld (zero_words s a k) x = s_ld s x.
Proof.
  induction k as [|k IH]; intros s a x Hx; [done|]. cbn [zero_words]. rewrite IH by lia. rewrite s_ld_put, decide_False by lia. done.
Qed.

Lemma zero_words_in (k : nat) : forall s a i, 0 <= i < Z.of_nat k -> s_ld (zero_words s a k) (a + 8 * i) = 0.
Proof.
  induction k as [|k IH]; intros s a i Hi; [lia|]. cbn [zero_words]. destruct (decide (i = 0)) as [->|Hne].
  - rewrite zero_words_out by lia. by rewrite s_ld_put, decide_True by lia.
  - replace (a + 8 * i) with (a + 8 + 8 * (i - 1)) by lia. apply IH. lia.
Qed.

Lemma copy_words_bytes (k : nat) : forall s dst src, sh_bytes (copy_words s dst src k) = sh_bytes s.
Proof. induction k as [|k IH]; intros s dst src; [done|]. cbn [copy_words]. by rewrite IH. Qed.

Lemma copy_words_out (k : nat) : forall s dst src x, x < dst \/ dst + 8 * Z.of_nat k <= x -> s_ld (copy_words s dst src k) x = s_ld s x.
Proof.
  induction k as [|k IH]; intros s dst src x Hx; [done|]. cbn [copy_words]. rewrite IH by lia. rewrite s_ld_put, decide_False by lia. done.
Qed.

Lemma copy_words_in (k : nat) : forall s dst src i, dst + 8 * Z.of_nat k <= src \/ src + 8 * Z.of_nat k <= dst -> 0 <= i < Z.of_nat k ->
  s_ld (copy_words s dst src k) (dst + 8 * i) = s_ld s (src + 8 * i).
Proof.
  induction k as [|k IH]; intros s dst src i Hd Hi; [lia|]. cbn [copy_words]. destruct (decide (i = 0)) as [->|Hne].
  - rewrite copy_words_out by lia. by rewrite s_ld_put, decide_True, !Z.add_0_r by lia.
  - replace (dst + 8 * i) with (dst + 8 + 8 * (i - 1)) by lia. rewrite IH by lia. rewrite s_ld_put, decide_False by lia. f_equal. lia.
Qed.

Lemma touch_zero L p n s a k : s_ok s L -> L !! p = Some n -> p <= a -> 0 <= k -> a + k <= p + n -> touch L p s (s_zero s a k).
Proof.
  intros Ho Hp Ha Hk Hl. pose proof (Z.div_mod k 8). pose proof (Z.mod_pos_bound k 8). assert (0 <= k / 8) by (apply Z.div_pos; lia).
  assert (touch L p s (zero_words s a (Z.to_nat (k / 8)))) as T by (eapply touch_zero_words; [done|done|lia..]).
  eapply touch_trans; [exact T|]. eapply touch_wr; [apply T|done|lia|]. rewrite length_replicate. lia.
Qed.

Lemma touch_copy L p n s dst src k : s_ok s L -> L !! p = Some n -> p <= dst -> 0 <= k -> dst + k <= p + n -> touch L p s (s_copy s dst src k).
Proof.
  intros Ho Hp Ha Hk Hl. pose proof (Z.div_mod k 8). pose proof (Z.mod_pos_bound k 8). assert (0 <= k / 8) by (apply Z.div_pos; lia).
  assert (touch L p s (copy_words s dst src (Z.to_nat (k / 8)))) as T by (eapply touch_copy_words; [done|done|lia..]).
  eapply touch_trans; [exact T|]. eapply touch_wr; [apply T|done|lia|]. rewrite length_rds. lia.
Qed.

(** A step inside a block that is not one of [L0] keeps [L0]. *)
Lemma touch_fresh L L0 p s s' : touch L p s s' -> L0 ⊆ L -> L0 !! p = None -> kept L0 s s'.
Proof.
  intros T Hs Hp. eapply kept_sub; [|apply T]. rewrite <- (delete_id L0 p Hp). by apply delete_mono.
Qed.
End touch.

Section arrays.
Context `{HeapSpec H}.
Implicit Types (s : sheap H) (L : gmap Z Z).

(** ** Headers *)
Record header s (p dt es : Z) (dims : list Z) (count : Z) : Prop := {
  hd_data : s_ld s (p + o_data) = dt;
  hd_shape : s_ld s (p + o_shape) = p + sizeof_array;
  hd_dims : forall i d, dims !! i = Some d -> s_ld s (p + sizeof_array + 8 * Z.of_nat i) = d;
  hd_length : s_ld s (p + o_length) = count;
  hd_capacity : s_ld s (p + o_capacity) = count;
  hd_rank : s_ld s (p + o_rank) = Z.of_nat (length dims);
  hd_elem_size : s_ld s (p + o_elem_size) = es
}.

(** The words at [dp] are the dimensions, in a live block [q]. *)
Definition dims_at s L (dp : Z) (dims : list Z) : Prop :=
  exists q m, L !! q = Some m /\ q <= dp /\ dp + 8 * Z.of_nat (length dims) <= q + m /\
    forall i d, dims !! i = Some d -> s_ld s (dp + 8 * Z.of_nat i) = d.

Lemma dims_at_kept s s' L L' dp dims : kept L s s' -> L ⊆ L' -> dims_at s L dp dims -> dims_at s' L' dp dims.
Proof.
  intros HK Hs (q & m & Hq & Hd & He & Hw). exists q, m. split_and!; [by eapply lookup_weaken|done..|].
  intros i d Hi. rewrite <- (Hw i d Hi). pose proof (lookup_lt_Some _ _ _ Hi). eapply kept_ld; [exact HK|exact Hq|lia].
Qed.

Lemma dims_at_tail s L dp d dims : dims_at s L dp (d :: dims) -> dims_at s L (dp + 8) dims.
Proof.
  intros (q & m & Hq & Hd & He & Hw). cbn [length] in He. exists q, m. split_and!; [done|lia|lia|].
  intros i x Hi. rewrite <- (Hw (S i) x Hi). f_equal. lia.
Qed.

(** Fields at different offsets. *)
Ltac fields := rewrite !s_ld_put; unfold o_data, o_shape, o_length, o_rank, o_capacity, o_elem_size, sizeof_array in *; repeat case_decide; try lia; try done.

Lemma header_kept s s' L p n dt es dims count : kept L s s' -> L !! p = Some n -> 48 + 8 * Z.of_nat (length dims) <= n ->
  header s p dt es dims count -> header s' p dt es dims count.
Proof.
  intros HK Hp Hn [E1 E2 E3 E4 E5 E6 E7].
  split; [rewrite <- E1|rewrite <- E2| |rewrite <- E4|rewrite <- E5|rewrite <- E6|rewrite <- E7];
    try (eapply kept_ld; [exact HK|exact Hp|unfold o_data, o_shape, o_length, o_rank, o_capacity, o_elem_size; lia]).
  intros i d Hi. rewrite <- (E3 i d Hi). pose proof (lookup_lt_Some _ _ _ Hi). eapply kept_ld; [exact HK|exact Hp|unfold sizeof_array; lia].
Qed.

(** The block [dt] starts with [n] zero bytes. *)
Definition zeroed s (dt n : Z) : Prop :=
  (forall i, 0 <= i < n / 8 -> s_ld s (dt + 8 * i) = 0) /\ (forall x, dt <= x < dt + n -> rd (sh_bytes s) x = 0).

Lemma s_zero_zeroed s dt n : 0 <= n -> zeroed (s_zero s dt n) dt n.
Proof.
  intros Hn. assert (0 <= n / 8) by (apply Z.div_pos; lia). split.
  - intros i Hi. apply (zero_words_in (Z.to_nat (n / 8)) s dt i). lia.
  - intros x Hx. unfold s_zero. cbn [s_bytes sh_bytes]. unfold memset. rewrite zero_words_bytes.
    pose proof (rds_wr (replicate (Z.to_nat n) 0) (sh_bytes s) dt) as E. rewrite length_replicate in E.
    assert (Hl : replicate (Z.to_nat n) 0 !! Z.to_nat (x - dt) = Some 0) by (apply lookup_replicate; split; [done|lia]).
    rewrite <- E in Hl.
    rewrite rds_lookup in Hl by lia. rewrite Z2Nat.id in Hl by lia. replace (dt + (x - dt)) with x in Hl by lia. by injection Hl.
Qed.

Lemma init_array_ok s L p n dt k es dp dims count ds : s_ok s L -> L !! p = Some n -> L !! dt = Some k -> p <> dt ->
  48 + 8 * Z.of_nat (length dims) <= n -> (0 < length dims)%nat -> 0 <= ds <= k ->
  dims_at s (delete dt (delete p L)) dp dims ->
  let s' := init_array s p dt es (Z.of_nat (length dims)) dp count (Z.of_nat (length dims) * 8) ds in
  s_ok s' L /\ kept (delete dt (delete p L)) s s' /\ (forall r, s_room s r -> s_room s' r) /\
  header s' p dt es dims count /\ zeroed s' dt ds.
Proof.
  intros Ho Hp Hdt Hne Hn Hlen Hds Hdims s'. unfold s', init_array. rewrite (proj2 (Z.ltb_lt _ _)) by lia. clear s'.
  set (s1 := s_put s (p + o_data) dt). set (s2 := s_put s1 (p + o_shape) _).
  assert (touch L p s s2) as T2.
  { unfold s2, s1. do 2 (eapply touch_then_put; [|exact Hp|unfold o_data, o_shape; lia]). by apply touch_refl. }
  assert (s_ld s2 (p + o_shape) = p + sizeof_array) as -> by (unfold s2; fields).
  set (s3 := s_copy s2 _ _ _). set (s4 := s_put s3 _ _). set (s5 := s_put s4 _ _). set (s6 := s_put s5 _ _). set (s7 := s_put s6 _ _).
  assert (touch L p s2 s3) as T3 by (eapply touch_copy; [apply T2|done|unfold sizeof_array; lia..]).
  assert (touch L p s3 s7) as T7.
  { unfold s7, s6, s5, s4. do 4 (eapply touch_then_put; [|exact Hp|unfold o_capacity, o_length, o_rank, o_elem_size; lia]).
    apply touch_refl, T3. }
  assert (touch L p s s7) as T by (eapply touch_trans; [exact T2|by eapply touch_trans]).
  assert (s_ld s7 (p + o_data) = dt) as Ed.
  { unfold s7, s6, s5, s4. fields. unfold s3, s_copy. change (s_ld (s_memcpy ?a _ _ _)) with (s_ld a). rewrite copy_words_out by lia. unfold s2, s1. fields. }
  rewrite Ed. set (s8 := s_zero s7 dt ds).
  assert (touch L dt s7 s8) as T8 by (eapply touch_zero; [apply T|done|lia..]).
  assert (header s7 p dt es dims count) as Hh.
  { split; [done|..]; unfold s7, s6, s5, s4.
    - fields. unfold s3, s_copy. change (s_ld (s_memcpy ?a _ _ _)) with (s_ld a). rewrite copy_words_out by lia. unfold s2. fields.
    - intros i d Hi. pose proof (lookup_lt_Some _ _ _ Hi). fields. unfold s3, s_copy. change (s_ld (s_memcpy ?a _ _ _)) with (s_ld a).
      destruct Hdims as (q & m & Hq & Hdq & Heq & Hw).
      assert (delete p L !! q = Some m) as Hq' by (by apply lookup_delete_Some in Hq as [_ ?]).
      assert (q <> p /\ L !! q = Some m) as [Hqp HqL] by (apply lookup_delete_Some in Hq' as [? ?]; done).
      pose proof (h_apart _ _ _ _ _ _ Ho Hp HqL (not_eq_sym Hqp)).
      rewrite Z.div_mul by lia. rewrite copy_words_in by lia. rewrite <- (Hw i d Hi).
      eapply (kept_ld (delete p L)); [apply T2|exact Hq'|lia].
    - fields.
    - fields.
    - fields.
    - fields. }
  split; [apply T8|]. split; [|split; [|split; [|apply s_zero_zeroed; lia]]].
  - eapply kept_trans; (eapply kept_sub; [|apply touch_kept; eassumption]); [apply delete_subseteq|by apply delete_mono, delete_subseteq].
  - intros r Hr. by apply T8, T.
  - eapply (header_kept s7 s8 (delete dt L) p n); [apply T8| |done|exact Hh]. by rewrite lookup_delete_ne by done.
Qed.
End arrays.
