(* ===== verification/ArrayTree.v ===== *)
(** * ArrayTree: the jagged array [__alloc_array_recursive] builds

    [arr_at s L es dims p]: in the blocks [L], [p] is an array of the
    dimensions [dims] with zeroed elements of [es] bytes; its rows are
    distinct arrays of the remaining dimensions. *)

From S2P Require Import Prelude Mem Alloc Heap Bytes Strings StrHeap StrSpec Arrays ArraySpec.

Section tree.
Context `{HeapSpec H}.
Implicit Types (s : sheap H) (L : gmap Z Z).

Fixpoint arr_at s L (es : Z) (dims : list Z) (p : Z) : Prop :=
  match dims with
  | [] => False
  | d :: ds => exists n dt k, L !! p = Some n /\ 48 + 8 * Z.of_nat (length (d :: ds)) <= n /\ L !! dt = Some k /\ k < MMAP_THRESHOLD /\ p <> dt /\
      header s p dt es (d :: ds) d /\
      match ds with
      | [] => d * es <= k /\ 0 <= d * es /\ zeroed s dt (d * es)
      | _ :: _ => d * 8 <= k /\ exists rows, length rows = Z.to_nat d /\ NoDup rows /\
          (forall i r, rows !! i = Some r -> s_ld s (dt + 8 * Z.of_nat i) = r) /\ Forall (arr_at s L es ds) rows
      end
  end.

Lemma arr_at_block s L es dims p : arr_at s L es dims p -> is_Some (L !! p).
Proof. destruct dims; [done|]. intros (n & dt & k & ? & _). by exists n. Qed.

Lemma zeroed_kept s s' L dt k n : kept L s s' -> L !! dt = Some k -> n <= k -> zeroed s dt n -> zeroed s' dt n.
Proof.
  intros [W B] Hd Hn [Hw Hb]. split.
  - intros i Hi. rewrite <- (Hw i Hi). eapply (W dt); [exact Hd|]. pose proof (Z.mul_div_le n 8). lia.
  - intros x Hx. rewrite <- (Hb x Hx). eapply (B dt); [exact Hd|lia].
Qed.

Lemma arr_at_keep s s' L L' es (dims : list Z) : kept L s s' -> L ⊆ L' -> forall p, arr_at s L es dims p -> arr_at s' L' es dims p.
Proof.
  intros HK Hs. induction dims as [|d ds IH]; intros p; [done|].
  intros (n & dt & k & Hp & Hn & Hd & Hk & Hne & Hh & Hrest). exists n, dt, k.
  split; [by eapply lookup_weaken|]. split; [done|]. split; [by eapply lookup_weaken|]. split; [done|]. split; [done|].
  split; [by eapply header_kept|]. destruct ds as [|d' ds].
  - destruct Hrest as (? & ? & Hz). split; [done|]. split; [done|]. by eapply zeroed_kept.
  - destruct Hrest as (Hle & rows & Hlen & Hnd & Hw & Hr). split; [done|]. exists rows. split; [done|]. split; [done|]. split.
    + intros i r Hi. rewrite <- (Hw i r Hi). pose proof (lookup_lt_Some _ _ _ Hi). eapply kept_ld; [exact HK|exact Hd|lia].
    + eapply Forall_impl; [exact Hr|]. exact IH.
Qed.

(** The number of allocations. *)
Fixpoint nallocs (dims : list Z) : nat :=
  match dims with
  | [] => 0
  | [_] => 2
  | d :: ds => 2 + Z.to_nat d * nallocs ds
  end.

(** Every block is of an admissible size. *)
Fixpoint sizes_ok (es : Z) (dims : list Z) : Prop :=
  match dims with
  | [] => True
  | d :: ds => 0 < d /\ 48 + 8 * Z.of_nat (length dims) <= REQUEST_MAX /\
      match ds with [] => 0 < d * es <= REQUEST_MAX | _ :: _ => d * 8 <= REQUEST_MAX end /\ sizes_ok es ds
  end.

(** What a call returns: a new array in new blocks. *)
Definition makes es dims (make : sheap H -> option (Z * sheap H)) s L (r : nat) : Prop :=
  exists p s' L', make s = Some (p, s') /\ s_ok s' L' /\ L ⊆ L' /\ kept L s s' /\ arr_at s' (L' ∖ L) es dims p /\ s_room s' r.

Lemma diff_sub (L1 L0 L : gmap Z Z) : L0 ⊆ L -> L1 ∖ L ⊆ L1 ∖ L0.
Proof.
  intros Hs. apply map_subseteq_spec. intros i x. rewrite !lookup_difference_Some. intros [? E]. split; [done|].
  exact (lookup_weaken_None _ _ _ E Hs).
Qed.

Lemma diff_mono (L1 L0 L : gmap Z Z) : L ⊆ L1 -> L ∖ L0 ⊆ L1 ∖ L0.
Proof.
  intros Hs. apply map_subseteq_spec. intros i x. rewrite !lookup_difference_Some. intros [E ?]. split; [|done].
  exact (lookup_weaken _ _ _ _ E Hs).
Qed.

Lemma diff_delete (L1 L : gmap Z Z) (p n : Z) : L !! p = Some n -> L1 ∖ L ⊆ delete p L1.
Proof.
  intros Hp. apply map_subseteq_spec. intros i x. rewrite lookup_difference_Some, lookup_delete_Some. intros [? E].
  split; [congruence|done].
Qed.

(** The loop over the rows, whose pointers go to the block [dt]. *)
Lemma sub_loop_ok es ds dp (make : sheap H -> option (Z * sheap H)) (a : nat) s0 L0 dt k :
  L0 !! dt = Some k ->
  (forall s L r, s_ok s L -> dims_at s L dp ds -> s_room s (a + r) -> makes es ds make s L r) ->
  forall n s L rows r, s_ok s L -> L0 ⊆ L -> kept (delete dt L0) s0 s -> dims_at s0 (delete dt L0) dp ds ->
    8 * Z.of_nat (length rows + n) <= k -> NoDup rows ->
    (forall i x, rows !! i = Some x -> s_ld s (dt + 8 * Z.of_nat i) = x) -> Forall (arr_at s (L ∖ L0) es ds) rows ->
    s_room s (n * a + r) ->
    exists s' L' rows', sub_loop make n s dt (Z.of_nat (length rows)) = Some s' /\ s_ok s' L' /\ L0 ⊆ L' /\ kept (delete dt L0) s0 s' /\
      length rows' = (length rows + n)%nat /\ NoDup rows' /\
      (forall i x, rows' !! i = Some x -> s_ld s' (dt + 8 * Z.of_nat i) = x) /\ Forall (arr_at s' (L' ∖ L0) es ds) rows' /\ s_room s' r.
Proof.
  intros Hdt Hmake. induction n as [|n IH]; intros s L rows r Ho Hs HK Hdims Hlen Hnd Hw Hrows Hr; cbn [sub_loop].
  { exists s, L, rows. rewrite Nat.add_0_r. split_and!; done. }
  assert (L !! dt = Some k) as HdtL by (by eapply lookup_weaken).
  destruct (Hmake s L (n * a + r)%nat Ho) as (p & s1 & L1 & -> & Ho1 & Hs1 & HK1 & Hp & Hr1).
  { eapply dims_at_kept; [exact HK| |exact Hdims]. etrans; [apply delete_subseteq|done]. }
  { by rewrite Nat.add_assoc. }
  cbn [mbind option_bind]. assert (L1 !! dt = Some k) as HdtL1 by (by eapply lookup_weaken).
  assert (touch L1 dt s1 (s_put s1 (dt + 8 * Z.of_nat (length rows)) p)) as T by (eapply touch_put; [done|done|lia]).
  set (s2 := s_put s1 _ p) in *. assert (L0 ⊆ L1) as Hs01 by (by etrans).
  assert (kept (L1 ∖ L) s1 s2) as HK2 by (eapply kept_sub; [|apply T]; by eapply diff_delete).
  assert (kept (L ∖ L0) s s2) as HK02.
  { eapply kept_trans; [eapply kept_sub; [apply map_subseteq_difference_l|exact HK1]; done|].
    eapply kept_sub; [|apply T]. etrans; [by eapply (diff_delete L L0)|by apply delete_mono]. }
  assert (p ∉ rows) as Hnew.
  { intros Hin. apply arr_at_block in Hp as [n1 [_ Hp]%lookup_difference_Some].
    rewrite Forall_forall in Hrows. apply Hrows, arr_at_block in Hin as [n2 [Hin _]%lookup_difference_Some]. congruence. }
  replace (Z.of_nat (length rows) + 1) with (Z.of_nat (length (rows ++ [p]))) by (rewrite length_app; cbn; lia).
  destruct (IH s2 L1 (rows ++ [p]) r) as (s' & L' & rows' & E & Ho' & Hs' & HK' & Hl' & Hnd' & Hw' & Hrows' & Hr').
  - apply T.
  - done.
  - eapply kept_trans; [exact HK|]. eapply kept_trans; [eapply kept_sub; [|exact HK1]; etrans; [apply delete_subseteq|done]|].
    eapply kept_sub; [|apply T]. by apply delete_mono.
  - done.
  - rewrite length_app. cbn. lia.
  - rewrite NoDup_app. split_and!; [done| |apply NoDup_singleton]. intros x Hx ->%list_elem_of_singleton. done.
  - intros i x Hi. unfold s2. rewrite s_ld_put. apply lookup_app_Some in Hi as [Hi|[Hge Hi]].
    + pose proof (lookup_lt_Some _ _ _ Hi). rewrite decide_False by lia. rewrite (kept_ld L s s1 dt k) by (done || lia). by apply Hw.
    + apply list_lookup_singleton_Some in Hi as [Hi <-]. rewrite decide_True by lia. done.
  - apply Forall_app. split.
    + eapply Forall_impl; [exact Hrows|]. intros x Hx. eapply arr_at_keep; [exact HK02| |exact Hx]. by apply diff_mono.
    + apply Forall_singleton. eapply arr_at_keep; [exact HK2|by apply diff_sub|done].
  - by apply T.
  - exists s', L', rows'. rewrite length_app in Hl'. cbn [length] in Hl'. split_and!; try done. lia.
Qed.

(** The two allocations of a call and its header. *)
Lemma alloc_node_ok es d ds s L dp (data_size : Z) r : s_ok s L -> dims_at s L dp (d :: ds) -> s_room s (S (S r)) ->
  48 + 8 * Z.of_nat (length (d :: ds)) <= REQUEST_MAX -> 0 < data_size <= REQUEST_MAX ->
  exists p s1 dt s2 n k, s_alloc s (sizeof_array + Z.of_nat (length (d :: ds)) * 8) = Some (p, s1) /\ s_alloc s1 data_size = Some (dt, s2) /\
    L !! p = None /\ L !! dt = None /\ p <> dt /\ 48 + 8 * Z.of_nat (length (d :: ds)) <= n /\ data_size <= k < MMAP_THRESHOLD /\
    let L2 := <[dt := k]> (<[p := n]> L) in
    let s' := init_array s2 p dt es (Z.of_nat (length (d :: ds))) dp d (Z.of_nat (length (d :: ds)) * 8) data_size in
    s_ok s' L2 /\ kept L s s' /\ s_room s' r /\ header s' p dt es (d :: ds) d /\ zeroed s' dt data_size.
Proof.
  intros Ho Hdims Hr Hlen Hds. unfold sizeof_array.
  destruct (s_alloc_ok s L (48 + Z.of_nat (length (d :: ds)) * 8) (S r) Ho Hr) as (p & n & s1 & E1 & Hp & Hn & Ho1 & HK1 & Hr1 & _); [lia|].
  destruct (s_alloc_ok s1 _ data_size r Ho1 Hr1) as (dt & k & s2 & E2 & Hdt & Hk & Ho2 & HK2 & Hr2 & _); [lia|].
  apply lookup_insert_None in Hdt as [Hdt Hne]. exists p, s1, dt, s2, n, k. do 5 (split; [done|]). do 2 (split; [lia|]). cbv zeta.
  set (L2 := <[dt := k]> (<[p := n]> L)) in *.
  assert (delete dt (delete p L2) = L) as EL.
  { unfold L2. rewrite delete_insert_ne by done. rewrite (delete_insert_id L) by done. by apply delete_insert_id. }
  assert (kept L s s2) as HK by (eapply kept_trans; [exact HK1|]; eapply kept_sub; [|exact HK2]; by apply kept_fresh).
  destruct (init_array_ok s2 L2 p n dt k es dp (d :: ds) d data_size) as (Ho' & HK' & Hr' & Hh & Hz).
  - done.
  - unfold L2. by rewrite lookup_insert_ne, lookup_insert_eq by done.
  - apply lookup_insert_eq.
  - done.
  - lia.
  - cbn. lia.
  - lia.
  - rewrite EL. by eapply dims_at_kept.
  - rewrite EL in HK'. split; [exact Ho'|]. split; [by eapply kept_trans|]. split; [by apply Hr'|]. split; [exact Hh|exact Hz].
Qed.

(** New blocks on top of [L]. *)
Lemma new_in_diff (L L' : gmap Z Z) (p n : Z) : L !! p = None -> L' !! p = Some n -> (L' ∖ L) !! p = Some n.
Proof. intros Hp Hn. by apply lookup_difference_Some. Qed.

Lemma alloc_rec_ok es (dims : list Z) : forall fuel s L dp r, (0 < length dims <= fuel)%nat -> sizes_ok es dims -> s_ok s L ->
  dims_at s L dp dims -> s_room s (nallocs dims + r) ->
  makes es dims (fun s => __alloc_array_recursive fuel s es (Z.of_nat (length dims)) dp 0) s L r.
Proof.
  induction dims as [|d ds IH]; intros fuel s L dp r Hf Hsz Ho Hdims Hr; [cbn in Hf; lia|].
  destruct fuel as [|fuel]; [lia|]. destruct Hsz as (Hd & Hlen & Hds & Hsz). unfold makes. cbn [__alloc_array_recursive].
  rewrite (proj2 (Z.leb_gt _ _)) by (cbn; lia).
  assert (s_ld s (dp + 8 * 0) = d) as ->.
  { destruct Hdims as (q & m & _ & _ & _ & Hw). by apply (Hw 0%nat d). }
  replace (d =? 0) with false by lia. cbn [c_assert negb mbind option_bind]. unfold REQUEST_MAX in Hlen.
  rewrite (uwrap_small 64 (Z.of_nat (length (d :: ds)) * 8)) by (unfold in_uint; lia).
  rewrite (uwrap_small 64 (sizeof_array + _)) by (unfold in_uint, sizeof_array; lia).
  destruct ds as [|d' ds].
  - cbn [length] in *. change (1 <? Z.of_nat 1) with false. cbv iota. unfold REQUEST_MAX in Hds.
    rewrite (uwrap_small 64 (d * es)) by (unfold in_uint; lia).
    destruct (alloc_node_ok es d [] s L dp (d * es) r) as (p & s1 & dt & s2 & n & k & E1 & E2 & Hp & Hdt & Hne & Hn & Hk & Ho' & HK' & Hr' & Hh & Hz);
      [done|done|done|unfold REQUEST_MAX; cbn; lia|unfold REQUEST_MAX; lia|].
    cbn [length] in *. rewrite E1. cbn [mbind option_bind]. rewrite E2. cbn [mbind option_bind].
    replace (sizeof_array + Z.of_nat 1 * 8 =? 0) with false by done. cbn [c_assert negb mbind option_bind].
    eexists p, _, (<[dt := k]> (<[p := n]> L)). split; [done|]. split; [exact Ho'|]. split.
    { etrans; [by apply (kept_fresh L p n)|]. apply kept_fresh. by rewrite lookup_insert_ne. }
    split; [exact HK'|]. split; [|exact Hr']. exists n, dt, k. split.
    { apply new_in_diff; [done|]. by rewrite lookup_insert_ne, lookup_insert_eq. }
    split; [cbn; lia|]. split; [apply new_in_diff; [done|apply lookup_insert_eq]|].
    split; [lia|]. split; [done|]. split; [exact Hh|]. split; [lia|]. split; [lia|exact Hz].
  - rewrite (proj2 (Z.ltb_lt 1 (Z.of_nat (length (d :: d' :: ds))))) by (cbn [length]; lia). cbv iota. unfold REQUEST_MAX in Hds.
    rewrite (uwrap_small 64 (d * 8)) by (unfold in_uint; lia).
    destruct (alloc_node_ok es d (d' :: ds) s L dp (d * 8) (Z.to_nat d * nallocs (d' :: ds) + r)) as
      (p & s1 & dt & s2 & n & k & E1 & E2 & Hp & Hdt & Hne & Hn & Hk & Ho' & HK' & Hr' & Hh & _);
      [done|done|exact Hr|unfold REQUEST_MAX; lia|unfold REQUEST_MAX; lia|].
    rewrite E1. cbn [mbind option_bind]. rewrite E2. cbn [mbind option_bind].
    rewrite (proj2 (Z.eqb_neq _ _)) by (unfold sizeof_array; lia). cbn [c_assert negb mbind option_bind].
    set (s3 := init_array _ _ _ _ _ _ _ _ _) in *. set (L2 := <[dt := k]> (<[p := n]> L)) in *. rewrite (hd_data _ _ _ _ _ _ Hh).
    assert (L2 !! dt = Some k) as HdtL by apply lookup_insert_eq.
    assert (delete dt L2 !! p = Some n) as HpL by (unfold L2; by rewrite lookup_delete_ne, lookup_insert_ne, lookup_insert_eq).
    assert (L ⊆ delete dt L2) as HL by (unfold L2; rewrite delete_insert_id by (by rewrite lookup_insert_ne); by apply kept_fresh).
    destruct (sub_loop_ok es (d' :: ds) (dp + 8) (fun s => __alloc_array_recursive fuel s es (Z.of_nat (length (d :: d' :: ds)) - 1) (dp + 8) 0)
      (nallocs (d' :: ds)) s3 L2 dt k HdtL) with (n := Z.to_nat d) (s := s3) (L := L2) (rows := @nil Z) (r := r)
      as (s' & L' & rows & E & Ho4 & Hs4 & HK4 & Hlr & Hnd & Hw & Hrows & Hr4).
    + intros s4 L4 r4 Ho4 Hd4 Hr4. replace (Z.of_nat (length (d :: d' :: ds)) - 1) with (Z.of_nat (length (d' :: ds))) by (cbn [length]; lia).
      apply IH; [cbn [length] in *; lia|done..].
    + exact Ho'.
    + done.
    + apply kept_refl.
    + eapply dims_at_tail, dims_at_kept; [exact HK'|exact HL|exact Hdims].
    + cbn [length Nat.add]. lia.
    + apply NoDup_nil_2.
    + intros i x Hi. by rewrite lookup_nil in Hi.
    + by apply Forall_nil.
    + exact Hr'.
    + change (Z.of_nat (length [])) with 0 in E. rewrite E. cbn [mbind option_bind].
      exists p, s', L'. split; [done|]. split; [done|].
      assert (L ⊆ L2) as HL2 by (etrans; [exact HL|apply delete_subseteq]). split; [by etrans|].
      split; [eapply kept_trans; [exact HK'|exact (kept_sub _ _ _ _ HL HK4)]|]. split; [|done]. exists n, dt, k.
      split; [apply new_in_diff; [done|]; eapply lookup_weaken; [|exact Hs4]; unfold L2; by rewrite lookup_insert_ne, lookup_insert_eq|].
      split; [lia|]. split; [apply new_in_diff; [done|by eapply lookup_weaken]|]. split; [lia|]. split; [done|].
      split; [exact (header_kept _ _ _ _ _ _ _ _ _ HK4 HpL Hn Hh)|]. split; [lia|]. exists rows. split; [done|]. split; [done|]. split; [done|].
      eapply Forall_impl; [exact Hrows|]. intros x Hx. eapply arr_at_keep; [apply kept_refl| |exact Hx]. by apply diff_sub.
Qed.
End tree.
