(* ===== verification/ArrayThms.v ===== *)
(** * ArrayThms: what the array operations guarantee *)

From S2P Require Import Prelude Mem Alloc Heap Bytes AllocSpec Strings StrHeap StrSpec Arrays ArraySpec ArrayTree.

Section thms.
Context `{HeapSpec H}.
Implicit Types (s : sheap H) (L : gmap Z Z).

Lemma store_dims_ok L q m : L !! q = Some m -> forall l s dp, s_ok s L -> q <= dp -> dp + 8 * Z.of_nat (length l) <= q + m ->
  touch L q s (store_dims s dp l) /\ (forall x, x < dp -> s_ld (store_dims s dp l) x = s_ld s x) /\
  forall i d, l !! i = Some d -> s_ld (store_dims s dp l) (dp + 8 * Z.of_nat i) = d.
Proof.
  intros Hq. induction l as [|d l IH]; intros s dp Ho Hd He; cbn [store_dims length] in *.
  { split; [by apply touch_refl|]. split; [done|]. intros i x Hi. by rewrite lookup_nil in Hi. }
  assert (touch L q s (s_put s dp d)) as T by (eapply touch_put; [done|done|lia]).
  destruct (IH (s_put s dp d) (dp + 8)) as (T' & Hout & Hin); [apply T|lia..|]. split; [by eapply touch_trans|]. split.
  - intros x Hx. rewrite Hout by lia. rewrite s_ld_put, decide_False by lia. done.
  - intros [|i] x Hi; cbn in Hi.
    + injection Hi as <-. rewrite Hout by lia. rewrite s_ld_put, decide_True by lia. done.
    + rewrite <- (Hin i x Hi). f_equal. lia.
Qed.

Lemma alloc_array_ok s L es dims r (Ho : s_ok s L) (Hne : dims <> []) (Hsz : sizes_ok es dims)
  (Hr : s_room s (S (nallocs dims + r))) :
  exists p s' L', __public__alloc_array s es (Z.of_nat (length dims)) dims = Some (p, s') /\
    s_ok s' L' /\ L ⊆ L' /\ arr_at s' (L' ∖ L) es dims p /\ kept L s s' /\ s_room s' r.
Proof.
  assert (0 < length dims)%nat as Hlen by (destruct dims; [done|cbn; lia]).
  assert (48 + 8 * Z.of_nat (length dims) <= 131000) as Hmax.
  { destruct dims as [|d ds]; [done|]. destruct Hsz as (_ & Hx & _). exact Hx. }
  unfold __public__alloc_array. rewrite (proj2 (Z.leb_gt _ _)) by lia.
  rewrite uwrap_small by (unfold in_uint; lia).
  destruct (s_alloc_ok s L (Z.of_nat (length dims) * 8) _ Ho Hr) as (q & m & s1 & -> & Hq & Hm & Ho1 & HK1 & Hr1 & _);
    [unfold REQUEST_MAX; lia|]. cbn [mbind option_bind].
  rewrite (proj2 (Z.eqb_neq _ _)), Z.leb_refl by lia. cbn [c_assert negb mbind option_bind]. rewrite Nat2Z.id, firstn_all.
  set (L1 := <[q := m]> L) in *. assert (L1 !! q = Some m) as Hq1 by apply lookup_insert_eq.
  destruct (store_dims_ok L1 q m Hq1 dims s1 q Ho1) as (T & _ & Hw); [lia|lia|]. set (s2 := store_dims s1 q dims) in *.
  destruct (alloc_rec_ok es dims (length dims) s2 L1 q r) as (p & s3 & L3 & -> & Ho3 & Hs3 & HK3 & Hp & Hr3);
    [lia|done|apply T| |by apply T|].
  { exists q, m. split_and!; [done|lia|lia|exact Hw]. }
  cbn [mbind option_bind].
  destruct (s_free_ok s3 L3 q m Ho3) as (s4 & -> & Ho4 & HK4 & Hr4 & _); [by eapply lookup_weaken|lia|]. cbn [mbind option_bind].
  assert (L ⊆ delete q L3) as HL.
  { rewrite <- (delete_id L q Hq). apply delete_mono. etrans; [by apply (kept_fresh L q m)|done]. }
  exists p, s4, (delete q L3). split; [done|]. split; [done|]. split; [done|]. split; [|split].
  - eapply arr_at_keep; [|..|exact Hp].
    + eapply kept_sub; [|exact HK4]. by eapply diff_delete.
    + apply map_subseteq_spec. intros i x. rewrite !lookup_difference_Some, lookup_delete_Some. unfold L1. rewrite lookup_insert_None.
      intros [? [? ?]]. done.
  - eapply kept_trans; [exact HK1|]. eapply kept_trans; [exact (touch_fresh _ _ _ _ _ T (kept_fresh L q m Hq) Hq)|].
    eapply kept_trans; [eapply kept_sub; [|exact HK3]; by apply kept_fresh|]. by eapply kept_sub.
  - by apply Hr4.
Qed.

(** C26: for positive dimensions (a zero fails an assertion) and blocks of
    at most 131000 bytes each, [__public__alloc_array] terminates and returns
    a new jagged array of exactly the requested dimensions, built of blocks
    that were not live before: every level has its length, capacity, rank and shape, the rows
    of one array are pairwise distinct, the elements are zero, the block
    of the dimensions has been given back and no live block has changed. *)
Theorem alloc_array_spec s L es dims r (Ho : s_ok s L) (Hne : dims <> []) (Hsz : sizes_ok es dims)
  (Hr : s_room s (S (nallocs dims + r))) :
  exists p s' L', __public__alloc_array s es (Z.of_nat (length dims)) dims = Some (p, s') /\
    s_ok s' L' /\ L ⊆ L' /\ arr_at s' (L' ∖ L) es dims p /\ kept L s s' /\ s_room s' r.
Proof. exact (alloc_array_ok s L es dims r Ho Hne Hsz Hr). Qed.

(** On a jagged array, [set_subarray] at an index in range replaces
    exactly that row: reading it back gives the new row, every other row is
    as before, and at an index out of range nothing is stored and NULL is
    read. *)
Theorem set_get_subarray s L es d d' ds p i j v (Ho : s_ok s L) (Hp : arr_at s L es (d :: d' :: ds) p) :
  let s' := __public__set_subarray s p i v in
  (if (0 <=? i) && (i <? d) then
     __public__get_subarray s' p i = v /\ (j <> i -> __public__get_subarray s' p j = __public__get_subarray s p j)
   else s' = s /\ __public__get_subarray s p i = NULL) /\
  s_ok s' L /\ __public__len s' p = d.
Proof.
  destruct Hp as (n & dt & k & Hp & Hn & Hd & Hk & Hne & Hh & Hdk & _). destruct (s_block _ _ _ _ Ho Hp) as [Hp0 _].
  cbn [length] in Hn. pose proof Hh as [E1 _ _ E4 _ E6 _]. cbn [length] in E6.
  assert (Hget : forall s2 x, header s2 p dt es (d :: d' :: ds) d -> __public__get_subarray s2 p x = if (x <? 0) || (d <=? x) then NULL else s_ld s2 (dt + 8 * x)).
  { intros s2 x [F1 _ _ F4 _ F6 _]. cbn [length] in F6. unfold __public__get_subarray.
    rewrite (proj2 (Z.eqb_neq _ _)), F6, (proj2 (Z.leb_gt _ _)), F4, F1 by lia. done. }
  unfold __public__set_subarray, __public__len. rewrite (proj2 (Z.eqb_neq _ _)), E6, (proj2 (Z.leb_gt (Z.of_nat _) 1)), E4, E1 by lia. cbn [orb].
  destruct (Z.leb_spec 0 i) as [H0i|?].
  2:{ replace (i <? 0) with true by lia. cbn [orb andb]. split; [|done]. split; [done|]. rewrite Hget by done. by replace (i <? 0) with true by lia. }
  replace (i <? 0) with false by lia. cbn [orb andb]. destruct (Z.ltb_spec i d) as [Hid|?].
  2:{ replace (d <=? i) with true by lia. split; [|done]. split; [done|]. rewrite Hget by done.
      replace (d <=? i) with true by lia. by rewrite orb_true_r. }
  replace (d <=? i) with false by lia.
  assert (touch L dt s (s_put s (dt + 8 * i) v)) as T by (eapply touch_put; [done|exact Hd|lia]).
  assert (header (s_put s (dt + 8 * i) v) p dt es (d :: d' :: ds) d) as Hh'.
  { eapply (header_kept s _ (delete dt L) p n); [apply T|by rewrite lookup_delete_ne by done|cbn [length]; lia|done]. }
  split; [split|split; [apply T|apply Hh']].
  - rewrite Hget by done. replace (i <? 0) with false by lia. replace (d <=? i) with false by lia. cbn [orb].
    by rewrite s_ld_put, decide_True.
  - intros Hji. rewrite !Hget by done. destruct ((j <? 0) || (d <=? j)) eqn:E; [done|]. rewrite s_ld_put, decide_False by lia. done.
Qed.

(** A growable array: header [p], buffer [dt] with room for [cap] times
    [es] bytes, of which [n] times [es] are in use.  [elements_at]: an array
    of rank 1, whose entries are the elements of [es] bytes; [rows_at]: an
    array of higher rank, whose entries are pointers to its rows. *)
Record vec_at s L (p dt es cap n : Z) : Prop := {
  vec_header : exists np, L !! p = Some np /\ 48 <= np;
  vec_buffer : exists k, L !! dt = Some k /\ cap * es <= k < MMAP_THRESHOLD;
  vec_apart : p <> dt;
  vec_data : s_ld s (p + o_data) = dt;
  vec_length : s_ld s (p + o_length) = n;
  vec_capacity : s_ld s (p + o_capacity) = cap;
  vec_elem_size : s_ld s (p + o_elem_size) = es;
  vec_bounds : 0 < es /\ 0 <= n <= cap
}.

Definition elements_at s L (p dt es cap n : Z) : Prop := vec_at s L p dt es cap n /\ s_ld s (p + o_rank) = 1.
Definition rows_at s L (p dt es cap n : Z) : Prop := vec_at s L p dt es cap n /\ 1 < s_ld s (p + o_rank).

(** The first [n] elements of [es] bytes at [b] in [s'] are those at [a] in
    [s], read as bytes and as words. *)
Definition same_elements s s' (a b es n : Z) : Prop :=
  rds (sh_bytes s') b (Z.to_nat (n * es)) = rds (sh_bytes s) a (Z.to_nat (n * es)) /\
  forall i, 0 <= i < n * es / 8 -> s_ld s' (b + 8 * i) = s_ld s (a + 8 * i).

Lemma same_elements_kept s s' L dt k es n : kept L s s' -> L !! dt = Some k -> 0 <= n * es <= k -> same_elements s s' dt dt es n.
Proof.
  intros HK Hd Hn. pose proof (Z.mul_div_le (n * es) 8). split; [eapply kept_rds; [exact HK|exact Hd|lia..]|].
  intros i Hi. eapply kept_ld; [exact HK|exact Hd|lia].
Qed.

Lemma same_elements_copy s b a es n : 0 <= n * es -> b + n * es <= a \/ a + n * es <= b ->
  same_elements s (s_copy s b a (n * es)) a b es n.
Proof.
  intros Hn Hd. pose proof (Z.mul_div_le (n * es) 8). split.
  - unfold s_copy, s_memcpy. cbn [s_bytes sh_bytes]. rewrite rds_memcpy by lia. by rewrite copy_words_bytes.
  - intros i Hi. apply (copy_words_in (Z.to_nat (n * es / 8)) s b a i); lia.
Qed.

Lemma same_elements_trans s1 s2 s3 a b c es n : same_elements s1 s2 a b es n -> same_elements s2 s3 b c es n -> same_elements s1 s3 a c es n.
Proof. intros [B1 W1] [B2 W2]. split; [by rewrite B2|]. intros i Hi. by rewrite W2, W1. Qed.

(** The reallocation of [__public__extend_array]: a new buffer with the
    [n] elements in use, in the place of the old one. *)
Lemma grow_copy s L p np dt k es n new_cap r : s_ok s L -> L !! p = Some np -> 48 <= np -> L !! dt = Some k -> p <> dt -> 0 <= n * es <= k ->
  k < MMAP_THRESHOLD -> n * es <= new_cap * es -> 0 < new_cap * es <= REQUEST_MAX -> s_ld s (p + o_data) = dt -> s_ld s (p + o_length) = n + 1 ->
  s_room s (S r) ->
  exists b k' s', ('(data, s) ← s_alloc s (size_t (new_cap * es));
    c_assert (negb (new_cap * es =? 0)) ;;
    let s := s_copy s data (s_ld s (p + o_data)) (size_t ((s_ld s (p + o_length) - 1) * es)) in
    s ← s_free s (s_ld s (p + o_data));
    Some (s_put s (p + o_data) data)) = Some s' /\
    s_ok s' (<[b := k']> (delete dt L)) /\ L !! b = None /\ new_cap * es <= k' < MMAP_THRESHOLD /\ p <> b /\ s_ld s' (p + o_data) = b /\
    (forall o, 0 < o < 48 -> s_ld s' (p + o) = s_ld s (p + o)) /\ same_elements s s' dt b es n /\ kept (delete p (delete dt L)) s s'.
Proof.
  intros Ho Hp Hnp Hd Hne Hn Hk Hle Hmax G1 G2 Hr. unfold REQUEST_MAX in *. rewrite (uwrap_small 64 (new_cap * es)) by (unfold in_uint; lia).
  destruct (s_alloc_ok s L (new_cap * es) r Ho Hr) as (b & k' & s3 & -> & Hb & Hk' & Ho3 & HK3 & _ & _); [unfold REQUEST_MAX; lia|].
  cbn [mbind option_bind]. rewrite (proj2 (Z.eqb_neq (new_cap * es) 0)) by lia. cbn [c_assert negb mbind option_bind].
  assert (Hf : forall o, 0 <= o < 48 -> s_ld s3 (p + o) = s_ld s (p + o)) by (intros o Hoo; eapply kept_ld; [exact HK3|exact Hp|lia]).
  rewrite !Hf, G1, G2 by (unfold o_length, o_data; lia). replace (n + 1 - 1) with n by lia.
  rewrite (uwrap_small 64 (n * es)) by (unfold in_uint; lia). set (s4 := s_copy s3 b dt (n * es)).
  assert (touch (<[b := k']> L) b s3 s4) as T4 by (eapply touch_copy; [done|apply lookup_insert_eq|lia|lia|lia]).
  assert (kept L s3 s4) as HK4 by (exact (touch_fresh _ _ _ _ _ T4 (kept_fresh L b k' Hb) Hb)).
  assert (s_ld s4 (p + o_data) = dt) as ->.
  { rewrite (kept_ld L s3 s4 p np) by (done || (unfold o_data; lia)). by rewrite Hf by (unfold o_data; lia). }
  destruct (rebuffer s4 L p np dt k b k') as (s5 & -> & Ho6 & HK6 & HK6' & Eb6 & Ed6 & Ef6); [apply T4|done|done|done|lia|done|].
  cbn [mbind option_bind]. set (s6 := s_put s5 (p + o_data) b) in *. exists b, k', s6. assert (b <> dt /\ p <> b) as [Hbd Hpb] by (split; congruence).
  split; [done|]. split; [done|]. split; [done|]. split; [lia|]. split; [done|]. split; [done|]. split; [|split].
  - intros o Hoo. rewrite Ef6 by (unfold o_data; lia). rewrite (kept_ld L s3 s4 p np) by (done || lia). apply Hf. lia.
  - eapply (same_elements_trans s s4 s6 dt b b).
    + eapply (same_elements_trans s s3 s4 dt dt b); [by eapply (same_elements_kept _ _ L); [exact HK3|exact Hd|lia]|].
      apply same_elements_copy; [lia|]. pose proof (h_apart _ _ _ _ _ _ Ho3 (lookup_insert_eq _ _ _) (eq_trans (lookup_insert_ne _ _ _ _ Hbd) Hd) Hbd). lia.
    + eapply (same_elements_kept _ _ (delete p (<[b := k']> (delete dt L)))); [exact HK6|rewrite lookup_delete_ne by done; apply lookup_insert_eq|lia].
  - eapply kept_trans; [eapply kept_sub; [|exact HK3]; etrans; apply delete_subseteq|].
    eapply kept_trans; [eapply kept_sub; [|exact HK4]; etrans; apply delete_subseteq|exact HK6'].
Qed.

(** What [__public__extend_array] does to any growable array. *)
Lemma extend_ok s L p dt es cap n r (Ho : s_ok s L) (Hv : vec_at s L p dt es cap n) (Hr : s_room s (S r))
  (Hmax : 2 * cap * es <= REQUEST_MAX) (Hes : es <= REQUEST_MAX) :
  exists s' L' dt', __public__extend_array s p = Some s' /\ s_ok s' L' /\
    vec_at s' L' p dt' es (if n <? cap then cap else Z.max 1 (2 * cap)) (n + 1) /\ same_elements s s' dt dt' es n /\
    kept (delete p (delete dt L)) s s' /\
    (if n <? cap then L' = L /\ dt' = dt else L !! dt' = None /\ exists k, L' = <[dt' := k]> (delete dt L)) /\
    s_ld s' (p + o_rank) = s_ld s (p + o_rank).
Proof.
  destruct Hv as [(np & Hp & Hnp) (k & Hd & Hk) Hne E1 E2 E3 E4 [Hes0 Hn]]. destruct (s_block _ _ _ _ Ho Hp) as [Hp0 _].
  unfold REQUEST_MAX in *. assert (0 <= n * es <= cap * es) by nia. assert (cap <= cap * es) by nia.
  unfold __public__extend_array. rewrite (proj2 (Z.eqb_neq p NULL)), E2, (proj2 (Z.ltb_lt (n + 1) (2 ^ 63))) by lia.
  cbn [c_assert negb mbind option_bind]. set (s1 := s_put s (p + o_length) (n + 1)).
  assert (touch L p s s1) as T1 by (eapply touch_put; [done|exact Hp|unfold o_length; lia]).
  assert (s_ld s1 (p + o_length) = n + 1) as F2 by (unfold s1; by rewrite s_ld_put, decide_True).
  assert (s_ld s1 (p + o_data) = dt /\ s_ld s1 (p + o_capacity) = cap /\ s_ld s1 (p + o_elem_size) = es) as (F1 & F3 & F4).
  { unfold s1. rewrite !s_ld_put, !decide_False by (unfold o_length, o_data, o_capacity, o_elem_size; lia). done. }
  rewrite F2, F3. destruct (Z.ltb_spec n cap) as [Hlt|Hge].
  - replace (n + 1 <=? cap) with true by lia. exists s1, L, dt. split; [done|]. split; [apply T1|]. split.
    { split; [by exists np|by exists k|done..|lia]. }
    split; [|split; [|split; [done|]]].
    + eapply (same_elements_kept _ _ (delete p L)); [apply T1|rewrite lookup_delete_ne by done; exact Hd|lia].
    + eapply kept_sub; [|apply T1]. apply delete_mono, delete_subseteq.
    + unfold s1. by rewrite s_ld_put, decide_False by (unfold o_length, o_rank; lia).
  - replace (n + 1 <=? cap) with false by lia. rewrite (proj2 (Z.ltb_lt (cap * 2) _)) by lia. cbn [c_assert mbind option_bind].
    set (new_cap := if 0 <? cap then cap * 2 else 1). assert (new_cap = Z.max 1 (2 * cap)) as Enc by (unfold new_cap; zcases; lia).
    set (s2 := s_put s1 (p + o_capacity) new_cap).
    assert (touch L p s s2) as T2 by (eapply touch_then_put; [exact T1|exact Hp|unfold o_capacity; lia]).
    assert (s_ld s2 (p + o_length) = n + 1 /\ s_ld s2 (p + o_data) = dt /\ s_ld s2 (p + o_elem_size) = es /\ s_ld s2 (p + o_capacity) = new_cap) as (G2 & G1 & G4 & G3).
    { unfold s2. rewrite !s_ld_put. rewrite !(decide_False (P := _ = _)) by (unfold o_length, o_data, o_capacity, o_elem_size; lia).
      by rewrite decide_True. }
    rewrite G4. destruct (grow_copy s2 L p np dt k es n new_cap r) as (b & k' & s6 & E6 & Ho6 & Hb & Hk' & Hpb & Eb6 & Hf6 & Hse & HK6);
      [by apply T2|done|done|done|done|lia|lia|nia|unfold REQUEST_MAX; nia|done|done|by apply T2|].
    exists s6, (<[b := k']> (delete dt L)), b. split; [exact E6|]. split; [done|]. split; [split|split; [|split]].
    + exists np. by rewrite lookup_insert_ne, lookup_delete_ne.
    + exists k'. rewrite lookup_insert_eq. split; [done|]. rewrite <- Enc. lia.
    + done.
    + done.
    + by rewrite Hf6 by (unfold o_length; lia).
    + rewrite Hf6 by (unfold o_capacity; lia). by rewrite G3.
    + by rewrite Hf6 by (unfold o_elem_size; lia).
    + lia.
    + eapply (same_elements_trans s s2 s6 dt dt b); [|done].
      eapply (same_elements_kept _ _ (delete p L)); [apply T2|rewrite lookup_delete_ne by done; exact Hd|lia].
    + eapply kept_trans; [eapply kept_sub; [|apply T2]; apply delete_mono, delete_subseteq|done].
    + split; [split; [done|]; by exists k'|]. rewrite Hf6 by (unfold o_rank; lia). unfold s2, s1.
      by rewrite !s_ld_put, !decide_False by (unfold o_length, o_capacity, o_rank; lia).
Qed.

(** C27: [__public__extend_array] on an array of rank 1 whose doubled buffer
    has at most 131000 bytes adds one element in place while there is
    capacity, and otherwise doubles the capacity: the elements in use are
    copied to a new buffer and the old one is released.  Either way the
    array stays well formed, a growable array of rank 1, and no other block
    changes.  (Arrays of rows lose rows: [extend_array_rows].) *)
Theorem extend_array_spec s L p dt es cap n r (Ho : s_ok s L) (Hv : elements_at s L p dt es cap n) (Hr : s_room s (S r))
  (Hmax : 2 * cap * es <= REQUEST_MAX) (Hes : es <= REQUEST_MAX) :
  exists s' L' dt', __public__extend_array s p = Some s' /\ s_ok s' L' /\
    elements_at s' L' p dt' es (if n <? cap then cap else Z.max 1 (2 * cap)) (n + 1) /\ same_elements s s' dt dt' es n /\
    kept (delete p (delete dt L)) s s' /\
    (if n <? cap then L' = L /\ dt' = dt else L !! dt' = None /\ exists k, L' = <[dt' := k]> (delete dt L)).
Proof.
  destruct Hv as [Hv Hrk]. destruct (extend_ok s L p dt es cap n r Ho Hv Hr Hmax Hes) as (s' & L' & dt' & E & Ho' & Hv' & He & HK & HL & Hrk').
  exists s', L', dt'. split_and!; try done. split; [done|]. by rewrite Hrk'.
Qed.

(** On an array of rows [__public__extend_array] keeps the rows whose
    pointers lie in the first [n * elem_size] bytes of the buffer: all of
    them when the innermost elements have 8 bytes or more, and only
    [n * elem_size / 8] of them otherwise (all, in either case, when it does
    not move the buffer). *)
Theorem extend_array_rows s L p dt es cap n r i (Ho : s_ok s L) (Hv : rows_at s L p dt es cap n) (Hr : s_room s (S r))
  (Hmax : 2 * cap * es <= REQUEST_MAX) (Hes : es <= REQUEST_MAX) (Hi : 0 <= i < n) (Hk : 8 * i + 8 <= n * es) :
  exists s', __public__extend_array s p = Some s' /\ __public__len s' p = n + 1 /\
    __public__get_subarray s' p i = __public__get_subarray s p i.
Proof.
  destruct Hv as [Hv Hrk]. destruct (extend_ok s L p dt es cap n r Ho Hv Hr Hmax Hes) as (s' & L' & dt' & E & Ho' & Hv' & [_ He] & _ & _ & Hrk').
  exists s'. split; [done|]. split; [apply Hv'|]. unfold __public__get_subarray. rewrite Hrk'.
  rewrite (vec_length _ _ _ _ _ _ _ Hv'), (vec_length _ _ _ _ _ _ _ Hv), (vec_data _ _ _ _ _ _ _ Hv'), (vec_data _ _ _ _ _ _ _ Hv).
  rewrite (proj2 (Z.leb_gt _ _) Hrk). replace (i <? 0) with false by lia. replace (n + 1 <=? i) with false by lia.
  replace (n <=? i) with false by lia. cbn [orb]. destruct (p =? NULL); [done|]. cbn [orb]. apply He.
  pose proof (Z.div_le_lower_bound (n * es) 8 (i + 1)). lia.
Qed.
End thms.

(** A fresh array of rank 1 is a growable array. *)
Lemma arr_at_vec `{HeapSpec H} (s : sheap H) (L L' : gmap Z Z) (es d p : Z) : arr_at s L es [d] p -> L ⊆ L' -> 0 < d -> 0 < es ->
  exists dt, elements_at s L' p dt es d d.
Proof.
  intros (n & dt & k & Hp & Hn & Hd & Hk & Hne & Hh & Hle & _) Hs Hd0 Hes. cbn [length] in Hn. exists dt.
  split; [|apply Hh]. split; [exists n; split; [by eapply lookup_weaken|lia]|exists k; split; [by eapply lookup_weaken|lia]|done|apply Hh..|lia].
Qed.

(** ** Growing an array of rows *)

(** A 2 x 3 array of 4-byte elements is extended: is its first row still the
    same, is the second, and what does reading the second return? *)
Definition extend_rows_run : option (bool * bool * Z) :=
  h ← arena_create ∅ [];
  '(p, s) ← __public__alloc_array (SHeap h ∅) 4 2 [2; 3];
  s' ← __public__extend_array s p;
  let row s i := __public__get_subarray s p i in
  Some (row s' 0 =? row s 0, row s' 1 =? row s 1, row s' 1).

(** [__public__extend_array] sizes and copies the data block by
    [elem_size], which for an array of rank above 1 is the size of the
    innermost elements and not of the row pointers: growing a 2 x 3 array of
    4-byte elements copies the first row pointer only, and the second row
    becomes what the recycled block held, the dimension 3. *)
Theorem extend_array_loses_rows : extend_rows_run = Some (true, false, 3).
Proof. vm_compute. reflexivity. Qed.

(** ** Instances on the arena allocator *)
Lemma alloc_array_spec_witness : exists (s s' : sheap astate) p L, __public__alloc_array s 4 2 [2; 3] = Some (p, s') /\
  arr_at s' L 4 [2; 3] p.
Proof.
  destruct bump_heap as (h & L & q & j & Ho & Hr & _).
  destruct (alloc_array_spec (SHeap h ∅) L 4 [2; 3] 8 Ho) as (p & s' & L' & E & _ & _ & Hp & _); [done|cbn; unfold REQUEST_MAX; lia|exact Hr|].
  exists (SHeap h ∅), s', p, (L' ∖ L). by split.
Defined.

Lemma set_get_subarray_witness : exists (s : sheap astate) p,
  __public__get_subarray (__public__set_subarray s p 1 77) p 1 = 77 /\ __public__get_subarray s p 2 = NULL.
Proof.
  destruct bump_heap as (h & L & q & j & Ho & Hr & _).
  destruct (alloc_array_ok (SHeap h ∅) L 4 [2; 3] 8 Ho) as (p & s' & L' & _ & Ho' & Hs' & Hp & _); [done|cbn; unfold REQUEST_MAX; lia|exact Hr|].
  assert (arr_at s' L' 4 [2; 3] p) as Hp'.
  { eapply arr_at_keep; [apply kept_refl| |exact Hp]. apply map_subseteq_difference_l. done. }
  destruct (set_get_subarray s' L' 4 2 3 [] p 1 0 77 Ho' Hp') as ((E & _) & _).
  destruct (set_get_subarray s' L' 4 2 3 [] p 2 0 77 Ho' Hp') as ((_ & E') & _).
  exists s', p. split; [exact E|exact E'].
Defined.

Lemma extend_array_spec_witness : exists (s s' : sheap astate) p L dt, __public__extend_array s p = Some s' /\ elements_at s' L p dt 8 6 4.
Proof.
  destruct bump_heap as (h & L & q & j & Ho & Hr & _).
  destruct (alloc_array_ok (SHeap h ∅) L 8 [3] 12 Ho) as (p & s' & L' & _ & Ho' & _ & Hp & _ & Hr'); [done|cbn; unfold REQUEST_MAX; lia|exact Hr|].
  destruct (arr_at_vec s' (L' ∖ L) L' 8 3 p Hp) as (dt & Hv); [by apply map_subseteq_difference_l|lia|lia|].
  destruct (extend_array_spec s' L' p dt 8 3 3 11 Ho' Hv Hr') as (s2 & L2 & dt2 & E & _ & Hv2 & _); [unfold REQUEST_MAX; lia..|].
  exists s', s2, p, L2, dt2. split; [exact E|exact Hv2].
Defined.
