(* ===== verification/Crypto.v ===== *)
(** * Crypto: the hash of a byte buffer (src/runtime/src/crypto.c) *)

From S2P Require Import Prelude Bytes.

(** The constants as they are in the code. *)
Definition FNV_OFFSET : Z := 1469598103934665603.
Definition FNV_PRIME : Z := 1099511628211.

(** The loop over [bytes[i ..]]; [n] bytes are left. *)
Fixpoint hash_loop (n : nat) (b : bytes) (a h : Z) : Z :=
  match n with
  | O => h
  | S n => hash_loop n b (a + 1) (uwrap 64 (Z.lxor h (rd b a) * FNV_PRIME))
  end.

Definition hash (b : bytes) (data len : Z) : Z := hash_loop (Z.to_nat len) b data FNV_OFFSET.

(** ** The step is invertible *)

(** The inverse of the prime modulo 2^64. *)
Definition FNV_INVERSE : Z := 14886173955864302971.

Lemma prime_inverse : uwrap 64 (FNV_PRIME * FNV_INVERSE) = 1.
Proof. vm_compute. reflexivity. Qed.

Lemma mul_prime_inj (x y : Z) : in_uint 64 x -> in_uint 64 y -> uwrap 64 (x * FNV_PRIME) = uwrap 64 (y * FNV_PRIME) -> x = y.
Proof.
  intros Hx Hy E. assert (Hinv : forall z, in_uint 64 z -> uwrap 64 (uwrap 64 (z * FNV_PRIME) * FNV_INVERSE) = z).
  { intros z Hz. unfold uwrap. rewrite Z.mul_mod_idemp_l, <- Z.mul_assoc, <- Z.mul_mod_idemp_r by lia.
    change ((FNV_PRIME * FNV_INVERSE) mod 2 ^ 64) with (uwrap 64 (FNV_PRIME * FNV_INVERSE)). rewrite prime_inverse, Z.mul_1_r. by apply uwrap_small. }
  rewrite <- (Hinv x Hx), <- (Hinv y Hy). by rewrite E.
Qed.

Lemma lxor_range (x c : Z) : in_uint 64 x -> in_uint 8 c -> in_uint 64 (Z.lxor x c).
Proof.
  intros [Hx1 Hx2] [Hc1 Hc2]. split; [by apply Z.lxor_nonneg|].
  destruct (Z.eq_dec (Z.lxor x c) 0) as [->|Hne]; [lia|]. apply Z.log2_lt_pow2; [pose proof (proj2 (Z.lxor_nonneg x c)); lia|].
  eapply Z.le_lt_trans; [by apply Z.log2_lxor|]. apply Z.max_lub_lt.
  - destruct (Z.eq_dec x 0) as [->|?]; [done|]. apply Z.log2_lt_pow2; lia.
  - destruct (Z.eq_dec c 0) as [->|?]; [done|]. apply Z.log2_lt_pow2; lia.
Qed.

Lemma lxor_inj_r (x c c' : Z) : Z.lxor x c = Z.lxor x c' -> c = c'.
Proof. intros E. rewrite <- (Z.lxor_0_l c), <- (Z.lxor_0_l c'), <- (Z.lxor_nilpotent x), !Z.lxor_assoc. by rewrite E. Qed.

Definition byte_store (b : bytes) : Prop := forall x, in_uint 8 (rd b x).

Lemma hash_loop_inj (n : nat) (b b' : bytes) : byte_store b -> byte_store b' -> forall a h h', in_uint 64 h -> in_uint 64 h' ->
  (forall x, a <= x < a + Z.of_nat n -> rd b' x = rd b x) -> hash_loop n b a h = hash_loop n b' a h' -> h = h'.
Proof.
  intros Hb Hb'. induction n as [|n IH]; intros a h h' Hh Hh' Heq E; [done|]. cbn [hash_loop] in E. rewrite (Heq a) in E by lia.
  apply IH in E; [|by apply uwrap_range..|intros x Hx; apply Heq; lia].
  apply mul_prime_inj in E; [|by apply lxor_range..]. rewrite !(Z.lxor_comm _ (rd b a)) in E. by apply lxor_inj_r in E.
Qed.

Lemma hash_loop_split (n k : nat) (b : bytes) : forall a h, hash_loop (n + k) b a h = hash_loop k b (a + Z.of_nat n) (hash_loop n b a h).
Proof.
  induction n as [|n IH]; intros a h; cbn [Nat.add hash_loop]; [by rewrite Z.add_0_r|]. rewrite IH. f_equal. lia.
Qed.

Lemma hash_loop_range (n : nat) (b : bytes) : forall a h, in_uint 64 h -> in_uint 64 (hash_loop n b a h).
Proof. induction n as [|n IH]; intros a h Hh; [done|]. cbn [hash_loop]. apply IH. by apply uwrap_range. Qed.

(** Two buffers of the same length that differ in exactly one byte
    never have the same hash: each step multiplies by an odd prime modulo
    2^64, which loses nothing. *)
Theorem hash_detects_one_byte (b : bytes) (data len i c : Z) (Hb : byte_store b) (Hi : 0 <= i < len) (Hc : in_uint 8 c)
  (Hne : c <> rd b (data + i)) : hash (<[data + i := c]> b) data len <> hash b data len.
Proof.
  intros E. assert (Hout : forall x, x <> data + i -> rd (<[data + i := c]> b) x = rd b x) by (intros x Hx; unfold rd; by rewrite lookup_insert_ne).
  assert (byte_store (<[data + i := c]> b)) as Hb'.
  { intros x. destruct (decide (x = data + i)) as [->|Hx]; [unfold rd; by rewrite lookup_insert_eq|by rewrite Hout]. }
  unfold hash in E. replace (Z.to_nat len) with (Z.to_nat i + (1 + Z.to_nat (len - i - 1)))%nat in E by lia.
  rewrite !hash_loop_split in E. rewrite Z2Nat.id in E by lia. set (h' := hash_loop (Z.to_nat i) (<[_ := _]> _) _ _) in E.
  assert (h' = hash_loop (Z.to_nat i) b data FNV_OFFSET) as Eh.
  { unfold h'. assert (Hgen : forall n a h, a + Z.of_nat n <= data + i -> hash_loop n (<[data + i := c]> b) a h = hash_loop n b a h); [|apply Hgen; lia].
    induction n as [|n IH]; intros a h Ha; [done|]. cbn [hash_loop]. rewrite Hout by lia. apply IH. lia. }
  rewrite Eh in E. clear Eh h'. set (h := hash_loop _ b data _) in E.
  assert (in_uint 64 h) as Hh by (by apply hash_loop_range).
  symmetry in E. apply hash_loop_inj in E; [|done|done| | |intros x Hx; apply Hout; lia].
  - cbn [hash_loop] in E. apply mul_prime_inj in E; [|by apply lxor_range..].
    apply lxor_inj_r in E. unfold rd in E at 2. rewrite lookup_insert_eq in E. by apply Hne.
  - cbn [hash_loop]. by apply uwrap_range.
  - cbn [hash_loop]. by apply uwrap_range.
Qed.

Lemma hash_detects_one_byte_witness : hash (<[66 := 7]> ∅) 64 4 <> hash ∅ 64 4.
Proof.
  apply (hash_detects_one_byte ∅ 64 4 2 7); [intros x; done|lia|done|vm_compute; discriminate].
Defined.
