(* ===== verification/Pool.v ===== *)
(** * Pool: the scheduler threads and the life of a task

    The run loop of src/runtime/src/scheduler.c ([scheduler_run],
    [task_resume], [task_yield], the preemption branch of [self_yield]) with
    [thread] of src/runtime/src/initutils.c, as interleaved steps of [n]
    scheduler threads and the main thread.  A ready queue is the list of its entries, first
    entry first; [None] is the NULL that tells a scheduler thread to exit. *)

From S2P Require Import Prelude Threads.

(** A task is created; counted in [task_count]; has set [TASK_FINISHED]; and
    is taken off the count. *)
Inductive phase := Created | Spawned | Finished | Reaped.

#[export] Instance phase_eq_dec : EqDecision phase.
Proof. solve_decision. Defined.

(** The scheduler thread a task belongs to, and whether it waits in the
    queue of a lock or for an I/O operation. *)
Record task := Task { sched_id : nat; t_phase : phase; waiting : bool }.

(** A scheduler thread: at [safe_q_pop_wait]; running task [t]; [t] in
    [thread], after [task_create] and after the increment of [task_count];
    [t] about to switch back; back from [task_resume]; after the decrement,
    with the number of tasks that remain; after the first delay; pushing
    NULL on the queue [k]; returned. *)
Inductive spc := PIdle | PRun (t : nat) | PCreated (t c : nat) | PCounted (t c : nat) | PYield (t : nat)
  | PBack (t : nat) | PRemaining (r : Z) | PDelay | PExit (k : nat) | PGone.

#[export] Instance spc_eq_dec : EqDecision spc.
Proof. solve_decision. Defined.

(** The main thread: before, inside and after the call of [thread] for the
    first task. *)
Inductive mpc := MStart | MCreated (c : nat) | MCounted (c : nat) | MJoin.

#[export] Instance mpc_eq_dec : EqDecision mpc.
Proof. solve_decision. Defined.

Record pool := Pool {
  task_count : Z; main : mpc; threads : list spc; ready_qs : list (list (option nat)); tasks : list task
}.

(** [init_scheduler] with [n] threads. *)
Definition init_scheduler (n : nat) : pool := Pool 0 MStart (replicate n PIdle) (replicate n []) [].

Definition set_main (w : pool) (m : mpc) : pool := Pool (task_count w) m (threads w) (ready_qs w) (tasks w).
Definition set_thread (w : pool) (i : nat) (p : spc) : pool :=
  Pool (task_count w) (main w) (<[i := p]> (threads w)) (ready_qs w) (tasks w).
Definition set_task (w : pool) (t : nat) (tk : task) : pool :=
  Pool (task_count w) (main w) (threads w) (ready_qs w) (<[t := tk]> (tasks w)).
Definition add_count (w : pool) (d : Z) : pool := Pool (task_count w + d) (main w) (threads w) (ready_qs w) (tasks w).

(** [safe_q_push(&kernel_thread_map[j]->ready_q, e)]. *)
Definition push (w : pool) (j : nat) (e : option nat) : pool :=
  Pool (task_count w) (main w) (threads w) (alter (fun q => q ++ [e]) j (ready_qs w)) (tasks w).

Definition with_phase (tk : task) (p : phase) : task := Task (sched_id tk) p (waiting tk).
Definition with_waiting (tk : task) (b : bool) : task := Task (sched_id tk) (t_phase tk) b.

(** *** [thread]: its three effects, for scheduler thread [kid]. *)
Definition thread_create (w : pool) (kid : nat) : option (nat * pool) :=
  if decide (kid < length (threads w))%nat
  then Some (length (tasks w), Pool (task_count w) (main w) (threads w) (ready_qs w) (tasks w ++ [Task kid Created false]))
  else None.
Definition thread_count (w : pool) (c : nat) : option pool :=
  tk ← tasks w !! c; Some (add_count (set_task w c (with_phase tk Spawned)) 1).
Definition thread_push (w : pool) (c : nat) : option pool := tk ← tasks w !! c; Some (push w (sched_id tk) (Some c)).

Definition main_step (w : pool) (kid : nat) : option pool :=
  match main w with
  | MStart => '(c, w) ← thread_create w kid; Some (set_main w (MCreated c))
  | MCreated c => w ← thread_count w c; Some (set_main w (MCounted c))
  | MCounted c => w ← thread_push w c; Some (set_main w MJoin)
  | MJoin => None
  end.

(** *** [scheduler_run], where it does not depend on the running task.

    The pop and what follows [task_resume].  The counting for the collector
    under [add_lock] is in World.v, [unsafe_ioq_remove] and [task_destroy],
    which change the memory and not the pool, in Dispatch.v. *)
Definition scheduler_run (w : pool) (i : nat) (p : spc) : option pool :=
  match p with
  | PIdle =>
      q ← ready_qs w !! i;
      match q with
      | [] => None
      | e :: q =>
          let w := Pool (task_count w) (main w) (threads w) (<[i := q]> (ready_qs w)) (tasks w) in
          Some (set_thread w i (match e with None => PGone | Some t => PRun t end))
      end
  | PRun _ => None
  | PCreated t c => w ← thread_count w c; Some (set_thread w i (PCounted t c))
  | PCounted t c => w ← thread_push w c; Some (set_thread w i (PRun t))
  | PYield t => Some (set_thread w i (PBack t))
  | PBack t =>
      tk ← tasks w !! t;
      if decide (t_phase tk = Finished)
      then Some (set_thread (add_count (set_task w t (with_phase tk Reaped)) (-1)) i (PRemaining (task_count w - 1)))
      else Some (set_thread w i PIdle)
  | PRemaining r => Some (set_thread w i (if r =? 0 then PDelay else PIdle))
  | PDelay => Some (set_thread w i (if task_count w =? 0 then PExit 0 else PIdle))
  | PExit k =>
      if decide (k < length (threads w))%nat then Some (set_thread (push w k None) i (PExit (S k)))
      else Some (set_thread w i PGone)
  | PGone => None
  end.

(** What a running task can do: return from its function ([task_trampoline]),
    call [thread], yield in [self_yield] because its preemption flag is set,
    wait for a lock or an I/O operation and yield; and what makes a waiting
    task ready: the push by the task that unlocks, or by an I/O thread. *)
Inductive paction := MainStep (kid : nat) | SchedStep (i : nat) | Return (i : nat) | Spawn (i kid : nat) | Preempt (i : nat)
  | Wait (i : nat) | Wake (t : nat).

Definition pact (w : pool) (a : paction) : option pool :=
  match a with
  | MainStep kid => main_step w kid
  | SchedStep i => p ← threads w !! i; scheduler_run w i p
  | Return i =>
      p ← threads w !! i;
      match p with
      | PRun t => tk ← tasks w !! t; Some (set_thread (set_task w t (with_phase tk Finished)) i (PBack t))
      | _ => None
      end
  | Spawn i kid =>
      p ← threads w !! i;
      match p with PRun t => '(c, w) ← thread_create w kid; Some (set_thread w i (PCreated t c)) | _ => None end
  | Preempt i =>
      p ← threads w !! i;
      match p with PRun t => tk ← tasks w !! t; Some (set_thread (push w (sched_id tk) (Some t)) i (PYield t)) | _ => None end
  | Wait i =>
      p ← threads w !! i;
      match p with
      | PRun t => tk ← tasks w !! t; Some (set_thread (set_task w t (with_waiting tk true)) i (PYield t))
      | _ => None
      end
  | Wake t =>
      tk ← tasks w !! t;
      if waiting tk then Some (push (set_task w t (with_waiting tk false)) (sched_id tk) (Some t)) else None
  end.

Fixpoint pacts (w : pool) (l : list paction) : option pool :=
  match l with [] => Some w | a :: l => w ← pact w a; pacts w l end.

Definition pstep (w w' : pool) : Prop := exists a, pact w a = Some w'.
