(* ===== verification/PoolInv.v ===== *)
(** * PoolInv: the invariant of the scheduler pool

    A spawned task is in exactly one place: an entry of one ready queue,
    running on one thread, waiting, or in the hands of the thread that just
    created it. *)

From S2P Require Import Prelude Threads Tokens Pool.

(** ** Counting places *)
Definition e_tok (t : nat) (e : option nat) : Z := match e with Some t' => is_t t t' | None => 0 end.
Definition q_tok (t : nat) (q : list (option nat)) : Z := sum_of (e_tok t) q.
Definition p_tok (t : nat) (p : spc) : Z :=
  match p with
  | PRun t' | PCreated t' _ => is_t t t'
  | PCounted t' c => is_t t t' + is_t t c
  | _ => 0
  end.
Definition m_tok (t : nat) (m : mpc) : Z := match m with MCounted c => is_t t c | _ => 0 end.
Definition w_tok (o : option task) : Z := match o with Some tk => b2z (waiting tk) | None => 0 end.
Definition tok (w : pool) (t : nat) : Z :=
  sum_of (q_tok t) (ready_qs w) + sum_of (p_tok t) (threads w) + m_tok t (main w) + w_tok (tasks w !! t).

(** The creators of a task that is not counted yet. *)
Definition p_new (t : nat) (p : spc) : Z := match p with PCreated _ c => is_t t c | _ => 0 end.
Definition m_new (t : nat) (m : mpc) : Z := match m with MCreated c => is_t t c | _ => 0 end.

Definition in_phase (ph : phase) (o : option task) : Z :=
  match o with Some tk => if decide (t_phase tk = ph) then 1 else 0 | None => 0 end.
Definition live_tok (tk : task) : Z := match t_phase tk with Spawned | Finished => 1 | _ => 0 end.

(** The tasks a thread's program point names as its own. *)
Definition own (p : spc) : option nat :=
  match p with PRun t | PCreated t _ | PCounted t _ | PYield t | PBack t => Some t | _ => None end.

Definition exiting (p : spc) : bool := match p with PExit _ | PGone => true | _ => false end.

(** Thread [j] has got its NULL or is gone. *)
Definition told (w : pool) (j : nat) : Prop :=
  threads w !! j = Some PGone \/ exists q, ready_qs w !! j = Some q /\ None ∈ q.

Record pool_inv (w : pool) : Prop := {
  PI_len : length (ready_qs w) = length (threads w);
  PI_tok : forall t, tok w t = in_phase Spawned (tasks w !! t);
  PI_new : forall t, sum_of (p_new t) (threads w) + m_new t (main w) = in_phase Created (tasks w !! t);
  PI_count : task_count w = sum_of live_tok (tasks w);
  PI_own : forall i p t, threads w !! i = Some p -> own p = Some t -> exists tk, tasks w !! t = Some tk /\ sched_id tk = i /\
    (t_phase tk = Spawned \/ t_phase tk = Finished /\ p = PBack t);
  PI_queue : forall j q t, ready_qs w !! j = Some q -> Some t ∈ q -> exists tk, tasks w !! t = Some tk /\ sched_id tk = j;
  PI_sched : forall t tk, tasks w !! t = Some tk -> (sched_id tk < length (threads w))%nat;
  PI_done : forall t tk, tasks w !! t = Some tk -> t_phase tk = Finished -> exists i, threads w !! i = Some (PBack t);
  PI_main : main w <> MJoin -> (forall i p, threads w !! i = Some p -> p = PIdle) /\ (forall j q, ready_qs w !! j = Some q -> q = []) /\
    match main w with
    | MCreated c => c = 0%nat /\ exists k, tasks w = [Task k Created false]
    | MCounted c => c = 0%nat /\ exists k, tasks w = [Task k Spawned false]
    | _ => tasks w = []
    end;
  PI_end : (exists j q, ready_qs w !! j = Some q /\ None ∈ q) \/ (exists i p, threads w !! i = Some p /\ exiting p = true) -> task_count w = 0;
  PI_exit : forall i k, threads w !! i = Some (PExit k) -> forall j, (j < k)%nat -> (j < length (threads w))%nat -> told w j;
  PI_last : main w = MJoin -> task_count w = 0 ->
    (exists i p, threads w !! i = Some p /\ (p = PRemaining 0 \/ p = PDelay \/ exists k, p = PExit k)) \/
    forall j, (j < length (threads w))%nat -> told w j
}.

(** ** The steps, with the states they lead to *)
Inductive pmove (w : pool) : pool -> Prop :=
| mv_first kid : main w = MStart -> (kid < length (threads w))%nat ->
    pmove w (Pool (task_count w) (MCreated (length (tasks w))) (threads w) (ready_qs w) (tasks w ++ [Task kid Created false]))
| mv_first_count c tk : main w = MCreated c -> tasks w !! c = Some tk ->
    pmove w (Pool (task_count w + 1) (MCounted c) (threads w) (ready_qs w) (<[c := with_phase tk Spawned]> (tasks w)))
| mv_first_push c tk q : main w = MCounted c -> tasks w !! c = Some tk -> ready_qs w !! sched_id tk = Some q ->
    pmove w (Pool (task_count w) MJoin (threads w) (<[sched_id tk := q ++ [Some c]]> (ready_qs w)) (tasks w))
| mv_pop i e q : threads w !! i = Some PIdle -> ready_qs w !! i = Some (e :: q) ->
    pmove w (Pool (task_count w) (main w) (<[i := match e with None => PGone | Some t => PRun t end]> (threads w)) (<[i := q]> (ready_qs w)) (tasks w))
| mv_count i t c tk : threads w !! i = Some (PCreated t c) -> tasks w !! c = Some tk ->
    pmove w (Pool (task_count w + 1) (main w) (<[i := PCounted t c]> (threads w)) (ready_qs w) (<[c := with_phase tk Spawned]> (tasks w)))
| mv_push i t c tk q : threads w !! i = Some (PCounted t c) -> tasks w !! c = Some tk -> ready_qs w !! sched_id tk = Some q ->
    pmove w (Pool (task_count w) (main w) (<[i := PRun t]> (threads w)) (<[sched_id tk := q ++ [Some c]]> (ready_qs w)) (tasks w))
| mv_switch i t : threads w !! i = Some (PYield t) ->
    pmove w (Pool (task_count w) (main w) (<[i := PBack t]> (threads w)) (ready_qs w) (tasks w))
| mv_reap i t tk : threads w !! i = Some (PBack t) -> tasks w !! t = Some tk -> t_phase tk = Finished ->
    pmove w (Pool (task_count w - 1) (main w) (<[i := PRemaining (task_count w - 1)]> (threads w)) (ready_qs w) (<[t := with_phase tk Reaped]> (tasks w)))
| mv_back i t tk : threads w !! i = Some (PBack t) -> tasks w !! t = Some tk -> t_phase tk <> Finished ->
    pmove w (Pool (task_count w) (main w) (<[i := PIdle]> (threads w)) (ready_qs w) (tasks w))
| mv_remaining i r : threads w !! i = Some (PRemaining r) ->
    pmove w (Pool (task_count w) (main w) (<[i := if r =? 0 then PDelay else PIdle]> (threads w)) (ready_qs w) (tasks w))
| mv_delay i : threads w !! i = Some PDelay ->
    pmove w (Pool (task_count w) (main w) (<[i := if task_count w =? 0 then PExit 0 else PIdle]> (threads w)) (ready_qs w) (tasks w))
| mv_tell i k q : threads w !! i = Some (PExit k) -> ready_qs w !! k = Some q ->
    pmove w (Pool (task_count w) (main w) (<[i := PExit (S k)]> (threads w)) (<[k := q ++ [None]]> (ready_qs w)) (tasks w))
| mv_gone i k : threads w !! i = Some (PExit k) -> (length (threads w) <= k)%nat ->
    pmove w (Pool (task_count w) (main w) (<[i := PGone]> (threads w)) (ready_qs w) (tasks w))
| mv_return i t tk : threads w !! i = Some (PRun t) -> tasks w !! t = Some tk ->
    pmove w (Pool (task_count w) (main w) (<[i := PBack t]> (threads w)) (ready_qs w) (<[t := with_phase tk Finished]> (tasks w)))
| mv_spawn i t kid : threads w !! i = Some (PRun t) -> (kid < length (threads w))%nat ->
    pmove w (Pool (task_count w) (main w) (<[i := PCreated t (length (tasks w))]> (threads w)) (ready_qs w) (tasks w ++ [Task kid Created false]))
| mv_preempt i t tk q : threads w !! i = Some (PRun t) -> tasks w !! t = Some tk -> ready_qs w !! sched_id tk = Some q ->
    pmove w (Pool (task_count w) (main w) (<[i := PYield t]> (threads w)) (<[sched_id tk := q ++ [Some t]]> (ready_qs w)) (tasks w))
| mv_wait i t tk : threads w !! i = Some (PRun t) -> tasks w !! t = Some tk ->
    pmove w (Pool (task_count w) (main w) (<[i := PYield t]> (threads w)) (ready_qs w) (<[t := with_waiting tk true]> (tasks w)))
| mv_wake t tk q : tasks w !! t = Some tk -> waiting tk = true -> ready_qs w !! sched_id tk = Some q ->
    pmove w (Pool (task_count w) (main w) (threads w) (<[sched_id tk := q ++ [Some t]]> (ready_qs w)) (<[t := with_waiting tk false]> (tasks w))).

Lemma queue_at (w : pool) (t : nat) (tk : task) : pool_inv w -> tasks w !! t = Some tk -> exists q, ready_qs w !! sched_id tk = Some q.
Proof. intros I Ht. apply lookup_lt_is_Some_2. rewrite (PI_len _ I). by eapply (PI_sched _ I). Qed.

Lemma alter_queue (qs : list (list (option nat))) (j : nat) (q : list (option nat)) (e : option nat) : qs !! j = Some q ->
  alter (fun q => q ++ [e]) j qs = <[j := q ++ [e]]> qs.
Proof. intros Hq. apply list_eq. intros k. destruct (decide (k = j)) as [->|Hne].
  - rewrite list_lookup_alter_eq, Hq, list_lookup_insert_eq by (by eapply lookup_lt_Some). done.
  - by rewrite list_lookup_alter_ne, list_lookup_insert_ne.
Qed.

Lemma pact_move (w w' : pool) (a : paction) : pool_inv w -> pact w a = Some w' -> pmove w w'.
Proof.
  intros I E. destruct a as [kid|i|i|i kid|i|i|t]; cbn [pact] in E;
    unfold main_step, thread_create, thread_count, thread_push, add_count, set_main, set_thread, set_task, push in E;
    cbn [task_count main threads ready_qs tasks] in E.
  - destruct (main w) as [|c|c|] eqn:Em; [..|done]; simplify_option_eq.
    + by apply mv_first.
    + by eapply mv_first_count.
    + edestruct queue_at as [q Hq]; [done|done|]. rewrite (alter_queue _ _ _ _ Hq). by eapply mv_first_push.
  - destruct (threads w !! i) as [p|] eqn:Hi; [|done]. cbn [mbind option_bind] in E.
    destruct p as [|t|t c|t c|t|t|r| |k|]; cbn [scheduler_run] in E;
      unfold thread_count, thread_push, add_count, set_thread, set_task, push in E; cbn [task_count main threads ready_qs tasks] in E; simplify_option_eq.
    + destruct H as [|e q]; [done|]. injection E as <-. by apply mv_pop.
    + by eapply mv_count.
    + edestruct queue_at as [q Hq]; [done|done|]. rewrite (alter_queue _ _ _ _ Hq). by eapply mv_push.
    + by apply mv_switch.
    + by eapply mv_reap.
    + by eapply mv_back.
    + by apply mv_remaining.
    + by apply mv_delay.
    + destruct (lookup_lt_is_Some_2 (ready_qs w) k) as [q Hq]; [by rewrite (PI_len _ I)|].
      rewrite (alter_queue _ _ _ _ Hq). by eapply mv_tell.
    + eapply mv_gone; [done|lia].
  - destruct (threads w !! i) as [p|] eqn:Hi; [|done]. cbn [mbind option_bind] in E. destruct p; try done; simplify_option_eq. by eapply mv_return.
  - destruct (threads w !! i) as [p|] eqn:Hi; [|done]. cbn [mbind option_bind] in E. destruct p; try done; simplify_option_eq. by eapply mv_spawn.
  - destruct (threads w !! i) as [p|] eqn:Hi; [|done]. cbn [mbind option_bind] in E. destruct p; try done; simplify_option_eq. edestruct queue_at as [q Hq]; [done|done|].
    rewrite (alter_queue _ _ _ _ Hq). by eapply mv_preempt.
  - destruct (threads w !! i) as [p|] eqn:Hi; [|done]. cbn [mbind option_bind] in E. destruct p; try done; simplify_option_eq. by eapply mv_wait.
  - destruct (tasks w !! t) as [tk|] eqn:Ht; [|done]. cbn [mbind option_bind] in E. destruct (waiting tk) eqn:Hw; [|done]. injection E as <-.
    edestruct queue_at as [q Hq]; [done|done|]. rewrite (alter_queue _ _ _ _ Hq). by eapply mv_wake.
Qed.

(** ** Preservation *)
Lemma q_tok_nonneg (t : nat) (q : list (option nat)) : 0 <= q_tok t q.
Proof. apply sum_of_nonneg. intros [t'|]; cbn; [|done]. unfold is_t. by case_decide. Qed.
Lemma p_tok_nonneg (t : nat) (p : spc) : 0 <= p_tok t p.
Proof. destruct p; cbn; unfold is_t; repeat case_decide; lia. Qed.
Lemma p_new_nonneg (t : nat) (p : spc) : 0 <= p_new t p.
Proof. destruct p; cbn; unfold is_t; repeat case_decide; lia. Qed.
Lemma m_tok_nonneg (t : nat) (m : mpc) : 0 <= m_tok t m.
Proof. destruct m; cbn; unfold is_t; repeat case_decide; lia. Qed.
Lemma w_tok_nonneg (o : option task) : 0 <= w_tok o.
Proof. destruct o as [[? ? []]|]; cbn; lia. Qed.

Lemma e_tok_nonneg (t : nat) (e : option nat) : 0 <= e_tok t e.
Proof. destruct e as [t'|]; cbn; [unfold is_t; by case_decide|done]. Qed.

Lemma queue_tok_pos (w : pool) (t j : nat) (q : list (option nat)) : ready_qs w !! j = Some q -> Some t ∈ q -> 1 <= sum_of (q_tok t) (ready_qs w).
Proof.
  intros Hq Hin. pose proof (sum_of_ge (q_tok t) _ _ _ (q_tok_nonneg t) Hq). apply list_elem_of_lookup in Hin as [k Hk].
  pose proof (sum_of_ge (e_tok t) _ _ _ (e_tok_nonneg t) Hk) as Hg. cbn [e_tok] in Hg. unfold is_t in Hg. rewrite decide_True in Hg by done.
  unfold q_tok in *. lia.
Qed.

Section inv.
Context (w : pool) (I : pool_inv w).

Lemma running_phase i p t tk : threads w !! i = Some p -> own p = Some t -> p <> PBack t -> tasks w !! t = Some tk ->
  t_phase tk = Spawned /\ sched_id tk = i.
Proof using I. intros Hi Hp Hne Ht. destruct (PI_own _ I i p t Hi Hp) as (tk' & Ht' & Hs & Hph). simplify_eq. by destruct Hph as [?|[_ ?]]. Qed.

Lemma running_not_waiting i t tk : threads w !! i = Some (PRun t) -> tasks w !! t = Some tk -> waiting tk = false.
Proof using I.
  intros Hi Ht. destruct (running_phase i _ t tk Hi eq_refl ltac:(done) Ht) as [Hph _].
  pose proof (PI_tok _ I t) as IT. unfold tok in IT. rewrite Ht in IT. cbn [in_phase w_tok] in IT. rewrite decide_True in IT by done.
  pose proof (sum_of_ge (p_tok t) _ _ _ (p_tok_nonneg t) Hi) as Hg. cbn [p_tok] in Hg. unfold is_t in Hg. rewrite decide_True in Hg by done.
  pose proof (sum_of_nonneg (q_tok t) (ready_qs w) (q_tok_nonneg t)). pose proof (m_tok_nonneg t (main w)).
  destruct (waiting tk); [|done]. unfold b2z in IT. lia.
Qed.

Lemma new_phase c tk : tasks w !! c = Some tk -> (main w = MCreated c \/ exists i t, threads w !! i = Some (PCreated t c)) -> t_phase tk = Created.
Proof using I.
  intros Hc Hn. pose proof (PI_new _ I c) as IN. rewrite Hc in IN. cbn [in_phase] in IN. case_decide as E; [done|].
  pose proof (sum_of_nonneg (p_new c) (threads w) (p_new_nonneg c)).
  assert (0 <= m_new c (main w)) by (destruct (main w); cbn; unfold is_t; repeat case_decide; lia).
  destruct Hn as [Hm|(i & t & Hi)].
  - rewrite Hm in IN. cbn [m_new] in IN. unfold is_t in IN. rewrite decide_True in IN by done. lia.
  - pose proof (sum_of_ge (p_new c) _ _ _ (p_new_nonneg c) Hi) as Hg. cbn [p_new] in Hg. unfold is_t in Hg. rewrite decide_True in Hg by done. lia.
Qed.

(** Rewrite the sums and look-ups of an updated state. *)
Ltac upd :=
  cbn [task_count main threads ready_qs tasks] in *;
  repeat match goal with
    | H : ?l !! ?i = Some _ |- context [sum_of ?f (<[?i := _]> ?l)] => rewrite (sum_of_insert f l i _ _ H)
    | H : ?l !! ?c = Some _ |- context [<[?c := _]> ?l !! ?t] => rewrite (lookup_set l c t _ _ H)
    | |- context [(?l ++ [?x]) !! ?t] => rewrite (lookup_new l t x)
  end;
  unfold q_tok in *; rewrite ?sum_of_app, ?sum_of_one, ?sum_of_cons;
  cbn [e_tok p_tok m_tok p_new m_new w_tok in_phase with_phase with_waiting sched_id t_phase waiting live_tok] in *.

(** The phase and the wait flag of the task that moves. *)
Ltac facts :=
  repeat match goal with
    | Hi : threads w !! _ = Some (PRun ?t), Ht : tasks w !! ?t = Some ?tk |- _ =>
        lazymatch goal with _ : waiting tk = false |- _ => fail
          | _ => pose proof (running_not_waiting _ _ _ Hi Ht); destruct (running_phase _ _ _ _ Hi eq_refl ltac:(done) Ht) end
    | Hi : threads w !! ?i = Some (PCreated ?t ?c), Hc : tasks w !! ?c = Some ?tk |- _ =>
        lazymatch goal with _ : t_phase tk = Created |- _ => fail
          | _ => pose proof (new_phase c tk Hc (or_intror (ex_intro _ i (ex_intro _ t Hi)))) end
    | Hm : main w = MCreated ?c, Hc : tasks w !! ?c = Some ?tk |- _ =>
        lazymatch goal with _ : t_phase tk = Created |- _ => fail | _ => pose proof (new_phase c tk Hc (or_introl Hm)) end
  end.

(** Split on the tasks that coincide. *)
Ltac cases :=
  unfold is_t in *; repeat case_decide; subst; try congruence;
  repeat match goal with
    | H : tasks w !! ?t = Some _, K : context [tasks w !! ?t] |- _ => lazymatch K with H => fail | _ => rewrite H in K end
    | H : tasks w !! ?t = Some _ |- context [tasks w !! ?t] => rewrite H
    | H : main w = _, K : context [main w] |- _ => lazymatch K with H => fail | _ => rewrite H in K end
    | H : ?x = _, K : context [b2z ?x] |- _ => rewrite H in K
    | H : ?x = _ |- context [b2z ?x] => rewrite H
  end;
  cbn [e_tok p_tok p_new in_phase w_tok with_phase with_waiting t_phase waiting b2z m_tok m_new] in *; unfold is_t in *; repeat case_decide; subst; try congruence; try lia.

Lemma move_tok w' : pmove w w' -> forall t, tok w' t = in_phase Spawned (tasks w' !! t).
Proof using I.
  intros M t0. pose proof (PI_tok _ I t0) as IT. destruct M; facts; unfold tok in *; upd;
    try match goal with |- context [decide (?t = length (tasks w))] => destruct (decide (t = length (tasks w))) as [->|];
          [rewrite (lookup_ge_None_2 (tasks w)) in IT by lia|] end.
  all: try (match goal with e : option nat |- _ => destruct e end); try (match goal with |- context [if ?b then _ else _] => destruct b end).
  all: do 2 cases.
Qed.

Lemma no_new : sum_of (p_new (length (tasks w))) (threads w) + m_new (length (tasks w)) (main w) = 0.
Proof using I. rewrite (PI_new _ I). by rewrite lookup_ge_None_2. Qed.

Lemma move_new w' : pmove w w' -> forall t, sum_of (p_new t) (threads w') + m_new t (main w') = in_phase Created (tasks w' !! t).
Proof using I.
  intros M t0. pose proof (PI_new _ I t0) as IT. destruct M; facts; upd;
    try match goal with |- context [decide (?t = length (tasks w))] => destruct (decide (t = length (tasks w))) as [->|];
          [rewrite (lookup_ge_None_2 (tasks w)) in IT by lia|] end.
  all: try (match goal with e : option nat |- _ => destruct e end); try (match goal with |- context [if ?b then _ else _] => destruct b end).
  all: do 2 cases.
Qed.

Lemma move_count w' : pmove w w' -> task_count w' = sum_of live_tok (tasks w').
Proof using I.
  intros M. pose proof (PI_count _ I) as IC. destruct M; facts; cbn [task_count tasks];
    repeat match goal with H : tasks w !! ?c = Some _ |- context [<[?c := _]> (tasks w)] => rewrite (sum_of_insert live_tok _ _ _ _ H) end;
    rewrite ?sum_of_app, ?sum_of_one; unfold live_tok in *; cbn [t_phase with_phase with_waiting] in *;
    repeat match goal with H : t_phase ?tk = _ |- context [t_phase ?tk] => rewrite H end; try lia.
Qed.

Lemma move_len w' : pmove w w' -> length (ready_qs w') = length (threads w') /\ length (threads w') = length (threads w).
Proof using I. intros M. pose proof (PI_len _ I). destruct M; cbn [ready_qs threads]; rewrite ?length_insert; done. Qed.

Lemma move_sched w' : pmove w w' -> forall t tk, tasks w' !! t = Some tk -> (sched_id tk < length (threads w'))%nat.
Proof using I.
  intros M t0 tk0. destruct (move_len w' M) as [_ ->]. pose proof (PI_sched _ I t0 tk0) as IT. destruct M; upd; try done;
    try (case_decide; [intros [= <-]; cbn; try done; by eapply (PI_sched _ I)|done]).
Qed.

(** The scheduler thread of a task never changes. *)
Lemma move_sched_id w' : pmove w w' -> forall t tk, tasks w !! t = Some tk -> exists tk', tasks w' !! t = Some tk' /\ sched_id tk' = sched_id tk.
Proof using I.
  intros M t0 tk0 Ht0. pose proof (lookup_lt_Some _ _ _ Ht0). destruct M; upd; eauto;
    case_decide; subst; try lia; eauto; eexists; split; try done; simplify_eq; done.
Qed.

Lemma move_queue w' : pmove w w' -> forall j q t, ready_qs w' !! j = Some q -> Some t ∈ q -> exists tk, tasks w' !! t = Some tk /\ sched_id tk = j.
Proof using I.
  intros M j0 q0 t0 Hq0 Hin.
  assert (Hold : (exists q, ready_qs w !! j0 = Some q /\ Some t0 ∈ q) -> exists tk, tasks w' !! t0 = Some tk /\ sched_id tk = j0).
  { intros (q & Hq & Hi). destruct (PI_queue _ I _ _ _ Hq Hi) as (tk & Ht & <-). by apply (move_sched_id w' M). }
  assert (Hsid : forall t tk, tasks w !! t = Some tk -> exists tk', tasks w' !! t = Some tk' /\ sched_id tk' = sched_id tk) by (by apply move_sched_id).
  destruct M; cbn [ready_qs] in Hq0; try (apply Hold; by exists q0);
    match goal with K : ready_qs w !! ?k = Some _, J : <[?k := _]> (ready_qs w) !! _ = Some _ |- _ => rewrite (lookup_set _ _ _ _ _ K) in J end;
    case_decide; try (apply Hold; by exists q0); subst; injection Hq0 as <-;
    try (rewrite elem_of_app, list_elem_of_singleton in Hin; destruct Hin as [Hin|[= ->]]; [apply Hold; by eexists|by apply Hsid]).
  - apply Hold. eexists. split; [eassumption|]. by right.
  - rewrite elem_of_app, list_elem_of_singleton in Hin. destruct Hin as [Hin|?]; [|done]. apply Hold. by eexists.
Qed.

Lemma queued_phase j q t : ready_qs w !! j = Some q -> Some t ∈ q -> exists tk, tasks w !! t = Some tk /\ sched_id tk = j /\ t_phase tk = Spawned.
Proof using I.
  intros Hq Hin. destruct (PI_queue _ I _ _ _ Hq Hin) as (tk & Ht & Hs). exists tk. split; [done|]. split; [done|].
  pose proof (PI_tok _ I t) as IT. unfold tok in IT. rewrite Ht in IT. cbn [in_phase] in IT. case_decide as E; [done|].
  pose proof (queue_tok_pos w t j q Hq Hin). pose proof (sum_of_nonneg (p_tok t) (threads w) (p_tok_nonneg t)).
  pose proof (m_tok_nonneg t (main w)). pose proof (w_tok_nonneg (Some tk)).
  lia.
Qed.

(** A thread other than [i] does not own the task that [i] owns. *)
Lemma own_unique i j p q t : threads w !! i = Some p -> own p = Some t -> threads w !! j = Some q -> own q = Some t -> i = j.
Proof using I.
  intros Hi Hp Hj Hq. destruct (PI_own _ I i p t Hi Hp) as (tk & Ht & Hs & _), (PI_own _ I j q t Hj Hq) as (tk' & Ht' & Hs' & _). congruence.
Qed.

Lemma move_own w' : pmove w w' -> forall i p t, threads w' !! i = Some p -> own p = Some t -> exists tk, tasks w' !! t = Some tk /\
  sched_id tk = i /\ (t_phase tk = Spawned \/ t_phase tk = Finished /\ p = PBack t).
Proof using I.
  intros M j0 p0 t0 Hj Hown.
  assert (Hold : threads w !! j0 = Some p0 -> exists tk, tasks w !! t0 = Some tk /\ sched_id tk = j0 /\ (t_phase tk = Spawned \/ t_phase tk = Finished /\ p0 = PBack t0)).
  { intros Hj0. by apply (PI_own _ I). }
  assert (Hrun : forall i p, threads w !! i = Some p -> own p = Some t0 -> p <> PBack t0 -> exists tk, tasks w !! t0 = Some tk /\ sched_id tk = i /\ t_phase tk = Spawned).
  { intros i p Hi Hp Hne. destruct (PI_own _ I i p t0 Hi Hp) as (tk & ? & ? & [?|[_ ?]]); [by exists tk|done]. }
  assert (Huniq : forall i p, threads w !! i = Some p -> own p = Some t0 -> threads w !! j0 = Some p0 -> i = j0) by (intros; by eapply own_unique).
  destruct M; facts; upd;
    try match goal with K : threads w !! ?k = Some _, J : <[?k := _]> (threads w) !! _ = Some _ |- _ =>
      rewrite (lookup_set _ _ _ _ _ K) in J; destruct (decide (j0 = k)) as [->|Hne]; [injection J as <-|] end.
  all: try (match goal with e : option nat |- _ => destruct e end); try (match goal with J : context [if ?b then _ else _] |- _ => destruct b end);
    cbn [own] in Hown; simplify_eq.
  all: try (destruct (Hold ltac:(eassumption)) as (tk9 & Ht9 & Hs9 & Hph9)).
  all: try match goal with Hi : threads w !! _ = Some ?p |- _ =>
    destruct (Hrun _ p Hi eq_refl ltac:(done)) as (tk8 & Ht8 & Hs8 & Hph8) end.
  all: try (match goal with |- context [decide (?a = ?b)] => destruct (decide (a = b)) end); subst; simplify_eq; eauto 8.
  all: try (rewrite (lookup_ge_None_2 (tasks w)) in * by lia; done).
  all: try (exfalso; destruct Hph9 as [?|[??]]; congruence).
  - destruct (queued_phase _ _ t0 ltac:(eassumption) ltac:(by left)) as (tk & ? & ? & ?). eauto.
  - exfalso. apply Hne. symmetry. by eapply Huniq.
Qed.

Lemma move_done w' : pmove w w' -> forall t tk, tasks w' !! t = Some tk -> t_phase tk = Finished -> exists i, threads w' !! i = Some (PBack t).
Proof using I.
  intros M t0 tk0 Ht0 Hph.
  assert (Hold : forall tk, tasks w !! t0 = Some tk -> t_phase tk = Finished -> exists i, threads w !! i = Some (PBack t0)) by (by apply (PI_done _ I)).
  destruct M; facts; upd;
    try match goal with K : tasks w !! ?k = Some _, J : <[?k := _]> (tasks w) !! _ = Some _ |- _ => rewrite (lookup_set _ _ _ _ _ K) in J end;
    try rewrite lookup_new in Ht0; try case_decide; subst; simplify_eq/=; try congruence;
    try (destruct (Hold _ Ht0 Hph) as [k9 Hk9]); try (destruct (Hold _ ltac:(eassumption) Hph) as [k9 Hk9]); eauto;
    try match goal with K : threads w !! ?i = Some _ |- _ => destruct (decide (k9 = i)) as [->|Hki]; [simplify_eq|exists k9; by rewrite insert_other] end.
  all: eexists; eapply insert_at; eassumption.
Qed.

Lemma live_nonneg tk : 0 <= live_tok tk.
Proof using. destruct tk as [? [] ?]; cbn; lia. Qed.

(** While a task is live the count is not zero. *)
Lemma live_count t tk : tasks w !! t = Some tk -> t_phase tk = Spawned \/ t_phase tk = Finished -> task_count w <> 0.
Proof using I.
  intros Ht Hph. rewrite (PI_count _ I). pose proof (sum_of_ge live_tok _ _ _ live_nonneg Ht) as Hg.
  unfold live_tok in Hg at 1. destruct Hph as [E|E]; rewrite E in Hg; lia.
Qed.

Lemma own_count i p t : threads w !! i = Some p -> own p = Some t -> task_count w <> 0.
Proof using I.
  intros Hi Hp. destruct (PI_own _ I _ _ _ Hi Hp) as (tk & Ht & _ & Hph). eapply live_count; [done|].
  destruct Hph as [?|[? _]]; [by left|by right].
Qed.

Lemma count_nonneg : 0 <= task_count w.
Proof using I. rewrite (PI_count _ I). apply sum_of_nonneg, live_nonneg. Qed.

(** Before the first task is queued nothing but the main thread moves. *)
Lemma start_quiet : main w <> MJoin -> (forall i p, threads w !! i = Some p -> p = PIdle) /\ (forall j q, ready_qs w !! j = Some q -> q = []) /\
  forall t tk, tasks w !! t = Some tk -> waiting tk = false.
Proof using I.
  intros Hm. destruct (PI_main _ I Hm) as (Ht & Hq & Hs). split; [done|]. split; [done|]. intros t tk Htk.
  destruct (main w); [rewrite Hs in Htk; done| | |done]; destruct Hs as (_ & k & Hs); rewrite Hs in Htk; by destruct t; simplify_eq/=.
Qed.

Lemma move_main w' : pmove w w' -> main w' <> MJoin -> (forall i p, threads w' !! i = Some p -> p = PIdle) /\
  (forall j q, ready_qs w' !! j = Some q -> q = []) /\
  match main w' with
  | MCreated c => c = 0%nat /\ exists k, tasks w' = [Task k Created false]
  | MCounted c => c = 0%nat /\ exists k, tasks w' = [Task k Spawned false]
  | _ => tasks w' = []
  end.
Proof using I.
  intros M Hm. destruct M; cbn [main threads ready_qs tasks] in *.
  4-17: exfalso; destruct (start_quiet Hm) as (Hti & _); match goal with K : threads w !! _ = Some _ |- _ => pose proof (Hti _ _ K) end; try done.
  - destruct (PI_main _ I) as (Ht & Hq & Hs); [by rewrite H|]. rewrite H in Hs. rewrite Hs. split; [done|]. split; [done|]. split; [done|]. by exists kid.
  - destruct (PI_main _ I) as (Ht & Hq & Hs); [by rewrite H|]. rewrite H in Hs. destruct Hs as (-> & k & Hs). rewrite Hs in H0 |- *.
    split; [done|]. split; [done|]. split; [done|]. exists k. by simplify_eq/=.
  - done.
  - destruct (start_quiet Hm) as (_ & Hq & _). by specialize (Hq _ _ H0).
  - destruct (start_quiet Hm) as (_ & _ & Hw). rewrite (Hw _ _ H) in *. done.
Qed.

(** A thread that has been told to exit stays told. *)
Lemma told_mono w' : pmove w w' -> forall j, told w j -> told w' j.
Proof using I.
  intros M j Hj. unfold told in *. destruct M; cbn [threads ready_qs];
    repeat match goal with K : ?l !! ?k = Some _ |- context [<[?k := _]> ?l !! ?j0] => rewrite (lookup_set l k j0 _ _ K) end;
    destruct Hj as [Hg|(q0 & Hq0 & Hin)]; repeat case_decide; subst; simplify_eq/=; eauto;
    try (right; eexists; split; [done|]; rewrite elem_of_app; by left).
  apply elem_of_cons in Hin as [<-|Hin]; [by left|right; by exists q].
Qed.

Definition ending (v : pool) : Prop :=
  (exists j q, ready_qs v !! j = Some q /\ None ∈ q) \/ (exists i p, threads v !! i = Some p /\ exiting p = true).

(** A thread exits, or is told to, only if one did before or the count has
    been found to be zero. *)
Lemma move_ending w' : pmove w w' -> ending w' -> ending w \/ task_count w' = 0.
Proof using I.
  intros M He. unfold ending in *. destruct M; cbn [threads ready_qs task_count] in *;
    (destruct He as [(j & q0 & Hq0 & Hin)|(k9 & p0 & Hk & He)];
      repeat match goal with K : ?l !! ?k = Some _, J : <[?k := _]> ?l !! ?j0 = Some _ |- _ =>
        rewrite (lookup_set l k j0 _ _ K) in J; destruct (decide (j0 = k)) end;
      subst; simplify_eq/=; eauto 8;
      try (rewrite elem_of_app, list_elem_of_singleton in Hin; destruct Hin as [Hin|?]; simplify_eq/=; eauto 8)).
  - left. left. exists i, (e :: q0). split; [done|]. by right.
  - destruct e as [t|]; [done|]. left. left. exists i, (None :: q). split; [done|]. by left.
  - by destruct (r =? 0).
  - destruct (task_count w =? 0) eqn:E; [right; lia|done].
Qed.

Lemma move_end w' : pmove w w' -> ending w' -> task_count w' = 0.
Proof using I.
  intros M He. destruct (move_ending w' M He) as [Hw|]; [|done]. pose proof (PI_end _ I Hw) as Hz.
  destruct M; cbn [task_count]; try done.
  - destruct (PI_main _ I) as (Ht & Hq & _); [by rewrite H|]. exfalso. destruct Hw as [(j & q & Hj & Hin)|(i & p & Hi & Hx)].
    + rewrite (Hq _ _ Hj) in Hin. by apply not_elem_of_nil in Hin.
    + by rewrite (Ht _ _ Hi) in Hx.
  - by destruct (own_count _ _ _ H eq_refl).
  - by destruct (own_count _ _ _ H eq_refl).
Qed.

Lemma move_exit w' : pmove w w' -> forall i k, threads w' !! i = Some (PExit k) ->
  forall j, (j < k)%nat -> (j < length (threads w'))%nat -> told w' j.
Proof using I.
  intros M i0 k0 Hi0 j Hj Hl. destruct (move_len w' M) as [_ HL]. rewrite HL in Hl.
  assert (Hold : forall k, threads w !! i0 = Some (PExit k) -> (j < k)%nat -> told w' j).
  { intros k Hk Hjk. apply (told_mono w' M). by apply (PI_exit _ I i0 k). }
  destruct M; cbn [threads] in Hi0; eauto; rewrite (lookup_set _ _ _ _ _ H) in Hi0; case_decide; eauto; subst; try (by simplify_eq).
  - by destruct e.
  - by destruct (r =? 0).
  - destruct (task_count w =? 0); simplify_eq. lia.
  - injection Hi0 as <-. destruct (decide (j = k)) as [->|]; [|apply (Hold k); [done|lia]].
    right. cbn [ready_qs]. exists (q ++ [None]). split; [by eapply insert_at|]. rewrite elem_of_app. right. by left.
Qed.

Lemma move_last w' : pmove w w' -> main w' = MJoin -> task_count w' = 0 ->
  (exists i p, threads w' !! i = Some p /\ (p = PRemaining 0 \/ p = PDelay \/ exists k, p = PExit k)) \/
  forall j, (j < length (threads w'))%nat -> told w' j.
Proof using I.
  intros M Hm Hz. pose proof (told_mono w' M) as Hmono. destruct (move_len w' M) as [_ HL]. rewrite HL.
  assert (Hold : main w = MJoin -> task_count w = 0 ->
    (exists i p, threads w !! i = Some p /\ threads w' !! i <> Some p /\ (p = PRemaining 0 \/ p = PDelay \/ exists k, p = PExit k)) \/
    (exists i p, threads w' !! i = Some p /\ (p = PRemaining 0 \/ p = PDelay \/ exists k, p = PExit k)) \/
    forall j, (j < length (threads w))%nat -> told w' j).
  { intros Hm0 Hz0. destruct (PI_last _ I Hm0 Hz0) as [(i & p & Hi & Hp)|Ht]; [|right; right; auto].
    destruct (decide (threads w' !! i = Some p)); [right; left; by exists i, p|left; by exists i, p]. }
  pose proof count_nonneg as Hcn.
  destruct M; cbn [main task_count threads] in *; try (destruct (Hold Hm Hz) as [(i0 & p0 & Hi0 & Hne & Hp0)|?]; [|done]); try done.
  all: try (exfalso; destruct (PI_main _ I) as (_ & _ & Hs); [congruence|]; rewrite H in Hs; destruct Hs as (-> & k0 & Hs);
    pose proof (PI_count _ I) as IC; rewrite Hs in IC; cbn in IC; lia).
  all: try match goal with K : threads w !! ?i = Some _, J : <[?i := _]> (threads w) !! ?i0 <> _ |- _ =>
    destruct (decide (i0 = i)) as [->|Hni]; [simplify_eq; try (by destruct Hp0 as [?|[?|[??]]])|by rewrite insert_other in J] end.
  - exfalso. pose proof count_nonneg. lia.
  - left. exists i. eexists. split; [by eapply insert_at|]. left. by f_equal.
  - left. exists i, PDelay. destruct Hp0 as [[= ->]|[?|[??]]]; try done. split; [by eapply insert_at|by right; left].
  - left. exists i, (PExit 0). rewrite Hz. split; [by eapply insert_at|]. right. right. by exists 0%nat.
  - left. exists i, (PExit (S k)). split; [by eapply insert_at|]. right. right. by exists (S k).
  - right. intros j Hj. apply Hmono, (PI_exit _ I i k H); [lia|done].
Qed.

Lemma move_inv w' : pmove w w' -> pool_inv w'.
Proof using I.
  intros M. pose proof (move_len w' M) as [HL _]. constructor; [done|by apply move_tok|by apply move_new|by apply move_count|by apply move_own|
    by apply move_queue|by apply move_sched|by apply move_done|by apply move_main|by apply move_end|by apply move_exit|by apply move_last].
Qed.
End inv.

Lemma step_inv w w' : pool_inv w -> pstep w w' -> pool_inv w'.
Proof. intros I (a & E). by eapply move_inv, pact_move. Qed.

Lemma steps_inv w w' : pool_inv w -> rtc pstep w w' -> pool_inv w'.
Proof. intros I H. induction H as [|w1 w2 w3 H12 _ IH]; [done|]. by apply IH, (step_inv w1). Qed.

Lemma pool_init_inv n : pool_inv (init_scheduler n).
Proof.
  constructor; cbn [init_scheduler task_count main threads ready_qs tasks].
  - by rewrite !length_replicate.
  - intros t. unfold tok. cbn [init_scheduler main threads ready_qs tasks m_tok]. rewrite !sum_of_replicate, lookup_nil. cbn. lia.
  - intros t. rewrite sum_of_replicate, lookup_nil. cbn. lia.
  - done.
  - intros i p t [-> _]%lookup_replicate. done.
  - intros j q t [-> _]%lookup_replicate Hin. by apply not_elem_of_nil in Hin.
  - done.
  - done.
  - intros _. split; [by intros i p [-> _]%lookup_replicate|]. split; [by intros j q [-> _]%lookup_replicate|done].
  - done.
  - intros i k [? _]%lookup_replicate. done.
  - done.
Qed.
