(* ===== verification/PoolThms.v ===== *)
(** * PoolThms: the scheduler pool keeps running until its tasks are done

    No scheduler thread leaves its loop while a task is alive, a task is
    never in two places, and the pool only comes to rest when every thread
    has returned or a task waits for an event. *)

From S2P Require Import Prelude Threads Tokens Pool PoolInv.

Lemma pacts_steps w l w' : pacts w l = Some w' -> rtc pstep w w'.
Proof.
  revert w. induction l as [|a l IH]; intros w E; cbn in E; [by simplify_eq|].
  destruct (pact w a) as [w1|] eqn:E1; [|done]. eapply rtc_l; [by exists a|by apply IH].
Qed.

Lemma reachable_inv n l w : pacts (init_scheduler n) l = Some w -> pool_inv w.
Proof. intros E. eapply steps_inv; [apply (pool_init_inv n)|by eapply pacts_steps]. Qed.

Lemma step_threads w w' : pool_inv w -> pstep w w' -> length (threads w') = length (threads w).
Proof. intros I (a & E). eapply (move_len w I), pact_move; eassumption. Qed.

Lemma reachable_threads n l w : pacts (init_scheduler n) l = Some w -> length (threads w) = n.
Proof.
  intros E%pacts_steps. assert (Hl : length (threads (init_scheduler n)) = n) by apply length_replicate. transitivity (length (threads (init_scheduler n))); [clear Hl|done].
  assert (I : pool_inv (init_scheduler n)) by apply pool_init_inv. revert I. induction E as [|w1 w2 w3 H12 _ IH]; intros I; [done|].
  rewrite IH; [by apply step_threads|by eapply step_inv].
Qed.

Lemma sum_of_pos {A} (f : A -> Z) (l : list A) : (forall x, 0 <= f x) -> sum_of f l <> 0 -> exists i x, l !! i = Some x /\ f x <> 0.
Proof.
  intros Hf. induction l as [|x l IH]; [done|]. rewrite sum_of_cons. intros Hn. destruct (decide (f x = 0)) as [E|].
  - destruct IH as (i & y & Hi & Hy); [lia|]. by exists (S i), y.
  - by exists 0%nat, x.
Qed.

Section at_rest.
Context (w : pool) (I : pool_inv w).

(** A task that is not reaped holds the count above zero once the pool runs. *)
Lemma task_live t tk : main w = MJoin -> tasks w !! t = Some tk -> t_phase tk <> Reaped -> task_count w <> 0.
Proof using I.
  intros Hm Ht Hph. destruct (t_phase tk) eqn:E; try done; [|by eapply (live_count w I); eauto..].
  pose proof (PI_new _ I t) as IN. rewrite Ht, Hm in IN. cbn [m_new in_phase] in IN. rewrite decide_True in IN by done.
  destruct (sum_of_pos (p_new t) (threads w) (p_new_nonneg t)) as (i & p & Hi & Hp); [lia|]. destruct p; try done. by eapply (own_count w I).
Qed.

Lemma ending_joined : ending w -> main w = MJoin.
Proof using I.
  intros He. destruct (decide (main w = MJoin)) as [|Hm]; [done|]. destruct (start_quiet w I Hm) as (Hp & Hq & _).
  destruct He as [(j & q & Hj & Hin)|(i & p & Hi & Hx)]; [rewrite (Hq _ _ Hj) in Hin; by apply not_elem_of_nil in Hin|by rewrite (Hp _ _ Hi) in Hx].
Qed.

(** Whoever holds a task that is spawned: a queue, a thread, or an event. *)
Lemma spawned_somewhere t tk : main w = MJoin -> tasks w !! t = Some tk -> t_phase tk = Spawned ->
  (exists j q, ready_qs w !! j = Some q /\ Some t ∈ q) \/ (exists i p, threads w !! i = Some p /\ p_tok t p <> 0) \/ waiting tk = true.
Proof using I.
  intros Hm Ht Hph. pose proof (PI_tok _ I t) as IT. unfold tok in IT. rewrite Ht, Hm in IT. cbn [in_phase m_tok w_tok] in IT.
  rewrite decide_True in IT by done. destruct (waiting tk); [by auto|]. cbn [b2z] in IT.
  destruct (decide (sum_of (p_tok t) (threads w) = 0)).
  - destruct (sum_of_pos (q_tok t) (ready_qs w) (q_tok_nonneg t)) as (j & q & Hj & Hq); [lia|]. left. exists j, q. split; [done|].
    destruct (sum_of_pos (e_tok t) q (e_tok_nonneg t) Hq) as (k & e9 & Hk & He9). destruct e9 as [t'|]; [|done]. cbn in He9. unfold is_t in He9.
    case_decide; [subst|done]. by eapply list_elem_of_lookup_2.
  - right. left. by apply sum_of_pos; [apply p_tok_nonneg|].
Qed.

(** Thread [i] has a step of its own, or a task to run. *)
Definition busy (i : nat) : bool :=
  match threads w !! i with
  | Some (PRun _) => true
  | Some p => bool_decide (is_Some (scheduler_run w i p))
  | None => false
  end.

(** A thread that cannot go on: it sleeps on an empty queue or is gone. *)
Definition stuck (i : nat) : Prop := forall p, threads w !! i = Some p -> scheduler_run w i p = None /\ forall t, p <> PRun t.

Lemma not_busy i : busy i <> true -> stuck i.
Proof using.
  unfold busy, stuck. intros Hb p Hi. rewrite Hi in Hb.
  assert (Hn : (forall t, p <> PRun t) -> scheduler_run w i p = None).
  { intros Hr. destruct (scheduler_run w i p) as [w1|] eqn:E; [|done]. exfalso. apply Hb.
    destruct p; first [reflexivity|by apply bool_decide_eq_true_2; exists w1]. }
  split; [apply Hn|]; intros t ->; by apply Hb.
Qed.

Lemma busy_step i : busy i = true -> pact w (SchedStep i) <> None \/ exists t, threads w !! i = Some (PRun t).
Proof using.
  unfold busy. cbn [pact]. destruct (threads w !! i) as [p|]; [|done]. cbn [mbind option_bind].
  intros Hb. destruct p;
    lazymatch goal with
    | |- context [Some (PRun ?t) = _] => right; by exists t
    | _ => left; apply bool_decide_eq_true_1 in Hb as [v Hv]; by rewrite Hv
    end.
Qed.

Lemma stuck_thread i p : stuck i -> threads w !! i = Some p -> p = PGone \/ p = PIdle /\ ready_qs w !! i = Some [].
Proof using I.
  intros Hs Hi. destruct (Hs p Hi) as [Hn Hr]. assert (Hil : (i < length (threads w))%nat) by (by eapply lookup_lt_Some).
  destruct (lookup_lt_is_Some_2 (ready_qs w) i) as [q Hq]; [by rewrite (PI_len _ I)|].
  destruct p; cbn [scheduler_run] in Hn; try done; [|by destruct (Hr t)| | | | |by left].
  - right. split; [done|]. rewrite Hq in Hn |- *. by destruct q.
  - exfalso. pose proof (PI_new _ I c) as IN. pose proof (sum_of_ge (p_new c) _ _ _ (p_new_nonneg c) Hi) as Hg.
    cbn [p_new] in Hg. unfold is_t in Hg. rewrite decide_True in Hg by done. pose proof (m_tok_nonneg c (main w)).
    unfold thread_count in Hn. destruct (tasks w !! c) as [tk|] eqn:Hc; [done|]. cbn [in_phase] in IN.
    assert (0 <= m_new c (main w)) by (destruct (main w); cbn; unfold is_t; repeat case_decide; lia). lia.
  - exfalso. pose proof (PI_tok _ I c) as IT. unfold tok in IT. pose proof (sum_of_ge (p_tok c) _ _ _ (p_tok_nonneg c) Hi) as Hg.
    cbn [p_tok] in Hg. unfold is_t in Hg. rewrite (decide_True _ _ (eq_refl c)) in Hg. pose proof (m_tok_nonneg c (main w)).
    pose proof (sum_of_nonneg (q_tok c) (ready_qs w) (q_tok_nonneg c)).
    unfold thread_push in Hn. destruct (tasks w !! c) as [tk|] eqn:Hc; [done|]. cbn [in_phase w_tok] in IT. case_decide; lia.
  - exfalso. destruct (PI_own _ I i (PBack t) t Hi eq_refl) as (tk & Ht & _). rewrite Ht in Hn. cbn in Hn. by case_decide.
  - case_decide; done.
Qed.

Lemma rest_or_wait : main w = MJoin -> (forall i, stuck i) -> (exists t tk, tasks w !! t = Some tk /\ waiting tk = true) \/
  (forall i p, threads w !! i = Some p -> p = PGone) /\ forall t tk, tasks w !! t = Some tk -> t_phase tk = Reaped.
Proof using I.
  intros Hm Hst. destruct (decide (task_count w = 0)) as [Hz|Hnz].
  - right. split; [|intros t tk Ht; destruct (decide (t_phase tk = Reaped)); [done|by destruct (task_live t tk Hm Ht)]].
    intros i p Hi. destruct (PI_last _ I Hm Hz) as [(k & p' & Hk & Hp')|Htold].
    + exfalso. destruct (stuck_thread k p' (Hst k) Hk) as [->|[-> _]]; by destruct Hp' as [?|[?|[??]]].
    + destruct (stuck_thread i p (Hst i) Hi) as [|[-> Hq]]; [done|]. exfalso.
      destruct (Htold i) as [?|(q & Hq' & Hin)]; [by eapply lookup_lt_Some|by simplify_eq|]. simplify_eq. by apply not_elem_of_nil in Hin.
  - left. rewrite (PI_count _ I) in Hnz. destruct (sum_of_pos live_tok (tasks w) (live_nonneg)) as (t & tk & Ht & Hl); [done|].
    exists t, tk. split; [done|]. unfold live_tok in Hl. destruct (t_phase tk) eqn:Hph; try done.
    + destruct (spawned_somewhere t tk Hm Ht Hph) as [(j & q & Hq & Hin)|[(i & p & Hi & Hp)|]]; [exfalso..|done].
      * assert (exists p, threads w !! j = Some p) as [p Hp].
        { apply lookup_lt_is_Some_2. rewrite <- (PI_len _ I). by eapply lookup_lt_Some. }
        destruct (stuck_thread j p (Hst j) Hp) as [->|[_ Hq']]; [|simplify_eq; by apply not_elem_of_nil in Hin].
        apply Hnz. rewrite <- (PI_count _ I). apply (PI_end _ I). right. by exists j, PGone.
      * by destruct (stuck_thread i p (Hst i) Hi) as [->|[-> _]].
    + exfalso. destruct (PI_done _ I t tk Ht Hph) as [i Hi]. by destruct (stuck_thread i _ (Hst i) Hi) as [?|[??]].
Qed.

Lemma main_goes_on : (0 < length (threads w))%nat -> main w <> MJoin -> main_step w 0 <> None.
Proof using I.
  intros Hl Hm. destruct (PI_main _ I Hm) as (_ & _ & Hs). unfold main_step, thread_create, thread_count, thread_push.
  destruct (main w); [by rewrite decide_True| | |done]; destruct Hs as (-> & k & ->); done.
Qed.
End at_rest.

(** C5: while any scheduler thread has left its loop, or a NULL that tells
    one to leave is in a ready queue, every task ever created has returned and
    been taken off [task_count]: no schedule makes a thread exit early, also
    not one in which tasks create tasks while another thread counts down. *)
Theorem no_early_exit (n : nat) (l : list paction) (w : pool) (Hrun : pacts (init_scheduler n) l = Some w) :
  ((exists j q, ready_qs w !! j = Some q /\ None ∈ q) \/ (exists i p, threads w !! i = Some p /\ exiting p = true)) ->
  task_count w = 0 /\ forall t tk, tasks w !! t = Some tk -> t_phase tk = Reaped.
Proof.
  intros He. pose proof (reachable_inv n l w Hrun) as I. pose proof (PI_end _ I He) as Hz. split; [done|].
  intros t tk Ht. destruct (decide (t_phase tk = Reaped)); [done|]. by destruct (task_live w I t tk (ending_joined w I He) Ht).
Qed.

(** A task that runs on a scheduler thread runs on its own thread
    [sched_id] and on no other, is not in a ready queue and does not wait, in
    every state any schedule reaches. *)
Theorem task_in_one_place (n : nat) (l : list paction) (w : pool) (i t : nat) (Hrun : pacts (init_scheduler n) l = Some w)
    (Hi : threads w !! i = Some (PRun t)) :
  (exists tk, tasks w !! t = Some tk /\ sched_id tk = i /\ t_phase tk = Spawned /\ waiting tk = false) /\
  (forall j, threads w !! j = Some (PRun t) -> j = i) /\ (forall j q, ready_qs w !! j = Some q -> Some t ∉ q).
Proof.
  pose proof (reachable_inv n l w Hrun) as I. destruct (PI_own _ I i _ t Hi eq_refl) as (tk & Ht & Hs & Hph).
  split; [|split].
  - exists tk. split; [done|]. split; [done|]. split; [by destruct Hph as [?|[_ ?]]|by eapply (running_not_waiting w I)].
  - intros j Hj. by apply (own_unique w I j i (PRun t) (PRun t) t).
  - intros j q Hq Hin. pose proof (PI_tok _ I t) as IT. unfold tok in IT.
    pose proof (sum_of_ge (p_tok t) _ _ _ (p_tok_nonneg t) Hi) as Hg. cbn [p_tok] in Hg. unfold is_t in Hg. rewrite decide_True in Hg by done.
    pose proof (queue_tok_pos w t j q Hq Hin). pose proof (m_tok_nonneg t (main w)). pose proof (w_tok_nonneg (tasks w !! t)).
    rewrite Ht in *. cbn [in_phase] in IT. case_decide; lia.
Qed.

(** C4: the pool never deadlocks by itself.  In every state that a schedule
    of at least one thread reaches, the main thread or a scheduler thread can
    take its next step, or a thread runs a task, or a task waits for an event,
    or all is over: every scheduler thread has returned, so that
    [wait_for_schedulers] joins it, and every task is reaped.  (The pool
    leaves out what [scheduler_run] does for the collector: it can also wait
    for [add_lock], which the collector holds while it marks.) *)
Theorem pool_progress (n : nat) (l : list paction) (w : pool) (Hn : (0 < n)%nat) (Hrun : pacts (init_scheduler n) l = Some w) :
  (exists kid, pact w (MainStep kid) <> None) \/ (exists i, pact w (SchedStep i) <> None) \/ (exists i t, threads w !! i = Some (PRun t)) \/
  (exists t tk, tasks w !! t = Some tk /\ waiting tk = true) \/
  ((forall i p, threads w !! i = Some p -> p = PGone) /\ forall t tk, tasks w !! t = Some tk -> t_phase tk = Reaped).
Proof.
  pose proof (reachable_inv n l w Hrun) as I.
  destruct (decide (main w = MJoin)) as [Hm|Hm];
    [|left; exists 0%nat; apply (main_goes_on w I); [by rewrite (reachable_threads n l w Hrun)|done]].
  destruct (decide (Exists (fun i => busy w i = true) (seq 0 (length (threads w))))) as [Hb|Hb].
  - apply Exists_exists in Hb as (i & _ & Hb). destruct (busy_step w i Hb); [right; left; by exists i|right; right; left; by exists i].
  - do 3 right. apply (rest_or_wait w I Hm). intros i. destruct (decide (i < length (threads w))%nat) as [Hi|Hi].
    + apply not_busy. intros Hbi. apply Hb, Exists_exists. exists i. split; [by apply elem_of_seq; lia|done].
    + intros p Hp. by apply lookup_lt_Some in Hp.
Qed.

(** Two threads; the first task, on thread 0, creates a second one on thread
    1 and yields; both run to their end. *)
Definition two_tasks : list paction :=
  [MainStep 0; MainStep 0; MainStep 0; SchedStep 0; Spawn 0 1; SchedStep 0; SchedStep 0; Preempt 0; SchedStep 1; SchedStep 0].
Definition to_the_end : list paction :=
  [Return 1; SchedStep 1; SchedStep 0; SchedStep 0; SchedStep 1; Wait 0; SchedStep 0; SchedStep 0; Wake 0; SchedStep 0; Return 0;
   SchedStep 0; SchedStep 0; SchedStep 0; SchedStep 0; SchedStep 0].

Example no_early_exit_witness : exists w, pacts (init_scheduler 2) (two_tasks ++ to_the_end) = Some w /\ task_count w = 0.
Proof.
  eexists. split; [vm_compute; reflexivity|].
  eapply (no_early_exit 2 (two_tasks ++ to_the_end)); [vm_compute; reflexivity|]. left. exists 1%nat, [None]. split; [reflexivity|by left].
Defined.

Example task_in_one_place_witness : exists w, pacts (init_scheduler 2) two_tasks = Some w /\ forall j, threads w !! j = Some (PRun 1) -> j = 1%nat.
Proof.
  eexists. split; [vm_compute; reflexivity|].
  eapply (task_in_one_place 2 two_tasks _ 1 1); [vm_compute; reflexivity|reflexivity].
Defined.

Example pool_progress_witness : exists w, pacts (init_scheduler 2) two_tasks = Some w /\
  ((exists kid, pact w (MainStep kid) <> None) \/ (exists i, pact w (SchedStep i) <> None) \/ (exists i t, threads w !! i = Some (PRun t)) \/
  (exists t tk, tasks w !! t = Some tk /\ waiting tk = true) \/
  ((forall i p, threads w !! i = Some p -> p = PGone) /\ forall t tk, tasks w !! t = Some tk -> t_phase tk = Reaped)).
Proof.
  eexists. split; [vm_compute; reflexivity|].
  eapply (pool_progress 2 two_tasks); [lia|vm_compute; reflexivity].
Defined.
