(* ===== verification/Diskio.v ===== *)
(** * Diskio: blocking file and terminal I/O (src/runtime/src/diskio.c)

    The [__public__syncio_] functions.  The kernel decides how many bytes a
    call transfers and whether it fails: it is a parameter, asked with the
    number of the call, so that its answers may change over time.  A loop
    that repeats a call takes a budget [fuel] of calls. *)

From S2P Require Import Prelude Mem Alloc Heap Bytes Strings Arrays AllocSpec StrHeap StrSpec StrFormat ArraySpec ArrayTree ArrayThms StringThms.

(** The result of a system call: its value, or -1 with [errno]. *)
Inductive answer (A : Type) := Ok (a : A) | Failed (errno : Z).
Arguments Ok {A} _.
Arguments Failed {A} _.

Definition EINTR : Z := 4.
Definition STDIN_FILENO : Z := 0.
Definition STDOUT_FILENO : Z := 1.

(** [write(fd, data, size)] gives the number of bytes taken; [read(fd, _, n)]
    and [pread(fd, _, n, offset)] the bytes delivered.  The first argument is
    the number of the call. *)
Class Kernel := {
  sys_write : nat -> Z -> list Z -> answer Z;
  sys_read : nat -> Z -> Z -> answer (list Z);
  sys_pread : nat -> Z -> Z -> Z -> answer (list Z);
  fileno : Z -> Z
}.

Section diskio.
Context `{Heap H} `{Kernel}.

(** [while (total < len) { w = write(fd, p + total, len - total); ... }] from
    call number [i] on; also returns all that was written. *)
Fixpoint write_loop (fuel i : nat) (b : bytes) (fd p len total : Z) (out : list Z) : option (Z * list Z) :=
  if total <? len then
    match fuel with
    | O => None
    | S fuel =>
        let data := rds b (p + total) (Z.to_nat (len - total)) in
        match sys_write i fd data with
        | Failed errno => if errno =? EINTR then write_loop fuel (S i) b fd p len total out else Some (-1, out)
        | Ok w => write_loop fuel (S i) b fd p len (total + w) (out ++ take (Z.to_nat w) data)
        end
    end
  else Some (total, out).

Definition __public__syncio_printf (fuel i : nat) (s : sheap H) (fmt : Z) (args : list varg) : option (Z * list Z * sheap H) :=
  if (fmt =? NULL) || (s_ld s (fmt + o_data) =? NULL) then Some (0, [], s)
  else
    '(s, o) ← format_loop true (Z.to_nat (s_ld s (fmt + o_str_size))) s (OutBuf NULL 0 0) fmt 0 args;
    if (len o =? 0) || (buf o =? NULL) then Some (0, [], s)
    else
      '(r, out) ← write_loop fuel i (sh_bytes s) STDOUT_FILENO (buf o) (len o) 0 [];
      Some (r, out, s).

(** [for (;;) { r = read(STDIN_FILENO, buf->data, n); ... }]: the bytes, or
    [None] for an error. *)
Fixpoint read_loop (fuel i : nat) (n : Z) : option (option (list Z)) :=
  match fuel with
  | O => None
  | S fuel =>
      match sys_read i STDIN_FILENO n with
      | Failed errno => if errno =? EINTR then read_loop fuel (S i) n else Some None
      | Ok l => Some (Some l)
      end
  end.

Definition __public__syncio_scan (fuel i : nat) (s : sheap H) (n : Z) : option (Z * sheap H) :=
  if n <=? 0 then Some (NULL, s)
  else
    '(buf, s) ← __public__alloc_array s 8 1 [n + 1];
    if buf =? NULL then Some (NULL, s)
    else
      r ← read_loop fuel i n;
      match r with
      | None => Some (NULL, s)
      | Some l =>
          let s := s_wr s (s_ld s (buf + o_data)) l in
          let s := s_wr s (s_ld s (buf + o_data) + Z.of_nat (length l)) [0] in
          Some (buf, s)
      end.

(** [while (total < n) { r = pread(fd, p + total, n - total, offset); ... }];
    [offset] is an [int]. *)
Fixpoint pread_loop (fuel i : nat) (b : bytes) (fd p n total offset : Z) : option (Z * bytes) :=
  if total <? n then
    match fuel with
    | O => None
    | S fuel =>
        match sys_pread i fd (n - total) offset with
        | Failed errno => if errno =? EINTR then pread_loop fuel (S i) b fd p n total offset else Some (-1, b)
        | Ok [] => Some (total, b)
        | Ok l =>
            let r := Z.of_nat (length l) in
            pread_loop fuel (S i) (wr b (p + total) l) fd p n (total + r) (swrap 32 (offset + r))
        end
    end
  else Some (total, b).

Definition bad_file (s : sheap H) (f buf n offset : Z) : bool :=
  (f =? NULL) || (s_ld s (f + o_data) =? NULL) || (buf =? NULL) || (n <=? 0) || (offset <? 0).

Definition __public__syncio_fread (fuel i : nat) (s : sheap H) (f buf n offset : Z) : option (Z * sheap H) :=
  if bad_file s f buf n offset then Some (-1, s)
  else
    let fd := fileno (s_ld s (f + o_data)) in
    if fd <? 0 then Some (-1, s)
    else
      '(r, b) ← pread_loop fuel i (sh_bytes s) fd (s_ld s (buf + o_data)) n 0 offset;
      Some (r, s_bytes s b).

(** [offset] moves the pointer into the buffer, not the position in the
    file. *)
Definition __public__syncio_fwrite (fuel i : nat) (s : sheap H) (f buf n offset : Z) : option (Z * list Z) :=
  if bad_file s f buf n offset then Some (-1, [])
  else
    let fd := fileno (s_ld s (f + o_data)) in
    if fd <? 0 then Some (-1, [])
    else write_loop fuel i (sh_bytes s) fd (s_ld s (buf + o_data) + offset) n 0 [].

(** ** Streams; [file] and [ret] are what the C library returns *)
Definition __public__syncio_get_stdout (s : sheap H) (stdout : Z) : option (Z * sheap H) :=
  '(wrapper, s) ← s_alloc s sizeof_string;
  if wrapper =? NULL then Some (NULL, s)
  else
    let s := s_put s (wrapper + o_data) stdout in
    Some (wrapper, s_put s (wrapper + o_str_size) 6).

Definition __public__syncio_fopen (s : sheap H) (file : Z) : option (Z * sheap H) :=
  if file =? NULL then Some (NULL, s)
  else
    '(wrapper, s) ← s_alloc s sizeof_string;
    if wrapper =? NULL then Some (NULL, s)
    else
      let s := s_put s (wrapper + o_data) file in
      Some (wrapper, s_put s (wrapper + o_str_size) 0).

Definition no_file (s : sheap H) (f : Z) : bool := (f =? NULL) || (s_ld s (f + o_data) =? NULL).

Definition __public__syncio_fclose (s : sheap H) (f ret : Z) : Z := if no_file s f then -1 else if negb (ret =? 0) then -1 else 0.
Definition __public__syncio_fseek (s : sheap H) (f ret : Z) : Z := if no_file s f then -1 else if negb (ret =? 0) then -1 else 0.
Definition __public__syncio_fflush (s : sheap H) (f ret : Z) : Z := if no_file s f then -1 else if negb (ret =? 0) then -1 else 0.
End diskio.

(** * Blocking I/O transfers everything, in order *)

(** What POSIX says of the calls: [write] takes at most what it is given. *)
Class KernelLaws `{Kernel} := {
  write_count : forall i fd l w, sys_write i fd l = Ok w -> 0 <= w <= Z.of_nat (length l);
  read_count : forall i fd n l, sys_read i fd n = Ok l -> 0 <= n -> Z.of_nat (length l) <= n
}.

Section kernel.
Context `{KernelLaws}.

(** One of any [d] successive calls takes at least one byte; the others are
    interrupted or take nothing. *)
Definition writes_on (d : nat) (fd : Z) : Prop := forall i data, data <> [] -> exists j w, (j < d)%nat /\ sys_write (i + j) fd data = Ok w /\ 0 < w /\
  forall k, (k < j)%nat -> sys_write (i + k) fd data = Failed EINTR \/ sys_write (i + k) fd data = Ok 0.

(** [fd] is a file with the contents [file]: a read gives a part of what is
    there at its position, and nothing only at the end. *)
Definition holds (fd : Z) (file : list Z) : Prop := forall i n off l, 0 < n -> 0 <= off -> sys_pread i fd n off = Ok l ->
  Z.of_nat (length l) <= n /\ l `prefix_of` drop (Z.to_nat off) file /\ (l = [] -> Z.of_nat (length file) <= off).

(** One of any [d] successive reads is not interrupted. *)
Definition reads_on (d : nat) (fd : Z) : Prop := forall i n off, exists j l, (j < d)%nat /\ sys_pread (i + j) fd n off = Ok l /\
  forall k, (k < j)%nat -> sys_pread (i + k) fd n off = Failed EINTR.

(** ** Writing *)
Lemma take_rds (b : bytes) (a : Z) (n : nat) (w : Z) : 0 <= w <= Z.of_nat n -> take (Z.to_nat w) (rds b a n) = rds b a (Z.to_nat w).
Proof. intros Hw. symmetry. apply rds_take. lia. Qed.

Lemma rds_split (b : bytes) (a n w : Z) : 0 <= w <= n -> rds b a (Z.to_nat n) = rds b a (Z.to_nat w) ++ rds b (a + w) (Z.to_nat (n - w)).
Proof. intros Hw. replace (Z.to_nat n) with (Z.to_nat w + Z.to_nat (n - w))%nat by lia. rewrite rds_app. do 3 f_equal. lia. Qed.

Lemma write_loop_result (fuel : nat) : forall i b fd p len total out r out', 0 <= total <= len ->
  write_loop fuel i b fd p len total out = Some (r, out') ->
  r = len /\ out' = out ++ rds b (p + total) (Z.to_nat (len - total)) \/
  r = -1 /\ exists k, 0 <= k <= len - total /\ out' = out ++ rds b (p + total) (Z.to_nat k).
Proof.
  induction fuel as [|fuel IH]; intros i b fd p len total out r out' Ht E; cbn [write_loop] in E; destruct (Z.ltb_spec total len).
  1: done. 1,3: injection E as <- <-; left; split; [lia|]; replace (Z.to_nat (len - total)) with 0%nat by lia; cbn [rds]; by rewrite app_nil_r.
  destruct (sys_write i fd _) as [w|e] eqn:Ew; cbv zeta in E.
  - apply write_count in Ew as Hw. rewrite length_rds in Hw. rewrite take_rds in E by lia.
    apply IH in E; [|lia]. rewrite <- !app_assoc, Z.add_assoc in E. destruct E as [[-> ->]|(-> & k & Hk & ->)].
    + left. split; [done|]. rewrite (rds_split b (p + total) (len - total) w) by lia. by replace (len - total - w) with (len - (total + w)) by lia.
    + right. split; [done|]. exists (w + k). split; [lia|]. rewrite (rds_split b (p + total) (w + k) w) by lia. replace (w + k - w) with k by lia. by rewrite <- app_assoc.
  - destruct (e =? EINTR); [by apply IH in E|]. injection E as <- <-. right. split; [done|]. exists 0. split; [lia|]. cbn [Z.to_nat rds]. by rewrite app_nil_r.
Qed.

Lemma write_loop_stall (j : nat) : forall fuel i b fd p len total out, total < len ->
  (forall k, (k < j)%nat -> sys_write (i + k) fd (rds b (p + total) (Z.to_nat (len - total))) = Failed EINTR \/
     sys_write (i + k) fd (rds b (p + total) (Z.to_nat (len - total))) = Ok 0) ->
  write_loop (j + fuel) i b fd p len total out = write_loop fuel (i + j) b fd p len total out.
Proof.
  induction j as [|j IH]; intros fuel i b fd p len total out Ht Hk; [by rewrite Nat.add_0_r|]. cbn [Nat.add write_loop].
  rewrite (proj2 (Z.ltb_lt _ _)) by done. rewrite <- Nat.add_succ_comm.
  assert (Hk' : forall k, (k < j)%nat -> sys_write (S i + k) fd (rds b (p + total) (Z.to_nat (len - total))) = Failed EINTR \/
     sys_write (S i + k) fd (rds b (p + total) (Z.to_nat (len - total))) = Ok 0).
  { intros k Hkj. rewrite Nat.add_succ_comm. apply Hk. lia. }
  destruct (Hk 0%nat) as [E|E]; [lia|..]; rewrite Nat.add_0_r in E; rewrite E; cbv zeta; [by apply IH|].
  cbn [Z.to_nat take]. rewrite Z.add_0_r, app_nil_r. by apply IH.
Qed.

Lemma write_loop_total d fd : writes_on d fd -> forall (m fuel i : nat) b p len total out, 0 <= total <= len -> len - total <= Z.of_nat m ->
  (d * m <= fuel)%nat -> write_loop fuel i b fd p len total out = Some (len, out ++ rds b (p + total) (Z.to_nat (len - total))).
Proof.
  intros Hp. induction m as [|m IH]; intros fuel i b p len total out Ht Hm Hf.
  { destruct fuel; cbn [write_loop]; rewrite (proj2 (Z.ltb_ge total len)) by lia; replace (Z.to_nat (len - total)) with 0%nat by lia; cbn [rds];
      rewrite app_nil_r; by replace total with len by lia. }
  destruct (Z.ltb_spec total len) as [Hlt|Hge]; [|by apply IH; lia].
  assert (Hne : rds b (p + total) (Z.to_nat (len - total)) <> []) by (intros E; apply (f_equal length) in E; rewrite length_rds in E; cbn in E; lia).
  destruct (Hp i _ Hne) as (j & w & Hj & Ew & Hw & Hk). replace fuel with (j + S (fuel - S j))%nat by nia.
  rewrite write_loop_stall by done. cbn [write_loop]. rewrite (proj2 (Z.ltb_lt _ _)), Ew by lia. cbv zeta.
  apply write_count in Ew as Hw'. rewrite length_rds in Hw'. rewrite take_rds by lia. rewrite IH by nia.
  rewrite <- app_assoc, (rds_split b (p + total) (len - total) w) by lia. rewrite Z.add_assoc. by replace (len - (total + w)) with (len - total - w) by lia.
Qed.

(** ** Reading a file *)

(** The bytes of [b'] at [p] are the first [r] of [l], the others those of [b]. *)
Definition read_into (b b' : bytes) (p r : Z) (l : list Z) : Prop :=
  rds b' p (Z.to_nat r) = take (Z.to_nat r) l /\ forall x, x < p \/ p + r <= x -> rd b' x = rd b x.

Lemma read_into_wr b b' p r file off l : 0 <= r -> 0 <= off -> read_into b b' p r (drop (Z.to_nat off) file) ->
  l `prefix_of` drop (Z.to_nat (off + r)) file ->
  read_into b (wr b' (p + r) l) p (r + Z.of_nat (length l)) (drop (Z.to_nat off) file).
Proof.
  intros Hr Hoff [Hin Hout] [k Hk]. split.
  - rewrite (rds_split _ p _ r) by lia. rewrite rds_wr_out by lia. rewrite Hin.
    replace (Z.to_nat (r + Z.of_nat (length l) - r)) with (length l) by lia. rewrite rds_wr.
    replace (Z.to_nat (r + Z.of_nat (length l))) with (Z.to_nat r + length l)%nat by lia. rewrite <- take_take_drop. f_equal.
    rewrite drop_drop. replace (Z.to_nat off + Z.to_nat r)%nat with (Z.to_nat (off + r)) by lia. by rewrite Hk, take_app_length.
  - intros x Hx. rewrite rd_wr_out by lia. apply Hout. lia.
Qed.

Section file.
Context (fd : Z) (file : list Z) (Hfile : holds fd file) (b0 : bytes) (p n off : Z) (Hoff : 0 <= off) (Hmax : off + n < 2 ^ 31).

(** What there is to read. *)
Definition there : Z := Z.min n (Z.max 0 (Z.of_nat (length file) - off)).

Lemma pread_step i total l : 0 <= total < n -> total <= there -> sys_pread i fd (n - total) (off + total) = Ok l -> 0 < n ->
  (l = [] -> total = there) /\ total + Z.of_nat (length l) <= there /\ l `prefix_of` drop (Z.to_nat (off + total)) file /\
  swrap 32 (off + total + Z.of_nat (length l)) = off + (total + Z.of_nat (length l)).
Proof using Hfile Hoff Hmax.
  intros Ht Hth E Hn. destruct (Hfile i (n - total) (off + total) l ltac:(lia) ltac:(lia) E) as (Hl & Hp & He). unfold there in *.
  pose proof (prefix_length _ _ Hp) as Hpl. rewrite length_drop in Hpl.
  split; [intros Hl0; specialize (He Hl0); lia|]. split; [destruct l; cbn [length] in *; lia|]. split; [done|]. rewrite swrap_small by (unfold in_sint; lia). lia.
Qed.

Lemma pread_loop_result (fuel : nat) : forall i b total r b', 0 <= total <= there -> 0 < n -> read_into b0 b p total (drop (Z.to_nat off) file) ->
  pread_loop fuel i b fd p n total (off + total) = Some (r, b') ->
  exists k, 0 <= k <= there /\ read_into b0 b' p k (drop (Z.to_nat off) file) /\ (r = k /\ k = there \/ r = -1).
Proof using Hfile Hoff Hmax.
  induction fuel as [|fuel IH]; intros i b total r b' Ht Hn Hb E; cbn [pread_loop] in E; destruct (Z.ltb_spec total n) as [Hlt|Hge].
  1: done. 1,3: injection E as <- <-; exists total; split; [done|]; split; [done|]; left; split; [done|]; unfold there in *; lia.
  destruct (sys_pread i fd _ _) as [l|e] eqn:El.
  - destruct (pread_step i total l) as (He & Hl & Hp & Hw); [lia|lia|done|done|]. destruct l as [|x l].
    + injection E as <- <-. exists total. split; [done|]. split; [done|]. left. split; [done|]. by apply He.
    + cbv zeta in E. rewrite Hw in E. apply IH in E; [done|lia|done|]. apply read_into_wr; [lia|done|done|done].
  - destruct (e =? EINTR); [by apply IH in E|]. injection E as <- <-. exists total. split; [done|]. split; [done|]. by right.
Qed.

Lemma pread_loop_stall (j : nat) : forall fuel i b total, total < n ->
  (forall k, (k < j)%nat -> sys_pread (i + k) fd (n - total) (off + total) = Failed EINTR) ->
  pread_loop (j + fuel) i b fd p n total (off + total) = pread_loop fuel (i + j) b fd p n total (off + total).
Proof using.
  induction j as [|j IH]; intros fuel i b total Ht Hk; [by rewrite Nat.add_0_r|]. cbn [Nat.add pread_loop].
  rewrite (proj2 (Z.ltb_lt _ _)) by done. rewrite <- Nat.add_succ_comm.
  pose proof (Hk 0%nat ltac:(lia)) as E. rewrite Nat.add_0_r in E. rewrite E. cbv zeta. change (EINTR =? EINTR) with true. cbv iota.
  apply IH; [done|]. intros k Hkj. rewrite Nat.add_succ_comm. apply Hk. lia.
Qed.

Lemma pread_loop_total d : reads_on d fd -> forall (m fuel i : nat) b total, 0 <= total <= there -> 0 < n -> n - total <= Z.of_nat m ->
  (d * m <= fuel)%nat -> exists b', pread_loop fuel i b fd p n total (off + total) = Some (there, b').
Proof using Hfile Hoff Hmax.
  intros Hp. induction m as [|m IH]; intros fuel i b total Ht Hn Hm Hf.
  { exists b. assert (total = there /\ n <= total) as [Et Hge] by (unfold there in *; lia).
    destruct fuel; cbn [pread_loop]; rewrite (proj2 (Z.ltb_ge total n)) by lia; by rewrite Et. }
  destruct (Z.ltb_spec total n) as [Hlt|Hge]; [|apply IH; lia].
  destruct (Hp i (n - total) (off + total)) as (j & l & Hj & El & Hk). replace fuel with (j + S (fuel - S j))%nat by nia.
  rewrite pread_loop_stall by done. cbn [pread_loop]. rewrite (proj2 (Z.ltb_lt _ _)), El by lia.
  destruct (pread_step (i + j) total l) as (He & Hl & _ & Hw); [lia|lia|done|done|].
  destruct l as [|x l]; [exists b; by rewrite He|]. cbv zeta. rewrite Hw. cbn [length] in *. apply IH; nia.
Qed.
End file.
End kernel.

(** ** The functions *)
Section thms.
Context `{HeapSpec H} `{KernelLaws}.
Implicit Types (s : sheap H) (L : gmap Z Z).

(** [__public__syncio_printf] writes exactly the rendered text to the
    standard output, in order, however the kernel splits and interrupts the
    writes: what has been written is always a prefix of the text, the result
    is its length or -1 for an error, and when of any [d] calls one makes
    progress, [d] calls per byte are enough to return with all of it written.
    The blocks that were live before are unchanged. *)
Theorem syncio_printf_spec s L fmt f args strs l (Ho : s_ok s L) (Hf : str_at s L fmt f) (Hne : f <> []) (Hstrs : strs_ok s L strs)
  (Hr : s_room s (S (S (length f)))) (Hl : render true strs f args = Some l) (Hlen : Z.of_nat (length l) <= TEXT_MAX) :
  (forall fuel i r out s', __public__syncio_printf fuel i s fmt args = Some (r, out, s') ->
     r = Z.of_nat (length l) /\ out = l \/ r = -1 /\ out `prefix_of` l) /\
  (forall d fuel i, writes_on d STDOUT_FILENO -> (d * length l <= fuel)%nat ->
     exists s' L', __public__syncio_printf fuel i s fmt args = Some (Z.of_nat (length l), l, s') /\ s_ok s' L' /\ L ⊆ L' /\ kept L s s').
Proof.
  destruct (Hf) as ([n Hn] & El & Hd). destruct (s_block _ _ _ _ Ho Hn) as [Hp _]. unfold __public__syncio_printf.
  replace (fmt =? NULL) with false by lia. destruct Hd as [[_ ?]|(k & Hk & _)]; [done|].
  destruct (s_block _ _ _ _ Ho Hk). replace (s_ld s (fmt + o_data) =? NULL) with false by lia. cbn [orb]. rewrite El, Nat2Z.id.
  destruct (format_text_ok s L true fmt f args strs l 1 Ho Hf Hstrs Hr Hl Hlen) as (s1 & o1 & L1 & -> & Ho1 & Hs1 & Elen & Hbuf & HK1 & _).
  cbn [mbind option_bind]. rewrite Elen. destruct Hbuf as [[-> ->]|(j & Hj & Hjl & Er)].
  - cbn [length Z.of_nat Z.eqb orb]. split; [intros fuel i r out s' [= <- <- <-]; by left|]. intros d fuel i _ _. by exists s1, L1.
  - destruct (s_block _ _ _ _ Ho1 Hj). replace (buf o1 =? NULL) with false by lia. rewrite orb_false_r.
    destruct (Z.eqb_spec (Z.of_nat (length l)) 0) as [E0|Hn0].
    { destruct l; [|done]. split; [intros fuel i r out s' [= <- <- <-]; by left|]. intros d fuel i _ _. by exists s1, L1. }
    split.
    + intros fuel i r out s' E. destruct (write_loop _ _ _ _ _ _ _ _) as [[r' out']|] eqn:Ew; [|done]. cbn [mbind option_bind] in E. injection E as -> -> ->.
      apply write_loop_result in Ew; [|lia]. rewrite Z.add_0_r, Z.sub_0_r, Nat2Z.id, Er in Ew. cbn [app] in Ew.
      destruct Ew as [?|(? & q & Hq & ->)]; [by left|right]. split; [done|]. rewrite (rds_take _ _ (length l)), Er by lia. apply prefix_take.
    + intros d fuel i Hw Hfuel. rewrite (write_loop_total d STDOUT_FILENO Hw (length l)) by lia. cbn [mbind option_bind app].
      rewrite Z.add_0_r, Z.sub_0_r, Nat2Z.id, Er. by exists s1, L1.
Qed.

(** C30: for a read of [n] bytes that fits the array's data block and ends
    below 2^31, [__public__syncio_fread] reads the bytes of the file from
    [offset] on, [n] of them or as many as there are, into that block and
    returns their number, however the kernel splits and interrupts the reads;
    otherwise it returns -1, and the data holds a part of them.  It returns
    when of any [d] reads one is not interrupted. *)
Theorem syncio_fread_spec s L f buf dt k n offset file (Ho : s_ok s L) (Hf : f <> NULL) (Hd : s_ld s (f + o_data) <> NULL) (Hb : buf <> NULL)
  (Hdt : s_ld s (buf + o_data) = dt) (Hk : L !! dt = Some k) (Hn : 0 < n <= k) (Hoff : 0 <= offset) (Hmax : offset + n < 2 ^ 31)
  (Hfd : 0 <= fileno (s_ld s (f + o_data))) (Hfile : holds (fileno (s_ld s (f + o_data))) file) :
  (forall fuel i r s', __public__syncio_fread fuel i s f buf n offset = Some (r, s') -> touch L dt s s' /\
     exists m, 0 <= m <= there file n offset /\ read_into (sh_bytes s) (sh_bytes s') dt m (drop (Z.to_nat offset) file) /\
       (r = m /\ m = there file n offset \/ r = -1)) /\
  (forall d fuel i, reads_on d (fileno (s_ld s (f + o_data))) -> (d * Z.to_nat n <= fuel)%nat ->
     exists s', __public__syncio_fread fuel i s f buf n offset = Some (there file n offset, s')).
Proof.
  unfold __public__syncio_fread. assert (bad_file s f buf n offset = false) as -> by (unfold bad_file; lia).
  rewrite (proj2 (Z.ltb_ge _ 0)), Hdt by done. assert (0 <= there file n offset <= n) as Hth by (unfold there; lia). split.
  - intros fuel i r s' E. destruct (pread_loop _ _ _ _ _ _ _ _) as [[r' b']|] eqn:Er; [|done]. cbn [mbind option_bind] in E. injection E as -> <-.
    replace offset with (offset + 0) in Er by lia. apply (pread_loop_result _ file Hfile (sh_bytes s) dt n offset Hoff Hmax) in Er;
      [|lia|lia|by split]. destruct Er as (m & Hm & Hin & Hr). split; [|by exists m]. split; [done| |done]. split; [by apply blocks_kept_refl|].
    intros p q x [Hne Hp]%lookup_delete_Some Hx. cbn [s_bytes sh_bytes]. apply Hin. pose proof (h_apart _ _ _ _ _ _ Ho Hk Hp ltac:(done)). lia.
  - intros d fuel i Hw Hfuel. destruct (pread_loop_total _ file Hfile dt n offset Hoff Hmax d Hw (Z.to_nat n) fuel i (sh_bytes s) 0) as (b' & E); [lia..|].
    rewrite (Z.add_0_r offset) in E. rewrite E. cbn [mbind option_bind]. by eexists.
Qed.

(** [__public__syncio_fwrite] adds [offset] to the address of the data
    and writes at the position the file has: what is written are the bytes
    [offset .. offset + n) of the array, or a prefix of them for an error. *)
Theorem syncio_fwrite_shifts_buffer s f buf n offset fuel i r out (Hfd : 0 <= fileno (s_ld s (f + o_data))) (Hn : 0 < n) (Hoff : 0 <= offset)
  (Hf : f <> NULL /\ s_ld s (f + o_data) <> NULL /\ buf <> NULL) (E : __public__syncio_fwrite fuel i s f buf n offset = Some (r, out)) :
  r = n /\ out = rds (sh_bytes s) (s_ld s (buf + o_data) + offset) (Z.to_nat n) \/
  r = -1 /\ out `prefix_of` rds (sh_bytes s) (s_ld s (buf + o_data) + offset) (Z.to_nat n).
Proof.
  unfold __public__syncio_fwrite in E. assert (bad_file s f buf n offset = false) as Hb by (unfold bad_file; lia). rewrite Hb in E.
  rewrite (proj2 (Z.ltb_ge _ 0)) in E by done. apply write_loop_result in E; [|lia]. rewrite (Z.add_0_r (_ + offset)), Z.sub_0_r in E. cbn [app] in E.
  destruct E as [?|(? & q & Hq & ->)]; [by left|right]. split; [done|]. rewrite (rds_take _ _ (Z.to_nat n)) by lia. apply prefix_take.
Qed.

(** [__public__syncio_scan] returns NULL when [n] is not positive or the
    read fails, and otherwise a new array of [n + 1] elements that starts
    with the bytes read and a NUL; no live block changes. *)
Theorem syncio_scan_spec s L n fuel i q s' r (Ho : s_ok s L) (Hr : s_room s (4 + r)) (Hn : (n + 1) * 8 <= REQUEST_MAX)
  (E : __public__syncio_scan fuel i s n = Some (q, s')) :
  exists L', s_ok s' L' /\ L ⊆ L' /\ kept L s s' /\
    (q = NULL \/ exists l dt k, read_loop fuel i n = Some (Some l) /\ Z.of_nat (length l) <= n /\ L !! q = None /\ s_ld s' (q + o_data) = dt /\
      __public__len s' q = n + 1 /\ L' !! dt = Some k /\ n < k /\ rds (sh_bytes s') dt (length l + 1) = l ++ [0]).
Proof.
  unfold __public__syncio_scan in E. destruct (Z.leb_spec n 0) as [|Hn0]; [injection E as <- <-; exists L; split; [done|]; split; [done|]; split; [apply kept_refl|by left]|].
  destruct (alloc_array_ok s L 8 [n + 1] (1 + r) Ho) as (p & s1 & L1 & E1 & Ho1 & Hs1 & Hp & HK1 & _); [done| |exact Hr|].
  { split; [lia|]. split; [cbn; unfold REQUEST_MAX; lia|]. split; [lia|done]. }
  change (Z.of_nat (length [n + 1])) with 1 in E1. rewrite E1 in E. cbn [mbind option_bind] in E.
  destruct Hp as (m & dt & k & Hp & Hm & Hd & Hk & Hne & Hh & Hle & _). pose proof Hh as [F1 _ _ F4 _ _ _].
  apply lookup_difference_Some in Hp as [Hp Hp0], Hd as [Hd Hd0]. destruct (s_block _ _ _ _ Ho1 Hp) as [Hp16 _].
  rewrite (proj2 (Z.eqb_neq p NULL)) in E by lia. destruct (read_loop fuel i n) as [[l|]|] eqn:El; cbn [mbind option_bind] in E; [|injection E as <- <-|done].
  2:{ exists L1. split; [done|]. split; [done|]. split; [done|]. by left. }
  assert (Z.of_nat (length l) <= n) as Hl.
  { clear -El Hn0 H3. revert i El. induction fuel as [|fuel IH]; intros i El; cbn [read_loop] in El; [done|].
    destruct (sys_read i STDIN_FILENO n) as [l'|e] eqn:Es; [injection El as ->; eapply read_count; [exact Es|lia]|]. destruct (e =? EINTR); [by eapply IH|done]. }
  injection E as <- <-. set (s2 := s_wr s1 _ l). change (s_ld s2 (p + o_data)) with (s_ld s1 (p + o_data)). unfold s2. clear s2. rewrite F1.
  assert (touch L1 dt s1 (s_wr (s_wr s1 dt l) (dt + Z.of_nat (length l)) [0])) as T.
  { assert (touch L1 dt s1 (s_wr s1 dt l)) as T1 by (eapply (touch_wr L1 dt k); [done|done|lia|lia]). eapply touch_trans; [exact T1|]. eapply (touch_wr L1 dt k); [apply T1|done|lia|cbn; lia]. }
  exists L1. split; [apply T|]. split; [done|]. split; [eapply kept_trans; [exact HK1|]; exact (touch_fresh _ _ _ _ _ T Hs1 Hd0)|].
  right. exists l, dt, k. split; [done|]. split; [done|]. split; [done|]. split; [exact F1|]. split; [exact F4|]. split; [done|]. split; [lia|].
  cbn [s_wr s_bytes sh_bytes]. rewrite rds_app, rds_wr_out, rds_wr by lia. f_equal. apply (rds_wr [0]).
Qed.
End thms.

(** ** A kernel that interrupts every other call and moves three bytes at most *)
#[local] Instance demo_kernel : Kernel := {|
  sys_write i fd l := if Nat.even i then Failed EINTR else Ok (Z.min 3 (Z.of_nat (length l)));
  sys_read i fd n := if Nat.even i then Failed EINTR else Ok (take (Z.to_nat n) [104; 105; 10]);
  sys_pread i fd n off := if Nat.even i then Failed EINTR else Ok (take (Z.to_nat (Z.min 3 n)) (drop (Z.to_nat off) [1; 2; 3; 4; 5; 6; 7; 8]));
  fileno f := 3
|}.

#[local] Instance demo_laws : KernelLaws.
Proof.
  split; cbn.
  - intros i fd l w. destruct (Nat.even i); [done|]. intros [= <-]. lia.
  - intros i fd n l. destruct (Nat.even i); [done|]. intros [= <-] Hn. rewrite length_take. lia.
Qed.

Lemma odd_call (i : nat) : exists j, (j < 2)%nat /\ Nat.even (i + j) = false /\ forall k, (k < j)%nat -> Nat.even (i + k) = true.
Proof.
  destruct (Nat.even i) eqn:E.
  - exists 1%nat. split; [lia|]. split; [by rewrite Nat.add_1_r, Nat.even_succ, <- Nat.negb_even, E|]. intros k Hk. by replace (i + k)%nat with i by lia.
  - exists 0%nat. split; [lia|]. rewrite Nat.add_0_r. split; [done|]. lia.
Qed.

Lemma demo_writes (fd : Z) : writes_on 2 fd.
Proof.
  intros i data Hne. destruct (odd_call i) as (j & Hj & Ej & Hk). exists j, (Z.min 3 (Z.of_nat (length data))). split; [done|]. cbn. rewrite Ej.
  split; [done|]. split; [destruct data; [done|cbn; lia]|]. intros k Hkj. left. by rewrite Hk.
Qed.

Lemma demo_holds (fd : Z) : holds fd [1; 2; 3; 4; 5; 6; 7; 8].
Proof.
  intros i n off l Hn Hoff. unfold sys_pread, demo_kernel. destruct (Nat.even i); [done|]. intros [= <-]. split; [rewrite length_take; lia|]. split; [apply prefix_take|].
  intros E. apply (f_equal length) in E. rewrite length_take, length_drop in E. cbn [length] in *. lia.
Qed.

Lemma demo_reads (fd : Z) : reads_on 2 fd.
Proof.
  intros i n off. destruct (odd_call i) as (j & Hj & Ej & Hk). exists j. eexists. split; [done|]. cbn. rewrite Ej. split; [done|]. intros k Hkj. by rewrite Hk.
Qed.

(** printf("hi %ld!", 7) with the kernel above. *)
Lemma syncio_printf_spec_witness : exists (s s' : sheap astate) p, __public__syncio_printf 10 0 s p [VLong 7] = Some (5, [104; 105; 32; 55; 33], s').
Proof.
  destruct (bump_strings [104; 105; 32; 37; 108; 100; 33] [97]) as (s & L & p1 & d1 & p2 & d2 & Ho & Hr & Hs1 & _ & _); [cbn; lia..|].
  destruct (syncio_printf_spec s L p1 [104; 105; 32; 37; 108; 100; 33] [VLong 7] (fun _ => None) [104; 105; 32; 55; 33] Ho (proj1 (proj2 Hs1)))
    as [_ Ht]; [done|done|exact (h_room_less _ _ (h_room_less _ _ Hr))|vm_compute; reflexivity|unfold TEXT_MAX; cbn; lia|].
  destruct (Ht 2%nat 10%nat 0%nat (demo_writes _) ltac:(cbn; lia)) as (s' & L' & E & _). exists s, s', p1. exact E.
Defined.

(** Five bytes from position 2 of the file above. *)
Lemma syncio_fread_spec_witness : exists (s s' : sheap astate) f buf, __public__syncio_fread 10 0 s f buf 5 2 = Some (5, s').
Proof.
  destruct (bump_strings [104; 105] [1; 2; 3; 4; 5; 6; 7; 8]) as (s & L & p1 & d1 & p2 & d2 & Ho & Hr & Hs1 & Hs2 & _); [cbn; lia..|].
  destruct (str_own_block s L p1 d1 [104; 105] Ho Hs1) as (n1 & k1 & Hn1 & Hk1 & Hn & Hp & Hd & _). destruct (s_block _ _ _ _ Ho Hk1).
  destruct Hs1 as (E1 & _).
  destruct (syncio_fread_spec s L p1 p1 d1 k1 5 2 [1; 2; 3; 4; 5; 6; 7; 8] Ho) as [_ Ht];
    [lia|lia|lia|done|done|lia|lia|lia|done|apply demo_holds|].
  destruct (Ht 2%nat 10%nat 0%nat (demo_reads _) ltac:(cbn; lia)) as (s' & E). exists s, s', p1, p1. exact E.
Defined.

(** A stream at 64, and an array at 80 with the bytes 10 to 14. *)
#[local] Instance flat_heap : Heap mem := {| h_mem m := m; h_set _ m := m; h_alloc _ _ := None; h_free _ _ := None |}.
Definition fwrite_state : sheap mem := SHeap (<[64 := 5]> (<[80 := 96]> ∅)) (wr ∅ 96 [10; 11; 12; 13; 14]).

(** Two bytes with offset 3: the fourth and fifth byte of the data. *)
Lemma syncio_fwrite_shifts_buffer_witness : exists out, __public__syncio_fwrite 10 0 fwrite_state 64 80 2 3 = Some (2, out) /\ out = [13; 14].
Proof.
  eexists. split; [vm_compute; reflexivity|].
  destruct (syncio_fwrite_shifts_buffer fwrite_state 64 80 2 3 10 0 2 [13; 14]) as [[_ E]|[E _]];
    [cbn; lia|lia|lia|vm_compute; done|vm_compute; reflexivity|exact E|done].
Defined.

Lemma syncio_scan_spec_witness : exists (s s' : sheap astate) q L', __public__syncio_scan 10 0 s 80 = Some (q, s') /\ s_ok s' L'.
Proof.
  destruct bump_heap as (h & L & q & j & Ho & Hr & _).
  destruct (alloc_array_ok (SHeap h ∅) L 8 [81] 12 Ho) as (p & s1 & L1 & E1 & _); [done|cbn; unfold REQUEST_MAX; lia|exact Hr|].
  assert (exists q' s', __public__syncio_scan 10 0 (SHeap h ∅) 80 = Some (q', s')) as (q' & s' & E).
  { unfold __public__syncio_scan. change (80 <=? 0) with false. cbv iota. change (80 + 1) with 81. change (Z.of_nat (length [81])) with 1 in E1.
    rewrite E1. cbn [mbind option_bind]. destruct (p =? NULL); [by eexists _, _|]. cbn. by eexists _, _. }
  destruct (syncio_scan_spec (SHeap h ∅) L 80 10 0 q' s' 11 Ho) with (3 := E) as (L' & Ho' & _); [exact Hr|unfold REQUEST_MAX; lia|].
  exists (SHeap h ∅), s', q', L'. split; [exact E|exact Ho'].
Defined.
