(* ===== verification/Uring.v ===== *)
(** * Uring: asynchronous file I/O (src/runtime/src/diskio.c)

    A task prepares a request on the submission ring of its thread, enters
    the wait queue, submits and yields; a worker thread collects the
    completions and pushes the tasks back on their ready queues.  Steps of
    tasks and workers are interleaved.  The kernel decides whether the ring
    has a free entry, how many of the prepared entries a submission
    takes and with what result a request completes: these answers are part
    of the actions.  A request that was taken completes once.  An entry that
    was prepared and not taken, because [io_uring_submit] failed or took
    fewer, stays in the ring, and a later submission on the ring takes it. *)

From S2P Require Import Prelude Threads Tokens.

Definition SCHEDULER_THREAD_POOL_SIZE : nat := 12.
Definition DISKIO_THREAD_POOL_SIZE : nat := 4.

(** The part of [io_metadata_t] these functions use. *)
Record io := Io { io_fd : Z; req_n : Z; done_n : Z; offset : Z; io_err : Z; io_done : bool }.

(** [async_stdin_read], [async_stdout_write], [async_file_read] and
    [async_file_write]. *)
Inductive aop := StdinRead | StdoutWrite | FileRead | FileWrite.

#[export] Instance aop_eq_dec : EqDecision aop.
Proof. solve_decision. Defined.

(** The program point of a task: outside, with the result of its last call;
    at [io_uring_get_sqe]; before the [task_yield] in that loop, and after;
    at [unsafe_ioq_push]; at [io_uring_submit]; before the last [task_yield],
    and after; [accepted] tells whether [io_uring_submit] succeeded. *)
Inductive upc := UOut (result : option Z) | UGetSqe (o : aop) | UNoSqe (o : aop) | UNoSqeAsleep (o : aop) | UPush (o : aop) | USubmit (o : aop)
  | UYield (o : aop) (accepted : bool) | UAsleep (o : aop) (accepted : bool).

Record utask := UTask { u_sched : nat; u_pc : upc; u_io : io }.

(** [prepared]: the entries of the submission rings, with their ring and their
    user data, oldest first; [in_flight]: the requests the kernel has taken. *)
Record uring := URing { prepared : list (nat * nat); in_flight : list nat; u_ready : list nat; u_waitq : list nat; u_tasks : list utask }.

Definition u_goto (w : uring) (i : nat) (tk : utask) (p : upc) : uring :=
  URing (prepared w) (in_flight w) (u_ready w) (u_waitq w) (<[i := UTask (u_sched tk) p (u_io tk)]> (u_tasks w)).
Definition u_set_io (w : uring) (i : nat) (tk : utask) (x : io) (p : upc) : uring :=
  URing (prepared w) (in_flight w) (u_ready w) (u_waitq w) (<[i := UTask (u_sched tk) p x]> (u_tasks w)).

(** What the public functions return after the operation; for [ascan] the
    test it makes. *)
Definition aio_result (o : aop) (x : io) : Z :=
  match o with
  | StdinRead => done_n x
  | StdoutWrite => if done_n x <? 0 then 0 else done_n x
  | FileRead | FileWrite => if done_n x <? 0 then -1 else done_n x
  end.

(** The assignment to [t->io] by [asyncio_fread] and the like. *)
Definition aio_setup (fd n off : Z) : io := Io fd n 0 off 0 false.

(** A submission that fails with [ret]. *)
Definition io_failed (x : io) (ret : Z) : io := Io (io_fd x) (req_n x) (-1) (offset x) (- ret) true.

(** The body of [diskio_worker] for a completion with result [res]. *)
Definition io_completed (x : io) (res : Z) : io :=
  if res <? 0 then Io (io_fd x) (req_n x) (-1) (offset x) (- res) true
  else Io (io_fd x) (req_n x) res (offset x) 0 true.

(** The ring of the task's thread; reading past [diskio_ring_map] is
    undefined. *)
Definition ring_of (tk : utask) : option nat := if decide (u_sched tk < DISKIO_THREAD_POOL_SIZE)%nat then Some (u_sched tk) else None.

(** [task_yield], and the resumption of the task by its scheduler thread when
    it is in the ready queue: [scheduler_run] also takes it off the wait
    queue. *)
Definition u_resume (w : uring) (i : nat) (tk : utask) (p : upc) : option uring :=
  if decide (i ∈ u_ready w)
  then Some (URing (prepared w) (in_flight w) (remove_first i (u_ready w)) (remove_first i (u_waitq w)) (<[i := UTask (u_sched tk) p (u_io tk)]> (u_tasks w)))
  else None.

(** The environment: as liburing documents, [io_uring_submit] hands the
    prepared entries of its ring to the kernel in order, [n] of them when it
    returns [n], and the others stay.  What it takes from the ring [r], and
    what is left in the rings. *)
Fixpoint submit (r n : nat) (l : list (nat * nat)) : list nat * list (nat * nat) :=
  match l with
  | [] => ([], [])
  | (r', t) :: l' =>
      if decide (r' = r) then
        match n with
        | O => ([], l)
        | S n => let '(sent, rest) := submit r n l' in (t :: sent, rest)
        end
      else let '(sent, rest) := submit r n l' in (sent, (r', t) :: rest)
  end.

(** The four [async_] functions; [sqe]: [io_uring_get_sqe] finds an entry;
    [ret]: what [io_uring_submit] returns, the number of entries it takes or
    a negative error.  Between [io_uring_get_sqe] and the submission no other
    task of the thread runs, so the entry joins the ring at the submission.
    [async_file_read] has no return after a failed submission. *)
Definition async_io (w : uring) (i : nat) (tk : utask) (sqe : bool) (ret : Z) : option uring :=
  match u_pc tk with
  | UOut _ => None
  | UGetSqe o => ring_of tk ;; Some (u_goto w i tk (if sqe then UPush o else UNoSqe o))
  | UNoSqe o => Some (u_goto w i tk (UNoSqeAsleep o))
  | UNoSqeAsleep o => u_resume w i tk (UGetSqe o)
  | UPush o => Some (URing (prepared w) (in_flight w) (u_ready w) (i :: u_waitq w) (<[i := UTask (u_sched tk) (USubmit o) (u_io tk)]> (u_tasks w)))
  | USubmit o =>
      let entries := prepared w ++ [(u_sched tk, i)] in
      if ret <? 0 then
        let x := io_failed (u_io tk) ret in
        let p := if decide (o = FileRead) then UYield o false else UOut (Some (aio_result o x)) in
        Some (URing entries (in_flight w) (u_ready w) (u_waitq w) (<[i := UTask (u_sched tk) p x]> (u_tasks w)))
      else
        let '(sent, rest) := submit (u_sched tk) (Z.to_nat ret) entries in
        Some (URing rest (in_flight w ++ sent) (u_ready w) (u_waitq w) (<[i := UTask (u_sched tk) (UYield o true) (u_io tk)]> (u_tasks w)))
  | UYield o a => Some (u_goto w i tk (UAsleep o a))
  | UAsleep o a => u_resume w i tk (UOut (Some (aio_result o (u_io tk))))
  end.

(** [Call]: [t->io = ...] and the call of the [async_] function; [Do]: its
    next step; [Complete]: [diskio_worker] handles the completion of task
    [t]. *)
Inductive uaction := Call (i : nat) (o : aop) (fd n off : Z) | Do (i : nat) (sqe : bool) (ret : Z) | Complete (t : nat) (res : Z).

Definition uact (w : uring) (a : uaction) : option uring :=
  match a with
  | Call i o fd n off =>
      tk ← u_tasks w !! i;
      match u_pc tk with UOut _ => Some (u_set_io w i tk (aio_setup fd n off) (UGetSqe o)) | _ => None end
  | Do i sqe ret => tk ← u_tasks w !! i; async_io w i tk sqe ret
  | Complete t res =>
      tk ← u_tasks w !! t;
      if decide (t ∈ in_flight w)
      then Some (URing (prepared w) (remove_first t (in_flight w)) (u_ready w ++ [t]) (u_waitq w) (<[t := UTask (u_sched tk) (u_pc tk) (io_completed (u_io tk) res)]> (u_tasks w)))
      else None
  end.

Fixpoint uacts (w : uring) (l : list uaction) : option uring :=
  match l with [] => Some w | a :: l => w ← uact w a; uacts w l end.

(** Tasks on the given scheduler threads, with no operation under way. *)
Definition uring_start (scheds : list nat) : uring := URing [] [] [] [] ((fun j => UTask j (UOut None) (Io (-1) 0 0 0 0 false)) <$> scheds).

(** * Accepted requests wake their task once; the others never *)

(** An accepted request that the task has not been resumed for. *)
Definition pending (p : upc) : bool := match p with UYield _ true | UAsleep _ true => true | _ => false end.
(** From the push on the wait queue to the return. *)
Definition in_waitq (p : upc) : bool := match p with USubmit _ | UYield _ _ | UAsleep _ _ => true | _ => false end.
(** The task has given up its thread, or will, and the kernel has no request
    of it. *)
Definition abandoned (p : upc) : bool := match p with UYield _ false | UAsleep _ false | UNoSqe _ | UNoSqeAsleep _ => true | _ => false end.

(** The result of a completed request. *)
Definition has_result (x : io) : Prop := io_done x = true /\ (0 <= done_n x /\ io_err x = 0 \/ done_n x = -1 /\ 0 < io_err x).

Lemma io_completed_result (x : io) (res : Z) : has_result (io_completed x res).
Proof. unfold io_completed, has_result. destruct (Z.ltb_spec res 0); cbn; split; try done; [right|left]; lia. Qed.

(** Entries of task [i] in the rings. *)
Definition count_p (i : nat) (l : list (nat * nat)) : Z := count_t i l.*2.

Lemma count_p_snoc (i r t : nat) (l : list (nat * nat)) : count_p i (l ++ [(r, t)]) = count_p i l + is_t i t.
Proof. unfold count_p. by rewrite fmap_app, (count_snoc i t). Qed.

Lemma count_p_cons (i r t : nat) (l : list (nat * nat)) : count_p i ((r, t) :: l) = is_t i t + count_p i l.
Proof. apply count_cons. Qed.

Lemma count_p_pos (i : nat) (l : list (nat * nat)) : i ∈ l.*2 <-> 1 <= count_p i l.
Proof. apply count_pos. Qed.

(** A submission moves entries and loses none. *)
Lemma submit_count (i r : nat) (l : list (nat * nat)) : forall n sent rest, submit r n l = (sent, rest) ->
  count_t i sent + count_p i rest = count_p i l.
Proof.
  induction l as [|[r' t] l IH]; intros n sent rest; cbn [submit]; [by intros [= <- <-]|]. case_decide.
  - destruct n as [|n]; [by intros [= <- <-]|]. destruct (submit r n l) as [s k] eqn:E. intros [= <- <-].
    rewrite count_p_cons, count_cons, <- (IH _ _ _ E). lia.
  - destruct (submit r n l) as [s k] eqn:E. intros [= <- <-]. rewrite !count_p_cons, <- (IH _ _ _ E). lia.
Qed.

(** What holds of the task [i], none of whose submissions has failed. *)
Record task_ok (w : uring) (i : nat) (tk : utask) : Prop := {
  UI_tok : count_p i (prepared w) + count_t i (in_flight w) + count_t i (u_ready w) = b2z (pending (u_pc tk));
  UI_wait : in_waitq (u_pc tk) = true -> i ∈ u_waitq w;
  UI_flight : i ∈ (prepared w).*2 \/ i ∈ in_flight w -> io_done (u_io tk) = false;
  UI_ready : i ∈ u_ready w -> has_result (u_io tk);
  UI_fresh : match u_pc tk with UGetSqe _ | UNoSqe _ | UNoSqeAsleep _ | UPush _ | USubmit _ => io_done (u_io tk) = false | _ => True end
}.
Definition uring_inv (i : nat) (w : uring) : Prop := forall tk, u_tasks w !! i = Some tk -> task_ok w i tk.

(** The steps, with the states they lead to; [x] and [p] are the task's new
    record and program point, [b] marks the failed submissions. *)
Inductive umove (w : uring) (i : nat) (tk : utask) : bool -> list (nat * nat) -> list nat -> list nat -> list nat -> io -> upc -> Prop :=
| um_call r o fd n off : u_pc tk = UOut r -> umove w i tk false (prepared w) (in_flight w) (u_ready w) (u_waitq w) (aio_setup fd n off) (UGetSqe o)
| um_sqe o p : u_pc tk = UGetSqe o -> p = UPush o \/ p = UNoSqe o -> umove w i tk false (prepared w) (in_flight w) (u_ready w) (u_waitq w) (u_io tk) p
| um_no_sqe o : u_pc tk = UNoSqe o -> umove w i tk false (prepared w) (in_flight w) (u_ready w) (u_waitq w) (u_io tk) (UNoSqeAsleep o)
| um_again o : u_pc tk = UNoSqeAsleep o -> i ∈ u_ready w ->
    umove w i tk false (prepared w) (in_flight w) (remove_first i (u_ready w)) (remove_first i (u_waitq w)) (u_io tk) (UGetSqe o)
| um_push o : u_pc tk = UPush o -> umove w i tk false (prepared w) (in_flight w) (u_ready w) (i :: u_waitq w) (u_io tk) (USubmit o)
| um_fail o ret p : u_pc tk = USubmit o -> ret < 0 -> p = UYield FileRead false /\ o = FileRead \/ (exists r, p = UOut r) ->
    umove w i tk true (prepared w ++ [(u_sched tk, i)]) (in_flight w) (u_ready w) (u_waitq w) (io_failed (u_io tk) ret) p
| um_submit o n sent rest : u_pc tk = USubmit o -> submit (u_sched tk) n (prepared w ++ [(u_sched tk, i)]) = (sent, rest) ->
    umove w i tk false rest (in_flight w ++ sent) (u_ready w) (u_waitq w) (u_io tk) (UYield o true)
| um_yield o a : u_pc tk = UYield o a -> umove w i tk false (prepared w) (in_flight w) (u_ready w) (u_waitq w) (u_io tk) (UAsleep o a)
| um_resume o a : u_pc tk = UAsleep o a -> i ∈ u_ready w ->
    umove w i tk false (prepared w) (in_flight w) (remove_first i (u_ready w)) (remove_first i (u_waitq w)) (u_io tk) (UOut (Some (aio_result o (u_io tk))))
| um_complete res : i ∈ in_flight w ->
    umove w i tk false (prepared w) (remove_first i (in_flight w)) (u_ready w ++ [i]) (u_waitq w) (io_completed (u_io tk) res) (u_pc tk).

(** A failed submission of task [i]. *)
Definition fails (i : nat) (a : uaction) : Prop := match a with Do j _ ret => j = i /\ ret < 0 | _ => False end.

Lemma uact_move w a w' : uact w a = Some w' -> exists i tk b pr f r q x p, u_tasks w !! i = Some tk /\ umove w i tk b pr f r q x p /\
  w' = URing pr f r q (<[i := UTask (u_sched tk) p x]> (u_tasks w)) /\ (b = true -> fails i a).
Proof.
  intros E. destruct a as [i o fd n off|i sqe ret|t res]; cbn [uact] in E.
  - destruct (u_tasks w !! i) as [tk|] eqn:Hi; [|done]. cbn [mbind option_bind] in E. destruct (u_pc tk) eqn:Hp; try done. injection E as <-.
    do 9 eexists. split; [done|]. split; [by eapply um_call|done].
  - destruct (u_tasks w !! i) as [tk|] eqn:Hi; [|done]. cbn [mbind option_bind] in E. unfold async_io, u_resume in E.
    destruct (u_pc tk) eqn:Hp; try done.
    + unfold ring_of in E. case_decide; [|done]. injection E as <-. do 9 eexists. split; [done|]. split; [apply (um_sqe _ _ _ o (if sqe then UPush o else UNoSqe o)); [done|]; destruct sqe; auto|done].
    + injection E as <-. do 9 eexists. split; [done|]. split; [by eapply um_no_sqe|done].
    + case_decide; [|done]. injection E as <-. do 9 eexists. split; [done|]. split; [by eapply um_again|done].
    + injection E as <-. do 9 eexists. split; [done|]. split; [by eapply um_push|done].
    + cbv zeta in E. destruct (Z.ltb_spec ret 0).
      * injection E as <-. do 9 eexists. split; [done|]. split; [|split; [done|intros _; by split]].
        eapply um_fail; [done|done|]. case_decide; [subst; by left|right; by eexists].
      * destruct (submit _ _ _) as [sent rest] eqn:Es. injection E as <-. do 9 eexists. split; [done|]. split; [by eapply um_submit|done].
    + injection E as <-. do 9 eexists. split; [done|]. split; [by eapply um_yield|done].
    + case_decide; [|done]. injection E as <-. do 9 eexists. split; [done|]. split; [by eapply um_resume|done].
  - destruct (u_tasks w !! t) as [tk|] eqn:Hi; [|done]. cbn [mbind option_bind] in E. case_decide; [|done]. injection E as <-.
    do 9 eexists. split; [done|]. split; [by eapply um_complete|done].
Qed.

(** A task other than the one that moves: only its entries may have been
    taken by the kernel. *)
Lemma umove_other w i tk b pr f r q x p j : umove w i tk b pr f r q x p -> j <> i ->
  count_p j pr + count_t j f = count_p j (prepared w) + count_t j (in_flight w) /\ count_t j r = count_t j (u_ready w) /\
  (j ∈ u_waitq w -> j ∈ q).
Proof.
  intros M Hne.
  destruct M as [| | | | | |o n sent rest Hp Es| | |];
    [..|pose proof (submit_count j _ _ _ _ _ Es) as Hc; rewrite count_p_snoc, is_t_other in Hc by done; rewrite count_app; split; [lia|done]| | |];
    rewrite ?count_p_snoc, ?count_cons, ?count_snoc, ?count_remove, ?is_t_other by done;
    (split; [lia|]; split; [lia|]); try done; try (intros Hj; by right);
    rewrite !count_pos; (destruct (decide (i ∈ u_waitq w)); [rewrite count_remove, is_t_other by done; lia|by rewrite remove_first_absent]).
Qed.

(** The task that moves. *)
Lemma umove_self w i tk pr f r q x p l : task_ok w i tk -> umove w i tk false pr f r q x p ->
  task_ok (URing pr f r q l) i (UTask (u_sched tk) p x).
Proof.
  intros [IT IW IF IR IH] M. pose proof (count_t_nonneg i (prepared w).*2) as N0. fold (count_p i (prepared w)) in N0.
  pose proof (count_t_nonneg i (in_flight w)) as N1. pose proof (count_t_nonneg i (u_ready w)) as N2.
  assert (Htok : forall q', q' = q -> (in_waitq p = true -> i ∈ q') -> count_p i pr + count_t i f + count_t i r = b2z (pending p) ->
    (1 <= count_p i pr + count_t i f -> io_done x = false) -> (1 <= count_t i r -> has_result x) ->
    match p with UGetSqe _ | UNoSqe _ | UNoSqeAsleep _ | UPush _ | USubmit _ => io_done x = false | _ => True end ->
    task_ok (URing pr f r q l) i (UTask (u_sched tk) p x)).
  { intros q' -> ? ? Hfl Hr ?. pose proof (count_t_nonneg i pr.*2) as N3. fold (count_p i pr) in N3. pose proof (count_t_nonneg i f).
    split; cbn [prepared in_flight u_ready u_waitq u_pc u_io]; try done.
    - rewrite count_p_pos, count_pos. intros Hf. apply Hfl. lia.
    - by rewrite count_pos. }
  rewrite count_p_pos, count_pos in IF. rewrite count_pos in IR.
  remember false as b eqn:Eb.
  assert (i ∈ in_flight w -> pending (u_pc tk) = true) as Hcomplete.
  { intros Hf%count_pos. destruct (pending (u_pc tk)); [done|cbn [b2z] in IT; lia]. }
  apply (Htok q eq_refl); clear Htok; destruct M; try done;
    repeat match goal with
    | K : u_pc tk = _ |- _ => rewrite K in *; clear K
    | K : _ \/ _ |- _ => destruct K as [K|K] | K : _ /\ _ |- _ => destruct K | K : exists _, _ |- _ => destruct K
    | K : submit _ _ _ = _ |- _ => apply (submit_count i) in K; rewrite count_p_snoc, is_t_self in K
    | K : i ∈ u_ready w |- _ => apply count_pos in K as ?; revert K
    | K : i ∈ in_flight w |- _ => apply count_pos in K as ?; revert K end; intros;
    subst; cbn [pending in_waitq b2z] in *; rewrite ?count_app, ?count_cons, ?count_snoc, ?count_remove, ?is_t_self in * by done;
    auto; try lia; try (apply IF; lia); try (by left); try (destruct a; cbn [pending in_waitq b2z] in *; auto; lia).
  - rewrite (Hcomplete H) in *. cbn [b2z] in *. rewrite count_nil. lia.
  - rewrite (Hcomplete H) in *. cbn [b2z] in *. lia.
  - apply io_completed_result.
  - specialize (Hcomplete H). by destruct (u_pc tk).
Qed.

Lemma uact_inv i w a w' : uring_inv i w -> ~ fails i a -> uact w a = Some w' -> uring_inv i w'.
Proof.
  intros I Hok E. destruct (uact_move w a w' E) as (j & tk & b & pr & f & r & q & x & p & Hj & M & -> & Hb).
  intros tki Hi. cbn [u_tasks] in Hi. destruct (insert_cases _ _ _ _ _ _ Hj Hi) as [[-> ->]|[Hne Hi']].
  - destruct b; [by destruct Hok; auto|]. eapply umove_self; [by apply I|done].
  - destruct (umove_other w j tk b pr f r q x p i M Hne) as (E1 & E2 & E3). destruct (I tki Hi') as [IT IW IF IR IH].
    rewrite count_p_pos, count_pos in IF. rewrite count_pos in IR.
    pose proof (count_t_nonneg i pr.*2) as N1. pose proof (count_t_nonneg i f). pose proof (count_t_nonneg i (prepared w).*2) as N2.
    fold (count_p i pr) in N1. fold (count_p i (prepared w)) in N2. pose proof (count_t_nonneg i (in_flight w)).
    split; cbn [prepared in_flight u_ready u_waitq]; [by rewrite E2, E1|auto| | |done].
    + rewrite count_p_pos, count_pos. intros Hf. apply IF. lia.
    + rewrite count_pos, E2. done.
Qed.

Lemma uacts_inv i l : Forall (fun a => ~ fails i a) l -> forall w w', uring_inv i w -> uacts w l = Some w' -> uring_inv i w'.
Proof.
  induction 1 as [|a l Ha _ IH]; intros w w' I E; cbn [uacts] in E; [by simplify_eq|].
  destruct (uact w a) as [w1|] eqn:E1; [|done]. by eapply IH, E; eapply uact_inv.
Qed.

Lemma start_inv scheds i : uring_inv i (uring_start scheds).
Proof.
  intros tk (j & -> & _)%list_lookup_fmap_Some_1. split; try done; cbn; try by intros [?%not_elem_of_nil|?%not_elem_of_nil].
  by intros ?%not_elem_of_nil.
Qed.

(** C29: in every state that any interleaving of tasks, completions and
    resumptions reaches, and whatever submissions of other tasks fail, a
    task none of whose own submissions has failed and that sleeps on its
    request is in exactly one of three places: its entry is still in the
    ring of its thread, or the kernel has the request and its completion
    will put the task on the ready queue with its result, or the task is on
    the ready queue, exactly once, with its result set, and its next step
    returns that result: no completion is lost and none resumes the task
    twice or early.  ([stale_entry_resumes]: after a failed submission the
    entry stays in the ring, and all of this may fail.) *)
Theorem aio_wakes_once scheds l w i tk o (Hrun : uacts (uring_start scheds) l = Some w) (Hok : Forall (fun a => ~ fails i a) l)
  (Hi : u_tasks w !! i = Some tk) (Hp : u_pc tk = UAsleep o true) :
  let places := (count_p i (prepared w), count_t i (in_flight w), count_t i (u_ready w)) in
  (places = (1, 0, 0) \/ places = (0, 1, 0)) /\ io_done (u_io tk) = false /\
    (i ∈ in_flight w -> forall res, exists w', uact w (Complete i res) = Some w' /\ i ∈ u_ready w') \/
  places = (0, 0, 1) /\ has_result (u_io tk) /\
    forall sqe ret, exists w', uact w (Do i sqe ret) = Some w' /\ i ∉ u_ready w' /\
      u_tasks w' !! i = Some (UTask (u_sched tk) (UOut (Some (aio_result o (u_io tk)))) (u_io tk)).
Proof.
  cbv zeta. assert (I : uring_inv i w) by (by eapply uacts_inv; [exact Hok|apply start_inv|]). destruct (I tk Hi) as [IT _ IF IR _]. rewrite Hp in IT.
  cbn [pending b2z] in IT. rewrite count_p_pos, count_pos in IF. rewrite count_pos in IR.
  pose proof (count_t_nonneg i (in_flight w)). pose proof (count_t_nonneg i (u_ready w)).
  pose proof (count_t_nonneg i (prepared w).*2) as N. fold (count_p i (prepared w)) in N. destruct (decide (count_t i (u_ready w) = 0)) as [Hr|Hr].
  - left. split; [|split; [apply IF; lia|]].
    + assert (count_p i (prepared w) = 1 /\ count_t i (in_flight w) = 0 \/ count_p i (prepared w) = 0 /\ count_t i (in_flight w) = 1)
        as [[-> ->]|[-> ->]] by lia; rewrite Hr; auto.
    + intros Hf res. cbn [uact]. rewrite Hi. cbn [mbind option_bind]. rewrite decide_True by done. eexists. split; [done|].
      cbn. rewrite elem_of_app. right. by left.
  - right. assert (Hin : i ∈ u_ready w) by (apply count_pos; lia). split; [|split; [apply IR; lia|]].
    { assert (count_p i (prepared w) = 0 /\ count_t i (in_flight w) = 0 /\ count_t i (u_ready w) = 1) as (-> & -> & ->) by lia. done. }
   
    intros sqe ret. cbn [uact]. rewrite Hi. cbn [mbind option_bind]. unfold async_io, u_resume. rewrite Hp, decide_True by done.
    eexists. split; [done|]. cbn [u_ready u_tasks]. split; [apply count_zero; rewrite count_remove, is_t_self by done; lia|]. by eapply insert_at.
Qed.

(** A write whose submission fails, then a read that is submitted: the ring
    still holds the entry of the write, so the submission takes both, and
    the completion of the write comes first. *)
Definition write_fails : list uaction := [Call 0 FileWrite 3 16 0; Do 0 true 0; Do 0 true 0; Do 0 true (-11)].
Definition read_after : list uaction := [Call 0 FileRead 4 8 0; Do 0 true 0; Do 0 true 0; Do 0 true 2; Do 0 true 0; Complete 0 16; Do 0 true 0].

(** After a failed submission the entry stays in the ring and runs with the
    next one: the read that follows returns 16, the result of the write, for
    a buffer of 8 bytes, while the kernel still has the read; the completion
    of the read then puts the task, which has returned, on the ready queue
    once more. *)
Theorem stale_entry_resumes :
  exists w, uacts (uring_start [0%nat]) (write_fails ++ read_after) = Some w /\ in_flight w = [0%nat] /\
    u_tasks w !! 0%nat = Some (UTask 0 (UOut (Some 16)) (Io 4 8 16 0 0 true)) /\
    exists w', uact w (Complete 0 8) = Some w' /\ u_ready w' = [0%nat].
Proof. eexists. split; [vm_compute; reflexivity|]. split; [done|]. split; [done|]. eexists. by split. Qed.

(** Task [i] has given up its thread and the kernel has no request of it; at
    most an entry in the ring of its thread, which no other task uses. *)
Definition lost (w : uring) (i : nat) : Prop := exists tk, u_tasks w !! i = Some tk /\ abandoned (u_pc tk) = true /\
  i ∉ in_flight w /\ i ∉ u_ready w /\ (forall r, (r, i) ∈ prepared w -> r = u_sched tk) /\
  forall j tkj, u_tasks w !! j = Some tkj -> j <> i -> u_sched tkj <> u_sched tk.

(** A submission on another ring. *)
Lemma submit_other (i r r' : nat) (l : list (nat * nat)) : r' <> r -> forall n sent rest, submit r n l = (sent, rest) ->
  (forall k, (k, i) ∈ l -> k = r') -> i ∉ sent /\ (forall k, (k, i) ∈ rest -> k = r').
Proof.
  intros Hne. induction l as [|[k t] l IH]; intros n sent rest; cbn [submit].
  { intros [= <- <-] Hl. split; [apply not_elem_of_nil|done]. }
  case_decide as Ek.
  - destruct n as [|n]; [intros [= <- <-] Hl; split; [apply not_elem_of_nil|done]|]. destruct (submit r n l) as [s m] eqn:E. intros [= <- <-] Hl.
    destruct (IH _ _ _ E) as [IH1 IH2]; [intros k' Hk; apply Hl; by right|]. split; [|done]. apply not_elem_of_cons. split; [|done].
    intros ->. apply Hne. rewrite <- Ek. symmetry. apply Hl. by left.
  - destruct (submit r n l) as [s m] eqn:E. intros [= <- <-] Hl.
    destruct (IH _ _ _ E) as [IH1 IH2]; [intros k' Hk; apply Hl; by right|]. split; [done|].
    intros k' [[= -> ->]|Hk]%elem_of_cons; [apply Hl; by left|auto].
Qed.

(** A step of another task leaves the lost one where it is. *)
Lemma lost_kept w j tk b pr f r q x p i s : umove w j tk b pr f r q x p -> j <> i -> u_sched tk <> s ->
  i ∉ in_flight w -> i ∉ u_ready w -> (forall k, (k, i) ∈ prepared w -> k = s) ->
  i ∉ f /\ i ∉ r /\ forall k, (k, i) ∈ pr -> k = s.
Proof.
  intros M Hne Hs Hf Hr Hpr.
  assert (Hsnoc : forall k, (k, i) ∈ prepared w ++ [(u_sched tk, j)] -> k = s)
    by (intros k [Hk|[= -> ->]%list_elem_of_singleton]%elem_of_app; [by apply Hpr|done]).
  destruct M as [| | | | | |o n sent rest Hp Es| | |]; try done.
  - split; [done|]. split; [|done]. by intros Hin%elem_of_remove.
  - destruct (submit_other i _ s _ ltac:(done) _ _ _ Es Hsnoc) as [? ?]. split; [|done]. rewrite elem_of_app. tauto.
  - split; [done|]. split; [|done]. by intros Hin%elem_of_remove.
  - split; [by intros Hin%elem_of_remove|]. split; [|done]. rewrite elem_of_app, list_elem_of_singleton. intros [?| ->]; done.
Qed.

Lemma aio_lost_step w a w' i : lost w i -> uact w a = Some w' -> lost w' i.
Proof.
  intros (tki & Hi & Hab & Hf & Hr & Hpr & Hs) E. destruct (uact_move w a w' E) as (j & tk & b & pr & f & r & q & x & p & Hj & M & -> & _).
  assert (Hsch : forall k tkk, <[j := UTask (u_sched tk) p x]> (u_tasks w) !! k = Some tkk -> k <> i -> u_sched tkk <> u_sched tki).
  { intros k tkk Hk Hki. destruct (insert_cases _ _ _ _ _ _ Hj Hk) as [[-> ->]|[_ Hk']]; cbn [u_sched]; by eapply Hs. }
  destruct (decide (j = i)) as [->|Hne].
  - assert (tki = tk) as -> by congruence. eexists. cbn [u_tasks in_flight u_ready prepared]. split; [by eapply insert_at|]. cbn [u_pc u_sched].
    split_and!; destruct M; repeat match goal with K : u_pc tk = _ |- _ => rewrite K in * end; cbn in *; try done.
  - exists tki. cbn [u_tasks in_flight u_ready prepared]. rewrite insert_other by done. split; [done|]. split; [done|].
    destruct (lost_kept w j tk b pr f r q x p i (u_sched tki) M Hne) as (? & ? & ?); try done. by eapply Hs.
Qed.

Lemma aio_lost_forever l : forall w w' i, lost w i -> uacts w l = Some w' -> lost w' i.
Proof.
  induction l as [|a l IH]; intros w w' i Hl E; cbn [uacts] in E; [by simplify_eq|].
  destruct (uact w a) as [w1|] eqn:E1; [|done]. eapply IH, E. by eapply aio_lost_step.
Qed.

(** A read of a file whose submission fails. *)
Definition failed_read : list uaction := [Call 0 FileRead 3 16 0; Do 0 true 0; Do 0 true 0; Do 0 true (-11)].
Definition failed_state : uring :=
  URing [(0%nat, 0%nat)] [] [] [0%nat] [UTask 0 (UYield FileRead false) (Io 3 16 (-1) 0 11 true); UTask 1 (UOut None) (Io (-1) 0 0 0 0 false)].

Lemma failed_read_state : uacts (uring_start [0%nat; 1%nat]) failed_read = Some failed_state.
Proof. vm_compute. reflexivity. Qed.

Lemma uacts_app l k : forall w, uacts w (l ++ k) = (w ← uacts w l; uacts w k).
Proof. induction l as [|a l IH]; intros w; cbn [app uacts]; [done|]. destruct (uact w a); [apply IH|done]. Qed.

(** After a failed submission [async_file_read] yields all the same.  When no
    other task uses the ring of its thread, no completion will come: in no
    continuation of the schedule does the task ever return from the read. *)
Theorem async_file_read_hangs (l : list uaction) (w : uring) (Hrun : uacts (uring_start [0%nat; 1%nat]) (failed_read ++ l) = Some w) :
  exists tk, u_tasks w !! 0%nat = Some tk /\ abandoned (u_pc tk) = true.
Proof.
  rewrite uacts_app, failed_read_state in Hrun. cbn [mbind option_bind] in Hrun.
  destruct (aio_lost_forever l failed_state w 0) as (tk & Hi & Ha & _); [|done|eauto].
  exists (UTask 0 (UYield FileRead false) (Io 3 16 (-1) 0 11 true)). split_and!; try done; [apply not_elem_of_nil..| |].
  - by intros r [= ->]%list_elem_of_singleton.
  - intros [|[|j]] tkj Hj Hne; [done| |done]. by injection Hj as <-.
Qed.

(** With another task on the ring, its next submission takes the forgotten
    entry along, and the sleeping task returns after all. *)
Theorem async_file_read_rescued : exists w, uacts (uring_start [0%nat; 0%nat])
    (failed_read ++ [Do 0 true 0; Call 1 FileRead 4 8 0; Do 1 true 0; Do 1 true 0; Do 1 true 2; Complete 0 5; Do 0 true 0]) = Some w /\
  u_tasks w !! 0%nat = Some (UTask 0 (UOut (Some 5)) (Io 3 16 5 0 0 true)).
Proof. eexists. split; [vm_compute; reflexivity|done]. Qed.

(** The rings are as many as the I/O threads, 4, and indexed by the
    scheduler thread, of which there are 12: a task can reach the submission
    ring exactly when its thread is one of the first four; on the others the
    index is past the end of [diskio_ring_map]. *)
Theorem rings_cover_four_threads (j : nat) (o : aop) (fd n off : Z) (sqe : bool) (ret : Z) :
  (exists w, uacts (uring_start [j]) [Call 0 o fd n off; Do 0 sqe ret] = Some w) <-> (j < DISKIO_THREAD_POOL_SIZE)%nat.
Proof.
  simpl. unfold async_io, ring_of. cbn [u_pc u_sched]. destruct (decide (j < DISKIO_THREAD_POOL_SIZE)%nat) as [Hj|Hj]; cbn [mbind option_bind].
  - split; [done|]. intros _. by eexists.
  - split; [by intros [w Hw]|done].
Qed.

(** ** Instances *)

(** Task 0 writes; meanwhile a submission of task 1, on the same ring, fails,
    and the completed write of task 0 is about to be returned. *)
Definition write_and_complete : list uaction :=
  [Call 0 FileWrite 3 16 0; Do 0 true 0; Do 0 true 0; Do 0 true 1; Call 1 StdoutWrite 1 4 0; Do 1 true 0; Do 1 true 0; Do 1 true (-16);
   Complete 0 9; Do 0 true 0].
Definition completed_state : uring :=
  URing [(0%nat, 1%nat)] [] [0%nat] [1%nat; 0%nat] [UTask 0 (UAsleep FileWrite true) (Io 3 16 9 0 0 true); UTask 0 (UOut (Some 0)) (Io 1 4 (-1) 0 16 true)].

Lemma aio_wakes_once_witness : uacts (uring_start [0%nat; 0%nat]) write_and_complete = Some completed_state /\ count_t 0 (u_ready completed_state) = 1 /\
  exists w', uact completed_state (Do 0 true 0) = Some w' /\ 0%nat ∉ u_ready w'.
Proof.
  split; [vm_compute; reflexivity|].
  destruct (aio_wakes_once [0%nat; 0%nat] write_and_complete completed_state 0 (UTask 0 (UAsleep FileWrite true) (Io 3 16 9 0 0 true)) FileWrite)
    as [(_ & Hr & _)|(_ & _ & Hnext)]; [vm_compute; reflexivity| |reflexivity|reflexivity|vm_compute in Hr; discriminate|].
  - repeat (apply Forall_cons; split; [cbn; lia|]). by apply Forall_nil.
  - split; [vm_compute; reflexivity|]. destruct (Hnext true 0) as (w' & E & Hn & _). by exists w'.
Defined.

Lemma async_file_read_hangs_witness : exists w, uacts (uring_start [0%nat; 1%nat]) (failed_read ++ [Do 0 true 0]) = Some w /\
  exists tk, u_tasks w !! 0%nat = Some tk /\ abandoned (u_pc tk) = true.
Proof.
  eexists. split; [vm_compute; reflexivity|]. eapply (async_file_read_hangs [Do 0 true 0]). vm_compute. reflexivity.
Defined.
