(* ===== verification/Netio.v ===== *)
(** * Netio: asynchronous network I/O (src/runtime/src/netio.c, epoll.c)

    A task registers its descriptor with the poller for one event, enters
    the wait queue and yields; the I/O thread [netio_worker] gets the event,
    performs the operation, and either registers the descriptor again or
    pushes the task on its ready queue.  The epoll instance is a parameter;
    the results of the socket calls are part of the actions.  Buffers of
    different operations are taken to be disjoint: an operation carries the
    bytes of its own buffer. *)

From S2P Require Import Prelude Threads Tokens.

Definition EAGAIN : Z := 11.
Definition EEXIST : Z := 17.

(** ** The poller (epoll.c, netpoll.h) *)
Definition NETPOLL_IN : Z := 1.
Definition NETPOLL_OUT : Z := 2.
Definition NETPOLL_ERR : Z := 4.
Definition NETPOLL_HUP : Z := 8.
Definition NETPOLL_ONESHOT : Z := 16.

Definition EPOLLIN : Z := 1.
Definition EPOLLOUT : Z := 4.
Definition EPOLLERR : Z := 8.
Definition EPOLLHUP : Z := 16.
Definition EPOLLONESHOT : Z := 2 ^ 30.

Definition or_if (c : Z) (bit e : Z) : Z := if truthy c then Z.lor e bit else e.

Definition to_epoll_events (ev : Z) : Z :=
  let e := or_if (Z.land ev NETPOLL_IN) EPOLLIN 0 in
  let e := or_if (Z.land ev NETPOLL_OUT) EPOLLOUT e in
  let e := or_if (Z.land ev NETPOLL_ERR) EPOLLERR e in
  let e := or_if (Z.land ev NETPOLL_HUP) EPOLLHUP e in
  or_if (Z.land ev NETPOLL_ONESHOT) EPOLLONESHOT e.

Definition from_epoll_events (ev : Z) : Z :=
  let e := or_if (Z.land ev EPOLLIN) NETPOLL_IN 0 in
  let e := or_if (Z.land ev EPOLLOUT) NETPOLL_OUT e in
  let e := or_if (Z.land ev EPOLLERR) NETPOLL_ERR e in
  or_if (Z.land ev EPOLLHUP) NETPOLL_HUP e.

(** [epoll_ctl] on the instance, with the descriptor, the events and the
    task as user data: 0 or the error number; [epoll_wait] reporting an event
    of a descriptor. *)
Class Epoll (E : Type) := {
  ctl_add : E -> Z -> Z -> nat -> Z * E;
  ctl_mod : E -> Z -> Z -> nat -> Z * E;
  ctl_del : E -> Z -> Z * E;
  ep_event : E -> Z -> option (nat * E)
}.

(** ** The operation of a task *)
Inductive nop := IO_ACCEPT | IO_READ | IO_WRITE | IO_CONNECT.

#[export] Instance nop_eq_dec : EqDecision nop.
Proof. solve_decision. Defined.

(** [io_metadata_t].  [n_buf]: the bytes to send, or those received; [n_sent]
    records what [send] has taken. *)
Record nio := NIo { n_fd : Z; n_buf : list Z; n_req : Z; n_done : Z; n_off : Z; n_err : Z; io_done : bool; n_op : nop; n_sent : list Z }.

Definition with_result (x : nio) (done err : Z) : nio := NIo (n_fd x) (n_buf x) (n_req x) done (n_off x) err (io_done x) (n_op x) (n_sent x).
Definition with_err (x : nio) (err : Z) : nio := with_result x (n_done x) err.
Definition with_done (x : nio) : nio := NIo (n_fd x) (n_buf x) (n_req x) (n_done x) (n_off x) (n_err x) true (n_op x) (n_sent x).
Definition received (x : nio) (l : list Z) : nio :=
  let off := n_off x + Z.of_nat (length l) in NIo (n_fd x) (n_buf x ++ l) (n_req x) off off (n_err x) (io_done x) (n_op x) (n_sent x).
Definition sent (x : nio) (w : Z) : nio :=
  let off := n_off x + w in
  NIo (n_fd x) (n_buf x) (n_req x) off off (n_err x) (io_done x) (n_op x) (n_sent x ++ take (Z.to_nat w) (drop (Z.to_nat (n_off x)) (n_buf x))).

(** The assignment to [t->io] of the four operations. *)
Definition net_io (o : nop) (fd : Z) (buf : list Z) (len : Z) : nio :=
  match o with
  | IO_READ => NIo fd [] len 0 0 0 false o []
  | IO_WRITE => NIo fd buf len 0 0 0 false o []
  | IO_ACCEPT | IO_CONNECT => NIo fd [] 0 0 0 0 false o []
  end.

Definition events_of (o : nop) : Z :=
  match o with IO_ACCEPT | IO_READ => Z.lor NETPOLL_IN NETPOLL_ONESHOT | IO_WRITE | IO_CONNECT => Z.lor NETPOLL_OUT NETPOLL_ONESHOT end.

(** The program point of a task: outside, with the result and [errno] of its
    last operation; at [netpoll_add]; at [netpoll_mod]; at
    [unsafe_ioq_push]; before and after [task_yield]. *)
Inductive npc := NOut (r : option (Z * Z)) | NAdd | NMod | NPush | NYield | NAsleep.

Record ntask := NTask { n_pc : npc; n_io : nio }.

(** What the worker does with an event's task after the system call. *)
Inductive wpc := WNext | WMod (t : nat) | WDel (t : nat) | WPush (t : nat).

(** [batch]: the tasks of the events still to be handled. *)
Record net (E : Type) := Net { ep : E; batch : list nat; worker : wpc; n_ready : list nat; n_waitq : list nat; n_tasks : list ntask }.
Arguments Net {E} _ _ _ _ _ _.
Arguments ep {E} _.
Arguments batch {E} _.
Arguments worker {E} _.
Arguments n_ready {E} _.
Arguments n_waitq {E} _.
Arguments n_tasks {E} _.

(** ** The cases of [netio_worker]

    [res]: the result of the system call; [errno]: its error number, or for
    [getsockopt] the socket's error; [data]: what [recv] delivers. *)
Definition handle (x : nio) (t : nat) (res errno : Z) (data : list Z) : option (nio * wpc) :=
  let x := with_err x 0 in
  match n_op x with
  | IO_CONNECT =>
      if res <? 0 then Some (with_result x (-1) errno, WDel t)
      else if negb (errno =? 0) then Some (with_result x (-1) errno, WDel t)
      else Some (with_result x (n_fd x) (n_err x), WPush t)
  | IO_ACCEPT =>
      if res <? 0 then
        if errno =? EAGAIN then Some (x, WMod t) else Some (with_result x (-1) errno, WPush t)
      else Some (with_result x res (n_err x), WPush t)
  | IO_READ =>
      if 0 <? res then let x := received x data in c_assert (n_done x <=? n_req x) ;; Some (x, WPush t)
      else if res =? 0 then let x := with_result x (n_off x) (n_err x) in c_assert (n_done x <=? n_req x) ;; Some (x, WDel t)
      else if errno =? EAGAIN then Some (x, WMod t)
      else c_assert (-1 <=? n_req x) ;; Some (with_result x (-1) errno, WDel t)
  | IO_WRITE =>
      if res <? 0 then
        if errno =? EAGAIN then Some (x, WMod t) else Some (with_result x (-1) errno, WDel t)
      else
        let x := sent x res in
        if n_off x <? n_req x then Some (x, WMod t) else Some (x, WPush t)
  end.

(** What the kernel may answer: a transfer is not longer than asked for, an
    error has a number. *)
Definition answer_ok (x : nio) (res errno : Z) (data : list Z) : bool :=
  (if res <? 0 then 0 <? errno else true) &&
  match n_op x with
  | IO_READ => (res <? 0) || ((res =? Z.of_nat (length data)) && (res <=? n_req x - n_off x))
  | IO_WRITE => res <=? n_req x - n_off x
  | IO_CONNECT => 0 <=? errno
  | IO_ACCEPT => true
  end.

Section net.
Context `{Epoll E}.
Implicit Types (w : net E).

Definition netpoll_add (e : E) (fd events : Z) (ud : nat) : Z * E := ctl_add e fd (to_epoll_events events) ud.
Definition netpoll_mod (e : E) (fd events : Z) (ud : nat) : Z * E := ctl_mod e fd (to_epoll_events events) ud.
Definition netpoll_del (e : E) (fd : Z) : Z * E := ctl_del e fd.

Definition n_goto w (i : nat) (tk : ntask) (p : npc) : net E :=
  Net (ep w) (batch w) (worker w) (n_ready w) (n_waitq w) (<[i := NTask p (n_io tk)]> (n_tasks w)).
Definition n_ctl w (e : E) : net E := Net e (batch w) (worker w) (n_ready w) (n_waitq w) (n_tasks w).

(** [__public__net_accept], [__public__net_read], [__public__net_write] and
    the connection in [__public__net_dial], from the registration on. *)
Definition net_op w (i : nat) (tk : ntask) : option (net E) :=
  let x := n_io tk in
  match n_pc tk with
  | NOut _ => None
  | NAdd =>
      let '(r, e) := netpoll_add (ep w) (n_fd x) (events_of (n_op x)) i in
      Some (n_goto (n_ctl w e) i tk (if r =? 0 then NPush else if r =? EEXIST then NMod else NOut (Some (-1, r))))
  | NMod =>
      let '(_, e) := netpoll_mod (ep w) (n_fd x) (events_of (n_op x)) i in
      Some (n_goto (n_ctl w e) i tk NPush)
  | NPush => Some (Net (ep w) (batch w) (worker w) (n_ready w) (i :: n_waitq w) (<[i := NTask NYield x]> (n_tasks w)))
  | NYield => Some (n_goto w i tk NAsleep)
  | NAsleep =>
      if decide (i ∈ n_ready w)
      then Some (Net (ep w) (batch w) (worker w) (remove_first i (n_ready w)) (remove_first i (n_waitq w))
                   (<[i := NTask (NOut (Some (n_done x, n_err x))) x]> (n_tasks w)))
      else None
  end.

(** [netpoll_wait] returns the events of the descriptors [fds]. *)
Fixpoint netpoll_wait (e : E) (fds : list Z) : option (list nat * E) :=
  match fds with
  | [] => Some ([], e)
  | fd :: fds => '(t, e) ← ep_event e fd; '(ts, e) ← netpoll_wait e fds; Some (t :: ts, e)
  end.

(** The I/O thread: the system call for the next event, or what follows it. *)
Definition netio_worker w (res errno : Z) (data : list Z) : option (net E) :=
  match worker w with
  | WNext =>
      match batch w with
      | [] => None
      | t :: ts =>
          tk ← n_tasks w !! t;
          if answer_ok (n_io tk) res errno data then
            '(x, p) ← handle (n_io tk) t res errno data;
            Some (Net (ep w) ts p (n_ready w) (n_waitq w) (<[t := NTask (n_pc tk) x]> (n_tasks w)))
          else None
      end
  | WMod t =>
      tk ← n_tasks w !! t;
      let '(_, e) := netpoll_mod (ep w) (n_fd (n_io tk)) (events_of (n_op (n_io tk))) t in
      Some (Net e (batch w) WNext (n_ready w) (n_waitq w) (n_tasks w))
  | WDel t =>
      tk ← n_tasks w !! t;
      let '(_, e) := netpoll_del (ep w) (n_fd (n_io tk)) in
      Some (Net e (batch w) (WPush t) (n_ready w) (n_waitq w) (n_tasks w))
  | WPush t =>
      tk ← n_tasks w !! t;
      Some (Net (ep w) (batch w) WNext (n_ready w ++ [t]) (n_waitq w) (<[t := NTask (n_pc tk) (with_done (n_io tk))]> (n_tasks w)))
  end.

(** [NCall]: the assignment to [t->io]; [NDo]: the task's next step; [Poll]:
    [netpoll_wait] in the I/O thread; [Work]: its next step. *)
Inductive naction := NCall (i : nat) (o : nop) (fd : Z) (buf : list Z) (len : Z) | NDo (i : nat) | Poll (fds : list Z) | Work (res errno : Z) (data : list Z).

Definition nact w (a : naction) : option (net E) :=
  match a with
  | NCall i o fd buf len =>
      tk ← n_tasks w !! i;
      match n_pc tk with
      | NOut _ => Some (Net (ep w) (batch w) (worker w) (n_ready w) (n_waitq w) (<[i := NTask NAdd (net_io o fd buf len)]> (n_tasks w)))
      | _ => None
      end
  | NDo i => tk ← n_tasks w !! i; net_op w i tk
  | Poll fds =>
      match worker w, batch w with
      | WNext, [] => '(ts, e) ← netpoll_wait (ep w) fds; Some (Net e ts WNext (n_ready w) (n_waitq w) (n_tasks w))
      | _, _ => None
      end
  | Work res errno data => netio_worker w res errno data
  end.

Fixpoint nacts w (l : list naction) : option (net E) :=
  match l with [] => Some w | a :: l => w ← nact w a; nacts w l end.

(** [n] tasks with no operation under way. *)
Definition net_start (e : E) (n : nat) : net E := Net e [] WNext [] [] (replicate n (NTask (NOut None) (net_io IO_ACCEPT (-1) [] 0))).
End net.
