(* ===== verification/NetioInv.v ===== *)
(** * NetioInv: the invariant of the network poller

    While every descriptor is used by one task at a time, a task that waits
    is in exactly one place: registered and armed, in the batch of events,
    in the hands of the I/O thread, or in the ready queue. *)

From S2P Require Import Prelude Threads Tokens Netio.

(** What the manual says of [epoll]; [ep_reg]: is the registration of a
    descriptor armed, its events and its user data. *)
Class EpollLaws (E : Type) `{Epoll E} := {
  ep_reg : E -> Z -> option (bool * Z * nat);
  add_new : forall e fd ev t, ep_reg e fd = None ->
    let '(r, e') := ctl_add e fd ev t in
    r = 0 /\ (forall x, ep_reg e' x = if decide (x = fd) then Some (true, ev, t) else ep_reg e x) \/ 0 < r /\ r <> EEXIST /\ e' = e;
  add_old : forall e fd ev t, is_Some (ep_reg e fd) -> ctl_add e fd ev t = (EEXIST, e);
  mod_old : forall e fd ev t, is_Some (ep_reg e fd) ->
    let '(r, e') := ctl_mod e fd ev t in
    r = 0 /\ forall x, ep_reg e' x = if decide (x = fd) then Some (true, ev, t) else ep_reg e x;
  mod_new : forall e fd ev t, ep_reg e fd = None -> (ctl_mod e fd ev t).2 = e;
  del_reg : forall e fd x, ep_reg (ctl_del e fd).2 x = if decide (x = fd) then None else ep_reg e x;
  event_reg : forall e fd t e', ep_event e fd = Some (t, e') -> exists ev, ep_reg e fd = Some (true, ev, t) /\
    forall x, ep_reg e' x = if decide (x = fd) then Some (negb (Z.testbit ev 30), ev, t) else ep_reg e x;
  event_armed : forall e fd ev t, ep_reg e fd = Some (true, ev, t) -> exists e', ep_event e fd = Some (t, e')
}.

Definition busy (p : npc) : bool := match p with NOut _ => false | _ => true end.
Definition waiting (p : npc) : bool := match p with NPush | NYield | NAsleep => true | _ => false end.
Definition held (i : nat) (p : wpc) : Z := match p with WNext => 0 | WMod t | WDel t | WPush t => is_t i t end.

(** The buffer and the counters of an operation fit together. *)
Definition io_ok (x : nio) : Prop :=
  match n_op x with
  | IO_WRITE => n_req x = Z.of_nat (length (n_buf x)) /\ 0 <= n_off x <= n_req x /\ n_sent x = take (Z.to_nat (n_off x)) (n_buf x)
  | IO_READ => n_off x = Z.of_nat (length (n_buf x)) /\ n_off x <= n_req x
  | _ => True
  end.

(** The operation is over and its result is set. *)
Definition finished (x : nio) : Prop :=
  n_done x = -1 /\ 0 < n_err x \/
  n_err x = 0 /\
  match n_op x with
  | IO_WRITE => n_done x = n_req x /\ n_off x = n_req x
  | IO_READ => n_done x = n_off x
  | IO_ACCEPT => 0 <= n_done x
  | IO_CONNECT => n_done x = n_fd x
  end.

Section inv.
Context `{EpollLaws E}.
Implicit Types (w : net E) (e : E).

Definition armed e (x : nio) (i : nat) : Z := match ep_reg e (n_fd x) with Some (true, _, t) => is_t i t | _ => 0 end.

Record net_inv w : Prop := {
  NI_oneshot : forall fd b ev t, ep_reg (ep w) fd = Some (b, ev, t) -> Z.testbit ev 30 = true;
  NI_arm : forall fd ev t, ep_reg (ep w) fd = Some (true, ev, t) -> exists tk, n_tasks w !! t = Some tk /\ waiting (n_pc tk) = true /\ n_fd (n_io tk) = fd;
  NI_fds : forall i j tki tkj, n_tasks w !! i = Some tki -> n_tasks w !! j = Some tkj -> busy (n_pc tki) = true -> busy (n_pc tkj) = true ->
    n_fd (n_io tki) = n_fd (n_io tkj) -> i = j;
  NI_tok : forall i tk, n_tasks w !! i = Some tk ->
    armed (ep w) (n_io tk) i + count_t i (batch w) + held i (worker w) + count_t i (n_ready w) = b2z (waiting (n_pc tk));
  NI_some : forall t tk, n_tasks w !! t = Some tk -> n_pc tk = NMod \/ t ∈ batch w \/ worker w = WMod t -> is_Some (ep_reg (ep w) (n_fd (n_io tk)));
  NI_io : forall t tk, n_tasks w !! t = Some tk -> busy (n_pc tk) = true -> io_ok (n_io tk);
  NI_done : forall t tk, n_tasks w !! t = Some tk -> worker w = WDel t \/ worker w = WPush t \/ t ∈ n_ready w -> finished (n_io tk);
  NI_out : forall t tk r err, n_tasks w !! t = Some tk -> n_pc tk = NOut (Some (r, err)) ->
    (r = -1 /\ 0 < err) \/ r = n_done (n_io tk) /\ err = n_err (n_io tk) /\ io_ok (n_io tk) /\ finished (n_io tk)
}.

Lemma armed_nonneg e x i : 0 <= armed e x i.
Proof. unfold armed. destruct (ep_reg e (n_fd x)) as [[[[] ?] ?]|]; try done. apply is_t_nonneg. Qed.

Lemma held_nonneg i p : 0 <= held i p.
Proof. destruct p; cbn; try apply is_t_nonneg. done. Qed.

Lemma waiting_busy p : waiting p = true -> busy p = true.
Proof. by destruct p. Qed.

(** A registration of [fd] is replaced. *)
Definition reg_set e e' (fd : Z) (v : option (bool * Z * nat)) : Prop := forall x, ep_reg e' x = if decide (x = fd) then v else ep_reg e x.

Lemma reg_set_armed e e' fd v x i : reg_set e e' fd v -> n_fd x <> fd -> armed e' x i = armed e x i.
Proof. intros Hs Hne. unfold armed. by rewrite (Hs (n_fd x)), decide_False. Qed.

Section step.
Context (w : net E) (I : net_inv w).

Lemma place_waiting i tk : n_tasks w !! i = Some tk -> i ∈ batch w \/ i ∈ n_ready w \/ 1 <= held i (worker w) \/ 1 <= armed (ep w) (n_io tk) i ->
  waiting (n_pc tk) = true.
Proof using I.
  intros Hi Hp. pose proof (NI_tok w I i tk Hi) as IT. pose proof (armed_nonneg (ep w) (n_io tk) i). pose proof (held_nonneg i (worker w)).
  pose proof (count_t_nonneg i (batch w)). pose proof (count_t_nonneg i (n_ready w)). rewrite !count_pos in Hp.
  destruct (waiting (n_pc tk)); [done|]. cbn in IT. lia.
Qed.

(** The four places exclude each other. *)
Lemma one_place i tk : n_tasks w !! i = Some tk ->
  armed (ep w) (n_io tk) i + b2z (bool_decide (i ∈ batch w)) + held i (worker w) + b2z (bool_decide (i ∈ n_ready w)) <= 1.
Proof using I.
  intros Hi. pose proof (NI_tok w I i tk Hi) as IT. pose proof (count_t_nonneg i (batch w)). pose proof (count_t_nonneg i (n_ready w)).
  assert (b2z (waiting (n_pc tk)) <= 1) by (destruct (waiting (n_pc tk)); cbn; lia).
  assert (Hb : forall l, b2z (bool_decide (i ∈ l)) <= count_t i l).
  { intros l. case_bool_decide as Hl; cbn; [by apply count_pos|apply count_t_nonneg]. }
  pose proof (Hb (batch w)). pose proof (Hb (n_ready w)). lia.
Qed.

(** Another task than the one that owns [fd] does not notice that the
    registration of [fd] changes. *)
Lemma other_armed e' fd v i tk j tkj : reg_set (ep w) e' fd v -> match v with Some (true, _, t) => t = i | _ => True end ->
  n_tasks w !! i = Some tk -> busy (n_pc tk) = true -> n_fd (n_io tk) = fd -> n_tasks w !! j = Some tkj -> j <> i ->
  armed e' (n_io tkj) j = armed (ep w) (n_io tkj) j.
Proof using I.
  intros Hs Hv Hi Hb Hfd Hj Hne. destruct (decide (n_fd (n_io tkj) = fd)) as [E1|]; [|by eapply reg_set_armed].
  assert (busy (n_pc tkj) = false) as Hbj.
  { destruct (busy (n_pc tkj)) eqn:Hbj; [|done]. exfalso. apply Hne. eapply (NI_fds w I); eauto. congruence. }
  pose proof (NI_tok w I j tkj Hj) as IT. assert (waiting (n_pc tkj) = false) as Hw by (by destruct (n_pc tkj)). rewrite Hw in IT. cbn in IT.
  pose proof (armed_nonneg (ep w) (n_io tkj) j). pose proof (held_nonneg j (worker w)). pose proof (count_t_nonneg j (batch w)). pose proof (count_t_nonneg j (n_ready w)).
  assert (armed (ep w) (n_io tkj) j = 0) as -> by lia. unfold armed. rewrite (Hs _), decide_True by done.
  destruct v as [[[[] ?] t]|]; try done. subst t. apply is_t_other. done.
Qed.

Lemma other_some e' fd v i tk j tkj : reg_set (ep w) e' fd v -> n_tasks w !! i = Some tk -> busy (n_pc tk) = true -> n_fd (n_io tk) = fd ->
  n_tasks w !! j = Some tkj -> j <> i -> busy (n_pc tkj) = true -> is_Some (ep_reg (ep w) (n_fd (n_io tkj))) -> is_Some (ep_reg e' (n_fd (n_io tkj))).
Proof using I.
  intros Hs Hi Hb Hfd Hj Hne Hbj Hx. rewrite (Hs _). case_decide; [|done]. exfalso. apply Hne. eapply (NI_fds w I); eauto. congruence.
Qed.
End step.

(** What a step of task [i], or of the I/O thread for it, has to show. *)
Record step_ok w w' (i : nat) (p : npc) (x : nio) : Prop := {
  S_reg : forall fd b ev t, ep_reg (ep w') fd = Some (b, ev, t) -> Z.testbit ev 30 = true /\
    (b = true -> t = i /\ waiting p = true /\ n_fd x = fd \/ t <> i /\ ep_reg (ep w) fd = Some (true, ev, t));
  S_fds : busy p = true -> forall j tkj, j <> i -> n_tasks w !! j = Some tkj -> busy (n_pc tkj) = true -> n_fd (n_io tkj) <> n_fd x;
  S_other : forall j tkj, j <> i -> n_tasks w !! j = Some tkj -> armed (ep w') (n_io tkj) j = armed (ep w) (n_io tkj) j /\
    (busy (n_pc tkj) = true -> is_Some (ep_reg (ep w) (n_fd (n_io tkj))) -> is_Some (ep_reg (ep w') (n_fd (n_io tkj))));
  S_count : forall j, j <> i -> count_t j (batch w') = count_t j (batch w) /\ count_t j (n_ready w') = count_t j (n_ready w);
  S_worker : worker w' = worker w \/ (forall j, j <> i -> held j (worker w') = held j (worker w)) /\
    (worker w' = WNext \/ worker w' = WMod i \/ worker w' = WDel i \/ worker w' = WPush i);
  S_tok : armed (ep w') x i + count_t i (batch w') + held i (worker w') + count_t i (n_ready w') = b2z (waiting p);
  S_some : p = NMod \/ i ∈ batch w' \/ worker w' = WMod i -> is_Some (ep_reg (ep w') (n_fd x));
  S_io : busy p = true -> io_ok x;
  S_done : worker w' = WDel i \/ worker w' = WPush i \/ i ∈ n_ready w' -> finished x;
  S_out : forall r err, p = NOut (Some (r, err)) -> (r = -1 /\ 0 < err) \/ r = n_done x /\ err = n_err x /\ io_ok x /\ finished x
}.

Lemma place_busy w i tk : net_inv w -> n_tasks w !! i = Some tk -> n_pc tk = NMod \/ i ∈ batch w \/ worker w = WMod i -> busy (n_pc tk) = true.
Proof using.
  intros I Hi [->|[Hb|Hb]]; [done|..]; apply waiting_busy; eapply (place_waiting w I i tk Hi); [by left|].
  right. right. left. rewrite Hb. cbn. rewrite is_t_self. lia.
Qed.

Lemma inv_step w w' i tk p x : net_inv w -> n_tasks w !! i = Some tk -> n_tasks w' = <[i := NTask p x]> (n_tasks w) -> step_ok w w' i p x -> net_inv w'.
Proof using.
  intros I Hi Ht S. assert (Hcase : forall j tkj, n_tasks w' !! j = Some tkj -> j = i /\ tkj = NTask p x \/ j <> i /\ n_tasks w !! j = Some tkj).
  { intros j tkj Hj. rewrite Ht in Hj. by eapply insert_cases. }
  assert (Hheld : forall j, j <> i -> held j (worker w') = held j (worker w)) by (intros j Hne; destruct (S_worker _ _ _ _ _ S) as [->|[Hh _]]; auto).
  assert (Hw : forall j u, j <> i -> worker w' = u -> (u = WMod j \/ u = WDel j \/ u = WPush j) -> worker w = u).
  { intros j u Hne Eu Hu. destruct (S_worker _ _ _ _ _ S) as [<-|[_ Hc]]; [done|]. destruct Hc as [Hc|[Hc|[Hc|Hc]]]; rewrite Hc in Eu; subst u;
      destruct Hu as [?|[?|?]]; simplify_eq. }
  split.
  - intros fd b ev t Hr. by destruct (S_reg _ _ _ _ _ S fd b ev t Hr).
  - intros fd ev t Hr. destruct (S_reg _ _ _ _ _ S fd true ev t Hr) as [_ Ha]. destruct (Ha eq_refl) as [(-> & Hp & Hf)|[Hne Ho]].
    + exists (NTask p x). split; [by rewrite Ht; eapply insert_at|done].
    + destruct (NI_arm w I fd ev t Ho) as (tkt & Htk & Hrest). exists tkt. split; [by rewrite Ht, insert_other|done].
  - intros a b tka tkb [[-> ->]|[Hna Ha]]%Hcase [[-> ->]|[Hnb Hb]]%Hcase Hba Hbb E1; cbn [n_pc n_io] in *; [done|..|by eapply (NI_fds w I)].
    + exfalso. by apply (S_fds _ _ _ _ _ S Hba b tkb Hnb Hb Hbb).
    + exfalso. by apply (S_fds _ _ _ _ _ S Hbb a tka Hna Ha Hba).
  - intros j tkj [[-> ->]|[Hne Hj]]%Hcase; cbn [n_pc n_io]; [apply S|]. destruct (S_other _ _ _ _ _ S j tkj Hne Hj) as [-> _].
    destruct (S_count _ _ _ _ _ S j Hne) as [-> ->]. rewrite Hheld by done. by apply (NI_tok w I).
  - intros j tkj [[-> ->]|[Hne Hj]]%Hcase Hp; cbn [n_pc n_io] in *; [by apply S|].
    assert (n_pc tkj = NMod \/ j ∈ batch w \/ worker w = WMod j) as Hp'.
    { destruct Hp as [?|[Hb|Hb]]; [by left| |].
      - right. left. apply count_pos in Hb. apply count_pos. by destruct (S_count _ _ _ _ _ S j Hne) as [<- _].
      - right. right. eapply Hw; [done|done|by left]. }
    eapply (S_other _ _ _ _ _ S j tkj Hne Hj); [by eapply place_busy|by eapply (NI_some w I)].
  - intros j tkj [[-> ->]|[Hne Hj]]%Hcase Hb; cbn [n_pc n_io] in *; [by apply S|by eapply (NI_io w I)].
  - intros j tkj [[-> ->]|[Hne Hj]]%Hcase Hp; cbn [n_pc n_io] in *; [by apply S|]. eapply (NI_done w I j); [done|].
    destruct Hp as [Hp|[Hp|Hp]].
    + left. eapply Hw; [done|done|by right; left].
    + right. left. eapply Hw; [done|done|by right; right].
    + right. right. apply count_pos in Hp. apply count_pos. by destruct (S_count _ _ _ _ _ S j Hne) as [_ <-].
  - intros j tkj r err [[-> ->]|[Hne Hj]]%Hcase Hp; cbn [n_pc n_io] in *; [by apply S|by eapply (NI_out w I)].
Qed.

(** ** The steps *)
Lemma events_oneshot o : Z.testbit (to_epoll_events (events_of o)) 30 = true.
Proof using. by destruct o. Qed.

Section steps.
Context (w : net E) (I : net_inv w) (i : nat) (tk : ntask) (Hi : n_tasks w !! i = Some tk).

Lemma same_fds x : busy (n_pc tk) = true -> n_fd x = n_fd (n_io tk) ->
  forall j tkj, j <> i -> n_tasks w !! j = Some tkj -> busy (n_pc tkj) = true -> n_fd (n_io tkj) <> n_fd x.
Proof using I Hi. intros Hb -> j tkj Hne Hj Hbj E1. apply Hne. by eapply (NI_fds w I). Qed.

Lemma same_reg e p x : e = ep w -> (waiting (n_pc tk) = true -> waiting p = true /\ n_fd x = n_fd (n_io tk)) ->
  forall fd b ev t, ep_reg e fd = Some (b, ev, t) -> Z.testbit ev 30 = true /\
    (b = true -> t = i /\ waiting p = true /\ n_fd x = fd \/ t <> i /\ ep_reg (ep w) fd = Some (true, ev, t)).
Proof using I Hi.
  intros -> Hp fd b ev t Hr. split; [by eapply (NI_oneshot w I)|]. intros ->. destruct (decide (t = i)) as [->|Hne]; [left|by right].
  destruct (NI_arm w I fd ev i Hr) as (tk' & Htk & Hw & <-). simplify_eq. destruct (Hp Hw). done.
Qed.

(** The registration of the task's own descriptor changes. *)
Lemma own_reg e' p x b0 ev0 : busy (n_pc tk) = true -> n_fd x = n_fd (n_io tk) -> Z.testbit ev0 30 = true -> (b0 = true -> waiting p = true) ->
  reg_set (ep w) e' (n_fd x) (Some (b0, ev0, i)) ->
  (forall fd b ev t, ep_reg e' fd = Some (b, ev, t) -> Z.testbit ev 30 = true /\
    (b = true -> t = i /\ waiting p = true /\ n_fd x = fd \/ t <> i /\ ep_reg (ep w) fd = Some (true, ev, t))) /\
  (forall j tkj, j <> i -> n_tasks w !! j = Some tkj -> armed e' (n_io tkj) j = armed (ep w) (n_io tkj) j /\
    (busy (n_pc tkj) = true -> is_Some (ep_reg (ep w) (n_fd (n_io tkj))) -> is_Some (ep_reg e' (n_fd (n_io tkj))))) /\
  armed e' x i = b2z b0 /\ is_Some (ep_reg e' (n_fd x)).
Proof using I Hi.
  intros Hb Hf Hev Hp Hs. split_and!.
  - intros fd b ev t. rewrite (Hs fd). case_decide as Hfd; [intros [= <- <- <-]; split; [done|]; intros ->; left; auto|].
    intros Hr. split; [by eapply (NI_oneshot w I)|]. intros ->. right. split; [|done]. intros ->.
    destruct (NI_arm w I fd ev i Hr) as (tk' & Htk & _ & ?). simplify_eq.
  - intros j tkj Hne Hj. split.
    + eapply (other_armed w I e' _ (Some (b0, ev0, i)) i tk); eauto. by destruct b0.
    + intros Hbj Hx. by eapply (other_some w I e' _ (Some (b0, ev0, i)) i tk).
  - unfold armed. rewrite (Hs _), decide_True by done. destruct b0; [apply is_t_self|done].
  - rewrite (Hs _), decide_True by done. by eexists.
Qed.

(** A task that is not waiting is in no place. *)
Lemma nowhere : waiting (n_pc tk) = false -> armed (ep w) (n_io tk) i = 0 /\ count_t i (batch w) = 0 /\ held i (worker w) = 0 /\ count_t i (n_ready w) = 0.
Proof using I Hi.
  intros Hw. pose proof (NI_tok w I i tk Hi) as IT. rewrite Hw in IT. cbn in IT. pose proof (armed_nonneg (ep w) (n_io tk) i).
  pose proof (held_nonneg i (worker w)). pose proof (count_t_nonneg i (batch w)). pose proof (count_t_nonneg i (n_ready w)). lia.
Qed.

Lemma held_other (q : wpc) j : j <> i -> match q with WNext => True | WMod t | WDel t | WPush t => t = i end -> held j q = 0.
Proof using. intros Hne Hq. destruct q; try done; subst; by apply is_t_other. Qed.

Lemma not_held : held i (worker w) = 0 -> worker w <> WMod i /\ worker w <> WDel i /\ worker w <> WPush i.
Proof using. intros Hh. split_and!; intros E1; rewrite E1 in Hh; cbn in Hh; by rewrite is_t_self in Hh. Qed.
End steps.

(** Who may start an operation: nobody else uses the descriptor, and the
    buffer has the length that is passed. *)
Definition call_ok w (i : nat) (o : nop) (fd : Z) (buf : list Z) (len : Z) : Prop :=
  (forall j tkj, n_tasks w !! j = Some tkj -> busy (n_pc tkj) = true -> n_fd (n_io tkj) <> fd) /\
  match o with IO_WRITE => len = Z.of_nat (length buf) | IO_READ => 0 <= len | _ => True end.

Lemma net_io_fd o fd buf len : n_fd (net_io o fd buf len) = fd.
Proof using. by destruct o. Qed.

Lemma net_io_ok o fd buf len : match o with IO_WRITE => len = Z.of_nat (length buf) | IO_READ => 0 <= len | _ => True end -> io_ok (net_io o fd buf len).
Proof using. destruct o; cbn; try done. intros ->. split; [done|]. split; [lia|done]. Qed.

Lemma call_inv w i o fd buf len tk r : net_inv w -> n_tasks w !! i = Some tk -> n_pc tk = NOut r -> call_ok w i o fd buf len ->
  net_inv (Net (ep w) (batch w) (worker w) (n_ready w) (n_waitq w) (<[i := NTask NAdd (net_io o fd buf len)]> (n_tasks w))).
Proof using.
  intros I Hi Hp [Hex Hl]. destruct (nowhere w I i tk Hi) as (Ha & Hb & Hh & Hr); [by rewrite Hp|]. destruct (not_held w i Hh) as (N1 & N2 & N3).
  eapply inv_step; [exact I|exact Hi|reflexivity|]. split; cbn [ep batch worker n_ready]; try done.
  - apply (same_reg w I i tk Hi); [done|]. by rewrite Hp.
  - intros _ j tkj _ Hj Hbj. rewrite net_io_fd. by apply (Hex j tkj Hj).
  - by left.
  - rewrite Hb, Hh, Hr. unfold armed. rewrite net_io_fd. destruct (ep_reg (ep w) fd) as [[[[] ev] t]|] eqn:Er; try done.
    destruct (NI_arm w I fd ev t Er) as (tkt & Ht & Hw & Hf). exfalso. eapply (Hex t tkt Ht); [by apply waiting_busy|done].
  - intros [?|[Hin|?]]; [done| |done]. apply count_pos in Hin. lia.
  - intros _. by apply net_io_ok.
  - intros [?|[?|Hin]]; [done..|]. apply count_pos in Hin. lia.
Qed.

(** Registration: at [netpoll_add] or [netpoll_mod]. *)
Lemma register_inv w i tk e' ev : net_inv w -> n_tasks w !! i = Some tk -> n_pc tk = NAdd \/ n_pc tk = NMod -> Z.testbit ev 30 = true ->
  reg_set (ep w) e' (n_fd (n_io tk)) (Some (true, ev, i)) ->
  net_inv (Net e' (batch w) (worker w) (n_ready w) (n_waitq w) (<[i := NTask NPush (n_io tk)]> (n_tasks w))).
Proof using.
  intros I Hi Hp Hev Hs. assert (busy (n_pc tk) = true /\ waiting (n_pc tk) = false) as [Hb Hw] by (by destruct Hp as [-> | ->]).
  destruct (nowhere w I i tk Hi Hw) as (Ha & Hba & Hh & Hr). destruct (not_held w i Hh) as (N1 & N2 & N3).
  destruct (own_reg w I i tk Hi e' NPush (n_io tk) true ev Hb eq_refl Hev ltac:(done) Hs) as (R1 & R2 & R3 & R4).
  eapply inv_step; [exact I|exact Hi|reflexivity|]. split; cbn [ep batch worker n_ready]; try done.
  - intros _. by apply (same_fds w I i tk Hi).
  - by left.
  - rewrite R3, Hba, Hh, Hr. done.
  - intros _. by eapply (NI_io w I).
  - intros [?|[?|Hin]]; [done..|]. apply count_pos in Hin. lia.
Qed.

(** A move of the task itself that leaves the poller alone. *)
Lemma task_inv w i tk p q : net_inv w -> n_tasks w !! i = Some tk ->
  (n_pc tk = NAdd /\ (p = NMod /\ is_Some (ep_reg (ep w) (n_fd (n_io tk))) \/ exists r, 0 < r /\ p = NOut (Some (-1, r)))) \/
  (waiting (n_pc tk) = true /\ waiting p = true) ->
  net_inv (Net (ep w) (batch w) (worker w) (n_ready w) q (<[i := NTask p (n_io tk)]> (n_tasks w))).
Proof using.
  intros I Hi Hp. assert (busy (n_pc tk) = true /\ waiting p = waiting (n_pc tk)) as [Hb Hw].
  { destruct Hp as [[-> [[-> _]|(r & _ & ->)]]|[H1 H2]]; try done. split; [by apply waiting_busy|congruence]. }
  eapply inv_step; [exact I|exact Hi|reflexivity|]. split; cbn [ep batch worker n_ready]; try done.
  - apply (same_reg w I i tk Hi); [done|]. intros H1. by rewrite Hw.
  - intros _. by apply (same_fds w I i tk Hi).
  - by left.
  - rewrite Hw. by apply (NI_tok w I).
  - intros Hpl. destruct Hp as [[Epc [[-> Hx]|(r & Hr & ->)]]|[H1 H2]]; [done| |].
    + eapply (NI_some w I); [done|]. destruct Hpl as [?|?]; [done|by right].
    + eapply (NI_some w I); [done|]. destruct Hpl as [->|?]; [done|by right].
  - intros _. by eapply (NI_io w I).
  - intros Hpl. by eapply (NI_done w I).
  - intros r err ->. destruct Hp as [[Epc [[? _]|(r' & Hr & [= -> ->])]]|[H1 H2]]; [done|by left|done].
Qed.

Lemma resume_inv w i tk q : net_inv w -> n_tasks w !! i = Some tk -> n_pc tk = NAsleep -> i ∈ n_ready w ->
  net_inv (Net (ep w) (batch w) (worker w) (remove_first i (n_ready w)) q (<[i := NTask (NOut (Some (n_done (n_io tk), n_err (n_io tk)))) (n_io tk)]> (n_tasks w))).
Proof using.
  intros I Hi Hp Hr. pose proof (NI_tok w I i tk Hi) as IT. rewrite Hp in IT. cbn in IT. apply count_pos in Hr as Hc.
  pose proof (armed_nonneg (ep w) (n_io tk) i). pose proof (held_nonneg i (worker w)). pose proof (count_t_nonneg i (batch w)).
  assert (held i (worker w) = 0) as Hh by lia. destruct (not_held w i Hh) as (N1 & N2 & N3).
  assert (armed (ep w) (n_io tk) i = 0) as Ha by lia. assert (count_t i (remove_first i (n_ready w)) = 0) as Hc' by (rewrite count_remove, is_t_self by done; lia).
  eapply inv_step; [exact I|exact Hi|reflexivity|]. split; cbn [ep batch worker n_ready]; try done.
  - intros fd b ev t Hreg. split; [by eapply (NI_oneshot w I)|]. intros ->. right. split; [|done]. intros ->.
    destruct (NI_arm w I fd ev i Hreg) as (tk' & Htk & _ & Hf). simplify_eq. unfold armed in Ha. rewrite Hreg, is_t_self in Ha. done.
  - intros j Hne. split; [done|]. rewrite count_remove, is_t_other by done. lia.
  - by left.
  - rewrite Ha, Hh, Hc'. cbn. lia.
  - intros [?|[Hb|?]]; [done| |done]. apply count_pos in Hb. lia.
  - intros [?|[?|Hin]]; [done..|]. apply count_pos in Hin. lia.
  - intros r err [= <- <-]. right. split; [done|]. split; [done|]. split; [eapply (NI_io w I); [done|by rewrite Hp]|].
    eapply (NI_done w I); [done|by right; right].
Qed.

(** ** The steps of the I/O thread *)

(** The I/O thread rearms, or the result is an error or the one wanted. *)
Ltac result := first [by left|right; split; [by auto|]; first [left; split; [done|lia]|right; split; [done|]; first [done|lia|split; lia]]].

Lemma handle_ok x t res errno data x' p : io_ok x -> answer_ok x res errno data = true -> handle x t res errno data = Some (x', p) ->
  n_fd x' = n_fd x /\ n_op x' = n_op x /\ io_ok x' /\ (p = WMod t \/ (p = WDel t \/ p = WPush t) /\ finished x').
Proof using.
  unfold handle, answer_ok, io_ok, finished. intros Hok Ha Hh. destruct (n_op x) eqn:Eop; cbn [with_err with_result n_op] in Hh; rewrite ?Eop in Hh.
  - destruct (Z.ltb_spec res 0); [destruct (errno =? EAGAIN)|]; injection Hh as <- <-; cbn; rewrite Eop; (split; [done|]; split; [done|]; split; [done|]); result.
  - destruct (Z.ltb_spec 0 res).
    + destruct (n_done _ <=? _) eqn:Ed in Hh; cbn [c_assert mbind option_bind] in Hh; [|done]. injection Hh as <- <-. cbn in *. rewrite Eop, length_app.
      split; [done|]. split; [done|]. split; [lia|result].
    + destruct (Z.eqb_spec res 0) as [->|].
      * destruct (n_done _ <=? _) eqn:Ed in Hh; cbn [c_assert mbind option_bind] in Hh; [|done]. injection Hh as <- <-. cbn in *. rewrite Eop.
        split; [done|]. split; [done|]. split; [lia|result].
      * rewrite (proj2 (Z.ltb_lt res 0)) in Ha by lia. destruct (errno =? EAGAIN); [|destruct (-1 <=? _) eqn:Ed in Hh; cbn [c_assert mbind option_bind] in Hh; [|done]]; injection Hh as <- <-; cbn; rewrite Eop;
          (split; [done|]; split; [done|]; split; [lia|result]).
  - destruct Hok as (Hl & Hoff & Hs). destruct (Z.ltb_spec res 0).
    + destruct (errno =? EAGAIN); injection Hh as <- <-; cbn; rewrite Eop; (split; [done|]; split; [done|]; split; [done|result]).
    + cbn [sent with_err with_result n_off n_req] in Hh.
      assert (take (Z.to_nat (n_off x)) (n_buf x) ++ take (Z.to_nat res) (drop (Z.to_nat (n_off x)) (n_buf x)) = take (Z.to_nat (n_off x + res)) (n_buf x)) as Et.
      { rewrite take_take_drop. f_equal. lia. }
      destruct (Z.ltb_spec (n_off x + res) (n_req x)); injection Hh as <- <-; cbn; rewrite Eop, Hs, Et;
        (split; [done|]; split; [done|]; split; [split; [done|]; split; [lia|done]|result]).
  - destruct (Z.ltb_spec res 0); [|destruct (Z.eqb_spec errno 0); cbn [negb] in Hh]; injection Hh as <- <-; cbn; rewrite Eop;
      (split; [done|]; split; [done|]; split; [done|result]).
Qed.

Lemma insert_same w i tk : n_tasks w !! i = Some tk -> n_tasks w = <[i := NTask (n_pc tk) (n_io tk)]> (n_tasks w).
Proof using. intros Hi. symmetry. apply list_insert_id. rewrite Hi. by destruct tk. Qed.

Section work.
Context (w : net E) (I : net_inv w).

Lemma poll_inv fd t e' : ep_event (ep w) fd = Some (t, e') -> net_inv (Net e' (batch w ++ [t]) (worker w) (n_ready w) (n_waitq w) (n_tasks w)).
Proof using I.
  intros Ee. destruct (event_reg _ _ _ _ Ee) as (ev & Hr & Hs). destruct (NI_arm w I fd ev t Hr) as (tk & Ht & Hw & Hf).
  pose proof (NI_oneshot w I fd true ev t Hr) as Hev. rewrite Hev in Hs. cbn [negb] in Hs. rewrite <- Hf in Hs.
  destruct (own_reg w I t tk Ht e' (n_pc tk) (n_io tk) false ev (waiting_busy _ Hw) eq_refl Hev ltac:(done) Hs) as (R1 & R2 & R3 & R4).
  pose proof (NI_tok w I t tk Ht) as IT. unfold armed in IT at 1. rewrite Hf, Hr, is_t_self, Hw in IT. cbn [b2z] in IT.
  pose proof (held_nonneg t (worker w)). pose proof (count_t_nonneg t (batch w)). pose proof (count_t_nonneg t (n_ready w)).
  destruct (not_held w t) as (N1 & N2 & N3); [lia|].
  eapply (inv_step w _ t tk (n_pc tk) (n_io tk)); [exact I|exact Ht|exact (insert_same w t tk Ht)|]. split; cbn [ep batch worker n_ready]; try done.
  - intros _. apply (same_fds w I t tk Ht); [by apply waiting_busy|done].
  - intros j Hne. split; [|done]. rewrite count_snoc, is_t_other by done. lia.
  - by left.
  - rewrite R3, count_snoc, is_t_self, Hw. cbn. lia.
  - intros _. eapply (NI_io w I); [done|by apply waiting_busy].
  - intros [?|[?|Hin]]; [done..|]. apply count_pos in Hin. lia.
  - intros r err E1. by rewrite E1 in Hw.
Qed.

Lemma handle_inv t ts tk res errno data x p : worker w = WNext -> batch w = t :: ts -> n_tasks w !! t = Some tk -> answer_ok (n_io tk) res errno data = true ->
  handle (n_io tk) t res errno data = Some (x, p) -> net_inv (Net (ep w) ts p (n_ready w) (n_waitq w) (<[t := NTask (n_pc tk) x]> (n_tasks w))).
Proof using I.
  intros Ew Eb Ht Ha Hh. assert (waiting (n_pc tk) = true) as Hw by (eapply (place_waiting w I t tk Ht); left; rewrite Eb; by left).
  pose proof (waiting_busy _ Hw) as Hb. destruct (handle_ok _ _ _ _ _ _ _ (NI_io w I t tk Ht Hb) Ha Hh) as (Ef & _ & Hok & Hp).
  pose proof (NI_tok w I t tk Ht) as IT. rewrite Eb, Ew, count_cons, is_t_self, Hw in IT. cbn [held b2z] in IT.
  pose proof (armed_nonneg (ep w) (n_io tk) t). pose proof (count_t_nonneg t ts). pose proof (count_t_nonneg t (n_ready w)).
  assert (held t p = 1 /\ (p = WMod t \/ p = WDel t \/ p = WPush t)) as [Hh1 Hp'].
  { destruct Hp as [->|[[->| ->] _]]; cbn; by rewrite is_t_self; auto. }
  eapply inv_step; [exact I|exact Ht|reflexivity|]. split; cbn [ep batch worker n_ready]; try done.
  - by apply (same_reg w I t tk Ht).
  - intros _. by apply (same_fds w I t tk Ht).
  - intros j Hne. split; [|done]. rewrite Eb, count_cons, is_t_other by done. lia.
  - right. split; [|by right]. intros j Hne. rewrite Ew. apply (held_other t); [done|]. by destruct Hp' as [->|[->| ->]].
  - unfold armed in *. rewrite Ef, Hh1, Hw. cbn. lia.
  - intros Hpl. rewrite Ef. eapply (NI_some w I); [done|]. right. left. rewrite Eb. by left.
  - intros Hpl. destruct Hp as [->|[_ ?]]; [|done]. destruct Hpl as [?|[?|Hin]]; [done..|]. apply count_pos in Hin. lia.
  - intros r err E1. by rewrite E1 in Hw.
Qed.

(** The I/O thread is done with the poller for [t]. *)
Lemma held_waiting t tk : n_tasks w !! t = Some tk -> held t (worker w) = 1 -> waiting (n_pc tk) = true /\ armed (ep w) (n_io tk) t = 0 /\
  count_t t (batch w) = 0 /\ count_t t (n_ready w) = 0.
Proof using I.
  intros Ht Hh. assert (waiting (n_pc tk) = true) as Hw by (eapply (place_waiting w I t tk Ht); right; right; left; lia).
  pose proof (NI_tok w I t tk Ht) as IT. rewrite Hw, Hh in IT. cbn [b2z] in IT.
  pose proof (armed_nonneg (ep w) (n_io tk) t). pose proof (count_t_nonneg t (batch w)). pose proof (count_t_nonneg t (n_ready w)). split; [done|]. lia.
Qed.

Lemma mod_inv t tk e' ev : worker w = WMod t -> n_tasks w !! t = Some tk -> Z.testbit ev 30 = true -> reg_set (ep w) e' (n_fd (n_io tk)) (Some (true, ev, t)) ->
  net_inv (Net e' (batch w) WNext (n_ready w) (n_waitq w) (n_tasks w)).
Proof using I.
  intros Ew Ht Hev Hs. destruct (held_waiting t tk Ht) as (Hw & Ha & Hb & Hr); [rewrite Ew; cbn; apply is_t_self|].
  destruct (own_reg w I t tk Ht e' (n_pc tk) (n_io tk) true ev (waiting_busy _ Hw) eq_refl Hev ltac:(done) Hs) as (R1 & R2 & R3 & R4).
  eapply (inv_step w _ t tk (n_pc tk) (n_io tk)); [exact I|exact Ht|exact (insert_same w t tk Ht)|]. split; cbn [ep batch worker n_ready]; try done.
  - intros _. apply (same_fds w I t tk Ht); [by apply waiting_busy|done].
  - right. split; [|by left]. intros j Hne. rewrite Ew. symmetry. by apply (held_other t).
  - rewrite R3, Hb, Hr, Hw. done.
  - intros _. eapply (NI_io w I); [done|by apply waiting_busy].
  - intros [?|[?|Hin]]; [done..|]. apply count_pos in Hin. lia.
  - intros r err E1. by rewrite E1 in Hw.
Qed.

Lemma del_inv t tk e' : worker w = WDel t -> n_tasks w !! t = Some tk -> reg_set (ep w) e' (n_fd (n_io tk)) None ->
  net_inv (Net e' (batch w) (WPush t) (n_ready w) (n_waitq w) (n_tasks w)).
Proof using I.
  intros Ew Ht Hs. destruct (held_waiting t tk Ht) as (Hw & Ha & Hb & Hr); [rewrite Ew; cbn; apply is_t_self|].
  eapply (inv_step w _ t tk (n_pc tk) (n_io tk)); [exact I|exact Ht|exact (insert_same w t tk Ht)|]. split; cbn [ep batch worker n_ready]; try done.
  - intros fd b ev u. rewrite (Hs fd). case_decide as Hfd; [done|]. intros Hreg. by apply (same_reg w I t tk Ht (ep w) (n_pc tk) (n_io tk)).
  - intros _. apply (same_fds w I t tk Ht); [by apply waiting_busy|done].
  - intros j tkj Hne Hj. split.
    + eapply (other_armed w I e' _ None t tk); eauto. by apply waiting_busy.
    + intros Hbj Hx. eapply (other_some w I e' _ None t tk); eauto. by apply waiting_busy.
  - right. split; [|by right; right; right]. intros j Hne. rewrite Ew. cbn. done.
  - unfold armed. rewrite (Hs _), decide_True by done. cbn [held]. rewrite Hb, Hr, Hw, is_t_self. done.
  - intros [E1|[Hin|?]]; [by rewrite E1 in Hw| |done]. apply count_pos in Hin. lia.
  - intros _. eapply (NI_io w I); [done|by apply waiting_busy].
  - intros _. eapply (NI_done w I); [done|by left].
  - intros r err E1. by rewrite E1 in Hw.
Qed.

Lemma push_inv t tk : worker w = WPush t -> n_tasks w !! t = Some tk ->
  net_inv (Net (ep w) (batch w) WNext (n_ready w ++ [t]) (n_waitq w) (<[t := NTask (n_pc tk) (with_done (n_io tk))]> (n_tasks w))).
Proof using I.
  intros Ew Ht. destruct (held_waiting t tk Ht) as (Hw & Ha & Hb & Hr); [rewrite Ew; cbn; apply is_t_self|].
  eapply inv_step; [exact I|exact Ht|reflexivity|]. split; cbn [ep batch worker n_ready]; try done.
  - by apply (same_reg w I t tk Ht).
  - intros _. apply (same_fds w I t tk Ht); [by apply waiting_busy|done].
  - intros j Hne. split; [done|]. rewrite count_snoc, is_t_other by done. lia.
  - right. split; [|by left]. intros j Hne. rewrite Ew. symmetry. by apply (held_other t).
  - change (armed (ep w) (with_done (n_io tk)) t) with (armed (ep w) (n_io tk) t). rewrite Ha, Hb, count_snoc, Hr, is_t_self, Hw. done.
  - intros [E1|[Hin|?]]; [by rewrite E1 in Hw| |done]. apply count_pos in Hin. lia.
  - intros _. exact (NI_io w I t tk Ht (waiting_busy _ Hw)).
  - intros _. exact (NI_done w I t tk Ht (or_intror (or_introl Ew))).
  - intros r err E1. by rewrite E1 in Hw.
Qed.
End work.

Lemma wait_inv fds : forall w ts e', net_inv w -> netpoll_wait (ep w) fds = Some (ts, e') ->
  net_inv (Net e' (batch w ++ ts) (worker w) (n_ready w) (n_waitq w) (n_tasks w)).
Proof using.
  induction fds as [|fd fds IH]; intros w ts e' I E1; cbn [netpoll_wait] in E1; [injection E1 as <- <-; rewrite app_nil_r; by destruct w|].
  destruct (ep_event (ep w) fd) as [[t e1]|] eqn:Ee; [|done]. cbn [mbind option_bind] in E1.
  destruct (netpoll_wait e1 fds) as [[ts1 e2]|] eqn:Ew; [|done]. cbn [mbind option_bind] in E1. injection E1 as <- <-.
  pose proof (IH _ ts1 e2 (poll_inv w I fd t e1 Ee) Ew) as I'. cbn [batch worker n_ready n_waitq n_tasks] in I'. by rewrite <- app_assoc in I'.
Qed.

(** Every call respects [call_ok]. *)
Fixpoint exclusive w (l : list naction) : Prop :=
  match l with
  | [] => True
  | a :: l =>
      match a with NCall i o fd buf len => call_ok w i o fd buf len | _ => True end /\
      match nact w a with Some w' => exclusive w' l | None => True end
  end.

Lemma do_inv w i tk w' : net_inv w -> n_tasks w !! i = Some tk -> net_op w i tk = Some w' -> net_inv w'.
Proof using.
  intros I Hi E1. unfold net_op in E1. destruct (n_pc tk) eqn:Hp; try done.
  - unfold netpoll_add in E1. destruct (ep_reg (ep w) (n_fd (n_io tk))) as [v|] eqn:Er.
    + rewrite add_old in E1 by (by eexists). change (EEXIST =? 0) with false in E1. change (EEXIST =? EEXIST) with true in E1. cbv iota in E1. injection E1 as <-.
      apply (task_inv w i tk _ _ I Hi). left. split; [done|]. left. split; [done|]. by rewrite Er.
    + pose proof (add_new (ep w) _ (to_epoll_events (events_of (n_op (n_io tk)))) i Er) as Ha.
      destruct (ctl_add _ _ _ _) as [r e']. destruct Ha as [[-> Hs]|(Hr & Hne & ->)].
      * injection E1 as <-. eapply (register_inv w i tk e' _ I Hi); [by left|apply events_oneshot|exact Hs].
      * rewrite (proj2 (Z.eqb_neq r 0)), (proj2 (Z.eqb_neq r EEXIST)) in E1 by lia. injection E1 as <-.
        apply (task_inv w i tk _ _ I Hi). left. split; [done|]. right. by exists r.
  - unfold netpoll_mod in E1. pose proof (mod_old (ep w) (n_fd (n_io tk)) (to_epoll_events (events_of (n_op (n_io tk)))) i) as Ha.
    destruct (ctl_mod _ _ _ _) as [r e']. destruct Ha as [_ Hs]; [eapply (NI_some w I); [done|by left]|]. injection E1 as <-.
    eapply (register_inv w i tk e' _ I Hi); [by right|apply events_oneshot|exact Hs].
  - injection E1 as <-. apply (task_inv w i tk _ _ I Hi). right. by rewrite Hp.
  - injection E1 as <-. apply (task_inv w i tk _ _ I Hi). right. by rewrite Hp.
  - case_decide; [|done]. injection E1 as <-. by apply resume_inv.
Qed.

Lemma work_inv w res errno data w' : net_inv w -> netio_worker w res errno data = Some w' -> net_inv w'.
Proof using.
  intros I E1. unfold netio_worker in E1. destruct (worker w) as [|t|t|t] eqn:Ew.
  - destruct (batch w) as [|t ts] eqn:Eb; [done|]. destruct (n_tasks w !! t) as [tk|] eqn:Ht; [|done]. cbn [mbind option_bind] in E1.
    destruct (answer_ok _ _ _ _) eqn:Ha; [|done]. destruct (handle _ _ _ _ _) as [[x p]|] eqn:Hh; [|done]. cbn [mbind option_bind] in E1. injection E1 as <-.
    by eapply handle_inv.
  - destruct (n_tasks w !! t) as [tk|] eqn:Ht; [|done]. cbn [mbind option_bind] in E1. unfold netpoll_mod in E1.
    pose proof (mod_old (ep w) (n_fd (n_io tk)) (to_epoll_events (events_of (n_op (n_io tk)))) t) as Ha.
    destruct (ctl_mod _ _ _ _) as [r e']. destruct Ha as [_ Hs]; [eapply (NI_some w I); [done|by right; right]|]. injection E1 as <-.
    eapply (mod_inv w I t tk e' _ Ew Ht); [apply events_oneshot|exact Hs].
  - destruct (n_tasks w !! t) as [tk|] eqn:Ht; [|done]. cbn [mbind option_bind] in E1. unfold netpoll_del in E1.
    pose proof (del_reg (ep w) (n_fd (n_io tk))) as Hs. destruct (ctl_del _ _) as [r e']. cbn [snd] in Hs. injection E1 as <-. exact (del_inv w I t tk e' Ew Ht Hs).
  - destruct (n_tasks w !! t) as [tk|] eqn:Ht; [|done]. cbn [mbind option_bind] in E1. injection E1 as <-. exact (push_inv w I t tk Ew Ht).
Qed.

Lemma nact_inv w a w' : net_inv w -> match a with NCall i o fd buf len => call_ok w i o fd buf len | _ => True end -> nact w a = Some w' -> net_inv w'.
Proof using.
  intros I Hc E1. destruct a as [i o fd buf len|i|fds|res errno data]; cbn [nact] in E1.
  - destruct (n_tasks w !! i) as [tk|] eqn:Hi; [|done]. cbn [mbind option_bind] in E1. destruct (n_pc tk) eqn:Hp; try done. injection E1 as <-. by eapply call_inv.
  - destruct (n_tasks w !! i) as [tk|] eqn:Hi; [|done]. by eapply do_inv.
  - destruct (worker w) eqn:Ew; try done. destruct (batch w) eqn:Eb; try done. destruct (netpoll_wait _ _) as [[ts e']|] eqn:Ep; [|done].
    cbn [mbind option_bind] in E1. injection E1 as <-. pose proof (wait_inv fds w ts e' I Ep) as I'. by rewrite Ew, Eb in I'.
  - by eapply work_inv.
Qed.

Lemma nacts_inv l : forall w w', net_inv w -> exclusive w l -> nacts w l = Some w' -> net_inv w'.
Proof using.
  induction l as [|a l IH]; intros w w' I Hex E1; cbn [nacts] in E1; [by simplify_eq|]. destruct Hex as [Hc Hx].
  destruct (nact w a) as [w1|] eqn:Ea; [|done]. cbn [mbind option_bind] in E1. eapply IH; [by eapply nact_inv|exact Hx|exact E1].
Qed.

Lemma net_start_inv e n : (forall fd, ep_reg e fd = None) -> net_inv (net_start e n).
Proof using.
  intros He. assert (Ht : forall i tk, n_tasks (net_start e n) !! i = Some tk -> tk = NTask (NOut None) (net_io IO_ACCEPT (-1) [] 0)).
  { intros i tk Hi. by apply lookup_replicate in Hi as [-> _]. }
  split; cbn [net_start ep batch worker n_ready] in *.
  - intros fd b ev t. by rewrite He.
  - intros fd ev t. by rewrite He.
  - intros i j tki tkj Hi Hj Hb. by rewrite (Ht i tki Hi) in Hb.
  - intros i tk Hi. rewrite (Ht i tk Hi). unfold armed. by rewrite He.
  - intros t tk Hi Hp. rewrite (Ht t tk Hi) in Hp. destruct Hp as [?|[Hb|?]]; [done| |done]. by apply not_elem_of_nil in Hb.
  - intros t tk Hi Hb. by rewrite (Ht t tk Hi) in Hb.
  - intros t tk Hi [?|[?|Hb]]; [done..|]. by apply not_elem_of_nil in Hb.
  - intros t tk r err Hi Hp. by rewrite (Ht t tk Hi) in Hp.
Qed.
End inv.
