(* ===== verification/NetioThms.v ===== *)
(** * NetioThms: network operations complete, unless a descriptor is shared *)

From S2P Require Import Prelude Threads Tokens Netio NetioInv.

(** ** Event masks *)

(** Translating the poller's flags to epoll's and back gives the flags
    for readiness, errors and hang-ups unchanged and drops the one-shot flag,
    which epoll never reports. *)
Theorem poll_events_roundtrip (ev : Z) (Hev : 0 <= ev < 32) : from_epoll_events (to_epoll_events ev) = Z.land ev 15.
Proof.
  assert (Hall : forallb (fun ev => from_epoll_events (to_epoll_events ev) =? Z.land ev 15) (Z.of_nat <$> seq 0 32) = true) by (vm_compute; reflexivity).
  rewrite forallb_forall in Hall. apply Z.eqb_eq, Hall. apply list_elem_of_In, list_elem_of_fmap. exists (Z.to_nat ev). split; [lia|]. apply elem_of_seq. lia.
Qed.

Section thms.
Context `{EpollLaws E}.
Implicit Types (w : net E) (e : E).

(** C28: while each descriptor is used by one task at a time, a task that
    sleeps in a network operation is, in every reachable state, in exactly
    one of four places: its descriptor is registered and armed for it, its
    event is in the batch of the I/O thread, the I/O thread holds it, or it
    is in the ready queue.  An armed registration hands the task to the idle
    I/O thread when the event comes, and from the ready queue its next step
    returns the result that was set. *)
Theorem net_one_place e n l w i tk (He : forall fd, ep_reg e fd = None) (Hex : exclusive (net_start e n) l)
  (Hrun : nacts (net_start e n) l = Some w) (Hi : n_tasks w !! i = Some tk) (Hp : n_pc tk = NAsleep) :
  armed (ep w) (n_io tk) i + count_t i (batch w) + held i (worker w) + count_t i (n_ready w) = 1 /\
  (armed (ep w) (n_io tk) i = 1 -> worker w = WNext -> batch w = [] ->
     exists w', nact w (Poll [n_fd (n_io tk)]) = Some w' /\ batch w' = [i]) /\
  (i ∈ n_ready w -> finished (n_io tk) /\ exists w', nact w (NDo i) = Some w' /\
     n_tasks w' !! i = Some (NTask (NOut (Some (n_done (n_io tk), n_err (n_io tk)))) (n_io tk))).
Proof.
  assert (I : net_inv w) by (eapply nacts_inv; [by apply (net_start_inv e n)|exact Hex|exact Hrun]).
  pose proof (NI_tok w I i tk Hi) as IT. rewrite Hp in IT. split; [exact IT|]. split.
  - intros Ha Ew Eb. unfold armed in Ha. destruct (ep_reg (ep w) (n_fd (n_io tk))) as [[[[] ev] t]|] eqn:Er; try done.
    assert (t = i) as -> by (unfold is_t in Ha; by case_decide). destruct (event_armed _ _ _ _ Er) as [e' Ee].
    cbn [nact netpoll_wait]. rewrite Ew, Eb, Ee. cbn [mbind option_bind]. by eexists.
  - intros Hr. split; [eapply (NI_done w I); [done|by right; right]|]. cbn [nact]. rewrite Hi. cbn [mbind option_bind]. unfold net_op. rewrite Hp, decide_True by done.
    eexists. split; [done|]. cbn [n_tasks]. by eapply insert_at.
Qed.


(** A [net_read] that returns a count has received that many bytes, not
    more than it asked for; one that returns -1 has an error number. *)
Theorem net_read_counts e n l w i tk r err (He : forall fd, ep_reg e fd = None) (Hex : exclusive (net_start e n) l)
  (Hrun : nacts (net_start e n) l = Some w) (Hi : n_tasks w !! i = Some tk) (Hop : n_op (n_io tk) = IO_READ) (Hp : n_pc tk = NOut (Some (r, err))) :
  r = Z.of_nat (length (n_buf (n_io tk))) /\ r <= n_req (n_io tk) /\ err = 0 \/ r = -1 /\ 0 < err.
Proof.
  assert (I : net_inv w) by (eapply nacts_inv; [by apply (net_start_inv e n)|exact Hex|exact Hrun]).
  destruct (NI_out w I i tk r err Hi Hp) as [?|(-> & -> & Hok & Hf)]; [by right|]. unfold io_ok, finished in *. rewrite Hop in *.
  destruct Hf as [?|(He0 & Hd)]; [by right|left]. lia.
Qed.

(** ** A task that nothing refers to any more *)
Definition lost w (i : nat) : Prop :=
  (exists tk, n_tasks w !! i = Some tk /\ waiting (n_pc tk) = true) /\ (forall fd ev, ep_reg (ep w) fd <> Some (true, ev, i)) /\
  i ∉ batch w /\ held i (worker w) = 0 /\ i ∉ n_ready w.

(** No change of one registration on behalf of another task arms it for
    [i]. *)
Lemma not_armed e e' fd b ev t i : (forall fd ev, ep_reg e fd <> Some (true, ev, i)) -> t <> i ->
  (forall x, ep_reg e' x = if decide (x = fd) then Some (b, ev, t) else ep_reg e x) -> forall fd ev, ep_reg e' fd <> Some (true, ev, i).
Proof. intros Ha Hne Hs x ev'. rewrite (Hs x). case_decide; [congruence|apply Ha]. Qed.

Lemma mod_not_armed e fd ev t i : (forall fd ev, ep_reg e fd <> Some (true, ev, i)) -> t <> i ->
  forall fd' ev', ep_reg (ctl_mod e fd ev t).2 fd' <> Some (true, ev', i).
Proof.
  intros Ha Hne. destruct (ep_reg e fd) as [v|] eqn:Er; [|by rewrite mod_new].
  pose proof (mod_old e fd ev t ltac:(by rewrite Er)) as Hm. destruct (ctl_mod e fd ev t) as [r e']. destruct Hm as [_ Hs]. by eapply not_armed.
Qed.

Lemma add_not_armed e fd ev t i : (forall fd ev, ep_reg e fd <> Some (true, ev, i)) -> t <> i ->
  forall fd' ev', ep_reg (ctl_add e fd ev t).2 fd' <> Some (true, ev', i).
Proof.
  intros Ha Hne. destruct (ep_reg e fd) as [v|] eqn:Er; [by rewrite (add_old e fd ev t) by (by rewrite Er)|].
  pose proof (add_new e fd ev t Er) as Hm. destruct (ctl_add e fd ev t) as [r e']. destruct Hm as [[_ Hs]|(_ & _ & ->)]; [by eapply not_armed|done].
Qed.

Lemma wait_not_armed i fds : forall e ts e', (forall fd ev, ep_reg e fd <> Some (true, ev, i)) -> netpoll_wait e fds = Some (ts, e') ->
  (forall fd ev, ep_reg e' fd <> Some (true, ev, i)) /\ i ∉ ts.
Proof.
  induction fds as [|fd fds IH]; intros e ts e' Ha E1; cbn [netpoll_wait] in E1; [injection E1 as <- <-; split; [done|apply not_elem_of_nil]|].
  destruct (ep_event e fd) as [[t e1]|] eqn:Ee; [|done]. cbn [mbind option_bind] in E1.
  destruct (netpoll_wait e1 fds) as [[ts1 e2]|] eqn:Ew; [|done]. cbn [mbind option_bind] in E1. injection E1 as <- <-.
  destruct (event_reg _ _ _ _ Ee) as (ev & Hr & Hs). assert (t <> i) as Hne by (intros ->; by apply (Ha fd ev)).
  destruct (IH e1 ts1 e2) as [Ha2 Hn]; [by eapply not_armed|done|]. split; [done|]. rewrite not_elem_of_cons. auto.
Qed.

Lemma held_zero i p : held i p = 0 -> p <> WMod i /\ p <> WDel i /\ p <> WPush i.
Proof. intros Hh. split_and!; intros ->; cbn in Hh; by rewrite is_t_self in Hh. Qed.

Lemma lost_other w i j p x : (exists tk, n_tasks w !! i = Some tk /\ waiting (n_pc tk) = true) -> j <> i ->
  exists tk, <[j := NTask p x]> (n_tasks w) !! i = Some tk /\ waiting (n_pc tk) = true.
Proof. intros (tk & Hi & Hw) Hne. exists tk. by rewrite insert_other. Qed.

Lemma lost_do w i j tk w' : lost w i -> n_tasks w !! j = Some tk -> net_op w j tk = Some w' -> lost w' i.
Proof.
  intros (Ht & Ha & Hb & Hh & Hr) Hj E1. unfold net_op in E1. destruct (decide (j = i)) as [->|Hne].
  - destruct Ht as (tk' & Hi & Hw). assert (tk' = tk) as -> by congruence. destruct (n_pc tk) eqn:Hp; try done.
    + injection E1 as <-. split_and!; try done. eexists. split; [by eapply insert_at|done].
    + injection E1 as <-. split_and!; try done. eexists. split; [by eapply insert_at|done].
    + by rewrite decide_False in E1.
  - destruct (n_pc tk); try done.
    + pose proof (add_not_armed (ep w) (n_fd (n_io tk)) (to_epoll_events (events_of (n_op (n_io tk)))) j i Ha Hne) as Ha'. unfold netpoll_add in E1.
      destruct (ctl_add _ _ _ _) as [r e']. injection E1 as <-. split_and!; try done. by apply lost_other.
    + pose proof (mod_not_armed (ep w) (n_fd (n_io tk)) (to_epoll_events (events_of (n_op (n_io tk)))) j i Ha Hne) as Ha'. unfold netpoll_mod in E1.
      destruct (ctl_mod _ _ _ _) as [r e']. injection E1 as <-. split_and!; try done. by apply lost_other.
    + injection E1 as <-. split_and!; try done. by apply lost_other.
    + injection E1 as <-. split_and!; try done. by apply lost_other.
    + case_decide; [|done]. injection E1 as <-. split_and!; try done; [by apply lost_other|]. cbn. intros Hin%elem_of_remove. done.
Qed.

Lemma handle_held x t res errno data x' p i : handle x t res errno data = Some (x', p) -> t <> i -> held i p = 0.
Proof.
  unfold handle. intros Hh Hne. cbn [with_err with_result n_op] in Hh.
  repeat match type of Hh with
    | context [match n_op ?y with _ => _ end] => destruct (n_op y)
    | context [if ?b then _ else _] => destruct b
    | (c_assert ?b ≫= _) = _ => destruct b; cbn [c_assert mbind option_bind] in Hh; [|done]
    end; try done; injection Hh as <- <-; by apply is_t_other.
Qed.

Lemma lost_work w i res errno data w' : lost w i -> netio_worker w res errno data = Some w' -> lost w' i.
Proof.
  intros (Ht & Ha & Hb & Hh & Hr) E1. unfold netio_worker in E1. destruct (worker w) as [|t|t|t] eqn:Ew; try destruct (held_zero i _ Hh) as (N1 & N2 & N3).
  - destruct (batch w) as [|t ts] eqn:Eb; [done|]. rewrite not_elem_of_cons in Hb. destruct Hb as [Hne Hb].
    destruct (n_tasks w !! t) as [tk|] eqn:Htk; [|done]. cbn [mbind option_bind] in E1. destruct (answer_ok _ _ _ _); [|done].
    destruct (handle _ _ _ _ _) as [[x p]|] eqn:Eh; [|done]. cbn [mbind option_bind] in E1. injection E1 as <-.
    split_and!; try done; [by apply lost_other|]. by eapply handle_held.
  - destruct (n_tasks w !! t) as [tk|]; [|done]. cbn [mbind option_bind] in E1. assert (t <> i) as Hne by congruence.
    pose proof (mod_not_armed (ep w) (n_fd (n_io tk)) (to_epoll_events (events_of (n_op (n_io tk)))) t i Ha Hne) as Ha'. unfold netpoll_mod in E1.
    destruct (ctl_mod _ _ _ _) as [r e']. injection E1 as <-. by split_and!.
  - destruct (n_tasks w !! t) as [tk|]; [|done]. cbn [mbind option_bind] in E1. pose proof (del_reg (ep w) (n_fd (n_io tk))) as Hs. unfold netpoll_del in E1.
    destruct (ctl_del _ _) as [r e']. cbn [snd] in Hs. injection E1 as <-. split_and!; try done. intros fd ev. cbn [ep]. rewrite Hs. by case_decide.
  - destruct (n_tasks w !! t) as [tk|]; [|done]. cbn [mbind option_bind] in E1. assert (t <> i) as Hne by congruence. injection E1 as <-.
    split_and!; try done; [by apply lost_other|]. cbn. rewrite elem_of_app, list_elem_of_singleton. naive_solver.
Qed.

Lemma lost_step w i a w' : lost w i -> nact w a = Some w' -> lost w' i.
Proof.
  intros Hl E1. destruct a as [j o fd buf len|j|fds|res errno data]; cbn [nact] in E1.
  - destruct Hl as ((tki & Hi & Hw) & Ha & Hb & Hh & Hr). destruct (n_tasks w !! j) as [tk|] eqn:Hj; [|done]. cbn [mbind option_bind] in E1.
    destruct (n_pc tk) eqn:Hp; try done. injection E1 as <-. assert (j <> i) as Hne by (intros ->; simplify_eq; by rewrite Hp in Hw).
    split_and!; try done. apply lost_other; [by exists tki|done].
  - destruct (n_tasks w !! j) as [tk|] eqn:Hj; [|done]. by eapply lost_do.
  - destruct Hl as (Ht & Ha & Hb & Hh & Hr). destruct (worker w) eqn:Ew; try done. destruct (batch w) eqn:Eb; try done.
    destruct (netpoll_wait _ _) as [[ts e']|] eqn:Ep; [|done]. cbn [mbind option_bind] in E1. injection E1 as <-.
    destruct (wait_not_armed i _ _ _ _ Ha Ep). by split_and!.
  - by eapply lost_work.
Qed.

Lemma lost_forever l : forall w w' i, lost w i -> nacts w l = Some w' -> lost w' i.
Proof.
  induction l as [|a l IH]; intros w w' i Hl E1; cbn [nacts] in E1; [by simplify_eq|].
  destruct (nact w a) as [w1|] eqn:Ea; [|done]. cbn [mbind option_bind] in E1. eapply IH; [by eapply lost_step|exact E1].
Qed.
End thms.

(** ** An epoll instance *)
Abbreviation registry := (gmap Z (bool * Z * nat)).

#[export] Instance map_epoll : Epoll registry := {|
  ctl_add e fd ev t := match e !! fd with Some _ => (EEXIST, e) | None => (0, <[fd := (true, ev, t)]> e) end;
  ctl_mod e fd ev t := match e !! fd with Some _ => (0, <[fd := (true, ev, t)]> e) | None => (2, e) end;
  ctl_del e fd := match e !! fd with Some _ => (0, delete fd e) | None => (2, e) end;
  ep_event e fd := match e !! fd with Some (true, ev, t) => Some (t, <[fd := (negb (Z.testbit ev 30), ev, t)]> e) | _ => None end
|}.

#[export] Instance map_epoll_laws : EpollLaws registry.
Proof.
  refine {| ep_reg := fun e fd => e !! fd |}.
  - intros e fd ev t Hr. cbn. rewrite Hr. left. split; [done|]. intros x. case_decide; [subst; by rewrite lookup_insert_eq|by rewrite lookup_insert_ne].
  - intros e fd ev t [v Hr]. cbn. by rewrite Hr.
  - intros e fd ev t [v Hr]. cbn. rewrite Hr. split; [done|]. intros x. case_decide; [subst; by rewrite lookup_insert_eq|by rewrite lookup_insert_ne].
  - intros e fd ev t Hr. cbn. by rewrite Hr.
  - intros e fd x. cbn. destruct (e !! fd) eqn:Hr; cbn; case_decide; subst; [by rewrite lookup_delete_eq|by rewrite lookup_delete_ne|done|done].
  - intros e fd t e'. cbn. destruct (e !! fd) as [[[[] ev] t']|] eqn:Hr; try done. intros [= -> <-]. exists ev. split; [done|].
    intros x. case_decide; [subst; by rewrite lookup_insert_eq|by rewrite lookup_insert_ne].
  - intros e fd ev t Hr. cbn. rewrite Hr. by eexists.
Defined.

(** Task 0 waits to read from descriptor 5, then task 1 to write to it. *)
Definition shared_descriptor : list naction :=
  [NCall 0 IO_READ 5 [] 64; NDo 0; NDo 0; NDo 0; NCall 1 IO_WRITE 5 [1; 2] 2; NDo 1; NDo 1].

Definition after_second_call : net registry :=
  Net {[5 := (true, to_epoll_events (events_of IO_WRITE), 1%nat)]} [] WNext [] [0%nat]
    [NTask NAsleep (net_io IO_READ 5 [] 64); NTask NPush (net_io IO_WRITE 5 [1; 2] 2)].

(** A task that waits on a descriptor is lost when another task starts
    an operation on the same descriptor: [netpoll_add] fails with [EEXIST],
    [netpoll_mod] overwrites the registration of the first task, and in no
    continuation of the schedule does its [net_read] return. *)
Theorem second_waiter_replaces_first (l : list naction) (w : net registry) (Hrun : nacts (net_start ∅ 2) (shared_descriptor ++ l) = Some w) :
  exists tk, n_tasks w !! 0%nat = Some tk /\ waiting (n_pc tk) = true.
Proof.
  assert (nacts (net_start (∅ : registry) 2) shared_descriptor = Some after_second_call) as E1 by (vm_compute; reflexivity).
  assert (nacts after_second_call l = Some w) as E2 by exact Hrun.
  eapply (lost_forever l after_second_call w 0); [|exact E2]. split; [eexists; split; [reflexivity|done]|].
  split; [|split; [by apply not_elem_of_nil|split; [done|by apply not_elem_of_nil]]].
  intros fd ev Hr. cbn in Hr. by apply lookup_singleton_Some in Hr as [_ ?].
Qed.

(** ** Instances *)
(** A write of five bytes that the socket takes in three pieces. *)
Definition write_in_pieces : list naction :=
  [NCall 0 IO_WRITE 7 [1; 2; 3; 4; 5] 5; NDo 0; NDo 0; NDo 0; Poll [7]; Work (-1) EAGAIN []; Work 0 0 []; Poll [7]; Work 2 0 []; Work 0 0 [];
   Poll [7]; Work 3 0 []; Work 0 0 []].
Definition write_done : nio := NIo 7 [1; 2; 3; 4; 5] 5 5 5 0 true IO_WRITE [1; 2; 3; 4; 5].
Definition write_ready : net registry := Net {[7 := (false, to_epoll_events (events_of IO_WRITE), 0%nat)]} [] WNext [0%nat] [0%nat] [NTask NAsleep write_done].
Definition write_over : net registry := Net {[7 := (false, to_epoll_events (events_of IO_WRITE), 0%nat)]} [] WNext [] [] [NTask (NOut (Some (5, 0))) write_done].

(** One task alone shares nothing. *)
Lemma alone_call (w : net registry) (i : nat) (o : nop) (fd : Z) (buf : list Z) (len : Z) (tk : ntask) : n_tasks w = [tk] -> busy (n_pc tk) = false ->
  match o with IO_WRITE => len = Z.of_nat (length buf) | IO_READ => 0 <= len | _ => True end -> call_ok w i o fd buf len.
Proof.
  intros Ht Hb Hl. split; [|done]. intros [|j] tkj Hj; rewrite Ht in Hj; [injection Hj as <-; congruence|done].
Qed.

Lemma write_exclusive : exclusive (net_start (∅ : registry) 1) (write_in_pieces ++ [NDo 0]).
Proof.
  split; [eapply alone_call; [reflexivity|done|done]|]. vm_compute. repeat split.
Qed.

Lemma net_one_place_witness : nacts (net_start (∅ : registry) 1) write_in_pieces = Some write_ready /\ finished write_done.
Proof.
  split; [vm_compute; reflexivity|].
  destruct (net_one_place (∅ : registry) 1 write_in_pieces write_ready 0 (NTask NAsleep write_done)) as (_ & _ & Hr);
    [intros fd; apply lookup_empty| |vm_compute; reflexivity|reflexivity|reflexivity|].
  - split; [eapply alone_call; [reflexivity|done|done]|]. vm_compute. repeat split.
  - apply Hr. by left.
Defined.


Definition read_once : list naction := [NCall 0 IO_READ 7 [] 64; NDo 0; NDo 0; NDo 0; Poll [7]; Work 3 0 [9; 8; 7]; Work 0 0 []; NDo 0].
Definition read_io : nio := NIo 7 [9; 8; 7] 64 3 3 0 true IO_READ [].
Definition read_over : net registry := Net {[7 := (false, to_epoll_events (events_of IO_READ), 0%nat)]} [] WNext [] [] [NTask (NOut (Some (3, 0))) read_io].

Lemma net_read_counts_witness : nacts (net_start (∅ : registry) 1) read_once = Some read_over /\ 3 <= n_req read_io.
Proof.
  split; [vm_compute; reflexivity|].
  destruct (net_read_counts (∅ : registry) 1 read_once read_over 0 (NTask (NOut (Some (3, 0))) read_io) 3 0) as [(_ & Hs & _)|[? _]];
    [intros fd; apply lookup_empty| |vm_compute; reflexivity|reflexivity|reflexivity|reflexivity|exact Hs|done].
  split; [eapply alone_call; [reflexivity|done|lia]|]. vm_compute. repeat split.
Defined.

Lemma second_waiter_replaces_first_witness : exists w, nacts (net_start (∅ : registry) 2) (shared_descriptor ++ [NDo 1; NDo 1; Poll [5]]) = Some w /\
  exists tk, n_tasks w !! 0%nat = Some tk /\ waiting (n_pc tk) = true.
Proof.
  eexists. split; [vm_compute; reflexivity|]. eapply (second_waiter_replaces_first [NDo 1; NDo 1; Poll [5]]). vm_compute. reflexivity.
Defined.

Lemma poll_events_roundtrip_witness : from_epoll_events (to_epoll_events 18) = 2.
Proof. exact (poll_events_roundtrip 18 ltac:(lia)). Defined.
