(* ===== verification/Sockets.v ===== *)
(** * Sockets: opening listening and outgoing sockets (src/runtime/src/netio.c)

    [__public__net_listen] and [__public__net_dial] try the addresses that
    [getaddrinfo] returns one after the other.  The results of the system
    calls for each address are an argument; the functions return the calls
    they make that open, configure and close descriptors, in order. *)

From S2P Require Import Prelude.

Definition EINPROGRESS : Z := 115.
Definition SOMAXCONN : Z := 4096.
Definition EEXIST : Z := 17.

Inductive sockopt := SO_REUSEADDR | SO_REUSEPORT | SO_RCVBUF | SO_SNDBUF | SO_KEEPALIVE | IPV6_V6ONLY | TCP_NODELAY | TCP_DEFER_ACCEPT | TCP_FASTOPEN.

(** A call on a descriptor. *)
Inductive call := Socket (fd : Z) | SetNonblock (fd : Z) | SetCloexec (fd : Z) | SetOpt (fd : Z) (o : sockopt) (v : Z) | Bind (fd : Z) | Listen (fd backlog : Z)
  | Connect (fd : Z) | Register (fd : Z) | Close (fd : Z).

(** What the system calls return for one address of a listening socket. *)
Record listen_answers := LA { l_socket : Z; l_getfl : Z; l_setfl : Z; l_getfd : Z; l_setfd : Z; l_family6 : bool; l_bind : Z }.

(** The parameters of [__public__net_listen] that are options. *)
Record listen_options := LO { close_on_exec : Z; reuse_addr : Z; reuse_port : Z; tcp_nodelay : Z; tcp_defer_accept : Z; tcp_fastopen : Z; keepalive : Z;
  rcvbuf : Z; sndbuf : Z; ipv6_only : Z }.

Definition when (b : bool) (l : list call) : list call := if b then l else [].

(** The options that are set before [bind]. *)
Definition options_before_bind (o : listen_options) (fd : Z) (family6 : bool) : list call :=
  when (truthy (reuse_addr o)) [SetOpt fd SO_REUSEADDR 1] ++ when (truthy (reuse_port o)) [SetOpt fd SO_REUSEPORT 1] ++
  when (0 <? rcvbuf o) [SetOpt fd SO_RCVBUF (rcvbuf o)] ++ when (0 <? sndbuf o) [SetOpt fd SO_SNDBUF (sndbuf o)] ++
  when (truthy (keepalive o)) [SetOpt fd SO_KEEPALIVE 1] ++ when (family6 && truthy (ipv6_only o)) [SetOpt fd IPV6_V6ONLY 1].

(** One address: the calls, and whether [bind] succeeded. *)
Definition listen_one (o : listen_options) (a : listen_answers) : list call * bool :=
  let fd := l_socket a in
  let fail := [Close fd] in
  if l_getfl a <? 0 then (fail, false)
  else if l_setfl a <? 0 then (SetNonblock fd :: fail, false)
  else
    let calls := [SetNonblock fd] in
    if truthy (close_on_exec o) && (l_getfd a <? 0) then (calls ++ fail, false)
    else if truthy (close_on_exec o) && (l_setfd a <? 0) then (calls ++ SetCloexec fd :: fail, false)
    else
      let calls := calls ++ when (truthy (close_on_exec o)) [SetCloexec fd] ++ options_before_bind o fd (l_family6 a) ++ [Bind fd] in
      if l_bind a =? 0 then (calls, true) else (calls ++ fail, false).

(** The loop over the addresses; [fd] is the descriptor after it. *)
Fixpoint listen_loop (o : listen_options) (ais : list listen_answers) (fd : Z) : list call * Z :=
  match ais with
  | [] => ([], fd)
  | a :: ais =>
      if l_socket a <? 0 then listen_loop o ais (l_socket a)
      else
        let '(calls, bound) := listen_one o a in
        if bound then (Socket (l_socket a) :: calls, l_socket a)
        else let '(rest, r) := listen_loop o ais (-1) in (Socket (l_socket a) :: calls ++ rest, r)
  end.

(** [found]: the result of [getaddrinfo] is 0; [listened]: that of [listen]. *)
Definition __public__net_listen (o : listen_options) (backlog : Z) (found : bool) (ais : list listen_answers) (listened : Z) : list call * Z :=
  if negb found then ([], -1)
  else
    let '(calls, fd) := listen_loop o ais (-1) in
    if fd <? 0 then (calls, -1)
    else
      let bl := if 0 <? backlog then backlog else SOMAXCONN in
      let calls := calls ++ when (truthy (tcp_nodelay o)) [SetOpt fd TCP_NODELAY 1] ++
        when (0 <? tcp_defer_accept o) [SetOpt fd TCP_DEFER_ACCEPT (tcp_defer_accept o)] ++
        when (0 <? tcp_fastopen o) [SetOpt fd TCP_FASTOPEN (tcp_fastopen o)] ++ [Listen fd bl] in
      if listened <? 0 then (calls ++ [Close fd], -1) else (calls, fd).

(** What the calls return for one address of an outgoing connection;
    [d_alloc]: both allocations succeed; [d_errno]: after [connect];
    [d_add], [d_add_errno]: of [netpoll_add]; [d_getsockopt], [d_err]: the
    check after the task was resumed. *)
Record dial_answers := DA { d_socket : Z; d_getfl : Z; d_setfl : Z; d_setfd : Z; d_connect : Z; d_errno : Z; d_alloc : bool; d_add : Z; d_add_errno : Z;
  d_getsockopt : Z; d_err : Z }.

(** One address: the calls, and whether the function returns [fd]. *)
Definition dial_one (a : dial_answers) : list call * bool :=
  let fd := d_socket a in
  let fail := [Close fd] in
  if d_getfl a <? 0 then (fail, false)
  else if d_setfl a <? 0 then (SetNonblock fd :: fail, false)
  else if d_setfd a <? 0 then ([SetNonblock fd; SetCloexec fd] ++ fail, false)
  else
    let calls := [SetNonblock fd; SetCloexec fd; Connect fd] in
    if d_connect a =? 0 then (calls, true)
    else if negb (d_errno a =? EINPROGRESS) then (calls ++ fail, false)
    else if negb (d_alloc a) then (calls ++ fail, false)
    else
      let calls := calls ++ [Register fd] in
      if (d_add a <? 0) && negb (d_add_errno a =? EEXIST) then (calls ++ fail, false)
      else
        let calls := calls ++ when (d_add a <? 0) [Register fd] in
        if (d_getsockopt a <? 0) || negb (d_err a =? 0) then (calls ++ fail, false) else (calls, true).

Fixpoint dial_loop (ais : list dial_answers) : list call * Z :=
  match ais with
  | [] => ([], -1)
  | a :: ais =>
      if d_socket a <? 0 then dial_loop ais
      else
        let '(calls, connected) := dial_one a in
        if connected then (Socket (d_socket a) :: calls, d_socket a)
        else let '(rest, r) := dial_loop ais in (Socket (d_socket a) :: calls ++ rest, r)
  end.

Definition __public__net_dial (found : bool) (ais : list dial_answers) : list call * Z := if negb found then ([], -1) else dial_loop ais.

(** ** Descriptors that are open after a sequence of calls *)

(** Opening pushes a descriptor, closing takes it off; [None]: a call on a
    descriptor that is not open. *)
Definition run_call (open : list Z) (c : call) : option (list Z) :=
  match c with
  | Socket fd => Some (fd :: open)
  | Close fd => if decide (fd ∈ open) then Some (filter (fun x => x <> fd) open) else None
  | SetNonblock fd | SetCloexec fd | SetOpt fd _ _ | Bind fd | Listen fd _ | Connect fd | Register fd => if decide (fd ∈ open) then Some open else None
  end.

Fixpoint run_calls (open : list Z) (l : list call) : option (list Z) :=
  match l with [] => Some open | c :: l => open ← run_call open c; run_calls open l end.

Lemma run_calls_app (l k : list call) : forall open, run_calls open (l ++ k) = open ← run_calls open l; run_calls open k.
Proof. induction l as [|c l IH]; intros open; cbn [app run_calls]; [done|]. destruct (run_call open c); [apply IH|done]. Qed.

(** Calls on the one open descriptor. *)
Definition uses (fd : Z) (c : call) : Prop :=
  match c with
  | Socket _ | Close _ => False
  | SetNonblock x | SetCloexec x | SetOpt x _ _ | Bind x | Listen x _ | Connect x | Register x => x = fd
  end.

Lemma run_uses (fd : Z) (l : list call) : Forall (uses fd) l -> run_calls [fd] l = Some [fd].
Proof.
  induction 1 as [|c l Hc _ IH]; [done|]. cbn [run_calls]. destruct c; cbn in Hc; try done; subst; cbn [run_call]; (rewrite decide_True by (by left)); exact IH.
Qed.

Lemma run_uses_close (fd : Z) (l : list call) : Forall (uses fd) l -> run_calls [fd] (l ++ [Close fd]) = Some [].
Proof.
  intros Hl. rewrite run_calls_app, run_uses by done. cbn [mbind option_bind run_calls run_call].
  rewrite decide_True by (by left). rewrite filter_cons_False by (intros Hx; by apply Hx). done.
Qed.

Lemma uses_when (fd : Z) (b : bool) (l : list call) : Forall (uses fd) l -> Forall (uses fd) (when b l).
Proof. by destruct b. Qed.

Lemma uses_options o fd f6 : Forall (uses fd) (options_before_bind o fd f6).
Proof. unfold options_before_bind. repeat apply Forall_app_2; apply uses_when; by repeat constructor. Qed.

(** The calls for one address are on its descriptor, which stays open
    exactly when the address is taken. *)
Definition balanced (fd : Z) (r : list call * bool) : Prop :=
  Forall (uses fd) r.1 /\ r.2 = true \/ exists l, r.1 = l ++ [Close fd] /\ Forall (uses fd) l /\ r.2 = false.

Lemma balanced_fail (fd : Z) (l : list call) : Forall (uses fd) l -> balanced fd (l ++ [Close fd], false).
Proof. intros Hl. right. by exists l. Qed.

Lemma listen_one_balanced o a : balanced (l_socket a) (listen_one o a).
Proof.
  unfold listen_one. set (fd := l_socket a).
  destruct (l_getfl a <? 0); [by apply (balanced_fail fd [])|]. destruct (l_setfl a <? 0); [apply (balanced_fail fd [SetNonblock fd]); by repeat constructor|].
  destruct (_ && (l_getfd a <? 0)); [apply balanced_fail; by repeat constructor|].
  destruct (_ && (l_setfd a <? 0)); [apply (balanced_fail fd [SetNonblock fd; SetCloexec fd]); by repeat constructor|].
  assert (Hu : Forall (uses fd) ([SetNonblock fd] ++ when (truthy (close_on_exec o)) [SetCloexec fd] ++ options_before_bind o fd (l_family6 a) ++ [Bind fd])).
  { repeat apply Forall_app_2; try apply uses_when; try apply uses_options; by repeat constructor. }
  destruct (l_bind a =? 0); [by left|by apply balanced_fail].
Qed.

Lemma dial_one_balanced a : balanced (d_socket a) (dial_one a).
Proof.
  unfold dial_one. set (fd := d_socket a).
  destruct (d_getfl a <? 0); [by apply (balanced_fail fd [])|]. destruct (d_setfl a <? 0); [apply (balanced_fail fd [SetNonblock fd]); by repeat constructor|].
  destruct (d_setfd a <? 0); [apply balanced_fail; by repeat constructor|]. destruct (d_connect a =? 0); [left; split; [by repeat constructor|done]|].
  destruct (negb (d_errno a =? EINPROGRESS)); [apply balanced_fail; by repeat constructor|]. destruct (negb (d_alloc a)); [apply balanced_fail; by repeat constructor|].
  destruct (_ && _); [apply balanced_fail; by repeat constructor|].
  assert (Hu : Forall (uses fd) (([SetNonblock fd; SetCloexec fd; Connect fd] ++ [Register fd]) ++ when (d_add a <? 0) [Register fd])).
  { apply Forall_app_2; [by repeat constructor|apply uses_when; by repeat constructor]. }
  destruct (_ || _); [by apply balanced_fail|by left].
Qed.

Lemma run_balanced fd r rest : 0 <= fd -> balanced fd r ->
  run_calls [] (Socket fd :: r.1 ++ rest) = (if r.2 then run_calls [fd] rest else run_calls [] rest).
Proof.
  intros Hfd [[Hu ->]|(l & -> & Hu & ->)]; cbn [run_calls run_call mbind option_bind]; rewrite run_calls_app; [by rewrite run_uses|by rewrite run_uses_close].
Qed.

(** What is open after a function that returned [r]. *)
Definition kept_open (r : Z) : list Z := if r <? 0 then [] else [r].

Lemma listen_loop_open o ais : forall fd0, fd0 < 0 -> let '(calls, fd) := listen_loop o ais fd0 in run_calls [] calls = Some (kept_open fd).
Proof.
  induction ais as [|a ais IH]; intros fd0 Hfd; cbn [listen_loop]; [unfold kept_open; by replace (fd0 <? 0) with true by lia|].
  destruct (Z.ltb_spec (l_socket a) 0) as [Hs|Hs]; [by apply IH|]. pose proof (listen_one_balanced o a) as Hb. destruct (listen_one o a) as [calls [|]].
  - pose proof (run_balanced (l_socket a) (calls, true) [] Hs Hb) as E. cbn [fst snd] in E. rewrite app_nil_r in E. rewrite E. cbn. unfold kept_open.
    by replace (l_socket a <? 0) with false by lia.
  - specialize (IH (-1) ltac:(lia)). destruct (listen_loop o ais (-1)) as [rest r].
    pose proof (run_balanced (l_socket a) (calls, false) rest Hs Hb) as E. cbn [fst snd] in E. by rewrite E.
Qed.

Lemma dial_loop_open ais : let '(calls, fd) := dial_loop ais in run_calls [] calls = Some (kept_open fd).
Proof.
  induction ais as [|a ais IH]; cbn [dial_loop]; [done|].
  destruct (Z.ltb_spec (d_socket a) 0) as [Hs|Hs]; [done|]. pose proof (dial_one_balanced a) as Hb. destruct (dial_one a) as [calls [|]].
  - pose proof (run_balanced (d_socket a) (calls, true) [] Hs Hb) as E. cbn [fst snd] in E. rewrite app_nil_r in E. rewrite E. cbn. unfold kept_open.
    by replace (d_socket a <? 0) with false by lia.
  - destruct (dial_loop ais) as [rest r]. pose proof (run_balanced (d_socket a) (calls, false) rest Hs Hb) as E. cbn [fst snd] in E. by rewrite E.
Qed.

(** C40: whatever the system calls return, [net_listen] and [net_dial] leave
    no descriptor open except the one they return, close none twice, and use
    none after closing it. *)
Theorem sockets_not_leaked (o : listen_options) (backlog : Z) (found : bool) (las : list listen_answers) (listened : Z) (das : list dial_answers) :
  (let '(calls, r) := __public__net_listen o backlog found las listened in run_calls [] calls = Some (kept_open r)) /\
  (let '(calls, r) := __public__net_dial found das in run_calls [] calls = Some (kept_open r)).
Proof.
  unfold __public__net_listen, __public__net_dial. destruct found; cbn [negb]; [|done]. split; [|apply dial_loop_open].
  pose proof (listen_loop_open o las (-1) ltac:(lia)) as Hl. destruct (listen_loop o las (-1)) as [calls fd].
  destruct (Z.ltb_spec fd 0) as [Hf|Hf]; [rewrite Hl; unfold kept_open; by replace (fd <? 0) with true by lia|].
  assert (kept_open fd = [fd]) as Ek by (unfold kept_open; by replace (fd <? 0) with false by lia).
  set (bl := if 0 <? backlog then backlog else SOMAXCONN).
  assert (Hu : Forall (uses fd) (when (truthy (tcp_nodelay o)) [SetOpt fd TCP_NODELAY 1] ++
    when (0 <? tcp_defer_accept o) [SetOpt fd TCP_DEFER_ACCEPT (tcp_defer_accept o)] ++
    when (0 <? tcp_fastopen o) [SetOpt fd TCP_FASTOPEN (tcp_fastopen o)] ++ [Listen fd bl])).
  { repeat apply Forall_app_2; try apply uses_when; by repeat constructor. }
  destruct (listened <? 0).
  - rewrite <- app_assoc, run_calls_app, Hl. cbn [mbind option_bind]. rewrite Ek. by rewrite run_uses_close.
  - rewrite run_calls_app, Hl. cbn [mbind option_bind]. rewrite Ek. by rewrite run_uses.
Qed.
