(* ===== verification/Os.v ===== *)
(** * Os: the system interface of the language (src/runtime/src/platform/linux/os.c)

    Nearly every function is one system call; the environment functions walk
    and change the array [environ] themselves. *)

From S2P Require Import Prelude Mem.

(** ** System calls *)

(** The calls the file makes. *)
Inductive sysno :=
  | SYS_getpid
  | SYS_getppid
  | SYS_gettid
  | SYS_clone
  | SYS_wait4
  | SYS_kill
  | SYS_execve
  | SYS_getcwd
  | SYS_chdir
  | SYS_fchmodat
  | SYS_fchownat
  | SYS_getuid
  | SYS_geteuid
  | SYS_getgid
  | SYS_getegid
  | SYS_setuid
  | SYS_setgid
  | SYS_setpgid
  | SYS_getpgid
  | SYS_setsid
  | SYS_getrlimit
  | SYS_setrlimit
  | SYS_openat
  | SYS_close
  | SYS_read
  | SYS_write
  | SYS_lseek
  | SYS_fstat
  | SYS_dup
  | SYS_dup3
  | SYS_fcntl
  | SYS_mkdirat
  | SYS_unlinkat
  | SYS_renameat
  | SYS_renameat2
  | SYS_linkat
  | SYS_symlinkat
  | SYS_readlinkat
  | SYS_faccessat
  | SYS_newfstatat
  | SYS_getdents64
  | SYS_mmap
  | SYS_munmap
  | SYS_mprotect
  | SYS_madvise
  | SYS_mlock
  | SYS_munlock
  | SYS_mlockall
  | SYS_munlockall
  | SYS_futex
  | SYS_exit
  | SYS_rt_sigaction.

Section calls.
(** The kernel: [syscall] of libc, with the arguments as words; a pointer
    to a string is the word of its [data]. *)
Context {K : Type} (syscall : K -> sysno -> list Z -> Z * K).
(** Constants of the headers of libc and of the kernel. *)
Context (SIGCHLD AT_FDCWD AT_REMOVEDIR AT_SYMLINK_NOFOLLOW FUTEX_WAIT FUTEX_WAKE FUTEX_WAIT_BITSET FUTEX_WAKE_BITSET FUTEX_REQUEUE FUTEX_CMP_REQUEUE sizeof_sigset : Z).

Definition INT_MAX : Z := 2 ^ 31 - 1.

(** The [long] that [syscall] returns, as [int] and as a 64-bit type. *)
Definition as_int (r : Z * K) : Z * K := (swrap 32 r.1, r.2).
Definition as_long (r : Z * K) : Z * K := (swrap 64 r.1, r.2).

Definition __public__os_getpid (k : K) : Z * K := as_int (syscall k SYS_getpid []).
Definition __public__os_getppid (k : K) : Z * K := as_int (syscall k SYS_getppid []).
Definition __public__os_gettid (k : K) : Z * K := as_int (syscall k SYS_gettid []).
Definition __public__os_fork (k : K) : Z * K := as_int (syscall k SYS_clone [SIGCHLD; 0; 0; 0; 0]).
Definition __public__os_waitpid (k : K) (pid status options : Z) : Z * K := as_int (syscall k SYS_wait4 [pid; status; options; NULL]).
Definition __public__os_kill (k : K) (pid sig : Z) : Z * K := as_int (syscall k SYS_kill [pid; sig]).
Definition __public__os_execve (k : K) (path argv envp : Z) : Z * K := as_int (syscall k SYS_execve [path; argv; envp]).
Definition __public__os_execvp (k : K) (file argv environ : Z) : Z * K := as_int (syscall k SYS_execve [file; argv; environ]).
Definition __public__os_getcwd (k : K) (buf size : Z) : Z * K := as_int (syscall k SYS_getcwd [buf; size]).
Definition __public__os_chdir (k : K) (path : Z) : Z * K := as_int (syscall k SYS_chdir [path]).
Definition __public__os_chmod (k : K) (path mode : Z) : Z * K := as_int (syscall k SYS_fchmodat [AT_FDCWD; path; mode]).
Definition __public__os_chown (k : K) (name uid gid : Z) : Z * K := as_int (syscall k SYS_fchownat [AT_FDCWD; name; uid; gid; 0]).
Definition __public__os_getuid (k : K) : Z * K := as_int (syscall k SYS_getuid []).
Definition __public__os_geteuid (k : K) : Z * K := as_int (syscall k SYS_geteuid []).
Definition __public__os_getgid (k : K) : Z * K := as_int (syscall k SYS_getgid []).
Definition __public__os_getegid (k : K) : Z * K := as_int (syscall k SYS_getegid []).
Definition __public__os_setuid (k : K) (uid : Z) : Z * K := as_int (syscall k SYS_setuid [uid]).
Definition __public__os_setgid (k : K) (gid : Z) : Z * K := as_int (syscall k SYS_setgid [gid]).
Definition __public__os_setpgid (k : K) (pid pgid : Z) : Z * K := as_int (syscall k SYS_setpgid [pid; pgid]).
Definition __public__os_getpgid (k : K) (pid : Z) : Z * K := as_int (syscall k SYS_getpgid [pid]).
Definition __public__os_getpgrp (k : K) : Z * K := as_int (syscall k SYS_getpgid [0]).
Definition __public__os_setsid (k : K) : Z * K := as_int (syscall k SYS_setsid []).
Definition __public__os_getrlimit (k : K) (resource rlim : Z) : Z * K := as_int (syscall k SYS_getrlimit [resource; rlim]).
Definition __public__os_setrlimit (k : K) (resource rlim : Z) : Z * K := as_int (syscall k SYS_setrlimit [resource; rlim]).
Definition __public__os_open (k : K) (path flags mode : Z) : Z * K := as_int (syscall k SYS_openat [AT_FDCWD; path; flags; mode]).
Definition __public__os_close (k : K) (fd : Z) : Z * K := as_int (syscall k SYS_close [fd]).
Definition __public__os_read (k : K) (fd buf n : Z) : Z * K := as_long (syscall k SYS_read [fd; buf; n]).
Definition __public__os_write (k : K) (fd buf n : Z) : Z * K := as_long (syscall k SYS_write [fd; buf; n]).
Definition __public__os_lseek (k : K) (fd offset whence : Z) : Z * K := as_long (syscall k SYS_lseek [fd; offset; whence]).
Definition __public__os_fstat (k : K) (fd stat_buf : Z) : Z * K := as_int (syscall k SYS_fstat [fd; stat_buf]).
Definition __public__os_dup (k : K) (fd : Z) : Z * K := as_int (syscall k SYS_dup [fd]).
Definition __public__os_dup2 (k : K) (oldfd newfd : Z) : Z * K := as_int (syscall k SYS_dup3 [oldfd; newfd; 0]).
Definition __public__os_fcntl (k : K) (fd cmd arg : Z) : Z * K := as_int (syscall k SYS_fcntl [fd; cmd; arg]).
Definition __public__os_mkdir (k : K) (path mode : Z) : Z * K := as_int (syscall k SYS_mkdirat [AT_FDCWD; path; mode]).
Definition __public__os_rmdir (k : K) (path : Z) : Z * K := as_int (syscall k SYS_unlinkat [AT_FDCWD; path; AT_REMOVEDIR]).
Definition __public__os_unlink (k : K) (path : Z) : Z * K := as_int (syscall k SYS_unlinkat [AT_FDCWD; path; 0]).
Definition __public__os_rename (k : K) (oldpath newpath : Z) : Z * K := as_int (syscall k SYS_renameat [AT_FDCWD; oldpath; AT_FDCWD; newpath]).
Definition __public__os_renameat2 (k : K) (oldpath newpath flags : Z) : Z * K := as_int (syscall k SYS_renameat2 [AT_FDCWD; oldpath; AT_FDCWD; newpath; flags]).
Definition __public__os_link (k : K) (oldpath newpath : Z) : Z * K := as_int (syscall k SYS_linkat [AT_FDCWD; oldpath; AT_FDCWD; newpath; 0]).
Definition __public__os_symlink (k : K) (target linkpath : Z) : Z * K := as_int (syscall k SYS_symlinkat [target; AT_FDCWD; linkpath]).
Definition __public__os_readlink (k : K) (path buf size : Z) : Z * K := as_long (syscall k SYS_readlinkat [AT_FDCWD; path; buf; size]).
Definition __public__os_access (k : K) (path mode : Z) : Z * K := as_int (syscall k SYS_faccessat [AT_FDCWD; path; mode; 0]).
Definition __public__os_stat (k : K) (path stat_buf : Z) : Z * K := as_int (syscall k SYS_newfstatat [AT_FDCWD; path; stat_buf; 0]).
Definition __public__os_lstat (k : K) (path stat_buf : Z) : Z * K := as_int (syscall k SYS_newfstatat [AT_FDCWD; path; stat_buf; AT_SYMLINK_NOFOLLOW]).
Definition __public__os_getdents64 (k : K) (fd buf size : Z) : Z * K := as_int (syscall k SYS_getdents64 [fd; buf; size]).
Definition __public__os_mmap (k : K) (addr len prot flags fd off : Z) : Z * K := as_long (syscall k SYS_mmap [addr; len; prot; flags; fd; off]).
Definition __public__os_munmap (k : K) (addr len : Z) : Z * K := as_int (syscall k SYS_munmap [addr; len]).
Definition __public__os_mprotect (k : K) (addr len prot : Z) : Z * K := as_int (syscall k SYS_mprotect [addr; len; prot]).
Definition __public__os_madvise (k : K) (addr len advice : Z) : Z * K := as_int (syscall k SYS_madvise [addr; len; advice]).
Definition __public__os_mlock (k : K) (addr len : Z) : Z * K := as_int (syscall k SYS_mlock [addr; len]).
Definition __public__os_munlock (k : K) (addr len : Z) : Z * K := as_int (syscall k SYS_munlock [addr; len]).
Definition __public__os_mlockall (k : K) (flags : Z) : Z * K := as_int (syscall k SYS_mlockall [flags]).
Definition __public__os_munlockall (k : K) : Z * K := as_int (syscall k SYS_munlockall []).
Definition __public__os_futex_wait (k : K) (uaddr val timeout : Z) : Z * K := as_int (syscall k SYS_futex [uaddr; FUTEX_WAIT; val; timeout; NULL; 0]).
Definition __public__os_futex_wake (k : K) (uaddr count : Z) : Z * K := as_int (syscall k SYS_futex [uaddr; FUTEX_WAKE; count; NULL; NULL; 0]).
Definition __public__os_futex_wait_bitset (k : K) (uaddr val timeout mask : Z) : Z * K := as_int (syscall k SYS_futex [uaddr; FUTEX_WAIT_BITSET; val; timeout; NULL; mask]).
Definition __public__os_futex_wake_bitset (k : K) (uaddr count mask : Z) : Z * K := as_int (syscall k SYS_futex [uaddr; FUTEX_WAKE_BITSET; count; NULL; NULL; mask]).
Definition __public__os_futex_requeue (k : K) (uaddr wake_count requeue_count uaddr2 : Z) : Z * K := as_int (syscall k SYS_futex [uaddr; FUTEX_REQUEUE; wake_count; requeue_count; uaddr2; 0]).
Definition __public__os_futex_cmp_requeue (k : K) (uaddr uaddr2 wake_count requeue_count val : Z) : Z * K := as_int (syscall k SYS_futex [uaddr; FUTEX_CMP_REQUEUE; wake_count; requeue_count; uaddr2; val]).
Definition __public__os_futex_wake_one (k : K) (uaddr : Z) : Z * K := as_int (syscall k SYS_futex [uaddr; FUTEX_WAKE; 1; NULL; NULL; 0]).
Definition __public__os_futex_wake_all (k : K) (uaddr : Z) : Z * K := as_int (syscall k SYS_futex [uaddr; FUTEX_WAKE; INT_MAX; NULL; NULL; 0]).

(** [SYS_exit] does not return. *)
Definition __public__os_exit (k : K) (code : Z) : K := (syscall k SYS_exit [code]).2.

(** [sa] is the address of the local [struct sigaction] whose handler was
    set. *)
Definition __public__os_signal_install (k : K) (sig sa : Z) : Z * K :=
  as_int (syscall k SYS_rt_sigaction [sig; sa; NULL; sizeof_sigset]).
End calls.

(** ** The environment *)

(** Where a block of memory comes from: the loader put the first
    environment on the stack of the process, [malloc] and [realloc] make
    the other ones. *)
Inductive origin := Loader | Malloced.

#[export] Instance origin_eq_dec : EqDecision origin.
Proof. solve_decision. Defined.

(** A variable: the bytes of its buffer, terminator included. *)
Record var := Var { v_bytes : list Z; v_origin : origin }.

(** [environ]: the variables before the final [NULL], and where the array
    itself comes from. *)
Record environment := Environment { e_vars : list var; e_origin : origin }.

(** [strncmp]; reading past a buffer is [None]. *)
Fixpoint strncmp (a b : list Z) (n : nat) {struct n} : option Z :=
  match n with
  | O => Some 0
  | S n =>
      match a, b with
      | x :: a, y :: b => if x =? y then if x =? 0 then Some 0 else strncmp a b n else Some (x - y)
      | _, _ => None
      end
  end.

(** [!strncmp( *e, k, klen) && ( *e)[klen] == '='] *)
Definition is_var (e k : list Z) (klen : nat) : option bool :=
  c ← strncmp e k klen;
  if c =? 0 then x ← e !! klen; Some (x =? 61) else Some false.

(** The loops over [environ]: the index of the first match. *)
Fixpoint find_var (vs : list var) (k : list Z) (klen i : nat) : option (option nat) :=
  match vs with
  | [] => Some None
  | v :: vs =>
      m ← is_var (v_bytes v) k klen;
      if (m : bool) then Some (Some i) else find_var vs k klen (S i)
  end.

(** A string of the language: [data] holds [size] bytes and a terminator.
    The result of [getenv] is the rest of the buffer from the value on, or
    [None] for [NULL]. *)
Definition __public__os_getenv (env : environment) (key : list Z) : option (option (list Z)) :=
  r ← find_var (e_vars env) (key ++ [0]) (length key) 0;
  match r with
  | None => Some None
  | Some i => v ← e_vars env !! i; Some (Some (drop (length key + 1) (v_bytes v)))
  end.

(** [free] and [realloc] are only defined on blocks of [malloc]. *)
Definition freeable (o : origin) : option unit := match o with Malloced => Some tt | Loader => None end.

(** [m1] and [m2] say whether [malloc] and [realloc] find memory; a failed
    [realloc] leaves the array alone. *)
Definition __public__os_setenv (m1 m2 : bool) (env : environment) (key value : list Z) (overwrite : Z) : option (Z * environment) :=
  old ← (if overwrite =? 0 then __public__os_getenv env key else Some None);
  match old with
  | Some _ => Some (0, env)
  | None =>
      if negb m1 then Some (-1, env)
      else
        let buf := Var (key ++ [61] ++ value ++ [0]) Malloced in
        r ← find_var (e_vars env) (key ++ [0]) (length key) 0;
        match r with
        | Some i => Some (0, Environment (<[i := buf]> (e_vars env)) (e_origin env))
        | None =>
            freeable (e_origin env) ;;
            if negb m2 then Some (-1, env)
            else Some (0, Environment (e_vars env ++ [buf]) Malloced)
        end
  end.

Definition __public__os_unsetenv (env : environment) (key : list Z) : option (Z * environment) :=
  r ← find_var (e_vars env) (key ++ [0]) (length key) 0;
  match r with
  | None => Some (0, env)
  | Some i =>
      v ← e_vars env !! i;
      freeable (v_origin v) ;;
      Some (0, Environment (take i (e_vars env) ++ drop (S i) (e_vars env)) (e_origin env))
  end.

(** * The environment functions refine a finite map *)

(** ** Names and values *)

(** The part before the first ['='], and the part after it. *)
Fixpoint split_eq (t : list Z) : option (list Z * list Z) :=
  match t with
  | [] => None
  | x :: t => if x =? 61 then Some ([], t) else '(n, v) ← split_eq t; Some (x :: n, v)
  end.

Lemma split_eq_app (n v : list Z) : 61 ∉ n -> split_eq (n ++ 61 :: v) = Some (n, v).
Proof.
  induction n as [|x n IH]; cbn [split_eq app]; [done|]. rewrite not_elem_of_cons. intros [Hx Hn].
  destruct (Z.eqb_spec x 61); [congruence|]. by rewrite IH.
Qed.

Lemma split_eq_inv (t : list Z) : forall n v, split_eq t = Some (n, v) -> t = n ++ 61 :: v /\ 61 ∉ n.
Proof.
  induction t as [|x t IH]; intros n v; cbn [split_eq]; [done|].
  destruct (Z.eqb_spec x 61) as [->|Hx]; [intros [= <- <-]; split; [done|by intros ?%elem_of_nil]|].
  destruct (split_eq t) as [[n' v']|]; [|done]. cbn [mbind option_bind]. intros [= <- <-].
  destruct (IH n' v' eq_refl) as [-> Hn]. split; [done|]. by rewrite not_elem_of_cons.
Qed.

(** C texts: no zero byte. *)
Definition ctext (t : list Z) : Prop := 0 ∉ t.
Definition name_ok (k : list Z) : Prop := 0 ∉ k /\ 61 ∉ k.

(** A variable of the environment: a text and its terminator. *)
Definition var_ok (v : var) : Prop := exists t, v_bytes v = t ++ [0] /\ ctext t.
Definition env_ok (env : environment) : Prop := Forall var_ok (e_vars env).

(** Name and value of a variable. *)
Definition var_pair (v : var) : option (list Z * list Z) := split_eq (removelast (v_bytes v)).

(** The map of names to values. *)
Definition bind_var (v : var) (m : gmap (list Z) (list Z)) : gmap (list Z) (list Z) :=
  match var_pair v with Some (n, x) => <[n := x]> m | None => m end.
Definition env_map (vs : list var) : gmap (list Z) (list Z) := foldr bind_var ∅ vs.

(** ** The comparison *)

Lemma strncmp_key (k : list Z) : forall t, ctext t -> ctext k ->
  exists c, strncmp (t ++ [0]) (k ++ [0]) (length k) = Some c /\ (c = 0 <-> exists r, t = k ++ r).
Proof.
  induction k as [|y k IH]; intros t Ht Hk; cbn [length strncmp app].
  - exists 0. split; [done|]. split; [|done]. intros _. by exists t.
  - apply not_elem_of_cons in Hk as [Hy Hk]. destruct t as [|x t]; cbn [app].
    + destruct (Z.eqb_spec 0 y) as [?|_]; [congruence|]. exists (0 - y). split; [done|]. split; [lia|]. by intros [r ?].
    + apply not_elem_of_cons in Ht as [Hx Ht]. destruct (Z.eqb_spec x y) as [->|Hne].
      * destruct (Z.eqb_spec y 0) as [?|_]; [congruence|]. destruct (IH t Ht Hk) as (c & -> & Hc). exists c. split; [done|].
        rewrite Hc. split; intros [r E]; exists r; [by rewrite E|by simplify_eq/=].
      * exists (x - y). split; [done|]. split; [lia|]. intros [r E]. simplify_eq/=.
Qed.

(** The test of the loops finds exactly the variables of that name. *)
Lemma is_var_ok (v : var) (k : list Z) : var_ok v -> name_ok k ->
  exists b, is_var (v_bytes v) (k ++ [0]) (length k) = Some b /\
    (b = true -> exists x, v_bytes v = k ++ 61 :: x ++ [0] /\ var_pair v = Some (k, x)) /\
    (b = false -> forall x, var_pair v <> Some (k, x)).
Proof.
  intros (t & Et & Ht) [Hk0 Hk]. unfold is_var, var_pair. rewrite Et, removelast_last.
  destruct (strncmp_key k t Ht Hk0) as (c & -> & Hc). cbn [mbind option_bind].
  destruct (Z.eqb_spec c 0) as [E|E].
  - apply Hc in E as [r ->]. rewrite <- app_assoc, lookup_app_r, Nat.sub_diag by lia.
    destruct r as [|y r]; cbn [app lookup list_lookup mbind option_bind].
    + exists false. split; [done|]. split; [done|]. intros _ x Ex. apply split_eq_inv in Ex as [Ex _].
      apply (f_equal length) in Ex. rewrite !length_app in Ex. cbn in Ex. lia.
    + eexists. split; [done|]. destruct (Z.eqb_spec y 61) as [->|Hy]; (split; [|]); try done.
      * intros _. exists r. split; [done|by apply split_eq_app].
      * intros _ x Ex. apply split_eq_inv in Ex as [Ex _]. by simplify_list_eq.
  - exists false. split; [done|]. split; [done|]. intros _ x Ex. apply split_eq_inv in Ex as [Ex _].
    apply E, Hc. eauto.
Qed.

(** What the loops return. *)
Lemma find_var_ok (k : list Z) (vs : list var) : name_ok k -> forall i, Forall var_ok vs ->
  (find_var vs (k ++ [0]) (length k) i = Some None /\ Forall (fun v => forall x, var_pair v <> Some (k, x)) vs) \/
  exists l1 v l2 x, vs = l1 ++ v :: l2 /\ find_var vs (k ++ [0]) (length k) i = Some (Some (i + length l1)%nat) /\
    Forall (fun v => forall x, var_pair v <> Some (k, x)) l1 /\ v_bytes v = k ++ 61 :: x ++ [0] /\ var_pair v = Some (k, x).
Proof.
  intros Hk. induction vs as [|v vs IH]; intros i Hvs; cbn [find_var]; [by left|].
  apply Forall_cons in Hvs as [Hv Hvs]. destruct (is_var_ok v k Hv Hk) as ([] & -> & Ht & Hf); cbn [mbind option_bind].
  - destruct (Ht eq_refl) as (x & ? & ?). right. exists [], v, vs, x. rewrite Nat.add_0_r. done.
  - destruct (IH (S i) Hvs) as [[E HF]|(l1 & v' & l2 & x & -> & E & HF & ? & ?)]; rewrite E.
    + left. split; [done|]. constructor; auto.
    + right. exists (v :: l1), v', l2, x. cbn [length app]. rewrite Nat.add_succ_r. split_and!; try done. constructor; auto.
Qed.

(** ** The map *)

Lemma env_map_skip (k : list Z) (l : list var) (m : gmap (list Z) (list Z)) :
  Forall (fun v => forall x, var_pair v <> Some (k, x)) l ->
  foldr bind_var m l !! k = m !! k /\ (forall x, foldr bind_var (<[k := x]> m) l = <[k := x]> (foldr bind_var m l)) /\
  foldr bind_var (delete k m) l = delete k (foldr bind_var m l).
Proof.
  induction 1 as [|v l Hv Hl (IH1 & IH2 & IH3)]; [done|]. cbn [foldr].
  assert ((forall m, bind_var v m = m) \/ exists n y, n <> k /\ forall m, bind_var v m = <[n := y]> m) as [Hb|(n & y & Hn & Hb)].
  { unfold bind_var. destruct (var_pair v) as [[n y]|]; [|by left]. right. exists n, y. split; [|done].
    intros ->. by apply (Hv y). }
  - setoid_rewrite Hb. done.
  - setoid_rewrite Hb. rewrite lookup_insert_ne by done. split_and!; [done| |].
    + intros x. by rewrite IH2, insert_insert_ne.
    + by rewrite IH3, delete_insert_ne.
Qed.

Lemma env_map_first (k x : list Z) (l1 l2 : list var) (v : var) :
  Forall (fun v => forall x, var_pair v <> Some (k, x)) l1 -> var_pair v = Some (k, x) ->
  env_map (l1 ++ v :: l2) = <[k := x]> (foldr bind_var (env_map l2) l1).
Proof.
  intros Hl Hv. unfold env_map. rewrite foldr_app. cbn [foldr].
  assert (bind_var v (foldr bind_var ∅ l2) = <[k := x]> (foldr bind_var ∅ l2)) as -> by (unfold bind_var at 1; by rewrite Hv).
  by apply env_map_skip.
Qed.

Lemma getenv_ok (env : environment) (k : list Z) : env_ok env -> name_ok k ->
  __public__os_getenv env k = Some ((fun x => x ++ [0]) <$> env_map (e_vars env) !! k).
Proof.
  intros He Hk. unfold __public__os_getenv.
  destruct (find_var_ok k (e_vars env) Hk 0 He) as [[-> HF]|(l1 & v & l2 & x & Ev & -> & HF & Eb & Ep)]; cbn [mbind option_bind].
  - unfold env_map. destruct (env_map_skip k (e_vars env) ∅ HF) as (-> & _). by rewrite lookup_empty.
  - rewrite Ev, Nat.add_0_l, list_lookup_middle by done. cbn [mbind option_bind].
    rewrite (env_map_first k x l1 l2 v HF Ep), lookup_insert_eq, Eb. cbn [fmap option_fmap option_map]. do 2 f_equal.
    rewrite drop_app_ge by lia. by replace (length k + 1 - length k)%nat with 1%nat by lia.
Qed.

(** The buffer [setenv] makes. *)
Definition new_var (k x : list Z) : var := Var (k ++ [61] ++ x ++ [0]) Malloced.

Lemma new_var_ok (k x : list Z) : name_ok k -> ctext x -> var_ok (new_var k x) /\ var_pair (new_var k x) = Some (k, x).
Proof.
  intros [Hk0 Hk] Hx. unfold var_pair, var_ok, ctext in *. cbn [new_var v_bytes]. split.
  - exists (k ++ 61 :: x). split; [by rewrite <- app_assoc|]. by rewrite elem_of_app, elem_of_cons; intuition.
  - replace (k ++ [61] ++ x ++ [0]) with ((k ++ 61 :: x) ++ [0]) by (by rewrite <- app_assoc).
    rewrite removelast_last. by apply split_eq_app.
Qed.

(** The names of the variables that have one. *)
Definition var_names (vs : list var) : list (list Z) := omap (fun v => fst <$> var_pair v) vs.

Lemma var_names_app (l1 l2 : list var) : var_names (l1 ++ l2) = var_names l1 ++ var_names l2.
Proof. apply omap_app. Qed.

Lemma not_in_names (k : list Z) (l : list var) : k ∉ var_names l -> Forall (fun v => forall x, var_pair v <> Some (k, x)) l.
Proof.
  intros Hk. apply Forall_forall. intros v Hv x E. apply Hk. unfold var_names. apply list_elem_of_omap. exists v. by rewrite E.
Qed.

(** The first variable of a bound name, and what is around it. *)
Lemma bound_var (env : environment) (k : list Z) : env_ok env -> name_ok k ->
  match env_map (e_vars env) !! k with
  | None => find_var (e_vars env) (k ++ [0]) (length k) 0 = Some None /\
      Forall (fun v => forall x, var_pair v <> Some (k, x)) (e_vars env)
  | Some x => exists l1 v l2, e_vars env = l1 ++ v :: l2 /\
      find_var (e_vars env) (k ++ [0]) (length k) 0 = Some (Some (length l1)) /\
      Forall (fun v => forall x, var_pair v <> Some (k, x)) l1 /\ var_pair v = Some (k, x) /\
      Forall var_ok l1 /\ Forall var_ok l2
  end.
Proof.
  intros He Hk. destruct (find_var_ok k (e_vars env) Hk 0 He) as [[Ef HF]|(l1 & v & l2 & x0 & Ev & Ef & HF & Eb & Ep)].
  - unfold env_map. destruct (env_map_skip k (e_vars env) ∅ HF) as (-> & _). by rewrite lookup_empty.
  - rewrite Ev, (env_map_first k x0 l1 l2 v HF Ep), lookup_insert_eq, <- Ev. exists l1, v, l2.
    unfold env_ok in He. rewrite Ev in He. apply Forall_app in He as [? [? ?]%Forall_cons]. done.
Qed.

Lemma setenv_ok (env : environment) (k x : list Z) (overwrite : Z) : env_ok env -> name_ok k -> ctext x ->
  if decide (overwrite = 0 /\ is_Some (env_map (e_vars env) !! k)) then __public__os_setenv true true env k x overwrite = Some (0, env)
  else if decide (env_map (e_vars env) !! k = None /\ e_origin env = Loader) then __public__os_setenv true true env k x overwrite = None
  else exists env', __public__os_setenv true true env k x overwrite = Some (0, env') /\ env_ok env' /\
    env_map (e_vars env') = <[k := x]> (env_map (e_vars env)).
Proof.
  intros He Hk Hx. pose proof (getenv_ok env k He Hk) as Eg. pose proof (bound_var env k He Hk) as Hb.
  destruct (new_var_ok k x Hk Hx) as [Vo Vp]. unfold __public__os_setenv.
  destruct (env_map (e_vars env) !! k) as [x0|] eqn:En.
  - destruct Hb as (l1 & v & l2 & Ev & Ef & HF & Ep & O1 & O2). case_decide as Hov.
    { destruct Hov as [-> _]. cbn [Z.eqb]. by rewrite Eg. }
    rewrite decide_False by (by intros [? _]).
    assert (overwrite <> 0) as Hov' by (intros ->; apply Hov; split; [done|eauto]).
    destruct (Z.eqb_spec overwrite 0); [done|]. cbn [mbind option_bind negb]. rewrite Ef. cbn [mbind option_bind]. eexists. split; [done|].
    cbn [e_vars]. rewrite Ev, insert_app_r_alt, Nat.sub_diag by lia. cbn [insert list_insert].
    split; [apply Forall_app; split; [done|]; by constructor|].
    rewrite (env_map_first k x0 l1 l2 v HF Ep), insert_insert_eq. exact (env_map_first k x l1 l2 _ HF Vp).
  - destruct Hb as [Ef HF]. rewrite decide_False by (by intros [_ [? ?]]).
    assert ((if overwrite =? 0 then __public__os_getenv env k else Some None) = Some None) as -> by (rewrite Eg; by destruct (overwrite =? 0)).
    cbn [mbind option_bind negb]. rewrite Ef. cbn [mbind option_bind]. destruct (e_origin env) eqn:Eo.
    { by rewrite decide_True by done. }
    rewrite decide_False by (by intros [_ ?]). cbn [freeable mbind option_bind negb]. eexists. split; [done|]. split.
    + apply Forall_app. split; [done|]. by apply Forall_singleton.
    + exact (env_map_first k x (e_vars env) [] (new_var k x) HF Vp).
Qed.

Lemma unsetenv_ok (env : environment) (k : list Z) : env_ok env -> name_ok k -> NoDup (var_names (e_vars env)) ->
  if decide (env_map (e_vars env) !! k = None) then __public__os_unsetenv env k = Some (0, env)
  else exists v, v ∈ e_vars env /\ is_Some (var_pair v) /\ fst <$> var_pair v = Some k /\
    match v_origin v with
    | Loader => __public__os_unsetenv env k = None
    | Malloced => exists env', __public__os_unsetenv env k = Some (0, env') /\ env_ok env' /\
        env_map (e_vars env') = delete k (env_map (e_vars env))
    end.
Proof.
  intros He Hk Hnd. pose proof (bound_var env k He Hk) as Hb. unfold __public__os_unsetenv.
  destruct (env_map (e_vars env) !! k) as [x0|] eqn:En; [|destruct Hb as [Ef _]; rewrite decide_True by done; by rewrite Ef].
  destruct Hb as (l1 & v & l2 & Ev & Ef & HF & Ep & O1 & O2). rewrite decide_False by done.
  exists v. rewrite Ep. split_and!; [rewrite Ev; apply elem_of_app; right; by left|eauto|done|].
  rewrite Ev, var_names_app in Hnd. unfold var_names in Hnd at 2. cbn in Hnd. rewrite Ep in Hnd. cbn in Hnd.
  assert (k ∉ var_names l2) as Hk2 by (apply NoDup_app in Hnd as (_ & _ & Hnd); by apply NoDup_cons in Hnd as [? _]).
  rewrite Ef. cbn [mbind option_bind]. rewrite Ev, list_lookup_middle by done. cbn [mbind option_bind].
  destruct (v_origin v); [done|]. cbn [freeable mbind option_bind]. eexists. split; [done|]. cbn [e_vars].
  rewrite take_app_length, drop_app_ge by lia. replace (S (length l1) - length l1)%nat with 1%nat by lia. cbn [drop].
  split; [by apply Forall_app|]. rewrite (env_map_first k x0 l1 l2 v HF Ep), delete_insert_eq.
  destruct (env_map_skip k l1 (env_map l2) HF) as (_ & _ & <-). unfold env_map at 1. rewrite foldr_app. fold (env_map l2).
  rewrite delete_id; [done|]. unfold env_map. by destruct (env_map_skip k l2 ∅ (not_in_names _ _ Hk2)) as (-> & _).
Qed.

(** C25: the environment functions refine a finite map from names to values
    (the first variable of a name counts).  On an environment of C texts and
    a name without ['='], none of them reads outside a buffer.  [getenv]
    returns the value of the name, or NULL.  [setenv] with memory inserts
    the binding, except that without [overwrite] it leaves a bound name
    alone, and that it has no defined behaviour when it must extend the
    array that the loader made, which it passes to [realloc].  [unsetenv]
    deletes the binding when no other variable has the name, except that it
    has no defined behaviour on a variable that the loader made, which it
    passes to [free]; a name that is not bound is left alone. *)
Theorem environment_refines_map (env : environment) (k : list Z) :
  env_ok env -> name_ok k ->
  __public__os_getenv env k = Some ((fun x => x ++ [0]) <$> env_map (e_vars env) !! k) /\
  (forall x overwrite, ctext x ->
     if decide (overwrite = 0 /\ is_Some (env_map (e_vars env) !! k)) then __public__os_setenv true true env k x overwrite = Some (0, env)
     else if decide (env_map (e_vars env) !! k = None /\ e_origin env = Loader) then __public__os_setenv true true env k x overwrite = None
     else exists env', __public__os_setenv true true env k x overwrite = Some (0, env') /\ env_ok env' /\
       env_map (e_vars env') = <[k := x]> (env_map (e_vars env))) /\
  (NoDup (var_names (e_vars env)) ->
     if decide (env_map (e_vars env) !! k = None) then __public__os_unsetenv env k = Some (0, env)
     else exists v, v ∈ e_vars env /\ is_Some (var_pair v) /\ fst <$> var_pair v = Some k /\
       match v_origin v with
       | Loader => __public__os_unsetenv env k = None
       | Malloced => exists env', __public__os_unsetenv env k = Some (0, env') /\ env_ok env' /\
           env_map (e_vars env') = delete k (env_map (e_vars env))
       end).
Proof.
  intros He Hk. split; [by apply getenv_ok|]. split; [intros x ov; by apply setenv_ok|by apply unsetenv_ok].
Qed.

(** ** Instances *)

(** HOME=/ and TERM=vt of the loader, in an array of [malloc]. *)
Definition small_env (o : origin) : environment :=
  Environment [Var [72; 79; 77; 69; 61; 47; 0] Loader; Var [84; 69; 82; 77; 61; 118; 116; 0] Malloced] o.

Lemma small_env_ok (o : origin) : env_ok (small_env o).
Proof.
  unfold env_ok. cbn [small_env e_vars]. rewrite !Forall_cons, Forall_nil.
  split_and!; [exists [72; 79; 77; 69; 61; 47]|exists [84; 69; 82; 77; 61; 118; 116]|done];
    (split; [done|]); unfold ctext; rewrite !elem_of_cons, elem_of_nil; lia.
Qed.

Lemma environment_refines_map_witness :
  __public__os_getenv (small_env Malloced) [72; 79; 77; 69] = Some (Some [47; 0]) /\
  exists env', __public__os_setenv true true (small_env Malloced) [65] [49] 1 = Some (0, env').
Proof.
  split.
  - destruct (environment_refines_map (small_env Malloced) [72; 79; 77; 69] (small_env_ok _)) as (-> & _).
    + split; rewrite !elem_of_cons, elem_of_nil; lia.
    + vm_compute. reflexivity.
  - destruct (environment_refines_map (small_env Malloced) [65] (small_env_ok _)) as (_ & HS & _).
    + split; rewrite !elem_of_cons, elem_of_nil; lia.
    + specialize (HS [49] 1). rewrite decide_False, decide_False in HS by (by intros [? ?]).
      destruct HS as (env' & E & _); [unfold ctext; rewrite elem_of_cons, elem_of_nil; lia|]. by exists env'.
Defined.

(** In the environment a process starts with, no new variable can be set
    and no variable can be removed. *)
Theorem loader_environment_fixed :
  __public__os_setenv true true (small_env Loader) [65] [49] 1 = None /\
  __public__os_unsetenv (small_env Loader) [72; 79; 77; 69] = None.
Proof. split; vm_compute; reflexivity. Qed.
