(* ===== verification/Startup.v ===== *)
(** * Startup: from the entry point to the first task (initutils.c, main.c)

    [main] makes the global arena, the rings of the disk workers, the
    scheduler threads and the collector, copies the command line into an
    array of strings and starts the first task with it. *)

From S2P Require Import Prelude Mem Alloc AllocOs AllocMain Heap Queue Gc Bytes Strings Arrays Tasks.

(** liburing and pthreads: the size of a [struct io_uring], the words (offset
    and value) that [io_uring_queue_init] stores in the ring of a worker, or
    [None] if it fails, and whether the calls of [pthread_create] for the
    disk and the network workers succeed. *)
Class IOLib := {
  sizeof_io_uring : Z;
  io_uring_queue_init : Z -> option (list (Z * Z));
  disk_thread_created : Z -> bool;
  net_thread_created : Z -> bool
}.

Definition DISKIO_THREAD_POOL_SIZE : nat := 4.
Definition NETIO_THREAD_POOL_SIZE : nat := 1.
Definition SCHEDULER_LOCAL_QUEUE_SIZE : Z := 40240.

(** [kernel_thread_t]: its two queues are records of their own here. *)
Definition o_kt_id : Z := 0.
Definition o_kt_ctx : Z := 8.
Definition o_kt_current : Z := 16.
Definition sizeof_kernel_thread : Z := 152.

Section init.
Context `{Heap H}.

(** [for (...; i++) { map[i] = make(); post(map[i]); }] with [n] left. *)
Fixpoint slots_loop (make : H -> Z -> option (Z * H)) (post : H -> Z -> Z -> option H) (n : nat) (h : H) (map i : Z) : option H :=
  match n with
  | O => Some h
  | S n =>
      '(p, h) ← make h i;
      let h := put h (map + 8 * i) p in
      h ← post h (ld (h_mem h) (map + 8 * i)) i;
      slots_loop make post n h map (i + 1)
  end.

Context {Lib : IOLib}.

(** The body of the first loop of [init_io]: a failed allocation ends the
    process. *)
Definition alloc_ring (h : H) (i : Z) : option (Z * H) := h_alloc h sizeof_io_uring.
Definition check_ring (h : H) (ring i : Z) : option H := c_assert (negb (ring =? NULL)) ;; Some h.

(** The body of the second loop. *)
Definition init_ring (h : H) (i : Z) : option (Z * H) :=
  '(ring, h) ← h_alloc h sizeof_io_uring;
  c_assert (negb (ring =? NULL)) ;;
  ws ← io_uring_queue_init i;
  Some (ring, foldl (fun h w => put h (ring + w.1) w.2) h ws).
Definition start_worker (h : H) (ring i : Z) : option H := c_assert (disk_thread_created i) ;; Some h.

(** The result is [diskio_ring_map]. *)
Definition init_io (h : H) : option (Z * H) :=
  '(map, h) ← h_alloc h (size_t (Z.of_nat DISKIO_THREAD_POOL_SIZE * 8));
  c_assert (negb (map =? NULL)) ;;
  h ← slots_loop alloc_ring check_ring DISKIO_THREAD_POOL_SIZE h map 0;
  h ← slots_loop init_ring start_worker DISKIO_THREAD_POOL_SIZE h map 0;
  c_assert (forallb (fun i => net_thread_created (Z.of_nat i)) (seq 0 NETIO_THREAD_POOL_SIZE)) ;;
  Some (map, h).

(** [ctx i] is the block that [platform_ctx_init] takes from [malloc] for
    the scheduler [i].  The result of [pthread_create] is not tested. *)
Definition alloc_kernel_thread (h : H) (i : Z) : option (Z * H) := h_alloc h sizeof_kernel_thread.
Definition init_kernel_thread (ctx : Z -> Z) (h : H) (kt i : Z) : option H :=
  let h := put h (kt + o_kt_ctx) (ctx i) in
  let h := put h (kt + o_kt_id) i in
  Some (put h (kt + o_kt_current) NULL).

(** The result is [kernel_thread_map], with the ready and the wait queues
    of the threads. *)
Definition init_scheduler (ctx : Z -> Z) (h : H) : option (Z * list safe_queue * list unsafe_queue * H) :=
  '(map, h) ← h_alloc h (size_t (pool_size * 8));
  h ← slots_loop alloc_kernel_thread (init_kernel_thread ctx) (Z.to_nat pool_size) h map 0;
  Some (map, replicate (Z.to_nat pool_size) (safe_q_init SCHEDULER_LOCAL_QUEUE_SIZE),
    replicate (Z.to_nat pool_size) (unsafe_ioq_init SCHEDULER_LOCAL_QUEUE_SIZE), h).
End init.

(** ** The command line *)
Section args.
Context `{Heap H}.

(** [strlen] of a buffer; reading past its end is [None]. *)
Fixpoint strlen (buf : list Z) : option Z :=
  match buf with
  | [] => None
  | c :: buf => if c =? 0 then Some 0 else n ← strlen buf; Some (n + 1)
  end.

(** The functions of this name in main.c are those of array.c and strings.c
    on the global arena; the argument strings are not in the heap, so that
    the source of the copy is a list of bytes. *)
Definition __public__strings_alloc_from_raw_v2 (s : sheap H) (fmt : list Z) (size : Z) : option (Z * sheap H) :=
  '(p, s) ← s_alloc s sizeof_string;
  '(d, s) ← s_alloc s (size_t (size + 1));
  let s := s_put s (p + o_data) d in
  let s := s_wr s (d + size) [0] in
  let s := s_wr s d (take (Z.to_nat size) fmt) in
  let s := s_put s (p + o_str_size) size in
  Some (p, s).

Definition __public__alloc_array_v2 (s : sheap H) (elem_size rank : Z) (args : list Z) : option (Z * sheap H) :=
  __public__alloc_array s elem_size rank args.

(** [((__public__string_t** )args->data)[i] = arg_str] for each argument. *)
Fixpoint args_loop (s : sheap H) (args i : Z) (argv : list (list Z)) : option (sheap H) :=
  match argv with
  | [] => Some s
  | arg :: argv =>
      len ← strlen arg;
      '(arg_str, s) ← __public__strings_alloc_from_raw_v2 s arg len;
      args_loop (s_put s (s_ld s (args + o_data) + 8 * i) arg_str) args (i + 1) argv
  end.

Definition main_args (s : sheap H) (argv : list (list Z)) : option (Z * sheap H) :=
  let argc := Z.of_nat (length argv) in
  '(args, s) ← __public__alloc_array_v2 s 8 1 [argc];
  s ← args_loop s args 0 argv;
  Some (args, s).
End args.

(** ** main *)

(** The state when the collector is about to start: the runtime, the wait
    queues, the bytes of the buffers and the two tables. *)
Record process := Process {
  pr_rt : runtime; wait_qs : list unsafe_queue; pr_bytes : bytes; diskio_ring_map : Z; kernel_thread_map : Z
}.

Section main.
Context `{OS} {Ffi : FFI} {Lib : IOLib}.
Context (makecontext : Z -> Z -> Z -> Z -> Z * Z * (Z -> Z)).

(** [main] up to [gc_start].  [r1] and [r2] are the random numbers, [uc] and
    [ctx] the blocks of [malloc] for contexts.  The result is the first task
    and the array it is started with. *)
Definition main (c : collector) (b : bytes) (ctx : Z -> Z) (start : Z) (argv : list (list Z)) (r1 r2 uc : Z) : option (Z * Z * process) :=
  c ← gc_create_global_arena c;
  s ← arena_of c;
  '(rings, s) ← init_io s;
  '(kts, qs, ws, s) ← init_scheduler ctx s;
  let c := gc_init (with_arena c s) in
  s ← arena_of c;
  '(args, sh) ← main_args (SHeap s b) argv;
  '(t, rt) ← thread makecontext (Runtime (with_arena c (sh_heap sh)) qs 0) start [args] r1 r2 uc;
  Some (t, args, Process rt ws (sh_bytes sh) rings kts).
End main.
