(* ===== verification/StartupSpec.v ===== *)
(** * StartupSpec: the loops of the start-up code

    A loop that fills a table with pointers to new blocks, the two tables of
    [init_io] and [init_scheduler], and the array of the command line. *)

From S2P Require Import Prelude Mem Alloc AllocOs AllocMain Heap Queue Bytes Strings StrHeap StrSpec.
From S2P Require Import Arrays ArraySpec ArrayTree ArrayThms Gc Tasks TaskSpec Startup.

(** ** Frames *)
Section frames.
Context `{HeapSpec H}.
Implicit Types (h : H) (L : gmap Z Z).

Lemma blocks_kept_trans L m1 m2 m3 : blocks_kept L m1 m2 -> blocks_kept L m2 m3 -> blocks_kept L m1 m3.
Proof using Type. intros K1 K2 p n x Hp Hx. by rewrite (K2 p n x), (K1 p n x). Qed.

Lemma blocks_kept_sub L L' m m' : L ⊆ L' -> blocks_kept L' m m' -> blocks_kept L m m'.
Proof using Type. intros Hs HK p n x Hp. apply (HK p n). by eapply lookup_weaken. Qed.

Lemma put_kept h L p n a v : h_ok h L -> L !! p = Some n -> p <= a < p + n -> blocks_kept (delete p L) (h_mem h) (h_mem (put h a v)).
Proof.
  intros Ho Hp Ha q k x [Hne Hq]%lookup_delete_Some Hx. by apply (put_other h L p n q k).
Qed.

(** Words stored one after the other in one block. *)
Lemma puts_ok L p n (ws : list (Z * Z)) : L !! p = Some n -> (forall o v, (o, v) ∈ ws -> 0 <= o < n) -> forall h, h_ok h L ->
  let h' := foldl (fun h w => put h (p + w.1) w.2) h ws in
  h_ok h' L /\ blocks_kept (delete p L) (h_mem h) (h_mem h') /\ forall r, h_room h r -> h_room h' r.
Proof.
  intros Hp. induction ws as [|[o v] ws IH]; intros Hin h Ho; cbn [foldl]; [split_and!; [done|by apply blocks_kept_refl|done]|].
  assert (0 <= o < n) by (apply (Hin o v); by left). cbn [fst snd].
  destruct (IH ltac:(intros o' v' ?; apply (Hin o' v'); by right) (put h (p + o) v)) as (Ho' & HK & Hr).
  - eapply put_ok; [done|exact Hp|lia].
  - split_and!; [done| |intros r ?; by apply Hr, put_room].
    eapply blocks_kept_trans; [|exact HK]. eapply put_kept; [done|exact Hp|lia].
Qed.
End frames.

(** ** Tables of new blocks *)
Section slots.
Context `{HeapSpec H}.
Context (make : H -> Z -> option (Z * H)) (post : H -> Z -> Z -> option H) (size : Z) (P : mem -> Z -> Z -> Prop).

(** What [make] and [post] do in the iterations from [lo] on: a new block of
    [size] bytes, of which [P] holds in the end. *)
Definition makes_block (hi : Z) : Prop := forall h L i r, 0 <= i < hi -> h_ok h L -> h_room h (S r) ->
  exists p k h', make h i = Some (p, h') /\ L !! p = None /\ size <= k /\ h_ok h' (<[p := k]> L) /\
    blocks_kept L (h_mem h) (h_mem h') /\ h_room h' r.
Definition fills_block (hi : Z) : Prop := forall h L p k i, 0 <= i < hi -> h_ok h L -> L !! p = Some k -> size <= k ->
  exists h', post h p i = Some h' /\ h_ok h' L /\ blocks_kept (delete p L) (h_mem h) (h_mem h') /\
    (forall r, h_room h r -> h_room h' r) /\ P (h_mem h') i p.
Definition stable : Prop := forall m m' i p, P m i p -> (forall x, p <= x < p + size -> ld m' x = ld m x) -> P m' i p.

(** The table from slot [i] on. *)
Definition slots_at (m : mem) (L L' : gmap Z Z) (map i : Z) (ps : list Z) : Prop :=
  NoDup ps /\ forall j p, ps !! j = Some p -> ld m (map + 8 * (i + Z.of_nat j)) = p /\ L !! p = None /\
    (exists k, L' !! p = Some k /\ size <= k) /\ P m (i + Z.of_nat j) p.

Lemma slots_at_kept (m m' : mem) (L L1 L' : gmap Z Z) (map k i : Z) (ps : list Z) : stable -> slots_at m L L1 map i ps ->
  L1 !! map = Some k -> 0 <= i -> 8 * (i + Z.of_nat (length ps)) <= k -> L1 ⊆ L' -> blocks_kept L1 m m' -> slots_at m' L L' map i ps.
Proof using Type.
  intros HP [Hnd Hps] Hmap Hi Hk Hs HK. split; [done|]. intros j p Hj. destruct (Hps j p Hj) as (E & HL & (kp & Hkp & Hsz) & HPp).
  pose proof (lookup_lt_Some _ _ _ Hj). split_and!; [by rewrite (HK map k) by (done || lia)|done| |].
  - exists kp. split; [by eapply lookup_weaken|done].
  - eapply HP; [exact HPp|]. intros x Hx. apply (HK p kp); [done|lia].
Qed.

Lemma slots_loop_ok (hi : Z) : makes_block hi -> fills_block hi -> stable ->
  forall (n : nat) (h : H) (L : gmap Z Z) (map k i : Z) (r : nat), h_ok h L -> L !! map = Some k ->
  0 <= i -> i + Z.of_nat n <= hi -> 8 * (i + Z.of_nat n) <= k -> h_room h (n + r) ->
  exists h' L' ps, slots_loop make post n h map i = Some h' /\ h_ok h' L' /\ L ⊆ L' /\ blocks_kept (delete map L) (h_mem h) (h_mem h') /\
    (forall x, map <= x < map + 8 * i -> ld (h_mem h') x = ld (h_mem h) x) /\
    h_room h' r /\ length ps = n /\ slots_at (h_mem h') L L' map i ps.
Proof.
  intros HM HF HP. induction n as [|n IH]; intros h L map k i r Ho Hmap Hi Hhi Hk Hr; cbn [slots_loop].
  { exists h, L, []. split_and!; try done. split; [apply NoDup_nil_2|]. intros j p Hj. by rewrite lookup_nil in Hj. }
  destruct (HM h L i (n + r)%nat) as (p & kp & h1 & E1 & Hp & Hkp & Ho1 & HK1 & Hr1); [lia|done..|]. rewrite E1. cbn [mbind option_bind].
  assert (p <> map) as Hne by congruence. set (L1 := <[p := kp]> L) in *.
  assert (L1 !! map = Some k) as Hmap1 by (unfold L1; by rewrite lookup_insert_ne).
  assert (L1 !! p = Some kp) as Hp1 by (unfold L1; by rewrite lookup_insert_eq).
  assert (L ⊆ L1) as Hs1 by (by apply insert_subseteq).
  assert (h_ok (put h1 (map + 8 * i) p) L1) as Ho2 by (eapply put_ok; [done|exact Hmap1|lia]).
  assert (ld (h_mem (put h1 (map + 8 * i) p)) (map + 8 * i) = p) as -> by (by rewrite put_mem, ld_st_eq).
  destruct (HF _ L1 p kp i ltac:(lia) Ho2 Hp1 Hkp) as (h3 & E3 & Ho3 & HK3 & Hr3 & HP3). rewrite E3. cbn [mbind option_bind].
  destruct (IH h3 L1 map k (i + 1) r) as (h' & L' & ps & E & Ho' & Hs' & HK' & Hlow & Hr' & Hlen & Hnd & Hps); [done|done|lia..|by apply Hr3, put_room|].
  assert (forall x, map <= x < map + k -> x <> map + 8 * i -> ld (h_mem h3) x = ld (h_mem h) x) as Hmapk.
  { intros x Hx Hxi. rewrite (HK3 map k); [|by rewrite lookup_delete_ne|done]. rewrite (put_other h1 L1 map k map k) by (done || lia). by apply (HK1 map k). }
  assert (ld (h_mem h') (map + 8 * i) = p) as Eslot.
  { rewrite Hlow by lia. rewrite (HK3 map k); [by rewrite put_mem, ld_st_eq|by rewrite lookup_delete_ne|lia]. }
  assert (p ∉ ps) as Hnew.
  { intros [j Hj]%list_elem_of_lookup. destruct (Hps j p Hj) as (_ & HLp & _). congruence. }
  exists h', L', (p :: ps). split_and!; try done; [by etrans| |intros x Hx; rewrite Hlow by lia; apply Hmapk; lia|cbn; lia|split; [by constructor|]].
  - eapply blocks_kept_trans; [|eapply blocks_kept_sub; [|exact HK']; by apply delete_mono].
    intros q kq x [Hqm Hq]%lookup_delete_Some Hx. assert (q <> p) by congruence. assert (L1 !! q = Some kq) as Hq1 by (by eapply lookup_weaken).
    rewrite (HK3 q kq); [|by rewrite lookup_delete_ne|done]. rewrite (put_other h1 L1 map k q kq) by (done || lia). by apply (HK1 q kq).
  - intros [|j] q Hj; cbn in Hj.
    + injection Hj as <-. rewrite Z.add_0_r. split_and!; try done; [exists kp; split; [by eapply lookup_weaken|done]|].
      eapply HP; [exact HP3|]. intros x Hx. apply (HK' p kp); [by rewrite lookup_delete_ne|lia].
    + destruct (Hps j q Hj) as (E4 & HLq & Hlive & HPq). replace (i + Z.of_nat (S j)) with (i + 1 + Z.of_nat j) by lia.
      split_and!; try done. unfold L1 in HLq. by apply lookup_insert_None in HLq as [? _].
Qed.
End slots.

(** ** init_io and init_scheduler *)

(** liburing stores inside the ring it is given. *)
Class IOLaws {Lib : IOLib} : Prop := {
  ring_size : 0 < sizeof_io_uring <= REQUEST_MAX;
  queue_init_inside : forall i ws o v, io_uring_queue_init i = Some ws -> (o, v) ∈ ws -> 0 <= o < sizeof_io_uring
}.

(** Every ring and every worker thread can be made. *)
Definition io_available {Lib : IOLib} : Prop :=
  (forall i, 0 <= i < Z.of_nat DISKIO_THREAD_POOL_SIZE -> is_Some (io_uring_queue_init i) /\ disk_thread_created i = true) /\
  forall i, 0 <= i < Z.of_nat NETIO_THREAD_POOL_SIZE -> net_thread_created i = true.

(** The record of the scheduler thread [i]. *)
Definition kernel_thread_at (ctx : Z -> Z) (m : mem) (i kt : Z) : Prop :=
  ld m (kt + o_kt_id) = i /\ ld m (kt + o_kt_ctx) = ctx i /\ ld m (kt + o_kt_current) = NULL.

Section init.
Context `{HeapSpec H} {Lib : IOLib} {HLib : IOLaws}.
Implicit Types (h : H) (L : gmap Z Z).

Lemma alloc_makes_block (size hi : Z) : 0 < size <= REQUEST_MAX -> makes_block (fun h (_ : Z) => h_alloc h size) size hi.
Proof using Type.
  intros Hsz h L i r _ Ho Hr. destruct (h_alloc_spec h L size r Ho Hr Hsz) as (p & k & h' & ? & ? & ? & ? & ? & ?).
  exists p, k, h'. split_and!; try done. lia.
Qed.

Lemma init_ring_makes : io_available -> makes_block init_ring sizeof_io_uring (Z.of_nat DISKIO_THREAD_POOL_SIZE).
Proof.
  intros [Hio _] h L i r Hi Ho Hr. destruct (Hio i Hi) as [[ws Ews] _].
  destruct (h_alloc_spec h L sizeof_io_uring r Ho Hr ring_size) as (p & k & h1 & E & Hp & Hk & Ho1 & HK & Hr1).
  unfold init_ring. rewrite E, Ews. cbn [mbind option_bind]. destruct (h_block _ _ _ _ Ho1 (lookup_insert_eq _ _ _)) as [Hp0 _].
  destruct (Z.eqb_spec p NULL); [lia|]. cbn [negb c_assert mbind option_bind].
  destruct (puts_ok (<[p := k]> L) p k ws (lookup_insert_eq _ _ _)) with (h := h1) as (Ho2 & HK2 & Hr2); [|done|].
  { intros o v Hin. pose proof (queue_init_inside i ws o v Ews Hin). lia. }
  eexists p, k, _. split_and!; [done|done|lia|done| |by apply Hr2].
  eapply blocks_kept_trans; [exact HK|]. eapply blocks_kept_sub; [|exact HK2]. by rewrite delete_insert_id.
Qed.

Lemma check_ring_fills (hi : Z) : fills_block check_ring sizeof_io_uring (fun _ _ _ => True) hi.
Proof using Type.
  intros h L p k i _ Ho Hp _. destruct (h_block _ _ _ _ Ho Hp) as [Hp0 _]. unfold check_ring.
  destruct (Z.eqb_spec p NULL); [lia|]. exists h. split_and!; done.
Qed.

Lemma start_worker_fills : io_available ->
  fills_block start_worker sizeof_io_uring (fun _ _ _ => True) (Z.of_nat DISKIO_THREAD_POOL_SIZE).
Proof using Type.
  intros [Hio _] h L p k i Hi Ho Hp _. unfold start_worker. destruct (Hio i Hi) as [_ ->]. exists h. split_and!; done.
Qed.

Lemma init_kernel_thread_fills (ctx : Z -> Z) (hi : Z) :
  fills_block (init_kernel_thread ctx) sizeof_kernel_thread (kernel_thread_at ctx) hi.
Proof using Type.
  intros h L p k i _ Ho Hp Hk. unfold sizeof_kernel_thread in Hk.
  destruct (puts_ok L p k [(o_kt_ctx, ctx i); (o_kt_id, i); (o_kt_current, NULL)] Hp) with (h := h) as (Ho' & HK & Hr); [|done|].
  { intros o v. rewrite !elem_of_cons, elem_of_nil. unfold o_kt_ctx, o_kt_id, o_kt_current. intros [[= -> _]|[[= -> _]|[[= -> _]|[]]]]; lia. }
  cbn [foldl fst snd] in *. eexists. split_and!; [done|done|done|done|]. unfold kernel_thread_at. rewrite !put_mem.
  split_and!; unfold o_kt_ctx, o_kt_id, o_kt_current; rewrite ?ld_st_eq, ?ld_st_ne, ?ld_st_eq, ?ld_st_ne, ?ld_st_eq by lia; done.
Qed.

Lemma kernel_thread_stable (ctx : Z -> Z) : stable sizeof_kernel_thread (kernel_thread_at ctx).
Proof using Type.
  intros m m' i p (E1 & E2 & E3) HK. unfold kernel_thread_at, o_kt_ctx, o_kt_id, o_kt_current, sizeof_kernel_thread in *.
  rewrite !HK by lia. done.
Qed.

(** A table of the result of one of the two functions. *)
Definition table_at (size : Z) (P : mem -> Z -> Z -> Prop) (n : nat) (m : mem) (L L' : gmap Z Z) (map : Z) : Prop :=
  L !! map = None /\ (exists k, L' !! map = Some k /\ 8 * Z.of_nat n <= k) /\
  exists ps, length ps = n /\ slots_at size P m (<[map := 0]> L) L' map 0 ps.

Lemma init_io_ok h L r : io_available -> h_ok h L -> h_room h (9 + r) ->
  exists map h' L', init_io h = Some (map, h') /\ h_ok h' L' /\ L ⊆ L' /\ blocks_kept L (h_mem h) (h_mem h') /\ h_room h' r /\
    table_at sizeof_io_uring (fun _ _ _ => True) DISKIO_THREAD_POOL_SIZE (h_mem h') L L' map.
Proof.
  intros Hio Ho Hr. unfold init_io, DISKIO_THREAD_POOL_SIZE. change (size_t _) with 32.
  destruct (h_alloc_spec h L 32 (8 + r) Ho Hr) as (map & k & h1 & -> & Hmap & Hk & Ho1 & HK1 & Hr1); [unfold REQUEST_MAX; lia|]. cbn [mbind option_bind].
  set (L1 := <[map := k]> L) in *. assert (L1 !! map = Some k) as Hm1 by apply lookup_insert_eq.
  destruct (h_block _ _ _ _ Ho1 Hm1) as [Hp0 _]. destruct (Z.eqb_spec map NULL); [lia|]. cbn [negb c_assert mbind option_bind].
  destruct (slots_loop_ok alloc_ring check_ring sizeof_io_uring _ 4 (alloc_makes_block _ _ ring_size) (check_ring_fills _)
    ltac:(done) 4 h1 L1 map k 0 (4 + r)) as (h2 & L2 & ps2 & -> & Ho2 & Hs2 & HK2 & _ & Hr2 & _); [done|done|lia..|done|]. cbn [mbind option_bind].
  assert (L2 !! map = Some k) as Hm2 by (by eapply lookup_weaken).
  destruct (slots_loop_ok init_ring start_worker sizeof_io_uring _ 4 (init_ring_makes Hio) (start_worker_fills Hio)
    ltac:(done) 4 h2 L2 map k 0 r) as (h3 & L3 & ps & -> & Ho3 & Hs3 & HK3 & _ & Hr3 & Hlen & Hnd & Hps); [done|done|lia..|done|]. cbn [mbind option_bind].
  destruct Hio as [_ Hnet]. assert (forallb (fun i => net_thread_created (Z.of_nat i)) (seq 0 NETIO_THREAD_POOL_SIZE) = true) as ->.
  { apply forallb_forall. intros i Hi%in_seq. apply Hnet. lia. }
  cbn [c_assert mbind option_bind].
  assert (L ⊆ delete map L1) as Hd1 by (unfold L1; by rewrite delete_insert_id).
  exists map, h3, L3. split_and!; try done.
  - etrans; [by apply (insert_subseteq L map k)|]. by etrans.
  - eapply blocks_kept_trans; [exact HK1|]. eapply blocks_kept_trans; (eapply blocks_kept_sub; [|eassumption]); [done|].
    etrans; [exact Hd1|]. by apply delete_mono.
  - split; [done|]. split; [exists k; split; [by eapply lookup_weaken|lia]|]. exists ps. split; [done|]. split; [done|]. intros j p Hj. destruct (Hps j p Hj) as (? & HLp & ? & ?). split_and!; try done.
    apply lookup_insert_None. split; [|intros <-; congruence]. eapply lookup_weaken_None; [exact HLp|].
    etrans; [by apply (insert_subseteq L map k)|done].
Qed.

Lemma init_scheduler_ok (ctx : Z -> Z) h L r : h_ok h L -> h_room h (13 + r) ->
  exists map h' L', init_scheduler ctx h = Some (map, replicate 12 (safe_q_init SCHEDULER_LOCAL_QUEUE_SIZE),
      replicate 12 (unsafe_ioq_init SCHEDULER_LOCAL_QUEUE_SIZE), h') /\
    h_ok h' L' /\ L ⊆ L' /\ blocks_kept L (h_mem h) (h_mem h') /\ h_room h' r /\
    table_at sizeof_kernel_thread (kernel_thread_at ctx) 12 (h_mem h') L L' map.
Proof using Type.
  intros Ho Hr. unfold init_scheduler. change (size_t _) with 96.
  destruct (h_alloc_spec h L 96 (12 + r) Ho Hr) as (map & k & h1 & -> & Hmap & Hk & Ho1 & HK1 & Hr1); [unfold REQUEST_MAX; lia|]. cbn [mbind option_bind].
  set (L1 := <[map := k]> L) in *. assert (L1 !! map = Some k) as Hm1 by apply lookup_insert_eq.
  destruct (slots_loop_ok alloc_kernel_thread (init_kernel_thread ctx) sizeof_kernel_thread _ 12
    (alloc_makes_block sizeof_kernel_thread _ ltac:(unfold sizeof_kernel_thread, REQUEST_MAX; lia)) (init_kernel_thread_fills ctx _)
    (kernel_thread_stable ctx) 12 h1 L1 map k 0 r) as (h2 & L2 & ps & E2 & Ho2 & Hs2 & HK2 & _ & Hr2 & Hlen & Hnd & Hps); [done|done|lia..|done|].
  change (Z.to_nat pool_size) with 12%nat. rewrite E2. cbn [mbind option_bind].
  exists map, h2, L2. split_and!; try done.
  - etrans; [by apply (insert_subseteq L map k)|done].
  - eapply blocks_kept_trans; [exact HK1|]. eapply blocks_kept_sub; [|exact HK2]. unfold L1. by rewrite delete_insert_id.
  - split; [done|]. split; [exists k; split; [by eapply lookup_weaken|lia]|]. exists ps. split; [done|]. split; [done|]. intros j p Hj. destruct (Hps j p Hj) as (? & HLp & ? & ?). split_and!; try done.
    unfold L1 in HLp. apply lookup_insert_None in HLp as [? ?]. by apply lookup_insert_None.
Qed.

Lemma table_at_kept (size : Z) (P : mem -> Z -> Z -> Prop) (n : nat) (m m' : mem) (L L1 L' : gmap Z Z) (map : Z) : stable size P ->
  table_at size P n m L L1 map -> L1 ⊆ L' -> blocks_kept L1 m m' -> table_at size P n m' L L' map.
Proof using Type.
  intros HP (HL & (k & Hk & Hn) & ps & Hlen & Hs) Hsub HK. split; [done|].
  split; [exists k; split; [by eapply lookup_weaken|done]|]. exists ps. split; [done|].
  eapply slots_at_kept; try done. lia.
Qed.
End init.

(** ** The command line *)
Section args.
Context `{HeapSpec H}.
Implicit Types (s : sheap H) (L : gmap Z Z).

Lemma strlen_ok (l rest : list Z) : 0 ∉ l -> strlen (l ++ 0 :: rest) = Some (Z.of_nat (length l)).
Proof using Type.
  induction l as [|c l IH]; [done|]. rewrite not_elem_of_cons. intros [Hc Hl]. cbn [app strlen length].
  destruct (Z.eqb_spec c 0); [congruence|]. rewrite IH by done. cbn [mbind option_bind]. f_equal. lia.
Qed.

Lemma raw_v2_ok s L (l rest : list Z) r : s_ok s L -> s_room s (S (S r)) -> Z.of_nat (length l) + 1 <= REQUEST_MAX ->
  exists p s', __public__strings_alloc_from_raw_v2 s (l ++ rest) (Z.of_nat (length l)) = Some (p, s') /\ made s L s' p l /\ s_room s' r.
Proof.
  intros Ho Hr Hlen. unfold __public__strings_alloc_from_raw_v2.
  destruct (string_blocks s L (Z.of_nat (length l)) r Ho Hr ltac:(lia) Hlen) as
    (p & n & s1 & d & k & s2 & -> & E2 & Ho2 & Hp & Hd & Hpd & Hn & Hk & HK2 & Hr2 & Eb). cbn [mbind option_bind]. rewrite E2. cbn [mbind option_bind].
  rewrite Nat2Z.id, take_app_length. exists p. eexists. split; [done|]. split; [by eapply (fill_string_ok s s2)|by do 2 apply s_put_room].
Qed.

(** The pointers from slot [i] of [dt] on lead to the strings [argv] in the
    blocks of [L]. *)
Definition strs_at s L (dt i : Z) (strs : list Z) (argv : list (list Z)) : Prop :=
  NoDup strs /\ length strs = length argv /\
  forall j q a, strs !! j = Some q -> argv !! j = Some a -> s_ld s (dt + 8 * (i + Z.of_nat j)) = q /\ str_at s L q a.

(** What the kernel passes: texts with their terminators. *)
Definition argv_of (argv : list (list Z)) : list (list Z) := (fun a => a ++ [0]) <$> argv.
Definition arg_ok (a : list Z) : Prop := 0 ∉ a /\ Z.of_nat (length a) + 1 <= REQUEST_MAX.

Lemma args_loop_ok (args dt k : Z) (argv : list (list Z)) : forall s L i r, Forall arg_ok argv -> s_ok s L ->
  is_Some (L !! args) -> args <> dt -> L !! dt = Some k -> s_ld s (args + o_data) = dt -> 0 <= i -> 8 * (i + Z.of_nat (length argv)) <= k ->
  s_room s (2 * length argv + r) ->
  exists s' L' strs, args_loop s args i (argv_of argv) = Some s' /\ s_ok s' L' /\ L ⊆ L' /\ kept (delete dt L) s s' /\
    (forall x, dt <= x < dt + 8 * i -> s_ld s' x = s_ld s x) /\ s_room s' r /\ strs_at s' (L' ∖ L) dt i strs argv.
Proof.
  induction argv as [|a argv IH]; intros s L i r Ha Ho [n Hargs] Hne Hdt Ed Hi Hk Hr; cbn [argv_of fmap list_fmap args_loop].
  { exists s, L, []. split_and!; try done. split; [apply NoDup_nil_2|done]. }
  apply Forall_cons in Ha as [[H0a Hla] Ha]. rewrite strlen_ok by done. cbn [mbind option_bind].
  destruct (raw_v2_ok s L a [0] (2 * length argv + r) Ho) as (p & s1 & -> & Hm & Hr1); [cbn [length] in Hr; eapply eq_rect; [exact Hr|]; f_equal; lia|done|].
  cbn [mbind option_bind]. destruct Hm as (d & kd & np & Hp & Hd & Hpd & Ho1 & Hown & HK1).
  set (L1 := <[p := np]> (<[d := kd]> L)) in *. assert (L ⊆ L1) as Hs1.
  { etrans; [by apply (insert_subseteq L d kd)|]. apply insert_subseteq. by rewrite lookup_insert_ne. }
  destruct (s_block _ _ _ _ Ho Hargs) as [_ Hn]. assert (L1 !! dt = Some k) as Hdt1 by (by eapply lookup_weaken).
  assert (s_ld s1 (args + o_data) = dt) as -> by (rewrite (kept_ld L s s1 args n) by (done || unfold o_data; lia); done).
  cbn [length] in Hk. set (s2 := s_put s1 (dt + 8 * i) p).
  assert (s_ok s2 L1) as Ho2 by (eapply s_put_ok; [done|exact Hdt1|lia]).
  assert (kept (delete dt L1) s1 s2) as HK2 by (eapply s_put_kept; [done|exact Hdt1|lia]).
  assert (s_ld s2 (args + o_data) = dt) as Ed2.
  { rewrite (kept_ld _ s1 s2 args n _ HK2); [|rewrite lookup_delete_ne by done; by eapply lookup_weaken|unfold o_data; lia].
    rewrite (kept_ld L s s1 args n) by (done || unfold o_data; lia). done. }
  destruct (IH s2 L1 (i + 1) r Ha Ho2) as (s' & L' & strs & E & Ho' & Hs' & HK' & Hlow & Hr' & Hnd & Hlen & Hstr);
    [exists n; by eapply lookup_weaken|done|done|done|lia|lia|by apply s_put_room|].
  fold (argv_of argv). assert (L1 ∖ L ⊆ delete dt L1) as Hdiff by (by eapply diff_delete).
  assert (str_at s1 (L1 ∖ L) p a) as Hsp.
  { destruct (str_own_sub s1 L1 (L1 ∖ L) p d a) as (_ & ? & _); try done; [by apply map_subseteq_difference_l| |].
    - exists np. apply new_in_diff; [done|apply lookup_insert_eq].
    - exists kd. apply new_in_diff; [done|]. unfold L1. by rewrite lookup_insert_ne, lookup_insert_eq. }
  assert (str_at s' (L' ∖ L) p a) as Hsp'.
  { eapply (str_at_keep s2 s' L1 (L1 ∖ L)); [done|by apply map_subseteq_difference_l|by eapply kept_sub|by apply diff_mono|].
    eapply (str_at_keep s1 s2 L1 (L1 ∖ L)); [done|by apply map_subseteq_difference_l|by eapply kept_sub|done|done]. }
  assert (p ∉ strs) as Hnew.
  { intros [j Hj]%list_elem_of_lookup. destruct (lookup_lt_is_Some_2 argv j) as [a' Ha']; [rewrite <- Hlen; by eapply lookup_lt_Some|].
    destruct (Hstr j p a' Hj Ha') as (_ & ([x Hx] & _)). apply lookup_difference_Some in Hx as [_ Hx].
    unfold L1 in Hx. by rewrite lookup_insert_eq in Hx. }
  exists s', L', (p :: strs). split_and!; try done; [by etrans| | |].
  - eapply kept_trans; [eapply kept_sub; [apply delete_subseteq|exact HK1]|].
    eapply kept_trans; (eapply kept_sub; [by apply delete_mono|eassumption]).
  - intros x Hx. rewrite Hlow by lia. unfold s2. rewrite s_ld_put, decide_False by lia. apply (kept_ld L s s1 dt k); (done || lia).
  - split_and!; [by constructor|cbn; lia|]. intros [|j] q a' Hq Ha'; cbn in Hq, Ha'.
    + injection Hq as <-. injection Ha' as <-. split; [|done]. rewrite Z.add_0_r, Hlow by lia. unfold s2. by rewrite s_ld_put, decide_True.
    + destruct (Hstr j q a' Hq Ha') as [E' Hs2]. replace (i + Z.of_nat (S j)) with (i + 1 + Z.of_nat j) by lia. split; [done|].
      eapply (str_at_keep s' s' L' (L' ∖ L1)); [done|by apply map_subseteq_difference_l|apply kept_refl|by apply diff_sub|done].
Qed.

(** The array of the command line: a header, and one string for each
    argument. *)
Definition args_at s L (args : Z) (argv : list (list Z)) : Prop :=
  exists n dt k strs, L !! args = Some n /\ 56 <= n /\ L !! dt = Some k /\ 8 * Z.of_nat (length argv) <= k /\
    header s args dt 8 [Z.of_nat (length argv)] (Z.of_nat (length argv)) /\ strs_at s L dt 0 strs argv.

Lemma args_at_kept s s' L L0 L' args argv : s_ok s L0 -> L ⊆ L0 -> kept L s s' -> L ⊆ L' -> args_at s L args argv -> args_at s' L' args argv.
Proof.
  intros Ho HL0 HK Hs (n & dt & k & strs & Hargs & Hn & Hdt & Hk & Hh & Hnd & Hlen & Hstr).
  exists n, dt, k, strs. split_and!; [by eapply lookup_weaken|done|by eapply lookup_weaken|done|eapply header_kept; try done; cbn; lia|split_and!; try done].
  intros j q a Hq Ha. destruct (Hstr j q a Hq Ha) as [E Hst]. pose proof (lookup_lt_Some _ _ _ Ha). split.
  - rewrite (kept_ld L s s' dt k) by (done || lia). done.
  - by eapply str_at_keep.
Qed.

Lemma main_args_ok s L argv r : s_ok s L -> argv <> [] -> Forall arg_ok argv -> 8 * Z.of_nat (length argv) <= REQUEST_MAX ->
  s_room s (3 + 2 * length argv + r) ->
  exists args s' L', main_args s (argv_of argv) = Some (args, s') /\ s_ok s' L' /\ L ⊆ L' /\ kept L s s' /\ s_room s' r /\
    args_at s' (L' ∖ L) args argv.
Proof.
  intros Ho Hne Ha Hmax Hr. assert (0 < length argv)%nat as Hpos by (destruct argv; [done|cbn; lia]).
  unfold main_args, __public__alloc_array_v2. assert (length (argv_of argv) = length argv) as -> by apply length_fmap. set (argc := Z.of_nat (length argv)).
  destruct (alloc_array_ok s L 8 [argc] (2 * length argv + r) Ho) as (p & s1 & L1 & E & Ho1 & Hs1 & Harr & HK1 & Hr1); [done| |done|].
  { cbn [sizes_ok length]. unfold REQUEST_MAX, argc in *. split_and!; lia. }
  change (Z.of_nat (length [argc])) with 1 in E. rewrite E. cbn [mbind option_bind].
  destruct Harr as (n & dt & k & Hp & Hn & Hdt & Hk & Hpd & Hh & Hdk & _). cbn [length] in Hn.
  pose proof Hp as [Hp1 HpL]%lookup_difference_Some. pose proof Hdt as [Hdt1 HdtL]%lookup_difference_Some.
  destruct (args_loop_ok p dt k argv s1 L1 0 r Ha Ho1) as (s2 & L2 & strs & -> & Ho2 & Hs2 & HK2 & _ & Hr2 & Hstr);
    [by exists n|done|done|apply Hh|lia|unfold argc in *; lia|done|]. cbn [mbind option_bind].
  assert (L ⊆ delete dt L1) as HLd by (rewrite <- (delete_id L dt) by done; by apply delete_mono).
  exists p, s2, L2. split_and!; [done|done|etrans; [exact Hs1|done]|eapply kept_trans; [exact HK1|by eapply kept_sub]|done|].
  exists n, dt, k, strs. split_and!.
  - apply new_in_diff; [done|by eapply lookup_weaken].
  - lia.
  - apply new_in_diff; [done|by eapply lookup_weaken].
  - unfold argc in *. lia.
  - eapply header_kept; [exact HK2|by rewrite lookup_delete_ne|cbn; lia|exact Hh].
  - destruct Hstr as (? & ? & Hstr). split_and!; try done. intros j q a Hq Hja. destruct (Hstr j q a Hq Hja) as [E' Hst]. split; [done|].
    eapply (str_at_keep s2 s2 L2 (L2 ∖ L1)); [done|by apply map_subseteq_difference_l|apply kept_refl|by apply diff_sub|done].
Qed.
End args.
