(* ===== verification/StartupThms.v ===== *)
(** * StartupThms: what the start-up code hands to the first task *)

From S2P Require Import Prelude Mem Dll Alloc AllocFacts AllocInv AllocOs AllocMain AllocCreate AllocRoom AllocSpec Heap Queue QueueSpec RingSpec.
From S2P Require Import Bytes Strings StrHeap Arrays ArraySpec Gc GcCollect Reserve Tasks TaskSpec ThreadSpec TaskThms Startup StartupSpec.

Section arena.
Context `{OSLaws}.

(** [arena_create] takes two mappings. *)
Lemma arena_create_room (m : mem) (ms : list (Z * Z)) (s : astate) (k : nat) :
  arena_create m ms = Some s -> os_room (S (S k)) ms -> os_room k (maps s).
Proof.
  unfold arena_create, alloc_memory, SMALLBINS_COUNT, LARGEBINS_COUNT, sizeof_free_chunk. cbv zeta. set (n := sizeof_arena + _ + _ + _).
  assert (0 < n <= 2 ^ 21) as Hn by (destruct mutex_size as [? _]; unfold n, sizeof_arena; lia).
  destruct page_facts as [Hpg _]. destruct (align_page_spec n ltac:(lia)) as [Hal _].
  intros E [Ha Hr]. destruct (sys_mmap ms (align_page n)) as [p|] eqn:Ep; [|done]. cbn [mbind option_bind] in E.
  destruct (c_assert _); [|done]. cbn [mbind option_bind] in E.
  destruct (init_bins _ _ _ _) as [m1 small], (init_bins _ _ _ _) as [m2 large].
  apply grow_heap_os in E as (n' & p' & Hn' & Ep' & -> & _); [|unfold iters_ok; cbn; lia].
  assert (0 < align_page n <= 2 ^ 40) as Hb by (clear -Hn Hpg Hal; clearbody n; lia).
  destruct (Hr (align_page n) p Hb Ep) as [_ Hr2]. exact (Hr2 n' p' Hn' Ep').
Qed.

(** A new arena as a heap with room. *)
Lemma create_arena_ok (c : collector) (k : nat) : (1 + 2 * k <= 159)%nat -> os_room (2 + 2 * k) (g_maps c) ->
  exists s, arena_create (g_mem c) (g_maps c) = Some s /\ reserved_ok [] s ∅ /\ arena_room s k.
Proof.
  intros Hk Hroom. destruct (repr_arena_create (g_mem c) (g_maps c)) as (s & E & HR & Hl & _).
  - by destruct Hroom.
  - intros p n Hp Hn. destruct Hroom as [_ Hroom]. apply (Hroom arena_bytes p); [|done|done].
    destruct mutex_size as [? _], page_facts as [? _]. unfold arena_bytes.
    destruct (align_page_spec (sizeof_arena + 32 * 48 + 64 * 48 + 48)) as [? _]; unfold sizeof_arena in *; lia.
  - exists s. split_and!; [done|apply arena_reserved; by exists ∅|]. split; [lia|]. by eapply arena_create_room.
Qed.
End arena.

Section main.
Context `{OSLaws} {Ffi : FFI} {HFfi : FFILaws} {Lib : IOLib} {HLib : IOLaws}.
Context (makecontext : Z -> Z -> Z -> Z -> Z * Z * (Z -> Z)).

(** The allocations of [main], with [argc] arguments. *)
Definition main_allocs (argc : nat) : nat := 33 + 2 * argc.

Lemma main_ok (c : collector) (b : bytes) (ctx : Z -> Z) (start : Z) (argv : list (list Z)) (r1 r2 uc : Z) :
  io_available -> argv <> [] -> Forall arg_ok argv -> 0 <= r1 ->
  (1 + 2 * main_allocs (length argv) <= 159)%nat -> os_room (2 + 2 * main_allocs (length argv)) (g_maps c) ->
  exists t args pr L Lm n tb m payload types values vals, let kid := Z.to_nat (r1 mod pool_size) in let rt := pr_rt pr in
    main makecontext c b ctx start (argv_of argv) r1 r2 uc = Some (t, args, pr) /\
    RTInv rt L [(n, t, tb)] (<[kid := [(m, t)]]> (replicate 12 [])) /\ task_count rt = 1 /\
    Lm ⊆ L /\ Lm !! n = None /\ Lm !! t = None /\ Lm !! m = None /\
    payload_at (g_mem (rt_gc rt)) payload start types values vals [args] /\
    (exists s, arena_of (rt_gc rt) = Some s /\ args_at (H := astate) (SHeap s (pr_bytes pr)) Lm args argv) /\
    wait_qs pr = replicate 12 (unsafe_ioq_init SCHEDULER_LOCAL_QUEUE_SIZE) /\
    (exists L0, table_at sizeof_kernel_thread (kernel_thread_at ctx) 12 (g_mem (rt_gc rt)) L0 Lm (kernel_thread_map pr)) /\
    table_at sizeof_io_uring (fun _ _ _ => True) DISKIO_THREAD_POOL_SIZE (g_mem (rt_gc rt)) ∅ Lm (diskio_ring_map pr) /\
    (exists D, owned D payload types values vals /\ D ⊆ L /\ Lm ##ₘ D /\ D !! n = None /\ D !! t = None /\ D !! m = None) /\
    ld (g_mem (rt_gc rt)) (t + o_task_sched_id) = r1 mod pool_size /\ Forall (fun q => q_cond q = cond_init) (ready_qs rt).
Proof.
  intros Hio Hne Ha Hr1 Hlen Hroom. unfold main_allocs in *. pose (HS := reserved_spec []).
  destruct (create_arena_ok c (33 + 2 * length argv) Hlen Hroom) as (s0 & E0 & Ho0 & Hr0).
  destruct (init_io_ok (H1 := HS) s0 ∅ (13 + (11 + 2 * length argv)) Hio Ho0 Hr0) as
    (rings & s1 & L1 & E1 & Ho1 & _ & _ & Hr1' & Htab1).
  destruct (init_scheduler_ok (H1 := HS) ctx s1 L1 (11 + 2 * length argv) Ho1 Hr1') as
    (kts & s2 & L2 & E2 & Ho2 & Hs2 & HK2 & Hr2 & Htab2).
  destruct (main_args_ok (H1 := HS) (SHeap s2 b) L2 argv 8 Ho2 Hne Ha) as (args & sh & L3 & E3 & Ho3 & Hs3 & HK3 & Hr3 & Hargs).
  { unfold REQUEST_MAX. lia. }
  { replace (3 + 2 * length argv + 8)%nat with (11 + 2 * length argv)%nat by lia. exact Hr2. }
  set (s3 := sh_heap sh) in *. set (c1 := Collector (mm s0) (maps s0) (Some (ar s0)) (arenas c) (roots c) (g_tasks c)).
  set (c2 := gc_init (with_arena c1 s2)). set (rt0 := Runtime (with_arena c2 s3) (replicate 12 (safe_q_init SCHEDULER_LOCAL_QUEUE_SIZE)) 0).
  assert (arena_of (rt_gc rt0) = Some s3) as Es3 by (by destruct s3).
  pose proof (idle_rt rt0 s3 L3 12 Es3 Ho3 ltac:(by eexists) ltac:(by eexists)) as RT0.
  destruct (thread_ok makecontext rt0 L3 [] (replicate 12 []) start [args] r1 r2 uc RT0) as
    (t & rt & payload & D & types & values & vals & n & tb & m & kt & kn & km & qs & E4 & Hd & Ht & Hn & Hm & Hqs & RT & HW & HP & Hcnt & HF & _ & Hsid & _);
    [done|done|unfold REQUEST_MAX; cbn; lia|intros s' Es'; assert (s' = s3) as -> by congruence; exact Hr3|].
  apply lookup_replicate in Hqs as [-> _]. set (L := <[m := km]> _) in RT.
  assert (L3 ⊆ L) as HL.
  { etrans; [by apply (map_union_subseteq_r D)|]. etrans; [by apply insert_subseteq|]. etrans; [by apply insert_subseteq|]. by apply insert_subseteq. }
  assert (blocks_kept L3 (mm s3) (g_mem (rt_gc rt))) as HKf.
  { intros p k x Hp Hx. apply (HF p k x Hp); [apply not_elem_of_nil..|done]. }
  assert (L3 !! n = None /\ L3 !! t = None /\ L3 !! m = None) as (Hn3 & Ht3 & Hm3).
  { assert (L3 ⊆ D ∪ L3) by (by apply map_union_subseteq_r). split_and!; [| |].
    - apply lookup_insert_None in Hn as [Hn _]. by eapply lookup_weaken_None.
    - by eapply lookup_weaken_None.
    - apply lookup_insert_None in Hm as [[Hm _]%lookup_insert_None _]. by eapply lookup_weaken_None. }
  destruct (T_ring _ _ _ (RT_tasks _ _ _ _ RT)) as (sf & q & Esf & _). destruct (arena_of_some _ _ Esf) as (_ & Emf & _).
  exists t, args, (Process rt (replicate 12 (unsafe_ioq_init SCHEDULER_LOCAL_QUEUE_SIZE)) (sh_bytes sh) rings kts), L, L3, n, tb, m, payload, types, values, vals.
  cbv zeta. cbn [pr_rt pr_bytes wait_qs kernel_thread_map diskio_ring_map]. split_and!; try done.
  - unfold main, gc_create_global_arena. rewrite E0. cbn [mbind option_bind]. fold c1.
    replace (arena_of c1) with (Some s0) by (by destruct s0). cbn [mbind option_bind]. rewrite E1. cbn [mbind option_bind]. rewrite E2. cbn [mbind option_bind].
    fold c2. replace (arena_of c2) with (Some s2) by (by destruct s2). cbn [mbind option_bind]. rewrite E3. cbn [mbind option_bind]. fold s3. fold rt0.
    rewrite E4. done.
  - exists sf. split; [done|]. eapply (args_at_kept (H1 := HS) sh _ (L3 ∖ L2) L3); [exact Ho3|by apply map_subseteq_difference_l| | |exact Hargs].
    + split; [|done]. cbn [sh_heap]. intros p k x Hp Hx. change (h_mem sf) with (mm sf). rewrite <- Emf. apply (HKf p k); [|done].
      eapply lookup_weaken; [exact Hp|by apply map_subseteq_difference_l].
    + by apply map_subseteq_difference_l.
  - exists L1. eapply table_at_kept; [apply kernel_thread_stable|exact Htab2|done|].
    eapply blocks_kept_trans; [apply HK3|]. by eapply blocks_kept_sub.
  - eapply table_at_kept; [done|exact Htab1|by etrans|]. eapply blocks_kept_trans; [exact HK2|].
    eapply blocks_kept_sub; [exact Hs2|]. eapply blocks_kept_trans; [apply HK3|]. by eapply blocks_kept_sub.
  - rewrite lookup_union_None in Ht. rewrite lookup_insert_None, lookup_union_None in Hn. rewrite !lookup_insert_None, lookup_union_None in Hm.
    exists D. split_and!; try done; try tauto. etrans; [by apply (map_union_subseteq_l D L3)|].
    etrans; [by apply insert_subseteq, lookup_union_None|]. etrans; [apply insert_subseteq|apply insert_subseteq].
    + rewrite lookup_insert_None, lookup_union_None. tauto.
    + rewrite !lookup_insert_None, lookup_union_None. tauto.
  - destruct (thread_queues _ _ _ _ _ _ _ _ _ E4) as (q1 & q2 & Hq1 & -> & Eq2). apply Forall_insert; [by apply Forall_replicate|].
    rewrite Eq2. unfold arr_get in Hq1. destruct (0 <=? _); [|done]. apply lookup_replicate in Hq1 as [-> _]. done.
Qed.

(** C17: [main] brings the runtime up.  From an empty process with a kernel
    that maps memory, and rings and worker threads that can be made, and
    with at least one argument and no more than the heap table has room for
    (23), it starts the first task on [start] with one argument: the array of the
    command line, which has one string per argument with its bytes, all in
    live blocks of the global arena.  The task is in the ready queue that
    the random number selects and alone in the ring of roots, [task_count]
    is 1 and the invariant of the runtime holds; the table of kernel threads
    has twelve distinct records, each with its number and no current task,
    and the table of disk workers four distinct rings; these tables and the
    array are in blocks of their own, apart from those of the task, and the
    payload is in blocks apart from all of these.  The record of the task
    names the selected thread, and nobody waits for a queue. *)
Theorem main_spec (c : collector) (b : bytes) (ctx : Z -> Z) (start : Z) (argv : list (list Z)) (r1 r2 uc : Z) :
  io_available -> argv <> [] -> Forall arg_ok argv -> 0 <= r1 ->
  (1 + 2 * main_allocs (length argv) <= 159)%nat -> os_room (2 + 2 * main_allocs (length argv)) (g_maps c) ->
  exists t args pr L Lm n tb m payload types values vals, let kid := Z.to_nat (r1 mod pool_size) in let rt := pr_rt pr in
    main makecontext c b ctx start (argv_of argv) r1 r2 uc = Some (t, args, pr) /\
    RTInv rt L [(n, t, tb)] (<[kid := [(m, t)]]> (replicate 12 [])) /\ task_count rt = 1 /\
    Lm ⊆ L /\ Lm !! n = None /\ Lm !! t = None /\ Lm !! m = None /\
    payload_at (g_mem (rt_gc rt)) payload start types values vals [args] /\
    (exists s, arena_of (rt_gc rt) = Some s /\ args_at (H := astate) (SHeap s (pr_bytes pr)) Lm args argv) /\
    wait_qs pr = replicate 12 (unsafe_ioq_init SCHEDULER_LOCAL_QUEUE_SIZE) /\
    (exists L0, table_at sizeof_kernel_thread (kernel_thread_at ctx) 12 (g_mem (rt_gc rt)) L0 Lm (kernel_thread_map pr)) /\
    table_at sizeof_io_uring (fun _ _ _ => True) DISKIO_THREAD_POOL_SIZE (g_mem (rt_gc rt)) ∅ Lm (diskio_ring_map pr) /\
    (exists D, owned D payload types values vals /\ D ⊆ L /\ Lm ##ₘ D /\ D !! n = None /\ D !! t = None /\ D !! m = None) /\
    ld (g_mem (rt_gc rt)) (t + o_task_sched_id) = r1 mod pool_size /\ Forall (fun q => q_cond q = cond_init) (ready_qs rt).
Proof. apply main_ok. Qed.
End main.

(** A command line is not optional: without any argument, the assertion in
    [__alloc_array_recursive] fails. *)
Theorem main_without_arguments `{OS} {Ffi : FFI} {Lib : IOLib} makecontext c b ctx start r1 r2 uc :
  main makecontext c b ctx start [] r1 r2 uc = None.
Proof.
  unfold main. destruct (gc_create_global_arena c) as [c1|]; [|done]. cbn [mbind option_bind].
  destruct (arena_of c1) as [s|]; [|done]. cbn [mbind option_bind]. destruct (init_io s) as [[rings s1]|]; [|done]. cbn [mbind option_bind].
  destruct (init_scheduler ctx s1) as [[[[kts qs] ws] s2]|]; [|done]. cbn [mbind option_bind].
  destruct (arena_of (gc_init _)) as [s3|]; [|done]. cbn [mbind option_bind].
  assert (main_args (SHeap s3 b) [] = None) as ->; [|done].
  unfold main_args, __public__alloc_array_v2, __public__alloc_array. cbn [Z.leb Z.compare length].
  destruct (s_alloc _ _) as [[dims s4]|]; [|done]. cbn [mbind option_bind]. change (Z.of_nat 0) with 0.
  change (Z.to_nat 1) with 1%nat. cbn [c_assert negb Z.eqb Z.leb Z.compare Z.of_nat length take store_dims __alloc_array_recursive mbind option_bind].
  assert (s_ld (s_put s4 dims 0) (dims + 8 * 0) = 0) as ->; [|done].
  unfold s_ld, s_put. cbn [sh_heap put h_mem h_set arena_heap mm with_mm]. rewrite Z.add_0_r. apply ld_st_eq.
Qed.

(** ** Instances *)

(** A liburing whose rings have one word. *)
Definition tiny_lib : IOLib :=
  {| sizeof_io_uring := 216; io_uring_queue_init := fun i => Some [(0, i)]; disk_thread_created := fun _ => true; net_thread_created := fun _ => true |}.
#[export] Instance tiny_lib_laws : @IOLaws tiny_lib.
Proof.
  split; [cbn; unfold REQUEST_MAX; lia|]. cbn. intros i ws o v [= <-]. rewrite list_elem_of_singleton. intros [= -> _]. lia.
Qed.

Lemma main_spec_witness : exists t args pr, @main bump_os tiny_ffi tiny_lib plain_context (Collector ∅ [] None [] None ∅) ∅ (fun i => i) 77 [[97; 98; 0]; [0]] 25 3 0 =
    Some (t, args, pr) /\ task_count (pr_rt pr) = 1.
Proof.
  destruct (@main_spec bump_os bump_laws tiny_ffi _ tiny_lib _ plain_context (Collector ∅ [] None [] None ∅) ∅ (fun i => i) 77 [[97; 98]; []] 25 3 0) as
    (t & args & pr & L & Lm & n & tb & m & payload & types & values & vals & E & _ & Hcnt & _).
  - split; [|done]. intros i _. split; [by eexists|done].
  - done.
  - rewrite !Forall_cons, Forall_nil. unfold arg_ok, REQUEST_MAX. split_and!; try done; rewrite ?elem_of_cons, ?elem_of_nil; cbn; lia.
  - lia.
  - vm_compute. lia.
  - apply bump_room. vm_compute. discriminate.
  - exists t, args, pr. split; [exact E|exact Hcnt].
Defined.
