(* ===== verification/Dispatch.v ===== *)
(** * Dispatch: the turns of a scheduler thread (src/runtime/src/scheduler.c)

    What [scheduler_run] does on the memory before it switches to a task
    and after the task has switched back, and how the timer makes a task
    yield or stop for the collector.  The handshake with the collector, step
    by step, is in World.v, the exit protocol in Pool.v. *)

From S2P Require Import Prelude World Mem Alloc AllocOs AllocMain Heap Queue Gc Tasks Startup.

Definition o_task_wq : Z := 128.

Section dispatch.
Context `{OS}.

(** The runtime with the wait queues, the table of kernel threads and the
    preemption flags. *)
Record machine := Machine { mc_rt : runtime; mc_waits : list unsafe_queue; mc_kts : list Z; preempt : list Z }.

(** What a thread does next. *)
Inductive turn := Sleeps | Exits | Runs (t : Z).

(** The collector's view of the state of a task. *)
Definition set_state (c : collector) (t : Z) (st : task_state) : collector :=
  Collector (g_mem c) (g_maps c) (global_arena c) (arenas c) (roots c) (alter (fun x => (st, x.2)) t (g_tasks c)).

(** The loop of [scheduler_run] from the pop to the switch in
    [task_resume], on the thread [i]. *)
Definition turn_begin (w : machine) (i : nat) : option (turn * machine) :=
  let rt := mc_rt w in
  s ← arena_of (rt_gc rt);
  q ← ready_qs rt !! i;
  wq ← mc_waits w !! i;
  kt ← mc_kts w !! i;
  '(r, s, q) ← safe_q_pop_wait s q;
  let rt s := Runtime (with_arena (rt_gc rt) s) (<[i := q]> (ready_qs rt)) (task_count rt) in
  match r with
  | Asleep => Some (Sleeps, Machine (rt s) (mc_waits w) (mc_kts w) (preempt w))
  | Got t =>
      if t =? NULL then Some (Exits, Machine (rt s) (mc_waits w) (mc_kts w) (preempt w))
      else
        let s := put s (kt + o_kt_current) t in
        '(_, s, wq) ← unsafe_ioq_remove o_task_wq s wq t;
        let s := put s (t + o_task_state) (state_word TASK_RUNNING) in
        let s := put s (kt + o_kt_current) t in
        let rt := rt s in
        Some (Runs t, Machine (Runtime (set_state (rt_gc rt) t TASK_RUNNING) (ready_qs rt) (task_count rt))
          (<[i := wq]> (mc_waits w)) (mc_kts w) (preempt w))
  end.

(** From the switch back to the end of the loop body; the result is
    [remaining], if the task has finished. *)
Definition turn_end (w : machine) (i : nat) (t : Z) : option (option Z * machine) :=
  let rt := mc_rt w in
  s ← arena_of (rt_gc rt);
  kt ← mc_kts w !! i;
  let s := put s (kt + o_kt_current) NULL in
  let c := with_arena (rt_gc rt) s in
  if ld (mm s) (t + o_task_state) =? state_word TASK_FINISHED then
    let remaining := swrap 32 (task_count rt - 1) in
    c ← task_destroy c t;
    Some (Some remaining, Machine (Runtime c (ready_qs rt) remaining) (mc_waits w) (mc_kts w) (preempt w))
  else Some (None, Machine (Runtime c (ready_qs rt) (task_count rt)) (mc_waits w) (mc_kts w) (preempt w)).

(** ** Preemption *)

(** [preempt[i] = v]; a write outside the array is undefined. *)
Definition set_preempt (w : machine) (i v : Z) : option machine :=
  _ ← arr_get (preempt w) i;
  Some (Machine (mc_rt w) (mc_waits w) (mc_kts w) (<[Z.to_nat i := v]> (preempt w))).

(** [init_timer_signal_handler]: a timer that sends the signal with the
    kernel thread [arg] every 50 ms, the first time after 50 ms.  [created] and
    [armed] say whether [timer_create] and [timer_settime] succeed; if one
    fails the thread ends.  A failed [sigaction] is only reported. *)
Record timer := Timer { tm_signo : Z; tm_arg : Z; tm_value : Z; tm_interval : Z }.
Definition SIGRTMIN : Z := 34.
Definition PREEMPT_NSEC : Z := 50000000.
Definition init_timer_signal_handler (created armed : bool) (arg : Z) : option timer :=
  c_assert created ;; c_assert armed ;; Some (Timer SIGRTMIN arg PREEMPT_NSEC PREEMPT_NSEC).

(** On macOS the timer is a dispatch source: it calls the handler at once and
    then every 50 ms.  The number passed on is that of SIGUSR1. *)
Definition SIGUSR1 : Z := 30.
Definition init_timer_darwin (arg : Z) : timer := Timer SIGUSR1 arg 0 (50 * 1000000).

(** The handler of the timer; its argument is the kernel thread, whose first
    field is its [id]. *)
Definition force_preempt (w : machine) (arg : Z) : option machine :=
  set_preempt w (ld (g_mem (rt_gc (mc_rt w))) (arg + o_kt_id)) 1.

(** [self_yield] of the task [t]; [g] is [gc_state] with the threads that
    take part in the handshake.  The task goes on, or switches to its
    scheduler, or has found [world_stopped] set and stops for the collector:
    its thread takes the step of World.v into the slow path (the lock, the
    counter and the wait are the next steps there).  [preempt[i]] is an [int]
    and [current_task] is [NULL] outside a task. *)
Inductive yields := GoesOn | Switches | Stops.

Definition self_yield (g : world) (w : machine) (t : Z) : option (yields * world * machine) :=
  if t =? NULL then Some (GoesOn, g, w)
  else
    let rt := mc_rt w in
    s ← arena_of (rt_gc rt);
    let sid := ld (mm s) (t + o_task_sched_id) in
    if negb (world_stopped g) then
      p ← arr_get (preempt w) sid;
      if p =? 0 then Some (GoesOn, g, w)
      else
        kt ← arr_get (mc_kts w) sid;
        w ← set_preempt w sid 0;
        q ← arr_get (ready_qs rt) sid;
        '(s, q) ← safe_q_push s q t;
        let w := Machine (Runtime (with_arena (rt_gc rt) s) (<[Z.to_nat sid := q]> (ready_qs rt)) (task_count rt))
                   (mc_waits w) (mc_kts w) (preempt w) in
        Some (if ld (mm s) (kt + o_kt_current) =? NULL then GoesOn else Switches, g, w)
    else g ← act g (Mutate (Z.to_nat sid)); Some (Stops, g, w).
End dispatch.
