(* ===== verification/DispatchSpec.v ===== *)
(** * DispatchSpec: the turns of a scheduler thread keep the runtime's invariant *)

From S2P Require Import Prelude World Mem Dll Alloc AllocOs AllocMain AllocRoom AllocSpec Heap Queue QueueSpec RingSpec.
From S2P Require Import Gc GcCollect Reserve Tasks TaskSpec ThreadSpec Startup StartupSpec Dispatch.

Section moves.
Context `{OSLaws}.

Ltac tko := unfold sizeof_task, o_task_gcq, o_task_wq, o_task_state, o_task_stack, o_task_stack_size, o_kt_current, sizeof_kernel_thread in *.

(** The blocks the invariant of the runtime names. *)
Definition rt_block (ts : list (Z * Z * Z)) (qss : list (list (Z * Z))) (p : Z) : Prop :=
  p ∈ ts.*1.*1 \/ p ∈ ts.*1.*2 \/ exists i qs, qss !! i = Some qs /\ p ∈ qs.*1.

Lemma rt_block_live (rt : runtime) (L : gmap Z Z) (ts : list (Z * Z * Z)) (qss : list (list (Z * Z))) (p : Z) :
  RTInv rt L ts qss -> rt_block ts qss p -> is_Some (L !! p).
Proof.
  intros RT [Hp|[Hp|(i & qs & Hi & Hp)]]; [apply (T_live _ _ _ p (RT_tasks _ _ _ _ RT)); auto..|by eapply RT_node_live].
Qed.

(** The invariant survives a step that leaves alone its blocks, apart from
    the words of the records that it does not depend on. *)
Lemma RTInv_move (rt : runtime) (L L' : gmap Z Z) (ts : list (Z * Z * Z)) (qss : list (list (Z * Z))) (s s' : astate) (n : Z) :
  RTInv rt L ts qss -> arena_of (rt_gc rt) = Some s -> reserved_ok (stack_of <$> ts) s' L' ->
  (forall p, rt_block ts qss p -> L' !! p = L !! p) ->
  (forall p k x, rt_block ts qss p -> p ∉ ts.*1.*2 -> L !! p = Some k -> p <= x < p + k -> ld (mm s') x = ld (mm s) x) ->
  (forall t o, t ∈ ts.*1.*2 -> task_word o -> ld (mm s') (t + o) = ld (mm s) (t + o)) ->
  RTInv (Runtime (with_arena (rt_gc rt) s') (ready_qs rt) n) L' ts qss.
Proof.
  intros RT Es Ho HL HN HW. pose proof (RT_tasks _ _ _ _ RT) as T. split; cbn [rt_gc ready_qs].
  - eapply TInv_move; [exact T|exact Es|exact Ho| | |exact HW].
    + intros p Hp. apply HL. unfold rt_block. tauto.
    + intros p k x Hp Hk Hx. apply (HN p k); [by left| |done|done]. intros Hp2.
      destruct T as [(s0 & q & _ & _ & _ & R) _]. apply in_fst in Hp as [t Hp]. apply in_snd in Hp2 as [m Hp2].
      by apply (RI_sep _ _ _ _ _ R p t m p).
  - apply RT.
  - intros s1 i q qs Es1 Hi Hsi. assert (s1 = s') as -> by (destruct s'; cbn in Es1; congruence).
    eapply (QInv_move (reserved_spec (stack_of <$> ts)) _ s); [by eapply (RT_queue _ _ _ _ RT)|exact Ho| |].
    + intros m Hm. apply HL. right. right. eauto.
    + intros m k x Hm Hk Hx. apply (HN m k); [right; right; eauto| |done|done]. by destruct (RT_sep _ _ _ _ RT i qs m Hsi Hm).
  - apply RT.
  - apply RT.
Qed.

(** The collector's copy of the state is not part of it. *)
Lemma RTInv_state (rt : runtime) (L : gmap Z Z) (ts : list (Z * Z * Z)) (qss : list (list (Z * Z))) (t : Z) (st : task_state) :
  RTInv rt L ts qss -> RTInv (Runtime (set_state (rt_gc rt) t st) (ready_qs rt) (task_count rt)) L ts qss.
Proof.
  intros [[HR HT] ? HQ ? ?]. split; cbn [rt_gc ready_qs]; try done. split; [done|]. cbn [set_state g_mem g_tasks].
  intros n t' b Hin. destruct (HT n t' b Hin) as (? & ? & st' & ctx & E & ?). split_and!; try done.
  destruct (decide (t = t')) as [->|Hne].
  - exists st, ctx. rewrite lookup_alter_eq, E. done.
  - exists st', ctx. by rewrite lookup_alter_ne.
Qed.

(** Taking the first task of a ready queue. *)
Lemma dequeue_ok (rt : runtime) (L : gmap Z Z) (ts : list (Z * Z * Z)) (qss : list (list (Z * Z))) (s : astate) (i : nat) (q : safe_queue)
    (m t : Z) (qs : list (Z * Z)) :
  RTInv rt L ts qss -> arena_of (rt_gc rt) = Some s -> ready_qs rt !! i = Some q -> qss !! i = Some ((m, t) :: qs) ->
  exists s' q', safe_q_pop_wait s q = Some (Got t, s', q') /\ blocks_kept (delete m L) (mm s) (mm s') /\
    RTInv (Runtime (with_arena (rt_gc rt) s') (<[i := q']> (ready_qs rt)) (task_count rt)) (delete m L) ts (<[i := qs]> qss).
Proof.
  intros RT Es Hq Hqs. pose (HS := reserved_spec (stack_of <$> ts)). pose proof (RT_queue _ _ _ _ RT s i q _ Es Hq Hqs) as Q.
  destruct (take_head_ok _ _ _ _ _ _ Q) as (s' & q' & E & Q' & _ & HK). exists s', q'. split.
  { unfold safe_q_pop_wait. rewrite (QI_lock _ _ _ _ Q). cbn [mutex_lock negb c_assert mbind option_bind].
    destruct (Z.eqb_spec (q_head q) NULL) as [E0|_]; [by apply (QI_empty _ _ _ _ Q) in E0|]. by rewrite E. }
  split; [exact HK|]. assert (forall p, p ∈ ts.*1.*1 \/ p ∈ ts.*1.*2 -> p <> m) as Htm.
  { intros p Hp ->. destruct (RT_sep _ _ _ _ RT i _ m Hqs ltac:(by left)). tauto. }
  pose proof (RT_tasks _ _ _ _ RT) as T. assert (NoDup (m :: qs.*1)) as Hnd by (exact (QI_nodup _ _ _ _ Q)).
  assert (forall j qsj, <[i := qs]> qss !! j = Some qsj -> exists qo, qss !! j = Some qo /\ (forall y, y ∈ qsj.*1 -> y ∈ qo.*1 /\ y <> m)) as Hold.
  { intros j qsj Hj. destruct (decide (j = i)) as [->|Hne].
    - rewrite list_lookup_insert_eq in Hj by (by eapply lookup_lt_Some). injection Hj as <-. exists ((m, t) :: qs). split; [done|].
      intros y Hy. apply NoDup_cons in Hnd as [? _]. split; [by right|]. intros E'. rewrite E' in Hy. done.
    - rewrite list_lookup_insert_ne in Hj by done. exists qsj. split; [done|]. intros y Hy. split; [done|]. intros E'. rewrite E' in Hy.
      apply (RT_apart _ _ _ _ RT j i qsj _ m Hj Hqs Hne Hy). by left. }
  split; cbn [rt_gc ready_qs].
  - eapply TInv_move; [exact T|exact Es|apply Q'| | |].
    + intros p Hp. rewrite lookup_delete_ne; [done|]. by apply not_eq_sym, Htm.
    + intros p k x Hp Hk Hx. apply (HK p k); [|done]. rewrite lookup_delete_ne; [done|]. apply not_eq_sym, Htm. auto.
    + intros t' o Ht' Ho'. destruct (task_word_in _ _ _ t' o T Ht' Ho') as (k & Hk & Hx & _). apply (HK t' k); [|done].
      rewrite lookup_delete_ne; [done|]. apply not_eq_sym, Htm. auto.
  - by rewrite !length_insert, (RT_len _ _ _ _ RT).
  - intros s1 j qj qsj Es1 Hj Hsj. assert (s1 = s') as -> by (destruct s'; cbn in Es1; congruence).
    destruct (decide (j = i)) as [->|Hne].
    + rewrite list_lookup_insert_eq in Hj by (by eapply lookup_lt_Some). rewrite list_lookup_insert_eq in Hsj by (by eapply lookup_lt_Some). by simplify_eq.
    + destruct (Hold j qsj Hsj) as (qo & _ & Hy). rewrite list_lookup_insert_ne in Hj by done. rewrite list_lookup_insert_ne in Hsj by done.
      eapply (QInv_move HS HS s); [by eapply (RT_queue _ _ _ _ RT)|apply Q'| |].
      * intros y Hin. destruct (Hy y Hin) as [_ ?]. by rewrite lookup_delete_ne.
      * intros y k x Hin Hk Hx. destruct (Hy y Hin) as [_ ?]. apply (HK y k); [by rewrite lookup_delete_ne|done].
  - intros j qsj y Hj Hy. destruct (Hold j qsj Hj) as (qo & Hqo & Hin). apply (RT_sep _ _ _ _ RT j qo); [done|by apply Hin].
  - intros j j' qj qj' y Hj Hj' Hne Hy. destruct (Hold j qj Hj) as (qo & Hqo & Hin), (Hold j' qj' Hj') as (qo' & Hqo' & Hin').
    intros Hy'. by apply (RT_apart _ _ _ _ RT j j' qo qo' y Hqo Hqo' Hne); [apply Hin|apply Hin'].
Qed.
End moves.

(** ** Leaving the wait queue *)
Section leave.
Context `{HeapSpec H} (off : Z) (Hoff : 0 <= off).

Lemma filter_without (ws : list (Z * Z)) (t : Z) : t ∉ ws.*2 -> filter (fun nt => nt.2 <> t) ws = ws.
Proof using Type.
  induction ws as [|[n u] ws IH]; [done|]. cbn [fmap list_fmap]. rewrite not_elem_of_cons. intros [Hu Hws].
  rewrite filter_cons_True by (by apply not_eq_sym). by rewrite IH.
Qed.

(** Whatever the wait queue, the task is not in it afterwards. *)
Lemma ioq_leave_ok (h : H) (q : unsafe_queue) (L : gmap Z Z) (ws : list (Z * Z)) (t : Z) :
  RInv off h (ioq_head q) L ws -> t ∈ ws.*2 \/ ws = [] \/ ld (h_mem h) (t + off) = NULL ->
  exists r h' q' L', unsafe_ioq_remove off h q t = Some (r, h', q') /\
    RInv off h' (ioq_head q') L' (filter (fun nt => nt.2 <> t) ws) /\ L' ⊆ L /\ (forall p, p ∉ ws.*1 -> L' !! p = L !! p) /\
    forall p k x, L !! p = Some k -> p ∉ ws.*1 -> p <= x < p + k -> x <> t + off -> ld (h_mem h') x = ld (h_mem h) x.
Proof.
  intros R Ht. destruct (decide (t ∈ ws.*2)) as [[w Hin]%in_snd|Hn].
  - apply list_elem_of_split in Hin as (l1 & l2 & ->). pose proof (RI_tasks _ _ _ _ _ R) as Hnd.
    assert ((w, t) ∈ l1 ++ (w, t) :: l2) as Hin by (rewrite elem_of_app, elem_of_cons; tauto).
    destruct (RI_task _ _ _ _ _ R w t Hin) as (_ & _ & Ew). destruct (RI_node _ _ _ _ _ R w t Hin) as (k & Hk & _).
    destruct (ring_take_core off Hoff h _ L l1 l2 w t R) as (h1 & hd & h2 & E & Ef & R' & Et & HF & _).
    unfold unsafe_ioq_remove. rewrite Ew. destruct (h_block _ _ _ _ (RI_heap _ _ _ _ _ R) Hk) as [? _].
    destruct (Z.eqb_spec w NULL) as [E0|_]; [lia|].
    destruct (Z.eqb_spec (ioq_head q) NULL) as [E0|_]; [by destruct (ring_head_pos off _ _ _ _ _ _ _ R E0)|].
    cbn [orb]. rewrite E, Ef. cbn [mbind option_bind]. rewrite fmap_app in Hnd. cbn [fmap list_fmap] in Hnd.
    apply NoDup_app_cons_middle in Hnd as (_ & Hn1 & Hn2). exists 1, h2. eexists. exists (delete w L). split; [done|]. split.
    + rewrite filter_app, filter_cons_False by (cbn; tauto). by rewrite !filter_without.
    + split; [apply delete_subseteq|]. split; [|intros p j x Hp Hpn Hx Hne; by apply (HF p j)].
      intros p Hp. apply lookup_delete_ne. intros <-. apply Hp, list_elem_of_fmap. by exists (w, t).
  - rewrite filter_without by done. exists 0, h, q, L. split_and!; try done. unfold unsafe_ioq_remove.
    destruct Ht as [?|[->| ->]]; [done| |done]. rewrite (RI_head _ _ _ _ _ R). cbn. by rewrite orb_true_r.
Qed.
End leave.

(** ** The first half of a turn *)
Section turn.
Context `{OSLaws}.

Ltac tko := unfold sizeof_task, o_task_gcq, o_task_wq, o_task_state, o_task_stack, o_task_stack_size, o_kt_current, sizeof_kernel_thread in *.

(** The wait queue [ws] and the kernel thread [kt], beside the blocks of the
    runtime. *)
Record beside (ts : list (Z * Z * Z)) (qss : list (list (Z * Z))) (L : gmap Z Z) (kt : Z) (ws : list (Z * Z)) : Prop := {
  B_kt : exists k, L !! kt = Some k /\ sizeof_kernel_thread <= k;
  B_kt_apart : ~ rt_block ts qss kt;
  B_node : forall p, p ∈ ws.*1 -> ~ rt_block ts qss p /\ p <> kt;
  B_task : forall t, t ∈ ws.*2 -> t ∈ ts.*1.*2
}.

Lemma arena_put (s : astate) (a v : Z) : mm (put s a v) = st (mm s) a v.
Proof using Type. done. Qed.

(** A wait queue survives while the fields of its nodes and the words [wq]
    of its tasks do. *)
Lemma ring_move (HS : HeapSpec astate) (s s' : astate) (hd : Z) (L L' : gmap Z Z) (ws : list (Z * Z)) :
  @RInv _ _ HS o_task_wq s hd L ws -> @h_ok _ _ HS s' L' ->
  (forall p, p ∈ ws.*1 \/ p ∈ ws.*2 -> L' !! p = L !! p) ->
  (forall p k x, p ∈ ws.*1 -> L !! p = Some k -> p <= x < p + k -> ld (mm s') x = ld (mm s) x) ->
  (forall t, t ∈ ws.*2 -> ld (mm s') (t + o_task_wq) = ld (mm s) (t + o_task_wq)) ->
  @RInv _ _ HS o_task_wq s' hd L' ws.
Proof using Type.
  intros R Ho HL HN HT. eapply (RInv_frame o_task_wq); [exact R|exact Ho|done|]. intros z Hz.
  destruct (rword_block o_task_wq ltac:(done) _ _ _ _ _ R Hz) as (p & k & Hk & Hz' & [[Hin _]|[Hin ->]]); [by apply (HN p k)|by apply HT].
Qed.

(** The words a turn writes: [current], [state] and [wq], and the links of
    the wait queue [N]. *)
Definition turn_frame (L : gmap Z Z) (N : list Z) (kt t : Z) (m m' : mem) : Prop :=
  forall p k x, L !! p = Some k -> p ∉ N -> p <= x < p + k -> x <> kt + o_kt_current -> x <> t + o_task_state -> x <> t + o_task_wq ->
    ld m' x = ld m x.

(** None of them lies in another block. *)
Lemma turn_words (HS : HeapSpec astate) (s : astate) (L : gmap Z Z) (kt k t j p i x : Z) :
  @h_ok _ _ HS s L -> L !! kt = Some k -> sizeof_kernel_thread <= k -> L !! t = Some j -> sizeof_task <= j ->
  L !! p = Some i -> p <= x < p + i -> p <> kt -> x <> kt + o_kt_current /\ (p <> t -> x <> t + o_task_state /\ x <> t + o_task_wq).
Proof using Type.
  intros Ho Hkt Hk Ht Hj Hp Hx Hne. split; [|intros Hpt; split].
  - eapply (@block_words _ _ HS s L p i kt k); try done. tko; lia.
  - eapply (@block_words _ _ HS s L p i t j); try done. tko; lia.
  - eapply (@block_words _ _ HS s L p i t j); try done. tko; lia.
Qed.

Lemma RTInv_turn (rt : runtime) (L L' : gmap Z Z) (ts : list (Z * Z * Z)) (qss : list (list (Z * Z))) (s s' : astate) (kt k t n : Z) (N : list Z) :
  RTInv rt L ts qss -> arena_of (rt_gc rt) = Some s -> reserved_ok (stack_of <$> ts) s' L' -> t ∈ ts.*1.*2 ->
  L' !! kt = Some k -> sizeof_kernel_thread <= k -> ~ rt_block ts qss kt ->
  (forall p, rt_block ts qss p -> p ∉ N) -> (forall p, p ∉ N -> L' !! p = L !! p) -> turn_frame L N kt t (mm s) (mm s') ->
  RTInv (Runtime (with_arena (rt_gc rt) s') (ready_qs rt) n) L' ts qss.
Proof.
  intros RT Es Ho Ht Hkt Hk Hb HN HL HF. pose (HS := reserved_spec (stack_of <$> ts)).
  destruct (task_word_in _ _ _ t o_task_gcq (RT_tasks _ _ _ _ RT) Ht ltac:(by left)) as (j & Hj & _ & Hsj).
  assert (forall p, rt_block ts qss p -> p <> kt) as Nkt by (intros p Hp ->; done).
  assert (L' !! t = Some j) as Hj' by (rewrite HL; [done|apply HN; right; by left]).
  eapply RTInv_move; [exact RT|exact Es|exact Ho|auto| |].
  - intros p i x Hp Hpt Hi Hx. assert (p <> t) as Hne by congruence. assert (L' !! p = Some i) as Hi' by (rewrite HL; auto).
    destruct (turn_words HS s' L' kt k t j p i x Ho Hkt Hk Hj' Hsj Hi' Hx (Nkt p Hp)) as [? [? ?]]; [done|]. apply (HF p i); auto.
  - intros u o Hu Hw. destruct (task_word_in _ _ _ u o (RT_tasks _ _ _ _ RT) Hu Hw) as (i & Hi & Hx & _).
    assert (rt_block ts qss u) as Hub by (right; by left). assert (L' !! u = Some i) as Hi' by (rewrite HL; auto).
    destruct (turn_words HS s' L' kt k t j u i (u + o) Ho Hkt Hk Hj' Hsj Hi' Hx (Nkt u Hub)) as [? HT].
    apply (HF u i); auto; (destruct (decide (u = t)) as [->|Hne]; [destruct Hw as [->|[->| ->]]; tko; lia|by apply HT]).
Qed.

(** Up to the wait queue: the pop, the assignment to [current] and the
    removal. *)
Lemma turn_leave_ok (w : machine) (L : gmap Z Z) (ts : list (Z * Z * Z)) (qss : list (list (Z * Z))) (s : astate) (i : nat)
    (m t kt : Z) (qs ws : list (Z * Z)) (wq : unsafe_queue) :
  RTInv (mc_rt w) L ts qss -> arena_of (rt_gc (mc_rt w)) = Some s -> qss !! i = Some ((m, t) :: qs) -> t ∈ ts.*1.*2 ->
  beside ts qss L kt ws -> @RInv _ _ (reserved_spec (stack_of <$> ts)) o_task_wq s (ioq_head wq) L ws ->
  t ∈ ws.*2 \/ ws = [] \/ ld (mm s) (t + o_task_wq) = NULL ->
  exists q q' s1 r s3 wq' L3, ready_qs (mc_rt w) !! i = Some q /\ safe_q_pop_wait s q = Some (Got t, s1, q') /\
    RTInv (Runtime (with_arena (rt_gc (mc_rt w)) s1) (<[i := q']> (ready_qs (mc_rt w))) (task_count (mc_rt w))) (delete m L) ts (<[i := qs]> qss) /\
    unsafe_ioq_remove o_task_wq (put s1 (kt + o_kt_current) t) wq t = Some (r, s3, wq') /\
    @RInv _ _ (reserved_spec (stack_of <$> ts)) o_task_wq s3 (ioq_head wq') L3 (filter (fun nt => nt.2 <> t) ws) /\
    blocks_kept (delete m L) (mm s) (mm s1) /\
    L3 ⊆ delete m L /\ (forall p, p ∉ ws.*1 -> L3 !! p = delete m L !! p) /\ delete m L !! kt = L !! kt /\ delete m L !! t = L !! t /\
    forall p k x, delete m L !! p = Some k -> p ∉ ws.*1 -> p <= x < p + k -> x <> kt + o_kt_current -> x <> t + o_task_wq ->
      ld (mm s3) x = ld (mm s) x.
Proof.
  intros RT Es Hqs Ht B R Hwait. pose (HS := reserved_spec (stack_of <$> ts)).
  destruct (lookup_lt_is_Some_2 (ready_qs (mc_rt w)) i) as [q Hq]; [rewrite (RT_len _ _ _ _ RT); by eapply lookup_lt_Some|].
  destruct (dequeue_ok _ L ts qss s i q m t qs RT Es Hq Hqs) as (s1 & q' & E1 & HK1 & RT1). set (L1 := delete m L) in *.
  assert (arena_of (with_arena (rt_gc (mc_rt w)) s1) = Some s1) as Es1 by (by destruct s1).
  pose proof (T_arena _ _ _ _ (RT_tasks _ _ _ _ RT1) Es1) as Ho1.
  assert (rt_block ts qss m) as Hm by (right; right; exists i, ((m, t) :: qs); split; [done|by left]).
  assert (forall p, ~ rt_block ts qss p \/ p ∈ ts.*1.*2 -> p <> m) as Hpm.
  { intros p [Hp|Hp] ->; [done|]. destruct (RT_sep _ _ _ _ RT i _ m Hqs ltac:(by left)). done. }
  destruct (B_kt _ _ _ _ _ B) as (kk & Hkk & Hsz).
  assert (L1 !! kt = Some kk) as Hkt1 by (unfold L1; rewrite lookup_delete_ne; [done|]; apply not_eq_sym, Hpm; left; apply B).
  destruct (task_word_in _ _ _ t o_task_gcq (RT_tasks _ _ _ _ RT1) Ht ltac:(by left)) as (k1 & Ht1 & _ & Hk1).
  assert (rt_block ts qss t) as Htb by (right; by left).
  assert (t <> kt) as Htkt by (intros ->; by apply (B_kt_apart _ _ _ _ _ B)).
  set (s2 := put s1 (kt + o_kt_current) t).
  assert (@h_ok _ _ HS s2 L1) as Ho2 by (eapply (@put_ok _ _ HS); [exact Ho1|exact Hkt1|tko; lia]).
  assert (forall p k x, L1 !! p = Some k -> p <= x < p + k -> x <> kt + o_kt_current -> ld (mm s2) x = ld (mm s) x) as F2.
  { intros p k x Hp Hx Hne. rewrite <- (HK1 p k) by done. apply (@put_other _ _ HS s1 L1 kt kk p k); try done. tko; lia. }
  assert (forall p, p ∈ ws.*1 \/ p ∈ ws.*2 -> L1 !! p = L !! p) as HLw.
  { intros p Hp. apply lookup_delete_ne, not_eq_sym, Hpm. destruct Hp as [Hp|Hp]; [left; by apply (B_node _ _ _ _ _ B)|right; by apply (B_task _ _ _ _ _ B)]. }
  assert (forall u, u ∈ ts.*1.*2 -> ld (mm s2) (u + o_task_wq) = ld (mm s) (u + o_task_wq)) as Fwq.
  { intros u Hu. destruct (task_word_in _ _ _ u o_task_gcq (RT_tasks _ _ _ _ RT1) Hu ltac:(by left)) as (ku & Hku & _ & Hku').
    apply (F2 u ku); [done|tko; lia|]. assert (u <> kt) by (intros ->; apply (B_kt_apart _ _ _ _ _ B); right; by left).
    intros Ex. eapply (@block_words _ _ HS s1 L1 u ku kt kk); [exact Ho1|exact Hku|exact Hkt1|done| | |exact Ex]; tko; lia. }
  assert (@RInv _ _ HS o_task_wq s2 (ioq_head wq) L1 ws) as R2.
  { eapply ring_move; [exact R|exact Ho2|exact HLw| |intros u Hu; by apply Fwq, (B_task _ _ _ _ _ B)].
    intros p k x Hp Hk Hx. destruct (B_node _ _ _ _ _ B p Hp) as [Hpb Hpkt]. rewrite <- HLw in Hk by auto. apply (F2 p k); [done..|].
    intros Ex. eapply (@block_words _ _ HS s1 L1 p k kt kk); [exact Ho1|exact Hk|exact Hkt1|done| | |exact Ex]; [lia|tko; lia]. }
  destruct (@ioq_leave_ok _ _ HS o_task_wq ltac:(done) s2 wq L1 ws t R2) as (r & s3 & wq' & L3 & E3 & R3 & Hs3 & HL3 & HF3).
  { destruct Hwait as [?|[?|Hwait]]; [by left|right; by left|right; right]. etrans; [by apply Fwq|exact Hwait]. }
  exists q, q', s1, r, s3, wq', L3. split_and!; try done; [by rewrite Hkt1, Hkk|unfold L1; by rewrite lookup_delete_ne by (apply not_eq_sym, Hpm; auto)|].
  intros p k x Hp Hpn Hx N1 N2. etrans; [by apply (HF3 p k)|by apply (F2 p k)].
Qed.

Lemma turn_begin_ok (w : machine) (L : gmap Z Z) (ts : list (Z * Z * Z)) (qss : list (list (Z * Z))) (s : astate) (i : nat)
    (m t kt : Z) (qs ws : list (Z * Z)) (wq : unsafe_queue) :
  RTInv (mc_rt w) L ts qss -> arena_of (rt_gc (mc_rt w)) = Some s -> qss !! i = Some ((m, t) :: qs) -> t ∈ ts.*1.*2 ->
  mc_kts w !! i = Some kt -> mc_waits w !! i = Some wq -> beside ts qss L kt ws ->
  @RInv _ _ (reserved_spec (stack_of <$> ts)) o_task_wq s (ioq_head wq) L ws ->
  t ∈ ws.*2 \/ ws = [] \/ ld (mm s) (t + o_task_wq) = NULL ->
  exists rt' s' wq' L', let ws' := filter (fun nt => nt.2 <> t) ws in let qss' := <[i := qs]> qss in
    turn_begin w i = Some (Runs t, Machine rt' (<[i := wq']> (mc_waits w)) (mc_kts w) (preempt w)) /\
    RTInv rt' L' ts qss' /\ arena_of (rt_gc rt') = Some s' /\ beside ts qss' L' kt ws' /\
    @RInv _ _ (reserved_spec (stack_of <$> ts)) o_task_wq s' (ioq_head wq') L' ws' /\ task_count rt' = task_count (mc_rt w) /\
    ld (mm s') (t + o_task_state) = state_word TASK_RUNNING /\ ld (mm s') (kt + o_kt_current) = t /\
    L' ⊆ L /\ (forall p, p <> m -> p ∉ ws.*1 -> L' !! p = L !! p) /\
    (forall p k x, L' !! p = Some k -> p ∉ ws.*1 -> p <= x < p + k -> x <> kt + o_kt_current -> x <> t + o_task_state -> x <> t + o_task_wq ->
       ld (mm s') x = ld (mm s) x).
Proof.
  intros RT Es Hqs Ht Hkt Hwq B R Hwait. pose (HS := reserved_spec (stack_of <$> ts)).
  destruct (turn_leave_ok w L ts qss s i m t kt qs ws wq RT Es Hqs Ht B R Hwait) as
    (q & q' & s1 & r & s3 & wq' & L3 & Hq & E1 & RT1 & E3 & R3 & HK1 & Hs3 & HL3 & Ekt & Et & F3). set (L1 := delete m L) in *.
  destruct (B_kt _ _ _ _ _ B) as (kk & Hkk & Hsz). pose proof (RI_heap _ _ _ _ _ R3) as Ho3.
  destruct (task_word_in _ _ _ t o_task_gcq (RT_tasks _ _ _ _ RT) Ht ltac:(by left)) as (k1 & Ht1 & _ & Hk1).
  assert (rt_block ts qss t) as Htb by (right; by left).
  assert (t <> kt) as Htkt by (intros ->; by apply (B_kt_apart _ _ _ _ _ B)).
  assert (forall p, rt_block ts qss p \/ p = kt -> p ∉ ws.*1) as Hpw.
  { intros p Hp Hin. destruct (B_node _ _ _ _ _ B p Hin). by destruct Hp as [?| ->]. }
  assert (L3 !! kt = Some kk) as Hkt3 by (rewrite HL3, Ekt by auto; done).
  assert (L3 !! t = Some k1) as Ht3 by (rewrite HL3, Et by auto; done).
  set (s4 := put s3 (t + o_task_state) (state_word TASK_RUNNING)). set (s5 := put s4 (kt + o_kt_current) t).
  assert (@h_ok _ _ HS s4 L3) as Ho4 by (eapply (@put_ok _ _ HS); [exact Ho3|exact Ht3|tko; lia]).
  assert (@h_ok _ _ HS s5 L3) as Ho5 by (eapply (@put_ok _ _ HS); [exact Ho4|exact Hkt3|tko; lia]).
  assert (forall x, x <> kt + o_kt_current -> x <> t + o_task_state -> ld (mm s5) x = ld (mm s3) x) as F5.
  { intros x N1 N2. unfold s5, s4. rewrite ?arena_put. by rewrite !ld_st_ne by lia. }
  assert (forall p k x, L3 !! p = Some k -> p <= x < p + k -> p <> kt -> p <> t -> x <> kt + o_kt_current /\ x <> t + o_task_state) as NW.
  { intros p k x Hp Hx Hne Hpt. destruct (turn_words HS s3 L3 kt kk t k1 p k x Ho3 Hkt3 Hsz Ht3 Hk1 Hp Hx Hne) as [? [? ?]]; done. }
  set (rt1 := Runtime _ _ _) in RT1. set (rt2 := Runtime (with_arena (rt_gc rt1) s5) (ready_qs rt1) (task_count rt1)).
  assert (forall p, rt_block ts (<[i := qs]> qss) p -> rt_block ts qss p) as Hsub.
  { intros p [?|[?|(j & qj & Hj & Hp)]]; [by left|right; by left|]. right. right. destruct (decide (j = i)) as [->|Hne].
    - rewrite list_lookup_insert_eq in Hj by (by eapply lookup_lt_Some). injection Hj as <-. exists i, ((m, t) :: qs). split; [done|by right].
    - rewrite list_lookup_insert_ne in Hj by done. eauto. }
  assert (RTInv rt2 L3 ts (<[i := qs]> qss)) as RT2.
  { apply (RTInv_turn rt1 L1 L3 ts _ s1 s5 kt kk t _ ws.*1); try done; [by destruct s1|by intros Hb%Hsub; apply (B_kt_apart _ _ _ _ _ B)|auto|].
    intros p k x Hp Hpn Hx N1 N2 N3. rewrite F5 by done. rewrite (F3 p k) by done. symmetry. by apply (HK1 p k). }
  exists (Runtime (set_state (rt_gc rt2) t TASK_RUNNING) (ready_qs rt2) (task_count rt2)), s5, wq', L3. cbv zeta. split_and!.
  - unfold turn_begin. rewrite Es, Hq, Hwq, Hkt. cbn [mbind option_bind]. rewrite E1. cbn [mbind option_bind].
    destruct (h_block _ _ _ _ Ho3 Ht3) as [Hpos _]. destruct (Z.eqb_spec t NULL); [lia|]. rewrite E3. done.
  - by apply RTInv_state.
  - by destruct s5.
  - split; [by exists kk|intros Hb%Hsub; by apply (B_kt_apart _ _ _ _ _ B)| |].
    + intros p ([n u] & -> & [_ Hin]%list_elem_of_filter)%list_elem_of_fmap. cbn [fst].
      destruct (B_node _ _ _ _ _ B n) as [? ?]; [apply list_elem_of_fmap; by exists (n, u)|]. split; [by intros ?%Hsub|done].
    + intros u ([n u'] & -> & [_ Hin]%list_elem_of_filter)%list_elem_of_fmap. apply (B_task _ _ _ _ _ B), list_elem_of_fmap. by exists (n, u').
  - eapply ring_move; [exact R3|exact Ho5|done| |].
    + intros p k x Hp Hk Hx. apply list_elem_of_fmap in Hp as ([n u] & -> & [_ Hin]%list_elem_of_filter). cbn [fst] in *.
      assert (n ∈ ws.*1) as Hn by (apply list_elem_of_fmap; by exists (n, u)). destruct (B_node _ _ _ _ _ B n Hn) as [Hnb ?].
      assert (n <> t) by (intros ->; by apply Hnb). by destruct (NW n k x) as [? ?]; [..|apply F5].
    + intros u Hu. apply list_elem_of_fmap in Hu as ([n u'] & -> & [Hne Hin]%list_elem_of_filter). cbn [snd] in *.
      assert (u' ∈ ts.*1.*2) as Hu by (apply (B_task _ _ _ _ _ B), list_elem_of_fmap; by exists (n, u')).
      destruct (task_word_in _ _ _ u' o_task_gcq (RT_tasks _ _ _ _ RT2) Hu ltac:(by left)) as (ku & Hku & _ & Hsu).
      assert (u' <> kt) by (intros ->; apply (B_kt_apart _ _ _ _ _ B); right; by left).
      destruct (NW u' ku (u' + o_task_wq)) as [? ?]; [done|tko; lia|done|done|]. by apply F5.
  - done.
  - unfold s5, s4. rewrite ?arena_put. assert (t + o_task_state <> kt + o_kt_current) as N by (eapply (@block_words _ _ HS s3 L3 t k1 kt kk); try done; tko; lia).
    rewrite ld_st_ne by congruence. by rewrite ld_st_eq.
  - unfold s5. rewrite ?arena_put. by rewrite ld_st_eq.
  - etrans; [exact Hs3|apply delete_subseteq].
  - intros p Hp Hpn. rewrite HL3 by done. by apply lookup_delete_ne.
  - intros p k x Hp Hpn Hx N1 N2 N3. rewrite F5 by done. apply (F3 p k); try done. by eapply lookup_weaken.
Qed.

(** ** The second half of a turn *)

Lemma destroy_rt_ok (rt : runtime) (L : gmap Z Z) (l1 l2 : list (Z * Z * Z)) (n t b : Z) (qss : list (list (Z * Z))) (cnt : Z) :
  RTInv rt L (l1 ++ (n, t, b) :: l2) qss -> l1 ++ l2 <> [] ->
  exists c', task_destroy (rt_gc rt) t = Some c' /\ RTInv (Runtime c' (ready_qs rt) cnt) (delete t (delete n L)) (l1 ++ l2) qss /\
    (forall x, b <= x < b + align_page stack_len -> ~ mapped (g_maps c') x) /\
    (forall p k x, delete t (delete n L) !! p = Some k -> p ∉ (l1 ++ l2).*1.*1 -> p <= x < p + k -> ld (g_mem c') x = ld (g_mem (rt_gc rt)) x).
Proof.
  intros RT Hne. pose proof (task_destroy_ok (rt_gc rt) L l1 l2 n t b (RT_tasks _ _ _ _ RT)) as HD. rewrite decide_False in HD by done.
  destruct HD as (c' & E & T' & HF & Hun). exists c'. split_and!; try done.
  assert (forall p, p ∈ (l1 ++ l2).*1.*1 \/ p ∈ (l1 ++ l2).*1.*2 -> p ∈ (l1 ++ (n, t, b) :: l2).*1.*1 \/ p ∈ (l1 ++ (n, t, b) :: l2).*1.*2) as Hsub.
  { intros p. rewrite !fmap_app. cbn. rewrite !elem_of_app, !elem_of_cons. tauto. }
  assert (forall i qs m, qss !! i = Some qs -> m ∈ qs.*1 -> m <> n /\ m <> t /\ m ∉ (l1 ++ l2).*1.*1 /\ m ∉ (l1 ++ l2).*1.*2) as Hm.
  { intros i qs m Hi Hin. destruct (RT_sep _ _ _ _ RT i qs m Hi Hin) as [N1 N2].
    rewrite !fmap_app in *. cbn in *. rewrite !elem_of_app, !elem_of_cons in *. split_and!; intros ?; subst; tauto. }
  split; cbn [rt_gc ready_qs].
  - done.
  - apply RT.
  - intros s' i q qs Es' Hi Hsi. destruct (T_ring _ _ _ (RT_tasks _ _ _ _ RT)) as (s & q0 & Es & _).
    destruct (arena_of_some _ _ Es) as (_ & Em & _), (arena_of_some _ _ Es') as (_ & Em' & _).
    eapply (QInv_move (reserved_spec (stack_of <$> l1 ++ (n, t, b) :: l2)) _ s); [by eapply (RT_queue _ _ _ _ RT)|by eapply T_arena| |].
    + intros m Hin. destruct (Hm i qs m Hsi Hin) as (? & ? & _). by rewrite !lookup_delete_ne.
    + intros m k x Hin Hk Hx. destruct (Hm i qs m Hsi Hin) as (? & ? & ? & _). rewrite <- Em, <- Em'. apply (HF m k); [by rewrite !lookup_delete_ne|done|done].
  - intros i qs m Hi Hin. by destruct (Hm i qs m Hi Hin) as (_ & _ & ? & ?).
  - apply RT.
Qed.

Lemma turn_end_ok (w : machine) (L : gmap Z Z) (l1 l2 : list (Z * Z * Z)) (n t b : Z) (qss : list (list (Z * Z))) (s : astate) (i : nat) (kt k : Z) :
  RTInv (mc_rt w) L (l1 ++ (n, t, b) :: l2) qss -> arena_of (rt_gc (mc_rt w)) = Some s -> mc_kts w !! i = Some kt ->
  L !! kt = Some k -> sizeof_kernel_thread <= k -> ~ rt_block (l1 ++ (n, t, b) :: l2) qss kt ->
  if decide (ld (mm s) (t + o_task_state) = state_word TASK_FINISHED) then
    if decide (l1 ++ l2 = []) then turn_end w i t = None
    else exists rt', let remaining := swrap 32 (task_count (mc_rt w) - 1) in
      turn_end w i t = Some (Some remaining, Machine rt' (mc_waits w) (mc_kts w) (preempt w)) /\ task_count rt' = remaining /\
      RTInv rt' (delete t (delete n L)) (l1 ++ l2) qss /\ (forall x, b <= x < b + align_page stack_len -> ~ mapped (g_maps (rt_gc rt')) x) /\
      ld (g_mem (rt_gc rt')) (kt + o_kt_current) = NULL /\ ready_qs rt' = ready_qs (mc_rt w) /\
      (forall p j x, delete t (delete n L) !! p = Some j -> p ∉ (l1 ++ l2).*1.*1 -> p <= x < p + j -> x <> kt + o_kt_current ->
         ld (g_mem (rt_gc rt')) x = ld (mm s) x)
  else exists rt', turn_end w i t = Some (None, Machine rt' (mc_waits w) (mc_kts w) (preempt w)) /\
    task_count rt' = task_count (mc_rt w) /\ RTInv rt' L (l1 ++ (n, t, b) :: l2) qss /\
    ld (g_mem (rt_gc rt')) (kt + o_kt_current) = NULL /\ ready_qs rt' = ready_qs (mc_rt w) /\
    (forall p j x, L !! p = Some j -> p <= x < p + j -> x <> kt + o_kt_current -> ld (g_mem (rt_gc rt')) x = ld (mm s) x).
Proof.
  intros RT Es Hkt Hk Hsz Hb. set (ts := l1 ++ (n, t, b) :: l2) in *. pose (HS := reserved_spec (stack_of <$> ts)).
  pose proof (T_arena _ _ _ _ (RT_tasks _ _ _ _ RT) Es) as Ho. set (s1 := put s (kt + o_kt_current) NULL).
  assert (@h_ok _ _ HS s1 L) as Ho1 by (eapply (@put_ok _ _ HS); [exact Ho|exact Hk|tko; lia]).
  assert (forall p j x, L !! p = Some j -> p <> kt -> p <= x < p + j -> ld (mm s1) x = ld (mm s) x) as F.
  { intros p j x Hp Hne Hx. apply (@put_other _ _ HS s L kt k p j); try done. tko; lia. }
  assert (forall x, x <> kt + o_kt_current -> ld (mm s1) x = ld (mm s) x) as Fx.
  { intros x Hx. unfold s1. by rewrite arena_put, ld_st_ne by congruence. }
  assert (forall p, rt_block ts qss p -> p <> kt) as Nkt by (intros p Hp ->; done).
  assert (RTInv (Runtime (with_arena (rt_gc (mc_rt w)) s1) (ready_qs (mc_rt w)) (task_count (mc_rt w))) L ts qss) as RT1.
  { eapply RTInv_move; [exact RT|exact Es|exact Ho1|done| |].
    - intros p j x Hp _ Hj Hx. apply (F p j); auto.
    - intros u o Hu Hw. destruct (task_word_in _ _ _ u o (RT_tasks _ _ _ _ RT) Hu Hw) as (j & Hj & Hx & _). apply (F u j); try done.
      apply Nkt. right. by left. }
  assert (t ∈ ts.*1.*2) as Ht.
  { eapply (ts_fst_snd ts n t b). unfold ts. rewrite elem_of_app, elem_of_cons. tauto. }
  destruct (task_word_in _ _ _ t o_task_gcq (RT_tasks _ _ _ _ RT) Ht ltac:(by left)) as (kt' & Hkt' & _ & Hs').
  assert (ld (mm s1) (t + o_task_state) = ld (mm s) (t + o_task_state)) as Est.
  { apply (F t kt'); [done|apply Nkt; right; by left|tko; lia]. }
  unfold turn_end. rewrite Es, Hkt. cbn [mbind option_bind]. fold s1. rewrite Est. case_decide as Hst.
  - rewrite Hst, Z.eqb_refl. case_decide as He.
    + pose proof (task_destroy_ok _ L l1 l2 n t b (RT_tasks _ _ _ _ RT1)) as HD. rewrite decide_True in HD by done.
      cbn [rt_gc] in HD. by rewrite HD.
    + destruct (destroy_rt_ok _ L l1 l2 n t b qss (swrap 32 (task_count (mc_rt w) - 1)) RT1 He) as (c' & E & RT2 & Hun & HF).
      cbn [rt_gc ready_qs] in *. rewrite E. cbn [mbind option_bind]. eexists. split_and!; try done; cbn [rt_gc].
      * rewrite (HF kt k); [apply ld_st_eq| | |tko; lia].
        -- rewrite !lookup_delete_ne; [done|..]; apply Nkt; [left|right; left]; unfold ts; rewrite !fmap_app, elem_of_app; right; by left.
        -- intros Hin. apply (Nkt kt); [|done]. left. unfold ts. rewrite !fmap_app in *. cbn. rewrite elem_of_app, elem_of_cons in *. tauto.
      * intros p j x Hp Hpn Hx Hne. rewrite (HF p j) by done. by apply Fx.
  - rewrite (proj2 (Z.eqb_neq _ _)) by done. eexists. split_and!; try done; cbn [rt_gc].
    + apply ld_st_eq.
    + intros p j x Hp Hx Hne. by apply Fx.
Qed.

(** ** Preemption *)

Lemma arr_get_nat (A : Type) (l : list A) (i : nat) : arr_get l (Z.of_nat i) = l !! i.
Proof using Type. unfold arr_get. destruct (Z.leb_spec 0 (Z.of_nat i)); [by rewrite Nat2Z.id|lia]. Qed.

(** The timer of a thread. *)
Lemma force_preempt_ok (w : machine) (i : nat) (kt f : Z) : ld (g_mem (rt_gc (mc_rt w))) (kt + o_kt_id) = Z.of_nat i -> preempt w !! i = Some f ->
  force_preempt w kt = Some (Machine (mc_rt w) (mc_waits w) (mc_kts w) (<[i := 1]> (preempt w))).
Proof using Type. intros E Hf. unfold force_preempt, set_preempt. rewrite E, arr_get_nat, Hf, Nat2Z.id. done. Qed.

Lemma self_yield_ok (g : world) (w : machine) (L : gmap Z Z) (ts : list (Z * Z * Z)) (qss : list (list (Z * Z))) (s : astate) (i : nat) (kt k t f : Z) (qs : list (Z * Z)) :
  RTInv (mc_rt w) L ts qss -> arena_of (rt_gc (mc_rt w)) = Some s -> arena_room s 1 ->
  mc_kts w !! i = Some kt -> L !! kt = Some k -> sizeof_kernel_thread <= k -> ~ rt_block ts qss kt ->
  preempt w !! i = Some f -> qss !! i = Some qs -> t ∈ ts.*1.*2 -> ld (mm s) (t + o_task_sched_id) = Z.of_nat i -> world_stopped g = false ->
  if decide (f = 0) then self_yield g w t = Some (GoesOn, g, w)
  else exists (s' : astate) (q q' : safe_queue) (m km : Z), ready_qs (mc_rt w) !! i = Some q /\ q_cond q' = cond_signal (q_cond q) /\ L !! m = None /\
    let rt' := Runtime (with_arena (rt_gc (mc_rt w)) s') (<[i := q']> (ready_qs (mc_rt w))) (task_count (mc_rt w)) in
    self_yield g w t = Some (if ld (mm s) (kt + o_kt_current) =? NULL then GoesOn else Switches, g,
      Machine rt' (mc_waits w) (mc_kts w) (<[i := 0]> (preempt w))) /\
    RTInv rt' (<[m := km]> L) ts (<[i := qs ++ [(m, t)]]> qss) /\
    (forall p j x, L !! p = Some j -> p ∉ qs.*1 -> p <= x < p + j -> ld (mm s') x = ld (mm s) x).
Proof.
  intros RT Es Hr Hkt Hk Hsz Hb Hf Hqs Ht Esid Hrun.
  destruct (lookup_lt_is_Some_2 (ready_qs (mc_rt w)) i) as [q Hq]; [rewrite (RT_len _ _ _ _ RT); by eapply lookup_lt_Some|].
  destruct (T_live _ _ _ t (RT_tasks _ _ _ _ RT)) as [kt' Hkt']; [auto|].
  destruct (@h_block _ _ (reserved_spec (stack_of <$> ts)) s L t kt') as [Hpos _]; [exact (T_arena _ _ _ _ (RT_tasks _ _ _ _ RT) Es)|done|].
  destruct (push_rt_ok (mc_rt w) s L ts qss i q qs t (task_count (mc_rt w)) RT Es Hr Hq Hqs) as (s' & q' & m & km & E & Hm & RT' & HF).
  unfold self_yield. rewrite (proj2 (Z.eqb_neq t NULL)) by lia. rewrite Es. cbn [mbind option_bind]. rewrite Hrun. cbn [negb]. rewrite Esid, !arr_get_nat, Hf. cbn [mbind option_bind].
  case_decide as Hf0; [by rewrite Hf0|]. rewrite (proj2 (Z.eqb_neq f 0)) by done.
  exists s', q, q', m, km. split; [done|]. split; [by eapply push_cond|]. split; [done|]. cbv zeta. split; [|done].
  rewrite Hkt. cbn [mbind option_bind]. unfold set_preempt. rewrite arr_get_nat, Hf. cbn [mbind option_bind]. rewrite Hq. cbn [mbind option_bind].
  rewrite E, Nat2Z.id. cbn [mbind option_bind mc_waits mc_kts preempt].
  rewrite (HF kt k); [done|done| |tko; lia]. intros Hin. apply Hb. right. right. eauto.
Qed.
End turn.
