(* ===== verification/DispatchThms.v ===== *)
(** * DispatchThms: running, ending and preempting tasks *)

From S2P Require Import Prelude World Mem Dll Alloc AllocOs AllocMain AllocRoom AllocSpec Heap Queue QueueSpec RingSpec.
From S2P Require Import Gc GcCollect Reserve Tasks TaskSpec ThreadSpec TaskThms Startup StartupSpec StartupThms Dispatch DispatchSpec.

Section thms.
Context `{OSLaws}.

(** C18: the first half of a turn of [scheduler_run].  When the ready queue of
    the thread starts with a task, the thread takes exactly that task off the
    queue, takes it out of its wait queue if it is there, marks it running,
    makes it its current task and switches to it.  The invariant of the
    runtime holds with the shorter queue, the wait queue is well formed
    without the task, the two nodes are released, and no other word of a
    live block has changed except the links of the wait queue.  The task
    must be in the wait queue, or the wait queue must be empty, or the
    field [wq] of the task must be clear, which [task_create] does not
    see to. *)
Theorem turn_begin_spec (w : machine) (L : gmap Z Z) (ts : list (Z * Z * Z)) (qss : list (list (Z * Z))) (s : astate) (i : nat)
    (m t kt : Z) (qs ws : list (Z * Z)) (wq : unsafe_queue) :
  RTInv (mc_rt w) L ts qss -> arena_of (rt_gc (mc_rt w)) = Some s -> qss !! i = Some ((m, t) :: qs) -> t ∈ ts.*1.*2 ->
  mc_kts w !! i = Some kt -> mc_waits w !! i = Some wq -> beside ts qss L kt ws ->
  @RInv _ _ (reserved_spec (stack_of <$> ts)) o_task_wq s (ioq_head wq) L ws ->
  t ∈ ws.*2 \/ ws = [] \/ ld (mm s) (t + o_task_wq) = NULL ->
  exists rt' s' wq' L', let ws' := filter (fun nt => nt.2 <> t) ws in let qss' := <[i := qs]> qss in
    turn_begin w i = Some (Runs t, Machine rt' (<[i := wq']> (mc_waits w)) (mc_kts w) (preempt w)) /\
    RTInv rt' L' ts qss' /\ arena_of (rt_gc rt') = Some s' /\ beside ts qss' L' kt ws' /\
    @RInv _ _ (reserved_spec (stack_of <$> ts)) o_task_wq s' (ioq_head wq') L' ws' /\ task_count rt' = task_count (mc_rt w) /\
    ld (mm s') (t + o_task_state) = state_word TASK_RUNNING /\ ld (mm s') (kt + o_kt_current) = t /\
    L' ⊆ L /\ (forall p, p <> m -> p ∉ ws.*1 -> L' !! p = L !! p) /\
    (forall p k x, L' !! p = Some k -> p ∉ ws.*1 -> p <= x < p + k -> x <> kt + o_kt_current -> x <> t + o_task_state -> x <> t + o_task_wq ->
       ld (mm s') x = ld (mm s) x).
Proof. apply turn_begin_ok. Qed.

(** C19: the second half of a turn, on every branch.  A task that has not
    finished leaves the runtime as it is.  One that has is taken off
    [task_count] and destroyed: its record and root are released, its stack
    unmapped, and the invariant holds for the remaining tasks and all ready
    queues.  If it is the only task left, its removal from the ring of
    roots unlocks the mutex of the ring twice.  On both branches the thread
    has no current task afterwards, and the blocks that are still live keep
    their contents, but for the nodes of the ring. *)
Theorem turn_end_spec (w : machine) (L : gmap Z Z) (l1 l2 : list (Z * Z * Z)) (n t b : Z) (qss : list (list (Z * Z))) (s : astate) (i : nat) (kt k : Z) :
  RTInv (mc_rt w) L (l1 ++ (n, t, b) :: l2) qss -> arena_of (rt_gc (mc_rt w)) = Some s -> mc_kts w !! i = Some kt ->
  L !! kt = Some k -> sizeof_kernel_thread <= k -> ~ rt_block (l1 ++ (n, t, b) :: l2) qss kt ->
  if decide (ld (mm s) (t + o_task_state) = state_word TASK_FINISHED) then
    if decide (l1 ++ l2 = []) then turn_end w i t = None
    else exists rt', let remaining := swrap 32 (task_count (mc_rt w) - 1) in
      turn_end w i t = Some (Some remaining, Machine rt' (mc_waits w) (mc_kts w) (preempt w)) /\ task_count rt' = remaining /\
      RTInv rt' (delete t (delete n L)) (l1 ++ l2) qss /\ (forall x, b <= x < b + align_page stack_len -> ~ mapped (g_maps (rt_gc rt')) x) /\
      ld (g_mem (rt_gc rt')) (kt + o_kt_current) = NULL /\ ready_qs rt' = ready_qs (mc_rt w) /\
      (forall p j x, delete t (delete n L) !! p = Some j -> p ∉ (l1 ++ l2).*1.*1 -> p <= x < p + j -> x <> kt + o_kt_current ->
         ld (g_mem (rt_gc rt')) x = ld (mm s) x)
  else exists rt', turn_end w i t = Some (None, Machine rt' (mc_waits w) (mc_kts w) (preempt w)) /\
    task_count rt' = task_count (mc_rt w) /\ RTInv rt' L (l1 ++ (n, t, b) :: l2) qss /\
    ld (g_mem (rt_gc rt')) (kt + o_kt_current) = NULL /\ ready_qs rt' = ready_qs (mc_rt w) /\
    (forall p j x, L !! p = Some j -> p <= x < p + j -> x <> kt + o_kt_current -> ld (g_mem (rt_gc rt')) x = ld (mm s) x).
Proof. apply turn_end_ok. Qed.

(** The slow path of [self_yield] on the thread [i], without another thread
    in between: the lock, the counter, the comparison and the wait. *)
Definition slow_path (i : nat) : list action := replicate 4 (Mutate i).

Lemma mutate_act (g : world) (i : nat) (p : mpc) : muts g !! i = Some p ->
  act g (Mutate i) = match scheduler_step g i p with Some g' => Some g' | None => self_yield_step g i p end.
Proof using Type. intros Hi. cbn [act]. by rewrite Hi. Qed.

Lemma slow_path_ok (g : world) (i : nat) : muts g !! i = Some MYield -> lock g = None -> world_stopped g = true ->
  exists g', acts g (slow_path i) = Some g' /\ muts g' = <[i := MSleep]> (muts g) /\ lock g' = None /\
    stopped_count g' = stopped_count g + 1 /\ total_threads g' = total_threads g /\ world_stopped g' = true /\
    coll g' = (if decide (coll g = CSleep /\ stopped_count g + 1 = total_threads g) then CWoken else coll g) /\
    act g' (Mutate i) = None.
Proof using Type.
  intros Hi Hl Hs. destruct g as [ws n tot lk al c l]. cbn [muts lock world_stopped] in Hi, Hl, Hs. subst lk ws.
  assert (forall p : mpc, <[i := p]> l !! i = Some p) as Hat by (intros p; apply list_lookup_insert_eq; by eapply lookup_lt_Some).
  set (c' := if decide (c = CSleep /\ n + 1 = tot) then CWoken else c).
  assert (act (World true n tot None al c l) (Mutate i) = Some (World true n tot (Some (Scheduler i)) al c (<[i := MLocked]> l))) as E1
    by (rewrite (mutate_act _ i MYield) by done; done).
  assert (act (World true n tot (Some (Scheduler i)) al c (<[i := MLocked]> l)) (Mutate i) =
    Some (World true (n + 1) tot (Some (Scheduler i)) al c (<[i := MCounted (n + 1)]> l))) as E2.
  { rewrite (mutate_act _ i MLocked) by apply Hat. cbn. unfold set_mut. cbn. by rewrite list_insert_insert_eq. }
  assert (act (World true (n + 1) tot (Some (Scheduler i)) al c (<[i := MCounted (n + 1)]> l)) (Mutate i) =
    Some (World true (n + 1) tot (Some (Scheduler i)) al c' (<[i := MLoop]> l))) as E3.
  { rewrite (mutate_act _ i (MCounted (n + 1))) by apply Hat. cbn [scheduler_step self_yield_step total_threads]. unfold c'.
    case_decide as Hd; [destruct Hd as [-> ->]; rewrite Z.eqb_refl|destruct (Z.eqb_spec (n + 1) tot), c; try tauto];
      unfold signal_stopped, set_mut; cbn; by rewrite list_insert_insert_eq. }
  assert (act (World true (n + 1) tot (Some (Scheduler i)) al c' (<[i := MLoop]> l)) (Mutate i) =
    Some (World true (n + 1) tot None al c' (<[i := MSleep]> l))) as E4.
  { rewrite (mutate_act _ i MLoop) by apply Hat. cbn. unfold set_mut. cbn. by rewrite list_insert_insert_eq. }
  exists (World true (n + 1) tot None al c' (<[i := MSleep]> l)). unfold slow_path. cbn [replicate acts].
  rewrite E1. cbn [mbind option_bind]. rewrite E2. cbn [mbind option_bind]. rewrite E3. cbn [mbind option_bind]. rewrite E4.
  split_and!; try done. rewrite (mutate_act _ i MSleep) by apply Hat. done.
Qed.

(** C20: preemption.  The timer of a kernel thread sets the flag of that
    thread and nothing else.  While no collection has stopped the world, the
    next [self_yield] of a task of that thread clears the flag, puts the
    task at the end of the ready queue of the thread and switches to the
    scheduler if the thread has a current task, and the invariant of the
    runtime holds again; with the flag clear it changes nothing.  When
    [world_stopped] is set, [self_yield] leaves the flag and the queues as
    they are and stops: with [lock] free it counts itself in
    [stopped_count], wakes the collector when it sleeps and the count is now
    [total_threads], and falls asleep with [lock] given back, to move again
    only after a broadcast. *)
Theorem preempt_spec (g : world) (w : machine) (L : gmap Z Z) (ts : list (Z * Z * Z)) (qss : list (list (Z * Z))) (s : astate) (i : nat) (kt k t f : Z) (qs : list (Z * Z)) :
  RTInv (mc_rt w) L ts qss -> arena_of (rt_gc (mc_rt w)) = Some s -> arena_room s 1 ->
  mc_kts w !! i = Some kt -> L !! kt = Some k -> sizeof_kernel_thread <= k -> ~ rt_block ts qss kt -> ld (mm s) (kt + o_kt_id) = Z.of_nat i ->
  preempt w !! i = Some f -> qss !! i = Some qs -> t ∈ ts.*1.*2 -> ld (mm s) (t + o_task_sched_id) = Z.of_nat i ->
  exists w1, force_preempt w kt = Some w1 /\ w1 = Machine (mc_rt w) (mc_waits w) (mc_kts w) (<[i := 1]> (preempt w)) /\
  (world_stopped g = false ->
     (f = 0 -> self_yield g w t = Some (GoesOn, g, w)) /\
     exists w2 m km, self_yield g w1 t = Some (if ld (mm s) (kt + o_kt_current) =? NULL then GoesOn else Switches, g, w2) /\
       preempt w2 = <[i := 0]> (preempt w) /\
       RTInv (mc_rt w2) (<[m := km]> L) ts (<[i := qs ++ [(m, t)]]> qss) /\ L !! m = None /\ task_count (mc_rt w2) = task_count (mc_rt w)) /\
  (world_stopped g = true -> muts g !! i = Some MRun ->
     exists g1, self_yield g w1 t = Some (Stops, g1, w1) /\ muts g1 = <[i := MYield]> (muts g) /\
     (lock g = None -> exists g2, acts g1 (slow_path i) = Some g2 /\ muts g2 = <[i := MSleep]> (muts g) /\ lock g2 = None /\
        stopped_count g2 = stopped_count g + 1 /\ total_threads g2 = total_threads g /\
        coll g2 = (if decide (coll g = CSleep /\ stopped_count g + 1 = total_threads g) then CWoken else coll g) /\
        act g2 (Mutate i) = None)).
Proof.
  intros RT Es Hr Hkt Hk Hsz Hb Eid Hf Hqs Ht Esid. destruct (arena_of_some _ _ Es) as (_ & Em & _). rewrite <- Em in Eid.
  set (w1 := Machine (mc_rt w) (mc_waits w) (mc_kts w) (<[i := 1]> (preempt w))).
  exists w1. split; [by eapply force_preempt_ok|]. split; [done|]. split.
  - intros Hrun. split.
    { intros ->. pose proof (self_yield_ok g w L ts qss s i kt k t 0 qs RT Es Hr Hkt Hk Hsz Hb Hf Hqs Ht Esid Hrun) as HY. by rewrite decide_True in HY. }
    pose proof (self_yield_ok g w1 L ts qss s i kt k t 1 qs RT Es Hr Hkt Hk Hsz Hb) as HY. rewrite decide_False in HY by done.
    destruct HY as (s' & q & q' & m & km & _ & _ & Hm & E & RT' & _); [apply list_lookup_insert_eq; by eapply lookup_lt_Some|done..|].
    eexists _, m, km. split; [exact E|]. cbn [mc_rt preempt w1]. rewrite list_insert_insert_eq. done.
  - intros Hst Hi. destruct (T_live _ _ _ t (RT_tasks _ _ _ _ RT)) as [kt' Hkt']; [auto|].
    destruct (@h_block _ _ (reserved_spec (stack_of <$> ts)) s L t kt') as [Hpos _]; [exact (T_arena _ _ _ _ (RT_tasks _ _ _ _ RT) Es)|done|].
    exists (set_mut g i MYield). split; [|split; [done|]].
    + unfold self_yield. rewrite (proj2 (Z.eqb_neq t NULL)) by lia. cbn [mc_rt w1]. rewrite Es. cbn [mbind option_bind].
      rewrite Hst, Esid, Nat2Z.id. cbn [negb act]. rewrite Hi. cbn [mbind option_bind scheduler_step self_yield_step]. by rewrite Hst.
    + intros Hl. pose proof (lookup_lt_Some _ _ _ Hi).
      destruct (slow_path_ok (set_mut g i MYield) i) as (g2 & E & Em2 & El2 & Ec2 & Et2 & _ & Ecoll & Ea); [by apply list_lookup_insert_eq|done|done|].
      exists g2. rewrite Em2. cbn [set_mut muts]. rewrite list_insert_insert_eq. done.
Qed.
End thms.

(** ** Instances *)

(** The runtime after [main] with one argument; the first task is in the
    ready queue of thread 1. *)
Definition boot : option (Z * Z * process) :=
  @main bump_os tiny_ffi tiny_lib plain_context (Collector ∅ [] None [] None ∅) ∅ (fun i => i) 77 [[97; 0]] 25 3 0.

Definition boot_facts : option (Z * Z * bool * bool) :=
  '(t, _, pr) ← boot;
  let c := rt_gc (pr_rt pr) in
  a ← global_arena c;
  Some (ld (g_mem c) (t + o_task_sched_id), ld (g_mem c) (t + o_task_state), (length (alloced_heaps a) <=? 10)%nat, maps_end (g_maps c) <=? 2 ^ 40).

Lemma booted : exists w L n t b m s kt k, let qss := <[1%nat := [(m, t)]]> (replicate 12 []) in
  RTInv (mc_rt w) L [(n, t, b)] qss /\ arena_of (rt_gc (mc_rt w)) = Some s /\ arena_room s 1 /\
  mc_waits w !! 1%nat = Some (unsafe_ioq_init SCHEDULER_LOCAL_QUEUE_SIZE) /\ mc_kts w !! 1%nat = Some kt /\ L !! kt = Some k /\
  sizeof_kernel_thread <= k /\ ~ rt_block [(n, t, b)] qss kt /\ ld (mm s) (kt + o_kt_id) = 1 /\ preempt w !! 1%nat = Some 0 /\
  ld (mm s) (t + o_task_sched_id) = 1 /\ ld (mm s) (t + o_task_state) = 0.
Proof.
  destruct (@main_ok bump_os bump_laws tiny_ffi _ tiny_lib _ plain_context (Collector ∅ [] None [] None ∅) ∅ (fun i => i) 77 [[97]] 25 3 0) as
    (t & args & pr & L & Lm & n & tb & m & payload & types & values & vals & E & RT & _ & Hs & Hn & Ht & Hm & _ & (s & Es & _) & Ew & (L0 & Htab) & _).
  - split; [|done]. intros i _. split; [by eexists|done].
  - done.
  - apply Forall_singleton. unfold arg_ok, REQUEST_MAX. split; [rewrite elem_of_cons, elem_of_nil; lia|cbn; lia].
  - lia.
  - vm_compute. lia.
  - apply bump_room. vm_compute. discriminate.
  - assert (boot_facts = Some (1, 0, true, true)) as Hb by (vm_compute; reflexivity).
    change (boot = Some (t, args, pr)) in E. unfold boot_facts in Hb. rewrite E in Hb. cbn [mbind option_bind] in Hb.
    destruct (arena_of_some _ _ Es) as (Ea & Em & Ems & _). rewrite Ea in Hb. cbn [mbind option_bind] in Hb. rewrite Em, Ems in Hb.
    injection Hb as Hsid Hst Hh%Nat.leb_le Hmax%Z.leb_le. destruct Htab as (_ & _ & kts & Hlen & _ & Hkts).
    destruct (lookup_lt_is_Some_2 kts 1) as [kt Hkt]; [rewrite Hlen; lia|].
    destruct (Hkts 1%nat kt Hkt) as (_ & _ & (k & Hk & Hsz) & Hid & _). rewrite Em in Hid.
    exists (Machine (pr_rt pr) (wait_qs pr) kts (replicate 12 0)), L, n, t, tb, m, s, kt, k. cbv zeta. cbn [mc_rt mc_waits mc_kts preempt].
    split; [exact RT|]. split; [exact Es|]. split; [split; [lia|]; apply bump_room; lia|].
    split; [by rewrite Ew|]. split; [exact Hkt|]. split; [by eapply lookup_weaken|]. split; [exact Hsz|].
    split; [|split; [exact Hid|]; split; [reflexivity|]; split; [exact Hsid|exact Hst]].
    unfold rt_block. cbn [fmap list_fmap fst snd]. rewrite !list_elem_of_singleton. intros [->|[->|(i & qs & Hi & Hin)]]; [congruence..|].
      apply list_lookup_insert_Some in Hi as [(_ & <- & _)|[_ [-> _]%lookup_replicate]]; [|by apply elem_of_nil in Hin].
      cbn in Hin. apply list_elem_of_singleton in Hin as ->. congruence.
Qed.

Lemma turn_begin_spec_witness : exists w t w', turn_begin w 1 = Some (Runs t, w').
Proof.
  destruct booted as (w & L & n & t & b & m & s & kt & k & RT & Es & _ & Hw & Hkt & Hk & Hsz & Hb & _).
  destruct (turn_begin_spec w L [(n, t, b)] (<[1%nat := [(m, t)]]> (replicate 12 [])) s 1 m t kt [] [] (unsafe_ioq_init SCHEDULER_LOCAL_QUEUE_SIZE)) as
    (rt' & s' & wq' & L' & E & _).
  - exact RT.
  - exact Es.
  - reflexivity.
  - cbn. by left.
  - exact Hkt.
  - exact Hw.
  - split; [by exists k|exact Hb|by intros p Hp%elem_of_nil|by intros p Hp%elem_of_nil].
  - apply RInv_nil. exact (T_arena _ _ _ _ (RT_tasks _ _ _ _ RT) Es).
  - right. by left.
  - exists w, t. eexists. exact E.
Defined.

Lemma turn_end_spec_witness : exists w t w', turn_end w 1 t = Some (None, w').
Proof.
  destruct booted as (w & L & n & t & b & m & s & kt & k & RT & Es & _ & Hw & Hkt & Hk & Hsz & Hb & _ & _ & _ & Hst).
  pose proof (turn_end_spec w L [] [] n t b _ s 1 kt k RT Es Hkt Hk Hsz Hb) as HE. rewrite Hst in HE.
  rewrite decide_False in HE by done. destruct HE as (rt' & E & _). exists w, t. eexists. exact E.
Defined.

(** The collector waits for the only task, which thread 1 runs. *)
Definition stopping_world : world := World true 0 1 None None CSleep [MIdle; MRun].

Lemma preempt_spec_witness : exists w kt t w1 w2 g1 g2, force_preempt w kt = Some w1 /\
  self_yield (World false 0 1 None None CIdle [MIdle; MRun]) w t = Some (GoesOn, World false 0 1 None None CIdle [MIdle; MRun], w) /\
  preempt w2 !! 1%nat = Some 0 /\ (exists y g, self_yield (World false 0 1 None None CIdle [MIdle; MRun]) w1 t = Some (y, g, w2)) /\
  self_yield stopping_world w1 t = Some (Stops, g1, w1) /\ acts g1 (slow_path 1) = Some g2 /\ coll g2 = CWoken.
Proof.
  destruct booted as (w & L & n & t & b & m & s & kt & k & RT & Es & Hr & Hw & Hkt & Hk & Hsz & Hb & Hid & Hf & Hsid & _).
  pose proof (fun g H1 H2 => preempt_spec g w L [(n, t, b)] _ s 1 kt k t 0 [(m, t)] RT Es Hr Hkt Hk Hsz Hb Hid Hf H1 H2 Hsid) as HP.
  destruct (HP (World false 0 1 None None CIdle [MIdle; MRun])) as (w1 & E1 & Ew1 & Hrun & _); [reflexivity|cbn; by left|].
  destruct (Hrun eq_refl) as (Hno & w2 & m' & km & E2 & E3 & _).
  destruct (HP stopping_world) as (w1' & _ & Ew1' & _ & Hstop); [reflexivity|cbn; by left|].
  destruct (Hstop eq_refl eq_refl) as (g1 & E4 & _ & Hslow). destruct (Hslow eq_refl) as (g2 & E5 & _ & _ & _ & _ & E6 & _).
  rewrite Ew1' in E4. rewrite <- Ew1 in E4.
  exists w, kt, t, w1, w2, g1, g2. split; [exact E1|]. split; [by apply Hno|]. split; [|split; [do 2 eexists; exact E2|]].
  - rewrite E3. apply list_lookup_insert_eq. by eapply lookup_lt_Some.
  - split; [exact E4|]. split; [exact E5|]. rewrite E6. reflexivity.
Defined.
