(* ===== verification/Faults.v ===== *)
(** * Faults: messages of fatal errors (platform/linux/sigerr.c, utils.c)

    What the error paths write, and that their fixed buffers are large
    enough.  A write is a descriptor and the bytes; libunwind is a list of
    frames. *)

From S2P Require Import Prelude Strings Decimal.

Definition STDERR_FILENO : Z := 2.
Abbreviation output := (list (Z * list Z)).

(** [snprintf] into a buffer of [size] bytes: what the buffer holds, the
    terminator included; the result is the length of the whole text. *)
Definition snprintf (size : nat) (text : list Z) : list Z := take (size - 1) text ++ [0].

(** [write] of the first [n] bytes of a buffer; reading past it is [None]. *)
Definition write (fd : Z) (buf : list Z) (n : Z) : option output :=
  c_assert (n <=? Z.of_nat (length buf)) ;; Some [(fd, take (Z.to_nat n) buf)].

(** ["%p"]. *)
Definition show_ptr (p : Z) : list Z := if p =? 0 then [40; 110; 105; 108; 41] else ptr_to_hex p.

(** ["\t#%d %p %s\n"]. *)
Definition frame_line (i ip : Z) (name : list Z) : option (list Z) :=
  d ← i64_to_dec i;
  Some ([9; 35] ++ d ++ [32] ++ show_ptr ip ++ [32] ++ name ++ [10]).

Definition BUF_SIZE : nat := 512.
Definition NAME_SIZE : nat := 256.

(** A frame: the instruction pointer and, if [unw_get_proc_name] finds it,
    the name of the function, cut to its buffer. *)
Record frame := Frame { f_ip : Z; f_name : option (list Z) }.

(** The loop over the frames; [i++] must not overflow. *)
Fixpoint trace_loop (frames : list frame) (i : Z) : option output :=
  match frames with
  | [] => Some []
  | f :: frames =>
      match f_name f with
      | None => trace_loop frames i
      | Some name =>
          line ← frame_line i (f_ip f) (take (NAME_SIZE - 1) name);
          c_assert (i <? 2 ^ 31 - 1) ;;
          let n := Z.of_nat (length line) in
          out ← (if 0 <? n then write STDERR_FILENO (snprintf BUF_SIZE line) n else Some []);
          rest ← trace_loop frames (i + 1);
          Some (out ++ rest)
      end
  end.

(** ["===== STACK TRACE =====\n"]. *)
Definition trace_title : list Z := [61; 61; 61; 61; 61; 32; 83; 84; 65; 67; 75; 32; 84; 82; 65; 67; 69; 32; 61; 61; 61; 61; 61; 10].

(** [unwind] is [None] if a context cannot be had. *)
Definition print_stacktrace_internal (unwind : option (list frame)) : option output :=
  match unwind with
  | None => Some []
  | Some frames => out ← trace_loop frames 0; Some ((STDERR_FILENO, trace_title) :: out)
  end.

(** The output and the exit status. *)
Definition crash_handler (unwind : option (list frame)) (sig : Z) : option (output * Z) :=
  out ← print_stacktrace_internal unwind; Some (out, 128 + sig).

(** A message that is not [NULL] is followed by a newline. *)
Definition __public__runtime_error (unwind : option (list frame)) (msg : option (list Z)) : option (output * Z) :=
  let head := match msg with Some m => [(STDERR_FILENO, m); (STDERR_FILENO, [10])] | None => [] end in
  out ← print_stacktrace_internal unwind;
  Some (head ++ out, 1).

(** The text of the string up to its first zero byte; [data] is [None] for
    a null pointer. *)
Fixpoint c_text (buf : list Z) : option (list Z) :=
  match buf with
  | [] => None
  | c :: buf => if c =? 0 then Some [] else t ← c_text buf; Some (c :: t)
  end.
Definition __public__rterr_die (unwind : option (list frame)) (data : option (list Z)) : option (output * Z) :=
  buf ← data; msg ← c_text buf; __public__runtime_error unwind (Some msg).

(** SIGSEGV, SIGBUS, SIGILL, SIGFPE, SIGABRT. *)
Definition init_error_handlers : list Z := [11; 7; 4; 8; 6].

(** [_printf]: [text] is what the format gives, [None] for an error of
    [vsnprintf]. *)
Definition PRINTF_SIZE : nat := 4096.
Definition _printf (text : option (list Z)) : option output :=
  match text with
  | None => Some []
  | Some text =>
      let len := Z.of_nat (length text) in
      let len := if Z.of_nat PRINTF_SIZE <? len then Z.of_nat PRINTF_SIZE else len in
      write 1 (snprintf PRINTF_SIZE text) len
  end.

(** ** The buffers *)

(** The digits of a number that is not negative. *)
Lemma show_nat_length (i : Z) : 0 <= i < 2 ^ 31 -> exists d, i64_to_dec i = Some d /\ dec_value d = i /\ (1 <= length d <= 20)%nat.
Proof.
  intros Hi. unfold i64_to_dec. destruct (Z.ltb_spec i 0); [lia|].
  assert (in_uint 64 i) as Hu by (unfold in_uint; lia). rewrite uwrap_small by done.
  destruct (u64_to_dec_ok i Hu) as (d & E & Ev & _ & Hl & _). eauto.
Qed.

Lemma hex_loop_length (n : nat) : forall v b, (length (hex_loop n v b) <= n)%nat.
Proof.
  induction n as [|n IH]; intros v b; cbn [hex_loop]; [done|]. destruct (_ || _); cbn [length]; [specialize (IH v true)|specialize (IH v b)]; lia.
Qed.

Lemma show_ptr_length (p : Z) : (length (show_ptr p) <= 18)%nat.
Proof.
  unfold show_ptr. destruct (p =? 0); [cbn; lia|]. unfold ptr_to_hex. rewrite length_app. pose proof (hex_loop_length 16 p false). cbn [length]. lia.
Qed.

(** A buffer that is not too small holds the whole text. *)
Lemma snprintf_fits (size : nat) (text : list Z) : (length text < size)%nat -> write STDERR_FILENO (snprintf size text) (Z.of_nat (length text)) = Some [(STDERR_FILENO, text)].
Proof.
  intros Hl. unfold write, snprintf. rewrite (take_ge text) by lia. rewrite length_app. cbn [length].
  rewrite (proj2 (Z.leb_le _ _)) by lia. cbn [c_assert mbind option_bind]. rewrite Nat2Z.id. by rewrite take_app_length.
Qed.

(** A line of the trace is at most 297 characters long. *)
Lemma frame_line_length (i ip : Z) (name : list Z) : 0 <= i < 2 ^ 31 ->
  exists line, frame_line i ip (take (NAME_SIZE - 1) name) = Some line /\ (0 < length line <= 300)%nat.
Proof.
  intros Hi. unfold frame_line. destruct (show_nat_length i Hi) as (d & -> & _ & Hd). cbn [mbind option_bind].
  pose proof (show_ptr_length ip). eexists. split; [done|]. rewrite !length_app, length_take. cbn [length]. unfold NAME_SIZE. lia.
Qed.

(** The lines of the frames that have a name, numbered. *)
Fixpoint trace_lines (frames : list frame) (i : Z) : list (list Z) :=
  match frames with
  | [] => []
  | f :: frames =>
      match f_name f with
      | None => trace_lines frames i
      | Some name => default [] (frame_line i (f_ip f) (take (NAME_SIZE - 1) name)) :: trace_lines frames (i + 1)
      end
  end.

Lemma trace_loop_ok (frames : list frame) : forall i, 0 <= i -> i + Z.of_nat (length frames) < 2 ^ 31 ->
  trace_loop frames i = Some ((fun l => (STDERR_FILENO, l)) <$> trace_lines frames i) /\
  Forall (fun l => (length l < BUF_SIZE)%nat) (trace_lines frames i).
Proof.
  induction frames as [|[ip [name|]] frames IH]; intros i Hi Hl; cbn [trace_loop trace_lines f_name f_ip length] in *; [done| |by apply IH; lia].
  destruct (frame_line_length i ip name ltac:(lia)) as (line & -> & Hlen). cbn [mbind option_bind default from_option id].
  rewrite (proj2 (Z.ltb_lt i _)) by lia. cbn [c_assert mbind option_bind]. rewrite (proj2 (Z.ltb_lt 0 _)) by lia.
  rewrite snprintf_fits by (unfold BUF_SIZE; lia). cbn [mbind option_bind].
  destruct (IH (i + 1)) as [-> HF]; [lia|lia|]. cbn [mbind option_bind fmap list_fmap]. split; [done|]. constructor; [unfold BUF_SIZE; lia|done].
Qed.

(** A runtime error writes the message, a newline and the whole
    trace: no line of the trace is longer than its buffer, so that nothing is
    cut and [write] never reads past the buffer. *)
Theorem runtime_error_output (frames : list frame) (msg : list Z) : Z.of_nat (length frames) < 2 ^ 31 ->
  __public__runtime_error (Some frames) (Some msg) =
    Some ([(STDERR_FILENO, msg); (STDERR_FILENO, [10]); (STDERR_FILENO, trace_title)] ++ ((fun l => (STDERR_FILENO, l)) <$> trace_lines frames 0), 1) /\
  Forall (fun l => (length l < BUF_SIZE)%nat) (trace_lines frames 0).
Proof.
  intros Hl. destruct (trace_loop_ok frames 0 ltac:(lia) ltac:(lia)) as [E HF].
  unfold __public__runtime_error, print_stacktrace_internal. rewrite E. done.
Qed.

(** [_printf] writes a text of at most 4095 characters as it is; of a longer
    one it writes the first 4095 characters and the terminator of the
    buffer. *)
Theorem printf_output (text : list Z) :
  _printf (Some text) = Some [(1, if decide (length text <= 4095)%nat then text else take 4095 text ++ [0])].
Proof.
  unfold _printf, write, snprintf, PRINTF_SIZE. case_decide as Hl.
  - rewrite (take_ge text) by lia. rewrite (proj2 (Z.ltb_ge _ _)) by lia. rewrite length_app. cbn [length].
    rewrite (proj2 (Z.leb_le _ _)) by lia. cbn [c_assert mbind option_bind]. by rewrite Nat2Z.id, take_app_length.
  - assert (length (take (4096 - 1) text ++ [0]) = 4096%nat) as El by (rewrite length_app, length_take; cbn [length]; lia).
    assert ((if Z.of_nat 4096 <? Z.of_nat (length text) then Z.of_nat 4096 else Z.of_nat (length text)) = Z.of_nat 4096) as ->.
    { destruct (Z.ltb_spec (Z.of_nat 4096) (Z.of_nat (length text))); lia. }
    rewrite El, Z.leb_refl. cbn [c_assert mbind option_bind]. rewrite Nat2Z.id, take_ge by (rewrite El; lia). done.
Qed.
