(* ===== verification/Asyncio.v ===== *)
(** * Asyncio: the asynchronous file functions (src/runtime/src/diskio.c)

    The functions that compiled programs call, from their arguments to their
    results: they prepare a buffer and the task's [io] record, wait for the
    operation, and look at the record.  How the operation is submitted,
    completed and waited for is in Uring.v; here it is one answer of the
    kernel.  A failed submission and a failed completion both leave [-1] in
    [done_n]. *)

From S2P Require Import Prelude Mem Alloc Heap Bytes Strings Arrays Diskio Uring AllocSpec StrHeap StrSpec StrFormat ArraySpec ArrayTree ArrayThms.

(** The completion of a request: the bytes a read delivers, or how many of
    the bytes a write takes. *)
Class Ring := {
  ring_read : Z -> Z -> Z -> answer (list Z);
  ring_write : Z -> list Z -> Z -> answer Z
}.

Section asyncio.
Context `{Heap H} `{Kernel} `{Ring}.

(** An operation as the task sees it: the record afterwards, and the bytes
    that went in or out. *)
Definition aio_read (x : io) : io * list Z :=
  match ring_read (io_fd x) (req_n x) (offset x) with
  | Ok l => (io_completed x (Z.of_nat (length l)), l)
  | Failed errno => (io_completed x (- errno), [])
  end.
Definition aio_write (x : io) (data : list Z) : io * list Z :=
  match ring_write (io_fd x) data (offset x) with
  | Ok w => (io_completed x w, take (Z.to_nat w) data)
  | Failed errno => (io_completed x (- errno), [])
  end.

Definition __public__ascan (s : sheap H) (n : Z) : option (Z * sheap H) :=
  if n <=? 0 then Some (NULL, s)
  else
    '(buf, s) ← __public__alloc_array s 8 1 [n + 1];
    if buf =? NULL then Some (NULL, s)
    else
      let '(x, l) := aio_read (aio_setup STDIN_FILENO n 0) in
      let s := s_wr s (s_ld s (buf + o_data)) l in
      if aio_result StdinRead x <? 0 then Some (NULL, s)
      else if size_t (done_n x) <? n then Some (buf, s_wr s (s_ld s (buf + o_data) + done_n x) [0])
      else Some (buf, s_wr s (s_ld s (buf + o_data) + n) [0]).

(** Also returns what was written. *)
Definition __public__asyncio_printf (s : sheap H) (fmt : Z) (args : list varg) : option (Z * list Z * sheap H) :=
  if (fmt =? NULL) || (s_ld s (fmt + o_data) =? NULL) then Some (0, [], s)
  else
    '(s, o) ← format_loop true (Z.to_nat (s_ld s (fmt + o_str_size))) s (OutBuf NULL 0 0) fmt 0 args;
    let '(x, out) := aio_write (aio_setup STDOUT_FILENO (len o) 0) (rds (sh_bytes s) (buf o) (Z.to_nat (len o))) in
    Some (aio_result StdoutWrite x, out, s).

Definition __public__asyncio_fread (s : sheap H) (f buf n offset : Z) : Z * sheap H :=
  if bad_file s f buf n offset then (-1, s)
  else
    let fd := fileno (s_ld s (f + o_data)) in
    if fd <? 0 then (-1, s)
    else
      let '(x, l) := aio_read (aio_setup fd n offset) in
      (aio_result FileRead x, s_wr s (s_ld s (buf + o_data)) l).

Definition __public__asyncio_fwrite (s : sheap H) (f buf n offset : Z) : Z * list Z :=
  if bad_file s f buf n offset then (-1, [])
  else
    let fd := fileno (s_ld s (f + o_data)) in
    if fd <? 0 then (-1, [])
    else
      let '(x, out) := aio_write (aio_setup fd n offset) (rds (sh_bytes s) (s_ld s (buf + o_data)) (Z.to_nat n)) in
      (aio_result FileWrite x, out).
End asyncio.

(** * What the asynchronous file functions do *)

(** The kernel does not deliver or take more than it is asked to, and its
    errors are positive numbers. *)
Class RingLaws `{Ring} : Prop := {
  ring_read_count : forall fd n off l, ring_read fd n off = Ok l -> 0 <= n -> Z.of_nat (length l) <= n;
  ring_write_count : forall fd l off w, ring_write fd l off = Ok w -> 0 <= w <= Z.of_nat (length l);
  ring_read_errno : forall fd n off e, ring_read fd n off = Failed e -> 0 < e;
  ring_write_errno : forall fd l off e, ring_write fd l off = Failed e -> 0 < e
}.

Section ops.
Context `{RingLaws}.

(** A read delivers at most what was asked for, or fails. *)
Lemma aio_read_ok (fd n off : Z) : 0 <= n -> exists x l, aio_read (aio_setup fd n off) = (x, l) /\ Z.of_nat (length l) <= n /\
  ((ring_read fd n off = Ok l /\ done_n x = Z.of_nat (length l)) \/ ((exists e, ring_read fd n off = Failed e) /\ done_n x = -1 /\ l = [])).
Proof.
  intros Hn. unfold aio_read. cbn [aio_setup io_fd req_n offset]. destruct (ring_read fd n off) as [l|e] eqn:E.
  - exists (io_completed (aio_setup fd n off) (Z.of_nat (length l))), l. split; [done|]. split; [by eapply ring_read_count|]. left. split; [done|].
    unfold io_completed. by rewrite (proj2 (Z.ltb_ge _ 0)) by lia.
  - pose proof (ring_read_errno _ _ _ _ E). exists (io_completed (aio_setup fd n off) (- e)), []. split; [done|]. split; [done|]. right.
    unfold io_completed. rewrite (proj2 (Z.ltb_lt _ 0)) by lia. eauto.
Qed.

(** A write takes a prefix, or fails. *)
Lemma aio_write_ok (fd n off : Z) (data : list Z) : exists x out, aio_write (aio_setup fd n off) data = (x, out) /\ out `prefix_of` data /\
  (((exists w, ring_write fd data off = Ok w) /\ done_n x = Z.of_nat (length out)) \/ ((exists e, ring_write fd data off = Failed e) /\ done_n x = -1 /\ out = [])).
Proof.
  unfold aio_write. cbn [aio_setup io_fd req_n offset]. destruct (ring_write fd data off) as [w|e] eqn:E.
  - pose proof (ring_write_count _ _ _ _ E). exists (io_completed (aio_setup fd n off) w), (take (Z.to_nat w) data).
    split; [done|]. split; [apply prefix_take|]. left. split; [eauto|]. unfold io_completed. rewrite (proj2 (Z.ltb_ge _ 0)) by lia.
    cbn [done_n]. rewrite length_take. lia.
  - pose proof (ring_write_errno _ _ _ _ E). exists (io_completed (aio_setup fd n off) (- e)), []. split; [done|]. split; [apply prefix_nil|]. right.
    unfold io_completed. rewrite (proj2 (Z.ltb_lt _ 0)) by lia. eauto.
Qed.
End ops.

Section thms.
Context `{HeapSpec H} `{Kernel} `{RingLaws}.
Implicit Types (s : sheap H) (L : gmap Z Z).

(** [__public__asyncio_printf] hands the rendered text to one write at offset
    0 of the standard output and returns how much of it was taken, 0 for an
    error; it does not write the rest. *)
Theorem asyncio_printf_spec s L fmt f args strs l (Ho : s_ok s L) (Hf : str_at s L fmt f) (Hne : f <> []) (Hstrs : strs_ok s L strs)
  (Hr : s_room s (S (S (length f)))) (Hl : render true strs f args = Some l) (Hlen : Z.of_nat (length l) <= TEXT_MAX) :
  exists out s' L', __public__asyncio_printf s fmt args = Some (Z.of_nat (length out), out, s') /\ s_ok s' L' /\ L ⊆ L' /\ kept L s s' /\
    out `prefix_of` l /\ ((exists w, ring_write STDOUT_FILENO l 0 = Ok w) \/ ((exists e, ring_write STDOUT_FILENO l 0 = Failed e) /\ out = [])).
Proof.
  destruct (Hf) as ([n Hn] & El & Hd). destruct (s_block _ _ _ _ Ho Hn) as [Hp _]. unfold __public__asyncio_printf.
  replace (fmt =? NULL) with false by lia. destruct Hd as [[_ ?]|(k & Hk & _)]; [done|].
  destruct (s_block _ _ _ _ Ho Hk). replace (s_ld s (fmt + o_data) =? NULL) with false by lia. cbn [orb]. rewrite El, Nat2Z.id.
  destruct (format_text_ok s L true fmt f args strs l 1 Ho Hf Hstrs Hr Hl Hlen) as (s1 & o1 & L1 & -> & Ho1 & Hs1 & Elen & Hbuf & HK1 & _).
  cbn [mbind option_bind]. rewrite Elen, Nat2Z.id.
  assert (rds (sh_bytes s1) (buf o1) (length l) = l) as -> by (destruct Hbuf as [[_ ->]|(j & _ & _ & ?)]; done).
  destruct (aio_write_ok STDOUT_FILENO (Z.of_nat (length l)) 0 l) as (x & out & -> & Hpre & Hx). exists out, s1, L1.
  assert (aio_result StdoutWrite x = Z.of_nat (length out)) as ->.
  { unfold aio_result. destruct Hx as [[_ ->]|(_ & -> & ->)]; [|done]. by rewrite (proj2 (Z.ltb_ge _ 0)) by lia. }
  split_and!; try done. destruct Hx as [[? _]|(? & _ & ?)]; auto.
Qed.

(** [__public__ascan] returns NULL when [n] is not positive or the read
    fails, and otherwise a new array of [n + 1] elements that starts with the
    bytes read and a NUL; no live block changes. *)
Theorem ascan_spec s L n r (Ho : s_ok s L) (Hr : s_room s (4 + r)) (Hn : (n + 1) * 8 <= REQUEST_MAX) :
  exists q s' L', __public__ascan s n = Some (q, s') /\ s_ok s' L' /\ L ⊆ L' /\ kept L s s' /\
    ((q = NULL /\ (n <= 0 \/ exists e, ring_read STDIN_FILENO n 0 = Failed e)) \/
     exists l dt k, ring_read STDIN_FILENO n 0 = Ok l /\ L !! q = None /\ s_ld s' (q + o_data) = dt /\
       __public__len s' q = n + 1 /\ L' !! dt = Some k /\ n < k /\ rds (sh_bytes s') dt (length l + 1) = l ++ [0]).
Proof.
  unfold __public__ascan. destruct (Z.leb_spec n 0) as [|Hn0]; [exists NULL, s, L; split_and!; try done; auto|].
  destruct (alloc_array_ok s L 8 [n + 1] (1 + r) Ho) as (p & s1 & L1 & E1 & Ho1 & Hs1 & Hp & HK1 & _); [done| |exact Hr|].
  { split; [lia|]. split; [cbn; unfold REQUEST_MAX; lia|]. split; [lia|done]. }
  change (Z.of_nat (length [n + 1])) with 1 in E1. rewrite E1. cbn [mbind option_bind].
  destruct Hp as (m & dt & k & Hp & Hm & Hd & Hk & Hne & Hh & Hle & _). pose proof Hh as [F1 _ _ F4 _ _ _].
  apply lookup_difference_Some in Hp as [Hp Hp0], Hd as [Hd Hd0]. destruct (s_block _ _ _ _ Ho1 Hp) as [Hp16 _].
  rewrite (proj2 (Z.eqb_neq p NULL)) by lia.
  destruct (aio_read_ok STDIN_FILENO n 0 ltac:(lia)) as (x & l & -> & Hl & Hx). rewrite F1. unfold aio_result.
  assert (touch L1 dt s1 (s_wr s1 dt l)) as T1 by (eapply (touch_wr L1 dt k); [done|done|lia|lia]).
  destruct Hx as [[Er Ex]|(Er & Ex & ->)]; rewrite Ex.
  - rewrite (proj2 (Z.ltb_ge _ 0)) by lia. change (s_ld (s_wr s1 dt l)) with (s_ld s1). rewrite F1.
    rewrite uwrap_small by (unfold in_uint, REQUEST_MAX in *; lia).
    assert ((if Z.of_nat (length l) <? n then Some (p, s_wr (s_wr s1 dt l) (dt + Z.of_nat (length l)) [0])
             else Some (p, s_wr (s_wr s1 dt l) (dt + n) [0])) = Some (p, s_wr (s_wr s1 dt l) (dt + Z.of_nat (length l)) [0])) as ->.
    { destruct (Z.ltb_spec (Z.of_nat (length l)) n); [done|]. by replace n with (Z.of_nat (length l)) by lia. }
    assert (touch L1 dt s1 (s_wr (s_wr s1 dt l) (dt + Z.of_nat (length l)) [0])) as T.
    { eapply touch_trans; [exact T1|]. eapply (touch_wr L1 dt k); [apply T1|done|lia|cbn; lia]. }
    eexists p, _, L1. split; [done|]. split; [apply T|]. split; [done|].
    split; [eapply kept_trans; [exact HK1|]; exact (touch_fresh _ _ _ _ _ T Hs1 Hd0)|]. right. exists l, dt, k.
    split; [done|]. split; [done|]. split; [exact F1|]. split; [exact F4|]. split; [done|]. split; [lia|].
    cbn [s_wr s_bytes sh_bytes]. rewrite rds_app, rds_wr_out, rds_wr by lia. f_equal. apply (rds_wr [0]).
  - eexists NULL, _, L1. split; [done|]. split; [apply T1|]. split; [done|].
    split; [eapply kept_trans; [exact HK1|]; exact (touch_fresh _ _ _ _ _ T1 Hs1 Hd0)|]. left. auto.
Qed.

(** The asynchronous transfers at an offset.  With invalid arguments both
    return -1 and do nothing.  Otherwise a read stores what the kernel
    delivers at that position of the file at the start of the buffer and
    returns its length, or -1 and changes nothing; a write hands the first
    [n] bytes of the buffer to the kernel for that position and returns how
    many it took. *)
Theorem asyncio_transfer_spec s L f buf n offset dt k (Ho : s_ok s L) (Hdt : L !! dt = Some k) (Hn : n <= k) (Hb : s_ld s (buf + o_data) = dt) :
  let fd := fileno (s_ld s (f + o_data)) in
  if bad_file s f buf n offset || (fd <? 0) then
    __public__asyncio_fread s f buf n offset = (-1, s) /\ __public__asyncio_fwrite s f buf n offset = (-1, [])
  else
    (exists l, __public__asyncio_fread s f buf n offset = (match ring_read fd n offset with Ok _ => Z.of_nat (length l) | Failed _ => -1 end, s_wr s dt l) /\
       l = match ring_read fd n offset with Ok l => l | Failed _ => [] end /\
       Z.of_nat (length l) <= n /\ kept (delete dt L) s (s_wr s dt l) /\ rds (sh_bytes (s_wr s dt l)) dt (length l) = l) /\
    (exists out, __public__asyncio_fwrite s f buf n offset =
         (match ring_write fd (rds (sh_bytes s) dt (Z.to_nat n)) offset with Ok _ => Z.of_nat (length out) | Failed _ => -1 end, out) /\
       out `prefix_of` rds (sh_bytes s) dt (Z.to_nat n)).
Proof.
  cbv zeta. unfold __public__asyncio_fread, __public__asyncio_fwrite. rewrite Hb. destruct (bad_file s f buf n offset) eqn:Eb; [done|]. cbn [orb].
  set (fd := fileno _). destruct (Z.ltb_spec fd 0); [done|]. assert (0 <= n) as Hn0 by (unfold bad_file in Eb; lia). split.
  - destruct (aio_read_ok fd n offset Hn0) as (x & l & -> & Hl & Hx). exists l. split.
    { unfold aio_result. destruct Hx as [[-> ->]|([e ->] & -> & ->)]; [|done]. by rewrite (proj2 (Z.ltb_ge _ 0)) by lia. }
    split; [by destruct Hx as [[-> _]|([e ->] & _ & ->)]|]. split; [done|]. split; [eapply s_wr_kept; [done|exact Hdt|lia|lia]|].
    cbn [s_wr s_bytes sh_bytes]. apply rds_wr.
  - destruct (aio_write_ok fd n offset (rds (sh_bytes s) dt (Z.to_nat n))) as (x & out & -> & Hpre & Hx). exists out. split; [|done].
    unfold aio_result. destruct Hx as [[[w ->] ->]|([e ->] & -> & ->)]; [|done]. by rewrite (proj2 (Z.ltb_ge _ 0)) by lia.
Qed.
End thms.
