(* ===== verification/LinuxCtx.v ===== *)
(** * LinuxCtx: contexts on Linux (platform/linux/context.c)

    On Linux a context is a [ucontext_t] in a block of [malloc], and libc
    makes and switches contexts.  The functions of libc are a parameter, with
    what their manual pages say of them as laws. *)

From S2P Require Import Prelude Gc.

(** [ucontext_t]: the stack, the context to go on with, and the machine
    context. *)
Record ucontext (M : Type) := UContext { uc_ss_sp : Z; uc_ss_size : Z; uc_link : Z; uc_mcontext : M }.
Arguments UContext {M} _ _ _ _.
Arguments uc_ss_sp {M} _.
Arguments uc_ss_size {M} _.
Arguments uc_link {M} _.
Arguments uc_mcontext {M} _.

(** The processor runs with a machine context; [getcontext] captures it,
    [makecontext] changes a captured one to start at [entry] with two
    arguments, [swapcontext] saves the running one and installs another. *)
Class Ucontext (M : Type) := {
  getcontext : M -> ucontext M;
  makecontext : ucontext M -> Z -> Z -> Z -> ucontext M;
  swapcontext : M -> gmap Z (ucontext M) -> Z -> Z -> option (M * gmap Z (ucontext M))
}.

Section ctx.
Context `{Ucontext M}.
Implicit Types (s : gmap Z (ucontext M)) (cur : M).

(** [uc] is what [malloc] returns; [getcontext] needs a block. *)
Definition platform_ctx_init (cur : M) (s : gmap Z (ucontext M)) (uc : Z) : option (Z * gmap Z (ucontext M)) :=
  if uc =? NULL then None else Some (0, <[uc := getcontext cur]> s).

Definition platform_ctx_make (s : gmap Z (ucontext M)) (uc entry a b stack stack_size link : Z) : option (Z * gmap Z (ucontext M)) :=
  u ← s !! uc;
  let u := UContext stack (uc_ss_size u) (uc_link u) (uc_mcontext u) in
  let u := UContext (uc_ss_sp u) stack_size (uc_link u) (uc_mcontext u) in
  let u := UContext (uc_ss_sp u) (uc_ss_size u) link (uc_mcontext u) in
  Some (0, <[uc := makecontext u entry a b]> s).

Definition platform_ctx_switch (cur : M) (s : gmap Z (ucontext M)) (from to : Z) : option (M * gmap Z (ucontext M)) :=
  swapcontext cur s from to.

Definition plarform_ctx_destroy (s : gmap Z (ucontext M)) (uc : Z) : gmap Z (ucontext M) := delete uc s.
End ctx.

(** [starts m entry a b sp size link]: [m] calls [entry a b] on that stack
    and goes on with the context [link] when it returns. *)
Class UcontextLaws (M : Type) `{Ucontext M} := {
  starts : M -> Z -> Z -> Z -> Z -> Z -> Z -> Prop;
  getcontext_self : forall m, uc_mcontext (getcontext m) = m;
  makecontext_starts : forall u entry a b, let u' := makecontext u entry a b in
    starts (uc_mcontext u') entry a b (uc_ss_sp u) (uc_ss_size u) (uc_link u) /\
    uc_ss_sp u' = uc_ss_sp u /\ uc_ss_size u' = uc_ss_size u /\ uc_link u' = uc_link u;
  swapcontext_swaps : forall m s from to u v, s !! from = Some u -> s !! to = Some v -> from <> to ->
    swapcontext m s from to = Some (uc_mcontext v, <[from := UContext (uc_ss_sp u) (uc_ss_size u) (uc_link u) m]> s)
}.

Section laws.
Context `{UcontextLaws M}.
Implicit Types (s : gmap Z (ucontext M)) (cur : M).

(** A context that was made starts its function when it is switched to,
    and the context that was left goes on where it was when something
    switches back, if its block was left alone. *)
Theorem linux_ctx_lifecycle cur s uc S entry a b stack size (sched : ucontext M) :
  uc <> NULL -> s !! S = Some sched -> S <> uc ->
  exists s1 s2 m3 s3, platform_ctx_init cur s uc = Some (0, s1) /\
    platform_ctx_make s1 uc entry a b stack size S = Some (0, s2) /\
    platform_ctx_switch cur s2 S uc = Some (m3, s3) /\ starts m3 entry a b stack size S /\
    forall m s4 T u, s4 !! S = s3 !! S -> s4 !! T = Some u -> T <> S -> exists s5, platform_ctx_switch m s4 T S = Some (cur, s5).
Proof.
  intros Hu HS Hne. unfold platform_ctx_init, platform_ctx_make, platform_ctx_switch. rewrite (proj2 (Z.eqb_neq uc _)) by done.
  eexists _, _, _, _. split; [done|]. rewrite lookup_insert_eq. cbn [mbind option_bind uc_ss_sp uc_ss_size uc_link uc_mcontext]. split; [done|].
  destruct (makecontext_starts (UContext stack size S (uc_mcontext (getcontext cur))) entry a b) as (Hs & _).
  rewrite (swapcontext_swaps cur _ S uc sched (makecontext (UContext stack size S (uc_mcontext (getcontext cur))) entry a b));
    [|by rewrite !lookup_insert_ne by done|by rewrite lookup_insert_eq|done].
  split; [done|]. split; [exact Hs|]. intros m s4 T u Hk HT Hn. rewrite lookup_insert_eq in Hk.
  eexists. rewrite (swapcontext_swaps m s4 T S u _ HT Hk Hn). done.
Qed.
End laws.

(** ** Instances *)

(** Machine contexts as lists of words. *)
#[export] Instance words_ucontext : Ucontext (list Z) := {|
  getcontext m := UContext 0 0 0 m;
  makecontext u entry a b := UContext (uc_ss_sp u) (uc_ss_size u) (uc_link u) [entry; a; b; uc_ss_sp u; uc_ss_size u; uc_link u];
  swapcontext m s from to := u ← s !! from; v ← s !! to; Some (uc_mcontext v, <[from := UContext (uc_ss_sp u) (uc_ss_size u) (uc_link u) m]> s)
|}.

#[export] Instance words_laws : UcontextLaws (list Z).
Proof.
  refine {| starts m entry a b sp size link := m = [entry; a; b; sp; size; link] |}; [done|done|].
  intros m s from to u v Hu Hv _. cbn [swapcontext words_ucontext]. by rewrite Hu, Hv.
Defined.

Lemma linux_ctx_lifecycle_witness : exists s1 s2 m3 s3, platform_ctx_init ([7] : list Z) {[100 := UContext 0 0 0 []]} 200 = Some (0, s1) /\
  platform_ctx_make s1 200 500 1 2 4096 8192 100 = Some (0, s2) /\ platform_ctx_switch [7] s2 100 200 = Some (m3, s3) /\ m3 = [500; 1; 2; 4096; 8192; 100].
Proof.
  destruct (linux_ctx_lifecycle ([7] : list Z) {[100 := UContext 0 0 0 []]} 200 100 500 1 2 4096 8192 (UContext 0 0 0 [])) as
    (s1 & s2 & m3 & s3 & E1 & E2 & E3 & Hs & _); [discriminate|reflexivity|discriminate|].
  exists s1, s2, m3, s3. split; [exact E1|]. split; [exact E2|]. split; [exact E3|exact Hs].
Defined.
