(* ===== verification/DarwinCtx.v ===== *)
(** * DarwinCtx: contexts on macOS (platform/darwin/context.c, context_switcher.S)

    On macOS the runtime switches between tasks with code of its own.  The
    assembly file is modelled instruction by instruction, on a processor
    with the registers [x0] to [x30], the stack pointer (number 31) and the
    floating-point registers; the functions of context.c work on the words
    of the same memory.  Words are 64 bits wide and lie at aligned
    addresses. *)

From S2P Require Import Prelude Mem Gc.

(** ** The instructions *)

(** [base] with an offset, with write-back before, or with write-back
    after the access. *)
Inductive amode := Off (k : Z) | Pre (k : Z) | Post (k : Z).

Inductive instr :=
  | Stp (r1 r2 base : Z) (a : amode)
  | Ldp (r1 r2 base : Z) (a : amode)
  | Str (r base : Z) (a : amode)
  | Ldr (r base : Z) (a : amode)
  | Mov (rd rn : Z)
  | AndI (rd rn imm : Z)
  | Br (rn : Z)
  | Blr (rn : Z)
  | Bl (target : Z)
  | Bself.

(** The processor: general registers, floating-point registers, program
    counter, and the memory. *)
Record cpu := Cpu { xr : mem; dr : mem; pc : Z; cmem : mem }.

(** The number of the stack pointer. *)
Abbreviation SP := 31%Z (only parsing).
Definition set_pc (c : cpu) (p : Z) : cpu := Cpu (xr c) (dr c) p (cmem c).
Definition set_x (c : cpu) (r v : Z) : cpu := Cpu (st (xr c) r v) (dr c) (pc c) (cmem c).
Definition set_m (c : cpu) (a v : Z) : cpu := Cpu (xr c) (dr c) (pc c) (st (cmem c) a v).

(** The address of an access, and the processor with the base register
    written back; a stack pointer that is used as a base must be aligned to
    16. *)
Definition access (c : cpu) (base : Z) (a : amode) : option (Z * cpu) :=
  let b := ld (xr c) base in
  c_assert (negb (base =? SP) || (b mod 16 =? 0)) ;;
  let '(p, c) := match a with
                 | Off k => (uwrap 64 (b + k), c)
                 | Pre k => (uwrap 64 (b + k), set_x c base (uwrap 64 (b + k)))
                 | Post k => (b, set_x c base (uwrap 64 (b + k)))
                 end in
  c_assert (p mod 8 =? 0) ;; Some (p, c).

(** What an instruction that is not a branch does. *)
Definition effect (i : instr) (c : cpu) : option cpu :=
  match i with
  | Stp r1 r2 base a =>
      '(p, c') ← access c base a;
      Some (set_m (set_m c' p (ld (xr c) r1)) (uwrap 64 (p + 8)) (ld (xr c) r2))
  | Ldp r1 r2 base a =>
      '(p, c') ← access c base a;
      Some (set_x (set_x c' r1 (ld (cmem c) p)) r2 (ld (cmem c) (uwrap 64 (p + 8))))
  | Str r base a => '(p, c') ← access c base a; Some (set_m c' p (ld (xr c) r))
  | Ldr r base a => '(p, c') ← access c base a; Some (set_x c' r (ld (cmem c) p))
  | Mov rd rn => Some (set_x c rd (ld (xr c) rn))
  | AndI rd rn imm => Some (set_x c rd (Z.land (ld (xr c) rn) imm))
  | Br _ | Blr _ | Bl _ | Bself => None
  end.

(** ** The assembly file *)
Section text.
(** Where the text is loaded, and the address of the C function it calls. *)
Context (base callback : Z).

Definition switch_text : list instr :=
  [Stp 19 20 0 (Off 0); Stp 21 22 0 (Off 16); Stp 23 24 0 (Off 32); Stp 25 26 0 (Off 48); Stp 27 28 0 (Off 64); Stp 29 30 0 (Off 80);
   Mov 16 SP; Str 16 0 (Off 96);
   Ldp 19 20 1 (Off 0); Ldp 21 22 1 (Off 16); Ldp 23 24 1 (Off 32); Ldp 25 26 1 (Off 48); Ldp 27 28 1 (Off 64); Ldp 29 30 1 (Off 80);
   Ldr 16 1 (Off 96); Mov SP 16;
   Br 30].

Definition entry_text : list instr :=
  [Ldr 22 SP (Post 16); Ldr 23 SP (Post 16);
   Mov 16 SP; AndI 16 16 0xFFFFFFFFFFFFFFF0; Mov SP 16;
   Stp 22 23 SP (Pre (-16)); Stp 29 30 SP (Pre (-16)); Mov 29 SP;
   Mov 0 20; Mov 1 21; Blr 19;
   Ldp 29 30 SP (Post 16); Ldp 0 1 SP (Post 16);
   Mov 16 0; Mov 0 1; Mov 1 16;
   Bl callback; Bself].

Definition text : list instr := switch_text ++ entry_text.

(** The labels. *)
Definition _platform_ctx_switch : Z := base.
Definition _platform_ctx_entry : Z := base + 4 * Z.of_nat (length switch_text).

Definition fetch (p : Z) : option instr :=
  if (p - base) mod 4 =? 0 then arr_get text ((p - base) / 4) else None.

(** One instruction of the file; [None] when the program counter is
    elsewhere or the instruction faults. *)
Definition step (c : cpu) : option cpu :=
  i ← fetch (pc c);
  match i with
  | Br rn => Some (set_pc c (ld (xr c) rn))
  | Blr rn => Some (set_pc (set_x c 30 (pc c + 4)) (ld (xr c) rn))
  | Bl target => Some (set_pc (set_x c 30 (pc c + 4)) target)
  | Bself => Some c
  | _ => c' ← effect i c; Some (set_pc c' (pc c + 4))
  end.

Fixpoint run (n : nat) (c : cpu) : option cpu :=
  match n with
  | O => Some c
  | S n => c ← step c; run n c
  end.
End text.

(** ** context.c *)

(** [platform_ctx_t]: [reg.regs[12]], [reg.sp], [stack], [stack_size],
    [back_link]. *)
Definition o_ctx_regs : Z := 0.
Definition o_ctx_sp : Z := 96.
Definition o_ctx_stack : Z := 104.
Definition o_ctx_stack_size : Z := 112.
Definition o_ctx_back_link : Z := 120.
Definition sizeof_ctx : Z := 128.
Definition sizeof_registers : Z := 104.

(** [memset( p, 0, n)]. *)
Definition memset0 (m : mem) (p n : Z) : mem := zero_region m p n.

Definition ctx_init (m : mem) (ctx : Z) : Z * mem :=
  if ctx =? NULL then (-1, m) else (0, memset0 m ctx sizeof_ctx).

Definition ctx_destroy (m : mem) (ctx : Z) : mem :=
  if ctx =? NULL then m else memset0 m ctx sizeof_ctx.

(** [platform_ctx_entry] is the address of the label of that name. *)
Definition ctx_make (platform_ctx_entry : Z) (m : mem) (ctx entry a b stack stack_size back_link : Z) : Z * mem :=
  if (ctx =? NULL) || (stack =? NULL) then (-1, m)
  else
    let top := uwrap 64 (stack + stack_size) in
    let top := Z.land top (Z.lnot 15) in
    let top := uwrap 64 (top - 128) in
    let m := memset0 m (ctx + o_ctx_regs) sizeof_registers in
    let m := st m (ctx + o_ctx_stack) stack in
    let m := st m (ctx + o_ctx_stack_size) stack_size in
    let m := st m (ctx + o_ctx_back_link) back_link in
    let top := uwrap 64 (top - 16) in
    let m := st m top ctx in
    let top := uwrap 64 (top - 16) in
    let m := st m top back_link in
    let m := st m (ctx + o_ctx_regs) entry in
    let m := st m (ctx + o_ctx_regs + 8) a in
    let m := st m (ctx + o_ctx_regs + 16) b in
    let m := st m (ctx + o_ctx_regs + 80) 0 in
    let m := st m (ctx + o_ctx_regs + 88) platform_ctx_entry in
    let m := st m (ctx + o_ctx_sp) top in
    (0, m).

Definition ctx_get_stack_base (m : mem) (ctx : Z) : Z := ld m (ctx + o_ctx_stack).
Definition ctx_get_stack_pointer (m : mem) (ctx : Z) : Z := ld m (ctx + o_ctx_sp).
Definition ctx_get_pc (m : mem) (ctx : Z) : Z := ld m (ctx + o_ctx_regs + 8 * 11).
Definition ctx_get_stack_size (m : mem) (ctx : Z) : Z := swrap 64 (ld m (ctx + o_ctx_stack_size)).
Definition ctx_get_reg (m : mem) (ctx i : Z) : Z :=
  if (19 <=? i) && (i <=? 30) then ld m (ctx + o_ctx_regs + 8 * (i - 19))
  else if i =? 31 then ld m (ctx + o_ctx_sp)
  else 0.

(** What the collector sees of a context: the accessors of this platform in
    place of those of Linux. *)
Definition ctx_view (m : mem) (ctx : Z) : platform_ctx :=
  PlatformCtx (ctx_get_stack_base m ctx) (ctx_get_stack_size m ctx) (ctx_get_stack_pointer m ctx) (ctx_get_pc m ctx) (ctx_get_reg m ctx).

(** [task_completed_callback]: it switches away for good, or ends the
    process with a message. *)
Inductive completed := Switches (from to : Z) | Dies (status : Z).
Definition task_completed_callback (current parent : Z) : completed :=
  if negb (parent =? NULL) then Switches current parent else Dies 1.
