(* ===== verification/DarwinCtxThms.v ===== *)
(** * DarwinCtxThms: switching contexts on macOS

    Straight-line blocks of the assembly file run as the effects of their
    instructions.  A switch saves exactly the registers it restores, so a
    task that is resumed finds its registers as it left them; a fresh context
    starts its entry function on its own stack and ends by switching to its
    parent; what a suspended task held in its registers is a root of the
    collector. *)

From S2P Require Import Prelude Mem Gc DarwinCtx GcCollect.

(** ** Straight-line code *)

Fixpoint effects (l : list instr) (c : cpu) : option cpu :=
  match l with
  | [] => Some c
  | i :: l => c ← effect i c; effects l c
  end.

Lemma access_set_pc (c : cpu) (p b : Z) (a : amode) :
  access (set_pc c p) b a = ('(x, c') ← access c b a; Some (x, set_pc c' p)).
Proof.
  unfold access. cbn [set_pc xr]. destruct (c_assert _); [|done]. cbn [mbind option_bind].
  destruct a; cbv beta iota zeta; destruct (c_assert _); done.
Qed.

Lemma effect_set_pc (i : instr) (c : cpu) (p : Z) : effect i (set_pc c p) = (c' ← effect i c; Some (set_pc c' p)).
Proof. destruct i; cbn [effect]; try done; rewrite access_set_pc; destruct (access c _ _) as [[x c']|]; done. Qed.

Lemma effects_set_pc (l : list instr) (p : Z) : forall c, effects l (set_pc c p) = (c' ← effects l c; Some (set_pc c' p)).
Proof.
  induction l as [|i l IH]; intros c; cbn [effects]; [done|]. rewrite effect_set_pc. destruct (effect i c) as [c1|]; [|done]. cbn [mbind option_bind]. apply IH.
Qed.

Lemma effects_app (l k : list instr) : forall c, effects (l ++ k) c = (c' ← effects l c; effects k c').
Proof. induction l as [|i l IH]; intros c; cbn [effects app]; [done|]. destruct (effect i c); [|done]. cbn [mbind option_bind]. apply IH. Qed.

Section text.
Context (base callback : Z).

Lemma fetch_at (k : nat) : fetch base callback (base + 4 * Z.of_nat k) = text callback !! k.
Proof.
  unfold fetch. replace (base + 4 * Z.of_nat k - base) with (Z.of_nat k * 4) by lia. rewrite Z.mod_mul, Z.div_mul by lia.
  cbn [Z.eqb]. unfold arr_get. destruct (Z.leb_spec 0 (Z.of_nat k)); [by rewrite Nat2Z.id|lia].
Qed.

(** A block of the text without branches has the effects of its
    instructions and moves the program counter behind it. *)
Lemma run_block (l : list instr) : forall k c c', pc c = base + 4 * Z.of_nat k -> l `prefix_of` drop k (text callback) ->
  effects l c = Some c' -> run base callback (length l) c = Some (set_pc c' (base + 4 * Z.of_nat (k + length l))).
Proof.
  induction l as [|i l IH]; intros k c c' Hpc [rest Hp] E; cbn [effects length run] in *.
  - injection E as <-. rewrite Nat.add_0_r, <- Hpc. by destruct c.
  - assert (text callback !! k = Some i) as Hi.
    { rewrite <- (Nat.add_0_r k), <- lookup_drop, Hp. done. }
    destruct (effect i c) as [c1|] eqn:E1; [|done]. cbn [mbind option_bind] in E.
    assert (step base callback c = Some (set_pc c1 (pc c + 4))) as ->.
    { unfold step. rewrite Hpc, fetch_at, Hi. cbn [mbind option_bind]. rewrite E1. destruct i; done. }
    cbn [mbind option_bind]. rewrite (IH (S k) _ (set_pc c' (pc c + 4))).
    + do 2 f_equal. lia.
    + cbn [set_pc pc]. lia.
    + exists rest. rewrite <- Nat.add_1_r, <- drop_drop, Hp. done.
    + rewrite effects_set_pc, E. done.
Qed.

Lemma run_text_add (n m : nat) : forall c, run base callback (n + m) c = (c' ← run base callback n c; run base callback m c').
Proof. induction n as [|n IH]; intros c; cbn [run Nat.add]; [done|]. destruct (step _ _ c); [|done]. cbn [mbind option_bind]. apply IH. Qed.
End text.

(** ** Saving and restoring *)

(** [p] is the address of a context. *)
Definition ctx_at (p : Z) : Prop := 0 < p /\ p mod 8 = 0 /\ p + sizeof_ctx <= 2 ^ 64.

(** The context holds the registers [x19] to [x30] and the stack pointer of
    the register file [x]. *)
Definition saved (m : mem) (ctx : Z) (x : mem) : Prop :=
  (forall i, 19 <= i <= 30 -> ld m (ctx + 8 * (i - 19)) = ld x i) /\ ld m (ctx + o_ctx_sp) = ld x SP.

(** An access to a context through a register. *)
Lemma access_ctx (c : cpu) (b k p : Z) : ld (xr c) b = p -> ctx_at p -> (b =? SP) = false -> k mod 8 = 0 -> 0 <= k < sizeof_ctx ->
  access c b (Off k) = Some (p + k, c).
Proof.
  intros E (Hp & Hm & Hl) Hb Hk Hk'. unfold access. rewrite E, Hb. cbn [negb orb c_assert mbind option_bind].
  rewrite uwrap_small by (unfold in_uint, sizeof_ctx in *; lia). rewrite (mod_add_0 p k 8) by (lia || done). done.
Qed.

(** Evaluate the accesses to the context [p] one after the other. *)
Ltac ctx_access p :=
  match goal with |- context [access ?c ?b (Off ?k)] =>
    rewrite (access_ctx c b k p) by first [assumption | (cbn [set_m set_x xr]; rewrite ?ld_st_ne by lia; assumption) | reflexivity | (unfold sizeof_ctx; lia)]
  end; cbn [mbind option_bind set_m set_x xr dr pc cmem].

(** Split on the number of a register from 19 to 30. *)
Ltac callee_saved i :=
  let H := fresh in
  assert (i = 19 \/ i = 20 \/ i = 21 \/ i = 22 \/ i = 23 \/ i = 24 \/ i = 25 \/ i = 26 \/ i = 27 \/ i = 28 \/ i = 29 \/ i = 30) as H by lia;
  decompose [or] H; subst i; clear H.

Lemma save_text_ok (c : cpu) (from : Z) : ld (xr c) 0 = from -> ctx_at from ->
  exists c', effects (take 8 switch_text) c = Some c' /\ saved (cmem c') from (xr c) /\
    only_differ (fun a => from <= a < from + sizeof_registers) (cmem c) (cmem c') /\ xr c' = st (xr c) 16 (ld (xr c) SP) /\ dr c' = dr c /\ pc c' = pc c.
Proof.
  intros E Hc. pose proof Hc as (Hp & _ & Hl). unfold sizeof_ctx in Hl. cbn [take switch_text effects effect].
  assert (forall k, 0 <= k < 120 -> uwrap 64 (from + k + 8) = from + k + 8) as Hw by (intros; apply uwrap_small; unfold in_uint; lia).
  repeat (ctx_access from; rewrite ?Hw by lia). eexists. split; [reflexivity|]. cbn [set_m set_x xr dr pc cmem].
  unfold saved, only_differ, sizeof_registers, o_ctx_sp. split_and!; try done.
  - intros i Hi. callee_saved i; ld_steps; done.
  - by ld_steps.
  - intros a Ha. by rewrite !ld_st_ne by lia.
Qed.

Lemma restore_text_ok (c : cpu) (to : Z) : ld (xr c) 1 = to -> ctx_at to ->
  exists c', effects (take 8 (drop 8 switch_text)) c = Some c' /\ saved (cmem c) to (xr c') /\ cmem c' = cmem c /\
    only_differ (fun r => r = 16 \/ 19 <= r <= 31) (xr c) (xr c') /\ dr c' = dr c /\ pc c' = pc c.
Proof.
  intros E Hc. pose proof Hc as (Hp & _ & Hl). unfold sizeof_ctx in Hl. cbn [take drop switch_text effects effect].
  assert (forall k, 0 <= k < 120 -> uwrap 64 (to + k + 8) = to + k + 8) as Hw by (intros; apply uwrap_small; unfold in_uint; lia).
  repeat (ctx_access to; rewrite ?Hw by lia). eexists. split; [reflexivity|]. cbn [set_m set_x xr dr pc cmem].
  unfold saved, only_differ, o_ctx_sp. split_and!; try done.
  - intros i Hi. callee_saved i; ld_steps; f_equal; lia.
  - by ld_steps.
  - intros a Ha. by rewrite !ld_st_ne by lia.
Qed.

(** ** A switch *)

Definition apart (p n q k : Z) : Prop := p + n <= q \/ q + k <= p.

(** The memory a switch reads of the context it resumes. *)
Definition kept (ctx : Z) (m m' : mem) : Prop := forall a, ctx <= a < ctx + sizeof_registers -> ld m' a = ld m a.

Lemma saved_kept (m m' x : mem) (ctx : Z) : saved m ctx x -> kept ctx m m' -> saved m' ctx x.
Proof.
  unfold saved, kept, sizeof_registers, o_ctx_sp. intros [H1 H2] HK. split; [intros i Hi|]; rewrite HK by lia; auto.
Qed.

(** A register file is given back by a context that has saved it. *)
Lemma saved_same (m x y : mem) (ctx : Z) : saved m ctx x -> saved m ctx y -> forall i, 19 <= i <= 31 -> ld x i = ld y i.
Proof.
  intros [H1 H2] [H3 H4] i Hi. destruct (decide (i = 31)) as [->|]; [congruence|]. rewrite <- H1, <- H3 by lia. done.
Qed.

Section switch.
Context (base callback : Z).
Local Abbreviation runs := (run base callback).

(** The processor calls [platform_ctx_switch(from, to)]. *)
Definition calls_switch (c : cpu) (from to : Z) : Prop :=
  pc c = _platform_ctx_switch base /\ ld (xr c) 0 = from /\ ld (xr c) 1 = to /\ ctx_at from /\ ctx_at to.

(** The processor after it. *)
Definition switched (c c' : cpu) (from to : Z) : Prop :=
  pc c' = ld (cmem c) (to + 88) /\ saved (cmem c) to (xr c') /\ saved (cmem c') from (xr c) /\
  only_differ (fun a => from <= a < from + sizeof_registers) (cmem c) (cmem c') /\
  only_differ (fun r => r = 16 \/ 19 <= r <= 31) (xr c) (xr c') /\ dr c' = dr c.

Lemma ctx_switch_ok (c : cpu) (from to : Z) : calls_switch c from to -> apart from sizeof_ctx to sizeof_ctx ->
  exists c', runs 17 c = Some c' /\ switched c c' from to.
Proof.
  intros (Hpc & H0 & H1 & Hf & Ht) Hd. unfold _platform_ctx_switch, apart, sizeof_ctx in *.
  destruct (save_text_ok c from H0 Hf) as (c1 & E1 & S1 & F1 & X1 & D1 & P1).
  destruct (restore_text_ok c1 to) as (c2 & E2 & S2 & M2 & X2 & D2 & P2); [rewrite X1, ld_st_ne by lia; done|done|].
  assert (kept to (cmem c) (cmem c1)) as HK.
  { intros a Ha. apply F1. unfold sizeof_registers in *. lia. }
  assert (saved (cmem c) to (xr c2)) as S2' by (eapply saved_kept; [exact S2|]; intros a Ha; symmetry; by apply HK).
  change 17%nat with (8 + (8 + 1))%nat. rewrite run_text_add.
  assert (runs 8 c = Some (set_pc c1 (base + 4 * Z.of_nat 8))) as ->.
  { apply (run_block base callback (take 8 switch_text) 0); [lia|by eexists|done]. }
  cbn [mbind option_bind]. rewrite run_text_add.
  assert (runs 8 (set_pc c1 (base + 4 * Z.of_nat 8)) = Some (set_pc c2 (base + 4 * Z.of_nat 16))) as ->.
  { apply (run_block base callback (take 8 (drop 8 switch_text)) 8 _ (set_pc c2 (base + 4 * Z.of_nat 8))); [done|by eexists|by rewrite effects_set_pc, E2]. }
  cbn [mbind option_bind run].
  unfold step. cbn [set_pc pc]. rewrite fetch_at. cbn [mbind option_bind lookup text switch_text app list_lookup]. cbn [set_pc xr].
  eexists. split; [reflexivity|]. unfold switched. cbn [set_pc pc xr dr cmem]. split_and!.
  - destruct S2' as [S2' _]. rewrite <- (S2' 30) by lia. done.
  - exact S2'.
  - by rewrite M2.
  - by rewrite M2.
  - intros r Hr. rewrite (X2 r Hr), X1, ld_st_ne by lia. done.
  - congruence.
Qed.

(** A task that is resumed goes on behind its call of the switch with the
    registers it had, if its context was left alone. *)
Lemma resumed_ok (c c1 c2 : cpu) (A B C : Z) : switched c c1 A B -> kept A (cmem c1) (cmem c2) ->
  calls_switch c2 C A -> apart C sizeof_ctx A sizeof_ctx ->
  exists c3, runs 17 c2 = Some c3 /\ switched c2 c3 C A /\ pc c3 = ld (xr c) 30 /\ forall i, 19 <= i <= 31 -> ld (xr c3) i = ld (xr c) i.
Proof.
  intros (_ & _ & HA & _) HK Hc Hd. destruct (ctx_switch_ok c2 C A Hc Hd) as (c3 & E & Hs). exists c3. split; [done|]. split; [done|].
  destruct Hs as (Hpc & HS & _). pose proof (saved_kept _ _ _ _ HA HK) as HA'. split; [|by eapply saved_same].
  rewrite Hpc. destruct HA' as [HA' _]. rewrite <- (HA' 30) by lia. done.
Qed.
End switch.

(** * The first and the last steps of a context on macOS *)

(** ** The stack of a fresh context *)

(** The stack pointer [platform_ctx_make] gives to a context. *)
Definition fresh_sp (stack size : Z) : Z := stack + size - (stack + size) mod 16 - 160.

Lemma fresh_sp_aligned (stack size : Z) : fresh_sp stack size mod 16 = 0.
Proof.
  unfold fresh_sp. apply mod_sub_0; [lia| |done]. apply sub_mod_mod. lia.
Qed.

(** A stack that holds a frame. *)
Definition stack_at (stack size : Z) : Prop := 0 < stack /\ 256 <= size /\ stack + size < 2 ^ 63.

Lemma fresh_sp_bounds (stack size : Z) : stack_at stack size -> stack <= fresh_sp stack size /\ fresh_sp stack size + 160 <= stack + size.
Proof. intros (? & ? & ?). unfold fresh_sp. pose proof (Z.mod_pos_bound (stack + size) 16). lia. Qed.

(** The registers of a fresh context. *)
Definition fresh_regs (entry a b lr : Z) (i : Z) : Z :=
  if i =? 19 then entry else if i =? 20 then a else if i =? 21 then b else if i =? 30 then lr else 0.

Lemma ctx_make_ok (lr : Z) (m : mem) (ctx entry a b stack size link : Z) :
  ctx_at ctx -> stack_at stack size -> apart ctx sizeof_ctx stack size ->
  exists m', ctx_make lr m ctx entry a b stack size link = (0, m') /\
    (forall i, 19 <= i <= 30 -> ld m' (ctx + 8 * (i - 19)) = fresh_regs entry a b lr i) /\
    ld m' (ctx + o_ctx_sp) = fresh_sp stack size /\ ld m' (ctx + o_ctx_stack) = stack /\ ld m' (ctx + o_ctx_stack_size) = size /\
    ld m' (ctx + o_ctx_back_link) = link /\ ld m' (fresh_sp stack size) = link /\ ld m' (fresh_sp stack size + 16) = ctx /\
    only_differ (fun x => ctx <= x < ctx + sizeof_ctx \/ x = fresh_sp stack size \/ x = fresh_sp stack size + 16) m m'.
Proof.
  intros (Hc & _ & Hc') Hst Hd. pose proof (fresh_sp_bounds stack size Hst) as [Hs1 Hs2]. destruct Hst as (Hp & Hz & Hl).
  unfold ctx_make. rewrite (proj2 (Z.eqb_neq ctx _)), (proj2 (Z.eqb_neq stack _)) by lia. cbn [orb].
  rewrite (uwrap_small 64 (stack + size)) by (unfold in_uint; lia). change 15 with (Z.ones 4). rewrite land_lnot_ones by lia. change (2 ^ 4) with 16.
  pose proof (Z.mod_pos_bound (stack + size) 16 ltac:(lia)) as Hm.
  set (k := (stack + size) mod 16) in *. assert (fresh_sp stack size = stack + size - k - 160) as Ef by done.
  rewrite (uwrap_small 64 (stack + size - k - 128)) by (unfold in_uint; lia).
  rewrite (uwrap_small 64 (stack + size - k - 128 - 16)) by (unfold in_uint; lia).
  rewrite (uwrap_small 64 (stack + size - k - 128 - 16 - 16)) by (unfold in_uint; lia).
  unfold apart, sizeof_ctx, o_ctx_regs, o_ctx_sp, o_ctx_stack, o_ctx_stack_size, o_ctx_back_link, sizeof_registers, memset0 in *.
  eexists. split; [reflexivity|]. rewrite Ef. split_and!; try by ld_steps.
  - intros i Hi. callee_saved i; ld_steps; try reflexivity; (rewrite ld_zero_in by lia; reflexivity).
  - rewrite ld_st_eq. lia.
  - intros x Hx. rewrite !ld_st_ne by lia. apply ld_zero_out. lia.
Qed.

(** ** The entry code *)

Lemma land_clear4 (x : Z) : in_uint 64 x -> Z.land x 0xFFFFFFFFFFFFFFF0 = x - x mod 16.
Proof.
  intros Hx. change 0xFFFFFFFFFFFFFFF0 with (Z.land (Z.ones 64) (Z.lnot (Z.ones 4))).
  rewrite Z.land_assoc, Z.land_ones by lia. change (x mod 2 ^ 64) with (uwrap 64 x). rewrite uwrap_small by done. by apply land_lnot_ones.
Qed.

(** An access through the stack pointer with write-back. *)
Lemma access_post (c : cpu) (s k : Z) : ld (xr c) SP = s -> s mod 16 = 0 -> in_uint 64 (s + k) ->
  access c SP (Post k) = Some (s, set_x c SP (s + k)).
Proof.
  intros E Hs Hk. unfold access. rewrite E, Hs. cbn [Z.eqb negb orb c_assert mbind option_bind]. rewrite uwrap_small by done.
  assert (s mod 8 = 0) as -> by (pose proof (Z.div_mod s 16); replace s with (2 * (s / 16) * 8) by lia; apply Z.mod_mul; lia). done.
Qed.

Lemma access_pre (c : cpu) (s k : Z) : ld (xr c) SP = s -> s mod 16 = 0 -> (s + k) mod 8 = 0 -> in_uint 64 (s + k) ->
  access c SP (Pre k) = Some (s + k, set_x c SP (s + k)).
Proof.
  intros E Hs Hk8 Hk. unfold access. rewrite E, Hs. cbn [Z.eqb negb orb c_assert mbind option_bind]. rewrite uwrap_small by done. by rewrite Hk8.
Qed.

Lemma mod16_8 (s : Z) : s mod 16 = 0 -> s mod 8 = 0.
Proof. intros Hs. pose proof (Z.div_mod s 16). replace s with (2 * (s / 16) * 8) by lia. apply Z.mod_mul. lia. Qed.

Ltac regs := cbn [set_m set_x set_pc xr dr pc cmem]; ld_steps.

(** Pop two words of the stack. *)
Lemma pops_ok (c : cpu) (s r1 r2 : Z) : ld (xr c) SP = s -> s mod 16 = 0 -> 0 < s -> s + 32 < 2 ^ 64 -> r1 < SP -> r2 < SP -> r1 <> r2 ->
  exists c', effects [Ldr r1 SP (Post 16); Ldr r2 SP (Post 16)] c = Some c' /\ ld (xr c') SP = s + 32 /\
    ld (xr c') r1 = ld (cmem c) s /\ ld (xr c') r2 = ld (cmem c) (s + 16) /\ only_differ (fun r => r = r1 \/ r = r2 \/ r = SP) (xr c) (xr c') /\
    cmem c' = cmem c /\ dr c' = dr c /\ pc c' = pc c.
Proof.
  intros E Hs Hp Hl H1 H2 H12. cbn [effects effect].
  rewrite (access_post c s 16) by (done || unfold in_uint; lia). cbn [mbind option_bind].
  rewrite (access_post _ (s + 16) 16); [| by regs | by apply mod_add_0 | unfold in_uint; lia]. cbn [mbind option_bind].
  eexists. split; [reflexivity|]. split_and!; try done; try (by regs).
  - regs. lia.
  - intros r Hr. cbn [set_x xr]. by rewrite !ld_st_ne by lia.
Qed.

(** Align the stack pointer, which is aligned already. *)
Lemma align_ok (c : cpu) (s : Z) : ld (xr c) SP = s -> s mod 16 = 0 -> in_uint 64 s ->
  exists c', effects [Mov 16 SP; AndI 16 16 0xFFFFFFFFFFFFFFF0; Mov SP 16] c = Some c' /\ ld (xr c') SP = s /\
    only_differ (fun r => r = 16 \/ r = SP) (xr c) (xr c') /\ cmem c' = cmem c /\ dr c' = dr c /\ pc c' = pc c.
Proof.
  intros E Hs Hu. cbn [effects effect mbind option_bind]. eexists. split; [reflexivity|]. split_and!; try done.
  - regs. rewrite E, land_clear4, Hs by done. lia.
  - intros r Hr. cbn [set_x xr]. by rewrite !ld_st_ne by lia.
Qed.

(** Push a frame of four words. *)
Lemma push_ok (c : cpu) (s : Z) : ld (xr c) SP = s + 32 -> s mod 16 = 0 -> 0 < s -> s + 32 < 2 ^ 64 ->
  exists c', effects [Stp 22 23 SP (Pre (-16)); Stp 29 30 SP (Pre (-16)); Mov 29 SP; Mov 0 20; Mov 1 21] c = Some c' /\ ld (xr c') SP = s /\
    ld (xr c') 0 = ld (xr c) 20 /\ ld (xr c') 1 = ld (xr c) 21 /\ ld (xr c') 19 = ld (xr c) 19 /\
    ld (cmem c') (s + 16) = ld (xr c) 22 /\ ld (cmem c') (s + 24) = ld (xr c) 23 /\
    only_differ (fun a => s <= a < s + 32) (cmem c) (cmem c') /\ dr c' = dr c /\ pc c' = pc c.
Proof.
  intros E Hs Hp Hl. cbn [effects effect].
  assert ((s + 32) mod 16 = 0 /\ (s + 16) mod 16 = 0) as [H32 H16] by (split; by apply mod_add_0).
  rewrite (access_pre c (s + 32) (-16)); [|done|done| |unfold in_uint; lia]; [|apply mod16_8; by replace (s + 32 + -16) with (s + 16) by lia].
  cbn [mbind option_bind]. rewrite (access_pre _ (s + 16) (-16)); [|regs; lia|done| |unfold in_uint; lia];
    [|apply mod16_8; by replace (s + 16 + -16) with s by lia].
  cbn [mbind option_bind]. rewrite !uwrap_small by (unfold in_uint; lia).
  eexists. split; [reflexivity|]. split_and!; try done; try (by regs).
  - regs. lia.
  - intros a Ha. cbn [set_m set_x cmem]. by rewrite !ld_st_ne by lia.
Qed.

Section entry.
Context (base callback : Z).
Local Abbreviation runs := (run base callback).

(** The return address of the call of the entry function. *)
Definition after_entry : Z := base + 4 * 28.

(** [platform_ctx_entry] up to the call: the entry function gets the two
    arguments, an aligned stack pointer and a frame that holds the two
    contexts. *)
Lemma entry_call_ok (c : cpu) (s : Z) : pc c = _platform_ctx_entry base -> ld (xr c) SP = s -> s mod 16 = 0 -> 0 < s -> s + 32 < 2 ^ 64 ->
  exists c', runs 11 c = Some c' /\ pc c' = ld (xr c) 19 /\ ld (xr c') 0 = ld (xr c) 20 /\ ld (xr c') 1 = ld (xr c) 21 /\
    ld (xr c') 30 = after_entry /\ ld (xr c') SP = s /\ ld (cmem c') (s + 16) = ld (cmem c) s /\ ld (cmem c') (s + 24) = ld (cmem c) (s + 16) /\
    only_differ (fun a => s <= a < s + 32) (cmem c) (cmem c') /\ dr c' = dr c.
Proof.
  intros Hpc E Hs Hp Hl.
  destruct (pops_ok c s 22 23 E Hs Hp Hl) as (c1 & E1 & SP1 & P1 & Q1 & X1 & M1 & D1 & _); [done..|].
  destruct (align_ok c1 (s + 32) SP1) as (c2 & E2 & SP2 & X2 & M2 & D2 & _); [by apply mod_add_0|unfold in_uint; lia|].
  destruct (push_ok c2 s SP2 Hs Hp Hl) as (c3 & E3 & SP3 & A0 & A1 & A19 & W1 & W2 & M3 & D3 & _).
  assert (effects (take 10 (entry_text callback)) c = Some c3) as Ec.
  { change (take 10 (entry_text callback)) with ([Ldr 22 SP (Post 16); Ldr 23 SP (Post 16)] ++ [Mov 16 SP; AndI 16 16 0xFFFFFFFFFFFFFFF0; Mov SP 16] ++
      [Stp 22 23 SP (Pre (-16)); Stp 29 30 SP (Pre (-16)); Mov 29 SP; Mov 0 20; Mov 1 21]).
    rewrite !effects_app, E1. cbn [mbind option_bind]. rewrite effects_app, E2. done. }
  change 11%nat with (10 + 1)%nat. rewrite run_text_add.
  assert (runs 10 c = Some (set_pc c3 (base + 4 * Z.of_nat 27))) as ->.
  { apply (run_block base callback (take 10 (entry_text callback)) 17); [done|by eexists|done]. }
  cbn [mbind option_bind run]. unfold step. cbn [set_pc pc]. rewrite fetch_at. cbn [mbind option_bind lookup text switch_text entry_text app list_lookup].
  assert (forall r, r = 19 \/ r = 20 \/ r = 21 -> ld (xr c2) r = ld (xr c) r) as Hr by (intros r Hr; rewrite X2, X1 by lia; done).
  eexists. split; [reflexivity|]. cbn [set_pc set_x pc xr cmem dr]. split_and!.
  - rewrite A19. auto.
  - rewrite ld_st_ne by lia. rewrite A0. auto.
  - rewrite ld_st_ne by lia. rewrite A1. auto.
  - rewrite ld_st_eq. unfold after_entry. lia.
  - rewrite ld_st_ne by lia. done.
  - rewrite W1, X2, P1 by lia. done.
  - rewrite W2, X2, Q1 by lia. done.
  - by rewrite M2, M1 in M3.
  - congruence.
Qed.

(** What the code does after the entry function has returned: it calls
    [task_completed_callback] with the two contexts of the frame. *)
Lemma entry_return_ok (c : cpu) (s : Z) : pc c = after_entry -> ld (xr c) SP = s -> s mod 16 = 0 -> 0 < s -> s + 32 < 2 ^ 64 ->
  exists c', runs 6 c = Some c' /\ pc c' = callback /\ ld (xr c') 0 = ld (cmem c) (s + 24) /\ ld (xr c') 1 = ld (cmem c) (s + 16) /\
    ld (xr c') SP = s + 32 /\ cmem c' = cmem c /\ dr c' = dr c.
Proof.
  intros Hpc E Hs Hp Hl.
  assert (exists c1, effects [Ldp 29 30 SP (Post 16); Ldp 0 1 SP (Post 16); Mov 16 0; Mov 0 1; Mov 1 16] c = Some c1 /\
    ld (xr c1) 0 = ld (cmem c) (s + 24) /\ ld (xr c1) 1 = ld (cmem c) (s + 16) /\ ld (xr c1) SP = s + 32 /\ cmem c1 = cmem c /\ dr c1 = dr c)
    as (c1 & E1 & A0 & A1 & SP1 & M1 & D1).
  { cbn [effects effect]. rewrite (access_post c s 16) by (done || unfold in_uint; lia). cbn [mbind option_bind].
    rewrite (access_post _ (s + 16) 16); [| by regs | by apply mod_add_0 | unfold in_uint; lia]. cbn [mbind option_bind].
    rewrite !uwrap_small by (unfold in_uint; lia). eexists. split; [reflexivity|]. split_and!; try done; regs; try done; [f_equal; lia|lia]. }
  change 6%nat with (5 + 1)%nat. rewrite run_text_add.
  assert (runs 5 c = Some (set_pc c1 (base + 4 * Z.of_nat 33))) as ->.
  { apply (run_block base callback [Ldp 29 30 SP (Post 16); Ldp 0 1 SP (Post 16); Mov 16 0; Mov 0 1; Mov 1 16] 28); [done|by eexists|done]. }
  cbn [mbind option_bind run]. unfold step. cbn [set_pc pc]. rewrite fetch_at. cbn [mbind option_bind lookup text switch_text entry_text app list_lookup].
  eexists. split; [reflexivity|]. cbn [set_pc set_x pc xr cmem dr]. rewrite !ld_st_ne by lia. done.
Qed.
End entry.

(** * Switching contexts on macOS *)

Section thms.
Context (base callback : Z).

(** C21: a context switch on macOS is undone by switching back.  When a task
    has called [platform_ctx_switch] on its context [A], and later some
    context [C] switches to [A], whose registers nobody has written in the
    meantime, the 17 instructions run without a fault and the task goes on at
    the return address of its call, with [x19] to [x30] and the stack
    pointer as they were.  No other memory is written than the registers of
    the context that is left.  The floating-point registers are those of the
    context that was left: they are not part of a context. *)
Theorem ctx_switch_roundtrip (c : cpu) (A B : Z) : calls_switch base c A B -> apart A sizeof_ctx B sizeof_ctx ->
  exists c1, run base callback 17 c = Some c1 /\ pc c1 = ld (cmem c) (B + 88) /\ saved (cmem c) B (xr c1) /\
    only_differ (fun a => A <= a < A + sizeof_registers) (cmem c) (cmem c1) /\
    forall c2 C, calls_switch base c2 C A -> apart C sizeof_ctx A sizeof_ctx -> kept A (cmem c1) (cmem c2) ->
      exists c3, run base callback 17 c2 = Some c3 /\ pc c3 = ld (xr c) 30 /\ (forall i, 19 <= i <= 31 -> ld (xr c3) i = ld (xr c) i) /\
        only_differ (fun a => C <= a < C + sizeof_registers) (cmem c2) (cmem c3) /\ dr c3 = dr c2.
Proof.
  intros Hc Hd. destruct (ctx_switch_ok base callback c A B Hc Hd) as (c1 & E1 & Hs). pose proof Hs as (Hpc & HB & _ & HF & _).
  exists c1. do 4 (split; [done|]). intros c2 C Hc2 Hd2 HK.
  destruct (resumed_ok base callback c c1 c2 A B C Hs HK Hc2 Hd2) as (c3 & E3 & (_ & _ & _ & HF3 & _ & HD3) & Hpc3 & Hr). eauto 10.
Qed.

(** C22: the life of a context on macOS.  After [platform_ctx_make], the first
    switch to the context [T] calls the entry function with its two
    arguments, on an aligned stack pointer that leaves 128 bytes of the
    task's own stack above it.  If the function returns as the calling
    convention asks (its frame and the stack pointer as it found them), the
    code calls [task_completed_callback] with the task's context and its back
    link, which switches to the scheduler; and the scheduler goes on
    behind the switch that started the task, with its own registers. *)
Theorem task_context_lifecycle (c : cpu) (m m' : mem) (S T entry a b stack size : Z) :
  ctx_make (_platform_ctx_entry base) m T entry a b stack size S = (0, m') ->
  calls_switch base c S T -> apart S sizeof_ctx T sizeof_ctx ->
  stack_at stack size -> apart T sizeof_ctx stack size -> apart S sizeof_ctx stack size ->
  (forall x, T <= x < T + sizeof_ctx \/ stack <= x < stack + size -> ld (cmem c) x = ld m' x) ->
  exists c1, run base callback 28 c = Some c1 /\ pc c1 = entry /\ ld (xr c1) 0 = a /\ ld (xr c1) 1 = b /\
    ld (xr c1) SP mod 16 = 0 /\ stack <= ld (xr c1) SP /\ ld (xr c1) SP + 160 <= stack + size /\
    forall c2, pc c2 = ld (xr c1) 30 -> ld (xr c2) SP = ld (xr c1) SP -> kept S (cmem c1) (cmem c2) ->
      (forall x, ld (xr c1) SP <= x < ld (xr c1) SP + 32 -> ld (cmem c2) x = ld (cmem c1) x) ->
      exists c3, run base callback 6 c2 = Some c3 /\ pc c3 = callback /\ ld (xr c3) 0 = T /\ ld (xr c3) 1 = S /\
        task_completed_callback T S = Switches T S /\
        forall c4, calls_switch base c4 T S -> kept S (cmem c3) (cmem c4) ->
          exists c5, run base callback 17 c4 = Some c5 /\ pc c5 = ld (xr c) 30 /\ forall i, 19 <= i <= 31 -> ld (xr c5) i = ld (xr c) i.
Proof.
  intros Em Hc Hd Hst HT HS Hm. pose proof Hc as (_ & _ & _ & HcS & HcT). pose proof (fresh_sp_bounds stack size Hst) as [Hs1 Hs2].
  pose proof (fresh_sp_aligned stack size) as Hal. set (s := fresh_sp stack size) in *. pose proof Hst as (Hst1 & _ & Hst2).
  destruct (ctx_make_ok (_platform_ctx_entry base) m T entry a b stack size S HcT Hst HT) as (m2 & Em2 & Hregs & Hsp & _ & _ & _ & Hw1 & Hw2 & _).
  rewrite Em in Em2. injection Em2 as <-. fold s in Hsp, Hw1, Hw2. destruct HcT as (HT0 & _ & _). pose proof HcS as (HS0 & _ & _).
  destruct (ctx_switch_ok base callback c S T Hc Hd) as (c0 & E0 & Hsw). pose proof Hsw as (Hpc0 & [HX HSP] & _ & HF0 & _).
  unfold apart, sizeof_ctx, sizeof_registers, o_ctx_sp in *.
  assert (forall i, 19 <= i <= 30 -> ld (xr c0) i = fresh_regs entry a b (_platform_ctx_entry base) i) as HX'.
  { intros i Hi. rewrite <- HX, Hm, Hregs by lia. done. }
  assert (ld (xr c0) SP = s) as HSP' by (rewrite <- HSP, Hm, Hsp by lia; done).
  destruct (entry_call_ok base callback c0 s) as (c1 & E1 & Hpc1 & A0 & A1 & A30 & ASP & W1 & W2 & HF1 & _); [|done|done|lia|lia|].
  { rewrite Hpc0, Hm by lia. change 88 with (8 * (30 - 19)). by rewrite Hregs by lia. }
  exists c1. change 28%nat with (17 + 11)%nat. rewrite run_text_add, E0. cbn [mbind option_bind]. split; [done|].
  rewrite Hpc1, A0, A1, ASP, !HX' by lia. do 4 (split; [done|]). split; [lia|]. split; [lia|].
  intros c2 Hpc2 HSP2 HK2 Hfr. rewrite A30 in Hpc2. 
  destruct (entry_return_ok base callback c2 s) as (c3 & E3 & Hpc3 & B0 & B1 & _ & M3 & _); [done|done|done|lia|lia|].
  exists c3. split; [done|]. split; [done|]. rewrite B0, B1, !Hfr, W1, W2, !HF0, !Hm by lia. split; [done|]. split; [done|].
  split. { unfold task_completed_callback. rewrite (proj2 (Z.eqb_neq S _)) by lia. done. }
  intros c4 Hc4 HK4. destruct (resumed_ok base callback c c0 c4 S T T Hsw) as (c5 & E5 & _ & Hpc5 & Hr5); [|done|unfold apart, sizeof_ctx; lia|eauto].
  intros x Hx. rewrite HK4, M3, HK2, HF1 by (unfold sizeof_registers in *; lia). done.
Qed.

(** C23: a suspended task keeps alive what it held in its registers.  After
    a task with its stack pointer in its stack has switched away, the
    accessors of context.c give the collector its callee-saved registers,
    its stack pointer and the address it goes on at; each of them is a word
    the collector marks from. *)
Theorem suspended_registers_are_roots (c : cpu) (A B : Z) : calls_switch base c A B -> apart A sizeof_ctx B sizeof_ctx ->
  ctx_get_stack_base (cmem c) A <= ld (xr c) SP <= ctx_get_stack_base (cmem c) A + ctx_get_stack_size (cmem c) A ->
  exists c1, run base callback 17 c = Some c1 /\ platform_ctx_get_pc (ctx_view (cmem c1) A) = ld (xr c) 30 /\
    platform_ctx_get_stack_pointer (ctx_view (cmem c1) A) = ld (xr c) SP /\
    forall i, 19 <= i <= 31 -> ctx_get_reg (cmem c1) A i = ld (xr c) i /\ ctx_word (cmem c1) (ctx_view (cmem c1) A) (ld (xr c) i).
Proof.
  intros Hc Hd Hsp. destruct (ctx_switch_ok base callback c A B Hc Hd) as (c1 & E1 & (_ & _ & [HA HSP] & HF & _)). exists c1. split; [done|].
  unfold ctx_view, ctx_word, ctx_get_stack_base, ctx_get_stack_size, ctx_get_stack_pointer, ctx_get_pc, ctx_get_reg, platform_ctx_get_pc,
    platform_ctx_get_stack_pointer, o_ctx_regs, o_ctx_stack, o_ctx_stack_size, o_ctx_sp, sizeof_registers in *. cbn [ss_sp ss_size mc_sp mc_pc mc_regs].
  rewrite (HF (A + 104)), (HF (A + 112)), HSP, !Z.add_0_r by lia. split; [by apply (HA 30)|]. split; [done|]. intros i Hi.
  destruct (decide (i = 31)) as [->|]; [cbn [Z.leb Z.compare andb Z.eqb]; eauto 6|].
  assert ((19 <=? i) && (i <=? 30) = true) as Ei by (rewrite andb_true_iff, !Z.leb_le; lia). rewrite Ei, HA by lia. split; [done|]. split; [done|].
  right. left. exists i. split; [lia|]. by rewrite Ei, HA by lia.
Qed.
End thms.

(** ** A context and its accessors *)

(** [platform_ctx_make] refuses null pointers and changes nothing then;
    otherwise the accessors give back the stack, and the stack pointer
    leaves room for a frame. *)
Theorem ctx_make_spec (lr : Z) (m : mem) (ctx entry a b stack size link : Z) :
  (ctx = NULL \/ stack = NULL -> ctx_make lr m ctx entry a b stack size link = (-1, m)) /\
  (ctx_at ctx -> stack_at stack size -> apart ctx sizeof_ctx stack size ->
   exists m', ctx_make lr m ctx entry a b stack size link = (0, m') /\ ctx_get_stack_base m' ctx = stack /\ ctx_get_stack_size m' ctx = size /\
     ctx_get_pc m' ctx = lr /\ stack <= ctx_get_stack_pointer m' ctx <= stack + size - 160 /\ ctx_get_stack_pointer m' ctx mod 16 = 0 /\
     forall i, 0 <= i <= 30 -> ctx_get_reg m' ctx i = fresh_regs entry a b lr i).
Proof.
  split.
  - intros [-> | ->]; unfold ctx_make; cbn [Z.eqb orb]; [done|]. by rewrite orb_true_r.
  - intros Hc Hst Hd. pose proof (fresh_sp_bounds stack size Hst) as [Hs1 Hs2].
    destruct (ctx_make_ok lr m ctx entry a b stack size link Hc Hst Hd) as (m' & E & Hr & Hsp & Hb & Hz & _). exists m'.
    unfold ctx_get_stack_base, ctx_get_stack_size, ctx_get_stack_pointer, ctx_get_pc, ctx_get_reg, o_ctx_regs. rewrite Hb, Hz, Hsp, !Z.add_0_r.
    destruct Hst as (H1 & H2 & H3). rewrite swrap_small by (unfold in_sint; lia). do 3 (split; [done|]). split; [by apply (Hr 30)|]. split; [lia|].
    split; [apply fresh_sp_aligned|]. intros i Hi. zcases; cbn [andb]; try (rewrite Hr by lia; done); unfold fresh_regs; zcases; lia || done.
Qed.

(** ** Instances *)

(** A scheduler context at 65536, a task at 66560 with its stack at
    131072, and the text at 4096. *)
Definition demo_mem : mem := (ctx_make (_platform_ctx_entry 4096) ∅ 66560 500 7 8 131072 65536 65536).2.
Definition demo_call (from to ret sp : Z) (m : mem) : cpu := Cpu (st (st (st (st ∅ 0 from) 1 to) 30 ret) SP sp) ∅ 4096 m.

Lemma demo_calls (from to ret sp : Z) (m : mem) : ctx_at from -> ctx_at to -> calls_switch 4096 (demo_call from to ret sp m) from to.
Proof. intros Hf Ht. unfold calls_switch, demo_call. cbn [pc xr]. ld_steps. done. Qed.

Lemma ctx_switch_roundtrip_witness : exists c1 c3, run 4096 9000 17 (demo_call 65536 66560 777 0 demo_mem) = Some c1 /\
  run 4096 9000 17 (demo_call 66560 65536 888 0 (cmem c1)) = Some c3 /\ pc c3 = 777.
Proof.
  assert (ctx_at 65536 /\ ctx_at 66560 /\ apart 66560 sizeof_ctx 65536 sizeof_ctx) as (H1 & H2 & H3) by (split_and!; [done|done|by right]).
  destruct (ctx_switch_roundtrip 4096 9000 (demo_call 65536 66560 777 0 demo_mem) 65536 66560) as (c1 & E1 & _ & _ & _ & H).
  - by apply demo_calls.
  - left. done.
  - destruct (H (demo_call 66560 65536 888 0 (cmem c1)) 66560) as (c3 & E3 & Hpc & _); [apply demo_calls; assumption|assumption|intros a _; reflexivity|].
    exists c1, c3. split; [exact E1|]. split; [exact E3|]. rewrite Hpc. unfold demo_call. cbn [xr]. ld_steps. reflexivity.
Defined.

Lemma task_context_lifecycle_witness : exists c1, run 4096 9000 28 (demo_call 65536 66560 777 0 demo_mem) = Some c1 /\
  pc c1 = 500 /\ ld (xr c1) 0 = 7 /\ ld (xr c1) 1 = 8.
Proof.
  destruct (task_context_lifecycle 4096 9000 (demo_call 65536 66560 777 0 demo_mem) ∅ demo_mem 65536 66560 500 7 8 131072 65536) as (c1 & E & Hpc & H0 & H1 & _).
  - reflexivity.
  - by apply demo_calls.
  - left. done.
  - done.
  - left. done.
  - left. done.
  - done.
  - exists c1. split; [exact E|]. split; [exact Hpc|]. split; [exact H0|exact H1].
Defined.

Lemma suspended_registers_are_roots_witness : exists c1, run 4096 9000 17 (demo_call 66560 65536 777 140000 demo_mem) = Some c1 /\
  ctx_word (cmem c1) (ctx_view (cmem c1) 66560) 777.
Proof.
  destruct (suspended_registers_are_roots 4096 9000 (demo_call 66560 65536 777 140000 demo_mem) 66560 65536) as (c1 & E & _ & _ & H).
  - by apply demo_calls.
  - right. done.
  - vm_compute. split; discriminate.
  - exists c1. split; [exact E|]. destruct (H 30) as [_ Hw]; [lia|]. exact Hw.
Defined.
