(* ===== verification/Kqueue.v ===== *)
(** * Kqueue: the poller on macOS (platform/darwin/kqueue.c)

    The same interface as the epoll poller of Netio.v.  A registration
    belongs to a descriptor and a filter; the kernel's queue is a
    parameter. *)

From S2P Require Import Prelude Netio.

(** ** Constants of <sys/event.h> *)
Definition EVFILT_READ : Z := -1.
Definition EVFILT_WRITE : Z := -2.
Definition EV_ADD : Z := 1.
Definition EV_DELETE : Z := 2.
Definition EV_ENABLE : Z := 4.
Definition EV_ONESHOT : Z := 16.
Definition EV_ERROR : Z := 2 ^ 14.
Definition EV_EOF : Z := 2 ^ 15.

(** [struct kevent], without the fields that are always zero here. *)
Record kevent_t := Kev { k_ident : Z; k_filter : Z; k_flags : Z; k_udata : Z }.

(** [struct timespec]. *)
Record timespec := Timespec { tv_sec : Z; tv_nsec : Z }.

(** [netpoll_event_t]. *)
Record netpoll_event := NEvent { ne_fd : Z; ne_events : Z; ne_ud : Z }.

(** The calls of the kernel: [kqueue], [close], and the two uses of
    [kevent], with a list of changes and no room for events, and with room
    for events and no changes.  The result of the second one is -1, or the
    number of events with the events. *)
Class Kernel (K : Type) := {
  sys_kqueue : K -> Z * K;
  sys_close : K -> Z -> K;
  kevent_change : K -> Z -> list kevent_t -> Z * K;
  kevent_wait : K -> Z -> Z -> option timespec -> Z * list kevent_t * K
}.

Section kqueue.
Context `{Kernel K}.

Definition add_event (k : K) (kq fd filter flags ud : Z) : Z * K := kevent_change k kq [Kev fd filter flags ud].

Definition from_kqueue_events (kev : kevent_t) : Z :=
  let ev := 0 in
  let ev := if k_filter kev =? EVFILT_READ then Z.lor ev NETPOLL_IN else ev in
  let ev := if k_filter kev =? EVFILT_WRITE then Z.lor ev NETPOLL_OUT else ev in
  let ev := or_if (Z.land (k_flags kev) EV_EOF) NETPOLL_HUP ev in
  or_if (Z.land (k_flags kev) EV_ERROR) NETPOLL_ERR ev.

Definition to_kqueue_flags (events : Z) : Z :=
  or_if (Z.land events NETPOLL_ONESHOT) EV_ONESHOT (Z.lor EV_ADD EV_ENABLE).

(** [Some kq] is a [netpoll_t] with that descriptor, [None] is [NULL];
    [mem] says whether [calloc] finds memory. *)
Definition kq_create (mem : bool) (k : K) : option Z * K :=
  if negb mem then (None, k)
  else
    let '(kq, k) := sys_kqueue k in
    if kq <? 0 then (None, k) else (Some kq, k).

Definition kq_destroy (p : option Z) (k : K) : K :=
  match p with None => k | Some kq => sys_close k kq end.

Definition kq_add (k : K) (kq fd events ud : Z) : Z * K :=
  let flags := to_kqueue_flags events in
  let '(r, k) := if truthy (Z.land events NETPOLL_IN) then add_event k kq fd EVFILT_READ flags ud else (0, k) in
  if r <? 0 then (-1, k)
  else
    let '(r, k) := if truthy (Z.land events NETPOLL_OUT) then add_event k kq fd EVFILT_WRITE flags ud else (0, k) in
    if r <? 0 then (-1, k) else (0, k).

Definition kq_del (k : K) (kq fd : Z) : Z * K :=
  (0, (kevent_change k kq [Kev fd EVFILT_READ EV_DELETE 0; Kev fd EVFILT_WRITE EV_DELETE 0]).2).

Definition kq_mod (k : K) (kq fd events ud : Z) : Z * K :=
  let '(_, k) := kq_del k kq fd in kq_add k kq fd events ud.

Definition KEV_SIZE : Z := 128.

(** C's division and remainder round towards zero. *)
Definition wait_timeout (timeout_ms : Z) : option timespec :=
  if 0 <=? timeout_ms then Some (Timespec (Z.quot timeout_ms 1000) (Z.rem timeout_ms 1000 * 1000000)) else None.

Definition to_event (kev : kevent_t) : netpoll_event := NEvent (swrap 32 (k_ident kev)) (from_kqueue_events kev) (k_udata kev).

(** [room] is the length of the array [out]; writing past it is [None]. *)
Definition kq_wait (room : Z) (k : K) (kq max_events timeout_ms : Z) : option (Z * list netpoll_event * K) :=
  let max_events := if KEV_SIZE <? max_events then KEV_SIZE else max_events in
  let '(n, kev, k) := kevent_wait k kq max_events (wait_timeout timeout_ms) in
  if n <=? 0 then Some (n, [], k)
  else c_assert (n <=? room) ;; Some (n, to_event <$> take (Z.to_nat n) kev, k).
End kqueue.

(** * What the macOS poller registers and reports *)

(** The documented behaviour of [kevent]: a change with [EV_ADD] registers
    the filter or changes its registration, or fails; [EV_DELETE] removes a
    registration and fails if there is none; with no room for events a list
    of changes stops at the first failure; the events are those of
    registered filters, not more than there is room for, and a one-shot
    registration is gone when its event is delivered. *)
Class KernelLaws (K : Type) `{Kernel K} := {
  kreg : K -> Z -> Z -> Z -> option (Z * Z);
  change_add : forall k kq fd f fl ud, Z.testbit fl 0 = true ->
    let '(r, k') := kevent_change k kq [Kev fd f fl ud] in
    r = 0 /\ (forall q x g, kreg k' q x g = if decide (q = kq /\ x = fd /\ g = f) then Some (fl, ud) else kreg k q x g) \/
    r = -1 /\ k' = k;
  change_delete : forall k kq fd f ud,
    let '(r, k') := kevent_change k kq [Kev fd f EV_DELETE ud] in
    match kreg k kq fd f with
    | None => r = -1 /\ k' = k
    | Some _ => r = 0 /\ forall q x g, kreg k' q x g = if decide (q = kq /\ x = fd /\ g = f) then None else kreg k q x g
    end;
  change_list : forall k kq c cs, cs <> [] ->
    kevent_change k kq (c :: cs) =
      let '(r, k') := kevent_change k kq [c] in if r <? 0 then (-1, k') else kevent_change k' kq cs;
  wait_events : forall k kq max ts,
    let '(n, evs, k') := kevent_wait k kq max ts in
    (n = -1 \/ 0 <= n <= Z.max 0 max /\ length evs = Z.to_nat n) /\
    (forall ev, ev ∈ evs -> exists fl, kreg k kq (k_ident ev) (k_filter ev) = Some (fl, k_udata ev) /\
       (Z.testbit fl 4 = true -> kreg k' kq (k_ident ev) (k_filter ev) = None)) /\
    (forall q x f, (forall ev, ev ∈ evs -> ~ (q = kq /\ x = k_ident ev /\ f = k_filter ev)) -> kreg k' q x f = kreg k q x f)
}.

(** The filters a set of flags asks for. *)
Definition wants (events f : Z) : bool :=
  (f =? EVFILT_READ) && truthy (Z.land events NETPOLL_IN) || (f =? EVFILT_WRITE) && truthy (Z.land events NETPOLL_OUT).

Lemma wants_iff (events f : Z) : wants events f = true <->
  f = EVFILT_READ /\ truthy (Z.land events NETPOLL_IN) = true \/ f = EVFILT_WRITE /\ truthy (Z.land events NETPOLL_OUT) = true.
Proof. unfold wants. rewrite orb_true_iff, !andb_true_iff, !Z.eqb_eq. done. Qed.

Ltac split_decide := repeat match goal with |- context [decide ?P] => destruct (decide P) end.

Section thms.
Context `{KernelLaws K}.

Lemma kqueue_flags_add (events : Z) : Z.testbit (to_kqueue_flags events) 0 = true.
Proof. unfold to_kqueue_flags, or_if. destruct (truthy _); reflexivity. Qed.

(** Registering one filter, if it is asked for. *)
Lemma add_one (k : K) (kq fd f events ud : Z) (b : bool) :
  exists r k', (if b then add_event k kq fd f (to_kqueue_flags events) ud else (0, k)) = (r, k') /\
    (r = 0 /\ (forall q x g, kreg k' q x g = if decide (q = kq /\ x = fd /\ g = f /\ b = true) then Some (to_kqueue_flags events, ud) else kreg k q x g) \/
     r = -1 /\ b = true /\ k' = k).
Proof.
  destruct b.
  - unfold add_event. pose proof (change_add k kq fd f (to_kqueue_flags events) ud (kqueue_flags_add events)) as Hc.
    destruct (kevent_change _ _ _) as [r k']. exists r, k'. split; [done|]. destruct Hc as [[-> Hr]|[-> ->]]; [left|by right]. split; [done|].
    intros q x g. rewrite Hr. do 2 case_decide; naive_solver.
  - exists 0, k. split; [done|]. left. split; [done|]. intros q x g. case_decide; naive_solver.
Qed.

(** The flags of an event say which filter it comes from. *)
Lemma events_bits (ev : kevent_t) :
  Z.testbit (from_kqueue_events ev) 0 = (k_filter ev =? EVFILT_READ) /\ Z.testbit (from_kqueue_events ev) 1 = (k_filter ev =? EVFILT_WRITE).
Proof.
  unfold from_kqueue_events, or_if, EVFILT_READ, EVFILT_WRITE. destruct (truthy (Z.land _ EV_EOF)), (truthy (Z.land _ EV_ERROR)); zcases; done || lia.
Qed.

(** [netpoll_add] registers the filters asked for with the task and leaves
    the others alone; when it fails, it may have registered the filter for
    reading. *)
Lemma kq_add_ok (k : K) (kq fd events ud : Z) :
  exists r k', kq_add k kq fd events ud = (r, k') /\
    (r = 0 /\ (forall q x g, kreg k' q x g = if decide (q = kq /\ x = fd /\ wants events g = true) then Some (to_kqueue_flags events, ud) else kreg k q x g) \/
     r = -1 /\ events <> 0 /\ forall q x g, ~ (q = kq /\ x = fd /\ g = EVFILT_READ /\ wants events g = true) -> kreg k' q x g = kreg k q x g).
Proof.
  unfold kq_add. assert (forall b, truthy (Z.land events b) = true -> events <> 0) as Hnz by (intros b Hb ->; by rewrite Z.land_0_l in Hb).
  destruct (add_one k kq fd EVFILT_READ events ud (truthy (Z.land events NETPOLL_IN))) as (r1 & k1 & -> & [[-> H1]|(-> & Hb & ->)]).
  - cbn [Z.ltb Z.compare]. destruct (add_one k1 kq fd EVFILT_WRITE events ud (truthy (Z.land events NETPOLL_OUT))) as (r2 & k2 & -> & [[-> H2]|(-> & Hb & ->)]).
    + exists 0, k2. split; [done|]. left. split; [done|]. intros q x g. rewrite H2, H1. pose proof (wants_iff events g) as Hw.
      repeat case_decide; destruct_and?; destruct_or?; destruct_and?; subst; tauto || congruence.
    + exists (-1), k1. split; [done|]. right. split; [done|]. split; [by eapply Hnz|]. intros q x g Hn. rewrite H1, decide_False; [done|].
      intros (-> & -> & -> & Hd). apply Hn. unfold wants. rewrite Hd. done.
  - exists (-1), k. split; [done|]. right. split; [done|]. split; [by eapply Hnz|done].
Qed.

(** [netpoll_del] reports success always, but removes the registrations only
    if the descriptor is registered for reading. *)
Lemma kq_del_ok (k : K) (kq fd : Z) : exists k', kq_del k kq fd = (0, k') /\
  forall q x g, kreg k' q x g =
    if decide (q = kq /\ x = fd /\ (g = EVFILT_READ \/ g = EVFILT_WRITE) /\ kreg k kq fd EVFILT_READ <> None) then None else kreg k q x g.
Proof.
  unfold kq_del. rewrite change_list by done. pose proof (change_delete k kq fd EVFILT_READ 0) as H1. destruct (kevent_change k kq [_]) as [r1 k1].
  destruct (kreg k kq fd EVFILT_READ) as [v|] eqn:Er.
  - destruct H1 as [-> H1]. cbn [Z.ltb Z.compare]. pose proof (change_delete k1 kq fd EVFILT_WRITE 0) as H2. destruct (kevent_change k1 kq [_]) as [r2 k2].
    exists k2. split; [done|]. intros q x g.
    assert (kreg k2 q x g = if decide (q = kq /\ x = fd /\ g = EVFILT_WRITE) then None else kreg k1 q x g) as ->.
    { destruct (kreg k1 kq fd EVFILT_WRITE) as [v'|] eqn:Ew; destruct H2 as [_ H2]; [by rewrite H2|]. subst k2. split_decide; naive_solver. }
    rewrite H1. split_decide; naive_solver.
  - destruct H1 as [-> ->]. exists k. split; [done|]. intros q x g. rewrite decide_False by naive_solver. done.
Qed.

(** C31: [netpoll_mod] on macOS removes and adds.  When it succeeds, the
    filters asked for are registered with the new task and nothing else of
    the queue has changed, except that the other filter of the descriptor is
    gone if the descriptor was registered for reading.  If it was not, the
    list of deletions stops at its first element, and a registration for
    writing that is not asked for stays with its old task. *)
Theorem kq_mod_spec (k : K) (kq fd events ud : Z) : exists r k', kq_mod k kq fd events ud = (r, k') /\ (r = 0 \/ r = -1 /\ events <> 0) /\
  (forall q x g, ~ (q = kq /\ x = fd /\ (g = EVFILT_READ \/ g = EVFILT_WRITE)) -> kreg k' q x g = kreg k q x g) /\
  (r = 0 -> forall g, g = EVFILT_READ \/ g = EVFILT_WRITE -> kreg k' kq fd g =
     if wants events g then Some (to_kqueue_flags events, ud)
     else match kreg k kq fd EVFILT_READ with None => kreg k kq fd g | Some _ => None end).
Proof.
  unfold kq_mod. destruct (kq_del_ok k kq fd) as (k1 & -> & H1).
  destruct (kq_add_ok k1 kq fd events ud) as (r & k' & E & Hr). exists r, k'. split; [done|].
  destruct Hr as [[-> H2]|(-> & Hnz & H2)].
  - split; [by left|]. split.
    + intros q x g Hn. pose proof (wants_iff events g). rewrite H2, H1, !decide_False by naive_solver. done.
    + intros _ g Hg. rewrite H2. destruct (wants events g) eqn:Ew; [by rewrite decide_True|]. rewrite decide_False by naive_solver. rewrite H1.
      destruct (kreg k kq fd EVFILT_READ) as [v|]; [by rewrite decide_True|]. rewrite decide_False by naive_solver. done.
  - split; [by right|]. split; [|done]. intros q x g Hn. rewrite H2, H1, decide_False by naive_solver. done.
Qed.

(** A task that waits for writing is not forgotten when another task polls
    the descriptor for reading: its registration, with its own user data,
    survives [netpoll_mod] and [netpoll_del]. *)
Theorem kq_write_survives (k : K) (kq fd ud ud' fl : Z) :
  kreg k kq fd EVFILT_READ = None -> kreg k kq fd EVFILT_WRITE = Some (fl, ud) ->
  kreg (kq_del k kq fd).2 kq fd EVFILT_WRITE = Some (fl, ud) /\
  kreg (kq_mod k kq fd (Z.lor NETPOLL_IN NETPOLL_ONESHOT) ud').2 kq fd EVFILT_WRITE = Some (fl, ud).
Proof.
  intros Hr Hw. destruct (kq_del_ok k kq fd) as (k1 & E1 & H1). unfold kq_mod. rewrite E1. cbn [snd].
  assert (kreg k1 kq fd EVFILT_WRITE = Some (fl, ud)) as Hw1 by (rewrite H1, Hr, decide_False by naive_solver; done). split; [done|].
  destruct (kq_add_ok k1 kq fd (Z.lor NETPOLL_IN NETPOLL_ONESHOT) ud') as (r & k' & -> & [[_ H2]|(_ & _ & H2)]); cbn [snd].
  - rewrite H2, decide_False; [done|]. intros (_ & _ & Hf). by vm_compute in Hf.
  - rewrite H2; [done|]. intros (_ & _ & Hf & _). done.
Qed.

(** C32: [netpoll_wait] on macOS stays within its arrays and reports what was
    registered.  It returns -1 or at most [max_events] and at most 128
    events; each of them carries the user data a filter of a descriptor of
    this queue was registered with, and says readable or writable according
    to that filter.  The timeout it hands to the kernel is exactly
    [timeout_ms] milliseconds in normal form, and none for a negative
    one. *)
Theorem kq_wait_spec (k : K) (room kq max_events timeout_ms : Z) : 0 <= max_events <= room ->
  (exists n out k', kq_wait room k kq max_events timeout_ms = Some (n, out, k') /\ (n = -1 /\ out = [] \/ 0 <= n <= Z.min max_events 128 /\ length out = Z.to_nat n) /\
     forall e, e ∈ out -> exists fd f fl, kreg k kq fd f = Some (fl, ne_ud e) /\ ne_fd e = swrap 32 fd /\
       Z.testbit (ne_events e) 0 = (f =? EVFILT_READ) /\ Z.testbit (ne_events e) 1 = (f =? EVFILT_WRITE)) /\
  (0 <= timeout_ms -> exists ts, wait_timeout timeout_ms = Some ts /\ 0 <= tv_nsec ts < 10 ^ 9 /\
     tv_sec ts * 10 ^ 9 + tv_nsec ts = timeout_ms * 10 ^ 6) /\
  (timeout_ms < 0 -> wait_timeout timeout_ms = None).
Proof.
  intros Hm. split; [|split].
  - unfold kq_wait. set (mx := if KEV_SIZE <? max_events then KEV_SIZE else max_events).
    assert (mx = Z.min max_events 128) as Emx by (unfold mx, KEV_SIZE; zcases; lia).
    pose proof (wait_events k kq mx (wait_timeout timeout_ms)) as Hw. destruct (kevent_wait _ _ _ _) as [[n evs] k'].
    destruct Hw as (Hn & He & _). destruct (Z.leb_spec n 0) as [Hle|Hlt].
    + exists n, [], k'. split; [done|]. split; [|by intros e He'%elem_of_nil]. destruct Hn as [->|[Hn _]]; [by left|right]. split; [lia|].
      assert (n = 0) as -> by lia. done.
    + destruct Hn as [->|[Hn Hl]]; [lia|]. rewrite (proj2 (Z.leb_le n room)) by lia. cbn [c_assert mbind option_bind].
      exists n, (to_event <$> take (Z.to_nat n) evs), k'. split; [done|]. rewrite take_ge by lia. split; [right; rewrite length_fmap; lia|].
      intros e (ev & -> & Hev)%list_elem_of_fmap. destruct (He ev Hev) as (fl & Hreg & _). exists (k_ident ev), (k_filter ev), fl.
      split; [done|]. split; [done|]. apply events_bits.
  - intros Ht. unfold wait_timeout. rewrite (proj2 (Z.leb_le 0 timeout_ms)) by lia. eexists. split; [done|]. cbn [tv_sec tv_nsec].
    rewrite Z.quot_div_nonneg, Z.rem_mod_nonneg by lia. pose proof (Z.div_mod timeout_ms 1000). pose proof (Z.mod_pos_bound timeout_ms 1000). lia.
  - intros Ht. unfold wait_timeout. by rewrite (proj2 (Z.leb_gt 0 timeout_ms)) by lia.
Qed.
End thms.

(** ** Instances *)

(** A kernel that keeps its registrations in a map and delivers the events of
    one filter per call. *)
Abbreviation kmap := (gmap (Z * Z * Z) (Z * Z)).

Definition kmap_one (m : kmap) (kq : Z) (c : kevent_t) : Z * kmap :=
  let key := (kq, k_ident c, k_filter c) in
  if k_flags c =? EV_DELETE then match m !! key with None => (-1, m) | Some _ => (0, delete key m) end
  else (0, <[key := (k_flags c, k_udata c)]> m).

Fixpoint kmap_change (m : kmap) (kq : Z) (cs : list kevent_t) : Z * kmap :=
  match cs with
  | [] => (0, m)
  | c :: cs => let '(r, m) := kmap_one m kq c in if r <? 0 then (-1, m) else kmap_change m kq cs
  end.

Definition kmap_wait (m : kmap) (kq max : Z) : Z * list kevent_t * kmap :=
  match filter (fun kv => kv.1.1.1 = kq) (map_to_list m) with
  | (q, x, f, (fl, ud)) :: _ =>
      if 0 <? max then (1, [Kev x f 0 ud], if Z.testbit fl 4 then delete (q, x, f) m else m) else (0, [], m)
  | [] => (0, [], m)
  end.

#[export] Instance kmap_kernel : Kernel kmap := {|
  sys_kqueue m := (3, m); sys_close m _ := m; kevent_change := kmap_change; kevent_wait m kq max _ := kmap_wait m kq max
|}.

Lemma kmap_wait_ok (m : kmap) (kq max : Z) : let '(n, evs, m') := kmap_wait m kq max in
  (n = 0 /\ evs = [] /\ m' = m) \/
  exists x f fl ud, n = 1 /\ 0 < max /\ evs = [Kev x f 0 ud] /\ m !! (kq, x, f) = Some (fl, ud) /\ m' = if Z.testbit fl 4 then delete (kq, x, f) m else m.
Proof.
  unfold kmap_wait. destruct (filter _ _) as [|[[[q x] f] [fl ud]] l] eqn:Ef; [by left|].
  assert ((q, x, f, (fl, ud)) ∈ filter (fun kv => kv.1.1.1 = kq) (map_to_list m)) as Hin by (rewrite Ef; by left).
  apply list_elem_of_filter in Hin as [Hq Hin]. cbn in Hq. subst q. apply elem_of_map_to_list in Hin.
  destruct (Z.ltb_spec 0 max); [|by left]. right. exists x, f, fl, ud. done.
Qed.

#[export] Instance kmap_laws : KernelLaws kmap.
Proof.
  refine {| kreg m q x f := m !! (q, x, f) |}.
  - intros m kq fd f fl ud Hfl. cbn [kevent_change kmap_kernel kmap_change]. unfold kmap_one. cbn [k_flags k_ident k_filter k_udata].
    destruct (Z.eqb_spec fl EV_DELETE) as [->|_]; [done|]. cbn [Z.ltb Z.compare]. left. split; [done|]. intros q x g.
    case_decide as Hd; [destruct Hd as (-> & -> & ->); apply lookup_insert_eq|]. apply lookup_insert_ne. naive_solver.
  - intros m kq fd f ud. cbn [kevent_change kmap_kernel kmap_change]. unfold kmap_one. cbn [k_flags k_ident k_filter k_udata Z.eqb EV_DELETE Pos.eqb].
    destruct (m !! (kq, fd, f)) as [v|] eqn:E; cbn [Z.ltb Z.compare]; [|done]. split; [done|]. intros q x g.
    case_decide as Hd; [destruct Hd as (-> & -> & ->); apply lookup_delete_eq|]. apply lookup_delete_ne. naive_solver.
  - intros m kq c cs Hcs. cbn [kevent_change kmap_kernel kmap_change]. destruct (kmap_one m kq c) as [r m']. by destruct (r <? 0) eqn:E; [|cbn; destruct cs].
  - intros m kq max ts. cbn [kevent_wait kmap_kernel]. pose proof (kmap_wait_ok m kq max) as Hw. destruct (kmap_wait m kq max) as [[n evs] m'].
    destruct Hw as [(-> & -> & ->)|(x & f & fl & ud & -> & Hm & -> & Hreg & ->)].
    + split; [right; split; [lia|done]|]. split; [by intros ev Hev%elem_of_nil|done].
    + split; [right; split; [lia|done]|]. split.
      * intros ev ->%list_elem_of_singleton. exists fl. cbn. split; [done|]. intros ->. apply lookup_delete_eq.
      * intros q y g Hn. specialize (Hn (Kev x f 0 ud)). cbn in Hn. destruct (Z.testbit fl 4); [|done]. apply lookup_delete_ne.
        intros [= -> -> ->]. apply Hn; [by left|done].
Defined.

Lemma kq_wait_spec_witness : exists out k', kq_wait 128 ((kq_add (∅ : kmap) 3 9 17 42).2) 3 128 1500 = Some (1, out, k') /\ ne_ud <$> out = [42] /\
  wait_timeout 1500 = Some (Timespec 1 500000000).
Proof.
  destruct (kq_wait_spec ((kq_add (∅ : kmap) 3 9 17 42).2) 128 3 128 1500) as [(n & out & k' & E & _) _]; [lia|].
  assert (kq_wait 128 ((kq_add (∅ : kmap) 3 9 17 42).2) 3 128 1500 = Some (1, [NEvent 9 1 42], ∅)) as E' by (vm_compute; reflexivity).
  exists out, k'. rewrite E' in E. injection E as <- <- <-. split; [exact E'|]. split; [reflexivity|vm_compute; reflexivity].
Defined.

(** A registration for writing that [netpoll_mod] for reading leaves behind. *)
Lemma kq_mod_spec_witness : exists k', kq_mod (kq_add (∅ : kmap) 3 9 18 42).2 3 9 17 43 = (0, k') /\
  kreg k' 3 9 EVFILT_READ = Some (21, 43) /\ kreg k' 3 9 EVFILT_WRITE = Some (21, 42).
Proof.
  destruct (kq_mod_spec (kq_add (∅ : kmap) 3 9 18 42).2 3 9 17 43) as (r & k' & E & _ & _ & Hr).
  assert (r = 0) as -> by (vm_compute in E; by injection E).
  exists k'. split; [exact E|]. split; rewrite Hr by (reflexivity || (left; reflexivity) || (right; reflexivity)); vm_compute; reflexivity.
Defined.
