(* ===== verification/DarwinOs.v ===== *)
(** * DarwinOs: the system interface on macOS (platform/darwin/os.c)

    On macOS the functions call libc.  Most of them pass their arguments on;
    those that build vectors, fill a buffer or convert a structure are
    modelled in full. *)

From S2P Require Import Prelude Mem Strings.

(** ** Calls of libc *)

Inductive libc_fn :=
  | c_getpid | c_getppid | c_exit | c_fork | c_waitpid | c_kill | c_execve | c_execvp
  | c_getenv | c_setenv | c_unsetenv | c_getcwd | c_fchmodat | c_fchownat | c_chdir
  | c_getuid | c_geteuid | c_getgid | c_getegid | c_setuid | c_setgid | c_setpgid | c_getpgid | c_getpgrp | c_setsid
  | c_setrlimit | c_open | c_close | c_read | c_write | c_lseek | c_dup | c_dup2 | c_fcntl
  | c_mkdirat | c_mkdtemp | c_chmod | c_printf | c_unlinkat | c_renameat | c_renameatx_np | c_linkat | c_symlinkat | c_readlinkat
  | c_mmap | c_munmap | c_sysconf | c_mprotect | c_madvise | c_ulock_wait | c_ulock_wake | c_sigaction | c_access.

Section calls.
(** libc and the kernel behind it, with the arguments as words; a pointer to
    a string is the word of its [data]. *)
Context {K : Type} (libc : K -> libc_fn -> list Z -> Z * K).
(** Constants of the system's headers. *)
Context (AT_FDCWD AT_REMOVEDIR F_NOCACHE _SC_PAGESIZE RENAME_EXCL RENAME_SWAP : Z).

Definition as_int (r : Z * K) : Z * K := (swrap 32 r.1, r.2).
Definition as_i64 (r : Z * K) : Z * K := (swrap 64 r.1, r.2).

(** [pid_t], [uid_t] and [mode_t] are 32 bits and 16 bits wide. *)
Definition uid_t (x : Z) : Z := uwrap 32 x.
Definition mode_t (x : Z) : Z := uwrap 16 x.

Definition __public__os_getpid (k : K) : Z * K := as_int (libc k c_getpid []).
Definition __public__os_getppid (k : K) : Z * K := as_int (libc k c_getppid []).
Definition __public__os_exit (k : K) (code : Z) : K := (libc k c_exit [code]).2.
Definition __public__os_fork (k : K) : Z * K := as_int (libc k c_fork []).
Definition __public__os_kill (k : K) (pid sig : Z) : Z * K := as_int (libc k c_kill [pid; sig]).
Definition __public__os_getenv (k : K) (key : Z) : Z * K := libc k c_getenv [key].
Definition __public__os_setenv (k : K) (key value overwrite : Z) : Z * K := as_int (libc k c_setenv [key; value; overwrite]).
Definition __public__os_unsetenv (k : K) (key : Z) : Z * K := as_int (libc k c_unsetenv [key]).
Definition __public__os_getcwd (k : K) (buf size : Z) : Z * K :=
  let '(r, k) := libc k c_getcwd [buf; size_t size] in (if truthy r then 0 else -1, k).
Definition __public__os_chmod (k : K) (path mode : Z) : Z * K := as_int (libc k c_fchmodat [AT_FDCWD; path; mode_t mode; 0]).
Definition __public__os_chown (k : K) (name uid gid : Z) : Z * K := as_int (libc k c_fchownat [AT_FDCWD; name; uid_t uid; uid_t gid; 0]).
Definition __public__os_chdir (k : K) (path : Z) : Z * K := as_int (libc k c_chdir [path]).
Definition __public__os_getuid (k : K) : Z * K := as_int (libc k c_getuid []).
Definition __public__os_geteuid (k : K) : Z * K := as_int (libc k c_geteuid []).
Definition __public__os_getgid (k : K) : Z * K := as_int (libc k c_getgid []).
Definition __public__os_getegid (k : K) : Z * K := as_int (libc k c_getegid []).
Definition __public__os_setuid (k : K) (uid : Z) : Z * K := as_int (libc k c_setuid [uid_t uid]).
Definition __public__os_setgid (k : K) (gid : Z) : Z * K := as_int (libc k c_setgid [uid_t gid]).
Definition __public__os_setpgid (k : K) (pid pgid : Z) : Z * K := as_int (libc k c_setpgid [pid; pgid]).
Definition __public__os_getpgid (k : K) (pid : Z) : Z * K := as_int (libc k c_getpgid [pid]).
Definition __public__os_getpgrp (k : K) : Z * K := as_int (libc k c_getpgrp []).
Definition __public__os_setsid (k : K) : Z * K := as_int (libc k c_setsid []).
Definition __public__os_close (k : K) (fd : Z) : Z * K := as_int (libc k c_close [fd]).
Definition __public__os_read (k : K) (fd buf n : Z) : Z * K := as_i64 (libc k c_read [fd; buf; size_t n]).
Definition __public__os_write (k : K) (fd buf n : Z) : Z * K := as_i64 (libc k c_write [fd; buf; size_t n]).
Definition __public__os_lseek (k : K) (fd offset whence : Z) : Z * K := as_i64 (libc k c_lseek [fd; offset; whence]).
Definition __public__os_dup (k : K) (fd : Z) : Z * K := as_int (libc k c_dup [fd]).
Definition __public__os_dup2 (k : K) (oldfd newfd : Z) : Z * K := as_int (libc k c_dup2 [oldfd; newfd]).
Definition __public__os_fcntl (k : K) (fd cmd arg : Z) : Z * K := as_i64 (libc k c_fcntl [fd; cmd; arg]).
Definition __public__os_mkdir (k : K) (path mode : Z) : Z * K := as_int (libc k c_mkdirat [AT_FDCWD; path; mode_t mode]).
Definition __public__os_rmdir (k : K) (path : Z) : Z * K := as_int (libc k c_unlinkat [AT_FDCWD; path; AT_REMOVEDIR]).
Definition __public__os_unlink (k : K) (path : Z) : Z * K := as_int (libc k c_unlinkat [AT_FDCWD; path; 0]).
Definition __public__os_rename (k : K) (oldpath newpath : Z) : Z * K := as_int (libc k c_renameat [AT_FDCWD; oldpath; AT_FDCWD; newpath]).
Definition __public__os_link (k : K) (oldpath newpath : Z) : Z * K := as_int (libc k c_linkat [AT_FDCWD; oldpath; AT_FDCWD; newpath; 0]).
Definition __public__os_symlink (k : K) (target linkpath : Z) : Z * K := as_int (libc k c_symlinkat [target; AT_FDCWD; linkpath]).
Definition __public__os_readlink (k : K) (path buf size : Z) : Z * K := as_i64 (libc k c_readlinkat [AT_FDCWD; path; buf; size_t size]).
Definition __public__os_mmap (k : K) (addr len prot flags fd off : Z) : Z * K := libc k c_mmap [addr; size_t len; prot; flags; fd; off].
Definition __public__os_munmap (k : K) (addr len : Z) : Z * K := as_int (libc k c_munmap [addr; size_t len]).
Definition __public__os_page_size (k : K) : Z * K := as_i64 (libc k c_sysconf [_SC_PAGESIZE]).
Definition __public__os_mprotect (k : K) (addr len prot : Z) : Z * K := as_int (libc k c_mprotect [addr; size_t len; prot]).
Definition __public__os_madvise (k : K) (addr len advice : Z) : Z * K := as_int (libc k c_madvise [addr; size_t len; advice]).
Definition __public__os_access (k : K) (path mode : Z) : Z * K := as_int (libc k c_access [path; mode]).

(** [sa] is the address of the local [struct sigaction]: the handler, then
    an empty mask and the flags in one word. *)
Definition SA_RESTART : Z := 2.
Definition __public__os_signal_install (k : K) (m : mem) (sig handler sa : Z) : Z * K * mem :=
  let m := st m sa handler in
  let m := st m (sa + 8) (Z.shiftl SA_RESTART 32) in
  (as_int (libc k c_sigaction [sig; sa; NULL]), m).

(** [rlim] is the address of the local [struct rlimit]; its two words are
    the conversions of the limits. *)
Definition __public__os_setrlimit (k : K) (m : mem) (resource cur max rlim : Z) : Z * K * mem :=
  let m := st m rlim (uwrap 64 cur) in
  let m := st m (rlim + 8) (uwrap 64 max) in
  (as_int (libc k c_setrlimit [resource; rlim]), m).

(** os.h: macOS has no [O_DIRECT]. *)
Definition __public__os_O_DIRECT : Z := 0.
Definition __public__os_open (k : K) (path flags mode : Z) : Z * K :=
  let '(fd, k) := as_int (libc k c_open [path; flags; mode]) in
  let k := if negb (fd =? -1) && truthy (Z.land flags __public__os_O_DIRECT) then (libc k c_fcntl [fd; F_NOCACHE; 1]).2 else k in
  (fd, k).

(** The results are those of [mkdtemp], a pointer, and of [chmod]. *)
Definition __public__os_mkdir_temp (k : K) (path mode : Z) : Z * K :=
  let '(dir, k) := libc k c_mkdtemp [path] in
  if dir =? NULL then (-1, k)
  else
    let '(r, k) := as_int (libc k c_chmod [dir; mode_t mode]) in
    if negb (r =? 0) then (-1, k) else (0, (libc k c_printf [dir]).2).

Definition __public__os_RENAME_NOREPLACE : Z := 1.
Definition __public__os_RENAME_EXCHANGE : Z := 2.
Definition __public__os_renameat2 (k : K) (oldpath newpath flags : Z) : Z * K :=
  let native := 0 in
  let native := if truthy (Z.land flags __public__os_RENAME_NOREPLACE) then Z.lor native RENAME_EXCL else native in
  let native := if truthy (Z.land flags __public__os_RENAME_EXCHANGE) then Z.lor native RENAME_SWAP else native in
  as_int (libc k c_renameatx_np [AT_FDCWD; oldpath; AT_FDCWD; newpath; native]).

(** ** Waiting on a word *)
Definition UL_COMPARE_AND_WAIT : Z := 1.
Definition UL_WAKE_ALL : Z := 256.

(** [timeout] is [NULL] or a [struct timespec]; the microseconds are a
    [uint32_t]. *)
Definition timeout_us (timeout : option (Z * Z)) : Z :=
  match timeout with
  | None => 0
  | Some (sec, nsec) => uwrap 32 (swrap 64 (sec * 1000000 + Z.quot nsec 1000))
  end.

Definition __public__os_futex_wait (k : K) (uaddr val : Z) (timeout : option (Z * Z)) : Z * K :=
  as_int (libc k c_ulock_wait [UL_COMPARE_AND_WAIT; uaddr; uwrap 64 val; timeout_us timeout]).
Definition __public__os_futex_wake_one (k : K) (uaddr : Z) : Z * K := as_int (libc k c_ulock_wake [UL_COMPARE_AND_WAIT; uaddr; 0]).
Definition __public__os_futex_wake_all (k : K) (uaddr : Z) : Z * K :=
  as_int (libc k c_ulock_wake [Z.lor UL_COMPARE_AND_WAIT UL_WAKE_ALL; uaddr; 0]).

(** ** Running a program

    The vectors are blocks of [malloc]; [live] maps the blocks not freed to
    the sizes asked for.  [p1] and [p2] are what the two calls of [malloc]
    return.  A store outside the block of a vector is undefined in C, and
    has no result here. *)
Definition malloc (p n : Z) (live : gmap Z Z) : gmap Z Z := if p =? NULL then live else <[p := n]> live.
Definition free (p : Z) (live : gmap Z Z) : gmap Z Z := delete p live.
Definition vector_size (argc : Z) : Z := size_t ((argc + 1) * 8).

(** [dst[i] = v] for a vector [dst] of pointers. *)
Definition vec_put (live : gmap Z Z) (m : mem) (dst i v : Z) : option mem :=
  n ← live !! dst;
  c_assert ((0 <=? i) && (8 * i + 8 <=? n)) ;;
  Some (st m (dst + 8 * i) v).

(** [dst[i] = src[i]->data] for [n] entries from [i] on. *)
Fixpoint data_loop (live : gmap Z Z) (m : mem) (dst src i : Z) (n : nat) : option mem :=
  match n with
  | O => Some m
  | S n =>
      m ← vec_put live m dst i (ld m (ld m (src + 8 * i) + o_data));
      data_loop live m dst src (i + 1) n
  end.

Definition vector (live : gmap Z Z) (m : mem) (dst arr argc : Z) : option mem :=
  m ← data_loop live m dst (ld m (arr + o_data)) 0 (Z.to_nat argc);
  vec_put live m dst argc NULL.

(** The call of [execve] sees the memory it is made on; it returns only when
    it fails. *)
Context (execve execvp : K -> mem -> list Z -> Z * K).

Definition __public__os_execve (k : K) (m : mem) (live : gmap Z Z) (path argv envp p1 p2 : Z) : option (Z * K * mem * gmap Z Z) :=
  let argc := size_t (ld m (argv + o_length)) in
  let envc := size_t (ld m (envp + o_length)) in
  let live := malloc p1 (vector_size argc) live in
  let live := malloc p2 (vector_size envc) live in
  if (p1 =? NULL) || (p2 =? NULL) then Some (-1, k, m, free p2 (free p1 live))
  else
    m ← vector live m p1 argv argc;
    m ← vector live m p2 envp envc;
    let '(result, k) := execve k m [ld m (path + o_data); p1; p2] in
    Some (swrap 32 result, k, m, free p2 (free p1 live)).

Definition __public__os_execvp (k : K) (m : mem) (live : gmap Z Z) (file argv p1 : Z) : option (Z * K * mem * gmap Z Z) :=
  let argc := size_t (ld m (argv + o_length)) in
  let live := malloc p1 (vector_size argc) live in
  if p1 =? NULL then Some (-1, k, m, live)
  else
    m ← vector live m p1 argv argc;
    let '(result, k) := execvp k m [ld m (file + o_data); p1] in
    Some (swrap 32 result, k, m, free p1 live).
End calls.

(** ** Results that are structures *)

(** [struct stat] as the system fills it in. *)
Record stat := Stat {
  st_dev : Z; st_ino : Z; st_mode : Z; st_nlink : Z; st_uid : Z; st_gid : Z; st_rdev : Z;
  st_size : Z; st_blksize : Z; st_blocks : Z; st_atime : Z; st_mtime : Z; st_ctime : Z
}.

Record stat_rt := StatRt {
  rt_result : Z; rt_dev : Z; rt_ino : Z; rt_mode : Z; rt_nlink : Z; rt_uid : Z; rt_gid : Z; rt_rdev : Z;
  rt_size : Z; rt_blksize : Z; rt_blocks : Z; rt_atime : Z; rt_mtime : Z; rt_ctime : Z
}.

(** The conversions of the fields to [int64_t]. *)
Definition stat_convert (result : Z) (s : stat) : stat_rt :=
  StatRt (swrap 64 result) (swrap 64 (st_dev s)) (swrap 64 (st_ino s)) (swrap 64 (st_mode s)) (swrap 64 (st_nlink s)) (swrap 64 (st_uid s))
    (swrap 64 (st_gid s)) (swrap 64 (st_rdev s)) (swrap 64 (st_size s)) (swrap 64 (st_blksize s)) (swrap 64 (st_blocks s)) (swrap 64 (st_atime s))
    (swrap 64 (st_mtime s)) (swrap 64 (st_ctime s)).

Section structs.
(** The three calls fill in a structure when they succeed; [garbage] is what
    the local variable holds otherwise. *)
Context {K : Type} (fstat : K -> Z -> Z * option stat) (fstatat : K -> Z -> bool -> Z * option stat).
Context (garbage : stat).

Definition __public__os_fstat (k : K) (fd : Z) : stat_rt :=
  let '(result, s) := fstat k fd in stat_convert result (default garbage s).
(** The flag is [AT_SYMLINK_NOFOLLOW]. *)
Definition __public__os_stat (k : K) (path : Z) : stat_rt :=
  let '(result, s) := fstatat k path false in stat_convert result (default garbage s).
Definition __public__os_lstat (k : K) (path : Z) : stat_rt :=
  let '(result, s) := fstatat k path true in stat_convert result (default garbage s).

(** [waitpid] stores an [int] into the first half of an [int64_t] that holds
    [old]. *)
Definition low_word (old : Z) (status : option Z) : Z :=
  match status with
  | None => old
  | Some x => swrap 64 (Z.lor (Z.shiftl (Z.shiftr old 32) 32) (uwrap 32 x))
  end.
Context (waitpid : K -> Z -> Z -> Z * option Z).
Definition __public__os_waitpid (old : Z) (k : K) (pid options : Z) : Z * Z :=
  let '(res, status) := waitpid k pid options in (swrap 64 res, low_word old status).

(** The limits are unsigned. *)
Context (getrlimit : K -> Z -> Z * option (Z * Z)) (garbage_lim : Z * Z).
Definition __public__os_getrlimit (k : K) (resource : Z) : Z * Z * Z :=
  let '(result, lim) := getrlimit k resource in
  let '(cur, max) := default garbage_lim lim in (swrap 64 result, swrap 64 cur, swrap 64 max).

(** [pthread_threadid_np] stores the number of the thread. *)
Context (threadid : K -> option Z).
Definition __public__os_gettid (k : K) : Z := default 0 (threadid k).
End structs.

(** ** Reading a directory

    An entry is its bytes, [d_reclen] of them; [room] is the length of the
    buffer, writing past it is [None].  The list is what [readdir] has left,
    [out] what was copied. *)
Fixpoint dents_loop (room : Z) (out : list Z) (entries : list (list Z)) (remaining : Z) : option (list Z * Z) :=
  match entries with
  | [] => Some (out, remaining)
  | entry :: entries =>
      let reclen := Z.of_nat (length entry) in
      if remaining <? reclen then Some (out, remaining)
      else
        c_assert (Z.of_nat (length out) + reclen <=? room) ;;
        dents_loop room (out ++ entry) entries (remaining - reclen)
  end.

(** [fdopendir] gives the entries of the directory, or fails; [closedir]
    closes [fd].  The result, the bytes of the buffer and whether [fd] is still open. *)
Definition __public__os_getdents64 (opened : option (list (list Z))) (room size : Z) : option (Z * list Z * bool) :=
  match opened with
  | None => Some (-1, [], true)
  | Some entries =>
      '(out, remaining) ← dents_loop room [] entries (size_t size);
      Some (swrap 32 (size_t (size - remaining)), out, false)
  end.

(** * Vectors, buffers and conversions on macOS *)

(** ** The vectors of [execve] *)

(** The pointers the entries of an array of strings hold. *)
Definition entry_data (m : mem) (arr i : Z) : Z := ld m (ld m (ld m (arr + o_data) + 8 * i) + o_data).

(** The block [p, p + 8 * (n + 1)) holds no word that is read to fill a
    vector from the first [argc] entries of [arr]. *)
Definition reads_apart (m : mem) (p n arr argc : Z) : Prop :=
  let out x := ~ p <= x < p + 8 * (n + 1) in
  out (arr + o_data) /\ forall i, 0 <= i < argc -> out (ld m (arr + o_data) + 8 * i) /\ out (ld m (ld m (arr + o_data) + 8 * i) + o_data).

(** A store inside the block of a vector for [c] pointers. *)
Lemma vec_put_in (live : gmap Z Z) (m : mem) (dst i v c : Z) : live !! dst = Some (8 * c) -> 0 <= i < c ->
  vec_put live m dst i v = Some (st m (dst + 8 * i) v).
Proof.
  intros Hd Hi. unfold vec_put. rewrite Hd. cbn [mbind option_bind].
  rewrite (proj2 (Z.leb_le 0 i)), (proj2 (Z.leb_le (8 * i + 8) _)) by lia. done.
Qed.

Lemma data_loop_ok (live : gmap Z Z) (dst src c : Z) (n : nat) : live !! dst = Some (8 * c) -> forall m i,
  (forall j, i <= j < i + Z.of_nat n -> let out x := ~ dst <= x < dst + 8 * (i + Z.of_nat n) in
     out (src + 8 * j) /\ out (ld m (src + 8 * j) + o_data)) -> 0 <= i -> i + Z.of_nat n <= c ->
  exists m', data_loop live m dst src i n = Some m' /\
  (forall j, i <= j < i + Z.of_nat n -> ld m' (dst + 8 * j) = ld m (ld m (src + 8 * j) + o_data)) /\
  only_differ (fun x => dst + 8 * i <= x < dst + 8 * (i + Z.of_nat n)) m m'.
Proof.
  intros Hd. induction n as [|n IH]; intros m i Ha Hi Hc; cbn [data_loop]; [exists m; split_and!; [done|lia|done]|].
  rewrite (vec_put_in live m dst i _ c) by (done || lia). cbn [mbind option_bind].
  set (m1 := st m _ _). assert (forall x, x <> dst + 8 * i -> ld m1 x = ld m x) as H1 by (intros x Hx; by apply ld_st_ne).
  destruct (IH m1 (i + 1)) as (m' & E & IH1 & IH2); [|lia|lia|].
  - intros j Hj. destruct (Ha j) as [A1 A2]; [lia|]. cbv zeta in *. rewrite H1 by lia. split; lia.
  - exists m'. split; [done|]. split.
    + intros j Hj. destruct (decide (j = i)) as [->|Hne].
      * rewrite IH2 by lia. apply ld_st_eq.
      * destruct (Ha j) as [A1 A2]; [lia|]. cbv zeta in *. rewrite IH1 by lia. rewrite (H1 (src + 8 * j)), H1 by lia. done.
    + intros x Hx. rewrite IH2 by lia. apply H1. lia.
Qed.

Lemma vector_ok (live : gmap Z Z) (m : mem) (dst arr argc : Z) : 0 <= argc < 2 ^ 60 -> live !! dst = Some (vector_size argc) ->
  reads_apart m dst argc arr argc ->
  exists m', vector live m dst arr argc = Some m' /\
  (forall i, 0 <= i < argc -> ld m' (dst + 8 * i) = entry_data m arr i) /\
  ld m' (dst + 8 * argc) = NULL /\
  only_differ (fun x => dst <= x < dst + 8 * (argc + 1)) m m'.
Proof.
  intros Hn Hd [_ Ha]. unfold vector_size in Hd. rewrite uwrap_small in Hd by (unfold in_uint; lia).
  replace ((argc + 1) * 8) with (8 * (argc + 1)) in Hd by lia. unfold vector.
  destruct (data_loop_ok live dst (ld m (arr + o_data)) (argc + 1) (Z.to_nat argc) Hd m 0) as (m1 & -> & H1 & H2); [|lia|lia|].
  - intros j Hj. destruct (Ha j) as [A1 A2]; [lia|]. cbv zeta. split; lia.
  - cbn [mbind option_bind]. rewrite (vec_put_in live m1 dst argc _ (argc + 1)) by (done || lia). eexists. split; [done|]. split_and!.
    + intros i Hi. rewrite ld_st_ne by lia. rewrite H1 by lia. done.
    + apply ld_st_eq.
    + intros x Hx. rewrite ld_st_ne by lia. apply H2. lia.
Qed.

(** Filling one vector does not change what the other one is filled from. *)
Lemma entries_kept (m m1 : mem) (p n arr argc : Z) : only_differ (fun x => p <= x < p + 8 * (n + 1)) m m1 -> reads_apart m p n arr argc ->
  ld m1 (arr + o_data) = ld m (arr + o_data) /\
  (forall i, 0 <= i < argc -> ld m1 (ld m (arr + o_data) + 8 * i) = ld m (ld m (arr + o_data) + 8 * i)) /\
  (forall i, 0 <= i < argc -> entry_data m1 arr i = entry_data m arr i).
Proof.
  intros Hd [Hb Ha]. assert (ld m1 (arr + o_data) = ld m (arr + o_data)) as E by (by apply Hd).
  assert (forall i, 0 <= i < argc -> ld m1 (ld m (arr + o_data) + 8 * i) = ld m (ld m (arr + o_data) + 8 * i)) as E2.
  { intros i Hi. apply Hd. by apply Ha. }
  split; [done|]. split; [done|]. intros i Hi. unfold entry_data. rewrite E, (E2 i Hi). apply Hd. by apply Ha.
Qed.

Lemma freed (live : gmap Z Z) (p1 p2 n1 n2 : Z) : live !! p1 = None -> live !! p2 = None ->
  free p2 (free p1 (malloc p2 n2 (malloc p1 n1 live))) = live.
Proof.
  intros H1 H2. apply map_eq. intros q. unfold free, malloc.
  destruct (decide (q = p2)) as [->|N2]; [by rewrite lookup_delete_eq|]. rewrite lookup_delete_ne by done.
  destruct (decide (q = p1)) as [->|N1]; [by rewrite lookup_delete_eq|]. rewrite lookup_delete_ne by done.
  destruct (p2 =? NULL), (p1 =? NULL); rewrite ?lookup_insert_ne by done; done.
Qed.

Section exec.
Context {K : Type} (execve : K -> mem -> list Z -> Z * K).

(** C33: [__public__os_execve] on macOS, for fewer than 2^60 entries.  If
    [malloc] fails for one of the vectors, it returns -1 without calling the
    kernel.  Otherwise every store into a vector is inside the block that
    was asked for, the kernel is called on vectors that hold exactly the
    [data] pointers of the strings, in order, followed by [NULL], and no
    memory outside the two blocks has changed.  On every path nothing that
    was allocated is left.  The blocks are apart from each other and from
    the strings and arrays, as [malloc] promises. *)
Theorem execve_vectors (k : K) (m : mem) (live : gmap Z Z) (path argv envp p1 p2 argc envc : Z) :
  ld m (argv + o_length) = argc -> ld m (envp + o_length) = envc -> 0 <= argc < 2 ^ 60 -> 0 <= envc < 2 ^ 60 -> live !! p1 = None -> live !! p2 = None ->
  (p1 = NULL \/ p2 = NULL -> __public__os_execve execve k m live path argv envp p1 p2 = Some (-1, k, m, live)) /\
  (p1 <> NULL -> p2 <> NULL -> p1 + 8 * (argc + 1) <= p2 \/ p2 + 8 * (envc + 1) <= p1 ->
   reads_apart m p1 argc argv argc -> reads_apart m p2 envc envp envc -> reads_apart m p1 argc envp envc ->
   (forall p n, p = p1 /\ n = argc \/ p = p2 /\ n = envc -> ~ p <= path + o_data < p + 8 * (n + 1)) ->
   exists m', let '(r, k') := execve k m' [ld m (path + o_data); p1; p2] in
     __public__os_execve execve k m live path argv envp p1 p2 = Some (swrap 32 r, k', m', live) /\
     (forall i, 0 <= i < argc -> ld m' (p1 + 8 * i) = entry_data m argv i) /\ ld m' (p1 + 8 * argc) = NULL /\
     (forall i, 0 <= i < envc -> ld m' (p2 + 8 * i) = entry_data m envp i) /\ ld m' (p2 + 8 * envc) = NULL /\
     only_differ (fun x => p1 <= x < p1 + 8 * (argc + 1) \/ p2 <= x < p2 + 8 * (envc + 1)) m m').
Proof.
  intros Ec1 Ec2 Hc1 Hc2 L1 L2. unfold __public__os_execve. rewrite Ec1, Ec2, !uwrap_small by (unfold in_uint; lia).
  rewrite (freed live p1 p2) by done. split.
  - intros Hn. assert ((p1 =? NULL) || (p2 =? NULL) = true) as -> by (rewrite orb_true_iff, !Z.eqb_eq; done). done.
  - intros N1 N2 Hd A1 A2 A3 Hp. rewrite (proj2 (Z.eqb_neq p1 _)), (proj2 (Z.eqb_neq p2 _)) by done. cbn [orb].
    assert (p1 <> p2) as Hne by lia. set (live2 := malloc p2 _ _).
    assert (live2 !! p1 = Some (vector_size argc) /\ live2 !! p2 = Some (vector_size envc)) as [B1 B2].
    { unfold live2, malloc. rewrite (proj2 (Z.eqb_neq p1 _)), (proj2 (Z.eqb_neq p2 _)) by done.
      by rewrite lookup_insert_eq, lookup_insert_ne, lookup_insert_eq. }
    destruct (vector_ok live2 m p1 argv argc) as (m1 & -> & V1 & V1n & V1o); [done..|]. cbn [mbind option_bind].
    destruct (entries_kept m m1 p1 argc envp envc V1o A3) as (Hb & He & Hf).
    destruct (vector_ok live2 m1 p2 envp envc) as (m2 & -> & V2 & V2n & V2o); [done|done| |].
    { destruct A2 as [A2 A2']. split; [done|]. intros i Hi. rewrite Hb, (He i Hi). auto. }
    cbn [mbind option_bind]. exists m2.
    assert (ld m2 (path + o_data) = ld m (path + o_data)) as -> by (rewrite V2o, V1o by (apply Hp; auto); done).
    destruct (execve k _ _) as [r k']. split; [done|]. split_and!.
    + intros i Hi. rewrite V2o by lia. auto.
    + rewrite V2o by lia. done.
    + intros i Hi. rewrite V2, Hf by done. done.
    + done.
    + intros x Hx. rewrite V2o, V1o by lia. done.
Qed.
End exec.

(** ** Reading a directory *)

(** [n] whole entries are what fits. *)
Definition fits (entries : list (list Z)) (size : Z) (n : nat) : Prop :=
  (n <= length entries)%nat /\ Z.of_nat (length (concat (take n entries))) <= size /\
  forall e, entries !! n = Some e -> size < Z.of_nat (length (concat (take n entries))) + Z.of_nat (length e).

Lemma dents_loop_ok (room : Z) (entries : list (list Z)) : forall out remaining, 0 <= remaining -> Z.of_nat (length out) + remaining <= room ->
  exists n, fits entries remaining n /\
    dents_loop room out entries remaining = Some (out ++ concat (take n entries), remaining - Z.of_nat (length (concat (take n entries)))).
Proof.
  induction entries as [|e entries IH]; intros out remaining Hr Hroom; cbn [dents_loop].
  - exists 0%nat. split; [split_and!; cbn; [lia|lia|done]|]. cbn. rewrite app_nil_r. do 2 f_equal. lia.
  - destruct (Z.ltb_spec remaining (Z.of_nat (length e))) as [Hlt|Hge].
    + exists 0%nat. split; [split_and!; cbn; [lia|lia|]|cbn; rewrite app_nil_r; do 2 f_equal; lia]. intros e' [= <-]. lia.
    + rewrite (proj2 (Z.leb_le _ _)) by lia. cbn [c_assert mbind option_bind].
      destruct (IH (out ++ e) (remaining - Z.of_nat (length e))) as (n & (Hn & Hs & Hx) & E); [lia|rewrite length_app; lia|].
      exists (S n). cbn [take concat]. rewrite E, <- app_assoc, length_app. split; [|do 2 f_equal; lia].
      split; [cbn [length]; lia|]. cbn [take concat]. rewrite length_app. split; [lia|]. intros e' He'. specialize (Hx e' He'). lia.
Qed.


(** ** Conversions *)

(** The timeout of [__public__os_futex_wait] on macOS.  A timeout below
    2^32 microseconds (71 minutes) is passed on in microseconds, rounded
    down; a longer one is reduced modulo 2^32.  The value 0 means to wait
    without a limit: that is what a missing timeout asks for, and what any
    timeout shorter than a microsecond turns into. *)
Theorem futex_timeout_spec (sec nsec : Z) : 0 <= sec < 2 ^ 40 -> 0 <= nsec < 10 ^ 9 ->
  timeout_us None = 0 /\ timeout_us (Some (sec, nsec)) = (sec * 10 ^ 6 + nsec / 1000) mod 2 ^ 32 /\
  (sec < 4294 -> timeout_us (Some (sec, nsec)) = sec * 10 ^ 6 + nsec / 1000) /\
  (timeout_us (Some (sec, nsec)) = 0 <-> (sec * 10 ^ 6 + nsec / 1000) mod 2 ^ 32 = 0) /\
  (sec = 0 -> nsec < 1000 -> timeout_us (Some (sec, nsec)) = timeout_us None).
Proof.
  intros Hs Hn. assert (timeout_us (Some (sec, nsec)) = (sec * 10 ^ 6 + nsec / 1000) mod 2 ^ 32) as E.
  { unfold timeout_us. rewrite Z.quot_div_nonneg by lia. pose proof (Z.div_mod nsec 1000). pose proof (Z.mod_pos_bound nsec 1000).
    rewrite swrap_small by (unfold in_sint; lia). done. }
  rewrite E. split; [done|]. split; [done|]. split; [|split; [done|]].
  - intros Hlt. apply Z.mod_small. pose proof (Z.div_mod nsec 1000). pose proof (Z.mod_pos_bound nsec 1000). lia.
  - intros -> Hlt. cbn [timeout_us]. rewrite Z.div_small by lia. done.
Qed.

(** The status [__public__os_waitpid] returns agrees with the one the
    system stored in its low 32 bits; it is that status exactly if the upper
    half of the local variable happened to be zero. *)
Theorem waitpid_status (old x : Z) : 0 <= old < 2 ^ 63 -> 0 <= x < 2 ^ 31 ->
  uwrap 32 (low_word old (Some x)) = x /\ (low_word old (Some x) = x <-> old < 2 ^ 32).
Proof.
  intros Ho Hx. unfold low_word. rewrite (uwrap_small 32 x) by (unfold in_uint; lia).
  rewrite Z.shiftl_mul_pow2, Z.shiftr_div_pow2 by lia.
  assert (Z.lor (old / 2 ^ 32 * 2 ^ 32) x = old / 2 ^ 32 * 2 ^ 32 + x) as ->.
  { pose proof (Z.add_lor_land (old / 2 ^ 32 * 2 ^ 32) x) as E. enough (Z.land (old / 2 ^ 32 * 2 ^ 32) x = 0) by lia. clear E.
    rewrite <- Z.shiftl_mul_pow2 by lia. apply Z.bits_inj'. intros i Hi. rewrite Z.land_spec, Z.bits_0.
    destruct (Z.lt_ge_cases i 32); [rewrite Z.shiftl_spec_low by lia; done|]. rewrite (Z.testbit_eqb x), (Z.div_small x), andb_false_r; [done| |lia].
    split; [lia|]. apply Z.lt_le_trans with (2 ^ 32); [lia|]. apply Z.pow_le_mono_r; lia. }
  assert (0 <= old / 2 ^ 32 < 2 ^ 31) as Hd.
  { split; [apply Z.div_pos; lia|]. apply Z.div_lt_upper_bound; lia. }
  rewrite swrap_small by (unfold in_sint; lia). split.
  - unfold uwrap. rewrite Z.add_comm, Z.mod_add by lia. apply Z.mod_small. lia.
  - split; [intros E|intros Hlt].
    + assert (old / 2 ^ 32 = 0) as E0 by lia. apply Z.div_small_iff in E0; lia.
    + rewrite Z.div_small by lia. lia.
Qed.

(** [__public__os_open] never turns the buffer cache off: the flag it tests
    is zero on macOS. *)
Theorem open_never_nocache {K : Type} (libc : K -> libc_fn -> list Z -> Z * K) (F_NOCACHE : Z) (k : K) (path flags mode : Z) :
  __public__os_open libc F_NOCACHE k path flags mode = as_int (libc k c_open [path; flags; mode]).
Proof.
  unfold __public__os_open, __public__os_O_DIRECT. destruct (as_int _) as [fd k']. rewrite Z.land_0_r. cbn [truthy Z.eqb negb]. by rewrite andb_false_r.
Qed.

(** A successful [stat] is reported as the system filled it in, for any
    file whose inode number is below 2^63. *)
Theorem stat_exact {K : Type} (fstatat : K -> Z -> bool -> Z * option stat) (garbage : stat) (k : K) (path : Z) (nofollow : bool) (s : stat) :
  fstatat k path nofollow = (0, Some s) ->
  Forall (in_sint 64) [st_dev s; st_ino s; st_mode s; st_nlink s; st_uid s; st_gid s; st_rdev s; st_size s; st_blksize s; st_blocks s; st_atime s; st_mtime s; st_ctime s] ->
  (if nofollow then __public__os_lstat fstatat garbage k path else __public__os_stat fstatat garbage k path) =
    StatRt 0 (st_dev s) (st_ino s) (st_mode s) (st_nlink s) (st_uid s) (st_gid s) (st_rdev s) (st_size s) (st_blksize s) (st_blocks s) (st_atime s) (st_mtime s) (st_ctime s).
Proof.
  intros E HF. rewrite !Forall_cons in HF. destruct_and!.
  destruct nofollow; unfold __public__os_lstat, __public__os_stat; rewrite E; unfold stat_convert; cbn [default from_option id];
    rewrite !swrap_small by (lia || done); done.
Qed.

(** ** Instances *)

(** An array of two strings at 1000 with its data at 1100, the strings at
    1200 and 1300; an array without entries at 1400; the path at 1500. *)
Definition exec_mem : mem :=
  list_to_map [(1000, 1100); (1016, 2); (1100, 1200); (1108, 1300); (1200, 5000); (1300, 5001); (1400, 1450); (1416, 0); (1500, 5002)].
Definition failing_execve (k : unit) (m : mem) (args : list Z) : Z * unit := (-1, k).

Lemma execve_vectors_witness : exists m', __public__os_execve failing_execve tt exec_mem ∅ 1500 1000 1400 2000 2100 = Some (-1, tt, m', ∅) /\
  ld m' 2000 = 5000 /\ ld m' 2008 = 5001 /\ ld m' 2016 = NULL /\ ld m' 2100 = NULL.
Proof.
  destruct (execve_vectors failing_execve tt exec_mem ∅ 1500 1000 1400 2000 2100 2 0) as [_ H]; try reflexivity; try lia.
  destruct H as (m' & E & H1 & H1n & _ & H2n & _); try discriminate.
  - lia.
  - split; [vm_compute; intros [Ha Hb]; by destruct Ha|]. intros i Hi. assert (i = 0 \/ i = 1) as [-> | ->] by lia; vm_compute; split; intros [Ha Hb]; by destruct Ha.
  - split; [vm_compute; intros [Ha Hb]; by destruct Ha|]. lia.
  - split; [vm_compute; intros [Ha Hb]; by destruct Ha|]. lia.
  - intros p n [[-> ->]|[-> ->]]; unfold o_data; lia.
  - exists m'. split; [exact E|]. split; [exact (H1 0 ltac:(lia))|]. split; [exact (H1 1 ltac:(lia))|]. split; [exact H1n|exact H2n].
Defined.


Lemma futex_timeout_spec_witness : timeout_us (Some (0, 999)) = timeout_us None /\ timeout_us (Some (5000, 0)) = 705032704.
Proof.
  split; [|vm_compute; reflexivity]. destruct (futex_timeout_spec 0 999) as (_ & _ & _ & _ & H); [lia|lia|]. apply H; [reflexivity|lia].
Defined.
