(* ===== verification/DarwinFaults.v ===== *)
(** * DarwinFaults: fatal errors on macOS (platform/darwin/sigerr.c)

    Every scheduler thread calls [init_error_handlers], which makes a pipe
    and a helper thread; [crash_pipe] is one variable, so that the last call
    decides where the handlers write.  A crashing thread hands its signal to
    a helper through the pipe and sleeps; the helper writes the report and
    ends the process.  Any number of threads may be in these functions at
    the same time, so they are steps of an interleaving machine. *)

From S2P Require Import Prelude Threads Strings Decimal Faults.

(** ** The trace *)

(** What libunwind finds for a frame: the instruction pointer and, if it
    knows the function, its name (cut to the buffer of 256 bytes) and the
    offset in it. *)
Record unw_frame := UnwFrame { uf_ip : option Z; uf_proc : option (list Z * Z) }.

(** ["0x%016lx"] and ["0x%lx"]. *)
Definition hex16 (v : Z) : list Z := [48; 120] ++ hex_loop 16 v true.
Definition hex (v : Z) : list Z := [48; 120] ++ hex_loop 16 v false.

(** ["\t#%d  0x%016lx in %s + 0x%lx\n"] or ["\t#%d  0x%016lx in <unknown>\n"]. *)
Definition unw_line (frame ip : Z) (proc : option (list Z * Z)) : option (list Z) :=
  d ← i64_to_dec frame;
  Some ([9; 35] ++ d ++ [32; 32] ++ hex16 ip ++ [32; 105; 110; 32] ++
    match proc with
    | Some (name, offset) => take (NAME_SIZE - 1) name ++ [32; 43; 32] ++ hex offset
    | None => [60; 117; 110; 107; 110; 111; 119; 110; 62]
    end ++ [10]).

Definition MAX_FRAMES : Z := 50.

(** The writes of the loop; a line that does not fit its buffer is left
    out. *)
Fixpoint unw_loop (frames : list unw_frame) (frame : Z) : option (list (list Z)) :=
  match frames with
  | [] => Some []
  | f :: frames =>
      if negb (frame <? MAX_FRAMES) then Some []
      else
        match uf_ip f with
        | None => Some []
        | Some ip =>
            line ← unw_line frame ip (uf_proc f);
            let n := Z.of_nat (length line) in
            rest ← unw_loop frames (frame + 1);
            Some ((if (0 <? n) && (n <? Z.of_nat BUF_SIZE) then [line] else []) ++ rest)
        end
  end.

(** Where libunwind stops. *)
Inductive unwind := NoContext | NoCursor | Frames (frames : list unw_frame).

(** The writes to the standard error output, in order. *)
Definition print_stacktrace_internal (u : unwind) : option (list (list Z)) :=
  match u with
  | NoContext => Some [trace_title; [70; 97; 105; 108; 101; 100; 32; 116; 111; 32; 103; 101; 116; 32; 117; 110; 119; 105; 110; 100; 32; 99; 111; 110; 116; 101; 120; 116; 10]]
  | NoCursor => Some [trace_title; [70; 97; 105; 108; 101; 100; 32; 116; 111; 32; 105; 110; 105; 116; 105; 97; 108; 105; 122; 101; 32; 117; 110; 119; 105; 110; 100; 32; 99; 117; 114; 115; 111; 114; 10]]
  | Frames frames => lines ← unw_loop frames 0; Some (trace_title :: lines)
  end.

(** ["\n===== FATAL SIGNAL %d =====\n"]. *)
Definition fatal_title (sig : Z) : option (list Z) :=
  d ← i64_to_dec sig; Some ([10; 61; 61; 61; 61; 61; 32; 70; 65; 84; 65; 76; 32; 83; 73; 71; 78; 65; 76; 32] ++ d ++ [32; 61; 61; 61; 61; 61; 10]).

(** ** The handlers *)

(** A thread in [crash_handler]: at the test of [handling_crash], at the
    assignment, at the [write] to the pipe, in [sleep].  A thread in
    [__public__runtime_error]: the test, the assignment, the writes that are
    left. *)
Inductive fault_pc :=
  | HTest (sig : Z) | HSet (sig : Z) | HPipe (sig : Z) | HSleep (sig : Z)
  | RTest (msg : option (list Z)) | RSet (msg : option (list Z)) | RWrites (ws : list (list Z)).

(** [crash_thread_fn]: before it takes [crash_pipe[0]] for the call of [read];
    in [read] on a pipe; with the signal it read and the writes that are
    left; returned, because [read] failed. *)
Inductive helper_pc := PStart | PRead (k : nat) | PWrites (sig : Z) (ws : list (list Z)) | PGone.

(** A thread in [init_error_handlers]: at [pipe]; in it, with the first of the
    two descriptors of the new pipe stored; at [pthread_create]; with the
    signals that are left to install the handler for. *)
Inductive init_pc := IPipe | IStore (k : nat) | ISpawn | ISigs (sigs : list Z).

(** Who wrote: a helper or a thread. *)
Inductive writer := WHelper (h : nat) | WThread (i : nat).

#[export] Instance writer_eq_dec : EqDecision writer.
Proof. solve_decision. Defined.

(** [pipes]: what was written to each pipe and not read; [crash_pipe]: the
    pipes whose reading and writing ends the two words of the array are,
    [None] for the initial -1; [handled]: the signals with [crash_handler]. *)
Record faults := FaultState {
  handling_crash : bool; pipes : list (list Z); crash_pipe : option nat * option nat; handled : list Z;
  inits : list init_pc; threads : list fault_pc; helpers : list helper_pc;
  written : list (writer * list Z); exited : option Z
}.

Definition faults_start : faults := FaultState false [] (None, None) [] [] [] [] [] None.

Definition set_handling (w : faults) : faults :=
  FaultState true (pipes w) (crash_pipe w) (handled w) (inits w) (threads w) (helpers w) (written w) (exited w).
Definition set_pipes (w : faults) (x : list (list Z)) : faults :=
  FaultState (handling_crash w) x (crash_pipe w) (handled w) (inits w) (threads w) (helpers w) (written w) (exited w).
Definition set_crash_pipe (w : faults) (x : option nat * option nat) : faults :=
  FaultState (handling_crash w) (pipes w) x (handled w) (inits w) (threads w) (helpers w) (written w) (exited w).
Definition set_handled (w : faults) (x : list Z) : faults :=
  FaultState (handling_crash w) (pipes w) (crash_pipe w) x (inits w) (threads w) (helpers w) (written w) (exited w).
Definition set_inits (w : faults) (x : list init_pc) : faults :=
  FaultState (handling_crash w) (pipes w) (crash_pipe w) (handled w) x (threads w) (helpers w) (written w) (exited w).
Definition set_threads (w : faults) (x : list fault_pc) : faults :=
  FaultState (handling_crash w) (pipes w) (crash_pipe w) (handled w) (inits w) x (helpers w) (written w) (exited w).
Definition set_helpers (w : faults) (x : list helper_pc) : faults :=
  FaultState (handling_crash w) (pipes w) (crash_pipe w) (handled w) (inits w) (threads w) x (written w) (exited w).
Definition write_err (w : faults) (who : writer) (text : list Z) : faults :=
  FaultState (handling_crash w) (pipes w) (crash_pipe w) (handled w) (inits w) (threads w) (helpers w) (written w ++ [(who, text)]) (exited w).
Definition _exit (w : faults) (status : Z) : faults :=
  FaultState (handling_crash w) (pipes w) (crash_pipe w) (handled w) (inits w) (threads w) (helpers w) (written w) (Some status).

Definition goto (w : faults) (i : nat) (p : fault_pc) : faults := set_threads w (<[i := p]> (threads w)).
Definition helper_goto (w : faults) (h : nat) (p : helper_pc) : faults := set_helpers w (<[h := p]> (helpers w)).
Definition init_goto (w : faults) (i : nat) (p : init_pc) : faults := set_inits w (<[i := p]> (inits w)).

(** SIGSEGV, SIGBUS, SIGILL, SIGFPE and SIGABRT. *)
Definition fatal_signals : list Z := [11; 10; 4; 8; 6].

(** [init_error_handlers], one step of the call [i]; [ok]: [pipe] or
    [pthread_create] succeeds.  The two stores of [pipe] are separate
    steps. *)
Definition init_error_handlers (w : faults) (i : nat) (ok : bool) (p : init_pc) : option faults :=
  match p with
  | IPipe =>
      if ok then
        let k := length (pipes w) in
        Some (init_goto (set_crash_pipe (set_pipes w (pipes w ++ [[]])) (Some k, (crash_pipe w).2)) i (IStore k))
      else Some (_exit w 1)
  | IStore k => Some (init_goto (set_crash_pipe w ((crash_pipe w).1, Some k)) i ISpawn)
  | ISpawn =>
      if ok then Some (init_goto (set_helpers w (helpers w ++ [PStart])) i (ISigs fatal_signals))
      else Some (_exit w 1)
  | ISigs (s :: sigs) => Some (init_goto (set_handled w (s :: handled w)) i (ISigs sigs))
  | ISigs [] => None
  end.

Section machine.
(** The trace a thread and a helper print of themselves. *)
Context (trace_of : writer -> unwind).

(** [write(crash_pipe[1], &sig, sizeof(sig))]; its result is not looked at. *)
Definition notify (w : faults) (sig : Z) : faults :=
  match (crash_pipe w).2 with Some k => set_pipes w (<[k := default [] (pipes w !! k) ++ [sig]]> (pipes w)) | None => w end.

(** [crash_handler] and [__public__runtime_error], one step of the thread
    [i]. *)
Definition crash_handler (w : faults) (i : nat) (p : fault_pc) : option faults :=
  match p with
  | HTest sig => Some (if handling_crash w then _exit w (128 + sig) else goto w i (HSet sig))
  | HSet sig => Some (goto (set_handling w) i (HPipe sig))
  | HPipe sig => Some (goto (notify w sig) i (HSleep sig))
  | HSleep sig => Some (_exit w (128 + sig))
  | _ => None
  end.

Definition runtime_error (w : faults) (i : nat) (p : fault_pc) : option faults :=
  match p with
  | RTest msg => Some (if handling_crash w then _exit w 1 else goto w i (RSet msg))
  | RSet msg =>
      trace ← print_stacktrace_internal (trace_of (WThread i));
      Some (goto (set_handling w) i (RWrites (match msg with Some m => [m; [10]] | None => [] end ++ trace)))
  | RWrites [] => Some (_exit w 1)
  | RWrites (t :: ts) => Some (goto (write_err w (WThread i) t) i (RWrites ts))
  | _ => None
  end.

(** [crash_thread_fn], one step of the helper [h]; [None] while it waits for
    its pipe. *)
Definition crash_thread_fn (w : faults) (h : nat) (p : helper_pc) : option faults :=
  match p with
  | PStart => Some (helper_goto w h (match (crash_pipe w).1 with Some k => PRead k | None => PGone end))
  | PRead k =>
      match pipes w !! k with
      | Some (sig :: rest) =>
          title ← fatal_title sig;
          trace ← print_stacktrace_internal (trace_of (WHelper h));
          Some (helper_goto (set_pipes w (<[k := rest]> (pipes w))) h (PWrites sig (title :: trace)))
      | _ => None
      end
  | PWrites sig [] => Some (_exit w (128 + sig))
  | PWrites sig (t :: ts) => Some (helper_goto (write_err w (WHelper h) t) h (PWrites sig ts))
  | PGone => None
  end.

(** A scheduler thread calls [init_error_handlers]; it takes a step there; a
    signal with the handler arrives in some thread; some thread calls
    [__public__runtime_error]; a thread or a helper takes a step. *)
Inductive fault_action := Start | Setup (i : nat) (ok : bool) | Signal (sig : Z) | Raise (msg : option (list Z)) | Thread (i : nat) | Helper (h : nat).

Definition fault_step (w : faults) (a : fault_action) : option faults :=
  match exited w with
  | Some _ => None
  | None =>
      match a with
      | Start => Some (set_inits w (inits w ++ [IPipe]))
      | Setup i ok => p ← inits w !! i; init_error_handlers w i ok p
      | Signal sig => if decide (sig ∈ handled w) then Some (set_threads w (threads w ++ [HTest sig])) else None
      | Raise msg => Some (set_threads w (threads w ++ [RTest msg]))
      | Thread i =>
          p ← threads w !! i;
          match p with
          | HTest _ | HSet _ | HPipe _ | HSleep _ => crash_handler w i p
          | _ => runtime_error w i p
          end
      | Helper h => p ← helpers w !! h; crash_thread_fn w h p
      end
  end.

Fixpoint fault_run (w : faults) (l : list fault_action) : option faults :=
  match l with [] => Some w | a :: l => w ← fault_step w a; fault_run w l end.

(** [__public__rterr_die]; [data] is [None] for a null pointer. *)
Definition __public__rterr_die (w : faults) (data : option (list Z)) : option faults :=
  buf ← data; msg ← c_text buf; fault_step w (Raise (Some msg)).
End machine.

(** * Reports of fatal errors on macOS *)

(** ** The trace *)

Lemma unw_line_length (frame ip : Z) (proc : option (list Z * Z)) : 0 <= frame < 2 ^ 31 ->
  exists line, unw_line frame ip proc = Some line /\ (0 < length line < BUF_SIZE)%nat.
Proof.
  intros Hf. unfold unw_line. destruct (show_nat_length frame Hf) as (d & -> & _ & Hd). cbn [mbind option_bind].
  pose proof (hex_loop_length 16 ip true). eexists. split; [done|]. destruct proc as [[name offset]|].
  - pose proof (hex_loop_length 16 offset false). unfold hex16, hex. rewrite !length_app, length_take. cbn [length]. unfold NAME_SIZE, BUF_SIZE. lia.
  - unfold hex16. rewrite !length_app. cbn [length]. unfold BUF_SIZE. lia.
Qed.

(** The frames up to the first one without an instruction pointer. *)
Fixpoint known_frames (frames : list unw_frame) : list (Z * option (list Z * Z)) :=
  match frames with
  | [] => []
  | f :: frames => match uf_ip f with None => [] | Some ip => (ip, uf_proc f) :: known_frames frames end
  end.

Definition line_of (i : Z) (f : Z * option (list Z * Z)) : list Z := default [] (unw_line i f.1 f.2).

Lemma unw_loop_ok (frames : list unw_frame) : forall (n : nat), (n <= 50)%nat ->
  unw_loop frames (Z.of_nat n) = Some (imap (fun i f => line_of (Z.of_nat (n + i)) f) (take (50 - n) (known_frames frames))).
Proof.
  induction frames as [|f frames IH]; intros n Hn; cbn [unw_loop known_frames]; [by rewrite take_nil|]. unfold MAX_FRAMES.
  destruct (Z.ltb_spec (Z.of_nat n) 50) as [Hlt|Hge]; cbn [negb].
  - destruct (uf_ip f) as [ip|]; [|by rewrite take_nil]. destruct (unw_line_length (Z.of_nat n) ip (uf_proc f)) as (line & El & Hl); [lia|].
    rewrite El. cbn [mbind option_bind]. replace (Z.of_nat n + 1) with (Z.of_nat (S n)) by lia. rewrite IH by lia. cbn [mbind option_bind].
    rewrite (proj2 (Z.ltb_lt 0 _)), (proj2 (Z.ltb_lt _ (Z.of_nat BUF_SIZE))) by lia. cbn [andb app].
    replace (50 - n)%nat with (S (50 - S n)) by lia. cbn [take imap]. f_equal. f_equal.
    + unfold line_of. cbn [fst snd]. by rewrite Nat.add_0_r, El.
    + apply imap_ext. intros i x _. unfold compose. do 2 f_equal. lia.
  - replace (50 - n)%nat with 0%nat by lia. done.
Qed.

(** The trace has a title and one line for each of the first 50
    frames libunwind gives an instruction pointer for; every line fits its
    buffer, so that none is left out. *)
Theorem unw_trace_spec (frames : list unw_frame) :
  print_stacktrace_internal (Frames frames) = Some (trace_title :: imap (fun i f => line_of (Z.of_nat i) f) (take 50 (known_frames frames))) /\
  Forall (fun l => (0 < length l < BUF_SIZE)%nat) (imap (fun i f => line_of (Z.of_nat i) f) (take 50 (known_frames frames))).
Proof.
  split.
  - unfold print_stacktrace_internal. change 0 with (Z.of_nat 0). rewrite unw_loop_ok by lia. cbn [mbind option_bind Nat.sub]. do 2 f_equal.
  - apply Forall_lookup. intros i l. rewrite list_lookup_imap. destruct (take 50 _ !! i) as [f|] eqn:Ef; [|done]. cbn. intros [= <-].
    apply lookup_take_Some in Ef as [_ Hi]. destruct (unw_line_length (Z.of_nat i) f.1 f.2) as (line & El & Hl); [lia|]. unfold line_of. by rewrite El.
Qed.

(** ** The handlers *)
Section machine.
Context (trace_of : writer -> unwind).

(** What a writer has written. *)
Definition out_of (w : faults) (who : writer) : list (list Z) := snd <$> filter (fun x => x.1 = who) (written w).

Lemma out_of_write (w : faults) (who who' : writer) (t : list Z) :
  out_of (write_err w who t) who' = if decide (who = who') then out_of w who' ++ [t] else out_of w who'.
Proof.
  unfold out_of, write_err. cbn [written]. rewrite filter_app, fmap_app. case_decide as Hd.
  - by rewrite filter_cons_True.
  - rewrite filter_cons_False by done. by rewrite app_nil_r.
Qed.

(** The whole report of a signal by the helper [h], and the whole text of a
    runtime error of the thread [i]. *)
Definition report (h : nat) (sig : Z) : option (list (list Z)) :=
  title ← fatal_title sig; trace ← print_stacktrace_internal (trace_of (WHelper h)); Some (title :: trace).
Definition error_text (i : nat) (msg : option (list Z)) : option (list (list Z)) :=
  trace ← print_stacktrace_internal (trace_of (WThread i)); Some (match msg with Some m => [m; [10]] | None => [] end ++ trace).

(** What a thread and a helper at a program point have written. *)
Definition pc_ok (l : list fault_action) (out : list (list Z)) (i : nat) (p : fault_pc) : Prop :=
  match p with
  | HTest sig | HSet sig | HPipe sig | HSleep sig => Signal sig ∈ l /\ out = []
  | RTest msg | RSet msg => Raise msg ∈ l /\ out = []
  | RWrites ws => exists msg, Raise msg ∈ l /\ error_text i msg = Some (out ++ ws)
  end.

Definition helper_ok (l : list fault_action) (out : list (list Z)) (h : nat) (p : helper_pc) : Prop :=
  match p with
  | PStart | PRead _ | PGone => out = []
  | PWrites sig ws => Signal sig ∈ l /\ report h sig = Some (out ++ ws)
  end.

(** Reports begun, signals in the pipes, and threads that have written their
    signal to a pipe. *)
Definition begun (p : helper_pc) : Z := match p with PWrites _ _ => 1 | _ => 0 end.
Definition waiting (l : list Z) : Z := Z.of_nat (length l).
Definition notified (p : fault_pc) : Z := match p with HSleep _ => 1 | _ => 0 end.

Definition exit_ok (l : list fault_action) (e : Z) : Prop :=
  e = 1 /\ ((exists msg, Raise msg ∈ l) \/ exists i, Setup i false ∈ l) \/ exists sig, e = 128 + sig /\ Signal sig ∈ l.

Record fault_inv (l : list fault_action) (w : faults) : Prop := {
  FI_pipe : forall k x sig, pipes w !! k = Some x -> sig ∈ x -> Signal sig ∈ l;
  FI_threads : forall i p, threads w !! i = Some p -> pc_ok l (out_of w (WThread i)) i p;
  FI_fresh : forall i, threads w !! i = None -> out_of w (WThread i) = [];
  FI_helpers : forall h p, helpers w !! h = Some p -> helper_ok l (out_of w (WHelper h)) h p;
  FI_new : forall h, helpers w !! h = None -> out_of w (WHelper h) = [];
  FI_count : sum_of begun (helpers w) + sum_of waiting (pipes w) <= sum_of notified (threads w);
  FI_exit : forall e, exited w = Some e -> exit_ok l e
}.

Lemma inv_mono (l : list fault_action) (a : fault_action) (w : faults) : fault_inv l w -> fault_inv (l ++ [a]) w.
Proof.
  assert (forall x, x ∈ l -> x ∈ l ++ [a]) as Hm by (intros x Hx; apply elem_of_app; by left).
  intros [I1 I2 I3 I4 I5 I6 I7]. split; try done.
  - eauto.
  - intros i p Hp. specialize (I2 i p Hp). destruct p; cbn in *; naive_solver.
  - intros h p Hp. specialize (I4 h p Hp). destruct p; cbn in *; naive_solver.
  - intros e He. specialize (I7 e He). unfold exit_ok in *. naive_solver.
Qed.

Lemma inv_exit (l : list fault_action) (w : faults) (e : Z) : fault_inv l w -> exit_ok l e -> fault_inv l (_exit w e).
Proof. intros [I1 I2 I3 I4 I5 I6 I7] He. split; try done. intros e' [= <-]. done. Qed.

Lemma out_of_same (w w' : faults) : written w' = written w -> forall who, out_of w' who = out_of w who.
Proof using Type. intros Hw who. unfold out_of. by rewrite Hw. Qed.

(** A thread moves on without writing. *)
Lemma inv_goto (l : list fault_action) (w w' : faults) (i : nat) (p p' : fault_pc) : fault_inv l w -> threads w !! i = Some p ->
  threads w' = <[i := p']> (threads w) -> helpers w' = helpers w -> written w' = written w -> exited w' = exited w ->
  (forall k x sig, pipes w' !! k = Some x -> sig ∈ x -> Signal sig ∈ l) ->
  sum_of waiting (pipes w') + notified p <= sum_of waiting (pipes w) + notified p' ->
  pc_ok l (out_of w (WThread i)) i p' -> fault_inv l w'.
Proof.
  intros [I1 I2 I3 I4 I5 I6 I7] Hp Ht Hh Hw He Hpi Hn Hok. pose proof (out_of_same w w' Hw) as Ho. split; rewrite ?Hh, ?He; try done.
  - intros j q. rewrite Ht, Ho. intros Hj. by destruct (insert_cases _ _ _ _ _ _ Hp Hj) as [[-> ->]|[_ Hj']]; [|auto].
  - intros j. rewrite Ht, Ho, list_lookup_insert_None. naive_solver.
  - intros h q. rewrite Ho. auto.
  - intros h. rewrite Ho. auto.
  - rewrite Ht, (sum_of_insert _ _ _ _ _ Hp). lia.
Qed.

(** A helper moves on without writing. *)
Lemma inv_helper_goto (l : list fault_action) (w w' : faults) (h : nat) (p p' : helper_pc) : fault_inv l w -> helpers w !! h = Some p ->
  helpers w' = <[h := p']> (helpers w) -> threads w' = threads w -> written w' = written w -> exited w' = exited w ->
  (forall k x sig, pipes w' !! k = Some x -> sig ∈ x -> Signal sig ∈ l) ->
  sum_of waiting (pipes w') + begun p' <= sum_of waiting (pipes w) + begun p ->
  helper_ok l (out_of w (WHelper h)) h p' -> fault_inv l w'.
Proof.
  intros [I1 I2 I3 I4 I5 I6 I7] Hp Hh Ht Hw He Hpi Hn Hok. pose proof (out_of_same w w' Hw) as Ho. split; rewrite ?Ht, ?He; try done.
  - intros j q. rewrite Ho. auto.
  - intros j. rewrite Ho. auto.
  - intros j q. rewrite Hh, Ho. intros Hj. by destruct (insert_cases _ _ _ _ _ _ Hp Hj) as [[-> ->]|[_ Hj']]; [|auto].
  - intros j. rewrite Hh, Ho, list_lookup_insert_None. naive_solver.
  - rewrite Hh, (sum_of_insert _ _ _ _ _ Hp). lia.
Qed.

(** A thread or a helper writes the next text it has left. *)
Lemma inv_write (l : list fault_action) (w : faults) (i : nat) (t : list Z) (ts : list (list Z)) : fault_inv l w ->
  threads w !! i = Some (RWrites (t :: ts)) -> fault_inv l (goto (write_err w (WThread i) t) i (RWrites ts)).
Proof.
  intros [I1 I2 I3 I4 I5 I6 I7] Hp.
  assert (forall who, out_of (goto (write_err w (WThread i) t) i (RWrites ts)) who = if decide (WThread i = who) then out_of w who ++ [t] else out_of w who)
    as Ho by (intros who; rewrite <- out_of_write; by apply out_of_same).
  split; try done; cbn [threads helpers goto set_threads write_err].
  - intros j q Hj. rewrite Ho. destruct (insert_cases _ _ _ _ _ _ Hp Hj) as [[-> ->]|[Hne Hj']].
    + rewrite decide_True by done. destruct (I2 i _ Hp) as (msg & Hm & He). exists msg. split; [done|]. by rewrite <- app_assoc.
    + rewrite decide_False by congruence. auto.
  - intros j. rewrite Ho, list_lookup_insert_None. intros Hj. rewrite decide_False by (intros [= ->]; congruence). auto.
  - intros h q. rewrite Ho, decide_False by done. auto.
  - intros h. rewrite Ho, decide_False by done. auto.
  - rewrite (sum_of_insert _ _ _ _ _ Hp). cbn [notified pipes goto set_threads write_err]. lia.
Qed.

Lemma inv_helper_write (l : list fault_action) (w : faults) (h : nat) (sig : Z) (t : list Z) (ts : list (list Z)) : fault_inv l w ->
  helpers w !! h = Some (PWrites sig (t :: ts)) -> fault_inv l (helper_goto (write_err w (WHelper h) t) h (PWrites sig ts)).
Proof.
  intros [I1 I2 I3 I4 I5 I6 I7] Hp.
  assert (forall who, out_of (helper_goto (write_err w (WHelper h) t) h (PWrites sig ts)) who = if decide (WHelper h = who) then out_of w who ++ [t] else out_of w who)
    as Ho by (intros who; rewrite <- out_of_write; by apply out_of_same).
  split; try done; cbn [threads helpers helper_goto set_helpers write_err].
  - intros j q. rewrite Ho, decide_False by done. auto.
  - intros j. rewrite Ho, decide_False by done. auto.
  - intros j q Hj. rewrite Ho. destruct (insert_cases _ _ _ _ _ _ Hp Hj) as [[-> ->]|[Hne Hj']].
    + rewrite decide_True by done. destruct (I4 h _ Hp) as [Hs Hr]. split; [done|]. by rewrite <- app_assoc.
    + rewrite decide_False by congruence. auto.
  - intros j. rewrite Ho, list_lookup_insert_None. intros Hj. rewrite decide_False by (intros [= ->]; congruence). auto.
  - rewrite (sum_of_insert _ _ _ _ _ Hp). cbn [begun pipes helper_goto set_helpers write_err]. lia.
Qed.

(** A signal arrives at the end of a pipe, if there is one. *)
Lemma notify_pipes (w : faults) (sig : Z) : sum_of waiting (pipes (notify w sig)) <= sum_of waiting (pipes w) + 1 /\
  forall k x s, pipes (notify w sig) !! k = Some x -> s ∈ x -> s = sig \/ exists y, pipes w !! k = Some y /\ s ∈ y.
Proof using Type.
  unfold notify. destruct (crash_pipe w).2 as [k|]; [|split; [lia|eauto]]. cbn [set_pipes pipes].
  destruct (pipes w !! k) as [y|] eqn:Hk.
  - change (default [] (Some y)) with y. split; [rewrite (sum_of_insert _ _ _ _ _ Hk); unfold waiting at 2 3; rewrite length_app; cbn [length]; lia|].
    intros j x s Hj Hs. destruct (insert_cases _ _ _ _ _ _ Hk Hj) as [[-> ->]|[_ Hj']]; [|eauto].
    apply elem_of_app in Hs as [Hs|Hs%list_elem_of_singleton]; eauto.
  - rewrite list_insert_ge by (by apply lookup_ge_None). split; [lia|eauto].
Qed.

Lemma inv_thread (l : list fault_action) (w w' : faults) (i : nat) : fault_inv l w -> fault_step trace_of w (Thread i) = Some w' -> fault_inv l w'.
Proof.
  intros I E. unfold fault_step in E. destruct (exited w) eqn:Ee; [done|]. destruct (threads w !! i) as [p|] eqn:Hp; [|done]. cbn [mbind option_bind] in E.
  pose proof (FI_threads l w I i p Hp) as Hok. destruct p as [sig|sig|sig|sig|msg|msg|[|t ts]]; cbn [crash_handler runtime_error] in E.
  - injection E as <-. destruct (handling_crash w); [apply inv_exit; [done|]; right; exists sig; naive_solver|]. eapply inv_goto; try done. apply I.
  - injection E as <-. eapply inv_goto; try done. apply I.
  - injection E as <-. destruct (notify_pipes w sig) as [Hn Hin].
    assert (threads (notify w sig) = threads w /\ helpers (notify w sig) = helpers w /\ written (notify w sig) = written w /\ exited (notify w sig) = exited w)
      as (Et & Eh & Ew & Ex) by (unfold notify; by destruct (crash_pipe w).2).
    eapply inv_goto; [exact I|exact Hp|cbn; by rewrite Et|done..| | |].
    + cbn [goto set_threads pipes]. intros k x s Hk Hs. destruct (Hin k x s Hk Hs) as [->|(y & Hy & Hs')]; [apply Hok|by eapply I].
    + cbn [goto set_threads pipes notified]. lia.
    + done.
  - injection E as <-. apply inv_exit; [done|]. right. exists sig. naive_solver.
  - injection E as <-. destruct (handling_crash w); [apply inv_exit; [done|]; left; naive_solver|]. eapply inv_goto; try done. apply I.
  - destruct (print_stacktrace_internal (trace_of (WThread i))) as [trace|] eqn:Et; [|done]. cbn [mbind option_bind] in E. injection E as <-.
    eapply inv_goto; try done; [apply I|]. destruct Hok as [Hm Ho]. rewrite Ho. exists msg. split; [done|]. unfold error_text. by rewrite Et.
  - injection E as <-. apply inv_exit; [done|]. left. split; [done|]. left. destruct Hok as (msg & Hm & _). eauto.
  - injection E as <-. by apply inv_write.
Qed.

Lemma inv_helper (l : list fault_action) (w w' : faults) (h : nat) : fault_inv l w -> fault_step trace_of w (Helper h) = Some w' -> fault_inv l w'.
Proof.
  intros I E. unfold fault_step in E. destruct (exited w) eqn:Ee; [done|]. destruct (helpers w !! h) as [p|] eqn:Hp; [|done]. cbn [mbind option_bind] in E.
  pose proof (FI_helpers l w I h p Hp) as Hok. destruct p as [|k|sig [|t ts]|]; cbn [crash_thread_fn] in E; [| | | |done].
  - injection E as <-. eapply inv_helper_goto; [exact I|exact Hp|done..|apply I| |]; by destruct (crash_pipe w).1.
  - destruct (pipes w !! k) as [[|sig rest]|] eqn:Hk; [done| |done]. destruct (fatal_title sig) as [title|] eqn:Et; [|done]. cbn [mbind option_bind] in E.
    destruct (print_stacktrace_internal (trace_of (WHelper h))) as [trace|] eqn:Etr; [|done]. cbn [mbind option_bind] in E. injection E as <-.
    assert (forall s, s ∈ sig :: rest -> Signal s ∈ l) as Hs by (intros s; by apply (FI_pipe l w I k _ s Hk)).
    eapply inv_helper_goto; [exact I|exact Hp|done..| | |].
    + cbn [helper_goto set_helpers set_pipes pipes]. intros j x s Hj Hin. destruct (insert_cases _ _ _ _ _ _ Hk Hj) as [[-> ->]|[_ Hj']]; [|by eapply I].
      apply Hs. by right.
    + cbn [helper_goto set_helpers set_pipes pipes begun]. rewrite (sum_of_insert _ _ _ _ _ Hk). unfold waiting at 2 3. cbn [length]. lia.
    + split; [apply Hs; by left|]. unfold report. rewrite Et, Etr. cbn in *. by rewrite Hok.
  - injection E as <-. apply inv_exit; [done|]. right. exists sig. naive_solver.
  - injection E as <-. by apply inv_helper_write.
Qed.

Lemma sum_of_snoc {A} (f : A -> Z) (k : list A) (x : A) : sum_of f (k ++ [x]) = sum_of f k + f x.
Proof using Type. unfold sum_of. induction k as [|y k IH]; cbn [app foldr]; lia. Qed.

(** A thread enters one of the functions. *)
Lemma inv_arrive (l : list fault_action) (w : faults) (p : fault_pc) : fault_inv l w -> pc_ok l [] (length (threads w)) p -> 0 <= notified p ->
  fault_inv l (set_threads w (threads w ++ [p])).
Proof.
  intros [I1 I2 I3 I4 I5 I6 I7] Hok Hn. split; try done; cbn [threads set_threads].
  - intros i q. rewrite lookup_app_Some. intros [Hi|[Hge Hi]]; [by apply I2|].
    apply list_lookup_singleton_Some in Hi as [Hz <-]. assert (i = length (threads w)) as -> by lia.
    change (pc_ok l (out_of w (WThread (length (threads w)))) (length (threads w)) p). rewrite I3; [done|]. by apply lookup_ge_None_2.
  - intros i Hi. apply I3. apply lookup_ge_None_1 in Hi. rewrite length_app in Hi. apply lookup_ge_None_2. lia.
  - rewrite sum_of_snoc. cbn [helpers pipes set_threads]. lia.
Qed.

(** The steps of [init_error_handlers] add a pipe or a helper. *)
Lemma inv_init (l : list fault_action) (w w' : faults) (i : nat) (ok : bool) (p : init_pc) : fault_inv l w -> (ok = false -> Setup i false ∈ l) ->
  init_error_handlers w i ok p = Some w' -> fault_inv l w'.
Proof.
  intros I Hf E. assert (ok = false -> fault_inv l (_exit w 1)) as Hexit by (intros Hk; apply inv_exit; [done|]; left; eauto).
  destruct p as [|k| |[|s sigs]]; cbn [init_error_handlers] in E; [| | |done|]; try (destruct ok; [|injection E as <-; by apply Hexit]); injection E as <-;
    destruct I as [I1 I2 I3 I4 I5 I6 I7]; split; try done; cbn [pipes helpers threads init_goto set_inits set_crash_pipe set_pipes set_helpers].
  - intros k x sig. rewrite lookup_app_Some. intros [Hk|[_ Hk]]; [by eapply I1|]. apply list_lookup_singleton_Some in Hk as [_ <-]. by intros ?%elem_of_nil.
  - rewrite sum_of_snoc. change (waiting []) with 0. lia.
  - intros h p. rewrite lookup_app_Some. intros [Hh|[Hge Hh]]; [by apply I4|].
    apply list_lookup_singleton_Some in Hh as [Hz <-]. apply (I5 h). by apply lookup_ge_None_2.
  - intros h Hh. apply I5. apply lookup_ge_None_1 in Hh. rewrite length_app in Hh. apply lookup_ge_None_2. lia.
  - rewrite sum_of_snoc. cbn [begun]. lia.
Qed.

Lemma fault_inv_step (l : list fault_action) (w w' : faults) (a : fault_action) : fault_inv l w -> fault_step trace_of w a = Some w' -> fault_inv (l ++ [a]) w'.
Proof.
  intros I E. pose proof (inv_mono l a w I) as I'. assert (a ∈ l ++ [a]) as Ha by (apply elem_of_app; right; by left).
  destruct a as [|i ok|sig|msg|i|h]; [| | | |by eapply inv_thread|by eapply inv_helper]; unfold fault_step in E; destruct (exited w) eqn:Ee; try done.
  - injection E as <-. destruct I'. split; done.
  - destruct (inits w !! i) as [p|]; [|done]. cbn [mbind option_bind] in E. eapply inv_init; [exact I'| |exact E]. by intros ->.
  - case_decide; [|done]. injection E as <-. by apply inv_arrive.
  - injection E as <-. by apply inv_arrive.
Qed.

Lemma fault_inv_run (k : list fault_action) : forall l w w', fault_inv l w -> fault_run trace_of w k = Some w' -> fault_inv (l ++ k) w'.
Proof.
  induction k as [|a k IH]; intros l w w' I E; cbn [fault_run] in E; [injection E as <-; by rewrite app_nil_r|].
  destruct (fault_step trace_of w a) as [w1|] eqn:E1; [|done]. cbn [mbind option_bind] in E. rewrite cons_middle, app_assoc.
  eapply IH; [|exact E]. by eapply fault_inv_step.
Qed.

Lemma faults_start_inv : fault_inv [] faults_start.
Proof. by split. Qed.

(** C35: fatal errors on macOS, whatever the interleaving of the calls of
    [init_error_handlers], of crashing threads, runtime errors and helpers.
    A helper writes at most one report, that of a signal that was raised:
    what it has written is always a beginning of it.  At most as many
    reports are begun as threads have passed the test of [handling_crash]
    and written their signal to a pipe, so several can be
    ([two_reports]).  A thread writes only the text of its own runtime error.
    The status the process ends with is 128 plus the number of a signal that
    was raised, or 1 after a runtime error or a call of [pipe] or
    [pthread_create] that failed. *)
Theorem fault_reports (l : list fault_action) (w : faults) : fault_run trace_of faults_start l = Some w ->
  (forall h, out_of w (WHelper h) = [] \/ exists sig ws, Signal sig ∈ l /\ report h sig = Some (out_of w (WHelper h) ++ ws)) /\
  sum_of begun (helpers w) <= sum_of notified (threads w) /\
  (forall i, out_of w (WThread i) = [] \/ exists msg ws, Raise msg ∈ l /\ error_text i msg = Some (out_of w (WThread i) ++ ws)) /\
  (forall e, exited w = Some e ->
     e = 1 /\ ((exists msg, Raise msg ∈ l) \/ exists i, Setup i false ∈ l) \/ exists sig, e = 128 + sig /\ Signal sig ∈ l).
Proof.
  intros E. destruct (fault_inv_run l [] faults_start w faults_start_inv E) as [_ I2 I3 I4 I5 I6 I7]. cbn [app] in *. split_and!.
  - intros h. destruct (helpers w !! h) as [p|] eqn:Hp; [|left; auto]. specialize (I4 h p Hp). destruct p; cbn in I4; try (by left).
    right. destruct I4 as [Hs Hr]. eauto.
  - pose proof (sum_of_nonneg waiting (pipes w) ltac:(intros x; unfold waiting; lia)). lia.
  - intros i. destruct (threads w !! i) as [p|] eqn:Hp; [|left; auto]. specialize (I2 i p Hp). destruct p; cbn in I2; try (left; by destruct I2).
    right. destruct I2 as (msg & Hm & He). eauto.
  - exact I7.
Qed.

Lemma trace_some (u : unwind) : is_Some (print_stacktrace_internal u).
Proof. destruct u as [| |frames]; [done..|]. destruct (unw_trace_spec frames) as [-> _]. done. Qed.

Lemma step_thread (w : faults) (i : nat) (p : fault_pc) (k : nat) (w1 : faults) : exited w = None -> threads w !! i = Some p ->
  match p with HTest _ | HSet _ | HPipe _ | HSleep _ => crash_handler w i p | _ => runtime_error trace_of w i p end = Some w1 ->
  fault_run trace_of w (replicate (S k) (Thread i)) = fault_run trace_of w1 (replicate k (Thread i)).
Proof. intros He Hp E. cbn [replicate fault_run]. unfold fault_step at 1. rewrite He, Hp. cbn [mbind option_bind]. rewrite E. done. Qed.

(** The writes of a runtime error end. *)
Lemma writes_end (i : nat) (ws : list (list Z)) : forall w, exited w = None -> threads w !! i = Some (RWrites ws) ->
  exists w', fault_run trace_of w (replicate (S (length ws)) (Thread i)) = Some w' /\ exited w' = Some 1.
Proof.
  induction ws as [|t ts IH]; intros w He Hp; cbn [length]; rewrite (step_thread w i _ _ _ He Hp eq_refl); [by eexists|].
  apply IH; [done|]. cbn [goto write_err threads]. apply list_lookup_insert_eq. by eapply lookup_lt_Some.
Qed.

(** The steps a crashing thread needs at most. *)
Definition handler_steps (p : fault_pc) : nat :=
  match p with HTest _ => 4 | HSet _ => 3 | HPipe _ => 2 | HSleep _ => 1 | _ => 0 end.

Lemma handler_ends (i : nat) (p : fault_pc) (sig : Z) : p = HTest sig \/ p = HSet sig \/ p = HPipe sig \/ p = HSleep sig ->
  forall w, exited w = None -> threads w !! i = Some p ->
  exists k w', (k <= handler_steps p)%nat /\ fault_run trace_of w (replicate k (Thread i)) = Some w' /\ exited w' = Some (128 + sig).
Proof.
  assert (forall w q, threads w !! i = Some q -> forall p', <[i := p']> (threads w) !! i = Some p') as Hins.
  { intros w q Hq p'. apply list_lookup_insert_eq. by eapply lookup_lt_Some. }
  assert (forall w, exited w = None -> threads w !! i = Some (HSleep sig) -> exists k w', (k <= 1)%nat /\
    fault_run trace_of w (replicate k (Thread i)) = Some w' /\ exited w' = Some (128 + sig)) as H1.
  { intros w He Hp. exists 1%nat. rewrite (step_thread w i _ 0 _ He Hp eq_refl). by eexists. }
  assert (forall w, exited w = None -> threads w !! i = Some (HPipe sig) -> exists k w', (k <= 2)%nat /\
    fault_run trace_of w (replicate k (Thread i)) = Some w' /\ exited w' = Some (128 + sig)) as H2.
  { intros w He Hp. edestruct H1 as (k & w' & Hk & E & Ex); [| |exists (S k), w'; split; [lia|]; rewrite (step_thread w i _ k _ He Hp eq_refl); split; [exact E|exact Ex]];
      unfold notify; destruct (crash_pipe w).2; (done || by eapply Hins). }
  assert (forall w, exited w = None -> threads w !! i = Some (HSet sig) -> exists k w', (k <= 3)%nat /\
    fault_run trace_of w (replicate k (Thread i)) = Some w' /\ exited w' = Some (128 + sig)) as H3.
  { intros w He Hp. edestruct H2 as (k & w' & Hk & E & Ex); [| |exists (S k), w'; split; [lia|]; rewrite (step_thread w i _ k _ He Hp eq_refl); split; [exact E|exact Ex]];
      [done|by eapply Hins]. }
  intros [->|[->|[->| ->]]] w He Hp; cbn [handler_steps]; auto. destruct (handling_crash w) eqn:Eh.
  - exists 1%nat. rewrite (step_thread w i _ 0 (_exit w (128 + sig)) He Hp) by (cbn; by rewrite Eh). eexists. split; [lia|]. done.
  - edestruct H3 as (k & w' & Hk & E & Ex); [| |exists (S k), w'; split; [lia|];
      rewrite (step_thread w i _ k (goto w i (HSet sig)) He Hp) by (cbn; by rewrite Eh); split; [exact E|exact Ex]]; [done|by eapply Hins].
Qed.

(** A fatal error ends the process.  From any state in which the process
    is alive, a thread in [crash_handler] ends it by at most four steps of
    its own, with 128 plus its signal, and a thread in
    [__public__runtime_error] by steps of its own, with status 1: neither
    waits for the helper or for another thread. *)
Theorem fault_ends (w : faults) (i : nat) (p : fault_pc) : exited w = None -> threads w !! i = Some p ->
  exists k w' e, fault_run trace_of w (replicate k (Thread i)) = Some w' /\ exited w' = Some e /\
    match p with
    | HTest sig | HSet sig | HPipe sig | HSleep sig => e = 128 + sig /\ (k <= 4)%nat
    | RTest _ | RSet _ | RWrites _ => e = 1
    end.
Proof.
  intros He Hp. assert (forall w q, threads w !! i = Some q -> forall p', <[i := p']> (threads w) !! i = Some p') as Hins.
  { intros w1 q Hq p'. apply list_lookup_insert_eq. by eapply lookup_lt_Some. }
  assert (forall w msg, exited w = None -> threads w !! i = Some (RSet msg) -> exists k w', fault_run trace_of w (replicate k (Thread i)) = Some w' /\ exited w' = Some 1) as HR.
  { intros w1 msg He1 Hp1. destruct (trace_some (trace_of (WThread i))) as [trace Et]. edestruct writes_end as (w' & E & Ex);
      [| |eexists _, w'; erewrite (step_thread w1 i _ _ _ He1 Hp1) by (cbn [runtime_error]; rewrite Et; reflexivity); split; [exact E|exact Ex]]; [done|].
    by eapply Hins. }
  assert (forall sig, p = HTest sig \/ p = HSet sig \/ p = HPipe sig \/ p = HSleep sig -> exists k w' e,
    fault_run trace_of w (replicate k (Thread i)) = Some w' /\ exited w' = Some e /\ e = 128 + sig /\ (k <= 4)%nat) as HH.
  { intros sig Hs. destruct (handler_ends i p sig Hs w He Hp) as (k & w' & Hk & E & Ex). exists k, w', (128 + sig). do 3 (split; [done|]).
    destruct p; cbn [handler_steps] in Hk; lia. }
  destruct p as [sig|sig|sig|sig|msg|msg|ws]; try (apply HH; by auto).
  - destruct (handling_crash w) eqn:Eh.
    + exists 1%nat, (_exit w 1), 1. rewrite (step_thread w i _ 0 (_exit w 1) He Hp) by (cbn; by rewrite Eh). done.
    + edestruct (HR (goto w i (RSet msg)) msg) as (k & w' & E & Ex); [done|by eapply Hins|]. exists (S k), w', 1.
      rewrite (step_thread w i _ k (goto w i (RSet msg)) He Hp) by (cbn; by rewrite Eh). done.
  - destruct (HR w msg He Hp) as (k & w' & E & Ex). eauto 6.
  - destruct (writes_end i ws w He Hp) as (w' & E & Ex). eauto 6.
Qed.
End machine.

(** ** Instances *)

Definition no_trace (_ : writer) : unwind := NoContext.

(** The call [i] of [init_error_handlers], on its own. *)
Definition init_run (i : nat) : list fault_action := Start :: replicate 8 (Setup i true).
(** Two scheduler threads set up their handlers; both helpers read. *)
Definition two_inits : list fault_action := init_run 0 ++ init_run 1 ++ [Helper 0; Helper 1].

Definition one_crash : list fault_action := two_inits ++ [Signal 11; Thread 0; Thread 0; Thread 0; Helper 1; Helper 1; Helper 1; Helper 1; Helper 1].

Lemma fault_reports_witness : exists w, fault_run no_trace faults_start one_crash = Some w /\
  exited w = Some 139 /\ report no_trace 1 11 = Some (out_of w (WHelper 1)) /\ sum_of begun (helpers w) <= 1.
Proof.
  destruct (fault_run no_trace faults_start one_crash) as [w|] eqn:E; [|by vm_compute in E].
  destruct (fault_reports no_trace one_crash w E) as (_ & Hn & _). exists w. split; [done|].
  assert (exited w = Some 139 /\ report no_trace 1 11 = Some (out_of w (WHelper 1)) /\ sum_of notified (threads w) = 1) as (E1 & E2 & E3)
    by (vm_compute in E; injection E as <-; by vm_compute).
  split; [exact E1|]. split; [exact E2|]. rewrite E3 in Hn. exact Hn.
Defined.

Lemma fault_ends_witness : exists k w', fault_run no_trace (FaultState false [] (None, None) [] [] [HTest 11] [] [] None) (replicate k (Thread 0)) = Some w' /\ exited w' = Some 139.
Proof.
  destruct (fault_ends no_trace (FaultState false [] (None, None) [] [] [HTest 11] [] [] None) 0 (HTest 11)) as (k & w' & e & E & Ex & He & _); [reflexivity|reflexivity|].
  exists k, w'. split; [exact E|]. rewrite Ex, He. reflexivity.
Defined.

(** A second crash while the first one waits for its report ends the process
    at once: no report is written. *)
Example second_crash_silent : exists w, fault_run no_trace faults_start (two_inits ++ [Signal 11; Thread 0; Thread 0; Thread 0; Signal 10; Thread 1]) = Some w /\
  exited w = Some 138 /\ written w = [].
Proof. eexists. split; [vm_compute; reflexivity|]. split; reflexivity. Qed.

(** The two reports of two threads that crash at the same time. *)
Definition two_crashes : list fault_action :=
  two_inits ++ [Signal 11; Signal 10; Thread 0; Thread 1; Thread 0; Thread 1; Thread 0; Thread 1; Helper 1; Helper 0; Helper 1; Helper 0; Helper 1].

(** Two threads that both find [handling_crash] clear write two signals, and
    two helpers begin a report each, line by line among each other. *)
Example two_reports : exists w, fault_run no_trace faults_start two_crashes = Some w /\
  sum_of begun (helpers w) = 2 /\ (fst <$> written w) = [WHelper 1; WHelper 0; WHelper 1].
Proof. eexists. split; [vm_compute; reflexivity|]. split; reflexivity. Qed.

(** The two words of [crash_pipe] are stored one after the other: of two
    threads in [pipe] at the same time one may store the reading end last and
    the other the writing end. *)
Definition mixed_inits : list fault_action :=
  [Start; Start; Setup 0 true; Setup 1 true; Setup 1 true; Setup 0 true] ++ replicate 6 (Setup 0 true) ++ replicate 6 (Setup 1 true) ++
  [Helper 0; Helper 1].

(** Then no helper reads the pipe the handlers write to: a crash is not
    reported, and the process ends when the handler has slept. *)
Example mixed_pipe_silent : exists w, fault_run no_trace faults_start (mixed_inits ++ [Signal 11; Thread 0; Thread 0; Thread 0]) = Some w /\
  crash_pipe w = (Some 1%nat, Some 0%nat) /\ fault_step no_trace w (Helper 0) = None /\ fault_step no_trace w (Helper 1) = None /\
  exists w', fault_step no_trace w (Thread 0) = Some w' /\ exited w' = Some 139 /\ written w' = [].
Proof. eexists. split; [vm_compute; reflexivity|]. split_and!; try reflexivity. eexists. split; [reflexivity|]. by split. Qed.
