(* ===== verification/Runs.v ===== *)
(** * Runs: the scheduler as a whole

    The twelve threads of [scheduler_run], the tasks they run, the timers
    and the tasks that these tasks start, as one machine: its state is the
    memory of the runtime and the place each thread has reached, its steps
    are the operations of Tasks.v and Dispatch.v, in any order.  An
    invariant ties the two together; every step that the state allows
    succeeds and keeps it, and [main] establishes it. *)

From S2P Require Import Prelude World Mem Dll Alloc AllocOs AllocMain AllocRoom AllocSpec Heap Queue QueueSpec RingSpec.
From S2P Require Import Gc GcCollect Reserve Bytes Tasks TaskSpec ThreadSpec TaskThms Startup StartupSpec StartupThms Dispatch DispatchSpec DispatchThms.

(** Where a scheduler thread is: about to take a task; asleep in
    [safe_q_pop_wait]; in a task; back from a task that yielded, or that
    returned from [task_trampoline]; or out of its loop. *)
Inductive place := Idle | Sleeping | On (t : Z) | Yielded (t : Z) | Finished (t : Z) | Gone.

(** The task a thread is responsible for, in no queue. *)
Definition holds (p : place) : list Z := match p with On t | Finished t => [t] | _ => [] end.

(** What the field [current] of the thread is. *)
Definition current (p : place) : Z := match p with On t | Yielded t | Finished t => t | _ => NULL end.

(** The next operation: a thread takes a task or wakes up; the task on a
    thread starts another one, checks for preemption or returns; the timer
    of a thread fires; a thread deals with the task that switched back. *)
Inductive raction := Pop (i : nat) | Wake (i : nat) | Spawn (i : nat) (fn : Z) (args : list Z) (r1 r2 uc : Z)
  | Tick (i : nat) | Yield (i : nat) | Return (i : nat) | Settle (i : nat).

(** The tasks in the ready queues, and those the threads hold. *)
Definition queued (qss : list (list (Z * Z))) : list Z := qss ≫= fun qs => qs.*2.
Definition held (ps : list place) : list Z := ps ≫= holds.

Section run.
Context `{OS} {Ffi : FFI}.
Context (makecontext : Z -> Z -> Z -> Z -> Z * Z * (Z -> Z)).

(** The machine, the places of its threads and what [makecontext] was given
    for each task that has not returned: the payload, and the callee and
    arguments that [thread] packed in it. *)
Record run := Run { r_mc : machine; r_places : list place; r_jobs : gmap Z (Z * Z * list Z) }.

(** A signalled thread goes round the loop of [safe_q_pop_wait] again. *)
Definition wake_thread (w : machine) (i : nat) : option machine :=
  let rt := mc_rt w in
  q ← ready_qs rt !! i;
  match woken (q_cond q) with
  | O => None
  | S k =>
      let q := SafeQueue (q_size_limit q) (q_head q) (q_tail q) (q_lock q) (Cond (waiting (q_cond q)) k) in
      Some (Machine (Runtime (rt_gc rt) (<[i := q]> (ready_qs rt)) (task_count rt)) (mc_waits w) (mc_kts w) (preempt w))
  end.

(** [task_trampoline] of the task [t], from the return of the callee on. *)
Definition task_return (w : machine) (t payload : Z) : option machine :=
  let rt := mc_rt w in
  s ← arena_of (rt_gc rt);
  s ← task_finish s t payload;
  let c := set_state (with_arena (rt_gc rt) s) t TASK_FINISHED in
  Some (Machine (Runtime c (ready_qs rt) (task_count rt)) (mc_waits w) (mc_kts w) (preempt w)).

(** No collection goes on. *)
Definition quiet : world := World false 0 0 None None CIdle [].

Definition run_step (w : run) (a : raction) : option run :=
  let mc := r_mc w in
  let at_ i p mc := Run mc (<[i := p]> (r_places w)) (r_jobs w) in
  match a with
  | Pop i =>
      p ← r_places w !! i;
      match p with
      | Idle =>
          '(r, mc) ← turn_begin mc i;
          Some (at_ i (match r with Sleeps => Sleeping | Exits => Gone | Runs t => On t end) mc)
      | _ => None
      end
  | Wake i =>
      p ← r_places w !! i;
      match p with Sleeping => mc ← wake_thread mc i; Some (at_ i Idle mc) | _ => None end
  | Spawn i fn args r1 r2 uc =>
      p ← r_places w !! i;
      match p with
      | On _ =>
          s ← arena_of (rt_gc (mc_rt mc));
          '(payload, _) ← thread_payload s fn args;
          '(u, rt) ← thread makecontext (mc_rt mc) fn args r1 r2 uc;
          Some (Run (Machine rt (mc_waits mc) (mc_kts mc) (preempt mc)) (r_places w) (<[u := (payload, fn, args)]> (r_jobs w)))
      | _ => None
      end
  | Tick i => kt ← mc_kts mc !! i; mc ← force_preempt mc kt; Some (Run mc (r_places w) (r_jobs w))
  | Yield i =>
      p ← r_places w !! i;
      match p with
      | On t => '(y, _, mc) ← self_yield quiet mc t; Some (at_ i (match y with Switches => Yielded t | _ => On t end) mc)
      | _ => None
      end
  | Return i =>
      p ← r_places w !! i;
      match p with
      | On t =>
          '(payload, _, _) ← r_jobs w !! t;
          mc ← task_return mc t payload;
          Some (Run mc (<[i := Finished t]> (r_places w)) (delete t (r_jobs w)))
      | _ => None
      end
  | Settle i =>
      p ← r_places w !! i;
      match p with
      | Yielded t | Finished t => '(_, mc) ← turn_end mc i t; Some (at_ i Idle mc)
      | _ => None
      end
  end.

(** The room an operation needs in the global arena. *)
Definition room (w : run) (k : nat) : Prop := forall s, arena_of (rt_gc (mc_rt (r_mc w))) = Some s -> arena_room s k.

(** What the code may do next.  The kernel has memory for what an operation
    allocates; a task that has returned is not the only one left, since
    [task_destroy] cannot take the last one out of the ring of roots. *)
Definition enabled (w : run) (a : raction) : Prop :=
  match a with
  | Pop i => r_places w !! i = Some Idle
  | Wake i => r_places w !! i = Some Sleeping /\ exists q, ready_qs (mc_rt (r_mc w)) !! i = Some q /\ (0 < woken (q_cond q))%nat
  | Spawn i _ args r1 _ _ =>
      (exists t, r_places w !! i = Some (On t)) /\ 0 <= r1 /\ 8 * Z.of_nat (length args) <= REQUEST_MAX /\ room w (length args + 7)
  | Tick i => (i < 12)%nat
  | Yield i => (exists t, r_places w !! i = Some (On t)) /\ room w 1
  | Return i => exists t, r_places w !! i = Some (On t)
  | Settle i =>
      exists t, r_places w !! i = Some (Yielded t) \/ r_places w !! i = Some (Finished t) /\ task_count (mc_rt (r_mc w)) <> 1
  end.

(** One step of a run. *)
Definition rstep (w w' : run) : Prop := exists a, enabled w a /\ run_step w a = Some w'.
End run.

(** ** Lists of lists *)
Section bind.
Context {A B : Type} (f : A -> list B).

(** Changing one of the lists. *)
Lemma bind_split (l : list A) (i : nat) (x : A) : l !! i = Some x ->
  exists rest, l ≫= f ≡ₚ f x ++ rest /\ forall y, <[i := y]> l ≫= f ≡ₚ f y ++ rest.
Proof.
  intros Hi. pose proof (lookup_lt_Some _ _ _ Hi). exists ((take i l ≫= f) ++ (drop (S i) l ≫= f)). split.
  - rewrite <- (take_drop_middle l i x) at 1 by done. rewrite bind_app. cbn. solve_Permutation.
  - intros y. rewrite insert_take_drop by done. rewrite bind_app. cbn. solve_Permutation.
Qed.

Lemma bind_unique (l : list A) : forall (i j : nat) (a b : A) (x : B),
  NoDup (l ≫= f) -> l !! i = Some a -> l !! j = Some b -> x ∈ f a -> x ∈ f b -> i = j.
Proof.
  induction l as [|c l IH]; intros [|i] [|j] a b x Hnd Hi Hj Ha Hb; cbn in *; try done; apply NoDup_app in Hnd as (_ & Hd & Hnd).
  - injection Hi as ->. exfalso. apply (Hd x Ha), list_elem_of_bind. exists b. split; [done|]. by eapply list_elem_of_lookup_2.
  - injection Hj as ->. exfalso. apply (Hd x Hb), list_elem_of_bind. exists a. split; [done|]. by eapply list_elem_of_lookup_2.
  - f_equal. by eapply IH.
Qed.

Lemma bind_elem (l : list A) (i : nat) (a : A) (x : B) : l !! i = Some a -> x ∈ f a -> x ∈ l ≫= f.
Proof. intros Hi Hx. apply list_elem_of_bind. exists a. split; [done|]. by eapply list_elem_of_lookup_2. Qed.
End bind.

(** ** The invariant *)
Section inv.
Context `{OSLaws} {Ffi : FFI} {HFfi : FFILaws}.

(** The records of the threads, with the tasks [cur] they are running, and
    the payloads [Ds] of the tasks that have not returned, all beside the
    blocks [blk] of the runtime. *)
Record Private (kts cur : list Z) (jobs : gmap Z (Z * Z * list Z)) (Ds : gmap Z (gmap Z Z)) (L : gmap Z Z) (blk : Z -> Prop) (m : mem) : Prop := {
  P_kt : forall i kt, kts !! i = Some kt ->
    exists k, L !! kt = Some k /\ sizeof_kernel_thread <= k /\ ~ blk kt /\ ld m (kt + o_kt_id) = Z.of_nat i;
  P_cur : forall i kt c, kts !! i = Some kt -> cur !! i = Some c -> ld m (kt + o_kt_current) = c;
  P_nodup : NoDup kts;
  P_own : forall t D, Ds !! t = Some D -> D ⊆ L /\ forall p, p ∈ dom D -> ~ blk p /\ p ∉ kts;
  P_disj : forall t t' D D', Ds !! t = Some D -> Ds !! t' = Some D' -> t <> t' -> D ##ₘ D';
  P_job : forall t D, Ds !! t = Some D -> exists payload fn args types values vals, jobs !! t = Some (payload, fn, args) /\
    owned D payload types values vals /\ payload_at m payload fn types values vals args
}.

(** The words of the records that the scheduler reads: [sched_id] names the
    thread, [state] says whether a task that switched back has finished. *)
Record Words (ps : list place) (qss : list (list (Z * Z))) (m : mem) : Prop := {
  W_queue : forall i qs t, qss !! i = Some qs -> t ∈ qs.*2 -> ld m (t + o_task_sched_id) = Z.of_nat i;
  W_held : forall i p t, ps !! i = Some p -> t ∈ holds p -> ld m (t + o_task_sched_id) = Z.of_nat i;
  W_on : forall i t, ps !! i = Some (On t) -> ld m (t + o_task_state) = state_word TASK_RUNNING;
  W_yielded : forall i t, ps !! i = Some (Yielded t) -> ld m (t + o_task_state) = state_word TASK_RUNNING /\
    exists qs, qss !! i = Some qs /\ t ∈ qs.*2;
  W_finished : forall i t, ps !! i = Some (Finished t) -> ld m (t + o_task_state) = state_word TASK_FINISHED
}.

(** A sleeping thread is still unsignalled, with an empty queue, or on its
    way; nobody else waits. *)
Definition cond_ok (p : place) (q : safe_queue) (qs : list (Z * Z)) : Prop :=
  match p with
  | Sleeping => q_cond q = Cond 1 0 /\ qs = [] \/ q_cond q = Cond 0 1
  | Gone => False
  | _ => q_cond q = cond_init
  end.

Record RunInv (w : run) (L : gmap Z Z) (ts : list (Z * Z * Z)) (qss : list (list (Z * Z))) (Ds : gmap Z (gmap Z Z)) : Prop := {
  R_rt : RTInv (mc_rt (r_mc w)) L ts qss;
  R_sizes : length qss = 12%nat /\ length (r_places w) = 12%nat /\ length (mc_kts (r_mc w)) = 12%nat /\
    length (mc_waits (r_mc w)) = 12%nat /\ length (preempt (r_mc w)) = 12%nat;
  R_waits : forall i wq, mc_waits (r_mc w) !! i = Some wq -> ioq_head wq = NULL;
  R_count : task_count (mc_rt (r_mc w)) = swrap 32 (Z.of_nat (length ts));
  R_once : queued qss ++ held (r_places w) ≡ₚ ts.*1.*2;
  R_pending : forall t, t ∈ ts.*1.*2 -> is_Some (Ds !! t) \/ exists i, r_places w !! i = Some (Finished t);
  R_private : Private (mc_kts (r_mc w)) (current <$> r_places w) (r_jobs w) Ds L (rt_block ts qss) (g_mem (rt_gc (mc_rt (r_mc w))));
  R_words : Words (r_places w) qss (g_mem (rt_gc (mc_rt (r_mc w))));
  R_cond : forall i p q qs, r_places w !! i = Some p -> ready_qs (mc_rt (r_mc w)) !! i = Some q -> qss !! i = Some qs -> cond_ok p q qs
}.

(** *** Threads and payloads *)

Definition private_block (kts : list Z) (Ds : gmap Z (gmap Z Z)) (p : Z) : Prop :=
  p ∈ kts \/ exists t D, Ds !! t = Some D /\ p ∈ dom D.

(** They survive a step that leaves their blocks alone, but for the field
    [current] of the thread that makes it. *)
Lemma private_step (HS : HeapSpec astate) (s : astate) (kts cur : list Z) (jobs : gmap Z (Z * Z * list Z)) (Ds : gmap Z (gmap Z Z)) (L L' : gmap Z Z)
    (blk blk' : Z -> Prop) (m m' : mem) (i : nat) (kt c : Z) :
  @h_ok _ _ HS s L -> Private kts cur jobs Ds L blk m -> kts !! i = Some kt ->
  (forall p k, private_block kts Ds p -> L !! p = Some k -> L' !! p = Some k) -> (forall p, blk' p -> blk p \/ L !! p = None) ->
  (forall p k x, private_block kts Ds p -> L !! p = Some k -> p <= x < p + k -> x <> kt + o_kt_current -> ld m' x = ld m x) ->
  ld m' (kt + o_kt_current) = c -> Private kts (<[i := c]> cur) jobs Ds L' blk' m'.
Proof.
  intros Ho P Hi HL Hblk HF Hc. destruct (P_kt _ _ _ _ _ _ _ P i kt Hi) as (k0 & Hk0 & Hsz0 & _).
  assert (forall p k, L !! p = Some k -> ~ blk p -> ~ blk' p) as Hnb by (intros p k Hp Hb [?|?]%Hblk; [done|congruence]).
  assert (forall j kt', kts !! j = Some kt' -> private_block kts Ds kt') as Hpk by (intros j kt' Hj; left; by eapply list_elem_of_lookup_2).
  assert (forall p k x, private_block kts Ds p -> L !! p = Some k -> p <= x < p + k -> p <> kt -> ld m' x = ld m x) as HF'.
  { intros p k x Hp Hk Hx Hne. apply (HF p k); try done. apply (@block_words _ _ HS s L p k kt k0); try done.
    unfold o_kt_current, sizeof_kernel_thread in *. lia. }
  split.
  - intros j kt' Hj. destruct (P_kt _ _ _ _ _ _ _ P j kt' Hj) as (k & Hk & Hsz & Hb & Hid). exists k. split_and!; [eauto|done|eauto|].
    rewrite <- Hid. unfold o_kt_id, sizeof_kernel_thread, o_kt_current in *. destruct (decide (kt' = kt)) as [->|Hne].
    + apply (HF kt k); [eauto|done|lia|lia].
    + apply (HF' kt' k); [eauto|done|lia|done].
  - intros j kt' c' Hj Hcj. destruct (decide (i = j)) as [<-|Hne].
    + rewrite list_lookup_insert_eq in Hcj; [congruence|]. apply list_lookup_insert_Some in Hcj as [(_ & _ & ?)|[? _]]; done.
    + rewrite list_lookup_insert_ne in Hcj by done. destruct (P_kt _ _ _ _ _ _ _ P j kt' Hj) as (k & Hk & Hsz & _).
      rewrite (HF' kt' k); [by eapply (P_cur _ _ _ _ _ _ _ P)|eauto|done|unfold o_kt_current, sizeof_kernel_thread in *; lia|].
      intros ->. apply Hne. eapply NoDup_lookup; [apply P|done|done].
  - apply P.
  - intros t D HD. destruct (P_own _ _ _ _ _ _ _ P t D HD) as [Hsub Hap]. split.
    + apply map_subseteq_spec. intros p k Hp. apply HL; [|by eapply lookup_weaken]. right. exists t, D. split; [done|]. by eapply elem_of_dom_2.
    + intros p Hp. destruct (Hap p Hp) as [? ?]. split; [|done]. apply elem_of_dom in Hp as [k Hp]. eapply Hnb; [by eapply lookup_weaken|done].
  - apply P.
  - intros t D HD. destruct (P_job _ _ _ _ _ _ _ P t D HD) as (pl & fn & args & ty & va & vs & Hj & HW & HP). exists pl, fn, args, ty, va, vs.
    split_and!; try done. eapply payload_at_kept; [exact HW|exact HP|]. intros p k x Hp Hx.
    destruct (P_own _ _ _ _ _ _ _ P t D HD) as [Hsub Hap]. destruct (Hap p) as [_ Hk]; [by eapply elem_of_dom_2|].
    apply (HF' p k); [|by eapply lookup_weaken|done|].
    + right. exists t, D. split; [done|]. by eapply elem_of_dom_2.
    + intros ->. apply Hk. by eapply list_elem_of_lookup_2.
Qed.

(** A new payload. *)
Lemma private_add (kts cur : list Z) (jobs : gmap Z (Z * Z * list Z)) (Ds : gmap Z (gmap Z Z)) (L D : gmap Z Z) (blk : Z -> Prop) (m : mem)
    (t payload fn types values : Z) (vals args : list Z) :
  Private kts cur jobs Ds L blk m -> D ⊆ L -> (forall p, p ∈ dom D -> ~ blk p /\ ~ private_block kts Ds p) ->
  owned D payload types values vals -> payload_at m payload fn types values vals args ->
  Private kts cur (<[t := (payload, fn, args)]> jobs) (<[t := D]> Ds) L blk m.
Proof using Type.
  intros P Hsub Hap HW HP. assert (forall u E, Ds !! u = Some E -> D ##ₘ E) as Hd.
  { intros u E HE. apply map_disjoint_dom. intros p Hp Hp'. destruct (Hap p Hp) as [_ Hn]. apply Hn. right. eauto. }
  split; try apply P.
  - intros u E. rewrite lookup_insert. case_decide; [|apply P]. intros [= <-]. split; [done|]. intros p Hp. destruct (Hap p Hp) as [? Hn].
    split; [done|]. intros ?. apply Hn. by left.
  - intros u u' E E'. rewrite !lookup_insert. do 2 case_decide; intros HE HE' Hne; simplify_eq; [eauto|symmetry; eauto|].
    by apply (P_disj _ _ _ _ _ _ _ P u u').
  - intros u E. rewrite !lookup_insert. case_decide; [|apply P]. intros [= <-]. eauto 10.
Qed.

(** A payload given back. *)
Lemma private_drop (kts cur : list Z) (jobs : gmap Z (Z * Z * list Z)) (Ds : gmap Z (gmap Z Z)) (L : gmap Z Z) (blk : Z -> Prop) (m : mem) (t : Z) :
  Private kts cur jobs Ds L blk m -> Private kts cur (delete t jobs) (delete t Ds) L blk m.
Proof using Type.
  intros P. split; try apply P.
  - intros u E [_ HE]%lookup_delete_Some. by apply P in HE.
  - intros u u' E E' [_ HE]%lookup_delete_Some [_ HE']%lookup_delete_Some. by apply (P_disj _ _ _ _ _ _ _ P u u').
  - intros u E [Hne HE]%lookup_delete_Some. rewrite lookup_delete_ne by done. by apply P.
Qed.
End inv.

(** ** Every operation keeps it *)
Section steps.
Context `{OSLaws} {Ffi : FFI} {HFfi : FFILaws}.

Ltac tko := unfold sizeof_task, o_task_gcq, o_task_wq, o_task_state, o_task_sched_id, o_task_stack, o_task_stack_size, o_kt_current, sizeof_kernel_thread in *.

(** The task whose context the thread has switched to or back from. *)
Definition runs (p : place) (t : Z) : Prop := p = On t \/ p = Yielded t \/ p = Finished t.

(** What belongs to one thread. *)
Lemma R_thread (w : run) (L : gmap Z Z) (ts : list (Z * Z * Z)) (qss : list (list (Z * Z))) (Ds : gmap Z (gmap Z Z)) (i : nat) :
  RunInv w L ts qss Ds -> (i < 12)%nat ->
  exists kt k q qs wq f p, mc_kts (r_mc w) !! i = Some kt /\ L !! kt = Some k /\ sizeof_kernel_thread <= k /\ ~ rt_block ts qss kt /\
    ld (g_mem (rt_gc (mc_rt (r_mc w)))) (kt + o_kt_id) = Z.of_nat i /\ ready_qs (mc_rt (r_mc w)) !! i = Some q /\ qss !! i = Some qs /\
    mc_waits (r_mc w) !! i = Some wq /\ preempt (r_mc w) !! i = Some f /\ r_places w !! i = Some p /\ cond_ok p q qs /\
    ld (g_mem (rt_gc (mc_rt (r_mc w)))) (kt + o_kt_current) = current p.
Proof using Type.
  intros R Hi. destruct (R_sizes _ _ _ _ _ R) as (E1 & E2 & E3 & E4 & E5).
  destruct (lookup_lt_is_Some_2 (mc_kts (r_mc w)) i) as [kt Hkt]; [lia|]. destruct (lookup_lt_is_Some_2 qss i) as [qs Hqs]; [lia|].
  destruct (lookup_lt_is_Some_2 (ready_qs (mc_rt (r_mc w))) i) as [q Hq]; [rewrite (RT_len _ _ _ _ (R_rt _ _ _ _ _ R)); lia|].
  destruct (lookup_lt_is_Some_2 (mc_waits (r_mc w)) i) as [wq Hwq]; [lia|]. destruct (lookup_lt_is_Some_2 (preempt (r_mc w)) i) as [f Hf]; [lia|].
  destruct (lookup_lt_is_Some_2 (r_places w) i) as [p Hp]; [lia|].
  destruct (P_kt _ _ _ _ _ _ _ (R_private _ _ _ _ _ R) i kt Hkt) as (k & Hk & Hsz & Hb & Hid).
  exists kt, k, q, qs, wq, f, p. split_and!; try done; [by eapply (R_cond _ _ _ _ _ R)|].
  eapply (P_cur _ _ _ _ _ _ _ (R_private _ _ _ _ _ R)); [done|]. by rewrite list_lookup_fmap, Hp.
Qed.

Lemma place_lt (w : run) (L : gmap Z Z) (ts : list (Z * Z * Z)) (qss : list (list (Z * Z))) (Ds : gmap Z (gmap Z Z)) (i : nat) (p : place) :
  RunInv w L ts qss Ds -> r_places w !! i = Some p -> (i < 12)%nat.
Proof using Type. intros R Hp. destruct (R_sizes _ _ _ _ _ R) as (_ & E & _). apply lookup_lt_Some in Hp. lia. Qed.

Lemma R_arena (w : run) (L : gmap Z Z) (ts : list (Z * Z * Z)) (qss : list (list (Z * Z))) (Ds : gmap Z (gmap Z Z)) :
  RunInv w L ts qss Ds -> exists s, arena_of (rt_gc (mc_rt (r_mc w))) = Some s /\ reserved_ok (stack_of <$> ts) s L /\ g_mem (rt_gc (mc_rt (r_mc w))) = mm s.
Proof using Type.
  intros R. pose proof (RT_tasks _ _ _ _ (R_rt _ _ _ _ _ R)) as T. destruct (T_ring _ _ _ T) as (s & q & Es & _). exists s. split; [done|].
  split; [by eapply T_arena|]. by destruct (arena_of_some _ _ Es) as (_ & ? & _).
Qed.

(** The record of a task is apart from all nodes and threads. *)
Lemma R_task (w : run) (L : gmap Z Z) (ts : list (Z * Z * Z)) (qss : list (list (Z * Z))) (Ds : gmap Z (gmap Z Z)) (t : Z) :
  RunInv w L ts qss Ds -> t ∈ ts.*1.*2 -> exists k, L !! t = Some k /\ sizeof_task <= k /\ t ∉ ts.*1.*1 /\
    (forall i qs, qss !! i = Some qs -> t ∉ qs.*1) /\ ~ private_block (mc_kts (r_mc w)) Ds t /\ 0 < t.
Proof using Type.
  intros R Ht. pose proof (RT_tasks _ _ _ _ (R_rt _ _ _ _ _ R)) as T. destruct (R_arena _ _ _ _ _ R) as (s & Es & Ho & _).
  destruct (task_word_in _ _ _ t o_task_gcq T Ht ltac:(by left)) as (k & Hk & _ & Hsz). exists k. split_and!; try done.
  - destruct T as [(s0 & q & _ & _ & _ & RR) _]. intros [u Hin]%in_fst. apply in_snd in Ht as [n Ht]. by apply (RI_sep _ _ _ _ _ RR t u n t).
  - intros i qs Hi Hin. by destruct (RT_sep _ _ _ _ (R_rt _ _ _ _ _ R) i qs t Hi Hin).
  - assert (rt_block ts qss t) as Hb by (right; by left). intros [[i Hi]%list_elem_of_lookup_1|(u & D & HD & Hin)].
    + by destruct (P_kt _ _ _ _ _ _ _ (R_private _ _ _ _ _ R) i t Hi) as (_ & _ & _ & ? & _).
    + by destruct (P_own _ _ _ _ _ _ _ (R_private _ _ _ _ _ R) u D HD) as [_ Hap]; destruct (Hap t Hin).
  - destruct (@h_block _ _ (reserved_spec (stack_of <$> ts)) s L t k Ho Hk). lia.
Qed.

(** A private block is apart from the runtime's. *)
Lemma R_private_block (w : run) (L : gmap Z Z) (ts : list (Z * Z * Z)) (qss : list (list (Z * Z))) (Ds : gmap Z (gmap Z Z)) (p : Z) :
  RunInv w L ts qss Ds -> private_block (mc_kts (r_mc w)) Ds p -> is_Some (L !! p) /\ ~ rt_block ts qss p.
Proof using Type.
  intros R [[i Hi]%list_elem_of_lookup_1|(u & D & HD & Hin)].
  - destruct (P_kt _ _ _ _ _ _ _ (R_private _ _ _ _ _ R) i p Hi) as (k & ? & _ & ? & _). eauto.
  - destruct (P_own _ _ _ _ _ _ _ (R_private _ _ _ _ _ R) u D HD) as [Hs Hap]. split; [|by apply Hap].
    apply elem_of_dom in Hin as [k Hk]. exists k. by eapply lookup_weaken.
Qed.

(** Every task that is queued, held or on its way back is in the table, and
    belongs to its thread. *)
Lemma R_queued (w : run) (L : gmap Z Z) (ts : list (Z * Z * Z)) (qss : list (list (Z * Z))) (Ds : gmap Z (gmap Z Z)) (i : nat) (qs : list (Z * Z)) (t : Z) :
  RunInv w L ts qss Ds -> qss !! i = Some qs -> t ∈ qs.*2 -> t ∈ ts.*1.*2.
Proof using Type.
  intros R Hi Ht. rewrite <- (R_once _ _ _ _ _ R). rewrite elem_of_app. left. by eapply (bind_elem (fun qs : list (Z * Z) => qs.*2)).
Qed.

Lemma R_runs (w : run) (L : gmap Z Z) (ts : list (Z * Z * Z)) (qss : list (list (Z * Z))) (Ds : gmap Z (gmap Z Z)) (i : nat) (p : place) (t : Z) :
  RunInv w L ts qss Ds -> r_places w !! i = Some p -> runs p t ->
  t ∈ ts.*1.*2 /\ ld (g_mem (rt_gc (mc_rt (r_mc w)))) (t + o_task_sched_id) = Z.of_nat i.
Proof using Type.
  intros R Hp Ht. pose proof (R_words _ _ _ _ _ R) as W. assert (t ∈ holds p -> t ∈ ts.*1.*2) as Hh.
  { intros Hin. rewrite <- (R_once _ _ _ _ _ R). rewrite elem_of_app. right. by eapply (bind_elem holds). }
  destruct Ht as [->|[->| ->]].
  - split; [apply Hh; by left|]. eapply (W_held _ _ _ W); [done|by left].
  - destruct (W_yielded _ _ _ W i t Hp) as (_ & qs & Hqs & Hin). split; [by eapply R_queued|by eapply (W_queue _ _ _ W)].
  - split; [apply Hh; by left|]. eapply (W_held _ _ _ W); [done|by left].
Qed.

(** The words after a step of thread [i], which leaves the tasks of the
    other threads alone. *)
Lemma words_step (w : run) (L : gmap Z Z) (ts : list (Z * Z * Z)) (qss qss' : list (list (Z * Z))) (Ds : gmap Z (gmap Z Z)) (i : nat) (p : place) (m' : mem) :
  let m := g_mem (rt_gc (mc_rt (r_mc w))) in
  RunInv w L ts qss Ds ->
  (forall j qs t, qss' !! j = Some qs -> t ∈ qs.*2 -> ld m' (t + o_task_sched_id) = Z.of_nat j) ->
  (forall j qs t, j <> i -> qss !! j = Some qs -> t ∈ qs.*2 -> exists qs', qss' !! j = Some qs' /\ t ∈ qs'.*2) ->
  (forall t, t ∈ ts.*1.*2 -> ld m (t + o_task_sched_id) <> Z.of_nat i ->
     ld m' (t + o_task_sched_id) = ld m (t + o_task_sched_id) /\ ld m' (t + o_task_state) = ld m (t + o_task_state)) ->
  (forall t, t ∈ holds p -> ld m' (t + o_task_sched_id) = Z.of_nat i) ->
  match p with
  | On t => ld m' (t + o_task_state) = state_word TASK_RUNNING
  | Yielded t => ld m' (t + o_task_state) = state_word TASK_RUNNING /\ exists qs, qss' !! i = Some qs /\ t ∈ qs.*2
  | Finished t => ld m' (t + o_task_state) = state_word TASK_FINISHED
  | _ => True
  end -> Words (<[i := p]> (r_places w)) qss' m'.
Proof using Type.
  intros m R Hq Hq' HK Hp Hw. pose proof (R_words _ _ _ _ _ R) as W.
  assert (forall j p', j <> i -> <[i := p]> (r_places w) !! j = Some p' -> r_places w !! j = Some p') as Hne.
  { intros j p' Hj. by rewrite list_lookup_insert_ne. }
  assert (forall j t p', j <> i -> r_places w !! j = Some p' -> runs p' t ->
    ld m' (t + o_task_sched_id) = Z.of_nat j /\ ld m' (t + o_task_state) = ld m (t + o_task_state)) as HR.
  { intros j t p' Hj Hp' Ht. destruct (R_runs _ _ _ _ _ _ _ _ R Hp' Ht) as [Hin Hs]. destruct (HK t Hin) as [Es ?]; [unfold m; lia|].
    split; [|done]. rewrite Es. exact Hs. }
  assert (forall p', <[i := p]> (r_places w) !! i = Some p' -> p' = p) as Hi.
  { intros p' [(_ & ? & _)|[? _]]%list_lookup_insert_Some; done. }
  split.
  - exact Hq.
  - intros j p' t Hj Ht. destruct (decide (j = i)) as [->|Hji]; [apply Hi in Hj as ->; auto|].
    eapply HR; [done|by apply Hne|]. unfold runs. destruct p'; cbn in Ht; try (by apply elem_of_nil in Ht); apply list_elem_of_singleton in Ht as ->; tauto.
  - intros j t Hj. destruct (decide (j = i)) as [->|Hji]; [by apply Hi in Hj as <-|]. apply Hne in Hj; [|done].
    destruct (HR j t _ Hji Hj) as [_ ->]; [by left|]. by eapply (W_on _ _ _ W).
  - intros j t Hj. destruct (decide (j = i)) as [->|Hji]; [by apply Hi in Hj as <-|]. apply Hne in Hj; [|done].
    destruct (HR j t _ Hji Hj) as [_ ->]; [unfold runs; auto|]. destruct (W_yielded _ _ _ W j t Hj) as (? & qs & Hqs & Hin). split; [done|]. eauto.
  - intros j t Hj. destruct (decide (j = i)) as [->|Hji]; [by apply Hi in Hj as <-|]. apply Hne in Hj; [|done].
    destruct (HR j t _ Hji Hj) as [_ ->]; [unfold runs; auto|]. by eapply (W_finished _ _ _ W).
Qed.

(** One queue and one thread of all. *)
Lemma once_split (qss : list (list (Z * Z))) (ps : list place) (i : nat) (qs : list (Z * Z)) (p : place) :
  qss !! i = Some qs -> ps !! i = Some p ->
  exists rest, queued qss ++ held ps ≡ₚ qs.*2 ++ holds p ++ rest /\
    forall qs' p', queued (<[i := qs']> qss) ++ held (<[i := p']> ps) ≡ₚ qs'.*2 ++ holds p' ++ rest.
Proof using Type.
  intros Hq Hp. destruct (bind_split (fun qs : list (Z * Z) => qs.*2) qss i qs Hq) as (r1 & E1 & E1'), (bind_split holds ps i p Hp) as (r2 & E2 & E2').
  exists (r1 ++ r2). unfold queued, held. split; [rewrite E1, E2|intros qs' p'; rewrite E1', E2']; solve_Permutation.
Qed.

Lemma conds_at (w : run) (L : gmap Z Z) (ts : list (Z * Z * Z)) (qss : list (list (Z * Z))) (Ds : gmap Z (gmap Z Z)) (i : nat) (p : place) (q : safe_queue) (qs : list (Z * Z)) :
  RunInv w L ts qss Ds -> cond_ok p q qs -> forall j pj qj qsj, <[i := p]> (r_places w) !! j = Some pj ->
  <[i := q]> (ready_qs (mc_rt (r_mc w))) !! j = Some qj -> <[i := qs]> qss !! j = Some qsj -> cond_ok pj qj qsj.
Proof using Type.
  intros R Hc j pj qj qsj Hp Hq Hqs. apply list_lookup_insert_Some in Hp as [(-> & <- & _)|[Hne Hp]].
  - apply list_lookup_insert_Some in Hq as [(_ & <- & _)|[? _]]; [|done]. apply list_lookup_insert_Some in Hqs as [(_ & <- & _)|[? _]]; done.
  - rewrite list_lookup_insert_ne in Hq by done. rewrite list_lookup_insert_ne in Hqs by done. by eapply (R_cond _ _ _ _ _ R).
Qed.

Lemma with_arena_id (c : collector) (s : astate) : arena_of c = Some s -> with_arena c s = c.
Proof using Type. intros Es. destruct (arena_of_some _ _ Es) as (E1 & E2 & E3 & _). destruct c, s; cbn in *. by subst. Qed.

(** The condition variable of a queue is not part of its invariant. *)
Lemma RTInv_queue (rt : runtime) (L : gmap Z Z) (ts : list (Z * Z * Z)) (qss : list (list (Z * Z))) (i : nat) (q q' : safe_queue) (n : Z) :
  RTInv rt L ts qss -> ready_qs rt !! i = Some q -> q_head q' = q_head q -> q_tail q' = q_tail q -> q_lock q' = q_lock q ->
  RTInv (Runtime (rt_gc rt) (<[i := q']> (ready_qs rt)) n) L ts qss.
Proof using Type.
  intros RT Hi E1 E2 E3. split; cbn [rt_gc ready_qs]; try apply RT.
  - by rewrite length_insert, (RT_len _ _ _ _ RT).
  - intros s j qj qsj Es Hj Hqs. apply list_lookup_insert_Some in Hj as [(-> & <- & _)|[Hne Hj]]; [|by eapply (RT_queue _ _ _ _ RT)].
    destruct (RT_queue _ _ _ _ RT s j q qsj Es Hi Hqs). split; try done; congruence.
Qed.

(** A thread finds no task. *)
Lemma turn_begin_sleeps (w : machine) (L : gmap Z Z) (ts : list (Z * Z * Z)) (qss : list (list (Z * Z))) (s : astate) (i : nat) (q : safe_queue) (kt : Z) (wq : unsafe_queue) :
  RTInv (mc_rt w) L ts qss -> arena_of (rt_gc (mc_rt w)) = Some s -> qss !! i = Some [] -> ready_qs (mc_rt w) !! i = Some q ->
  mc_kts w !! i = Some kt -> mc_waits w !! i = Some wq ->
  let q' := SafeQueue (q_size_limit q) (q_head q) (q_tail q) false (cond_wait (q_cond q)) in
  let rt' := Runtime (rt_gc (mc_rt w)) (<[i := q']> (ready_qs (mc_rt w))) (task_count (mc_rt w)) in
  turn_begin w i = Some (Sleeps, Machine rt' (mc_waits w) (mc_kts w) (preempt w)) /\ RTInv rt' L ts qss.
Proof using Type.
  intros RT Es Hqs Hq Hkt Hwq q' rt'. pose proof (RT_queue _ _ _ _ RT s i q [] Es Hq Hqs) as Q. split.
  - unfold turn_begin. rewrite Es, Hq, Hwq, Hkt. cbn [mbind option_bind]. unfold safe_q_pop_wait. rewrite (QI_lock _ _ _ _ Q).
    cbn [mutex_lock negb c_assert mbind option_bind]. destruct (Z.eqb_spec (q_head q) NULL) as [_|Hne]; [|by destruct Hne; apply (QI_empty _ _ _ _ Q)].
    cbn [mutex_unlock c_assert mbind option_bind]. by rewrite with_arena_id.
  - eapply RTInv_queue; [exact RT|exact Hq|done|done|]. by rewrite (QI_lock _ _ _ _ Q).
Qed.

(** A pop leaves the condition variable as it is. *)
Lemma turn_begin_queue (w w' : machine) (i : nat) (t : Z) : turn_begin w i = Some (Runs t, w') ->
  exists q q', ready_qs (mc_rt w) !! i = Some q /\ ready_qs (mc_rt w') = <[i := q']> (ready_qs (mc_rt w)) /\ q_cond q' = q_cond q.
Proof using Type.
  unfold turn_begin. destruct (arena_of _) as [s|]; [|done]. cbn [mbind option_bind]. destruct (ready_qs (mc_rt w) !! i) as [q|]; [|done]. cbn [mbind option_bind].
  destruct (mc_waits w !! i) as [wq|]; [|done]. cbn [mbind option_bind]. destruct (mc_kts w !! i) as [kt|]; [|done]. cbn [mbind option_bind].
  destruct (safe_q_pop_wait s q) as [[[r s1] q']|] eqn:E; [|done]. cbn [mbind option_bind]. destruct r as [u|]; [|done].
  destruct (u =? NULL); [done|]. destruct (unsafe_ioq_remove _ _ _ _) as [[[r' s2] wq']|]; [|done]. cbn [mbind option_bind].
  intros [= _ <-]. exists q, q'. split_and!; try done. revert E. unfold safe_q_pop_wait, take_head.
  destruct (mutex_lock _) as [l|]; [|done]. cbn [mbind option_bind]. destruct (q_head q =? NULL).
  - by destruct (mutex_unlock l).
  - destruct (mutex_unlock l); [|done]. cbn [mbind option_bind]. destruct (h_free _ _); [|done]. cbn [mbind option_bind]. by intros [= _ _ <-].
Qed.

(** Words of a task, a thread and a payload are different words. *)
Lemma task_apart (w : run) (L : gmap Z Z) (ts : list (Z * Z * Z)) (qss : list (list (Z * Z))) (Ds : gmap Z (gmap Z Z)) (t p k o y : Z) :
  RunInv w L ts qss Ds -> t ∈ ts.*1.*2 -> 0 <= o < sizeof_task -> L !! p = Some k -> p <> t -> p <= y < p + k -> y <> t + o.
Proof using Type.
  intros R Ht Ho Hp Hne Hy. destruct (R_arena _ _ _ _ _ R) as (s & _ & Hok & _). destruct (R_task _ _ _ _ _ _ R Ht) as (kt & Hkt & Hsz & _).
  apply (@block_words _ _ (reserved_spec (stack_of <$> ts)) s L p k t kt); try done. lia.
Qed.

Lemma thread_apart (w : run) (L : gmap Z Z) (ts : list (Z * Z * Z)) (qss : list (list (Z * Z))) (Ds : gmap Z (gmap Z Z)) (i : nat) (t kt o : Z) :
  RunInv w L ts qss Ds -> t ∈ ts.*1.*2 -> mc_kts (r_mc w) !! i = Some kt -> 0 <= o < sizeof_task -> t + o <> kt + o_kt_current.
Proof using Type.
  intros R Ht Hkt Ho. destruct (P_kt _ _ _ _ _ _ _ (R_private _ _ _ _ _ R) i kt Hkt) as (k & Hk & Hsz & Hb & _). apply not_eq_sym.
  eapply (task_apart w L ts qss Ds t kt k o); try done; [|tko; lia]. intros ->. apply Hb. right. by left.
Qed.

(** A step of thread [i]: what is left to show when it has changed its
    queue, its place and the memory. *)
Lemma RunInv_thread (w : run) (L L' : gmap Z Z) (ts : list (Z * Z * Z)) (qss : list (list (Z * Z))) (Ds Ds' : gmap Z (gmap Z Z)) (i : nat) (p p' : place)
    (qs qs' : list (Z * Z)) (q' : safe_queue) (wq' : unsafe_queue) (mc : machine) (jobs : gmap Z (Z * Z * list Z)) :
  RunInv w L ts qss Ds -> r_places w !! i = Some p -> qss !! i = Some qs ->
  RTInv (mc_rt mc) L' ts (<[i := qs']> qss) -> ready_qs (mc_rt mc) = <[i := q']> (ready_qs (mc_rt (r_mc w))) ->
  task_count (mc_rt mc) = task_count (mc_rt (r_mc w)) -> mc_kts mc = mc_kts (r_mc w) ->
  mc_waits mc = <[i := wq']> (mc_waits (r_mc w)) -> ioq_head wq' = NULL -> length (preempt mc) = length (preempt (r_mc w)) ->
  cond_ok p' q' qs' -> qs'.*2 ++ holds p' ≡ₚ qs.*2 ++ holds p -> (forall t, p <> Finished t) ->
  (forall t, is_Some (Ds !! t) -> is_Some (Ds' !! t) \/ p' = Finished t) ->
  Private (mc_kts (r_mc w)) (<[i := current p']> (current <$> r_places w)) jobs Ds' L' (rt_block ts (<[i := qs']> qss)) (g_mem (rt_gc (mc_rt mc))) ->
  Words (<[i := p']> (r_places w)) (<[i := qs']> qss) (g_mem (rt_gc (mc_rt mc))) ->
  RunInv (Run mc (<[i := p']> (r_places w)) jobs) L' ts (<[i := qs']> qss) Ds'.
Proof using Type.
  intros R Hp Hqs RT Eq Ec Ek Ew Hw El Hc Ho Hf HD P W. split; cbn [r_mc r_places r_jobs].
  - exact RT.
  - rewrite Ek, Ew, El. destruct (R_sizes _ _ _ _ _ R) as (? & ? & ? & ? & ?). rewrite !length_insert. by split_and!.
  - intros j wj. rewrite Ew. intros [(-> & <- & _)|[_ Hj]]%list_lookup_insert_Some; [done|by apply (R_waits _ _ _ _ _ R j)].
  - rewrite Ec. apply R.
  - destruct (once_split qss (r_places w) i qs p Hqs Hp) as (rest & E1 & E2). by rewrite <- (R_once _ _ _ _ _ R), E1, E2, !(assoc_L (++)), Ho.
  - intros t Ht. destruct (R_pending _ _ _ _ _ R t Ht) as [Hd|[j Hj]].
    + destruct (HD t Hd) as [?| ->]; [by left|]. right. exists i. apply list_lookup_insert_eq. by eapply lookup_lt_Some.
    + right. exists j. rewrite list_lookup_insert_ne; [done|]. intros <-. apply (Hf t). congruence.
  - rewrite Ek, list_fmap_insert. exact P.
  - exact W.
  - rewrite Eq. by apply (conds_at w L ts qss Ds).
Qed.

(** A thread falls asleep or wakes up. *)
Lemma RunInv_cond (w : run) (L : gmap Z Z) (ts : list (Z * Z * Z)) (qss : list (list (Z * Z))) (Ds : gmap Z (gmap Z Z)) (i : nat) (p p' : place) (qs : list (Z * Z))
    (q q' : safe_queue) :
  RunInv w L ts qss Ds -> r_places w !! i = Some p -> (p = Idle \/ p = Sleeping) -> (p' = Idle \/ p' = Sleeping) -> qss !! i = Some qs ->
  ready_qs (mc_rt (r_mc w)) !! i = Some q -> q_head q' = q_head q -> q_tail q' = q_tail q -> q_lock q' = q_lock q -> cond_ok p' q' qs ->
  let rt := mc_rt (r_mc w) in
  RunInv (Run (Machine (Runtime (rt_gc rt) (<[i := q']> (ready_qs rt)) (task_count rt)) (mc_waits (r_mc w)) (mc_kts (r_mc w)) (preempt (r_mc w)))
    (<[i := p']> (r_places w)) (r_jobs w)) L ts qss Ds.
Proof using Type.
  intros R Hp Hidle Hidle' Hqs Hq E1 E2 E3 Hc rt. destruct (lookup_lt_is_Some_2 (mc_waits (r_mc w)) i) as [wq Hwq].
  { pose proof (place_lt _ _ _ _ _ _ _ R Hp). destruct (R_sizes _ _ _ _ _ R) as (_ & _ & _ & -> & _). done. }
  rewrite <- (list_insert_id qss i qs) by done. assert (holds p' = holds p /\ current p' = current p) as [Eh Ecu] by (by destruct Hidle as [->| ->], Hidle' as [->| ->]).
  eapply (RunInv_thread w L L ts qss Ds Ds i p p' qs qs q' wq); cbn [mc_rt mc_waits mc_kts preempt rt_gc ready_qs task_count]; try done.
  - rewrite (list_insert_id qss i qs) by done. eapply RTInv_queue; [apply R|exact Hq|done..].
  - by rewrite list_insert_id.
  - by apply (R_waits _ _ _ _ _ R i).
  - by rewrite Eh.
  - by destruct Hidle as [->| ->].
  - by left.
  - rewrite (list_insert_id qss i qs), list_insert_id; [apply R| |done]. by rewrite list_lookup_fmap, Hp, Ecu.
  - rewrite (list_insert_id qss i qs) by done. apply (words_step w L ts qss qss Ds i p'); [exact R|apply (R_words _ _ _ _ _ R)|eauto|auto| |].
    + intros t. rewrite Eh. by destruct Hidle as [->| ->]; intros Ht%elem_of_nil.
    + by destruct Hidle' as [->| ->].
Qed.

(** *** A thread takes a task *)
Lemma pop_sleeps (mk : Z -> Z -> Z -> Z -> Z * Z * (Z -> Z)) (w : run) (L : gmap Z Z) (ts : list (Z * Z * Z)) (qss : list (list (Z * Z))) (Ds : gmap Z (gmap Z Z)) (i : nat) :
  RunInv w L ts qss Ds -> r_places w !! i = Some Idle -> qss !! i = Some [] ->
  exists w', run_step mk w (Pop i) = Some w' /\ RunInv w' L ts qss Ds.
Proof using Type.
  intros R Hp Hqs. destruct (R_arena _ _ _ _ _ R) as (s & Es & Ho & Em).
  destruct (R_thread _ _ _ _ _ i R (place_lt _ _ _ _ _ _ _ R Hp)) as (kt & k & q & qs & wq & f & p & Hkt & Hk & Hsz & Hb & Hid & Hq & Hqs' & Hwq & Hf & Hp' & Hc & Hcur).
  assert (qs = [] /\ p = Idle) as [-> ->] by (split; congruence).
  destruct (turn_begin_sleeps (r_mc w) L ts qss s i q kt wq (R_rt _ _ _ _ _ R) Es Hqs Hq Hkt Hwq) as [E _].
  unfold run_step. rewrite Hp. cbn [mbind option_bind]. rewrite E. cbn [mbind option_bind]. eexists. split; [done|].
  eapply (RunInv_cond w L ts qss Ds i Idle Sleeping []); try done; auto.
  - symmetry. apply (QI_lock _ _ _ _ (RT_queue _ _ _ _ (R_rt _ _ _ _ _ R) s i q [] Es Hq Hqs)).
  - left. split; [|done]. cbn in Hc |- *. by rewrite Hc.
Qed.

(** A signalled thread wakes up. *)
Lemma wake_ok (mk : Z -> Z -> Z -> Z -> Z * Z * (Z -> Z)) (w : run) (L : gmap Z Z) (ts : list (Z * Z * Z)) (qss : list (list (Z * Z))) (Ds : gmap Z (gmap Z Z)) (i : nat) :
  RunInv w L ts qss Ds -> enabled w (Wake i) -> exists w', run_step mk w (Wake i) = Some w' /\ RunInv w' L ts qss Ds.
Proof using Type.
  intros R [Hp (q & Hq & Hwk)].
  destruct (R_thread _ _ _ _ _ i R (place_lt _ _ _ _ _ _ _ R Hp)) as (kt & k & q0 & qs & wq & f & p & Hkt & Hk & Hsz & Hb & Hid & Hq' & Hqs & Hwq & Hf & Hp' & Hc & Hcur).
  assert (q0 = q /\ p = Sleeping) as [-> ->] by (split; congruence). destruct Hc as [[Hc _]|Hc]; [rewrite Hc in Hwk; cbn in Hwk; lia|].
  unfold run_step. rewrite Hp. cbn [mbind option_bind]. unfold wake_thread. rewrite Hq. cbn [mbind option_bind]. rewrite Hc. cbn [woken waiting].
  eexists. split; [done|]. eapply (RunInv_cond w L ts qss Ds i Sleeping Idle qs q); try done; auto.
Qed.

(** The timer fires. *)
Lemma tick_ok (mk : Z -> Z -> Z -> Z -> Z * Z * (Z -> Z)) (w : run) (L : gmap Z Z) (ts : list (Z * Z * Z)) (qss : list (list (Z * Z))) (Ds : gmap Z (gmap Z Z)) (i : nat) :
  RunInv w L ts qss Ds -> (i < 12)%nat -> exists w', run_step mk w (Tick i) = Some w' /\ RunInv w' L ts qss Ds.
Proof using Type.
  intros R Hi. destruct (R_thread _ _ _ _ _ i R Hi) as (kt & k & q & qs & wq & f & p & Hkt & Hk & Hsz & Hb & Hid & Hq & Hqs & Hwq & Hf & Hp & Hc & Hcur).
  unfold run_step. rewrite Hkt. cbn [mbind option_bind]. rewrite (force_preempt_ok _ i kt f Hid Hf). cbn [mbind option_bind]. eexists. split; [done|].
  split; cbn [r_mc r_places r_jobs mc_rt mc_waits mc_kts preempt]; try apply R.
  destruct (R_sizes _ _ _ _ _ R) as (? & ? & ? & ? & ?). rewrite length_insert. by split_and!.
Qed.

(** What a turn leaves alone in the records of the tasks. *)
Lemma turn_task_words (w : run) (L L' : gmap Z Z) (ts : list (Z * Z * Z)) (qss : list (list (Z * Z))) (Ds : gmap Z (gmap Z Z)) (i : nat) (t kt : Z) (m m' : mem) :
  RunInv w L ts qss Ds -> t ∈ ts.*1.*2 -> mc_kts (r_mc w) !! i = Some kt -> (forall u, u ∈ ts.*1.*2 -> L' !! u = L !! u) -> turn_frame L' [] kt t m m' ->
  forall u, u ∈ ts.*1.*2 -> ld m' (u + o_task_sched_id) = ld m (u + o_task_sched_id) /\ (u <> t -> ld m' (u + o_task_state) = ld m (u + o_task_state)).
Proof using Type.
  intros R Ht Hkt HL HF u Hu. destruct (R_task _ _ _ _ _ _ R Hu) as (ku & Hku & Hszu & _).
  assert (forall o, 0 <= o < sizeof_task -> u <> t \/ o <> o_task_state /\ o <> o_task_wq -> ld m' (u + o) = ld m (u + o)) as FT.
  { intros o Hx Hne. assert (forall o', 0 <= o' < sizeof_task -> (o' = o_task_state \/ o' = o_task_wq) -> u + o <> t + o') as Hout.
    { intros o' ? ?. destruct (decide (u = t)) as [->|Hut]; [lia|]. eapply (task_apart w L ts qss Ds t u ku o'); try done. lia. }
    apply (HF u ku); [by rewrite HL|apply not_elem_of_nil|lia|by eapply thread_apart|apply Hout; tko; lia..]. }
  split; [apply FT; tko; lia|intros Hne; apply FT; [tko; lia|by left]].
Qed.

Lemma pop_runs (mk : Z -> Z -> Z -> Z -> Z * Z * (Z -> Z)) (w : run) (L : gmap Z Z) (ts : list (Z * Z * Z)) (qss : list (list (Z * Z))) (Ds : gmap Z (gmap Z Z)) (i : nat)
    (m t : Z) (qs : list (Z * Z)) :
  RunInv w L ts qss Ds -> r_places w !! i = Some Idle -> qss !! i = Some ((m, t) :: qs) ->
  exists w' L', run_step mk w (Pop i) = Some w' /\ RunInv w' L' ts (<[i := qs]> qss) Ds.
Proof using HFfi.
  intros R Hp Hqs. destruct (R_arena _ _ _ _ _ R) as (s & Es & Ho & Em). pose (HS := reserved_spec (stack_of <$> ts)).
  destruct (R_thread _ _ _ _ _ i R (place_lt _ _ _ _ _ _ _ R Hp)) as (kt & k & q & qs0 & wq & f & p & Hkt & Hk & Hsz & Hb & Hid & Hq & Hqs' & Hwq & Hf & Hp' & Hc & Hcur).
  assert (p = Idle) as -> by congruence. assert (t ∈ ts.*1.*2) as Ht by (eapply R_queued; [exact R|exact Hqs|by left]).
  destruct (turn_begin_ok (r_mc w) L ts qss s i m t kt qs [] wq (R_rt _ _ _ _ _ R) Es Hqs Ht Hkt Hwq) as
    (rt' & s' & wq' & L' & E & RT' & Es' & _ & RW & Hcnt & Hst & Hcu & Hsub & HL & HF).
  { split; [by exists k|done|by intros x Hx%elem_of_nil|by intros x Hx%elem_of_nil]. }
  { rewrite (R_waits _ _ _ _ _ R i wq Hwq). by apply (@RInv_nil _ _ HS). }
  { right. by left. }
  destruct (turn_begin_queue _ _ _ _ E) as (q0 & q' & Hq' & Eq & Ec). assert (q0 = q) as -> by congruence. cbn [mc_rt] in Eq.
  unfold run_step. rewrite Hp. cbn [mbind option_bind]. rewrite E. cbn [mbind option_bind]. do 2 eexists. split; [done|].
  destruct (arena_of_some _ _ Es') as (_ & Em' & _). pose proof (R_words _ _ _ _ _ R) as W. pose proof (R_private _ _ _ _ _ R) as P. rewrite Em in W, P.
  assert (forall x, x ∉ qs0.*1 -> L' !! x = L !! x) as HL'.
  { intros x Hx. apply HL; [|apply not_elem_of_nil]. intros ->. apply Hx. replace qs0 with ((m, t) :: qs) by congruence. by left. }
  assert (forall u, u ∈ ts.*1.*2 -> L' !! u = L !! u) as HLt.
  { intros u Hu. destruct (R_task _ _ _ _ _ _ R Hu) as (_ & _ & _ & _ & Hn & _). apply HL'. by apply (Hn i). }
  pose proof (turn_task_words w L L' ts qss Ds i t kt (mm s) (mm s') R Ht Hkt HLt HF) as FW.
  eapply (RunInv_thread w L L' ts qss Ds Ds i Idle (On t) ((m, t) :: qs) qs q' wq'); cbn [mc_rt mc_waits mc_kts preempt]; rewrite ?Em'; try done.
  - apply (RI_head _ _ _ _ _ RW).
  - cbn in *. congruence.
  - cbn. solve_Permutation.
  - by left.
  - assert (forall x, private_block (mc_kts (r_mc w)) Ds x -> L' !! x = L !! x /\ x <> t) as Hpb.
    { intros x Hx. destruct (R_private_block _ _ _ _ _ _ R Hx) as [_ Hn]. split; [|intros ->; apply Hn; right; by left].
      apply HL'. intros ?. apply Hn. right. right. eauto. }
    eapply (private_step HS s _ _ _ _ L L'); [exact Ho|exact P|exact Hkt| | | |exact Hcu].
    + intros x j Hx Hj. by destruct (Hpb x Hx) as [-> _].
    + intros x [?|[?|(j & qj & Hj & Hin)]]; left; [by left|right; by left|]. right. right.
      apply list_lookup_insert_Some in Hj as [(-> & <- & _)|[_ Hj]]; [exists j, ((m, t) :: qs); split; [done|by right]|eauto].
    + intros x j y Hx Hj Hy Hne. destruct (Hpb x Hx) as [Hxl Hxt].
      apply (HF x j); [congruence|apply not_elem_of_nil|done|done|eapply (task_apart w L ts qss Ds t x j); try done; tko; lia..].
  - apply (words_step w L ts qss (<[i := qs]> qss) Ds i (On t)); [done|..]; rewrite ?Em.
    + intros j qj u Hj Hu. assert (exists qo, qss !! j = Some qo /\ u ∈ qo.*2) as (qo & Hqo & Huo).
      { apply list_lookup_insert_Some in Hj as [(-> & <- & _)|[_ Hj]]; [exists ((m, t) :: qs); split; [done|by right]|eauto]. }
      destruct (FW u) as [-> _]; [by eapply R_queued|]. by eapply (W_queue _ _ _ W).
    + intros j qj u Hji Hj Hu. exists qj. by rewrite list_lookup_insert_ne.
    + intros u Hu Hne. destruct (FW u Hu) as [? Hs]. split; [done|]. apply Hs. intros ->. apply Hne. eapply (W_queue _ _ _ W); [exact Hqs|by left].
    + intros u ->%list_elem_of_singleton. destruct (FW t Ht) as [-> _]. eapply (W_queue _ _ _ W); [exact Hqs|by left].
    + exact Hst.
Qed.

(** A queue after a push. *)
Lemma pushed_blocks (ts : list (Z * Z * Z)) (qss : list (list (Z * Z))) (i : nat) (qs : list (Z * Z)) (m t x : Z) :
  qss !! i = Some qs -> rt_block ts (<[i := qs ++ [(m, t)]]> qss) x -> rt_block ts qss x \/ x = m.
Proof using Type.
  intros Hqs [?|[?|(j & qj & Hj & Hx)]]; [left; by left|left; right; by left|].
  apply list_lookup_insert_Some in Hj as [(-> & <- & _)|[_ Hj]]; [|left; right; right; eauto]. rewrite fmap_app, elem_of_app in Hx.
  destruct Hx as [?| ->%list_elem_of_singleton]; [left; right; right; eauto|by right].
Qed.

Lemma pushed_words (w : run) (L : gmap Z Z) (ts : list (Z * Z * Z)) (qss : list (list (Z * Z))) (Ds : gmap Z (gmap Z Z)) (i : nat) (qs : list (Z * Z)) (n t : Z) (m' : mem) :
  RunInv w L ts qss Ds -> qss !! i = Some qs -> ld m' (t + o_task_sched_id) = Z.of_nat i ->
  (forall u, u ∈ ts.*1.*2 -> ld m' (u + o_task_sched_id) = ld (g_mem (rt_gc (mc_rt (r_mc w)))) (u + o_task_sched_id)) ->
  forall j qj u, <[i := qs ++ [(n, t)]]> qss !! j = Some qj -> u ∈ qj.*2 -> ld m' (u + o_task_sched_id) = Z.of_nat j.
Proof using Type.
  intros R Hqs Ht HF j qj u Hj Hu. pose proof (R_words _ _ _ _ _ R) as W.
  assert (forall j qj, qss !! j = Some qj -> u ∈ qj.*2 -> ld m' (u + o_task_sched_id) = Z.of_nat j) as Hold.
  { intros j' qj' Hj' Hu'. rewrite HF; [by eapply (W_queue _ _ _ W)|by eapply R_queued]. }
  apply list_lookup_insert_Some in Hj as [(-> & <- & _)|[_ Hj]]; [|by eapply Hold]. rewrite fmap_app, elem_of_app in Hu.
  destruct Hu as [Hu| ->%list_elem_of_singleton]; [by eapply Hold|done].
Qed.

(** *** A task checks for preemption *)
Lemma yield_ok (mk : Z -> Z -> Z -> Z -> Z * Z * (Z -> Z)) (w : run) (L : gmap Z Z) (ts : list (Z * Z * Z)) (qss : list (list (Z * Z))) (Ds : gmap Z (gmap Z Z)) (i : nat) (t : Z) :
  RunInv w L ts qss Ds -> r_places w !! i = Some (On t) -> room w 1 ->
  exists w' L' qss', run_step mk w (Yield i) = Some w' /\ RunInv w' L' ts qss' Ds.
Proof using HFfi.
  intros R Hp Hroom. destruct (R_arena _ _ _ _ _ R) as (s & Es & Ho & Em). pose (HS := reserved_spec (stack_of <$> ts)).
  destruct (R_thread _ _ _ _ _ i R (place_lt _ _ _ _ _ _ _ R Hp)) as (kt & k & q & qs & wq & f & p & Hkt & Hk & Hsz & Hb & Hid & Hq & Hqs & Hwq & Hf & Hp' & Hc & Hcur).
  assert (p = On t) as -> by congruence. destruct (R_runs _ _ _ _ _ _ _ _ R Hp ltac:(by left)) as [Ht Hsid].
  destruct (R_task _ _ _ _ _ _ R Ht) as (_ & _ & _ & _ & _ & _ & Hpos).
  pose proof (self_yield_ok quiet (r_mc w) L ts qss s i kt k t f qs (R_rt _ _ _ _ _ R) Es (Hroom s Es) Hkt Hk Hsz Hb Hf Hqs Ht) as HY.
  rewrite Em in Hsid, Hcur. specialize (HY Hsid eq_refl). unfold run_step. rewrite Hp. cbn [mbind option_bind]. case_decide as Hf0.
  { rewrite HY. cbn [mbind option_bind]. rewrite list_insert_id by done. exists w, L, qss. split; [by destruct w|done]. }
  destruct HY as (s' & q0 & q' & m & km & Hq0 & Ec & Hm & E & RT' & HF). assert (q0 = q) as -> by congruence. rewrite E. cbn [mbind option_bind].
  rewrite Hcur. cbn [current]. rewrite (proj2 (Z.eqb_neq t NULL)) by lia. do 3 eexists. split; [done|].
  pose proof (R_words _ _ _ _ _ R) as W. pose proof (R_private _ _ _ _ _ R) as P. rewrite Em in W, P.
  assert (forall u o, u ∈ ts.*1.*2 -> 0 <= o < sizeof_task -> ld (mm s') (u + o) = ld (mm s) (u + o)) as FT.
  { intros u o Hu Hx. destruct (R_task _ _ _ _ _ _ R Hu) as (ku & Hku & Hszu & _ & Hn & _). apply (HF u ku); [done|by apply (Hn i)|lia]. }
  eapply (RunInv_thread w L _ ts qss Ds Ds i (On t) (Yielded t) qs (qs ++ [(m, t)]) q' wq);
    cbn [mc_rt mc_waits mc_kts preempt rt_gc ready_qs task_count with_arena g_mem]; try done.
  - by rewrite list_insert_id.
  - by apply (R_waits _ _ _ _ _ R i).
  - by rewrite length_insert.
  - cbn in *. by rewrite Ec, Hc.
  - rewrite fmap_app. cbn. solve_Permutation.
  - by left.
  - assert (forall x j y, private_block (mc_kts (r_mc w)) Ds x -> L !! x = Some j -> x <= y < x + j -> ld (mm s') y = ld (mm s) y) as FP.
    { intros x j y Hx Hj Hy. apply (HF x j); [done| |done]. destruct (R_private_block _ _ _ _ _ _ R Hx) as [_ Hn]. intros ?. apply Hn. right. right. eauto. }
    eapply (private_step HS s _ _ _ _ L); [exact Ho|exact P|exact Hkt| | |eauto|].
    + intros x j Hx Hj. rewrite lookup_insert_ne; [done|congruence].
    + intros x [?| ->]%pushed_blocks; auto.
    + rewrite (FP kt k); [done| |done|tko; lia]. left. by eapply list_elem_of_lookup_2.
  - apply (words_step w L ts qss _ Ds i (Yielded t)); [done|..]; rewrite ?Em.
    + eapply (pushed_words w L ts qss Ds i qs m t); [done|done|rewrite FT by (done || (tko; lia)); done|]. intros u Hu. rewrite Em. apply FT; (done || (tko; lia)).
    + intros j qj u Hji Hj Hu. exists qj. by rewrite list_lookup_insert_ne.
    + intros u Hu _. split; apply FT; (done || (tko; lia)).
    + by intros u Hu%elem_of_nil.
    + split; [rewrite FT by (done || (tko; lia)); by apply (W_on _ _ _ W i)|]. exists (qs ++ [(m, t)]).
      rewrite list_lookup_insert_eq by (by eapply lookup_lt_Some). split; [done|]. rewrite fmap_app, elem_of_app. right. by left.
Qed.

(** *** A task returns *)

(** The blocks of another payload, and the threads, are not among those the
    task gives back. *)
Lemma drop_block (w : run) (L : gmap Z Z) (ts : list (Z * Z * Z)) (qss : list (list (Z * Z))) (Ds : gmap Z (gmap Z Z)) (t x : Z) (D : gmap Z Z) :
  RunInv w L ts qss Ds -> Ds !! t = Some D -> private_block (mc_kts (r_mc w)) (delete t Ds) x -> private_block (mc_kts (r_mc w)) Ds x /\ x ∉ dom D.
Proof using Type.
  intros R HD [Hx|(u & D' & [Hut HD']%lookup_delete_Some & Hx)].
  - split; [by left|]. intros Hin. by destruct (P_own _ _ _ _ _ _ _ (R_private _ _ _ _ _ R) t D HD) as [_ Hap]; destruct (Hap x Hin).
  - split; [right; eauto|]. intros Hin. pose proof (P_disj _ _ _ _ _ _ _ (R_private _ _ _ _ _ R) t u D D' HD HD' Hut) as Hdis.
    apply map_disjoint_dom in Hdis. by apply (Hdis x).
Qed.

(** The payload of a task that has not returned. *)
Lemma R_payload (w : run) (L : gmap Z Z) (ts : list (Z * Z * Z)) (qss : list (list (Z * Z))) (Ds : gmap Z (gmap Z Z)) (i : nat) (p : place) (t : Z) :
  RunInv w L ts qss Ds -> r_places w !! i = Some p -> runs p t -> (forall u, p <> Finished u) ->
  exists D payload fn args types values vals, Ds !! t = Some D /\ r_jobs w !! t = Some (payload, fn, args) /\ D ⊆ L /\ D !! t = None /\
    owned D payload types values vals /\ payload_at (g_mem (rt_gc (mc_rt (r_mc w)))) payload fn types values vals args.
Proof using Type.
  intros R Hp Hr Hnf. destruct (R_runs _ _ _ _ _ _ _ _ R Hp Hr) as [Ht Hsid]. destruct (R_task _ _ _ _ _ _ R Ht) as (_ & _ & _ & _ & _ & Hpr & _).
  destruct (R_pending _ _ _ _ _ R t Ht) as [[D HD]|[j Hj]].
  - destruct (P_job _ _ _ _ _ _ _ (R_private _ _ _ _ _ R) t D HD) as (pl & fn & args & ty & va & vs & Hj & HW & HP).
    destruct (P_own _ _ _ _ _ _ _ (R_private _ _ _ _ _ R) t D HD) as [HDL _]. exists D, pl, fn, args, ty, va, vs. split_and!; try done.
    apply not_elem_of_dom. intros ?. apply Hpr. right. eauto.
  - destruct (R_runs _ _ _ _ _ _ _ _ R Hj ltac:(unfold runs; auto)) as [_ Hsid']. assert (i = j) as -> by lia. exfalso. apply (Hnf t). congruence.
Qed.

Lemma return_ok (mk : Z -> Z -> Z -> Z -> Z * Z * (Z -> Z)) (w : run) (L : gmap Z Z) (ts : list (Z * Z * Z)) (qss : list (list (Z * Z))) (Ds : gmap Z (gmap Z Z)) (i : nat) (t : Z) :
  RunInv w L ts qss Ds -> r_places w !! i = Some (On t) ->
  exists w' L', run_step mk w (Return i) = Some w' /\ RunInv w' L' ts qss (delete t Ds).
Proof using HFfi.
  intros R Hp. destruct (R_arena _ _ _ _ _ R) as (s & Es & Ho & Em). pose (HS := reserved_spec (stack_of <$> ts)).
  destruct (R_thread _ _ _ _ _ i R (place_lt _ _ _ _ _ _ _ R Hp)) as (kt & k & q & qs & wq & f & p & Hkt & Hk & Hsz & Hb & Hid & Hq & Hqs & Hwq & Hf & Hp' & Hc & Hcur).
  assert (p = On t) as -> by congruence. destruct (R_runs _ _ _ _ _ _ _ _ R Hp ltac:(by left)) as [Ht Hsid].
  destruct (R_task _ _ _ _ _ _ R Ht) as (k0 & Hk0 & Hsz0 & _ & _ & Hpr & _).
  destruct (R_payload _ _ _ _ _ _ _ t R Hp ltac:(by left) ltac:(done)) as (D & pl & fn & args & ty & va & vs & HD & Hj & HDL & HDt & HW & HP). rewrite Em in *.
  destruct (task_finish_ok (H1 := HS) s L D pl fn ty va vs args t k0 Ho HDL HW HP Hk0) as (s' & E & Ho' & HK & _); [tko; lia|done|].
  change (h_mem s') with (mm s') in HK. change (h_mem s) with (mm s) in HK.
  assert (forall x j, L !! x = Some j -> x ∉ dom D -> (L ∖ D) !! x = Some j) as HL by (intros x j Hx Hd; apply lookup_difference_Some; by rewrite <- not_elem_of_dom).
  assert (forall x j y, L !! x = Some j -> x ∉ dom D -> x <= y < x + j -> y <> t + o_task_state -> ld (mm s') y = ld (mm s) y) as F.
  { intros x j y Hx Hd Hy Hne. rewrite (HK x j); [by apply ld_st_ne, not_eq_sym|auto|done]. }
  assert (forall x, rt_block ts qss x -> x ∉ dom D) as Hrd.
  { intros x Hx Hin. destruct (R_private_block _ _ _ _ _ x R) as [_ Hn]; [right; eauto|done]. }
  assert (forall u o, u ∈ ts.*1.*2 -> 0 <= o < sizeof_task -> (u = t -> o <> o_task_state) -> ld (mm s') (u + o) = ld (mm s) (u + o)) as FT.
  { intros u o Hu Hx Hne. destruct (R_task _ _ _ _ _ _ R Hu) as (ku & Hku & Hszu & _). apply (F u ku); [done|apply Hrd; right; by left|lia|].
    destruct (decide (u = t)) as [->|Hut]; [specialize (Hne eq_refl); lia|]. eapply (task_apart w L ts qss Ds t u ku); try done; (tko; lia). }
  unfold run_step. rewrite Hp. cbn [mbind option_bind]. rewrite Hj. cbn [mbind option_bind]. unfold task_return. rewrite Es. cbn [mbind option_bind].
  rewrite E. cbn [mbind option_bind]. do 2 eexists. split; [done|]. pose proof (R_words _ _ _ _ _ R) as W. rewrite Em in W.
  rewrite <- (list_insert_id qss i qs Hqs).
  eapply (RunInv_thread w L _ ts qss Ds _ i (On t) (Finished t) qs qs q wq);
    cbn [mc_rt mc_waits mc_kts preempt rt_gc ready_qs task_count with_arena set_state g_mem]; rewrite ?(list_insert_id qss i qs Hqs); try done.
  - eapply (RTInv_state (Runtime (with_arena (rt_gc (mc_rt (r_mc w))) s') (ready_qs (mc_rt (r_mc w))) (task_count (mc_rt (r_mc w))))).
    eapply RTInv_move; [apply R|exact Es|exact Ho'| | |].
    + intros x Hx. rewrite lookup_difference. by rewrite (proj1 (not_elem_of_dom D x)) by (by apply Hrd).
    + intros x j y Hx Hxt Hj' Hy. apply (F x j); [done|by apply Hrd|done|]. eapply (task_apart w L ts qss Ds t x j); try done; [tko; lia..|by intros ->].
    + intros u o Hu Hwd. apply FT; [done|destruct Hwd as [->|[->| ->]]; tko; lia..].
  - by rewrite list_insert_id.
  - by rewrite list_insert_id.
  - by apply (R_waits _ _ _ _ _ R i).
  - intros u Hu. destruct (decide (u = t)) as [->|]; [by right|left]. by rewrite lookup_delete_ne.
  - pose proof (private_drop _ _ _ _ _ _ _ t (R_private _ _ _ _ _ R)) as P. rewrite Em in P.
    assert (forall x j y, private_block (mc_kts (r_mc w)) (delete t Ds) x -> L !! x = Some j -> x <= y < x + j -> ld (mm s') y = ld (mm s) y) as FP.
    { intros x j y Hx Hj' Hy. destruct (drop_block _ _ _ _ _ _ _ _ R HD Hx) as [Hx' Hd]. apply (F x j); try done.
      eapply (task_apart w L ts qss Ds t x j); try done; [tko; lia..|by intros ->]. }
    eapply (private_step HS s _ _ _ _ L); [exact Ho|exact P|exact Hkt| |by left|eauto|].
    + intros x j Hx Hj'. destruct (drop_block _ _ _ _ _ _ _ _ R HD Hx) as [_ ?]. auto.
    + rewrite (FP kt k); [done| |done|tko; lia]. left. by eapply list_elem_of_lookup_2.
  - apply (words_step w L ts qss _ Ds i (Finished t)); [done|..]; rewrite ?Em.
    + intros j qj u Hj' Hu. rewrite FT; [by eapply (W_queue _ _ _ W)|by eapply R_queued|tko; lia..].
    + eauto.
    + intros u Hu Hne. split; apply FT; try done; try (tko; lia). by intros ->.
    + intros u ->%list_elem_of_singleton. rewrite FT; [done|done|tko; lia..].
    + rewrite (HK t k0); [apply ld_st_eq| |tko; lia]. apply lookup_difference_Some. done.
Qed.

(** *** A thread deals with the task that switched back *)
Lemma settle_yielded (mk : Z -> Z -> Z -> Z -> Z * Z * (Z -> Z)) (w : run) (L : gmap Z Z) (ts : list (Z * Z * Z)) (qss : list (list (Z * Z))) (Ds : gmap Z (gmap Z Z)) (i : nat) (t : Z) :
  RunInv w L ts qss Ds -> r_places w !! i = Some (Yielded t) -> exists w', run_step mk w (Settle i) = Some w' /\ RunInv w' L ts qss Ds.
Proof using HFfi.
  intros R Hp. destruct (R_arena _ _ _ _ _ R) as (s & Es & Ho & Em).
  destruct (R_thread _ _ _ _ _ i R (place_lt _ _ _ _ _ _ _ R Hp)) as (kt & k & q & qs & wq & f & p & Hkt & Hk & Hsz & Hb & Hid & Hq & Hqs & Hwq & Hf & Hp' & Hc & Hcur).
  assert (p = Yielded t) as -> by congruence. destruct (R_runs _ _ _ _ _ _ _ _ R Hp ltac:(unfold runs; auto)) as [Ht _].
  pose proof (R_words _ _ _ _ _ R) as W. pose proof (R_private _ _ _ _ _ R) as P. rewrite Em in W, P. destruct (W_yielded _ _ _ W i t Hp) as [Hst _].
  pose proof Ht as ([n t'] & E0 & ([[n' t''] b] & E1 & Hin)%list_elem_of_fmap)%list_elem_of_fmap. cbn in E0, E1. injection E1 as <- <-. subst t'.
  apply list_elem_of_split in Hin as (l1 & l2 & ->). set (ts := l1 ++ (n, t, b) :: l2) in *.
  pose proof (turn_end_ok (r_mc w) L l1 l2 n t b qss s i kt k (R_rt _ _ _ _ _ R) Es Hkt Hk Hsz Hb) as HE.
  rewrite Hst, decide_False in HE by done. destruct HE as (rt' & E & Hcnt & RT' & Hcu & Hqeq & HF).
  unfold run_step. rewrite Hp. cbn [mbind option_bind]. rewrite E. cbn [mbind option_bind]. eexists. split; [done|].
  assert (forall u o, u ∈ ts.*1.*2 -> 0 <= o < sizeof_task -> ld (g_mem (rt_gc rt')) (u + o) = ld (mm s) (u + o)) as FT.
  { intros u o Hu Hx. destruct (R_task _ _ _ _ _ _ R Hu) as (ku & Hku & Hszu & _). apply (HF u ku); [done|lia|by eapply thread_apart]. }
  rewrite <- (list_insert_id qss i qs Hqs). eapply (RunInv_thread w L _ ts qss Ds _ i (Yielded t) Idle qs qs q wq);
    cbn [mc_rt mc_waits mc_kts preempt]; rewrite ?(list_insert_id qss i qs Hqs); try done.
  - by rewrite list_insert_id.
  - by rewrite list_insert_id.
  - by apply (R_waits _ _ _ _ _ R i).
  - by left.
  - eapply (private_step (reserved_spec (stack_of <$> ts)) s _ _ _ _ L); [exact Ho|exact P|exact Hkt|done|by left| |exact Hcu].
    intros x j y _ Hj Hy Hne. by apply (HF x j).
  - apply (words_step w L ts qss _ Ds i Idle); [done|..]; rewrite ?Em.
    + intros j qj u Hj' Hu. rewrite FT; [by eapply (W_queue _ _ _ W)|by eapply R_queued|tko; lia..].
    + eauto.
    + intros u Hu Hne. split; apply FT; (done || (tko; lia)).
    + by intros u Hu%elem_of_nil.
    + done.
Qed.

Lemma swrap_add (a b : Z) : swrap 32 (swrap 32 a + b) = swrap 32 (a + b).
Proof using Type.
  clear. apply swrap_congr. unfold uwrap, swrap. change (2 ^ (32 - 1)) with 2147483648. change (2 ^ 32) with 4294967296.
  pose proof (Z.div_mod (a + 2147483648) 4294967296 ltac:(lia)).
  replace ((a + 2147483648) mod 4294967296 - 2147483648 + b) with (a + b + (- ((a + 2147483648) / 4294967296)) * 4294967296) by lia.
  apply Z.mod_add. lia.
Qed.

(** The table of tasks without one. *)
Lemma R_without (w : run) (L : gmap Z Z) (l1 l2 ts : list (Z * Z * Z)) (n t b : Z) (qss : list (list (Z * Z))) (Ds : gmap Z (gmap Z Z)) :
  RunInv w L ts qss Ds -> ts = l1 ++ (n, t, b) :: l2 -> ts.*1.*2 ≡ₚ t :: (l1 ++ l2).*1.*2 /\ n ∈ ts.*1.*1 /\
    (forall u, u ∈ (l1 ++ l2).*1.*2 -> u ∈ ts.*1.*2 /\ u <> t) /\ (forall u, u ∈ (l1 ++ l2).*1.*1 -> u ∈ ts.*1.*1) /\
    swrap 32 (task_count (mc_rt (r_mc w)) - 1) = swrap 32 (Z.of_nat (length (l1 ++ l2))).
Proof using Type.
  intros R Ets. assert (ts.*1.*2 ≡ₚ t :: (l1 ++ l2).*1.*2) as Eperm by (rewrite Ets, !fmap_app; cbn; solve_Permutation).
  assert (NoDup ts.*1.*2) as Hnd by (destruct (RT_tasks _ _ _ _ (R_rt _ _ _ _ _ R)) as [(s0 & q0 & _ & _ & _ & RR) _]; apply RR).
  rewrite Eperm in Hnd. apply NoDup_cons in Hnd as [Hnt _]. split_and!; [done|..].
  - rewrite Ets, !fmap_app, elem_of_app. right. by left.
  - intros u Hu. split; [rewrite Eperm; by right|by intros ->].
  - intros u. rewrite Ets, !fmap_app, !elem_of_app. cbn. rewrite elem_of_cons. tauto.
  - rewrite (R_count _ _ _ _ _ R). change (swrap 32 (Z.of_nat (length ts)) - 1) with (swrap 32 (Z.of_nat (length ts)) + -1). rewrite swrap_add. f_equal.
    rewrite Ets, !length_app. cbn [length]. lia.
Qed.

Lemma settle_finished (mk : Z -> Z -> Z -> Z -> Z * Z * (Z -> Z)) (w : run) (L : gmap Z Z) (ts : list (Z * Z * Z)) (qss : list (list (Z * Z))) (Ds : gmap Z (gmap Z Z)) (i : nat) (t : Z) :
  RunInv w L ts qss Ds -> r_places w !! i = Some (Finished t) -> task_count (mc_rt (r_mc w)) <> 1 ->
  exists w' L' ts', run_step mk w (Settle i) = Some w' /\ RunInv w' L' ts' qss Ds.
Proof using HFfi.
  intros R Hp Hone. destruct (R_arena _ _ _ _ _ R) as (s & Es & Ho & Em).
  destruct (R_thread _ _ _ _ _ i R (place_lt _ _ _ _ _ _ _ R Hp)) as (kt & k & q & qs & wq & f & p & Hkt & Hk & Hsz & Hb & Hid & Hq & Hqs & Hwq & Hf & Hp' & Hc & Hcur).
  assert (p = Finished t) as -> by congruence. destruct (R_runs _ _ _ _ _ _ _ _ R Hp ltac:(unfold runs; auto)) as [Ht Hsid]. rewrite Em in Hsid.
  pose proof (R_words _ _ _ _ _ R) as W. pose proof (R_private _ _ _ _ _ R) as P. rewrite Em in W, P. pose proof (W_finished _ _ _ W i t Hp) as Hst.
  pose proof Ht as ([n t'] & E0 & ([[n' t''] b] & E1 & Hin)%list_elem_of_fmap)%list_elem_of_fmap. cbn in E0, E1. injection E1 as <- <-. subst t'.
  apply list_elem_of_split in Hin as (l1 & l2 & Ets). destruct (R_without _ _ _ _ _ _ _ _ _ _ R Ets) as (Eperm & Hn & Hsub & Hsub1 & Ecnt).
  assert (l1 ++ l2 <> []) as Hne.
  { intros E. apply Hone. rewrite (R_count _ _ _ _ _ R), Ets, length_app. cbn [length]. rewrite Nat.add_succ_r, <- length_app, E. done. }
  pose proof (R_rt _ _ _ _ _ R) as RT. rewrite Ets in RT, Hb. pose proof (turn_end_ok (r_mc w) L l1 l2 n t b qss s i kt k RT Es Hkt Hk Hsz Hb) as HE.
  rewrite <- Ets in *. rewrite Hst, decide_True, decide_False in HE by done. destruct HE as (rt' & E & Hcnt & RT' & _ & Hcu & Hqeq & HF).
  unfold run_step. rewrite Hp. cbn [mbind option_bind]. rewrite E. cbn [mbind option_bind]. do 3 eexists. split; [done|].
  assert (forall x, x <> n -> x <> t -> delete t (delete n L) !! x = L !! x) as HL by (intros x ? ?; by rewrite !lookup_delete_ne).
  assert (forall u o, u ∈ (l1 ++ l2).*1.*2 -> 0 <= o < sizeof_task -> ld (g_mem (rt_gc rt')) (u + o) = ld (mm s) (u + o)) as FT.
  { intros u o [Hu Hut]%Hsub Hx. destruct (R_task _ _ _ _ _ _ R Hu) as (ku & Hku & Hszu & Hu1 & _).
    apply (HF u ku); [rewrite HL; [done|congruence|done]|by intros ?%Hsub1|lia|by eapply thread_apart]. }
  assert (queued qss ++ held (<[i := Idle]> (r_places w)) ≡ₚ (l1 ++ l2).*1.*2) as Eonce.
  { destruct (once_split qss (r_places w) i qs (Finished t) Hqs Hp) as (rest & E1 & E2). pose proof (R_once _ _ _ _ _ R) as E3.
    rewrite E1, Eperm in E3. rewrite <- (list_insert_id qss i qs Hqs), E2. cbn [holds app] in *. apply (Permutation_cons_inv (a := t)). rewrite <- E3. solve_Permutation. }
  destruct (R_sizes _ _ _ _ _ R) as (? & ? & ? & ? & ?). split; cbn [r_mc r_places r_jobs mc_rt mc_waits mc_kts preempt].
  - exact RT'.
  - rewrite length_insert. by split_and!.
  - apply R.
  - by rewrite Hcnt.
  - exact Eonce.
  - intros u Hu. destruct (Hsub u Hu) as [Hu' Hut]. destruct (R_pending _ _ _ _ _ R u Hu') as [?|[j Hj]]; [by left|]. right. exists j.
    rewrite list_lookup_insert_ne by congruence. done.
  - rewrite list_fmap_insert. assert (forall x, private_block (mc_kts (r_mc w)) Ds x -> x <> n /\ x <> t /\ x ∉ ts.*1.*1) as Hpb.
    { intros x Hx. destruct (R_private_block _ _ _ _ _ _ R Hx) as [_ Hnb]. split_and!; [intros ->; apply Hnb; by left|intros ->; apply Hnb; right; by left|].
      intros ?. apply Hnb. by left. }
    eapply (private_step (reserved_spec (stack_of <$> ts)) s _ _ _ _ L); [exact Ho|exact P|exact Hkt| | | |exact Hcu].
    + intros x j (? & ? & _)%Hpb Hj. by rewrite HL.
    + intros x [?%Hsub1|[[? _]%Hsub|?]]; left; [by left|right; by left|right; by right].
    + intros x j y (? & ? & Hx)%Hpb Hj Hy Hyn. apply (HF x j); try done; [by rewrite HL|by intros ?%Hsub1].
  - apply (words_step w L ts qss _ Ds i Idle); [done|..]; rewrite ?Em; [| | |by intros u Hu%elem_of_nil|done].
    + intros j qj u Hj' Hu. rewrite FT; [by eapply (W_queue _ _ _ W)| |tko; lia].
      rewrite <- Eonce, elem_of_app. left. by eapply (bind_elem (fun qs : list (Z * Z) => qs.*2)).
    + eauto.
    + intros u Hu Hnu. rewrite Eperm, elem_of_cons in Hu. destruct Hu as [->|Hu]; [done|]. split; apply FT; (done || (tko; lia)).
  - rewrite Hqeq. intros j pj qj qsj Hj' Hqj Hsj. rewrite <- (list_insert_id (ready_qs (mc_rt (r_mc w))) i q) in Hqj by done.
    eapply (conds_at w L ts qss Ds i Idle q qs); [exact R|done|done|exact Hqj|by rewrite list_insert_id].
Qed.

(** *** A task starts another one *)

(** The place of a thread says the same after a push on its queue that
    leaves the tasks of the table alone. *)
Lemma pushed_place (w : run) (L : gmap Z Z) (ts : list (Z * Z * Z)) (qss : list (list (Z * Z))) (Ds : gmap Z (gmap Z Z)) (i : nat) (p : place) (qs : list (Z * Z))
    (n t : Z) (m' : mem) :
  RunInv w L ts qss Ds -> r_places w !! i = Some p -> qss !! i = Some qs -> ld m' (t + o_task_sched_id) = Z.of_nat i ->
  (forall u o, u ∈ ts.*1.*2 -> 0 <= o < sizeof_task -> ld m' (u + o) = ld (g_mem (rt_gc (mc_rt (r_mc w)))) (u + o)) ->
  Words (r_places w) (<[i := qs ++ [(n, t)]]> qss) m'.
Proof using Type.
  intros R Hp Hqs Ht FT. pose proof (R_words _ _ _ _ _ R) as W. rewrite <- (list_insert_id (r_places w) i p Hp).
  apply (words_step w L ts qss _ Ds i p); [done|..].
  - eapply (pushed_words w L ts qss Ds i qs n t); [done..|]. intros u Hu. apply FT; [done|tko; lia].
  - intros j qj u Hji Hj Hu. exists qj. by rewrite list_lookup_insert_ne.
  - intros u Hu _. split; apply FT; (done || (tko; lia)).
  - intros u Hu. assert (u ∈ ts.*1.*2) by (rewrite <- (R_once _ _ _ _ _ R), elem_of_app; right; by eapply (bind_elem holds)).
    rewrite FT; [by eapply (W_held _ _ _ W)|done|tko; lia].
  - assert (forall u, runs p u -> ld m' (u + o_task_state) = ld (g_mem (rt_gc (mc_rt (r_mc w)))) (u + o_task_state)) as FR.
    { intros u Hu. destruct (R_runs _ _ _ _ _ _ _ _ R Hp Hu) as [Hin _]. apply FT; [done|tko; lia]. }
    unfold runs in FR. destruct p; try done; rewrite FR by auto.
    + by apply (W_on _ _ _ W i).
    + destruct (W_yielded _ _ _ W i _ Hp) as (? & qy & Hqy & Hin). split; [done|]. exists (qs ++ [(n, t)]).
      rewrite list_lookup_insert_eq by (by eapply lookup_lt_Some). split; [done|]. rewrite fmap_app, elem_of_app. left. congruence.
    + by apply (W_finished _ _ _ W i).
Qed.

(** A push signals the thread if it sleeps. *)
Lemma pushed_cond (p : place) (q q' : safe_queue) (qs qs' : list (Z * Z)) :
  cond_ok p q qs -> q_cond q' = cond_signal (q_cond q) -> cond_ok p q' qs'.
Proof using Type.
  intros Hc Ec. destruct p; cbn in Hc |- *; rewrite ?Ec; try (by rewrite Hc); try done. right. destruct Hc as [[Hc _]|Hc]; by rewrite Hc.
Qed.

Lemma spawn_ok (mk : Z -> Z -> Z -> Z -> Z * Z * (Z -> Z)) (w : run) (L : gmap Z Z) (ts : list (Z * Z * Z)) (qss : list (list (Z * Z))) (Ds : gmap Z (gmap Z Z)) (i : nat)
    (fn : Z) (args : list Z) (r1 r2 uc : Z) :
  RunInv w L ts qss Ds -> enabled w (Spawn i fn args r1 r2 uc) ->
  exists w' L' ts' qss' Ds', run_step mk w (Spawn i fn args r1 r2 uc) = Some w' /\ RunInv w' L' ts' qss' Ds'.
Proof.
  intros R [[t0 Hp] (Hr1 & Hmax & Hroom)]. destruct (R_arena _ _ _ _ _ R) as (s & Es & Ho & Em). destruct (R_sizes _ _ _ _ _ R) as (E12 & ? & ? & ? & ?).
  destruct (thread_ok mk (mc_rt (r_mc w)) L ts qss fn args r1 r2 uc (R_rt _ _ _ _ _ R)) as
    (t & rt' & pl & D & ty & va & vs & n & b & m & kt0 & kn & km & qs & E & HDL & Ht & Hn & Hm & Hqs & RT' & HW & HP & Hcnt & HF & _ & Hsid & Hpl);
    [by rewrite E12|done|done|exact Hroom|].
  cbv zeta in *. destruct (Hpl s Es) as [s1 Epl]. destruct (thread_queues mk _ _ _ _ _ _ _ _ E) as (q & q' & Hq & Eq & Ec).
  assert (0 <= r1 mod pool_size < pool_size) as Hmod by (apply Z.mod_pos_bound; done). rewrite Z.rem_mod_nonneg in Hq, Eq by done.
  set (kid := Z.to_nat (r1 mod pool_size)) in *. replace (r1 mod pool_size) with (Z.of_nat kid) in Hq, Hsid by (unfold kid; lia). rewrite arr_get_nat in Hq.
  set (L' := <[m := km]> _) in RT'.
  destruct (R_thread _ _ _ _ _ kid R) as (kt & k & q0 & qs0 & wq & f & p & Hkt & Hk & Hsz & Hb & Hid & Hq0 & Hqs0 & Hwq & Hf & Hpk & Hc & Hcur).
  { unfold kid, pool_size in *. lia. }
  assert (qs0 = qs /\ q0 = q) as [-> ->] by (split; congruence).
  rewrite lookup_union_None in Ht. rewrite lookup_insert_None, lookup_union_None in Hn. rewrite !lookup_insert_None, lookup_union_None in Hm.
  destruct Ht as [HDt HLt], Hn as [[HDn HLn] _], Hm as [[[HDm HLm] _] _].
  assert (forall x, rt_block ((n, t, b) :: ts) (<[kid := qs ++ [(m, t)]]> qss) x -> rt_block ts qss x \/ x = n \/ x = t \/ x = m) as Hblk.
  { intros x [Hx|[Hx|Hx]]; [cbn in Hx; rewrite elem_of_cons in Hx; unfold rt_block; tauto..|].
    destruct (pushed_blocks ts qss kid qs m t x Hqs) as [?|?]; [right; by right|by left|tauto]. }
  unfold run_step. rewrite Hp. cbn [mbind option_bind]. rewrite Es. cbn [mbind option_bind]. rewrite Epl. cbn [mbind option_bind]. rewrite E. cbn [mbind option_bind].
  exists (Run (Machine rt' (mc_waits (r_mc w)) (mc_kts (r_mc w)) (preempt (r_mc w))) (r_places w) (<[t := (pl, fn, args)]> (r_jobs w))), L', ((n, t, b) :: ts),
    (<[kid := qs ++ [(m, t)]]> qss), (<[t := D]> Ds). split; [done|].
  split; cbn [r_mc r_places r_jobs mc_rt mc_waits mc_kts preempt]; [exact RT'|rewrite length_insert; by split_and!|apply R|..].
  - rewrite Hcnt, (R_count _ _ _ _ _ R), swrap_add. f_equal. cbn [length]. lia.
  - destruct (once_split qss (r_places w) kid qs p Hqs Hpk) as (rest & E1 & E2). cbn [fmap list_fmap fst snd]. rewrite <- (R_once _ _ _ _ _ R), E1.
    rewrite <- (list_insert_id (r_places w) kid p) by done. rewrite E2, fmap_app. cbn. solve_Permutation.
  - cbn [fmap list_fmap fst snd]. intros u. rewrite elem_of_cons, lookup_insert. case_decide; [left; by eexists|]. intros [->|Hu]; [done|].
    by apply (R_pending _ _ _ _ _ R).
  - apply (private_add _ _ _ _ _ D _ _ t pl fn ty va vs args); [|unfold L'| |done|done].
    + rewrite <- (list_insert_id (current <$> r_places w) kid (current p)) by (by rewrite list_lookup_fmap, Hpk).
      assert (forall x j y, private_block (mc_kts (r_mc w)) Ds x -> L !! x = Some j -> x <= y < x + j ->
        ld (g_mem (rt_gc rt')) y = ld (g_mem (rt_gc (mc_rt (r_mc w)))) y) as FP.
      { intros x j y Hx Hj Hy. destruct (R_private_block _ _ _ _ _ _ R Hx) as [_ Hnb]. apply (HF x j); [done|..|done]; intros ?; apply Hnb; [by left|right; right; eauto]. }
      eapply (private_step (reserved_spec (stack_of <$> ts)) s _ _ _ _ L); [exact Ho|apply R|exact Hkt| | |eauto|].
      * intros x j _ Hx. unfold L'. rewrite !lookup_insert_ne by congruence. apply lookup_union_Some; [by symmetry|by right].
      * intros x [?|[->|[->| ->]]]%Hblk; auto.
      * rewrite (FP kt k); [done| |done|tko; lia]. left. by eapply list_elem_of_lookup_2.
    + apply map_subseteq_spec. intros x j Hx. rewrite !lookup_insert_ne by congruence. by apply lookup_union_Some_l.
    + intros x Hx. apply elem_of_dom in Hx as [j Hx]. assert (L !! x = None) as HxL by (by eapply map_disjoint_Some_r). split.
      * intros [Hb'|[->|[->| ->]]]%Hblk; [|congruence..]. destruct (rt_block_live _ _ _ _ _ (R_rt _ _ _ _ _ R) Hb') as [? ?]. congruence.
      * intros Hpb. destruct (R_private_block _ _ _ _ _ _ R Hpb) as [[? ?] _]. congruence.
  - apply (pushed_place w L ts qss Ds kid p qs m t); try done. intros u o Hu Hx.
    destruct (R_task _ _ _ _ _ _ R Hu) as (ku & Hku & Hszu & Hu1 & Hu2 & _). apply (HF u ku); [done|done|by apply (Hu2 kid)|lia].
  - rewrite Eq. intros j pj qj qsj Hj' Hqj Hsj. rewrite <- (list_insert_id (r_places w) kid p) in Hj' by done.
    eapply (conds_at w L ts qss Ds kid p q' (qs ++ [(m, t)])); [exact R|by eapply pushed_cond|exact Hj'|exact Hqj|exact Hsj].
Qed.

(** *** Every operation *)
Lemma step_ok (mk : Z -> Z -> Z -> Z -> Z * Z * (Z -> Z)) (w : run) (L : gmap Z Z) (ts : list (Z * Z * Z)) (qss : list (list (Z * Z))) (Ds : gmap Z (gmap Z Z)) (a : raction) :
  RunInv w L ts qss Ds -> enabled w a -> exists w' L' ts' qss' Ds', run_step mk w a = Some w' /\ RunInv w' L' ts' qss' Ds'.
Proof.
  intros R Ha. destruct a as [i|i|i fn args r1 r2 uc|i|i|i|i]; cbn [enabled] in Ha.
  - destruct (R_thread _ _ _ _ _ i R (place_lt _ _ _ _ _ _ _ R Ha)) as (_ & _ & _ & [|[m t] qs] & _ & _ & _ & _ & _ & _ & _ & _ & _ & Hqs & _).
    + destruct (pop_sleeps mk w L ts qss Ds i R Ha Hqs) as (w' & ? & ?). eauto 10.
    + destruct (pop_runs mk w L ts qss Ds i m t qs R Ha Hqs) as (w' & L' & ? & ?). eauto 10.
  - destruct (wake_ok mk w L ts qss Ds i R Ha) as (w' & ? & ?). eauto 10.
  - by apply (spawn_ok mk w L ts qss Ds).
  - destruct (tick_ok mk w L ts qss Ds i R Ha) as (w' & ? & ?). eauto 10.
  - destruct Ha as [[t Hp] Hr]. destruct (yield_ok mk w L ts qss Ds i t R Hp Hr) as (w' & L' & qss' & ? & ?). eauto 10.
  - destruct Ha as [t Hp]. destruct (return_ok mk w L ts qss Ds i t R Hp) as (w' & L' & ? & ?). eauto 10.
  - destruct Ha as [t [Hp|[Hp Hone]]].
    + destruct (settle_yielded mk w L ts qss Ds i t R Hp) as (w' & ? & ?). eauto 10.
    + destruct (settle_finished mk w L ts qss Ds i t R Hp Hone) as (w' & L' & ts' & ? & ?). eauto 10.
Qed.

Lemma steps_ok (mk : Z -> Z -> Z -> Z -> Z * Z * (Z -> Z)) (w w' : run) : rtc (rstep mk) w w' ->
  (exists L ts qss Ds, RunInv w L ts qss Ds) -> exists L ts qss Ds, RunInv w' L ts qss Ds.
Proof.
  induction 1 as [w|w w1 w2 (a & Ha & E) _ IH]; [done|]. intros (L & ts & qss & Ds & R). apply IH.
  destruct (step_ok mk w L ts qss Ds a R Ha) as (w' & L' & ts' & qss' & Ds' & E' & R'). assert (w' = w1) as -> by congruence. eauto.
Qed.
End steps.

(** ** From [main] on *)

(** The scheduler threads as [main] starts them: the table of their records
    is in memory, no timer has fired and the first task waits in its queue. *)
Definition run_start (pr : process) (jobs : gmap Z (Z * Z * list Z)) : run :=
  let m := g_mem (rt_gc (pr_rt pr)) in
  let kts := (fun i : nat => ld m (kernel_thread_map pr + 8 * Z.of_nat i)) <$> seq 0 12 in
  Run (Machine (pr_rt pr) (wait_qs pr) kts (replicate 12 0)) (replicate 12 Idle) jobs.

(** A thread that can move by itself. *)
Definition busy (w : run) (i : nat) : Prop :=
  match r_places w !! i with
  | Some Idle => exists q, ready_qs (mc_rt (r_mc w)) !! i = Some q /\ q_head q <> NULL
  | Some Sleeping => enabled w (Wake i)
  | Some (On _) | Some (Yielded _) | Some (Finished _) => True
  | _ => False
  end.

Section start.
Context `{OSLaws} {Ffi : FFI} {HFfi : FFILaws} {Lib : IOLib} {HLib : IOLaws}.
Context (makecontext : Z -> Z -> Z -> Z -> Z * Z * (Z -> Z)).

(** The table of the kernel threads, as the list the threads use. *)
Lemma table_list (ctx : Z -> Z) (m : mem) (L L' : gmap Z Z) (map : Z) : table_at sizeof_kernel_thread (kernel_thread_at ctx) 12 m L L' map ->
  let kts := (fun i : nat => ld m (map + 8 * Z.of_nat i)) <$> seq 0 12 in NoDup kts /\
  forall i kt, kts !! i = Some kt -> (exists k, L' !! kt = Some k /\ sizeof_kernel_thread <= k) /\ kernel_thread_at ctx m (Z.of_nat i) kt.
Proof using Type.
  clear. intros (_ & _ & ps & Hlen & Hnd & Hps). cbv zeta.
  assert ((fun i : nat => ld m (map + 8 * Z.of_nat i)) <$> seq 0 12 = ps) as ->.
  { apply list_eq. intros i. rewrite list_lookup_fmap. destruct (decide (i < 12)%nat) as [Hi|Hi].
    - rewrite lookup_seq_lt by done. destruct (lookup_lt_is_Some_2 ps i) as [p Hp]; [by rewrite Hlen|]. rewrite Hp. cbn [fmap option_fmap option_map].
      destruct (Hps i p Hp) as (E & _). rewrite Z.add_0_l in E. by rewrite Nat.add_0_l, E.
    - rewrite lookup_seq_ge by lia. symmetry. apply lookup_ge_None. lia. }
  split; [done|]. intros i kt Hi. destruct (Hps i kt Hi) as (_ & _ & Hk & HP). by rewrite Z.add_0_l in HP.
Qed.

Lemma start_ok (c : collector) (b : bytes) (ctx : Z -> Z) (start : Z) (argv : list (list Z)) (r1 r2 uc : Z) :
  io_available -> argv <> [] -> Forall arg_ok argv -> 0 <= r1 ->
  (1 + 2 * main_allocs (length argv) <= 159)%nat -> os_room (2 + 2 * main_allocs (length argv)) (g_maps c) ->
  exists t args pr payload, main makecontext c b ctx start (argv_of argv) r1 r2 uc = Some (t, args, pr) /\
    exists L ts qss Ds, RunInv (run_start pr {[t := (payload, start, [args])]}) L ts qss Ds.
Proof.
  intros Hio Hne Ha Hr1 Hlen Hroom.
  destruct (main_ok makecontext c b ctx start argv r1 r2 uc Hio Hne Ha Hr1 Hlen Hroom) as
    (t & args & pr & L & Lm & n & tb & m & pl & ty & va & vs & E & RT & Hcnt & HLm & Hn & Ht & Hm & HP & _ & Ew & (L0 & Htab) & _ & (D & HW & HD & Hdis & Dn & Dt & Dm) & Hsid & Hcond).
  cbv zeta in *. assert (0 <= r1 mod pool_size < pool_size) as Hmod by (apply Z.mod_pos_bound; done).
  exists t, args, pr, pl. split; [done|]. set (kid := Z.to_nat (r1 mod pool_size)) in *.
  assert (kid < 12)%nat as Hkid by (unfold kid, pool_size in *; lia). assert (r1 mod pool_size = Z.of_nat kid) as Ekid by (unfold kid; lia).
  exists L, [(n, t, tb)], (<[kid := [(m, t)]]> (replicate 12 [])), {[t := D]}.
  destruct (table_list _ _ _ _ _ Htab) as [Hnd Hkts].
  set (kts := _ <$> seq 0 12) in *.
  assert (forall x, rt_block [(n, t, tb)] (<[kid := [(m, t)]]> (replicate 12 [])) x -> x = n \/ x = t \/ x = m) as Hblk.
  { intros x [->%list_elem_of_singleton|[->%list_elem_of_singleton|(i & qs & Hi & Hin)]]; auto.
    apply list_lookup_insert_Some in Hi as [(_ & <- & _)|[_ [-> _]%lookup_replicate]]; [|by apply elem_of_nil in Hin].
    apply list_elem_of_singleton in Hin. auto. }
  assert (held (replicate 12 Idle) = []) as Eh by done.
  split; cbn [run_start r_mc r_places r_jobs mc_rt mc_waits mc_kts preempt]; fold kts.
  - exact RT.
  - rewrite length_insert, !length_replicate, Ew, length_replicate. unfold kts. rewrite length_fmap, length_seq. done.
  - rewrite Ew. by intros i wq [-> _]%lookup_replicate.
  - by rewrite Hcnt.
  - destruct (once_split (replicate 12 []) (replicate 12 Idle) kid [] Idle) as (rest & E1 & E2); [by apply lookup_replicate..|].
    rewrite <- (list_insert_id (replicate 12 Idle) kid Idle) by (by apply lookup_replicate). rewrite E2. cbn [fmap list_fmap holds app snd fst] in *.
    assert (queued (replicate 12 []) ++ held (replicate 12 Idle) = []) as E0 by done. rewrite E0 in E1. by rewrite <- E1.
  - intros u ->%list_elem_of_singleton. left. rewrite lookup_singleton_eq. by eexists.
  - split.
    + intros i kt Hi. destruct (Hkts i kt Hi) as [(k & Hk & Hsz) (Hid & _)]. exists k. split_and!; try done; [by eapply lookup_weaken|].
      intros [->|[->| ->]]%Hblk; congruence.
    + intros i kt cur Hi Hcur. rewrite fmap_replicate in Hcur. apply lookup_replicate in Hcur as [-> _]. by destruct (Hkts i kt Hi) as [_ (_ & _ & ?)].
    + done.
    + intros u E' [<- <-]%lookup_singleton_Some. split; [done|]. intros x Hx%elem_of_dom. destruct Hx as [j Hx]. split.
      * intros [->|[->| ->]]%Hblk; congruence.
      * intros [i Hi]%list_elem_of_lookup_1. destruct (Hkts i x Hi) as [(k & Hk & _) _]. by eapply (map_disjoint_spec Lm D).
    + intros u u' E1 E2 [<- _]%lookup_singleton_Some [<- _]%lookup_singleton_Some. done.
    + intros u E' [<- <-]%lookup_singleton_Some. rewrite lookup_singleton_eq. eauto 10.
  - split.
    + intros i qs u [(-> & <- & _)|[_ [-> _]%lookup_replicate]]%list_lookup_insert_Some Hu; [|by apply elem_of_nil in Hu].
      apply list_elem_of_singleton in Hu as ->. cbn [snd]. by rewrite Hsid.
    + intros i p u [-> _]%lookup_replicate Hu. by apply elem_of_nil in Hu.
    + by intros i u [? _]%lookup_replicate.
    + by intros i u [? _]%lookup_replicate.
    + by intros i u [? _]%lookup_replicate.
  - intros i p q qs [-> _]%lookup_replicate Hq _. by apply (Forall_lookup_1 _ _ _ _ Hcond Hq).
Qed.

(** The thread of a task can move. *)
Lemma R_busy (w : run) (L : gmap Z Z) (ts : list (Z * Z * Z)) (qss : list (list (Z * Z))) (Ds : gmap Z (gmap Z Z)) (u : Z) :
  RunInv w L ts qss Ds -> u ∈ ts.*1.*2 ->
  exists i, (i < 12)%nat /\ ld (g_mem (rt_gc (mc_rt (r_mc w)))) (u + o_task_sched_id) = Z.of_nat i /\ busy w i.
Proof using Type.
  clear HFfi HLib Lib makecontext. intros R Hu. pose proof (R_words _ _ _ _ _ R) as W. rewrite <- (R_once _ _ _ _ _ R), elem_of_app in Hu.
  destruct Hu as [(qs & Hu & [i Hi]%list_elem_of_lookup_1)%list_elem_of_bind|(p & Hu & [i Hi]%list_elem_of_lookup_1)%list_elem_of_bind].
  - exists i. assert (i < 12)%nat as Hlt by (apply lookup_lt_Some in Hi; destruct (R_sizes _ _ _ _ _ R); lia).
    destruct (R_thread _ _ _ _ _ i R Hlt) as (_ & _ & q & qs' & _ & _ & p & _ & _ & _ & _ & _ & Hq & Hqs & _ & _ & Hp & Hc & _).
    assert (qs' = qs) as -> by congruence. split; [done|]. split; [by eapply (W_queue _ _ _ W)|]. unfold busy. rewrite Hp.
    destruct p; try done.
    + exists q. split; [done|]. intros E. destruct (R_arena _ _ _ _ _ R) as (s & Es & _).
      apply (QI_empty _ _ _ _ (RT_queue _ _ _ _ (R_rt _ _ _ _ _ R) s i q qs Es Hq Hqs)) in E. rewrite E in Hu. by apply elem_of_nil in Hu.
    + split; [done|]. exists q. split; [done|]. destruct Hc as [[_ ->]| ->]; [by apply elem_of_nil in Hu|cbn; lia].
  - exists i. split; [by eapply place_lt|]. split; [by eapply (W_held _ _ _ W)|]. unfold busy. rewrite Hi. destruct p; cbn in Hu; by try apply elem_of_nil in Hu.
Qed.

(** C6: the scheduler as a whole is safe.  Take any run of the twelve
    scheduler threads that starts where [main] leaves off, with a command
    line of at least one argument and small enough for the heap table (at
    most 23 arguments), and without a collection: threads take
    tasks, fall asleep and wake up, timers fire, tasks start others on
    threads of their choice, are preempted and return, in any order.  In
    every state of such a run every operation that the code may do next
    succeeds, as long as there is memory and the last task is not removed;
    each live task is in exactly one place, the ready queue of the thread
    that its record names or that thread itself; the ring of roots and all
    queues are well formed and [task_count] counts the tasks; and a task
    that is running was called with the function and the arguments it was
    started with. *)
Theorem runs_safe (c : collector) (b : bytes) (ctx : Z -> Z) (start : Z) (argv : list (list Z)) (r1 r2 uc : Z) :
  io_available -> argv <> [] -> Forall arg_ok argv -> 0 <= r1 ->
  (1 + 2 * main_allocs (length argv) <= 159)%nat -> os_room (2 + 2 * main_allocs (length argv)) (g_maps c) ->
  exists t args pr payload, main makecontext c b ctx start (argv_of argv) r1 r2 uc = Some (t, args, pr) /\
    forall w, rtc (rstep makecontext) (run_start pr {[t := (payload, start, [args])]}) w ->
      let rt := mc_rt (r_mc w) in
      (forall a, enabled w a -> is_Some (run_step makecontext w a)) /\
      exists L ts qss, RTInv rt L ts qss /\ task_count rt = swrap 32 (Z.of_nat (length ts)) /\
        queued qss ++ held (r_places w) ≡ₚ ts.*1.*2 /\ NoDup ts.*1.*2 /\
        (forall i qs u, qss !! i = Some qs -> u ∈ qs.*2 -> ld (g_mem (rt_gc rt)) (u + o_task_sched_id) = Z.of_nat i) /\
        (forall i p u, r_places w !! i = Some p -> u ∈ holds p -> ld (g_mem (rt_gc rt)) (u + o_task_sched_id) = Z.of_nat i) /\
        (forall i u, r_places w !! i = Some (On u) -> exists payload fn args, r_jobs w !! u = Some (payload, fn, args) /\
           forall s, arena_of (rt_gc rt) = Some s -> ffi_call s payload = (fn, args)).
Proof.
  intros Hio Hne Ha Hr1 Hlen Hroom. destruct (start_ok c b ctx start argv r1 r2 uc Hio Hne Ha Hr1 Hlen Hroom) as (t & args & pr & pl & E & R0).
  exists t, args, pr, pl. split; [done|]. intros w Hw rt. destruct (steps_ok _ _ _ Hw R0) as (L & ts & qss & Ds & R). split.
  - intros a Hen. destruct (step_ok makecontext w L ts qss Ds a R Hen) as (w' & _ & _ & _ & _ & Ew & _). by exists w'.
  - exists L, ts, qss. pose proof (R_words _ _ _ _ _ R) as W. split_and!; try apply R; try apply W.
    + destruct (RT_tasks _ _ _ _ (R_rt _ _ _ _ _ R)) as [(s0 & q0 & _ & _ & _ & RR) _]. apply RR.
    + intros i u Hi. destruct (R_payload _ _ _ _ _ _ _ u R Hi ltac:(by left) ltac:(done)) as (D & pl' & fn & args' & ty & va & vs & _ & Hj & _ & _ & _ & HP).
      exists pl', fn, args'. split; [done|]. intros s Es. destruct (arena_of_some _ _ Es) as (_ & Em & _). unfold rt in *. rewrite Em in HP.
      by apply (ffi_call_ok s pl' fn ty va vs args').
Qed.

(** C7: no task is forgotten.  In every state that a run can reach, the
    thread that the record of a live task names can move: it runs the task
    or another one, has to deal with one that switched back, is about to
    look into a ready queue that is not empty, or is asleep and has been
    signalled.  No thread sleeps beside its task, and no task is put where
    no thread looks. *)
Theorem runs_progress (w w' : run) (L : gmap Z Z) (ts : list (Z * Z * Z)) (qss : list (list (Z * Z))) (Ds : gmap Z (gmap Z Z)) :
  RunInv w L ts qss Ds -> rtc (rstep makecontext) w w' ->
  exists L' ts' qss' Ds', RunInv w' L' ts' qss' Ds' /\
    forall t, t ∈ ts'.*1.*2 -> exists i, (i < 12)%nat /\ ld (g_mem (rt_gc (mc_rt (r_mc w')))) (t + o_task_sched_id) = Z.of_nat i /\ busy w' i.
Proof using HFfi.
  clear HLib. intros R Hw. destruct (steps_ok makecontext w w' Hw) as (L' & ts' & qss' & Ds' & R'); [eauto|].
  exists L', ts', qss', Ds'. split; [done|]. intros t Ht. by eapply R_busy.
Qed.
End start.

(** ** Instances *)

Lemma runs_safe_witness : exists w w', @run_step bump_os tiny_ffi plain_context w (Pop 1) = Some w'.
Proof.
  destruct (@runs_safe bump_os bump_laws tiny_ffi _ tiny_lib _ plain_context (Collector ∅ [] None [] None ∅) ∅ (fun i => i) 77 [[97]] 25 3 0) as
    (t & args & pr & payload & _ & HS).
  - split; [|done]. intros i _. split; [by eexists|done].
  - done.
  - apply Forall_singleton. unfold arg_ok, REQUEST_MAX. split; [rewrite elem_of_cons, elem_of_nil; lia|cbn; lia].
  - lia.
  - vm_compute. lia.
  - apply bump_room. vm_compute. discriminate.
  - destruct (HS _ (rtc_refl _ _)) as [Hen _]. destruct (Hen (Pop 1)) as [w' E]; [reflexivity|]. eexists _, w'. exact E.
Defined.

Lemma runs_started : exists w L ts qss Ds, @RunInv bump_os bump_laws tiny_ffi w L ts qss Ds.
Proof.
  destruct (@start_ok bump_os bump_laws tiny_ffi _ tiny_lib _ plain_context (Collector ∅ [] None [] None ∅) ∅ (fun i => i) 77 [[97]] 25 3 0) as
    (t & args & pr & payload & _ & L & ts & qss & Ds & R).
  - split; [|done]. intros i _. split; [by eexists|done].
  - done.
  - apply Forall_singleton. unfold arg_ok, REQUEST_MAX. split; [rewrite elem_of_cons, elem_of_nil; lia|cbn; lia].
  - lia.
  - vm_compute. lia.
  - apply bump_room. vm_compute. discriminate.
  - eauto 10.
Qed.

Lemma runs_progress_witness : exists (w : run) (L : gmap Z Z) (ts : list (Z * Z * Z)) (qss : list (list (Z * Z))) (Ds : gmap Z (gmap Z Z)),
  @RunInv bump_os bump_laws tiny_ffi w L ts qss Ds /\ forall t, t ∈ ts.*1.*2 -> exists i, busy w i.
Proof.
  destruct runs_started as (w & L & ts & qss & Ds & R).
  destruct (@runs_progress bump_os bump_laws tiny_ffi _ plain_context w w L ts qss Ds R (rtc_refl _ _)) as (L' & ts' & qss' & Ds' & R' & HB).
  exists w, L', ts', qss', Ds'. split; [exact R'|]. intros t Ht. destruct (HB t Ht) as (i & _ & _ & Hi). by exists i.
Defined.

(** A run of one program: the first task, on thread 1, starts a second one
    on thread 3 and is preempted; both return, and the first one is
    destroyed while the second is still in the table. *)
Definition first_run : option (Z * list place) :=
  '(t, args, pr) ← boot;
  s ← arena_of (rt_gc (pr_rt pr));
  let payload := match g_tasks (rt_gc (pr_rt pr)) !! t with Some (_, c) => mc_regs c 0 | None => 0 end in
  let w := run_start pr {[t := (payload, 77, [args])]} in
  w ← foldl (fun w a => w ← w; @run_step bump_os tiny_ffi plain_context w a) (Some w)
    [Pop 3; Pop 1; Spawn 1 88 [5; 6] 27 4 0; Wake 3; Tick 1; Yield 1; Settle 1; Pop 3; Pop 1; Return 3; Return 1; Settle 1];
  Some (task_count (mc_rt (r_mc w)), take 4 (r_places w)).

Lemma first_run_ends : exists u, first_run = Some (1, [Idle; Idle; Idle; Finished u]).
Proof. eexists. vm_compute. reflexivity. Qed.
